(* ===== verification/_CoqProject ===== *)
-Q . S2P
Prelude.v
GoFloat.v
GoStrconv.v
GoJSON.v
GoStrings.v
Models.v
Contracts.v
JobQueue.v
Fixtures.v
JobQueueSpec.v
JobQueueProps.v
Steps.v
Processors.v
Orchestrator.v
GoTime.v
Source.v
SourceProps.v
Worker.v
WorkerProps.v
Control.v
ControlProps.v
System.v
Execution.v
ExecutionProps.v
RoutingPolicy.v
GoSort.v
Arbitration.v
GoHeap.v
TaskQueue.v
AgentWorld.v
ExternalActions.v
ExternalActionsProps.v
ProviderRouting.v
ProviderRoutingProps.v
ProviderQuota.v
DependencyGraph.v
GoalPlanning.v
GoalPlanningProps.v
GoalPlanningDemo.v
Scheduling.v
SchedulingProps.v
SchedulingCalendar.v
Actuation.v
ActuationProps.v
ActuationRuns.v
AutonomyConfig.v
Autonomy.v
AutonomyProps.v
AutonomyControl.v
AutonomyCalls.v
AutonomyDemo.v
Governance.v
GovernanceProps.v
ExecutionLoop.v
ExecutionLoopProps.v
ExecutionLoopTheorems.v
TaskOrchestrator.v
TaskOrchestratorProps.v
Deployment.v
DeployedGovernance.v
TaskAdapter.v
AutonomyInvariant.v
FeedbackStore.v
Chain.v
ChainProps.v
ActionMemory.v
ActionEngine.v
ActionEngineProps.v
TacticalPlanner.v
TacticalProps.v
Outcome.v
LearningLoop.v
AgentCycleDemo.v
DecisionGraph.v
DecisionGraphProps.v
GraphEvaluator.v
GraphSelection.v
GraphPlanner.v
GraphPlannerProps.v
GraphPlannerDemo.v
