(* ===== verification/Prelude.v ===== *)
(** * Arcanum (Runeforge): verification of its processing core and agent engines

    The program is a Go system of several services around one PostgreSQL
    database and NATS.  Two halves are modelled.

    *** The processing pipeline

    Source tasks are synchronised from a connector; changed tasks become jobs
    in a queue table; workers lease the jobs, run a processor (usually an LLM
    call through a chain of candidate models) and store a proposal; a control
    loop repairs the queue and derives routing advice.

    - [Models]: [internal/db/models] and the world a service call runs in:
      database, clock, UUID supply, script of faults, observable events.
    - [Contracts]: [internal/contracts], subjects and events.
    - [JobQueue], [JobQueueSpec], [JobQueueProps]: [internal/jobs/queue.go].
      [JobsTable] has the SQL statements as functions on the table, [Queue] the
      Go methods.  [JobQueueSpec] gives the abstract alphabet of calls ([Op],
      [apply_op]), the invariant [db_wf] and the life cycle of one job.
    - [Steps]: computations whose database writes are all queue calls.
    - [Processors]: [internal/processors/{processor,composite}.go].
    - [Orchestrator]: [internal/orchestrator], the three message handlers.
    - [Source], [SourceProps]: [internal/source], hashing, detection, sync.
    - [Worker], [WorkerProps]: [internal/worker], against the interface
      [Queuer] with the laws [QueuerLaws], which the queue satisfies.
    - [Control], [ControlProps]: [internal/control], scan and optimizer.
    - [System]: all services on one database, as one transition system.
    - [Execution], [ExecutionProps]: [internal/providers/execution], the walk
      along a candidate chain; [RoutingPolicy]: [internal/providers/routing].

    *** The agent engines

    Each engine of [internal/agent] keeps its own tables and consults others
    through small provider interfaces.

    - [AgentWorld]: the common state [Agent D X] (tables [D], provider state
      [X], fault script, audit log), its effects and a Hoare logic ([triple]).
    - [Governance], [GovernanceProps]: [governance], the operator's modes and
      overrides, and the fail-safe reading the other engines rely on.
    - [ExternalActions], [ExternalActionsProps]: [external_actions], actions
      created, reviewed, and executed through connectors.
    - [ExecutionLoop], [ExecutionLoopProps], [ExecutionLoopTheorems]:
      [execution_loop], plan, execute, observe, adapt.
    - [TaskQueue], [TaskOrchestrator], [TaskOrchestratorProps], [TaskAdapter]:
      [task_orchestrator], scored tasks dispatched to the execution loop.
    - [Arbitration]: [arbitration], conflicting learning signals.
    - [ProviderRouting], [ProviderRoutingProps], [ProviderQuota]:
      [provider_routing], providers filtered, scored and ranked for a task, and
      the tracker of their quotas.
    - [GoalPlanning], [GoalPlanningProps], [GoalPlanningDemo]:
      [goal_planning], goals decomposed into subgoals whose progress is measured
      and for which tasks are emitted; [DependencyGraph]: its graph algorithms.
    - [Scheduling], [SchedulingProps], [SchedulingCalendar]: [scheduling], slots
      of a working day, the choice among them, and the calendar.
    - [Actuation], [ActuationProps], [ActuationRuns]: [actuation], proposals of
      corrective actions, reviewed and routed.
    - [AutonomyConfig], [Autonomy], [AutonomyProps], [AutonomyControl],
      [AutonomyCalls], [AutonomyInvariant], [AutonomyDemo], [FeedbackStore]:
      [autonomy], the runtime whose ticks drive the other engines in cycles,
      moves between modes, and links decisions, tasks and feedback.
    - [ActionMemory]: [actionmemory], counts of outcomes and the feedback drawn
      from them; [ActionEngine], [ActionEngineProps]: [goals] and [actions], the
      action cycle; [TacticalPlanner], [TacticalProps]: [planning]; [Outcome]:
      [outcome]; [LearningLoop], [AgentCycleDemo]: the four together.
    - [DecisionGraph], [DecisionGraphProps], [GraphEvaluator], [GraphSelection],
      [GraphPlanner], [GraphPlannerProps], [GraphPlannerDemo]: [decision_graph],
      the strategy provider of the tactical planner: plans as paths of a graph,
      scored through a dozen optional layers.
    - [Deployment], [DeployedGovernance], [Chain], [ChainProps]: the bridges of
      [cmd/api-gateway/main.go], by which the task orchestrator runs the
      execution loop, the loop the external actions, both ask governance, and
      the autonomy runtime turns the actuation engine's decisions into tasks.

    Below both: [GoFloat] (float64 as IEEE-754 binary64), [GoStrconv] ([%q],
    [%.nf], [strconv.ParseFloat]), [GoStrings] (trimming and splitting),
    [GoTime] (instants, dates, RFC 3339), [GoSort] ([sort.SliceStable]: its
    result for strict weak orders, its algorithm for the others), [GoHeap]
    ([container/heap]), [GoJSON] (validity and string encoding), and this file.
    [Fixtures] and the [Demo] files hold concrete environments, the witnesses
    of theorems, and runs on which the code departs from its comments.

    *** What the theorems show

    - The queue: its invariant in every reachable world and in the whole
      [System]; refinement of the life cycle; exclusive leases and ownership;
      finality of succeeded jobs; the bound on attempts; the functional
      behaviour of enqueue, lease, fail and retry, errors included.
    - Worker, control loop, source sync: success of a run under any
      interleaving, the count of failures, bounded concurrency, a scan that
      leaves nothing stuck, exact change detection, gapless snapshots.
    - Providers: the chain walk ends, within its retry bound, with a validated
      response or a classified failure; chains are resolved exactly.
    - Agents: the invariant of the task orchestrator and the gates of its
      dispatch; the heap refines a bag; score bounds; reviews and the life
      cycle of external actions; bounds on executions; termination of the
      execution loop, its need of a success to complete, and the round trip of a
      task through its table, the JSON of the plan column included; governance modes, their fail-safe reading, and what they block;
      the engines as deployed.
    - Provider routing: what a plan may name, how it is ranked, and the quota
      tracker, whose counters are the history of each window, so that limits
      hold for a client that records what it was admitted.
    - Goal planning: the life cycle of subgoals under any calls, statuses set by
      hand included, and faults: one transition per call, each allowed; one
      measurement of progress and one round of emissions exactly, decomposition
      once per goal, and what follows from the current value never being fed;
      cycle detection and topological sorting of the dependency graph.
    - Scheduling: slots are sound, the recommendation is the best-scored slot
      under the daily cap, and nothing reaches the calendar unapproved.
    - Actuation: the rules give at most one proposal per type, the one of
      highest priority; a stored decision was proposed for a signal or risk read
      then, keeps its columns and follows its life cycle.
    - Autonomy: ticks and operator calls refine an abstract control of modes
      and counters; cycles keep their pace; every call that makes, links or
      moves a task is justified by an earlier answer; in the deployed chain a
      decision becomes at most one task, and only one that needs no review.
    - Decision graph: the paths enumerated are the plans, within the bounds;
      the selection is the best viable path; an override is one of the
      planner's candidates, whatever the layers' providers answer.
    - Action cycle: action memory stays empty, since PostgreSQL refuses its
      upserts; every planned action
      is rejected, executed or failed, under the guardrails' conditions; the
      tactical planner's choice is the best candidate; and what the loop as
      deployed cannot learn.

    Some theorems state defects: behaviour the code has and, by its comments or
    its purpose, should not have.  Their doc comments say so.

    *** Modelling choices

    - Effects are state passing.  A database call consumes one entry of a
      script of faults: no fault, an error before the statement takes effect,
      or an error after it.  Theorems hold for every script unless they ask for
      an empty one.
    - What the environment supplies (clock, iteration order of a map, mode
      flags read more than once, the pipeline's tables as the agent reads them)
      is a function of a counter, hence arbitrary and different at each reading.
      UUIDs are [UuidPkg], distinct where the hypothesis [UuidLaws] says so.
    - Engines that share one state see their tables and fields in it through
      [Part] with the laws [PartLaws]; another engine an engine calls is a
      computation on the shared state.
    - Calls of one engine are atomic with respect to each other.  In the
      pipeline, where services run concurrently on one table, [JobQueueSpec]
      interleaves single queue calls; [System] interleaves whole actions of the
      services, with further steps between the heartbeats of a job that runs.
    - Integers of the schema are range-checked where the column is narrower
      than the Go type; instants are nanoseconds, truncated to microseconds
      when stored.  A string is a sequence of bytes taken to be valid UTF-8
      without NUL, the ones PostgreSQL stores.
    - Products and sums of floats are rounded separately, as on amd64.
    - [ORDER BY] leaves ties in the order of the table's listing; a row that no
      order singles out may be any.
    - Errors of audit records are dropped as in the code; logs, metrics and
      tracing have no counterpart.

    *** Fuel

    No statement is conditional on fuel.  [json_Valid] gives its parser two
    units per character, which [parse_fuel_enough] shows to be enough.
    [run_passes] runs on [loop_fuel], the iterations the task has left, and
    [run_loop_bounded] shows that the loop satisfies its own equation, hence
    that fuel never ends it.  The candidate walk recurses on the chain and on
    the retries left, the sifts of the heap on the index.  The merges of
    [GoSort] get the length of the slice; for at most 20 elements, where its
    theorems about order apply, there is none.  The searches of
    [DependencyGraph] get one unit per node of the graph, which
    [HasCycle_correct], [TopologicalSort_correct] and [Depth_correct] show to
    be enough, since they have no hypothesis on it.  The enumeration of
    [DecisionGraph] gets the graph's depth, and [paths_are_the_plans] shows
    that it ends with every path.

    *** Not modelled

    - Code outside the repository: connectors of external services, LLM
      endpoints, SHA-256, JSON codecs of whole values, JSONB's normal form, and how
      PostgreSQL types a statement's parameters; they are parameters with stated
      laws.  The plan column's JSON is modelled up to that normal form.
    - HTTP handlers, Telegram, notification and writeback services, command
      lines, configuration, migrations, logging, metrics, the web interface:
      input/output and construction of the parts above.
    - The LLM and rules processors, prompts, the profile DSL and provider
      clients: text assembly around external calls.
    - The remaining engines of [internal/agent]: learning (strategy,
      exploration, calibration, path, comparative and counterfactual learning,
      meta-reasoning, causal attribution), economy (income, pricing, discovery,
      portfolio, financial truth and pressure), reflection, objective, policy,
      stability, signals, capacity and self-extension.  They hold statistics and
      scores of their own; where a modelled engine asks one of them, it is a
      provider that may answer anything, so that the theorems hold for whatever
      it says.  The scheduler only starts cycles on timers. *)

From stdpp Require Import base gmap strings list fin_maps pretty sorting.
From Stdlib Require Import ZArith Lia String Ascii.

Open Scope Z_scope.

(** ** Record update

    [r <| f := v |>] is the record [r] with field [f] replaced.  A record type
    opts in with a [Settable] instance, its eta expansion written with its
    projections, so that a projection of an updated record reduces even when
    the record itself is a variable. *)

Class Settable (R : Type) := eta_of : R → R.

Class Setter {R T : Type} (proj : R → T) := set_field : (T → T) → R → R.
Arguments set_field {R T} proj {Setter} _ _ /.

Ltac build_setter :=
  lazymatch goal with
  | |- @Setter ?R ?T ?proj =>
      let inst := constr:(_ : Settable R) in
      exact (fun (f : T → T) (r : R) =>
               ltac:(let body := eval hnf in (@eta_of R inst r) in
                     lazymatch body with
                     | context C [proj r] =>
                         let b := context C [f (proj r)] in exact b
                     end))
  end.

#[global] Hint Extern 1 (Setter _) => build_setter : typeclass_instances.

Declare Scope arcanum_scope.
Delimit Scope arcanum_scope with arc.
Open Scope arcanum_scope.

Notation "r <| f := v |>" := (set_field f (fun _ => v) r)
  (at level 1, left associativity, f at level 0, v at level 99,
   format "r  <| f  :=  v |>") : arcanum_scope.


(** ** Errors

    A Go [error] value, as far as the program inspects one: its text
    ([Error()]), the error it wraps ([Unwrap()]) and the dynamic types the
    code tests for. *)

Inductive error : Type :=
| Errorf (msg : string)                        (* errors.New, fmt.Errorf without %w *)
| Wrapf (msg : string) (inner : error)         (* fmt.Errorf with one %w *)
| ErrNoRows                                    (* pgx.ErrNoRows *)
| DeadlineExceeded                             (* context.DeadlineExceeded *)
| Canceled                                     (* context.Canceled *)
| NetError (timeout : bool) (msg : string)     (* a net.Error *)
| ValidationErr (reason : string).             (* *execution.ValidationError *)

#[export] Instance error_eq_dec : EqDecision error.
Proof. solve_decision. Defined.

(** [err.Error()] *)
Definition error_text (e : error) : string :=
  match e with
  | Errorf m | Wrapf m _ | NetError _ m => m
  | ErrNoRows => "no rows in result set"
  | DeadlineExceeded => "context deadline exceeded"
  | Canceled => "context canceled"
  | ValidationErr r => "validation failed: " +:+ r
  end.

(** [fmt.Errorf("<prefix>%w", e)] *)
Definition wrap (prefix : string) (e : error) : error :=
  Wrapf (prefix +:+ error_text e) e.

(** The result of a Go function returning [(T, error)]. *)
Inductive res (A : Type) : Type :=
| Ok (a : A)
| Err (e : error).
Arguments Ok {A} _.
Arguments Err {A} _.

Definition is_ok {A} (r : res A) : bool := match r with Ok _ => true | Err _ => false end.

(** ** Stateful computations *)

Definition St (W A : Type) : Type := W → A * W.

Definition retS {W A} (a : A) : St W A := fun w => (a, w).
Definition bindS {W A B} (c : St W A) (k : A → St W B) : St W B :=
  fun w => let '(a, w') := c w in k a w'.

Notation "'let!' x := c 'in' k" := (bindS c (fun x => k))
  (at level 10, x pattern, c at level 100, k at level 200,
   format "'[hv' 'let!'  x  :=  c  'in' '//' k ']'") : arcanum_scope.

(** A [for range] loop whose body only updates the state. *)
Fixpoint forS {W A} (f : A → St W unit) (l : list A) : St W unit :=
  match l with
  | [] => retS tt
  | x :: l' => let! _ := f x in forS f l'
  end.

Lemma bindS_run {W A B} (c : St W A) (k : A → St W B) w :
  bindS c k w = k (fst (c w)) (snd (c w)).
Proof. unfold bindS. by destruct (c w). Qed.

Lemma forS_invariant {W A} (I : W → Prop) (f : A → St W unit) l :
  (∀ x w, x ∈ l → I w → I (snd (f x w))) →
  ∀ w, I w → I (snd (forS f l w)).
Proof.
  induction l as [|x l IH]; intros Hf w HI; [done|].
  cbn [forS]. rewrite bindS_run. apply IH.
  - intros y w' Hy. apply Hf. by apply elem_of_cons; right.
  - apply Hf; [by apply elem_of_cons; left|done].
Qed.

(** [returns c P]: whatever the state, the result of [c] satisfies [P]. *)
Definition returns {W A} (c : St W A) (P : A → Prop) : Prop := ∀ w, P (fst (c w)).

Lemma returns_ret {W A} (a : A) (P : A → Prop) : P a → returns (W := W) (retS a) P.
Proof. intros H w. exact H. Qed.

Lemma returns_any {W A} (c : St W A) : returns c (fun _ => True).
Proof. done. Qed.

Lemma returns_bind {W A B} (c : St W A) (k : A → St W B) (Q : A → Prop) (P : B → Prop) :
  returns c Q → (∀ a, Q a → returns (k a) P) → returns (bindS c k) P.
Proof. intros Hc Hk w. rewrite bindS_run. apply Hk, Hc. Qed.

Lemma returns_weaken {W A} (c : St W A) (P P' : A → Prop) :
  returns c P → (∀ a, P a → P' a) → returns c P'.
Proof. intros H HP w. apply HP, H. Qed.

(** ** Machine integers *)

Definition int64_min : Z := - 2 ^ 63.
Definition int64_max : Z := 2 ^ 63 - 1.

(** Two's complement wrap-around of Go's [int] and [int64]. *)
Definition wrap64 (z : Z) : Z := (z + 2 ^ 63) mod 2 ^ 64 - 2 ^ 63.

Definition in_int64 (z : Z) : Prop := int64_min ≤ z ≤ int64_max.

Lemma wrap64_id z : in_int64 z → wrap64 z = z.
Proof.
  unfold in_int64, wrap64, int64_min, int64_max. intros H.
  rewrite Z.mod_small; lia.
Qed.

Lemma wrap64_range z : in_int64 (wrap64 z).
Proof.
  unfold in_int64, wrap64, int64_min, int64_max.
  pose proof (Z.mod_pos_bound (z + 2 ^ 63) (2 ^ 64)). lia.
Qed.

Lemma wrap64_add_l a b : wrap64 (wrap64 a + b) = wrap64 (a + b).
Proof.
  unfold wrap64.
  replace ((a + 2 ^ 63) mod 2 ^ 64 - 2 ^ 63 + b + 2 ^ 63) with ((a + 2 ^ 63) mod 2 ^ 64 + b) by lia.
  rewrite Zplus_mod_idemp_l. do 2 f_equal. lia.
Qed.

(** PostgreSQL's [INT] column type. *)
Definition in_int4 (z : Z) : bool := bool_decide (- 2 ^ 31 ≤ z ≤ 2 ^ 31 - 1).

(** ** Strings *)

(** [strings.Contains s sub] *)
Fixpoint contains (s sub : string) : bool :=
  String.prefix sub s ||
  match s with
  | EmptyString => false
  | String _ s' => contains s' sub
  end.

Lemma string_app_cons c s t : String c s +:+ t = String c (s +:+ t).
Proof. reflexivity. Qed.

Lemma string_app_assoc a b c : (a +:+ b) +:+ c = a +:+ b +:+ c.
Proof. induction a as [|x a IH]; [done|]. by rewrite !string_app_cons, IH. Qed.

Lemma string_app_nil_r a : a +:+ "" = a.
Proof. induction a as [|x a IH]; [done|]. by rewrite string_app_cons, IH. Qed.

Lemma prefix_app p s : String.prefix p (p +:+ s) = true.
Proof.
  induction p as [|c p IH]; [by destruct s|].
  rewrite string_app_cons. cbn. destruct (ascii_dec c c); [apply IH|congruence].
Qed.

Lemma prefix_split p s : String.prefix p s = true → ∃ t, s = p +:+ t.
Proof.
  revert s. induction p as [|c p IH]; intros s H; [by exists s|].
  destruct s as [|d s]; cbn in H; [done|].
  destruct (ascii_dec c d) as [->|]; [|done].
  destruct (IH s H) as [t ->]. by exists t.
Qed.

Lemma contains_prefix s sub : String.prefix sub s = true → contains s sub = true.
Proof. intros H. destruct s; cbn [contains]; apply orb_true_iff; by left. Qed.

Lemma contains_spec s sub :
  contains s sub = true ↔ ∃ a b, s = a +:+ sub +:+ b.
Proof.
  split.
  - induction s as [|c s IH]; cbn [contains]; intros H; apply orb_true_iff in H as [H|H];
      try by (destruct (prefix_split _ _ H) as [t Ht]; exists "", t).
    + done.
    + destruct (IH H) as (a & b & ->). by exists (String c a), b.
  - intros (a & b & ->). induction a as [|c a IH].
    + apply contains_prefix, (prefix_app sub b).
    + rewrite string_app_cons. cbn [contains]. apply orb_true_iff. by right.
Qed.

(** ** Boolean filters *)

Lemma filter_true {A} (p : A → bool) l : (∀ x, x ∈ l → p x = true) → List.filter p l = l.
Proof.
  induction l as [|x l IH]; intros Hp; [done|]. cbn.
  rewrite Hp by (apply elem_of_cons; by left). f_equal. apply IH.
  intros y Hy. apply Hp, elem_of_cons. by right.
Qed.

Lemma filter_false {A} (p : A → bool) l : (∀ x, x ∈ l → p x = false) → List.filter p l = [].
Proof.
  induction l as [|x l IH]; intros Hp; [done|]. cbn.
  rewrite Hp by (apply elem_of_cons; by left). apply IH.
  intros y Hy. apply Hp, elem_of_cons. by right.
Qed.

Lemma filter_filter_and {A} (p q : A → bool) l :
  List.filter p (List.filter q l) = List.filter (fun x => q x && p x) l.
Proof.
  induction l as [|x l IH]; [done|]. cbn. destruct (q x); cbn; [|done].
  destruct (p x); by rewrite IH.
Qed.

Lemma existsb_filter {A} (p q : A → bool) l :
  existsb p (List.filter q l) = existsb (fun x => q x && p x) l.
Proof. induction l as [|x l IH]; [done|]. cbn. destruct (q x); cbn; by rewrite IH. Qed.

Lemma existsb_elem {A} (p : A → bool) l : existsb p l = true ↔ ∃ x, x ∈ l ∧ p x = true.
Proof.
  rewrite existsb_exists. split; intros (x & Hx & Hp); exists x; by rewrite list_elem_of_In in *.
Qed.

Lemma existsb_perm {A} (p : A → bool) l k : l ≡ₚ k → existsb p l = existsb p k.
Proof.
  induction 1 as [|x l k _ IH|x y l|l k m _ IH1 _ IH2]; cbn; [done|by rewrite IH| |congruence].
  rewrite !orb_assoc. f_equal. apply orb_comm.
Qed.

Lemma filter_perm {A} (p : A → bool) l k : l ≡ₚ k → List.filter p l ≡ₚ List.filter p k.
Proof.
  induction 1 as [|x l k _ IH|x y l|l k m _ IH1 _ IH2]; cbn; [done| | |by etrans].
  - destruct (p x); by rewrite IH.
  - destruct (p x), (p y); try done. apply Permutation_swap.
Qed.

(** Splitting a list by a test loses nothing. *)
Lemma filter_split {A} (p : A → bool) l :
  List.filter p l ++ List.filter (fun x => negb (p x)) l ≡ₚ l.
Proof.
  induction l as [|x l IH]; [done|]. cbn. destruct (p x); cbn.
  - by rewrite IH.
  - by rewrite <- Permutation_middle, IH.
Qed.

(** ** Choosing a best element of a list

    [select_best better l] keeps the earliest element that no later element
    beats: the row an [ORDER BY ... LIMIT 1] returns. *)

Section select_best.
Context {A : Type} (better : A → A → bool).

Fixpoint best_from (best : A) (l : list A) : A :=
  match l with
  | [] => best
  | x :: l' => best_from (if better x best then x else best) l'
  end.

Definition select_best (l : list A) : option A :=
  match l with
  | [] => None
  | x :: l' => Some (best_from x l')
  end.

Hypothesis better_irrefl : ∀ x, better x x = false.
Hypothesis better_asym : ∀ x y, better x y = true → better y x = false.
Hypothesis better_negtrans :
  ∀ x y z, better x y = false → better y z = false → better x z = false.

Lemma best_from_elem b l : best_from b l ∈ b :: l.
Proof.
  revert b. induction l as [|x l IH]; intros b; cbn; [by apply elem_of_cons; left|].
  destruct (better x b).
  - apply elem_of_cons; right. apply IH.
  - pose proof (IH b) as [Hb|Hb]%elem_of_cons; rewrite !elem_of_cons; auto.
Qed.

Lemma best_from_max b l y : y ∈ b :: l → better y (best_from b l) = false.
Proof using better_irrefl better_asym better_negtrans.
  revert b y. induction l as [|x l IH]; intros b y Hy.
  - apply list_elem_of_singleton in Hy as ->. apply better_irrefl.
  - cbn [best_from]. destruct (better x b) eqn:E.
    + rewrite !elem_of_cons in Hy. destruct Hy as [->|[->|Hy]].
      * eapply better_negtrans; [by apply better_asym|]. apply IH, elem_of_cons; by left.
      * apply IH, elem_of_cons; by left.
      * apply IH, elem_of_cons; by right.
    + rewrite !elem_of_cons in Hy. destruct Hy as [->|[->|Hy]].
      * apply IH, elem_of_cons; by left.
      * eapply better_negtrans; [done|]. apply IH, elem_of_cons; by left.
      * apply IH, elem_of_cons; by right.
Qed.

Lemma select_best_None l : select_best l = None ↔ l = [].
Proof. by destruct l. Qed.

Lemma select_best_Some l x :
  select_best l = Some x → x ∈ l ∧ ∀ y, y ∈ l → better y x = false.
Proof using better_irrefl better_asym better_negtrans.
  destruct l as [|b l]; cbn; [done|]. intros [= <-].
  split; [apply best_from_elem|apply best_from_max].
Qed.
End select_best.

(** ** Tactics and hints *)

Create HintDb arcanum.
Create HintDb frame.

(** Split every conjunction and existential of the context. *)
Ltac split_hyps :=
  repeat match goal with
  | H : _ ∧ _ |- _ => destruct H
  | H : ∃ _, _ |- _ => destruct H
  end.

(** Case analysis on every test a definition makes, in the goal. *)
Ltac case_tests :=
  repeat (case_match; simplify_eq/=).
