(* ===== verification/GoFloat.v ===== *)
(** * Go's [float64]

    IEEE-754 binary64 numbers as the Standard Library specifies them
    ([SpecFloat] at precision 53 and maximal exponent 1024): executable, with
    signed zeros, infinities and one NaN, and free of axioms.  Comparisons
    follow Go: every comparison with a NaN is false (and [!=] is true).

    A decimal literal [n/d] of the source denotes the float nearest to it,
    which is the correctly rounded quotient of the exact floats [n] and [d].
    Products and sums are rounded separately, as the amd64 compiler does.

    The last part is about signs: sums, products and quotients of non-negative
    numbers are non-negative numbers, and differences of finite ones are numbers:
    the facts that keep NaN out of a score. *)

From stdpp Require Import base tactics numbers.
From Stdlib Require Import ZArith Lia Floats.SpecFloat.
From S2P Require Import Prelude.

Open Scope Z_scope.

Abbreviation float64 := spec_float.

Definition fadd (x y : float64) : float64 := SFadd 53 1024 x y.
Definition fsub (x y : float64) : float64 := SFsub 53 1024 x y.
Definition fmul (x y : float64) : float64 := SFmul 53 1024 x y.
Definition fdiv (x y : float64) : float64 := SFdiv 53 1024 x y.

(** [x < y], [x <= y], [x == y] *)
Definition fltb (x y : float64) : bool := SFltb x y.
Definition fleb (x y : float64) : bool := SFleb x y.
Definition feqb (x y : float64) : bool := SFeqb x y.

(** [float64(z)] for an integer [z]. *)
Definition f_of_Z (z : Z) : float64 := binary_normalize 53 1024 z 0 false.

(** The literal with value [n/d]. *)
Definition lit (n d : Z) : float64 := fdiv (f_of_Z n) (f_of_Z d).

Definition f0 : float64 := S754_zero false.
Definition f1 : float64 := f_of_Z 1.

Definition is_nan (x : float64) : bool :=
  match x with S754_nan => true | _ => false end.

Definition is_finite (x : float64) : bool :=
  match x with S754_zero _ | S754_finite _ _ _ => true | _ => false end.

(** C's [rint]: the nearest integer, ties to even; [None] when there is none. *)
Definition f_rint (x : float64) : option Z :=
  match x with
  | S754_zero _ => Some 0
  | S754_finite s m e =>
      let a :=
        match e with
        | Zneg k =>
            let q := Z.pos m / 2 ^ Z.pos k in
            let r := Z.pos m mod 2 ^ Z.pos k in
            match 2 * r ?= 2 ^ Z.pos k with
            | Lt => q
            | Gt => q + 1
            | Eq => if Z.even q then q else q + 1
            end
        | _ => Z.pos m * 2 ^ e
        end in
      Some (if s then - a else a)
  | _ => None
  end.

(** PostgreSQL's order of [float8]: a NaN is equal to itself and above all numbers. *)
Definition pg_flt (x y : float64) : bool :=
  if is_nan y then negb (is_nan x) else if is_nan x then false else fltb x y.

(** ** The order of the non-NaN floats

    [SFcompare] is the lexicographic order of a triple of integers; the
    lemmas below turn Go's comparisons into linear integer facts, which
    [float_order] decides. *)

Definition k1 (x : float64) : Z :=
  match x with
  | S754_infinity s => if s then -2 else 2
  | S754_finite s _ _ => if s then -1 else 1
  | _ => 0
  end.
Definition k2 (x : float64) : Z :=
  match x with S754_finite s _ e => if s then - e else e | _ => 0 end.
Definition k3 (x : float64) : Z :=
  match x with S754_finite s m _ => if s then - Z.pos m else Z.pos m | _ => 0 end.

Definition key_lt (x y : float64) : Prop :=
  k1 x < k1 y ∨ (k1 x = k1 y ∧ (k2 x < k2 y ∨ (k2 x = k2 y ∧ k3 x < k3 y))).

Lemma SFcompare_key x y :
  is_nan x = false → is_nan y = false →
  match SFcompare x y with
  | Some Lt => key_lt x y
  | Some Eq => k1 x = k1 y ∧ k2 x = k2 y ∧ k3 x = k3 y
  | Some Gt => key_lt y x
  | None => False
  end.
Proof.
  unfold key_lt.
  destruct x as [[]|[]| |[] mx ex], y as [[]|[]| |[] my ey]; cbn; intros; try done; try lia;
    destruct (Z.compare_spec ex ey); cbn; try lia;
    change (Pos.compare_cont Eq mx my) with (Pos.compare mx my);
    destruct (Pos.compare_spec mx my); cbn; lia.
Qed.

Lemma SFcompare_nan x y :
  SFcompare x y = None ↔ is_nan x = true ∨ is_nan y = true.
Proof.
  destruct x as [[]|[]| |[] mx ex], y as [[]|[]| |[] my ey]; cbn; intuition congruence.
Qed.

Ltac by_key x y :=
  destruct (is_nan x) eqn:?, (is_nan y) eqn:?;
  pose proof (SFcompare_nan x y); try pose proof (SFcompare_key x y ltac:(done) ltac:(done));
  unfold key_lt in *;
  destruct (SFcompare x y) as [[]|]; intuition (try congruence; try lia).

Lemma fltb_iff x y :
  fltb x y = true ↔ is_nan x = false ∧ is_nan y = false ∧ key_lt x y.
Proof. unfold fltb, SFltb. by_key x y. Qed.

Lemma fleb_iff x y :
  fleb x y = true ↔ is_nan x = false ∧ is_nan y = false ∧ ¬ key_lt y x.
Proof. unfold fleb, SFleb. by_key x y. Qed.

Lemma feqb_iff x y :
  feqb x y = true ↔
  is_nan x = false ∧ is_nan y = false ∧ k1 x = k1 y ∧ k2 x = k2 y ∧ k3 x = k3 y.
Proof. unfold feqb, SFeqb. by_key x y. Qed.

(** Decides goals about [fltb], [fleb], [feqb] and [is_nan] that follow from
    the order; hypotheses of the same form are used. *)
Ltac float_order :=
  repeat match goal with
  | H : _ = false |- _ => rewrite <- not_true_iff_false in H
  end;
  try (rewrite <- not_true_iff_false);
  rewrite ?fltb_iff, ?fleb_iff, ?feqb_iff in *;
  unfold key_lt in *;
  rewrite ?not_true_iff_false in *;
  try lia; intuition (try congruence; try lia).

Lemma fleb_refl x : is_nan x = false → fleb x x = true.
Proof. intros. float_order. Qed.

Lemma fltb_irrefl x : fltb x x = false.
Proof. float_order. Qed.

Lemma fltb_asym x y : fltb x y = true → fltb y x = false.
Proof. intros. float_order. Qed.

Lemma fltb_trans x y z : fltb x y = true → fltb y z = true → fltb x z = true.
Proof. intros. float_order. Qed.

Lemma fleb_trans x y z : fleb x y = true → fleb y z = true → fleb x z = true.
Proof. intros. float_order. Qed.

Lemma fltb_false_fleb x y :
  is_nan x = false → is_nan y = false → fltb x y = false → fleb y x = true.
Proof. intros. float_order. Qed.

(** ** Subtraction and order under negation *)

Lemma binary_round_opp s m e :
  binary_round 53 1024 (negb s) m e = SFopp (binary_round 53 1024 s m e).
Proof.
  unfold binary_round. destruct (shl_align m e _) as [mz ez]. unfold binary_round_aux.
  destruct (shr_fexp _ _ _ _) as [r1 e1]. destruct (shr_fexp _ _ _ _) as [r2 e2].
  destruct (shr_m r2); cbn; try done. by destruct (e2 <=? _).
Qed.

Definition is_zero (x : float64) : bool := match x with S754_zero _ => true | _ => false end.

(** Subtraction is antisymmetric, up to the sign of zero. *)
Lemma fsub_swap x y :
  fsub y x = SFopp (fsub x y) ∨ (is_zero (fsub x y) = true ∧ is_zero (fsub y x) = true).
Proof.
  unfold fsub, SFsub. destruct x as [sx|sx| |sx mx ex], y as [sy|sy| |sy my ey];
    try (by left); try (by destruct sx, sy; auto).
  cbv zeta. rewrite (Z.min_comm ey ex).
  set (a := cond_Zopp sx _). set (b := cond_Zopp sy _). clearbody a b.
  replace (b - a) with (- (a - b)) by lia. destruct (a - b) as [|m|m]; cbn [Z.opp binary_normalize].
  - by right.
  - left. apply (binary_round_opp false).
  - left. apply (binary_round_opp true).
Qed.

Lemma keys_opp x : k1 (SFopp x) = - k1 x ∧ k2 (SFopp x) = - k2 x ∧ k3 (SFopp x) = - k3 x ∧
  is_nan (SFopp x) = is_nan x.
Proof. destruct x as [[]|[]| |[] m e]; cbn; lia || auto with lia. Qed.

Lemma fltb_opp x y : fltb (SFopp x) (SFopp y) = fltb y x.
Proof.
  destruct (keys_opp x) as (X1 & X2 & X3 & X4), (keys_opp y) as (Y1 & Y2 & Y3 & Y4).
  apply eq_true_iff_eq. rewrite !fltb_iff. unfold key_lt. rewrite X1, X2, X3, X4, Y1, Y2, Y3, Y4.
  intuition lia.
Qed.

(** [x] exceeds [y] by more than [e] when the difference the other way is below
    [-e]. *)
Lemma fsub_beyond e x y : fltb f0 e = true →
  fltb e (fsub y x) = fltb (fsub x y) (SFopp e).
Proof.
  intros He. destruct (fsub_swap x y) as [E|[E1 E2]].
  - rewrite E. rewrite <- (fltb_opp (SFopp (fsub x y)) e). f_equal.
    by destruct (fsub x y) as [[]|[]| |[] m k].
  - destruct (fsub x y) as [s1| | |], (fsub y x) as [s2| | |]; try done.
    destruct e as [[]|[]| |[] m k]; try done.
Qed.

(** ** Integers

    Products of integers below 2^53 are exact, and [f_rint] recovers them. *)

Definition shl (k : positive) (n : nat) : positive := Nat.iter n xO k.

Lemma shl_value k n : Zpos (shl k n) = Zpos k * 2 ^ Z.of_nat n.
Proof.
  induction n as [|n IH]; [cbn; lia|].
  change (shl k (S n)) with (xO (shl k n)). rewrite Pos2Z.inj_xO, IH, Nat2Z.inj_succ, Z.pow_succ_r; lia.
Qed.

Lemma digits_size p : digits2_pos p = Pos.size p.
Proof. induction p; cbn; congruence. Qed.

Lemma digits_bounds p :
  (2 ^ (Zpos (digits2_pos p) - 1) ≤ Zpos p < 2 ^ Zpos (digits2_pos p))%Z.
Proof.
  rewrite digits_size. pose proof (Pos.size_le p) as H1. pose proof (Pos.size_gt p) as H2.
  apply Pos2Z.pos_lt_pos in H2. apply Pos2Z.pos_le_pos in H1.
  rewrite Pos2Z.inj_pow in H1, H2. rewrite (Pos2Z.inj_xO p) in H1.
  replace (Zpos (Pos.size p)) with (Z.succ (Zpos (Pos.size p) - 1)) in H1 by lia.
  rewrite Z.pow_succ_r in H1 by lia. lia.
Qed.

(** The number of digits is the only exponent that fits. *)
Lemma digits_unique p d : 0 < d → 2 ^ (d - 1) ≤ Zpos p < 2 ^ d → Zpos (digits2_pos p) = d.
Proof.
  intros Hd [H1 H2]. pose proof (digits_bounds p) as [H3 H4].
  assert (2 ^ (d - 1) < 2 ^ Zpos (digits2_pos p)) as Hl by lia.
  assert (2 ^ (Zpos (digits2_pos p) - 1) < 2 ^ d) as Hr by lia.
  apply Z.pow_lt_mono_r_iff in Hl; [|lia..]. apply Z.pow_lt_mono_r_iff in Hr; lia.
Qed.

Lemma digits_shl k n : Zpos (digits2_pos (shl k n)) = Zpos (digits2_pos k) + Z.of_nat n.
Proof.
  induction n as [|n IH]; [change (shl k 0) with k; lia|].
  change (shl k (S n)) with (xO (shl k n)). cbn [digits2_pos]. lia.
Qed.

Lemma iter_pos_nat {A} (f : A → A) p x : iter_pos f p x = Nat.iter (Pos.to_nat p) f x.
Proof.
  revert x. induction p as [p IH|p IH|]; intros x; cbn [iter_pos].
  - rewrite !IH, Pos2Nat.inj_xI, <- Nat.iter_add, Nat.iter_succ_r. f_equal. lia.
  - rewrite !IH, Pos2Nat.inj_xO, <- Nat.iter_add. f_equal. lia.
  - done.
Qed.

Lemma shr_shl k n :
  Nat.iter n shr_1 (Build_shr_record (Zpos (shl k n)) false false)
  = Build_shr_record (Zpos k) false false.
Proof. induction n as [|n IH]; [done|]. rewrite Nat.iter_succ_r. exact IH. Qed.

(** Rounding drops trailing zeros and nothing else. *)
Lemma round_exact k n e :
  Zpos (digits2_pos k) = 53 → -100 ≤ e ≤ 100 →
  binary_round_aux 53 1024 false (Zpos (shl k n)) (e - Z.of_nat n) loc_Exact
  = S754_finite false k e.
Proof.
  intros Hk He. unfold binary_round_aux, shr_fexp, fexp, emin. cbn [Zdigits2 shr_record_of_loc].
  rewrite digits_shl, Hk.
  replace (Z.max _ _ - _) with (Z.of_nat n) by lia.
  assert (shr (Build_shr_record (Zpos (shl k n)) false false) (e - Z.of_nat n) (Z.of_nat n)
          = (Build_shr_record (Zpos k) false false, e)) as ->.
  { destruct n as [|n]; [by rewrite Z.sub_0_r|]. unfold shr.
    change (Z.of_nat (S n)) with (Zpos (Pos.of_succ_nat n)).
    cbv iota. rewrite iter_pos_nat, SuccNat2Pos.id_succ, shr_shl. f_equal. lia. }
  cbn [shr_m loc_of_shr_record round_nearest_even Zdigits2]. rewrite Hk.
  replace (Z.max _ _ - _) with 0 by lia. cbn [shr shr_m].
  rewrite (proj2 (Z.leb_le e _)) by lia. done.
Qed.

(** The canonical float of a positive integer of at most 53 digits. *)
Lemma f_of_Z_pos m :
  Zpos (digits2_pos m) ≤ 53 →
  f_of_Z (Zpos m) = S754_finite false (shl m (Z.to_nat (53 - Zpos (digits2_pos m))))
                      (Zpos (digits2_pos m) - 53).
Proof.
  intros Hd. unfold f_of_Z, binary_normalize, binary_round, shl_align, fexp, emin.
  set (d := digits2_pos m) in *.
  replace (Z.max _ _ - 0) with (Zpos d - 53) by lia.
  replace (Z.max _ _) with (Zpos d - 53) by lia.
  pose proof (round_exact (shl m (Z.to_nat (53 - Zpos d))) 0 (Zpos d - 53)) as H.
  rewrite digits_shl in H. fold d in H.
  rewrite <- H by lia. clear H. cbn [Z.of_nat shl Nat.iter]. rewrite Z.sub_0_r.
  destruct (Zpos d - 53) eqn:E; [|lia|].
  - by replace (53 - Zpos d) with 0 by lia.
  - f_equal. f_equal. rewrite Pos2Nat.inj_iter.
    replace (Pos.to_nat p) with (Z.to_nat (53 - Zpos d)) by lia. done.
Qed.

Lemma digits_le_pow m n : Zpos m < 2 ^ n → 0 ≤ n → Zpos (digits2_pos m) ≤ n.
Proof.
  intros Hm Hn. pose proof (digits_bounds m) as [Hd _].
  assert (2 ^ (Zpos (digits2_pos m) - 1) < 2 ^ n) as H by lia.
  apply Z.pow_lt_mono_r_iff in H; lia.
Qed.

Lemma digits_mul a b :
  Zpos (digits2_pos a) + Zpos (digits2_pos b) ≤ Zpos (digits2_pos (a * b)) + 1.
Proof.
  pose proof (digits_bounds a) as [Ha _]. pose proof (digits_bounds b) as [Hb _].
  pose proof (digits_bounds (a * b)) as [_ Hab].
  set (x := Zpos (digits2_pos a)) in *. set (y := Zpos (digits2_pos b)) in *.
  assert (2 ^ (x - 1) * 2 ^ (y - 1) ≤ Zpos a * Zpos b) by (apply Z.mul_le_mono_nonneg; lia).
  rewrite <- Z.pow_add_r in * by lia.
  assert (2 ^ (x - 1 + (y - 1)) < 2 ^ Zpos (digits2_pos (a * b))) as Hlt by lia.
  apply Z.pow_lt_mono_r_iff in Hlt; lia.
Qed.

Lemma shl_mul a b n m : (shl a n * shl b m)%positive = shl (a * b) (n + m).
Proof.
  apply Pos2Z.inj. rewrite Pos2Z.inj_mul, !shl_value, Pos2Z.inj_mul, Nat2Z.inj_add, Z.pow_add_r by lia.
  lia.
Qed.

Lemma shl_shl a n m : shl (shl a n) m = shl a (n + m).
Proof.
  apply Pos2Z.inj. rewrite !shl_value, Nat2Z.inj_add, Z.pow_add_r by lia. lia.
Qed.

Lemma fmul_of_Z a b :
  0 < a → 0 < b → a * b < 2 ^ 53 → fmul (f_of_Z a) (f_of_Z b) = f_of_Z (a * b).
Proof.
  destruct a as [|a|], b as [|b|]; try lia. intros _ _ Hab.
  assert (Zpos a < 2 ^ 53 ∧ Zpos b < 2 ^ 53) as [Ha Hb] by nia.
  rewrite <- Pos2Z.inj_mul in *.
  apply digits_le_pow in Ha, Hb, Hab; [|lia..].
  rewrite !f_of_Z_pos by done. pose proof (digits_mul a b).
  set (da := Zpos (digits2_pos a)) in *. set (db := Zpos (digits2_pos b)) in *.
  set (d := Zpos (digits2_pos (a * b))) in *.
  set (k := shl (a * b) (Z.to_nat (53 - d))).
  set (n := Z.to_nat (53 + d - da - db)).
  cbn [fmul SFmul]. unfold fmul, SFmul. rewrite shl_mul.
  replace (shl (a * b) (Z.to_nat (53 - da) + Z.to_nat (53 - db))) with (shl k n)
    by (unfold k, n; rewrite shl_shl; f_equal; lia).
  replace (da - 53 + (db - 53)) with (d - 53 - Z.of_nat n) by lia.
  apply round_exact; [|lia]. unfold k. rewrite digits_shl. fold d. lia.
Qed.

Lemma f_rint_of_Z a : 0 < a < 2 ^ 53 → f_rint (f_of_Z a) = Some a.
Proof.
  destruct a as [|a|]; try lia. intros [_ Ha]. apply digits_le_pow in Ha; [|lia].
  rewrite f_of_Z_pos by done. set (d := Zpos (digits2_pos a)) in *. unfold f_rint.
  destruct (d - 53) as [|p|p] eqn:E; [|lia|].
  - replace (Z.to_nat (53 - d)) with 0%nat by lia. change (shl a 0) with a. f_equal. lia.
  - rewrite shl_value. replace (Z.of_nat (Z.to_nat (53 - d))) with (Zpos p) by lia.
    rewrite Z.div_mul, Z.mod_mul by lia.
    assert (0 < 2 ^ Zpos p) by lia. by rewrite (proj2 (Z.compare_lt_iff _ _)) by lia.
Qed.

(** ** Clamping

    [clamp01] and [clamp], which several packages define identically. *)

Definition fclamp (v lo hi : float64) : float64 :=
  if fltb v lo then lo else if fltb hi v then hi else v.

Definition fclamp01 (v : float64) : float64 := fclamp v f0 f1.

Definition in_unit (v : float64) : Prop := fleb f0 v = true ∧ fleb v f1 = true.

Lemma fclamp_bounds v lo hi :
  is_nan v = false → fleb lo hi = true →
  fleb lo (fclamp v lo hi) = true ∧ fleb (fclamp v lo hi) hi = true.
Proof.
  intros Hv Hb. unfold fclamp.
  destruct (fltb v lo) eqn:E1; [split; [|done]; float_order|].
  destruct (fltb hi v) eqn:E2; [split; [done|]; float_order|].
  split; float_order.
Qed.

Lemma fclamp01_unit v : is_nan v = false → in_unit (fclamp01 v).
Proof. intros Hv. by apply fclamp_bounds. Qed.

(** A clamp lets a NaN through: no comparison with it holds. *)
Lemma fclamp_nan lo hi : fclamp S754_nan lo hi = S754_nan.
Proof. unfold fclamp, fltb, SFltb. by destruct lo, hi. Qed.

Lemma fclamp_id v lo hi :
  fleb lo v = true → fleb v hi = true → fclamp v lo hi = v.
Proof.
  intros H1 H2. unfold fclamp.
  assert (fltb v lo = false) as -> by float_order.
  assert (fltb hi v = false) as -> by float_order. done.
Qed.

#[export] Hint Resolve fleb_refl fltb_irrefl fclamp01_unit : arcanum.

(** ** Signs of results *)

(** A number of sign [s], or a zero. *)
Definition has_sign (s : bool) (x : float64) : Prop :=
  match x with
  | S754_nan => False
  | S754_zero _ => True
  | S754_infinity s' | S754_finite s' _ _ => s' = s
  end.

Definition nonneg (x : float64) : Prop := has_sign false x.

Lemma nonneg_fleb x : nonneg x ↔ fleb f0 x = true.
Proof. destruct x as [[]|[]| |[] m e]; by vm_compute. Qed.

Lemma nonneg_number x : nonneg x → is_nan x = false.
Proof. by destruct x. Qed.

(** ** Rounding *)

Lemma shr_m_nonneg mrs e n : 0 ≤ shr_m mrs → 0 ≤ shr_m (fst (shr mrs e n)).
Proof.
  unfold shr. destruct n as [|p|p]; cbn [fst]; try done. rewrite iter_pos_nat. intros H.
  induction (Pos.to_nat p) as [|k IH]; [done|]. change (Nat.iter (S k) shr_1 mrs) with (shr_1 (Nat.iter k shr_1 mrs)).
  destruct (Nat.iter k shr_1 mrs) as [m r s]. cbn in IH. destruct m as [|[]|]; cbn; lia.
Qed.

Lemma round_aux_sign s m e l : 0 ≤ m → has_sign s (binary_round_aux 53 1024 s m e l).
Proof.
  intros Hm. unfold binary_round_aux, shr_fexp.
  assert (H1 : 0 ≤ shr_m (shr_record_of_loc m l)) by (by destruct l as [|[]]).
  apply (shr_m_nonneg _ e (fexp 53 1024 (Zdigits2 m + e) - e)) in H1.
  destruct (shr (shr_record_of_loc m l) e _) as [r1 e1]. cbn [fst] in H1.
  set (m1 := round_nearest_even _ _).
  assert (H2 : 0 ≤ m1).
  { unfold m1. destruct (loc_of_shr_record r1) as [|[]]; cbn; try lia. destruct (Z.even _); lia. }
  assert (H3 : 0 ≤ shr_m (shr_record_of_loc m1 loc_Exact)) by done.
  apply (shr_m_nonneg _ e1 (fexp 53 1024 (Zdigits2 m1 + e1) - e1)) in H3.
  destruct (shr (shr_record_of_loc m1 loc_Exact) e1 _) as [r2 e2]. cbn [fst] in H3.
  destruct (shr_m r2); cbn; [done|by destruct (_ <=? _)|lia].
Qed.

Lemma round_sign s m e : has_sign s (binary_round 53 1024 s m e).
Proof. unfold binary_round. destruct (shl_align m e _) as [mz ez]. by apply round_aux_sign. Qed.

Lemma normalize_number m e z : is_nan (binary_normalize 53 1024 m e z) = false.
Proof.
  destruct m as [|p|p]; cbn [binary_normalize]; [done| |].
  - pose proof (round_sign false p e) as H. by destruct (binary_round _ _ _ _ _).
  - pose proof (round_sign true p e) as H. by destruct (binary_round _ _ _ _ _).
Qed.

Lemma f_of_Z_number z : is_nan (f_of_Z z) = false.
Proof. apply normalize_number. Qed.

(** ** Operations *)

Lemma fadd_nonneg x y : nonneg x → nonneg y → nonneg (fadd x y).
Proof.
  unfold nonneg, fadd. destruct x as [sx|sx| |sx mx ex], y as [sy|sy| |sy my ey]; cbn; try done;
    try (intros; subst; done).
  - by destruct sx, sy.
  - intros -> ->. cbn. apply round_sign.
Qed.

Lemma fmul_nonneg x y : is_finite x = true → is_finite y = true → nonneg x → nonneg y → nonneg (fmul x y).
Proof.
  unfold nonneg, fmul. destruct x as [sx|sx| |sx mx ex], y as [sy|sy| |sy my ey]; cbn; try done.
  intros _ _ -> ->. by apply round_aux_sign.
Qed.

Lemma fdiv_nonneg x y : nonneg x → is_finite y = true → fltb f0 y = true → nonneg (fdiv x y).
Proof.
  unfold nonneg, fdiv. intros Hx Hy Hp. destruct y as [sy|sy| |[] my ey]; try done;
    try (by destruct sy). destruct x as [sx|sx| |sx mx ex]; cbn [SFdiv]; cbn in Hx; subst; try done.
  unfold SFdiv_core_binary. set (m' := match _ with Z0 => _ | Zpos _ => _ | Zneg _ => _ end).
  assert (Hm : 0 ≤ m').
  { unfold m'. destruct (_ - _ - _); [lia|apply Z.shiftl_nonneg; lia|lia]. }
  pose proof (Z_div_mod m' (Zpos my) ltac:(lia)) as Hdm.
  destruct (Z.div_eucl m' (Zpos my)) as [q r]. apply round_aux_sign. nia.
Qed.

Lemma fsub_number x y : is_finite x = true → is_nan y = false → is_nan (fsub x y) = false.
Proof.
  unfold fsub. destruct x as [sx|sx| |sx mx ex], y as [sy|sy| |sy my ey]; cbn; try done.
  - by destruct sx, sy.
  - intros _ _. apply normalize_number.
Qed.

Lemma fabs_nonneg x : is_nan x = false → nonneg (SFabs x).
Proof. by destruct x. Qed.

Lemma in_unit_finite x : in_unit x → is_finite x = true ∧ nonneg x.
Proof.
  intros [H1 H2]. apply nonneg_fleb in H1. split; [|done]. by destruct x as [|[]| |].
Qed.

Lemma fclamp01_finite x : is_nan x = false → is_finite (fclamp01 x) = true ∧ nonneg (fclamp01 x).
Proof. intros H. by apply in_unit_finite, fclamp01_unit. Qed.

(** A clamped number times a weight. *)
Lemma weighted_nonneg x w : is_nan x = false → is_finite w = true → nonneg w → nonneg (fmul (fclamp01 x) w).
Proof. intros Hx Hw Hn. destruct (fclamp01_finite x Hx). by apply fmul_nonneg. Qed.

(** ** The order of numbers *)

Lemma fltb_negtrans x y z : is_nan x = false → is_nan y = false → is_nan z = false →
  fltb x y = false → fltb y z = false → fltb x z = false.
Proof.
  intros Hx Hy Hz H1%fltb_false_fleb H2%fltb_false_fleb; try done. assert (fleb z x = true) by by eapply fleb_trans.
  float_order.
Qed.

(** Two steps that do not go down and end where they began. *)
Lemma feqb_between x y z : is_nan x = false → is_nan y = false → is_nan z = false →
  fltb x y = false → fltb y z = false → feqb x z = true → feqb x y = true ∧ feqb y z = true.
Proof. intros Hx Hy Hz H1%fltb_false_fleb H2%fltb_false_fleb E; try done. split; float_order. Qed.
