(* ===== verification/GoStrconv.v ===== *)
(** * Texts of strings and numbers: [%q], [%.nf], [strconv.ParseFloat]

    [strconv.Quote] of ASCII characters, the bytes of multi-byte characters
    copied; the decimal nearest to a [float64] with [n] digits after the point
    (the number is dyadic, so the distance is exact, and a tie goes to the even
    digit); and the parser of decimal numbers. *)

From stdpp Require Import base strings pretty tactics numbers.
From Stdlib Require Import ZArith Ascii Floats.SpecFloat Lia.
From S2P Require Import Prelude GoFloat.

Open Scope Z_scope.

(** ** [%q] of a string *)

Definition hex_digit (n : nat) : ascii :=
  if bool_decide (n < 10)%nat then ascii_of_nat (48 + n) else ascii_of_nat (87 + n).

Definition quote_char (c : ascii) : string :=
  let n := nat_of_ascii c in
  if bool_decide (n = 34)%nat then String "\" (String c "")
  else if bool_decide (n = 92)%nat then String "\" (String c "")
  else if bool_decide (n = 7)%nat then "\a"
  else if bool_decide (n = 8)%nat then "\b"
  else if bool_decide (n = 12)%nat then "\f"
  else if bool_decide (n = 10)%nat then "\n"
  else if bool_decide (n = 13)%nat then "\r"
  else if bool_decide (n = 9)%nat then "\t"
  else if bool_decide (n = 11)%nat then "\v"
  else if bool_decide (n < 32 ∨ n = 127)%nat then
    "\x" +:+ String (hex_digit (n / 16)) (String (hex_digit (n mod 16)) "")
  else String c "".

Fixpoint quote_body (s : string) : string :=
  match s with
  | EmptyString => ""
  | String c s' => quote_char c +:+ quote_body s'
  end.

Definition dquote : string := String (ascii_of_nat 34) "".
Definition quote (s : string) : string := dquote +:+ quote_body s +:+ dquote.

(** ** [%.nf] of a float64 *)

(** [num / den] rounded to the nearest integer, ties to even. *)
Definition div_nearest_even (num den : Z) : Z :=
  let q := num / den in
  let r := num mod den in
  match 2 * r ?= den with
  | Lt => q
  | Gt => q + 1
  | Eq => if Z.even q then q else q + 1
  end.

(** The last [d] decimal digits of [n]. *)
Fixpoint low_digits (d : nat) (n : Z) : string :=
  match d with
  | O => ""
  | S d' => low_digits d' (n / 10) +:+ pretty (Z.to_N (n mod 10))
  end.

Definition fixed_text (d : nat) (n : Z) : string :=
  pretty (Z.to_N (n / 10 ^ Z.of_nat d)) +:+
  match d with O => "" | _ => "." +:+ low_digits d n end.

Definition fmt_fixed (d : nat) (x : float64) : string :=
  let sign (s : bool) := if s then "-" else "" in
  match x with
  | S754_nan => "NaN"
  | S754_infinity s => if s then "-Inf" else "+Inf"
  | S754_zero s => sign s +:+ fixed_text d 0
  | S754_finite s m e =>
      let scaled := Zpos m * 10 ^ Z.of_nat d in
      sign s +:+ fixed_text d (div_nearest_even (scaled * 2 ^ Z.max e 0) (2 ^ Z.max (- e) 0))
  end.

Example fixed_third : fmt_fixed 3 (lit 1 3) = "0.333". Proof. vm_compute. reflexivity. Qed.
Example fixed_tie : fmt_fixed 2 (lit 1 8) = "0.12". Proof. vm_compute. reflexivity. Qed.
Example fixed_up : fmt_fixed 2 (lit 1999 1000) = "2.00". Proof. vm_compute. reflexivity. Qed.
Example fixed_negative : fmt_fixed 2 (lit (-1) 1000) = "-0.00". Proof. vm_compute. reflexivity. Qed.

(** ** [strconv.ParseFloat] *)

(** The float nearest to [num / den]. *)
Definition f_ratio (neg : bool) (num den : Z) : float64 :=
  let '(q, e, loc) := SFdiv_core_binary 53 1024 num 0 den 0 in
  binary_round_aux 53 1024 neg q e loc.

Definition byte_of (c : ascii) : Z := Z.of_nat (nat_of_ascii c).

(** [c | ('x' - 'X')] *)
Definition lower_byte (c : ascii) : Z := Z.lor (byte_of c) 32.

Definition is_dec (c : ascii) : bool := bool_decide (48 ≤ byte_of c ≤ 57).
Definition is_hex_letter (c : ascii) : bool := bool_decide (97 ≤ lower_byte c ≤ 102).
Definition is_underscore (c : ascii) : bool := bool_decide (byte_of c = 95).

(** [0x], [0b] and [0o], in either case. *)
Definition base_prefix (letters : list Z) (s : string) : option string :=
  match s with
  | String z (String x s') =>
      if bool_decide (byte_of z = 48) && bool_decide (lower_byte x ∈ letters) then Some s' else None
  | _ => None
  end.

(** Without the sign; the sign. *)
Definition sign_of (s : string) : bool * string :=
  match s with
  | String c s' => if bool_decide (byte_of c = 43) then (false, s')
                   else if bool_decide (byte_of c = 45) then (true, s') else (false, s)
  | "" => (false, s)
  end.

(** ** Underscores *)

Inductive Saw := SawStart | SawDigit | SawUnderscore | SawOther.

Fixpoint underscores_ok (hex : bool) (saw : Saw) (s : string) : bool :=
  match s with
  | "" => match saw with SawUnderscore => false | _ => true end
  | String c s' =>
      if is_dec c || (hex && is_hex_letter c) then underscores_ok hex SawDigit s'
      else if is_underscore c then
        match saw with SawDigit => underscores_ok hex SawUnderscore s' | _ => false end
      else match saw with SawUnderscore => false | _ => underscores_ok hex SawOther s' end
  end.

Definition underscoreOK (s : string) : bool :=
  let '(_, s) := sign_of s in
  match base_prefix [98; 111; 120] s with
  | Some s' => underscores_ok (match base_prefix [120] s with Some _ => true | None => false end) SawDigit s'
  | None => underscores_ok false SawStart s
  end.

(** ** Digits *)

Record Mantissa := mkMantissa {
  ma_value : Z;
  ma_digits : bool;          (* some digit *)
  ma_fraction : option Z;    (* digits after the point, when there is one *)
  ma_underscores : bool
}.

Fixpoint mantissa (hex : bool) (acc : Mantissa) (s : string) : Mantissa * string :=
  match s with
  | "" => (acc, s)
  | String c s' =>
      let '(mkMantissa v d fr u) := acc in
      let digit n := mkMantissa (v * (if hex then 16 else 10) + n) true (Z.succ <$> fr) u in
      if is_underscore c then mantissa hex (mkMantissa v d fr true) s'
      else if bool_decide (byte_of c = 46) then
        match fr with
        | None => mantissa hex (mkMantissa v d (Some 0) u) s'
        | Some _ => (acc, s)
        end
      else if is_dec c then mantissa hex (digit (byte_of c - 48)) s'
      else if hex && is_hex_letter c then mantissa hex (digit (lower_byte c - 87)) s'
      else (acc, s)
  end.

(** The digits of an exponent, which saturates; underscores among them. *)
Fixpoint exponent_digits (e : Z) (u : bool) (s : string) : Z * bool * string :=
  match s with
  | "" => (e, u, s)
  | String c s' =>
      if is_underscore c then exponent_digits e true s'
      else if is_dec c then
        exponent_digits (if bool_decide (e < 10000) then e * 10 + (byte_of c - 48) else e) u s'
      else (e, u, s)
  end.

(** The exponent after its letter. *)
Definition exponent (s : string) : option (Z * bool * string) :=
  let '(neg, s) := sign_of s in
  match s with
  | String c _ =>
      if is_dec c then
        let '(e, u, s) := exponent_digits 0 false s in Some (if neg then - e else e, u, s)
      else None
  | "" => None
  end.

Definition readFloat (s : string) : option float64 :=
  let '(neg, body) := sign_of s in
  (* the prefix needs something behind it *)
  let '(hex, rest) := match base_prefix [120] body with
                      | Some (String c s') => (true, String c s')
                      | _ => (false, body)
                      end in
  let '(ma, rest) := mantissa hex (mkMantissa 0 false None false) rest in
  let exp :=
    match rest with
    | String c rest' =>
        if bool_decide (lower_byte c = if hex then 112 else 101) then exponent rest'
        else if hex then None else Some (0, false, rest)
    | "" => if hex then None else Some (0, false, rest)
    end in
  match exp with
  | Some (e, u, "") =>
      if negb (ma_digits ma) then None
      else if (ma_underscores ma || u) && negb (underscoreOK s) then None
      else
        let e := e - (if hex then 4 else 1) * default 0 (ma_fraction ma) in
        let base := if hex then 2 else 10 in
        let x := if bool_decide (ma_value ma = 0) then S754_zero neg
                 else if bool_decide (0 ≤ e) then f_ratio neg (ma_value ma * base ^ e) 1
                 else f_ratio neg (ma_value ma) (base ^ (- e)) in
        if is_finite x then Some x else None
  | _ => None
  end.

(** ** Infinities and NaN *)

Definition lower_ascii (c : ascii) : ascii :=
  if bool_decide (65 ≤ byte_of c ≤ 90) then ascii_of_nat (Z.to_nat (byte_of c + 32)) else c.

Fixpoint lower_string (s : string) : string :=
  match s with "" => "" | String c s' => String (lower_ascii c) (lower_string s') end.

Definition special (s : string) : option float64 :=
  let '(neg, body) := sign_of s in
  let low := lower_string body in
  if bool_decide (low = "inf") || bool_decide (low = "infinity") then Some (S754_infinity neg)
  else if bool_decide (lower_string s = "nan") then Some S754_nan else None.

Definition ParseFloat (s : string) : option float64 :=
  match special s with
  | Some x => Some x
  | None => readFloat s
  end.

Example parse_decimals :
  ParseFloat "13000" = Some (f_of_Z 13000) ∧ ParseFloat "0.30" = Some (lit 3 10) ∧
  ParseFloat "-1.5e2" = Some (f_of_Z (-150)) ∧ ParseFloat ".5" = Some (lit 1 2) ∧
  ParseFloat "1_000.5" = Some (lit 2001 2) ∧ ParseFloat "0x1p-2" = Some (lit 1 4) ∧
  ParseFloat "12345678901234567890123" = Some (f_of_Z 12345678901234567890123) ∧
  ParseFloat "-Inf" = Some (S754_infinity true) ∧ ParseFloat "-0" = Some (S754_zero true).
Proof. by vm_compute. Qed.

Example parse_errors : Forall (fun s => ParseFloat s = None)
  [""; "-"; "."; "1e"; "1e+"; "13000 EUR"; " 1"; "1__0"; "1_"; "0x1"; "1e400"; "-nan"; "1.2.3"; ">= 10"].
Proof. repeat constructor. Qed.
