(* ===== verification/GoJSON.v ===== *)
(** * JSON: well-formedness and encoding of strings

    [json_Valid] decides the grammar that [encoding/json] checks when it embeds
    a [json.RawMessage] and that PostgreSQL checks for a [JSONB] value. *)

From stdpp Require Import base strings list.
From Stdlib Require Import ZArith Ascii Lia.
From S2P Require Import Prelude GoStrconv.

Open Scope nat_scope.

Definition code (c : ascii) : nat := nat_of_ascii c.

Definition is_digit (c : ascii) : bool := bool_decide (48 ≤ code c ≤ 57).
Definition is_hex (c : ascii) : bool :=
  is_digit c || bool_decide (65 ≤ code c ≤ 70) || bool_decide (97 ≤ code c ≤ 102).
Definition is_space (c : ascii) : bool :=
  bool_decide (code c = 32 ∨ code c = 9 ∨ code c = 10 ∨ code c = 13).

Fixpoint skip_ws (s : string) : string :=
  match s with
  | String c s' => if is_space c then skip_ws s' else s
  | EmptyString => s
  end.

Fixpoint skip_digits (s : string) : string :=
  match s with
  | String c s' => if is_digit c then skip_digits s' else s
  | EmptyString => s
  end.

(** At least one digit. *)
Definition digits1 (s : string) : option string :=
  match s with
  | String c s' => if is_digit c then Some (skip_digits s') else None
  | EmptyString => None
  end.

Fixpoint expect (lit s : string) : option string :=
  match lit, s with
  | EmptyString, _ => Some s
  | String a l', String b s' => if bool_decide (a = b) then expect l' s' else None
  | String _ _, EmptyString => None
  end.

(** The rest of a string literal, after its opening json_quote. *)
Fixpoint str_rest (s : string) : option string :=
  match s with
  | EmptyString => None
  | String c s1 =>
      if bool_decide (code c = 34) then Some s1
      else if bool_decide (code c < 32) then None
      else if bool_decide (code c = 92) then
        match s1 with
        | String e s2 =>
            if bool_decide (code e ∈ [34; 92; 47; 98; 102; 110; 114; 116]) then str_rest s2
            else if bool_decide (code e = 117) then
              match s2 with
              | String h1 (String h2 (String h3 (String h4 s3))) =>
                  if is_hex h1 && is_hex h2 && is_hex h3 && is_hex h4 then str_rest s3 else None
              | _ => None
              end
            else None
        | EmptyString => None
        end
      else str_rest s1
  end.

Definition opt_frac (s : string) : option string :=
  match s with
  | String c s' => if bool_decide (code c = 46) then digits1 s' else Some s
  | EmptyString => Some s
  end.

Definition opt_exp (s : string) : option string :=
  match s with
  | String c s' =>
      if bool_decide (code c = 101 ∨ code c = 69) then
        match s' with
        | String d s'' => if bool_decide (code d = 43 ∨ code d = 45) then digits1 s'' else digits1 s'
        | EmptyString => None
        end
      else Some s
  | EmptyString => Some s
  end.

Definition number (s : string) : option string :=
  let s0 := match s with
            | String c s' => if bool_decide (code c = 45) then s' else s
            | EmptyString => s
            end in
  let int :=
    match s0 with
    | String c s' => if bool_decide (code c = 48) then Some s'
                     else if is_digit c then Some (skip_digits s') else None
    | EmptyString => None
    end in
  (int ≫= opt_frac) ≫= opt_exp.

(** What is expected next: a value, the elements of an array or the members of
    an object after the opening bracket and white space. *)
Inductive mode : Type := MValue | MElems | MMembers.

Definition maxNestingDepth : nat := 100 * 100.

Fixpoint parse (fuel : nat) (depth : nat) (m : mode) (s : string) : option string :=
  match fuel with
  | O => None
  | S n =>
      match m with
      | MValue =>
          match skip_ws s with
          | EmptyString => None
          | String c s' =>
              let s0 := String c s' in
              if bool_decide (code c = 34) then str_rest s'
              else if bool_decide (code c = 123 ∨ code c = 91) then
                if bool_decide (maxNestingDepth < depth + 1) then None
                else
                  match skip_ws s' with
                  | String d s'' =>
                      if bool_decide (code d = code c + 2) then Some s''
                      else parse n (depth + 1)
                             (if bool_decide (code c = 123) then MMembers else MElems)
                             (String d s'')
                  | EmptyString => None
                  end
              else if bool_decide (code c = 116) then expect "true" s0
              else if bool_decide (code c = 102) then expect "false" s0
              else if bool_decide (code c = 110) then expect "null" s0
              else number s0
          end
      | MElems =>
          s1 ← parse n depth MValue s;
          match skip_ws s1 with
          | String c s2 =>
              if bool_decide (code c = 44) then parse n depth MElems s2
              else if bool_decide (code c = 93) then Some s2 else None
          | EmptyString => None
          end
      | MMembers =>
          match skip_ws s with
          | String q s1 =>
              if bool_decide (code q = 34) then
                s2 ← str_rest s1;
                match skip_ws s2 with
                | String col s3 =>
                    if bool_decide (code col = 58) then
                      s4 ← parse n depth MValue s3;
                      match skip_ws s4 with
                      | String c s5 =>
                          if bool_decide (code c = 44) then parse n depth MMembers s5
                          else if bool_decide (code c = 125) then Some s5 else None
                      | EmptyString => None
                      end
                    else None
                | EmptyString => None
                end
              else None
          | EmptyString => None
          end
      end
  end.

(** Every call of [parse] but the first descends into a bracket or passes a
    comma, so twice the length is fuel enough ([parse_fuel_enough]). *)
Definition json_Valid (s : string) : bool :=
  match parse (2 * String.length s + 2) 0 MValue s with
  | Some rest => match skip_ws rest with EmptyString => true | _ => false end
  | None => false
  end.

Example json_valid_object :
  json_Valid ("{" +:+ dquote +:+ "a" +:+ dquote +:+ ": [1, -2.5e3, true, null, {}]} ") = true.
Proof. vm_compute. reflexivity. Qed.
Example json_invalid :
  json_Valid "[1,]" = false ∧ json_Valid "01" = false ∧ json_Valid "" = false ∧
  json_Valid "{} x" = false.
Proof. vm_compute. auto. Qed.

(** ** Encoding strings

    What [json.Marshal] writes for a Go string (Go 1.22, HTML escaping on):
    bytes that are not UTF-8 become the replacement character. *)

Definition cont (c : ascii) : bool := bool_decide (128 ≤ code c ≤ 191).

(** The length of the UTF-8 encoded rune [s] starts with, for a first byte of
    128 or more; 0 when there is none. *)
Definition rune_len (s : string) : nat :=
  match s with
  | String a (String b s2) =>
      if bool_decide (194 ≤ code a ≤ 223) && cont b then 2
      else match s2 with
      | String c s3 =>
          if bool_decide (224 ≤ code a ≤ 239) && cont c
             && bool_decide ((if decide (code a = 224) then 160 else 128) ≤ code b
                             ≤ (if decide (code a = 237) then 159 else 191)) then 3
          else match s3 with
          | String d _ =>
              if bool_decide (240 ≤ code a ≤ 244) && cont c && cont d
                 && bool_decide ((if decide (code a = 240) then 144 else 128) ≤ code b
                                 ≤ (if decide (code a = 244) then 143 else 191)) then 4
              else 0
          | EmptyString => 0
          end
      | EmptyString => 0
      end
  | _ => 0
  end.

Definition bslash : ascii := ascii_of_nat 92.

(** A byte below 128. *)
Definition json_quote_ascii (c : ascii) : string :=
  let n := code c in
  let esc := fun e : nat => String bslash (String (ascii_of_nat e) "") in
  if bool_decide (n = 34 ∨ n = 92) then esc n
  else if bool_decide (n = 8) then esc 98
  else if bool_decide (n = 12) then esc 102
  else if bool_decide (n = 10) then esc 110
  else if bool_decide (n = 13) then esc 114
  else if bool_decide (n = 9) then esc 116
  else if bool_decide (n < 32 ∨ n = 60 ∨ n = 62 ∨ n = 38)
  then String bslash ("u00" +:+ String (hex_digit (n / 16)) (String (hex_digit (n mod 16)) ""))
  else String c "".

(** The rest of a rune is copied or dropped. *)
Inductive rest_of_rune : Type := Keep (n : nat) | Skip (n : nat).

Fixpoint json_quote_body (m : rest_of_rune) (s : string) : string :=
  match s with
  | EmptyString => ""
  | String c s' =>
      match m with
      | Keep (S k) => String c (json_quote_body (Keep k) s')
      | Skip (S k) => json_quote_body (Skip k) s'
      | _ =>
          if bool_decide (code c < 128) then json_quote_ascii c +:+ json_quote_body (Keep 0) s'
          else match rune_len s with
          | O => String bslash ("ufffd" +:+ json_quote_body (Keep 0) s')
          | S k =>
              match s' with
              | String b (String d _) =>
                  if bool_decide (code c = 226 ∧ code b = 128 ∧ (code d = 168 ∨ code d = 169))
                  then String bslash ("u202" +:+ String (hex_digit (code d - 160))
                                                        (json_quote_body (Skip 2) s'))
                  else String c (json_quote_body (Keep k) s')
              | _ => String c (json_quote_body (Keep k) s')
              end
          end
      end
  end.

Definition json_quote (s : string) : string := dquote +:+ json_quote_body (Keep 0) s +:+ dquote.

Example quote_escapes :
  json_quote ("a<" +:+ dquote +:+ String (ascii_of_nat 10) (String (ascii_of_nat 200) "b"))
  = dquote +:+ "a\u003c\" +:+ dquote +:+ "\n\ufffdb" +:+ dquote.
Proof. vm_compute. reflexivity. Qed.

(** The bytes of a kept rune are those of the rune. *)
Fixpoint keeps (k : nat) (s : string) : Prop :=
  match k, s with
  | O, _ => True
  | S k', String c s' => 128 ≤ code c ∧ keeps k' s'
  | S _, EmptyString => True
  end.

Lemma str_rest_plain c s : 32 ≤ code c → code c ≠ 34 → code c ≠ 92 →
  str_rest (String c s) = str_rest s.
Proof. intros H1 H2 H3. cbn. by rewrite !bool_decide_false by lia. Qed.

Lemma code_of_nat n : n < 256 → code (ascii_of_nat n) = n.
Proof. apply nat_ascii_embedding. Qed.

Lemma str_rest_escape e t :
  e ∈ [34; 92; 98; 102; 110; 114; 116] →
  str_rest (String bslash (String (ascii_of_nat e) t)) = str_rest t.
Proof.
  intros He. rewrite !elem_of_cons, elem_of_nil in He.
  unfold bslash. cbn [str_rest]. rewrite (code_of_nat 92) by lia.
  rewrite code_of_nat by (decompose sum He; subst; lia).
  repeat destruct He as [-> | He]; try reflexivity; done.
Qed.

Lemma str_rest_hex h1 h2 h3 h4 t :
  is_hex h1 && is_hex h2 && is_hex h3 && is_hex h4 = true →
  str_rest (String bslash (String (ascii_of_nat 117) (String h1 (String h2 (String h3 (String h4 t))))))
  = str_rest t.
Proof.
  intros H. unfold bslash. cbn [str_rest]. rewrite (code_of_nat 92), (code_of_nat 117) by lia.
  change ((if is_hex h1 && is_hex h2 && is_hex h3 && is_hex h4 then str_rest t else None) = str_rest t).
  by rewrite H.
Qed.

Lemma hex_digit_ok n : n < 16 → is_hex (hex_digit n) = true.
Proof. intros H. do 16 (destruct n as [|n]; [reflexivity|]). lia. Qed.

Lemma str_rest_json_quote_ascii c t : code c < 128 → str_rest (json_quote_ascii c +:+ t) = str_rest t.
Proof.
  intros H. unfold json_quote_ascii. repeat case_bool_decide; rewrite ?string_app_cons.
  1-6: apply str_rest_escape; rewrite !elem_of_cons, elem_of_nil; lia.
  - apply str_rest_hex. rewrite !hex_digit_ok; [done| |].
    + apply Nat.mod_upper_bound; lia.
    + apply Nat.Div0.div_lt_upper_bound; lia.
  - apply str_rest_plain; lia.
Qed.

Lemma cont_high c : cont c = true → 128 ≤ code c.
Proof. intros H%bool_decide_eq_true. lia. Qed.

Lemma range_high (p q : bool) (x lo lo' hi hi' : nat) (P Q : Prop) `{!Decision P, !Decision Q} :
  128 ≤ lo → 128 ≤ lo' →
  bool_decide ((if decide P then lo else lo') ≤ x ≤ (if decide Q then hi else hi')) = true → 128 ≤ x.
Proof. intros H1 H2 H%bool_decide_eq_true. destruct (decide P); lia. Qed.

Lemma rune_len_high c s k : rune_len (String c s) = S k → keeps k s.
Proof.
  destruct s as [|b [|d [|e s]]]; cbn [rune_len]; intros H; [done|..].
  all: destruct (bool_decide (194 ≤ code c ≤ 223) && cont b) eqn:E2;
    [injection H as <-; apply andb_true_iff in E2 as [_ E2]; split; [by apply cont_high|done]|];
    try done.
  all: destruct (bool_decide (224 ≤ code c ≤ 239) && cont d && _) eqn:E3;
    [injection H as <-; apply andb_true_iff in E3 as [[_ Ed]%andb_true_iff Eb];
     split; [by eapply (range_high true true); [| |exact Eb]; lia|split; [by apply cont_high|done]]|];
    try done.
  destruct (bool_decide (240 ≤ code c ≤ 244) && cont d && cont e && _) eqn:E4; [|done].
  injection H as <-. apply andb_true_iff in E4 as [[[_ Ed]%andb_true_iff Ee]%andb_true_iff Eb].
  split; [by eapply (range_high true true); [| |exact Eb]; lia|].
  split; [by apply cont_high|]. split; [by apply cont_high|done].
Qed.

(** A quoted body, and then what follows it. *)
Lemma str_rest_body s : ∀ m t,
  match m with Keep k => keeps k s | Skip _ => True end →
  str_rest (json_quote_body m s +:+ String (ascii_of_nat 34) t) = Some t.
Proof.
  induction s as [|c s IH]; intros m t Hm; cbn [json_quote_body].
  { cbn [String.append str_rest]. done. }
  assert (Hfresh : str_rest ((if bool_decide (code c < 128) then json_quote_ascii c +:+ json_quote_body (Keep 0) s
          else match rune_len (String c s) with
          | O => String bslash ("ufffd" +:+ json_quote_body (Keep 0) s)
          | S k =>
              match s with
              | String b (String d _) =>
                  if bool_decide (code c = 226 ∧ code b = 128 ∧ (code d = 168 ∨ code d = 169))
                  then String bslash ("u202" +:+ String (hex_digit (code d - 160))
                                                        (json_quote_body (Skip 2) s))
                  else String c (json_quote_body (Keep k) s)
              | _ => String c (json_quote_body (Keep k) s)
              end
          end) +:+ String (ascii_of_nat 34) t) = Some t).
  { case_bool_decide as Hc.
    { rewrite string_app_assoc, str_rest_json_quote_ascii by done. by apply IH. }
    destruct (rune_len (String c s)) as [|k] eqn:Hr.
    { etransitivity; [by apply (str_rest_hex "f" "f" "f" "d")|]. by apply (IH (Keep 0)). }
    pose proof (rune_len_high _ _ _ Hr) as Hk.
    assert (Hkeep : str_rest (String c (json_quote_body (Keep k) s) +:+ String (ascii_of_nat 34) t) = Some t).
    { rewrite string_app_cons, str_rest_plain by lia. by apply IH. }
    destruct s as [|b [|d s]]; try exact Hkeep.
    case_bool_decide as Hls; [|exact Hkeep]. destruct Hls as (_ & _ & Hd).
    etransitivity; [apply (str_rest_hex "2" "0" "2" (hex_digit (code d - 160)))|by apply (IH (Skip 2))].
    rewrite hex_digit_ok by lia. reflexivity. }
  destruct m as [[|k]|[|k]]; try exact Hfresh.
  - destruct Hm as [Hc Hk]. rewrite string_app_cons, str_rest_plain by lia. by apply IH.
  - by apply IH.
Qed.

Lemma str_rest_quote s t :
  str_rest (json_quote_body (Keep 0) s +:+ dquote +:+ t) = Some t.
Proof. by apply (str_rest_body s (Keep 0) t). Qed.

(** [json.Marshal] of a [map[string]string] with these sorted entries. *)
Fixpoint members (kvs : list (string * string)) : string :=
  match kvs with
  | [] => ""
  | [(k, v)] => json_quote k +:+ ":" +:+ json_quote v
  | (k, v) :: kvs' => json_quote k +:+ ":" +:+ json_quote v +:+ "," +:+ members kvs'
  end.

Definition marshal_map (kvs : list (string * string)) : string := "{" +:+ members kvs +:+ "}".

(** After the value of a member: the next one, or the end of the object. *)
Definition after_member (n d : nat) (s : string) : option string :=
  match skip_ws s with
  | String c s5 =>
      if bool_decide (code c = 44) then parse n d MMembers s5
      else if bool_decide (code c = 125) then Some s5 else None
  | EmptyString => None
  end.

Definition after_key (n d : nat) (s : string) : option string :=
  match skip_ws s with
  | String col s3 =>
      if bool_decide (code col = 58) then parse n d MValue s3 ≫= after_member n d else None
  | EmptyString => None
  end.

Lemma parse_member n d k v r :
  parse (S (S n)) d MMembers (json_quote k +:+ ":" +:+ json_quote v +:+ r) = after_member (S n) d r.
Proof.
  unfold json_quote. rewrite !string_app_assoc.
  change (str_rest (json_quote_body (Keep 0) k +:+ dquote +:+ ":" +:+ dquote +:+ json_quote_body (Keep 0) v +:+ dquote +:+ r)
    ≫= after_key (S n) d = after_member (S n) d r).
  rewrite str_rest_quote.
  change (str_rest (json_quote_body (Keep 0) v +:+ dquote +:+ r) ≫= after_member (S n) d
    = after_member (S n) d r).
  by rewrite str_rest_quote.
Qed.

Lemma parse_members kvs : ∀ n d t, kvs ≠ [] → length kvs < n →
  parse n d MMembers (members kvs +:+ "}" +:+ t) = Some t.
Proof.
  induction kvs as [|[k v] kvs IH]; intros n d t Hne Hn; [done|].
  destruct n as [|[|n]]; [lia|cbn in Hn; lia|].
  destruct kvs as [|kv kvs].
  - cbn [members]. rewrite !string_app_assoc, parse_member. reflexivity.
  - cbn [members]. fold (members (kv :: kvs)). rewrite !string_app_assoc, parse_member.
    apply IH; [done|cbn in *; lia].
Qed.

Lemma string_app_length a b : String.length (a +:+ b) = String.length a + String.length b.
Proof. induction a as [|c a IH]; [done|]. rewrite string_app_cons. cbn. by rewrite IH. Qed.

Lemma members_long kvs : length kvs ≤ String.length (members kvs).
Proof.
  induction kvs as [|[k v] [|kv kvs] IH]; [done| |].
  { change (members [(k, v)]) with (json_quote k +:+ ":" +:+ json_quote v).
    unfold json_quote. rewrite !string_app_length. cbn [length String.length]. lia. }
  change (members ((k, v) :: kv :: kvs))
    with (json_quote k +:+ ":" +:+ json_quote v +:+ "," +:+ members (kv :: kvs)).
  unfold json_quote. rewrite !string_app_length. cbn [length String.length] in *. lia.
Qed.

Lemma marshal_map_valid kvs : json_Valid (marshal_map kvs) = true.
Proof.
  destruct kvs as [|kv kvs]; [vm_compute; reflexivity|].
  unfold json_Valid. set (f := 2 * _ + 2).
  assert (Hf : length (kv :: kvs) < f - 1).
  { unfold f, marshal_map. rewrite !string_app_length. pose proof (members_long (kv :: kvs)).
    cbn [String.length]. lia. }
  destruct f as [|f]; [lia|].
  replace (parse (S f) 0 MValue (marshal_map (kv :: kvs))) with (Some ""); [done|symmetry].
  transitivity (parse f 1 MMembers (members (kv :: kvs) +:+ "}" +:+ ""));
    [|apply parse_members; [done|lia]].
  unfold marshal_map. rewrite string_app_nil_r. destruct kv as [k v], kvs; reflexivity.
Qed.

(** ** The fuel of [parse] is enough *)

Definition shortens (f : string → option string) : Prop :=
  ∀ s r, f s = Some r → String.length r ≤ String.length s.

Lemma skip_ws_length s : String.length (skip_ws s) ≤ String.length s.
Proof. induction s as [|c s IH]; cbn; [done|]. destruct (is_space c); cbn; lia. Qed.

Lemma skip_digits_length s : String.length (skip_digits s) ≤ String.length s.
Proof. induction s as [|c s IH]; cbn; [done|]. destruct (is_digit c); cbn; lia. Qed.

Lemma digits1_shortens : shortens digits1.
Proof.
  intros [|c s] r; cbn; [done|]. destruct (is_digit c); [|done]. intros [= <-].
  pose proof (skip_digits_length s). lia.
Qed.

Lemma expect_shortens lit : shortens (expect lit).
Proof.
  induction lit as [|a lit IH]; intros [|b s] r; cbn; try done; try (by intros [= <-]).
  case_bool_decide; [|done]. intros Hx%IH. lia.
Qed.

Lemma str_rest_shortens : shortens str_rest.
Proof.
  intros s r. remember (String.length s) as n eqn:Hn. revert s r Hn.
  induction (lt_wf n) as [n _ IH]. intros [|c s] r ->; [done|].
  assert (HI : ∀ s', String.length s' ≤ String.length s → str_rest s' = Some r →
            String.length r ≤ S (String.length s)).
  { intros s' Hs' Hr. assert (String.length r ≤ String.length s') by (eapply IH; [|done|exact Hr]; cbn; lia). lia. }
  cbn [str_rest String.length]. case_bool_decide; [intros [= ->]; lia|]. case_bool_decide; [done|].
  case_bool_decide; [|by apply HI]. destruct s as [|e s2]; [done|].
  case_bool_decide; [apply HI; cbn; lia|]. case_bool_decide; [|done].
  destruct s2 as [|h1 [|h2 [|h3 [|h4 s3]]]]; try done.
  destruct (is_hex h1 && is_hex h2 && is_hex h3 && is_hex h4); [apply HI; cbn; lia|done].
Qed.

Lemma number_shortens : shortens number.
Proof.
  intros s r. unfold number. set (s0 := match s with String c s' => _ | _ => _ end).
  assert (H0 : String.length s0 ≤ String.length s).
  { unfold s0. destruct s; [done|]. case_bool_decide; cbn; lia. }
  clearbody s0. set (int := match s0 with String c s' => _ | _ => _ end).
  assert (Hi : ∀ i, int = Some i → String.length i ≤ String.length s0).
  { unfold int. destruct s0 as [|c s']; [done|]. intros i. case_bool_decide; [intros [= ->]; cbn; lia|].
    destruct (is_digit c); [|done]. intros [= <-]. pose proof (skip_digits_length s'). cbn. lia. }
  destruct int as [i|]; [|done]. specialize (Hi i eq_refl). cbn [mbind option_bind].
  assert (Hf : shortens opt_frac).
  { intros [|c u] v; cbn; [by intros [= <-]|]. case_bool_decide; [intros Hx%digits1_shortens; lia|by intros [= <-]]. }
  assert (He : shortens opt_exp).
  { intros [|c u] v; cbn; [by intros [= <-]|]. case_bool_decide; [|by intros [= <-]].
    destruct u as [|d u]; [done|]. case_bool_decide; intros Hx%digits1_shortens; cbn in *; lia. }
  destruct (opt_frac i) as [j|] eqn:Hj; [|done]. apply Hf in Hj. cbn [mbind option_bind].
  intros Hx%He. lia.
Qed.

Lemma parse_shortens n : ∀ d m, shortens (parse n d m).
Proof.
  induction n as [|n IH]; intros d m s r; [done|]. pose proof (skip_ws_length s) as Hs.
  destruct m; cbn [parse].
  - destruct (skip_ws s) as [|c s']; [done|]. cbn [String.length] in Hs.
    case_bool_decide; [intros Hx%str_rest_shortens; lia|].
    case_bool_decide.
    { case_bool_decide; [done|]. pose proof (skip_ws_length s') as Hs'.
      destruct (skip_ws s') as [|e s'']; [done|]. cbn [String.length] in Hs'.
      case_bool_decide; [intros [= <-]; lia|]. intros Hx%IH. cbn [String.length] in Hx. lia. }
    repeat (case_bool_decide; [intros Hx%expect_shortens; cbn [String.length] in Hx; lia|]).
    intros Hx%number_shortens. cbn [String.length] in Hx. lia.
  - destruct (parse n d MValue s) as [s1|] eqn:H1; [|done]. apply IH in H1. cbn [mbind option_bind].
    pose proof (skip_ws_length s1) as Hs1. destruct (skip_ws s1) as [|c s2]; [done|].
    cbn [String.length] in Hs1. case_bool_decide; [intros Hx%IH; lia|].
    case_bool_decide; [intros [= <-]; lia|done].
  - destruct (skip_ws s) as [|q s1]; [done|]. cbn [String.length] in Hs. case_bool_decide; [|done].
    destruct (str_rest s1) as [s2|] eqn:H2; [|done]. apply str_rest_shortens in H2. cbn [mbind option_bind].
    pose proof (skip_ws_length s2) as Hs2. destruct (skip_ws s2) as [|col s3]; [done|].
    cbn [String.length] in Hs2. case_bool_decide; [|done].
    destruct (parse n d MValue s3) as [s4|] eqn:H4; [|done]. apply IH in H4. cbn [mbind option_bind].
    pose proof (skip_ws_length s4) as Hs4. destruct (skip_ws s4) as [|c s5]; [done|].
    cbn [String.length] in Hs4. case_bool_decide; [intros Hx%IH; lia|].
    case_bool_decide; [intros [= <-]; lia|done].
Qed.

(** The fuel a call needs. *)
Definition parse_need (m : mode) (s : string) : nat :=
  2 * String.length s + match m with MValue => 1 | _ => 2 end.

(** Calls agree when their recursive calls do. *)
Lemma parse_agree k n d m s :
  (∀ d' m' s', parse_need m' s' ≤ n → parse k d' m' s' = parse n d' m' s') →
  parse_need m s ≤ S n → parse (S k) d m s = parse (S n) d m s.
Proof.
  intros IH Hn. pose proof (skip_ws_length s) as Hs. unfold parse_need in Hn.
  assert (HV : m ≠ MValue → parse k d MValue s = parse n d MValue s).
  { intros Hm. apply IH. unfold parse_need. destruct m; [done|lia|lia]. }
  destruct m; cbn [parse].
  - destruct (skip_ws s) as [|c s']; [done|]. cbn [String.length] in Hs.
    case_bool_decide; [done|]. case_bool_decide; [|done]. case_bool_decide; [done|].
    pose proof (skip_ws_length s') as Hs'. destruct (skip_ws s') as [|e s'']; [done|].
    case_bool_decide; [done|]. apply IH. unfold parse_need. case_bool_decide; lia.
  - rewrite HV by done. destruct (parse n d MValue s) as [s1|] eqn:H1; [|done].
    apply parse_shortens in H1. cbn [mbind option_bind]. pose proof (skip_ws_length s1) as Hs1.
    destruct (skip_ws s1) as [|c s2]; [done|]. cbn [String.length] in Hs1.
    case_bool_decide; [|done]. apply IH. unfold parse_need. lia.
  - destruct (skip_ws s) as [|q s1]; [done|]. cbn [String.length] in Hs. case_bool_decide; [|done].
    destruct (str_rest s1) as [s2|] eqn:H2; [|done]. apply str_rest_shortens in H2. cbn [mbind option_bind].
    pose proof (skip_ws_length s2) as Hs2. destruct (skip_ws s2) as [|col s3]; [done|].
    cbn [String.length] in Hs2. case_bool_decide; [|done].
    rewrite IH by (unfold parse_need; lia).
    destruct (parse n d MValue s3) as [s4|] eqn:H4; [|done]. apply parse_shortens in H4. cbn [mbind option_bind].
    pose proof (skip_ws_length s4) as Hs4. destruct (skip_ws s4) as [|c s5]; [done|].
    cbn [String.length] in Hs4. case_bool_decide; [|done]. apply IH. unfold parse_need. lia.
Qed.

Lemma parse_stable n : ∀ d m s, parse_need m s ≤ n → parse (S n) d m s = parse n d m s.
Proof.
  induction n as [|n IH]; intros d m s Hn; [destruct m; unfold parse_need in Hn; lia|].
  by apply parse_agree.
Qed.

(** More fuel than [json_Valid] gives never changes the outcome. *)
Lemma parse_fuel_enough s k :
  parse (k + (2 * String.length s + 2)) 0 MValue s = parse (2 * String.length s + 2) 0 MValue s.
Proof.
  induction k as [|k IH]; [done|]. rewrite <- IH. cbn [Nat.add]. apply parse_stable. unfold parse_need. lia.
Qed.
