(* ===== verification/GoStrings.v ===== *)
(** * Package [strings]: trimming and splitting *)

From stdpp Require Import base list strings numbers.
From Stdlib Require Import Ascii.
From S2P Require Import Prelude GoJSON.

(** [strings.TrimSpace]: ASCII white space and the UTF-8 encodings of the other
    [unicode.IsSpace] runes. *)
Definition go_space (c : ascii) : bool :=
  bool_decide (nat_of_ascii c = 32 ∨ 9 ≤ nat_of_ascii c ≤ 13)%nat.

Definition bytes (l : list nat) : string := String.string_of_list_ascii (ascii_of_nat <$> l).

(** U+0085, U+00A0, U+1680, U+2000 to U+200A, U+2028, U+2029, U+202F, U+205F, U+3000 *)
Definition wide_spaces : list string :=
  bytes <$> ([[194; 133]; [194; 160]; [225; 154; 128]]
             ++ ((fun b => [226; 128; b]) <$> (seq 128 11 ++ [168; 169; 175]))
             ++ [[226; 129; 159]; [227; 128; 128]])%nat.

Fixpoint trim_with (fuel : nat) (wide : list string) (s : string) : string :=
  match fuel, s with
  | S n, String c s' =>
      if go_space c then trim_with n wide s'
      else match head (omap (fun e => expect e s) wide) with
           | Some rest => trim_with n wide rest
           | None => s
           end
  | _, _ => s
  end.

Definition trim_left (wide : list string) (s : string) : string :=
  trim_with (String.length s) wide s.

Definition trim_space (s : string) : string :=
  let l := trim_left wide_spaces s in
  String.rev (trim_left (String.rev <$> wide_spaces) (String.rev l)).

Example trim_space_demo :
  trim_space (" x y " +:+ bytes [227; 128; 128]%nat +:+ " ") = "x y".
Proof. vm_compute. reflexivity. Qed.

(** [strings.SplitN(s, sep, 2)] for a separator of one byte; nothing when there
    is none. *)
Fixpoint split_once (sep : ascii) (s : string) : option (string * string) :=
  match s with
  | EmptyString => None
  | String c rest =>
      if bool_decide (c = sep) then Some ("", rest)
      else match split_once sep rest with
           | Some (before, after) => Some (String c before, after)
           | None => None
           end
  end.

Example split_once_window : split_once "-" "09:00-18:00-x" = Some ("09:00", "18:00-x"). Proof. done. Qed.
