(* ===== verification/Models.v ===== *)
(** * Data model and execution environment

    The rows of [internal/db/models/models.go], the tables they live in
    ([internal/db/migrations]) and the world an operation of the services runs
    in: the database, the clock, the supply of fresh UUIDs, the outcome of the
    next external calls and the observable events emitted so far.

    Instants are nanoseconds since the Unix epoch, as Go's [time.Time]; a
    timestamp that goes through PostgreSQL is truncated to microseconds. *)

From stdpp Require Import base gmap strings list fin_maps.
From Stdlib Require Import ZArith Lia.
From S2P Require Import Prelude.

Open Scope Z_scope.

Abbreviation uuid := Z.
Abbreviation time := Z.

Definition Second : Z := 1000000000.
Definition Minute : Z := 60 * Second.

(** What a [timestamptz] parameter or column keeps of an instant. *)
Definition trunc_us (t : time) : time := t - t mod 1000.

Lemma trunc_us_le t : trunc_us t ≤ t.
Proof. unfold trunc_us. pose proof (Z.mod_pos_bound t 1000). lia. Qed.

Lemma trunc_us_mono s t : s ≤ t → trunc_us s ≤ trunc_us t.
Proof.
  unfold trunc_us. intros H. rewrite !Z.mod_eq by lia.
  pose proof (Z.div_le_mono s t 1000). lia.
Qed.

(** ** The UUID package

    [github.com/google/uuid] is a parameter.  [uuid_New n] is the value of the
    [n]-th call of [uuid.New]. *)

Class UuidPkg := {
  uuid_New : nat → uuid;
  uuid_String : uuid → string;
  uuid_Parse : string → res uuid
}.

(** Documented behaviour: version-4 UUIDs do not repeat, the text form is
    injective and [Parse] reads it back. *)
Class UuidLaws (U : UuidPkg) : Prop := {
  uuid_New_inj : ∀ m n, uuid_New m = uuid_New n → m = n;
  uuid_String_inj : ∀ a b, uuid_String a = uuid_String b → a = b;
  uuid_Parse_String : ∀ a, uuid_Parse (uuid_String a) = Ok a
}.

(** ** Job statuses and types *)

Inductive JobStatus : Type :=
| JobStatusQueued
| JobStatusLeased
| JobStatusSucceeded
| JobStatusFailed
| JobStatusRetryScheduled
| JobStatusDeadLetter.

#[export] Instance JobStatus_eq_dec : EqDecision JobStatus.
Proof. solve_decision. Defined.

(** The string stored in [processing_jobs.status]. *)
Definition job_status_string (s : JobStatus) : string :=
  match s with
  | JobStatusQueued => "queued"
  | JobStatusLeased => "leased"
  | JobStatusSucceeded => "succeeded"
  | JobStatusFailed => "failed"
  | JobStatusRetryScheduled => "retry_scheduled"
  | JobStatusDeadLetter => "dead_letter"
  end.

#[export] Instance job_status_string_inj : Inj (=) (=) job_status_string.
Proof. by intros [] []. Qed.

Definition RunOutcomeSuccess : string := "success".
Definition RunOutcomeFailure : string := "failure".
Definition RunOutcomeError : string := "error".

Inductive ApprovalStatus : Type :=
| ApprovalStatusPending
| ApprovalStatusApproved
| ApprovalStatusRejected.

#[export] Instance ApprovalStatus_eq_dec : EqDecision ApprovalStatus.
Proof. solve_decision. Defined.

(** Keys of the map [KnownJobTypes], all mapped to [true]. *)
Definition KnownJobTypes : list string :=
  ["llm_rewrite"; "llm_routing"; "rules_classify"; "composite"].

Definition IsKnownJobType (jobType : string) : bool :=
  bool_decide (jobType ∈ KnownJobTypes).

(** ** Rows *)

Record SourceTask := mkSourceTask {
  st_ID : uuid;
  st_SourceConnectionID : uuid;
  st_ExternalID : string;
  st_Title : string;
  st_Description : option string;
  st_RawPayload : string;
  st_ContentHash : string;
  st_Status : string;
  st_CreatedAt : time;
  st_UpdatedAt : time
}.

#[export] Instance SourceTask_settable : Settable SourceTask := fun r =>
  mkSourceTask (st_ID r) (st_SourceConnectionID r) (st_ExternalID r) (st_Title r)
    (st_Description r) (st_RawPayload r) (st_ContentHash r) (st_Status r)
    (st_CreatedAt r) (st_UpdatedAt r).

Record SourceTaskSnapshot := mkSnapshot {
  sn_ID : uuid;
  sn_SourceTaskID : uuid;
  sn_SnapshotVersion : Z;
  sn_ContentHash : string;
  sn_RawPayload : string;
  sn_SnapshotTakenAt : time
}.

Record ProcessingJob := mkJob {
  job_ID : uuid;
  job_SourceTaskID : uuid;
  job_JobType : string;
  job_Status : JobStatus;
  job_Priority : Z;
  job_DedupeKey : option string;
  job_AttemptCount : Z;
  job_MaxAttempts : Z;
  job_Payload : string;
  job_ErrorCode : option string;
  job_ErrorMessage : option string;
  job_LeasedAt : option time;
  job_LeaseExpiry : option time;
  job_LeasedByWorkerID : option string;
  job_ScheduledAt : option time;
  job_CreatedAt : time;
  job_UpdatedAt : time
}.

#[export] Instance ProcessingJob_settable : Settable ProcessingJob := fun r =>
  mkJob (job_ID r) (job_SourceTaskID r) (job_JobType r) (job_Status r) (job_Priority r)
    (job_DedupeKey r) (job_AttemptCount r) (job_MaxAttempts r) (job_Payload r)
    (job_ErrorCode r) (job_ErrorMessage r) (job_LeasedAt r) (job_LeaseExpiry r)
    (job_LeasedByWorkerID r) (job_ScheduledAt r) (job_CreatedAt r) (job_UpdatedAt r).

#[export] Instance ProcessingJob_eq_dec : EqDecision ProcessingJob.
Proof. solve_decision. Defined.

(** The enriched [result_payload] of a run, field by field; [TimeoutUsed] is
    written in seconds. *)
Record RunMeta := mkRunMeta {
  meta_provider : string;
  meta_model_role : string;
  meta_model_name : string;
  meta_tokens_prompt : Z;
  meta_tokens_completion : Z;
  meta_tokens_total : Z;
  meta_timeout_used : Z;
  meta_used_fallback : bool;
  meta_attempt_number : Z;
  meta_output : option string;
  meta_execution_trace : option string
}.

(** A run's [result_payload]: the processor's own JSON, or the enriched object. *)
Inductive ResultPayload : Type :=
| RawPayload (json : string)
| MetaPayload (m : RunMeta).

Record ProcessingRun := mkRun {
  run_ID : uuid;
  run_JobID : uuid;
  run_AttemptNumber : Z;
  run_Outcome : string;
  run_StartedAt : time;
  run_FinishedAt : option time;
  run_DurationMs : option Z;
  run_ErrorMessage : option string;
  run_ResultPayload : option ResultPayload;
  run_WorkerID : option string
}.

Record SuggestionProposal := mkProposal {
  pr_ID : uuid;
  pr_SourceTaskID : uuid;
  pr_JobID : uuid;
  pr_ProposalType : string;
  pr_ApprovalStatus : ApprovalStatus;
  pr_HumanReviewRequired : bool;
  pr_ProposalPayload : string;
  pr_ApprovedBy : option string;
  pr_AutoApproved : bool;
  pr_ReviewedAt : option time;
  pr_CreatedAt : time;
  pr_UpdatedAt : time
}.

(** ** Observable events *)

(** A value of a [map[string]any] payload. *)
Inductive jval : Type :=
| JStr (s : string)
| JInt (z : Z)
| JBool (b : bool)
| JTime (t : time).

#[export] Instance jval_eq_dec : EqDecision jval.
Proof. solve_decision. Defined.

Abbreviation payload := (list (string * jval)).

Inductive Event : Type :=
| EvAudit (entityType : string) (entityID : uuid) (eventType actorType actorID : string)
          (p : payload)
| EvPublish (subject : string) (p : payload)
| EvMetric (name : string) (by_ : Z)
| EvAck (subject : string).

#[export] Instance Event_eq_dec : EqDecision Event.
Proof. solve_decision. Defined.

(** ** The database and the world *)

Record DB := mkDB {
  source_tasks : gmap uuid SourceTask;
  source_task_snapshots : gmap uuid SourceTaskSnapshot;
  processing_jobs : gmap uuid ProcessingJob;
  processing_runs : gmap uuid ProcessingRun;
  suggestion_proposals : gmap uuid SuggestionProposal
}.

#[export] Instance DB_settable : Settable DB := fun r =>
  mkDB (source_tasks r) (source_task_snapshots r) (processing_jobs r)
    (processing_runs r) (suggestion_proposals r).

Definition empty_db : DB := mkDB ∅ ∅ ∅ ∅ ∅.

(** The outcome of one call to a service (a database statement, a bus
    publication, an audit record): it goes through, it fails without effect,
    or it takes effect and the caller still sees an error. *)
Inductive Fault : Type :=
| NoFault
| FaultBefore (e : error)
| FaultAfter (e : error).

Record World := mkWorld {
  w_db : DB;
  w_now : time;
  w_uuids : nat;
  w_locked : gset uuid;
  w_faults : list Fault;
  w_events : list Event
}.

#[export] Instance World_settable : Settable World := fun r =>
  mkWorld (w_db r) (w_now r) (w_uuids r) (w_locked r) (w_faults r) (w_events r).

Abbreviation M := (St World).

(** Rows of [processing_jobs] that concurrent transactions hold locked at this
    instant ([w_locked]); only [SKIP LOCKED] can see them. *)
Definition locked_rows : M (gset uuid) := fun w => (w_locked w, w).

(** [time.Now().UTC()] *)
Definition time_Now : M time := fun w => (w_now w, w).

(** [uuid.New()] *)
Definition fresh_uuid `{UuidPkg} : M uuid := fun w =>
  (uuid_New (w_uuids w), w <| w_uuids := S (w_uuids w) |>).

(** The outcome of the next external call; calls succeed once the list of
    scripted outcomes is used up. *)
Definition next_fault : M Fault := fun w =>
  match w_faults w with
  | [] => (NoFault, w)
  | f :: fs => (f, w <| w_faults := fs |>)
  end.

(** Run one SQL statement.  [stmt] returns the rows the client reads and the
    new database, or the error PostgreSQL raises, which aborts the statement. *)
Definition db_call {A} (stmt : DB → res (A * DB)) : M (res A) :=
  let! f := next_fault in
  fun w =>
    match f, stmt (w_db w) with
    | FaultBefore e, _ => (Err e, w)
    | _, Err e => (Err e, w)
    | NoFault, Ok (a, db') => (Ok a, w <| w_db := db' |>)
    | FaultAfter e, Ok (_, db') => (Err e, w <| w_db := db' |>)
    end.

Definition emit (ev : Event) : M unit := fun w =>
  (tt, w <| w_events := w_events w ++ [ev] |>).

(** [audit.RecordEvent], whose error every caller discards. *)
Definition audit_RecordEvent (ev : Event) : M unit :=
  let! f := next_fault in
  match f with
  | FaultBefore _ => retS tt
  | _ => emit ev
  end.

(** [publisher.Publish], whose error every caller only logs. *)
Definition publish (subject : string) (p : payload) : M unit :=
  let! f := next_fault in
  match f with
  | FaultBefore _ => retS tt
  | _ => emit (EvPublish subject p)
  end.

(** A metric counter, when metrics are configured. *)
Definition metric_add (attached : bool) (name : string) (n : Z) : M unit :=
  if attached then emit (EvMetric name n) else retS tt.

(** ** What the environment primitives leave alone *)

Section frame.
Context {A : Type}.

Lemma next_fault_db w : w_db (snd (next_fault w)) = w_db w.
Proof. unfold next_fault. by case_match. Qed.
Lemma next_fault_now w : w_now (snd (next_fault w)) = w_now w.
Proof. unfold next_fault. by case_match. Qed.

Lemma audit_RecordEvent_db ev w : w_db (snd (audit_RecordEvent ev w)) = w_db w.
Proof.
  unfold audit_RecordEvent. rewrite bindS_run, <- (next_fault_db w).
  by case_match.
Qed.
Lemma audit_RecordEvent_now ev w : w_now (snd (audit_RecordEvent ev w)) = w_now w.
Proof.
  unfold audit_RecordEvent. rewrite bindS_run, <- (next_fault_now w).
  by case_match.
Qed.

Lemma publish_db s p w : w_db (snd (publish s p w)) = w_db w.
Proof.
  unfold publish. rewrite bindS_run, <- (next_fault_db w). by case_match.
Qed.
Lemma publish_now s p w : w_now (snd (publish s p w)) = w_now w.
Proof.
  unfold publish. rewrite bindS_run, <- (next_fault_now w). by case_match.
Qed.

Lemma metric_add_db b n k w : w_db (snd (metric_add b n k w)) = w_db w.
Proof. unfold metric_add. by destruct b. Qed.
Lemma metric_add_now b n k w : w_now (snd (metric_add b n k w)) = w_now w.
Proof. unfold metric_add. by destruct b. Qed.

(** A statement call either leaves the database alone and fails, or applies
    the statement once. *)
Lemma db_call_cases (stmt : DB → res (A * DB)) w :
  (∃ e, fst (db_call stmt w) = Err e ∧ w_db (snd (db_call stmt w)) = w_db w) ∨
  (∃ a db', stmt (w_db w) = Ok (a, db') ∧ w_db (snd (db_call stmt w)) = db' ∧
     (fst (db_call stmt w) = Ok a ∨ ∃ e, fst (db_call stmt w) = Err e)).
Proof.
  unfold db_call. rewrite bindS_run, <- (next_fault_db w).
  destruct (fst (next_fault w)), (stmt _) as [[a db']|err]; cbn; naive_solver.
Qed.

Lemma db_call_now (stmt : DB → res (A * DB)) w :
  w_now (snd (db_call stmt w)) = w_now w.
Proof.
  unfold db_call, bindS. pose proof (next_fault_now w) as Hn.
  destruct (next_fault w) as [f w']. cbn in Hn.
  by destruct f, (stmt (w_db w')) as [[a db']|err].
Qed.

(** Without scripted faults a call returns exactly what the statement does. *)
Lemma db_call_nofault (stmt : DB → res (A * DB)) w :
  w_faults w = [] →
  db_call stmt w =
    match stmt (w_db w) with
    | Ok (a, db') => (Ok a, w <| w_db := db' |>)
    | Err e => (Err e, w)
    end.
Proof.
  intros Hf. unfold db_call. rewrite bindS_run. unfold next_fault. rewrite Hf. cbn.
  by destruct (stmt (w_db w)) as [[a db']|e].
Qed.
(** Calls under a script. *)
Lemma db_call_before (stmt : DB → res (A * DB)) e fs w :
  w_faults w = FaultBefore e :: fs → db_call stmt w = (Err e, w <| w_faults := fs |>).
Proof. intros Hf. unfold db_call. rewrite bindS_run. unfold next_fault. by rewrite Hf. Qed.

Lemma db_call_nofault_cons (stmt : DB → res (A * DB)) fs w :
  w_faults w = NoFault :: fs →
  db_call stmt w =
    match stmt (w_db w) with
    | Ok (a, db') => (Ok a, w <| w_faults := fs |> <| w_db := db' |>)
    | Err e => (Err e, w <| w_faults := fs |>)
    end.
Proof.
  intros Hf. unfold db_call. rewrite bindS_run. unfold next_fault. rewrite Hf. cbn.
  by destruct (stmt (w_db w)) as [[a db']|e].
Qed.
End frame.


(** ** Framing

    [frame f c]: running [c] leaves the component [f] of the world alone. *)

Definition frame {A B} (f : World → B) (c : M A) : Prop := ∀ w, f (snd (c w)) = f w.

Abbreviation db_frame := (frame w_db).
Abbreviation now_frame := (frame w_now).

Section frame_rules.
Context {X : Type} (f : World → X).

Lemma frame_ret {A} (a : A) : frame f (retS a).
Proof. done. Qed.

Lemma frame_bind {A B} (c : M A) (k : A → M B) :
  frame f c → (∀ a, frame f (k a)) → frame f (bindS c k).
Proof. intros Hc Hk w. by rewrite bindS_run, Hk, Hc. Qed.

Lemma frame_forS {A} (g : A → M unit) l : (∀ x, frame f (g x)) → frame f (forS g l).
Proof.
  intros Hf. induction l as [|x l IH]; [apply frame_ret|].
  cbn [forS]. apply frame_bind; auto.
Qed.

Lemma frame_now : frame f time_Now.
Proof. done. Qed.

Lemma frame_locked : frame f locked_rows.
Proof. done. Qed.
End frame_rules.

Lemma db_frame_audit ev : db_frame (audit_RecordEvent ev).
Proof. intros w. apply audit_RecordEvent_db. Qed.
Lemma now_frame_audit ev : now_frame (audit_RecordEvent ev).
Proof. intros w. apply audit_RecordEvent_now. Qed.
Lemma db_frame_publish s p : db_frame (publish s p).
Proof. intros w. apply publish_db. Qed.
Lemma now_frame_publish s p : now_frame (publish s p).
Proof. intros w. apply publish_now. Qed.
Lemma db_frame_metric b n k : db_frame (metric_add b n k).
Proof. intros w. apply metric_add_db. Qed.
Lemma now_frame_metric b n k : now_frame (metric_add b n k).
Proof. intros w. apply metric_add_now. Qed.
Lemma db_frame_uuid `{UuidPkg} : db_frame fresh_uuid.
Proof. done. Qed.
Lemma now_frame_uuid `{UuidPkg} : now_frame fresh_uuid.
Proof. done. Qed.
Lemma now_frame_db_call {A} (stmt : DB → res (A * DB)) : now_frame (db_call stmt).
Proof. intros w. apply db_call_now. Qed.

#[export] Hint Resolve frame_ret frame_now frame_locked db_frame_audit now_frame_audit
  db_frame_publish now_frame_publish db_frame_metric now_frame_metric db_frame_uuid
  now_frame_uuid now_frame_db_call : frame.

(** Solves [frame] goals over code built from the primitives above. *)
Ltac solve_frame :=
  repeat first
    [ progress intros
    | solve [eauto 2 with frame]
    | apply frame_bind
    | apply frame_forS
    | case_match ].

(** After its last database call a computation only emits events. *)
Lemma bind_tail_db {A B} (c : M A) (k : A → M B) w :
  (∀ a, db_frame (k a)) → w_db (snd (bindS c k w)) = w_db (snd (c w)).
Proof. intros Hk. rewrite bindS_run. apply Hk. Qed.

(** ** Runs without faults stay without faults *)

Lemma publish_nofault s p w :
  w_faults w = [] → publish s p w = (tt, w <| w_events := w_events w ++ [EvPublish s p] |>).
Proof.
  intros Hf. unfold publish. rewrite bindS_run. unfold next_fault. by rewrite Hf.
Qed.

Definition nofault_frame {A} (c : M A) : Prop := ∀ w, w_faults w = [] → w_faults (snd (c w)) = [].

Lemma frame_nofault {A} (c : M A) w :
  nofault_frame c → w_faults w = [] → w_faults (snd (c w)) = [].
Proof. auto. Qed.

Lemma nofault_ret {A} (a : A) : nofault_frame (retS a).
Proof. by intros w. Qed.
Lemma nofault_bind {A B} (c : M A) (k : A → M B) :
  nofault_frame c → (∀ a, nofault_frame (k a)) → nofault_frame (bindS c k).
Proof. intros Hc Hk w Hw. rewrite bindS_run. by apply Hk, Hc. Qed.
Lemma nofault_db_call {A} (stmt : DB → res (A * DB)) : nofault_frame (db_call stmt).
Proof. intros w Hw. rewrite db_call_nofault by done. by destruct (stmt _) as [[??]|]. Qed.
Lemma nofault_next : nofault_frame next_fault.
Proof. intros w Hw. unfold next_fault. by rewrite Hw. Qed.
Lemma nofault_emit ev : nofault_frame (emit ev).
Proof. by intros w. Qed.
Lemma nofault_now : nofault_frame time_Now.
Proof. by intros w. Qed.
Lemma nofault_uuid `{UuidPkg} : nofault_frame fresh_uuid.
Proof. by intros w. Qed.

Lemma nofault_locked : nofault_frame locked_rows.
Proof. by intros w. Qed.
Lemma nofault_metric b n k : nofault_frame (metric_add b n k).
Proof. intros w Hw. unfold metric_add. by destruct b. Qed.
Lemma nofault_audit ev : nofault_frame (audit_RecordEvent ev).
Proof. intros w Hw. unfold audit_RecordEvent, bindS, next_fault. by rewrite Hw. Qed.
Lemma nofault_publish s p : nofault_frame (publish s p).
Proof. intros w Hw. by rewrite publish_nofault. Qed.
Lemma nofault_forS {A} (g : A → M unit) l : (∀ x, nofault_frame (g x)) → nofault_frame (forS g l).
Proof.
  intros Hg. induction l as [|x l IH]; [apply nofault_ret|]. cbn [forS].
  by apply nofault_bind.
Qed.

#[export] Hint Resolve nofault_ret nofault_db_call nofault_next nofault_emit nofault_now
  nofault_uuid nofault_locked nofault_metric nofault_audit nofault_publish : frame.

Ltac solve_nofault :=
  repeat first
    [ progress intros
    | solve [eauto 2 with frame]
    | apply nofault_bind
    | apply nofault_forS
    | case_match ].
