(* ===== verification/Contracts.v ===== *)
(** * Message contracts ([internal/contracts])

    The NATS subjects and the constructors of the events the components
    publish.  An event is the list of its JSON fields, in the order of the Go
    struct. *)

From stdpp Require Import base gmap strings list.
From Stdlib Require Import ZArith.
From S2P Require Import Prelude Models.

Open Scope Z_scope.

Definition SubjectSourceTaskDetected : string := "runeforge.source.task.detected".
Definition SubjectSourceTaskChanged : string := "runeforge.source.task.changed".
Definition SubjectJobCreated : string := "runeforge.job.created".
Definition SubjectJobRetry : string := "runeforge.job.retry".
Definition SubjectJobDead : string := "runeforge.job.dead".
Definition SubjectProposalCreated : string := "runeforge.proposal.created".
Definition SubjectCommandTaskResync : string := "runeforge.commands.task.resync".
Definition SubjectCommandJobRetry : string := "runeforge.commands.job.retry".
Definition SubjectControlAlertLeaseExpired : string := "runeforge.control.alert.lease_expired".
Definition SubjectControlAlertRetryOverdue : string := "runeforge.control.alert.retry_overdue".
Definition SubjectControlAlertQueueBacklog : string := "runeforge.control.alert.queue_backlog".
Definition SubjectControlAlertLeaseLost : string := "runeforge.control.alert.lease_lost".
Definition SubjectControlResultReclaimCompleted : string :=
  "runeforge.control.result.reclaim_completed".
Definition SubjectControlResultRetryRequeueCompleted : string :=
  "runeforge.control.result.retry_requeue_completed".

Definition version_field : string * jval := ("version", JStr "v1").

Definition NewSourceTaskDetectedEvent
    (sourceTaskID sourceConnectionID externalID changeType : string) (detectedAt : time)
    : payload :=
  [version_field; ("source_task_id", JStr sourceTaskID);
   ("source_connection_id", JStr sourceConnectionID); ("external_id", JStr externalID);
   ("change_type", JStr changeType); ("detected_at", JTime detectedAt)].

Definition NewSourceTaskChangedEvent (sourceTaskID previousHash newHash : string)
    (changedAt : time) : payload :=
  [version_field; ("source_task_id", JStr sourceTaskID); ("previous_hash", JStr previousHash);
   ("new_hash", JStr newHash); ("changed_at", JTime changedAt)].

(** [JobCreatedEvent], as a record too: the orchestrator reads it back. *)
Record JobCreatedEvent := mkJobCreatedEvent {
  jce_Version : string;
  jce_JobID : string;
  jce_SourceTaskID : string;
  jce_JobType : string;
  jce_Priority : Z;
  jce_DedupeKey : string
}.

Definition NewJobCreatedEvent (jobID sourceTaskID jobType : string) (priority : Z)
    (dedupeKey : string) : payload :=
  [version_field; ("job_id", JStr jobID); ("source_task_id", JStr sourceTaskID);
   ("job_type", JStr jobType); ("priority", JInt priority); ("dedupe_key", JStr dedupeKey)].

Definition NewJobRetryEvent (jobID sourceTaskID jobType : string) (attemptCount maxAttempts : Z)
    (errorCode errorMessage : string) (retryAt : time) : payload :=
  [version_field; ("job_id", JStr jobID); ("source_task_id", JStr sourceTaskID);
   ("job_type", JStr jobType); ("attempt_count", JInt attemptCount);
   ("max_attempts", JInt maxAttempts); ("error_code", JStr errorCode);
   ("error_message", JStr errorMessage); ("retry_at", JTime retryAt)].

Definition NewJobDeadEvent (jobID sourceTaskID jobType : string) (attemptCount maxAttempts : Z)
    (errorCode errorMessage : string) (deadAt : time) : payload :=
  [version_field; ("job_id", JStr jobID); ("source_task_id", JStr sourceTaskID);
   ("job_type", JStr jobType); ("attempt_count", JInt attemptCount);
   ("max_attempts", JInt maxAttempts); ("error_code", JStr errorCode);
   ("error_message", JStr errorMessage); ("dead_at", JTime deadAt)].

Definition NewProposalCreatedEvent (proposalID sourceTaskID proposalType : string)
    (humanReviewRequired : bool) : payload :=
  [version_field; ("proposal_id", JStr proposalID); ("source_task_id", JStr sourceTaskID);
   ("proposal_type", JStr proposalType); ("human_review_required", JBool humanReviewRequired)].

Record TaskResyncCommandEvent := mkTaskResyncCommandEvent {
  trc_Version : string;
  trc_SourceTaskID : string;
  trc_JobType : string;
  trc_Priority : Z
}.

Record JobRetryCommandEvent := mkJobRetryCommandEvent {
  jrc_Version : string;
  jrc_JobID : string
}.

(** The alert constructors read the clock themselves; [now] is what they read. *)

Definition NewLeaseExpiredAlertEvent (count : Z) (now : time) : payload :=
  [version_field; ("count", JInt count); ("detected_at", JTime now)].

Definition NewRetryOverdueAlertEvent (count : Z) (now : time) : payload :=
  [version_field; ("count", JInt count); ("detected_at", JTime now)].

Definition NewQueueBacklogAlertEvent (count threshold : Z) (now : time) : payload :=
  [version_field; ("count", JInt count); ("threshold", JInt threshold);
   ("detected_at", JTime now)].

Definition NewLeaseLostAlertEvent (jobID workerID : string) (now : time) : payload :=
  [version_field; ("job_id", JStr jobID); ("worker_id", JStr workerID);
   ("detected_at", JTime now)].

Definition NewReclaimCompletedEvent (reclaimed : Z) : payload :=
  [version_field; ("reclaimed", JInt reclaimed)].

Definition NewRetryRequeueCompletedEvent (requeued : Z) : payload :=
  [version_field; ("requeued", JInt requeued)].
