(* ===== verification/JobQueue.v ===== *)
(** * The job queue ([internal/jobs/queue.go])

    [JobsTable] holds the SQL statements the queue issues, as functions on the
    table [processing_jobs]; [Queue] holds the Go methods, which run those
    statements in the world of [Models] (clock, faults, audit trail). *)

From stdpp Require Import base gmap strings list fin_maps.
From Stdlib Require Import ZArith Lia.
From S2P Require Import Prelude GoFloat Models.

Open Scope Z_scope.

(** ** SQL statements on [processing_jobs] *)

Module JobsTable.

Abbreviation table := (gmap uuid ProcessingJob).

Definition rows (t : table) : list ProcessingJob := (map_to_list t).*2.

(** The predicate of the partial unique index [uq_processing_jobs_dedupe]:
    [status NOT IN ('succeeded', 'dead_letter')]. *)
Definition live (s : JobStatus) : bool :=
  match s with
  | JobStatusSucceeded | JobStatusDeadLetter => false
  | _ => true
  end.

(** Does a live row other than the row [self] being updated, if any, carry the
    dedupe key [key]? *)
Definition dedupe_conflict (t : table) (self : option uuid) (key : option string) : bool :=
  match key with
  | None => false
  | Some k =>
      existsb (fun r => live (job_Status r) && bool_decide (job_DedupeKey r = Some k)
                        && negb (bool_decide (Some (job_ID r) = self))) (rows t)
  end.

Definition unique_violation : error :=
  Errorf "duplicate key value violates unique constraint".
Definition fk_violation : error :=
  Errorf "insert or update violates foreign key constraint".
Definition out_of_range : error := Errorf "integer out of range".

(** [INSERT INTO processing_jobs ... ON CONFLICT (dedupe_key) ... DO NOTHING];
    the number of rows inserted. *)
Definition insert_job (job : ProcessingJob) (db : DB) : res (Z * DB) :=
  let t := processing_jobs db in
  if negb (in_int4 (job_Priority job) && in_int4 (job_MaxAttempts job)) then Err out_of_range
  else if dedupe_conflict t None (job_DedupeKey job) then Ok (0, db)
  else match t !! job_ID job with
       | Some _ => Err unique_violation
       | None =>
           match source_tasks db !! job_SourceTaskID job with
           | None => Err fk_violation
           | Some _ => Ok (1, db <| processing_jobs := <[job_ID job := job]> t |>)
           end
       end.

(** The rows the sub-select of [Lease] ranges over. *)
Definition leasable (now : time) (jobTypes : list string) (locked : gset uuid)
    (r : ProcessingJob) : bool :=
  bool_decide (job_Status r = JobStatusQueued)
  && match job_ScheduledAt r with None => true | Some s => bool_decide (s ≤ now) end
  && bool_decide (job_JobType r ∈ jobTypes)
  && negb (bool_decide (job_ID r ∈ locked)).

(** [ORDER BY priority DESC, created_at ASC] *)
Definition lease_before (a b : ProcessingJob) : bool :=
  bool_decide (job_Priority b < job_Priority a) ||
  (bool_decide (job_Priority a = job_Priority b)
   && bool_decide (job_CreatedAt a < job_CreatedAt b)).

(** [UPDATE ... SET status = 'leased' ... WHERE id = (SELECT ... FOR UPDATE SKIP
    LOCKED LIMIT 1) RETURNING ...] *)
Definition lease_job (now expiry : time) (jobTypes : list string) (workerID : string)
    (locked : gset uuid) (db : DB) : res (option ProcessingJob * DB) :=
  let t := processing_jobs db in
  match select_best lease_before (List.filter (leasable now jobTypes locked) (rows t)) with
  | None => Ok (None, db)
  | Some r =>
      let r' := r <| job_Status := JobStatusLeased |>
                  <| job_LeasedAt := Some now |>
                  <| job_LeaseExpiry := Some expiry |>
                  <| job_LeasedByWorkerID := Some workerID |>
                  <| job_UpdatedAt := now |> in
      Ok (Some r', db <| processing_jobs := <[job_ID r := r']> t |>)
  end.

(** The guard [status = 'leased' AND leased_by_worker_id = $w] *)
Definition owned_by (workerID : string) (r : ProcessingJob) : bool :=
  bool_decide (job_Status r = JobStatusLeased)
  && bool_decide (job_LeasedByWorkerID r = Some workerID).

Definition complete_row (now : time) (r : ProcessingJob) : ProcessingJob :=
  r <| job_Status := JobStatusSucceeded |>
    <| job_LeasedByWorkerID := None |>
    <| job_UpdatedAt := now |>.

Definition complete_job (now : time) (jobID : uuid) (workerID : string) (db : DB)
    : res (Z * DB) :=
  let t := processing_jobs db in
  match t !! jobID with
  | Some r =>
      if owned_by workerID r
      then Ok (1, db <| processing_jobs := <[jobID := complete_row now r]> t |>)
      else Ok (0, db)
  | None => Ok (0, db)
  end.

(** [make_interval(secs => s)] in microseconds; [None]: out of range. *)
Definition make_interval_us (s : float64) : option Z :=
  match f_rint (fmul s (f_of_Z 1000000)) with
  | Some us => if bool_decide (int64_min ≤ us ≤ int64_max) then Some us else None
  | None => None
  end.

(** [n::float8 * n::float8 * 30.0] seconds, in microseconds. *)
Definition backoff_us (n : Z) : option Z :=
  make_interval_us (fmul (fmul (f_of_Z n) (f_of_Z n)) (f_of_Z 30)).

(** The last instant of [timestamptz] (the year 294276), in microseconds since
    the Unix epoch. *)
Definition pg_max_us : Z := 9223371331200000000 + 946684800000000.

Definition fail_dead (r : ProcessingJob) : bool :=
  bool_decide (job_MaxAttempts r ≤ job_AttemptCount r + 1).

(** The columns [Fail] writes; [sched] is the new [scheduled_at]. *)
Definition fail_row (now : time) (errCode errMsg : string) (sched : option time)
    (r : ProcessingJob) : ProcessingJob :=
  r <| job_Status := if fail_dead r then JobStatusDeadLetter else JobStatusRetryScheduled |>
    <| job_AttemptCount := job_AttemptCount r + 1 |>
    <| job_LeasedByWorkerID := None |>
    <| job_ScheduledAt := sched |>
    <| job_UpdatedAt := now |>
    <| job_ErrorCode := Some errCode |>
    <| job_ErrorMessage := Some errMsg |>.

(** [$1::timestamptz + make_interval(...)] of the [ELSE] branch. *)
Definition retry_time (now : time) (n : Z) : res time :=
  match backoff_us n with
  | None => Err (Errorf "interval out of range")
  | Some us =>
      if bool_decide (now + 1000 * us ≤ 1000 * pg_max_us) then Ok (now + 1000 * us)
      else Err (Errorf "timestamp out of range")
  end.

Definition fail_job (now : time) (jobID : uuid) (workerID errCode errMsg : string) (db : DB)
    : res (option ProcessingJob * DB) :=
  let t := processing_jobs db in
  let store r' := Ok (Some r', db <| processing_jobs := <[jobID := r']> t |>) in
  match t !! jobID with
  | Some r =>
      if owned_by workerID r then
        if negb (in_int4 (job_AttemptCount r + 1)) then Err out_of_range
        else if fail_dead r then store (fail_row now errCode errMsg None r)
        else match retry_time now (job_AttemptCount r + 1) with
             | Err e => Err e
             | Ok s => store (fail_row now errCode errMsg (Some s) r)
             end
      else Ok (None, db)
  | None => Ok (None, db)
  end.

Definition renew_row (expiry now : time) (r : ProcessingJob) : ProcessingJob :=
  r <| job_LeaseExpiry := Some expiry |> <| job_UpdatedAt := now |>.

Definition renew_lease (expiry now : time) (jobID : uuid) (workerID : string) (db : DB)
    : res (Z * DB) :=
  let t := processing_jobs db in
  match t !! jobID with
  | Some r =>
      if owned_by workerID r
      then Ok (1, db <| processing_jobs := <[jobID := renew_row expiry now r]> t |>)
      else Ok (0, db)
  | None => Ok (0, db)
  end.

(** [UPDATE processing_jobs SET f WHERE p] over the whole table, with the old
    rows it matched. *)
Definition update_where (p : ProcessingJob → bool) (f : ProcessingJob → ProcessingJob)
    (db : DB) : res (list ProcessingJob * DB) :=
  let t := processing_jobs db in
  Ok (List.filter p (rows t),
      db <| processing_jobs := (fun r => if p r then f r else r) <$> t |>).

Definition lease_expired (now : time) (r : ProcessingJob) : bool :=
  bool_decide (job_Status r = JobStatusLeased)
  && match job_LeaseExpiry r with Some x => bool_decide (x < now) | None => false end.

Definition reclaim_row (now : time) (r : ProcessingJob) : ProcessingJob :=
  r <| job_Status := JobStatusQueued |>
    <| job_LeasedAt := None |>
    <| job_LeaseExpiry := None |>
    <| job_LeasedByWorkerID := None |>
    <| job_UpdatedAt := now |>.

Definition retry_due (now : time) (r : ProcessingJob) : bool :=
  bool_decide (job_Status r = JobStatusRetryScheduled)
  && match job_ScheduledAt r with Some s => bool_decide (s ≤ now) | None => false end.

Definition requeue_row (now : time) (r : ProcessingJob) : ProcessingJob :=
  r <| job_Status := JobStatusQueued |> <| job_UpdatedAt := now |>.

Definition retry_row (now : time) (r : ProcessingJob) : ProcessingJob :=
  r <| job_Status := JobStatusQueued |>
    <| job_ScheduledAt := None |>
    <| job_UpdatedAt := now |>.

(** [Retry]'s statement.  A dead-lettered row enters the dedupe index again, so
    a live row with its key makes the statement fail. *)
Definition retry_job (now : time) (jobID : uuid) (db : DB) : res (Z * DB) :=
  let t := processing_jobs db in
  match t !! jobID with
  | Some r =>
      match job_Status r with
      | JobStatusFailed | JobStatusDeadLetter =>
          if dedupe_conflict t (Some jobID) (job_DedupeKey r) then Err unique_violation
          else Ok (1, db <| processing_jobs := <[jobID := retry_row now r]> t |>)
      | _ => Ok (0, db)
      end
  | None => Ok (0, db)
  end.

Definition unknown_queued (knownTypes : list string) (r : ProcessingJob) : bool :=
  bool_decide (job_Status r = JobStatusQueued)
  && negb (bool_decide (job_JobType r ∈ knownTypes)).

Definition unknown_row (now : time) (r : ProcessingJob) : ProcessingJob :=
  r <| job_Status := JobStatusDeadLetter |>
    <| job_ErrorCode := Some "UNKNOWN_JOB_TYPE" |>
    <| job_ErrorMessage := Some "job type is not recognised by any processor" |>
    <| job_UpdatedAt := now |>.

Definition count_status (s : JobStatus) (t : table) : Z :=
  Z.of_nat (length (List.filter (fun r => bool_decide (job_Status r = s)) (rows t))).

End JobsTable.

(** ** Methods of [Queue] *)

Module Queue.
Import JobsTable.

(** 5 minutes *)
Definition leaseDuration : Z := 5 * Minute.

Record EnqueueParams := mkEnqueueParams {
  p_SourceTaskID : uuid;
  p_JobType : string;
  p_Priority : Z;
  p_DedupeKey : option string;
  p_MaxAttempts : Z
}.

Record FailResult := mkFailResult {
  fr_NewStatus : JobStatus;
  fr_AttemptCount : Z;
  fr_MaxAttempts : Z;
  fr_ScheduledAt : option time
}.

(** The queue's own configuration: whether an audit recorder is attached. *)
Record Queue := mkQueue { q_audit : bool }.

Definition ErrUnknownJobType : error := Errorf "unknown job type".

(** [q.record]: fire and forget. *)
Definition record (q : Queue) (entityType : string) (entityID : uuid)
    (eventType actorType actorID : string) (p : payload) : M unit :=
  if q_audit q
  then audit_RecordEvent (EvAudit entityType entityID eventType actorType actorID p)
  else retS tt.

Section methods.
Context {U : UuidPkg}.

(** [params.MaxAttempts], defaulted to 3. *)
Definition max_attempts_or_default (n : Z) : Z := if bool_decide (n ≤ 0) then 3 else n.

Definition Enqueue (q : Queue) (params : EnqueueParams) : M (res (option ProcessingJob)) :=
  if negb (IsKnownJobType (p_JobType params)) then
    retS (Err (Wrapf (error_text ErrUnknownJobType +:+ ": " +:+ p_JobType params)
                     ErrUnknownJobType))
  else
    let! now := time_Now in
    let! id := fresh_uuid in
    let job := mkJob id (p_SourceTaskID params) (p_JobType params) JobStatusQueued
                 (p_Priority params) (p_DedupeKey params) 0
                 (max_attempts_or_default (p_MaxAttempts params)) "{}"
                 None None None None None None now now in
    let! r := db_call (insert_job (job <| job_CreatedAt := trunc_us now |>
                                       <| job_UpdatedAt := trunc_us now |>)) in
    match r with
    | Err e => retS (Err (wrap "insert job: " e))
    | Ok affected =>
        if bool_decide (affected = 0) then retS (Ok None)
        else
          let! _ := record q "job" id "job.created" "system" "queue"
                      [("job_type", JStr (job_JobType job));
                       ("source_task_id", JStr (uuid_String (job_SourceTaskID job)));
                       ("priority", JInt (job_Priority job))] in
          retS (Ok (Some job))
    end.

Definition Lease (q : Queue) (workerID : string) (jobTypes : list string)
    : M (res (option ProcessingJob)) :=
  let! now := time_Now in
  let! locked := locked_rows in
  let! r := db_call (lease_job (trunc_us now) (trunc_us (now + leaseDuration))
                       jobTypes workerID locked) in
  match r with
  | Err e => retS (Err (wrap "lease job: " e))
  | Ok None => retS (Ok None)
  | Ok (Some row) =>
      (* error_code and error_message are not among the columns returned *)
      let job := row <| job_ErrorCode := None |> <| job_ErrorMessage := None |> in
      let! _ := record q "job" (job_ID job) "job.leased" "worker" workerID
                  [("worker_id", JStr workerID); ("attempt_count", JInt (job_AttemptCount job))] in
      retS (Ok (Some job))
  end.

Definition Complete (q : Queue) (jobID : uuid) (workerID : string) : M (res unit) :=
  let! now := time_Now in
  let! r := db_call (complete_job (trunc_us now) jobID workerID) in
  match r with
  | Err e => retS (Err (wrap ("complete job " +:+ uuid_String jobID +:+ ": ") e))
  | Ok affected =>
      if bool_decide (affected = 0) then retS (Ok tt)
      else
        let! _ := record q "job" jobID "job.completed" "worker" workerID
                    [("worker_id", JStr workerID)] in
        retS (Ok tt)
  end.

Definition Fail (q : Queue) (jobID : uuid) (workerID errCode errMsg : string)
    : M (res (option FailResult)) :=
  let! now := time_Now in
  let! r := db_call (fail_job (trunc_us now) jobID workerID errCode errMsg) in
  match r with
  | Err e => retS (Err (wrap ("fail job " +:+ uuid_String jobID +:+ ": ") e))
  | Ok None => retS (Ok None)
  | Ok (Some row) =>
      let n := job_AttemptCount row in
      let! _ := record q "job" jobID "job.failed" "worker" workerID
                  [("worker_id", JStr workerID); ("attempt_count", JInt n);
                   ("error_code", JStr errCode); ("error", JStr errMsg)] in
      let disposition :=
        if bool_decide (job_Status row = JobStatusDeadLetter) then "job.dead_letter"
        else "job.retry_scheduled" in
      let! _ := record q "job" jobID disposition "worker" workerID
                  [("worker_id", JStr workerID); ("attempt_count", JInt n)] in
      retS (Ok (Some (mkFailResult (job_Status row) n (job_MaxAttempts row)
                        (job_ScheduledAt row))))
  end.

Definition RenewLease (q : Queue) (jobID : uuid) (workerID : string) : M (res bool) :=
  let! now := time_Now in
  let! r := db_call (renew_lease (trunc_us (now + leaseDuration)) (trunc_us now)
                       jobID workerID) in
  match r with
  | Err e => retS (Err (wrap ("renew lease for job " +:+ uuid_String jobID +:+ ": ") e))
  | Ok affected =>
      if bool_decide (affected = 0) then retS (Ok false)
      else
        let! _ := record q "job" jobID "job.lease_renewed" "worker" workerID
                    [("worker_id", JStr workerID)] in
        retS (Ok true)
  end.

Definition ReclaimExpiredLeases (q : Queue) : M (res Z) :=
  let! now := time_Now in
  let! r := db_call (update_where (lease_expired (trunc_us now)) (reclaim_row (trunc_us now))) in
  match r with
  | Err e => retS (Err (wrap "reclaim expired leases: " e))
  | Ok old =>
      let! _ := forS (fun row =>
                  record q "job" (job_ID row) "job.reclaimed" "system" "maintenance"
                    [("prev_owner", JStr (default "" (job_LeasedByWorkerID row)))]) old in
      retS (Ok (Z.of_nat (length old)))
  end.

Definition RequeueScheduledRetries (q : Queue) : M (res Z) :=
  let! now := time_Now in
  let! r := db_call (update_where (retry_due (trunc_us now)) (requeue_row (trunc_us now))) in
  match r with
  | Err e => retS (Err (wrap "requeue scheduled retries: " e))
  | Ok old => retS (Ok (Z.of_nat (length old)))
  end.

(** The columns [GetJob] selects leave the owner and the error fields unset. *)
Definition get_job_view (r : ProcessingJob) : ProcessingJob :=
  r <| job_LeasedByWorkerID := None |>
    <| job_ErrorCode := None |> <| job_ErrorMessage := None |>.

Definition GetJob (q : Queue) (jobID : uuid) : M (res ProcessingJob) :=
  let! r := db_call (fun db =>
              match processing_jobs db !! jobID with
              | Some row => Ok (row, db)
              | None => Err ErrNoRows
              end) in
  match r with
  | Err e => retS (Err (wrap ("get job " +:+ uuid_String jobID +:+ ": ") e))
  | Ok row => retS (Ok (get_job_view row))
  end.

Definition Retry (q : Queue) (jobID : uuid) : M (res unit) :=
  let! now := time_Now in
  let! r := db_call (retry_job (trunc_us now) jobID) in
  match r with
  | Err e => retS (Err (wrap ("retry job " +:+ uuid_String jobID +:+ ": ") e))
  | Ok affected =>
      if bool_decide (affected = 0)
      then retS (Err (wrap ("retry job " +:+ uuid_String jobID +:+ ": ") ErrNoRows))
      else
        let! _ := record q "job" jobID "job.retried" "system" "queue"
                    [("job_id", JStr (uuid_String jobID))] in
        retS (Ok tt)
  end.

(** The statuses [QueueStats] counts. *)
Definition stat_statuses : list JobStatus :=
  [JobStatusQueued; JobStatusLeased; JobStatusRetryScheduled; JobStatusFailed;
   JobStatusDeadLetter].

Definition QueueStats (q : Queue) : M (res (gmap string Z)) :=
  let! r := db_call (fun db =>
              (* GROUP BY status: a group for each status with at least one row *)
              Ok (List.filter (fun kv => bool_decide (0 < kv.2))
                    ((fun s => (job_status_string s, count_status s (processing_jobs db)))
                       <$> stat_statuses), db)) in
  match r with
  | Err e => retS (Err (wrap "queue stats: " e))
  | Ok groups =>
      let stats : gmap string Z :=
        list_to_map ((fun s => (job_status_string s, 0)) <$> stat_statuses) in
      retS (Ok (foldl (fun m kv => <[kv.1 := kv.2]> m) stats groups))
  end.

Definition FailUnknownJobTypes (q : Queue) (knownTypes : list string) : M (res Z) :=
  let! now := time_Now in
  let! r := db_call (update_where (unknown_queued knownTypes) (unknown_row (trunc_us now))) in
  match r with
  | Err e => retS (Err (wrap "fail unknown job types: " e))
  | Ok old =>
      let! _ := forS (fun row =>
                  record q "job" (job_ID row) "job.dead_letter" "system" "control_loop"
                    [("reason", JStr "unknown_job_type"); ("job_type", JStr (job_JobType row))])
                old in
      retS (Ok (Z.of_nat (length old)))
  end.

End methods.
End Queue.
