(* ===== verification/Fixtures.v ===== *)
(** * Concrete environments

    An instance of the UUID package and small worlds, used to evaluate the
    definitions and to show that the hypotheses of theorems can hold. *)

From stdpp Require Import base gmap strings list fin_maps.
From Stdlib Require Import ZArith Lia Ascii.
From S2P Require Import Prelude GoFloat Models JobQueue.

Open Scope Z_scope.

(** UUIDs as integers in binary text, least significant bit first. *)
Fixpoint pos_text (p : positive) : string :=
  match p with
  | xH => "1"
  | xO p' => String "0"%char (pos_text p')
  | xI p' => String "1"%char (pos_text p')
  end.

Fixpoint text_pos (s : string) : option positive :=
  match s with
  | EmptyString => None
  | String c s' =>
      if bool_decide (c = "0"%char) then xO <$> text_pos s'
      else if bool_decide (c = "1"%char) then
        match s' with
        | EmptyString => Some xH
        | String _ _ => xI <$> text_pos s'
        end
      else None
  end.

Lemma pos_text_nonempty p : ∃ c s, pos_text p = String c s.
Proof. destruct p; cbn; eauto. Qed.

Lemma text_pos_text p : text_pos (pos_text p) = Some p.
Proof.
  induction p as [p IH|p IH|]; cbn; [|by rewrite IH|done].
  destruct (pos_text_nonempty p) as (c & s & E). rewrite E in *. by rewrite IH.
Qed.

Definition demo_uuid_String (u : uuid) : string :=
  match u with
  | Z0 => "z"
  | Zpos p => String "p"%char (pos_text p)
  | Zneg p => String "n"%char (pos_text p)
  end.

Definition demo_uuid_Parse (s : string) : res uuid :=
  let bad := Err (Errorf "invalid UUID") in
  match s with
  | EmptyString => bad
  | String c s' =>
      if bool_decide (c = "z"%char) then Ok 0
      else match text_pos s' with
           | None => bad
           | Some p => if bool_decide (c = "p"%char) then Ok (Zpos p) else Ok (Zneg p)
           end
  end.

Definition demo_uuid : UuidPkg := {|
  uuid_New n := Z.of_nat n + 100;
  uuid_String := demo_uuid_String;
  uuid_Parse := demo_uuid_Parse
|}.

#[export] Instance demo_uuid_laws : UuidLaws demo_uuid.
Proof.
  assert (HP : ∀ a, demo_uuid_Parse (demo_uuid_String a) = Ok a).
  { intros [|p|p]; cbn; [done|by rewrite text_pos_text..]. }
  split; cbn.
  - lia.
  - intros a b H. apply (f_equal demo_uuid_Parse) in H. rewrite !HP in H. congruence.
  - apply HP.
Qed.

Definition demo_task : SourceTask :=
  mkSourceTask 7 1 "ext-7" "Title" None "{}" "h0" "open" 0 0.

Definition demo_db : DB := empty_db <| source_tasks := {[ 7 := demo_task ]} |>.

(** 2023-11-14T22:13:20Z *)
Definition demo_now : time := 1700000000 * Second.

Definition demo_start : World := mkWorld empty_db demo_now 0 ∅ [] [].
Definition demo_world : World := demo_start <| w_db := demo_db |>.

Definition demo_params : Queue.EnqueueParams :=
  Queue.mkEnqueueParams 7 "llm_rewrite" 5 (Some "k") 3.

Definition demo_queue : Queue.Queue := Queue.mkQueue true.

(** A world with one job, and one in which worker ["A"] holds it. *)
Definition demo_queued : World := snd (Queue.Enqueue (U := demo_uuid) demo_queue demo_params demo_world).
Definition demo_leased : World :=
  snd (Queue.Lease demo_queue "A" KnownJobTypes demo_queued).

Definition demo_row : ProcessingJob :=
  mkJob 100 7 "llm_rewrite" JobStatusLeased 5 (Some "k") 0 3 "{}" None None
    (Some demo_now) (Some (demo_now + Queue.leaseDuration)) (Some "A") None demo_now demo_now.

Example demo_leased_row : processing_jobs (w_db demo_leased) = {[ 100 := demo_row ]}.
Proof. vm_compute. reflexivity. Qed.
