(* ===== verification/JobQueueSpec.v ===== *)
(** * Correctness of the job queue

    [Op] is the alphabet of queue calls; [apply_op] is what one call does to
    the database when its statement takes effect.  Every method refines
    [apply_op] under arbitrary faults; the invariant [db_wf] and the per-job
    life cycle are proved of [apply_op] and carried to every reachable world. *)

From stdpp Require Import base gmap strings list fin_maps relations.
From Stdlib Require Import ZArith Lia.
From S2P Require Import Prelude GoFloat Models JobQueue.
Import JobsTable Queue.

Open Scope Z_scope.

(** ** Calls of the queue *)

Inductive Op : Type :=
| OpEnqueue (params : EnqueueParams)
| OpLease (workerID : string) (jobTypes : list string)
| OpComplete (jobID : uuid) (workerID : string)
| OpFail (jobID : uuid) (workerID errCode errMsg : string)
| OpRenewLease (jobID : uuid) (workerID : string)
| OpReclaim
| OpRequeue
| OpRetry (jobID : uuid)
| OpFailUnknown
| OpGetJob (jobID : uuid)
| OpQueueStats.

(** ** The quadratic back-off

    For every attempt number whose delay a [float8] holds exactly, the
    floating-point expression of [Fail] is the integer [30 n^2] seconds. *)

Definition backoff_limit : Z := 17320.

Lemma backoff_exact n : 1 ≤ n ≤ backoff_limit → backoff_us n = Some (n * n * 30 * 1000000).
Proof.
  unfold backoff_limit. intros Hn. unfold backoff_us, make_interval_us.
  assert (n * n ≤ 17320 * 17320) by nia.
  rewrite !fmul_of_Z by lia. rewrite f_rint_of_Z by lia.
  rewrite bool_decide_true; [done|]. unfold int64_min, int64_max. lia.
Qed.

Section spec.
Context {U : UuidPkg}.

(** The world after a call, its result dropped. *)
Definition run_op (q : Queue) (op : Op) (w : World) : World :=
  match op with
  | OpEnqueue p => snd (Enqueue q p w)
  | OpLease wid ts => snd (Lease q wid ts w)
  | OpComplete j wid => snd (Complete q j wid w)
  | OpFail j wid c m => snd (Fail q j wid c m w)
  | OpRenewLease j wid => snd (RenewLease q j wid w)
  | OpReclaim => snd (ReclaimExpiredLeases q w)
  | OpRequeue => snd (RequeueScheduledRetries q w)
  | OpRetry j => snd (Retry q j w)
  | OpFailUnknown => snd (FailUnknownJobTypes q KnownJobTypes w)
  | OpGetJob j => snd (GetJob q j w)
  | OpQueueStats => snd (QueueStats q w)
  end.

(** The database after a statement; an error leaves it as it was. *)
Definition stmt_db {A} (stmt : DB → res (A * DB)) (db : DB) : DB :=
  match stmt db with Ok (_, db') => db' | Err _ => db end.

(** The row [Enqueue] inserts. *)
Definition new_row (id : uuid) (now : time) (p : EnqueueParams) : ProcessingJob :=
  mkJob id (p_SourceTaskID p) (p_JobType p) JobStatusQueued (p_Priority p) (p_DedupeKey p) 0
    (max_attempts_or_default (p_MaxAttempts p)) "{}" None None None None None None
    (trunc_us now) (trunc_us now).

(** The abstract queue: one call as a function on the database. *)
Definition apply_op (now : time) (id : uuid) (locked : gset uuid) (op : Op) (db : DB) : DB :=
  let n := trunc_us now in
  let x := trunc_us (now + leaseDuration) in
  match op with
  | OpEnqueue p =>
      if IsKnownJobType (p_JobType p) then stmt_db (insert_job (new_row id now p)) db else db
  | OpLease wid ts => stmt_db (lease_job n x ts wid locked) db
  | OpComplete j wid => stmt_db (complete_job n j wid) db
  | OpFail j wid c m => stmt_db (fail_job n j wid c m) db
  | OpRenewLease j wid => stmt_db (renew_lease x n j wid) db
  | OpReclaim => stmt_db (update_where (lease_expired n) (reclaim_row n)) db
  | OpRequeue => stmt_db (update_where (retry_due n) (requeue_row n)) db
  | OpRetry j => stmt_db (retry_job n j) db
  | OpFailUnknown => stmt_db (update_where (unknown_queued KnownJobTypes) (unknown_row n)) db
  | OpGetJob _ | OpQueueStats => db
  end.

Definition apply_in (w : World) (op : Op) : DB :=
  apply_op (w_now w) (uuid_New (w_uuids w)) (w_locked w) op (w_db w).

(** ** The methods refine the abstract queue *)

Lemma db_call_stmt_db {A} (stmt : DB → res (A * DB)) w :
  w_db (snd (db_call stmt w)) = w_db w ∨
  w_db (snd (db_call stmt w)) = stmt_db stmt (w_db w).
Proof.
  destruct (db_call_cases stmt w) as [(e & _ & H)|(a & db' & Hs & H & _)]; [by left|right].
  unfold stmt_db. by rewrite Hs.
Qed.

Lemma record_db q et id ev ct ci p w : w_db (snd (record q et id ev ct ci p w)) = w_db w.
Proof. unfold record. destruct (q_audit q); [apply audit_RecordEvent_db|done]. Qed.

Lemma db_frame_record q et id ev ct ci p : db_frame (record q et id ev ct ci p).
Proof. intros w. apply record_db. Qed.
Lemma now_frame_record q et id ev ct ci p : now_frame (record q et id ev ct ci p).
Proof. intros w. unfold record. destruct (q_audit q); [apply audit_RecordEvent_now|done]. Qed.
#[local] Hint Resolve db_frame_record now_frame_record : frame.

(** A method that issues one statement and then only emits events applies the
    statement at most once. *)
Lemma one_call_db {A B} (stmt : DB → res (A * DB)) (k : res A → M B) w :
  (∀ a, db_frame (k a)) →
  w_db (snd (bindS (db_call stmt) k w)) = w_db w ∨
  w_db (snd (bindS (db_call stmt) k w)) = stmt_db stmt (w_db w).
Proof. intros Hk. rewrite bind_tail_db by done. apply db_call_stmt_db. Qed.

Ltac enter_method :=
  repeat (rewrite (bindS_run time_Now) || rewrite (bindS_run locked_rows)
          || rewrite (bindS_run fresh_uuid));
  cbn [time_Now locked_rows fresh_uuid fst snd].

Ltac one_call := enter_method; apply one_call_db; solve_frame.

Lemma run_op_refines q op w :
  w_db (run_op q op w) = w_db w ∨ w_db (run_op q op w) = apply_in w op.
Proof.
  unfold apply_in, apply_op. destruct op; cbn [run_op].
  - unfold Enqueue. destruct (IsKnownJobType _); [|by left]. cbn [negb]. enter_method.
    rewrite bind_tail_db by solve_frame.
    match goal with |- context [db_call ?s ?x] => exact (db_call_stmt_db s x) end.
  - unfold Lease. one_call.
  - unfold Complete. one_call.
  - unfold Fail. one_call.
  - unfold RenewLease. one_call.
  - unfold ReclaimExpiredLeases. one_call.
  - unfold RequeueScheduledRetries. one_call.
  - unfold Retry. one_call.
  - unfold FailUnknownJobTypes. one_call.
  - left. unfold GetJob. rewrite bind_tail_db by solve_frame.
    match goal with |- context [db_call ?s w] => destruct (db_call_stmt_db s w) as [-> | ->] end;
      [done|]. unfold stmt_db. by destruct (_ !! _).
  - left. unfold QueueStats. rewrite bind_tail_db by solve_frame.
    by match goal with |- context [db_call ?s w] => destruct (db_call_stmt_db s w) as [-> | ->] end.
Qed.

(** ** The invariant of the jobs table *)

(** What every row written by the queue satisfies. *)
Record job_wf (r : ProcessingJob) : Prop := {
  wf_type : IsKnownJobType (job_JobType r) = true;
  wf_attempts : 0 ≤ job_AttemptCount r;
  wf_max : 0 < job_MaxAttempts r;
  wf_owner : is_Some (job_LeasedByWorkerID r) ↔ job_Status r = JobStatusLeased;
  wf_lease : job_Status r = JobStatusLeased →
             is_Some (job_LeaseExpiry r) ∧ is_Some (job_LeasedAt r);
  wf_sched : job_Status r = JobStatusRetryScheduled →
             is_Some (job_ScheduledAt r) ∧ 0 < job_AttemptCount r < job_MaxAttempts r;
  wf_dead : job_Status r = JobStatusDeadLetter →
            is_Some (job_ErrorCode r) ∧ job_MaxAttempts r ≤ job_AttemptCount r;
  wf_nofailed : job_Status r ≠ JobStatusFailed
}.

(** Columns no statement of the queue rewrites. *)
Definition same_identity (r r' : ProcessingJob) : Prop :=
  job_ID r' = job_ID r ∧ job_SourceTaskID r' = job_SourceTaskID r ∧
  job_JobType r' = job_JobType r ∧ job_Priority r' = job_Priority r ∧
  job_DedupeKey r' = job_DedupeKey r ∧ job_MaxAttempts r' = job_MaxAttempts r ∧
  job_Payload r' = job_Payload r ∧ job_CreatedAt r' = job_CreatedAt r.

Record db_wf (db : DB) : Prop := {
  wf_id : ∀ i r, processing_jobs db !! i = Some r → job_ID r = i;
  wf_row : ∀ i r, processing_jobs db !! i = Some r → job_wf r;
  wf_fk : ∀ i r, processing_jobs db !! i = Some r →
          is_Some (source_tasks db !! job_SourceTaskID r);
  wf_dedupe : ∀ i j r s k,
    processing_jobs db !! i = Some r → processing_jobs db !! j = Some s →
    live (job_Status r) = true → live (job_Status s) = true →
    job_DedupeKey r = Some k → job_DedupeKey s = Some k → i = j
}.

Lemma elem_of_rows (t : table) r : r ∈ rows t ↔ ∃ i, t !! i = Some r.
Proof.
  unfold rows. rewrite list_elem_of_fmap. split.
  - intros ([i r'] & -> & H). apply elem_of_map_to_list in H. by exists i.
  - intros [i H]. exists (i, r). split; [done|]. by apply elem_of_map_to_list.
Qed.

Lemma dedupe_conflict_false (t : table) self k :
  dedupe_conflict t self (Some k) = false →
  ∀ i r, t !! i = Some r → live (job_Status r) = true → job_DedupeKey r = Some k →
  Some (job_ID r) = self.
Proof.
  cbn. intros H i r Hi Hl Hk.
  destruct (decide (Some (job_ID r) = self)) as [|Hne]; [done|exfalso].
  apply not_true_iff_false in H. apply H. apply existsb_exists.
  exists r. split; [apply list_elem_of_In, elem_of_rows; by exists i|].
  by rewrite Hl, (bool_decide_true _ Hk), (bool_decide_false _ Hne).
Qed.

(** Replacing one row by a later version of itself. *)
Lemma db_wf_replace db i r r' :
  db_wf db → processing_jobs db !! i = Some r → same_identity r r' → job_wf r' →
  (live (job_Status r') = true → live (job_Status r) = true ∨
     dedupe_conflict (processing_jobs db) (Some i) (job_DedupeKey r) = false) →
  db_wf (db <| processing_jobs := <[i := r']> (processing_jobs db) |>).
Proof.
  intros [Hid Hrow Hfk Hdd] Hi (HID & Hst & Hty & Hp & Hkey & Hmx & Hpl & Hc) Hwf Hlive.
  assert (job_ID r' = i) by (rewrite HID; by apply Hid).
  assert (Huniq : ∀ j s k, processing_jobs db !! j = Some s → live (job_Status r') = true →
    live (job_Status s) = true → job_DedupeKey r' = Some k → job_DedupeKey s = Some k → j = i).
  { intros j s k Hj Hl' Hls Hk Hks. rewrite Hkey in Hk.
    destruct (Hlive Hl') as [Hl|Hc']; [by eapply Hdd|].
    rewrite Hk in Hc'. pose proof (dedupe_conflict_false _ _ _ Hc' j s Hj Hls Hks) as [= <-].
    symmetry. by apply Hid. }
  split; cbn; intros j s.
  - rewrite lookup_insert. case_decide; [|by apply Hid]. by intros [= <-]; subst.
  - rewrite lookup_insert. case_decide; [by intros [= <-]|by apply Hrow].
  - rewrite lookup_insert. case_decide; [intros [= <-]; rewrite Hst; by eapply Hfk|by apply Hfk].
  - intros r1 r2 k. rewrite !lookup_insert. repeat case_decide; intros; simplify_eq; eauto.
    symmetry; eauto.
Qed.

(** Rewriting every row that matches a condition. *)
Lemma db_wf_update_where db p f :
  db_wf db →
  (∀ r, p r = true → job_wf r →
     same_identity r (f r) ∧ job_wf (f r) ∧ (live (job_Status (f r)) = true →
                                             live (job_Status r) = true)) →
  db_wf (stmt_db (update_where p f) db).
Proof.
  intros [Hid Hrow Hfk Hdd] Hf. unfold stmt_db, update_where. cbn.
  assert (Hback : ∀ i s,
    ((fun r => if p r then f r else r) <$> processing_jobs db) !! i = Some s →
    ∃ r, processing_jobs db !! i = Some r ∧ same_identity r s ∧ job_wf s ∧
         (live (job_Status s) = true → live (job_Status r) = true)).
  { intros i s. rewrite lookup_fmap_Some. intros (r & <- & Hr). exists r.
    pose proof (Hrow i r Hr). destruct (p r) eqn:E; [destruct (Hf r E) as (?&?&?); auto|].
    unfold same_identity. auto 10. }
  split; cbn.
  - intros i s Hs. destruct (Hback i s Hs) as (r & Hr & (-> & _) & _). by apply Hid.
  - intros i s Hs. by destruct (Hback i s Hs) as (r & Hr & _ & H & _).
  - intros i s Hs. destruct (Hback i s Hs) as (r & Hr & (_ & -> & _) & _). by eapply Hfk.
  - intros i j s1 s2 k H1 H2 L1 L2 K1 K2.
    destruct (Hback i s1 H1) as (r1 & R1 & (_&_&_&_&E1&_) & _ & Q1).
    destruct (Hback j s2 H2) as (r2 & R2 & (_&_&_&_&E2&_) & _ & Q2).
    rewrite E1 in K1. rewrite E2 in K2. eapply Hdd; eauto.
Qed.

(** ** The life cycle of a job

    [life manual max] is the transition system of one job: its status and the
    number of failed attempts counted against [max]; [manual] tells whether an
    operator's [Retry] is in play. *)

Inductive life (manual : bool) (max : Z) : JobStatus * Z → JobStatus * Z → Prop :=
| life_lease n : life manual max (JobStatusQueued, n) (JobStatusLeased, n)
| life_complete n : life manual max (JobStatusLeased, n) (JobStatusSucceeded, n)
| life_retry_scheduled n :
    n + 1 < max → life manual max (JobStatusLeased, n) (JobStatusRetryScheduled, n + 1)
| life_dead_letter n :
    max ≤ n + 1 → life manual max (JobStatusLeased, n) (JobStatusDeadLetter, n + 1)
| life_reclaim n : life manual max (JobStatusLeased, n) (JobStatusQueued, n)
| life_requeue n : life manual max (JobStatusRetryScheduled, n) (JobStatusQueued, n)
| life_manual_retry n :
    manual = true → life manual max (JobStatusDeadLetter, n) (JobStatusQueued, n).

Definition job_pos (r : ProcessingJob) : JobStatus * Z := (job_Status r, job_AttemptCount r).

(** One call leaves a job where it is or takes it along one edge. *)
Definition row_evolves (manual : bool) (r r' : ProcessingJob) : Prop :=
  same_identity r r' ∧
  (job_pos r' = job_pos r ∨ life manual (job_MaxAttempts r) (job_pos r) (job_pos r')) ∧
  (job_Status r = JobStatusSucceeded → r' = r).

Definition row_ok (r r' : ProcessingJob) : Prop :=
  job_wf r' ∧ row_evolves false r r' ∧ (live (job_Status r') = true → live (job_Status r) = true).

Record db_evolves (manual : bool) (db db' : DB) : Prop := {
  ev_rows : ∀ i r, processing_jobs db !! i = Some r →
            ∃ r', processing_jobs db' !! i = Some r' ∧ row_evolves manual r r';
  ev_new : ∀ i r', processing_jobs db' !! i = Some r' → processing_jobs db !! i = None →
           job_pos r' = (JobStatusQueued, 0)
}.

Lemma row_evolves_refl b r : row_evolves b r r.
Proof. split; [unfold same_identity; auto 10|]. split; [by left|done]. Qed.

Lemma life_weaken b max x y : life false max x y → life b max x y.
Proof. destruct 1; by constructor. Qed.

Lemma row_evolves_weaken b r r' : row_evolves false r r' → row_evolves b r r'.
Proof. intros (? & [He|He] & ?); split; eauto using life_weaken. Qed.

Lemma db_evolves_refl b db : db_evolves b db db.
Proof. split; [eauto using row_evolves_refl|congruence]. Qed.

Lemma db_evolves_replace b db i r r' :
  processing_jobs db !! i = Some r → row_evolves b r r' →
  db_evolves b db (db <| processing_jobs := <[i := r']> (processing_jobs db) |>).
Proof.
  intros Hi He. split; cbn; intros j s Hj.
  - rewrite lookup_insert. case_decide; simplify_eq; eauto using row_evolves_refl.
  - intros Hn. rewrite lookup_insert in Hj. case_decide; simplify_eq.
Qed.

Lemma db_evolves_update_where b db p f :
  (∀ i r, processing_jobs db !! i = Some r → p r = true → row_evolves b r (f r)) →
  db_evolves b db (stmt_db (update_where p f) db).
Proof.
  intros Hf. split; cbn; intros i r Hr.
  - rewrite lookup_fmap, Hr. cbn. eexists. split; [done|].
    destruct (p r) eqn:E; eauto using row_evolves_refl.
  - intros Hn. rewrite lookup_fmap, Hn in Hr. done.
Qed.

(** *** Row transformations *)

Lemma some_iff {A} (x : A) (P : Prop) : P → (is_Some (Some x) ↔ P).
Proof. intros. split; [done|eauto]. Qed.
Lemma none_iff {A} (P : Prop) : ¬ P → (is_Some (None : option A) ↔ P).
Proof. intros. split; [by intros [? ?]|done]. Qed.

(** [row_ok] of a transformation of a row whose columns are variables. *)
Ltac row_goal :=
  repeat split; cbn in *; try assumption; try lia; try discriminate; try done;
  try (by apply some_iff); try (by apply none_iff); eauto.

Ltac open_row r :=
  let H := fresh in
  intros H; destruct r; destruct H; cbn in *.

Lemma lease_row_ok n x wid ts locked r :
  job_wf r → leasable n ts locked r = true →
  row_ok r (r <| job_Status := JobStatusLeased |> <| job_LeasedAt := Some n |>
              <| job_LeaseExpiry := Some x |> <| job_LeasedByWorkerID := Some wid |>
              <| job_UpdatedAt := n |>).
Proof.
  unfold leasable. rewrite !andb_true_iff, !bool_decide_eq_true.
  open_row r. intros [[[-> _] _] _]. row_goal. right. constructor.
Qed.

(** Worker [wid] holds the lease of this row. *)
Definition held_by (wid : string) (r : ProcessingJob) : Prop :=
  job_Status r = JobStatusLeased ∧ job_LeasedByWorkerID r = Some wid.

Lemma owned_by_spec wid r : owned_by wid r = true ↔ held_by wid r.
Proof. unfold owned_by. by rewrite andb_true_iff, !bool_decide_eq_true. Qed.

Lemma owned_by_false wid r : owned_by wid r = false ↔ ¬ held_by wid r.
Proof. rewrite <- owned_by_spec. by rewrite not_true_iff_false. Qed.

(** A lease may take this row at [now]. *)
Definition available (now : time) (types : list string) (locked : gset uuid) (r : ProcessingJob)
    : Prop :=
  job_Status r = JobStatusQueued ∧ (∀ s, job_ScheduledAt r = Some s → s ≤ now) ∧
  job_JobType r ∈ types ∧ job_ID r ∉ locked.

Lemma leasable_spec now types locked r :
  leasable now types locked r = true ↔ available now types locked r.
Proof.
  unfold leasable, available. rewrite !andb_true_iff, !bool_decide_eq_true, negb_true_iff.
  rewrite bool_decide_eq_false. destruct (job_ScheduledAt r) as [s|].
  - rewrite bool_decide_eq_true. split; intros; split_and?; split_hyps; auto. by intros ? [= <-].
  - split; intros; split_and?; split_hyps; auto. done.
Qed.

Lemma complete_row_ok n wid r :
  job_wf r → owned_by wid r = true → row_ok r (complete_row n r).
Proof. rewrite owned_by_spec. unfold held_by. open_row r. intros [-> ->]. row_goal. right. constructor. Qed.

Lemma renew_row_ok x n wid r :
  job_wf r → owned_by wid r = true → row_ok r (renew_row x n r).
Proof.
  rewrite owned_by_spec. unfold held_by. open_row r. intros [-> ->]. row_goal. by apply wf_lease0.
Qed.

Lemma fail_row_ok n wid c m sched r :
  job_wf r → owned_by wid r = true →
  (fail_dead r = false → is_Some sched) →
  row_ok r (fail_row n c m sched r).
Proof.
  rewrite owned_by_spec. unfold held_by, fail_row, fail_dead. open_row r. intros [-> ->] Hs.
  case_bool_decide as Hd; row_goal; right; unfold job_pos; cbn; [by constructor|].
  constructor; lia.
Qed.

Lemma reclaim_row_ok n r :
  job_wf r → lease_expired n r = true → row_ok r (reclaim_row n r).
Proof.
  unfold lease_expired. rewrite andb_true_iff, bool_decide_eq_true.
  open_row r. intros [-> _]. row_goal. right. constructor.
Qed.

Lemma requeue_row_ok n r :
  job_wf r → retry_due n r = true → row_ok r (requeue_row n r).
Proof.
  unfold retry_due. rewrite andb_true_iff, bool_decide_eq_true.
  open_row r. intros [-> _]. row_goal; [|right; constructor].
  intros H. by apply wf_owner0 in H.
Qed.

Lemma retry_row_ok n r :
  job_wf r → job_Status r = JobStatusDeadLetter →
  job_wf (retry_row n r) ∧ row_evolves true r (retry_row n r).
Proof.
  open_row r. intros ->. row_goal; [|right; by constructor].
  intros H. by apply wf_owner0 in H.
Qed.

(** Rows of known type are never dead-lettered for their type. *)
Lemma unknown_queued_known r :
  job_wf r → unknown_queued KnownJobTypes r = false.
Proof.
  intros [Hty _ _ _ _ _ _ _]. unfold unknown_queued, IsKnownJobType in *.
  rewrite Hty. by rewrite andb_false_r.
Qed.

(** *** Every call preserves the invariant and moves jobs along the life cycle *)

Definition op_sound (manual : bool) (db db' : DB) : Prop :=
  db_wf db' ∧ db_evolves manual db db'.

Definition is_retry (op : Op) : bool := match op with OpRetry _ => true | _ => false end.

Lemma op_sound_refl b db : db_wf db → op_sound b db db.
Proof. split; [done|apply db_evolves_refl]. Qed.

Lemma op_sound_replace b db i r r' :
  db_wf db → processing_jobs db !! i = Some r → row_ok r r' →
  op_sound b db (db <| processing_jobs := <[i := r']> (processing_jobs db) |>).
Proof.
  intros Hwf Hi (Hr' & He & Hl). split; [|by eapply db_evolves_replace, row_evolves_weaken].
  destruct He. eapply db_wf_replace; eauto.
Qed.

Lemma op_sound_update_where b db p f :
  db_wf db → (∀ r, job_wf r → p r = true → row_ok r (f r)) →
  op_sound b db (stmt_db (update_where p f) db).
Proof.
  intros Hwf Hf. split.
  - apply db_wf_update_where; [done|]. intros r Hp Hr.
    destruct (Hf r Hr Hp) as (? & [? ?] & ?). auto.
  - apply db_evolves_update_where. intros i r Hi Hp.
    destruct (Hf r (wf_row _ Hwf i r Hi) Hp) as (_ & ? & _). by apply row_evolves_weaken.
Qed.

Lemma new_row_wf id now p : IsKnownJobType (p_JobType p) = true → job_wf (new_row id now p).
Proof.
  intros Hk. split; cbn; try done; try (by apply none_iff).
  unfold max_attempts_or_default. case_bool_decide; lia.
Qed.

Lemma enqueue_sound b id now p db :
  db_wf db → IsKnownJobType (p_JobType p) = true →
  op_sound b db (stmt_db (insert_job (new_row id now p)) db).
Proof.
  intros Hwf Hk. unfold stmt_db, insert_job. cbn.
  destruct (negb _); [by apply op_sound_refl|].
  destruct (dedupe_conflict _ None _) eqn:Ec; [by apply op_sound_refl|].
  destruct (processing_jobs db !! id) eqn:Ei; [by apply op_sound_refl|].
  destruct (source_tasks db !! _) as [st|] eqn:Es; [|by apply op_sound_refl].
  assert (Huniq : ∀ j s k, processing_jobs db !! j = Some s → live (job_Status s) = true →
    p_DedupeKey p = Some k → job_DedupeKey s = Some k → False).
  { intros j s k Hj Hl Hp Hs. rewrite Hp in Ec. by eapply dedupe_conflict_false in Ec. }
  split; split; cbn.
  - intros j s. rewrite lookup_insert. case_decide; [by intros [= <-]|by apply Hwf].
  - intros j s. rewrite lookup_insert. case_decide; [|by apply Hwf].
    intros [= <-]. by apply new_row_wf.
  - intros j s. rewrite lookup_insert. case_decide; [intros [= <-]; by eexists|by apply Hwf].
  - intros j1 j2 s1 s2 k. rewrite !lookup_insert.
    repeat case_decide; intros; simplify_eq/=; eauto;
      [exfalso; eapply Huniq; eauto ..|by eapply (wf_dedupe _ Hwf)].
  - intros j s Hj. rewrite lookup_insert_ne by congruence. eauto using row_evolves_refl.
  - intros j s. rewrite lookup_insert. case_decide; [by intros [= <-]|congruence].
Qed.

Lemma apply_op_sound now id locked op db :
  db_wf db → op_sound (is_retry op) db (apply_op now id locked op db).
Proof.
  intros Hwf. unfold apply_op.
  assert (Hrefl := λ b, op_sound_refl b db Hwf).
  destruct op as [p|wid ts|j wid|j wid c m|j wid| | |j| | | ]; try done.
  - destruct (IsKnownJobType _) eqn:E; [by apply enqueue_sound|done].
  - unfold stmt_db, lease_job.
    destruct (select_best _ _) as [r|] eqn:E; [|done].
    assert (Hr : r ∈ List.filter (leasable (trunc_us now) ts locked) (rows (processing_jobs db))).
    { unfold select_best in E. destruct (List.filter _ _); [done|]. simplify_eq.
      apply best_from_elem. }
    apply list_elem_of_In, filter_In in Hr as [Hr Hl].
    apply list_elem_of_In, elem_of_rows in Hr as [i Hi].
    rewrite (wf_id _ Hwf i r Hi). eapply op_sound_replace; [done..|].
    eapply lease_row_ok; [by eapply wf_row|done].
  - unfold stmt_db, complete_job. destruct (_ !! j) as [r|] eqn:Hj; [|done].
    destruct (owned_by wid r) eqn:Ho; [|done].
    eapply op_sound_replace; [done..|]. eapply complete_row_ok; [by eapply wf_row|done].
  - unfold stmt_db, fail_job. destruct (_ !! j) as [r|] eqn:Hj; [|done].
    destruct (owned_by wid r) eqn:Ho; [|done]. destruct (negb _); [done|].
    destruct (fail_dead r) eqn:Hd; [|destruct (retry_time _ _) as [s|] eqn:Hs; [|done]];
      (eapply op_sound_replace; [done..|]; eapply fail_row_ok;
        [by eapply wf_row|done|by rewrite ?Hd; eauto]).
  - unfold stmt_db, renew_lease. destruct (_ !! j) as [r|] eqn:Hj; [|done].
    destruct (owned_by wid r) eqn:Ho; [|done].
    eapply op_sound_replace; [done..|]. eapply renew_row_ok; [by eapply wf_row|done].
  - apply op_sound_update_where; [done|]. eauto using reclaim_row_ok.
  - apply op_sound_update_where; [done|]. eauto using requeue_row_ok.
  - unfold stmt_db, retry_job. destruct (_ !! j) as [r|] eqn:Hj; [|done].
    assert (Hr := wf_row _ Hwf j r Hj).
    destruct (job_Status r) eqn:Hs; try done; [by destruct (wf_nofailed _ Hr)|].
    destruct (dedupe_conflict _ _ _) eqn:Ec; [done|].
    destruct (retry_row_ok (trunc_us now) r Hr Hs) as [? He].
    split; [|by eapply db_evolves_replace]. destruct He. eapply db_wf_replace; eauto.
  - apply op_sound_update_where; [done|]. intros r Hr Hu.
    by rewrite (unknown_queued_known r Hr) in Hu.
Qed.

(** ** Reachable worlds

    Steps of the system around the queue: a call (of any caller, with any
    configuration), and anything else that leaves the jobs table alone and does
    not delete source tasks: the clock moving forward, other transactions taking
    or releasing row locks, the environment deciding the outcome of the next
    external calls, other services writing their own tables and events. *)

Definition outside (w w' : World) : Prop :=
  processing_jobs (w_db w') = processing_jobs (w_db w) ∧
  (∀ i, is_Some (source_tasks (w_db w) !! i) → is_Some (source_tasks (w_db w') !! i)) ∧
  w_now w ≤ w_now w'.

Inductive step (allowed : Op → Prop) : World → World → Prop :=
| step_call q op w : allowed op → step allowed w (run_op q op w)
| step_outside w w' : outside w w' → step allowed w w'.

Definition any_op (op : Op) : Prop := True.
Definition no_manual_retry (op : Op) : Prop := ∀ j, op ≠ OpRetry j.

Definition initial (w : World) : Prop := w_db w = empty_db.

Definition reachable (w : World) : Prop :=
  ∃ w0, initial w0 ∧ rtc (step any_op) w0 w.

Lemma empty_db_wf : db_wf empty_db.
Proof. split; cbn; intros *; by rewrite lookup_empty. Qed.

Lemma run_op_sound q op w : db_wf (w_db w) → op_sound (is_retry op) (w_db w) (w_db (run_op q op w)).
Proof.
  intros Hwf. destruct (run_op_refines q op w) as [-> | ->]; [by apply op_sound_refl|].
  by apply apply_op_sound.
Qed.

Lemma db_wf_outside w w' : outside w w' → db_wf (w_db w) → db_wf (w_db w').
Proof.
  intros (Hj & Ht & _) [Hid Hrow Hfk Hdd]. split; rewrite Hj; eauto.
Qed.

Lemma op_sound_weaken b db db' : op_sound b db db' → op_sound true db db'.
Proof.
  intros [Hwf [Hr Hn]]. split; [done|]. split; [|done].
  intros i r Hi. destruct (Hr i r Hi) as (r' & ? & He). exists r'. split; [done|].
  destruct b; [done|by apply row_evolves_weaken].
Qed.

Lemma step_sound manual allowed w w' :
  (manual = false → ∀ op, allowed op → is_retry op = false) →
  step allowed w w' → db_wf (w_db w) → op_sound manual (w_db w) (w_db w').
Proof.
  intros Hm. destruct 1 as [q op w Ha|w w' Ho]; intros Hwf.
  - pose proof (run_op_sound q op w Hwf) as Ho. destruct manual.
    + by eapply op_sound_weaken.
    + by rewrite (Hm eq_refl op Ha) in Ho.
  - split; [by eapply db_wf_outside|]. destruct Ho as (Hj & _).
    split; rewrite Hj; eauto using row_evolves_refl. congruence.
Qed.

Lemma steps_wf allowed w w' : rtc (step allowed) w w' → db_wf (w_db w) → db_wf (w_db w').
Proof. induction 1 as [|w1 w2 w3 Hs _ IH]; [done|]. intros Hwf. apply IH.
  by apply (step_sound true _ _ _ (λ H, ltac:(done)) Hs). Qed.

Lemma reachable_wf w : reachable w → db_wf (w_db w).
Proof. intros (w0 & Hi & Hs). eapply steps_wf; [done|]. rewrite Hi. apply empty_db_wf. Qed.

(** A succeeded row is never written again. *)
Lemma steps_succeeded allowed w w' i r :
  rtc (step allowed) w w' → db_wf (w_db w) →
  processing_jobs (w_db w) !! i = Some r → job_Status r = JobStatusSucceeded →
  processing_jobs (w_db w') !! i = Some r.
Proof.
  intros Hs. revert r. induction Hs as [|w1 w2 w3 Hs _ IH]; [done|].
  intros r Hwf Hi Hst. destruct (step_sound true _ _ _ (λ H, ltac:(done)) Hs Hwf) as [Hwf2 [Hev _]].
  destruct (Hev i r Hi) as (r' & Hi' & _ & _ & Hfin). rewrite (Hfin Hst) in Hi'. by apply IH.
Qed.

(** Without manual retries the attempt counter stays below the limit until the
    job is dead-lettered, exactly at the limit. *)
Definition attempts_bounded (db : DB) : Prop :=
  ∀ i r, processing_jobs db !! i = Some r →
    if bool_decide (job_Status r = JobStatusDeadLetter)
    then job_AttemptCount r = job_MaxAttempts r
    else job_AttemptCount r < job_MaxAttempts r.

Lemma attempts_bounded_evolves db db' :
  db_wf db → op_sound false db db' → attempts_bounded db → attempts_bounded db'.
Proof.
  intros Hwf [Hwf' [Hev Hnew]] Hb i r' Hi'.
  destruct (processing_jobs db !! i) as [r|] eqn:Hi.
  - specialize (Hb i r Hi). destruct (Hev i r Hi) as (r2 & Hr2 & Hid & Hpos & _).
    simplify_eq. destruct Hid as (_&_&_&_&_&Hmx&_). unfold job_pos in Hpos.
    destruct Hpos as [[= -> ->]|Hl]; [by rewrite Hmx|].
    inversion Hl as [n H1 H2|n H1 H2|n H1 H2 H3|n H1 H2 H3|n H1 H2|n H1 H2|]; subst; try done;
      rewrite <- ?H1, <- ?H2 in *; repeat case_bool_decide; try done; simplify_eq/=; try lia;
      try congruence.
  - specialize (Hnew i r' Hi' Hi). injection Hnew as -> ->.
    apply (wf_row _ Hwf' i r' Hi').
Qed.

Lemma steps_attempts w w' :
  rtc (step no_manual_retry) w w' → db_wf (w_db w) →
  attempts_bounded (w_db w) → attempts_bounded (w_db w').
Proof.
  induction 1 as [|w1 w2 w3 Hs _ IH]; [done|]. intros Hwf Hb.
  assert (Ho : op_sound false (w_db w1) (w_db w2)).
  { apply (step_sound false no_manual_retry); [|done..].
    intros _ [] H; try done. by destruct (H jobID). }
  apply IH; [by apply Ho|]. by eapply attempts_bounded_evolves.
Qed.

(** ** The order of [Lease] *)

Lemma lease_before_irrefl r : lease_before r r = false.
Proof. unfold lease_before. repeat case_bool_decide; cbn; lia || done. Qed.

Lemma lease_before_asym r s : lease_before r s = true → lease_before s r = false.
Proof. unfold lease_before. repeat case_bool_decide; cbn; lia || done. Qed.

Lemma lease_before_negtrans r s t :
  lease_before r s = false → lease_before s t = false → lease_before r t = false.
Proof. unfold lease_before. repeat case_bool_decide; cbn; lia || done. Qed.

Lemma lease_before_false s r :
  lease_before s r = false →
  job_Priority s < job_Priority r ∨
  (job_Priority s = job_Priority r ∧ job_CreatedAt r ≤ job_CreatedAt s).
Proof. unfold lease_before. repeat case_bool_decide; cbn; done || lia. Qed.

Lemma lease_select (t : table) now ts locked :
  match select_best lease_before (List.filter (leasable now ts locked) (rows t)) with
  | None => ∀ i r, t !! i = Some r → leasable now ts locked r = false
  | Some r =>
      (∃ i, t !! i = Some r) ∧ leasable now ts locked r = true ∧
      ∀ i s, t !! i = Some s → leasable now ts locked s = true → lease_before s r = false
  end.
Proof.
  assert (Hin : ∀ i s, t !! i = Some s → leasable now ts locked s = true →
    s ∈ List.filter (leasable now ts locked) (rows t)).
  { intros i s Hi Hl. apply list_elem_of_In, filter_In. split; [|done].
    apply list_elem_of_In, elem_of_rows. by exists i. }
  destruct (select_best _ _) as [r|] eqn:E.
  - apply (select_best_Some _ lease_before_irrefl lease_before_asym lease_before_negtrans)
      in E as [Hr Hmax].
    apply list_elem_of_In, filter_In in Hr as [Hr Hl].
    apply list_elem_of_In, elem_of_rows in Hr. eauto.
  - apply select_best_None in E. intros i r Hi. apply not_true_iff_false. intros Hl.
    specialize (Hin i r Hi Hl). rewrite E in Hin. by apply elem_of_nil in Hin.
Qed.

(** ** A running lease is respected *)

(** The job [i] is leased by [wid] until at least [x]. *)
Definition holds_lease (db : DB) (i : uuid) (wid : string) (x : time) : Prop :=
  ∃ r y, processing_jobs db !! i = Some r ∧ job_Status r = JobStatusLeased ∧
         job_LeasedByWorkerID r = Some wid ∧ job_LeaseExpiry r = Some y ∧ x ≤ y.

(** Calls other than the holder's own [Complete] and [Fail] of the job. *)
Definition not_finishing (i : uuid) (wid : string) (op : Op) : Prop :=
  op ≠ OpComplete i wid ∧ ∀ c m, op ≠ OpFail i wid c m.

Lemma holds_lease_replace db i wid x j r' :
  holds_lease db i wid x →
  (j = i → job_Status r' = JobStatusLeased ∧ job_LeasedByWorkerID r' = Some wid ∧
           ∃ y, job_LeaseExpiry r' = Some y ∧ x ≤ y) →
  holds_lease (db <| processing_jobs := <[j := r']> (processing_jobs db) |>) i wid x.
Proof.
  intros (r & y & Hi & H) Hj. destruct (decide (j = i)) as [->|Hne].
  - destruct Hj as (? & ? & y' & ? & ?); [done|]. exists r', y'. cbn.
    rewrite lookup_insert_eq. auto.
  - exists r, y. cbn. rewrite lookup_insert_ne by done. auto.
Qed.

Lemma holds_lease_update_where db i wid x p f :
  holds_lease db i wid x →
  (∀ r, job_Status r = JobStatusLeased → processing_jobs db !! i = Some r → p r = false) →
  holds_lease (stmt_db (update_where p f) db) i wid x.
Proof.
  intros (r & y & Hi & Hs & H) Hp. exists r, y. cbn.
  rewrite lookup_fmap, Hi. cbn. by rewrite (Hp r Hs Hi).
Qed.

Lemma run_op_now q op w : w_now (run_op q op w) = w_now w.
Proof.
  assert (H : ∀ {A} (c : M A), now_frame c → w_now (snd (c w)) = w_now w) by (intros; auto).
  destruct op; cbn [run_op]; apply H;
    unfold Enqueue, Lease, Complete, Fail, RenewLease, ReclaimExpiredLeases,
      RequeueScheduledRetries, Retry, FailUnknownJobTypes, GetJob, QueueStats; solve_frame.
Qed.

Lemma steps_now allowed w w' : rtc (step allowed) w w' → w_now w ≤ w_now w'.
Proof.
  induction 1 as [|w1 w2 w3 Hs _ IH]; [done|].
  enough (w_now w1 ≤ w_now w2) by lia. destruct Hs as [|w w' (_ & _ & ?)]; rewrite ?run_op_now; lia.
Qed.

Lemma apply_op_holds now id locked op db i wid x :
  db_wf db → holds_lease db i wid x → not_finishing i wid op →
  trunc_us now ≤ x → x ≤ trunc_us (now + leaseDuration) →
  holds_lease (apply_op now id locked op db) i wid x.
Proof.
  intros Hwf Hh [Hnc Hnf] Hx1 Hx2. pose proof Hh as (r0 & y & Hi & Hs & Ho & Hy & Hxy).
  unfold apply_op. destruct op as [p|wid' ts|j wid'|j wid' c m|j wid'| | |j| | | ]; try done.
  - destruct (IsKnownJobType _); [|done]. unfold stmt_db, insert_job. cbn.
    case_tests; try done. apply holds_lease_replace; [done|]. congruence.
  - unfold stmt_db, lease_job. pose proof (lease_select (processing_jobs db) (trunc_us now) ts locked).
    destruct (select_best _ _) as [r|]; [|done]. destruct H as ([j Hj] & Hl & _).
    apply holds_lease_replace; [done|]. rewrite (wf_id _ Hwf j r Hj). intros ->.
    unfold leasable in Hl. rewrite !andb_true_iff, bool_decide_eq_true in Hl.
    destruct Hl as [[[? _] _] _]. congruence.
  - unfold stmt_db, complete_job. case_tests; try done.
    apply holds_lease_replace; [done|]. intros ->. simplify_eq.
    match goal with H : owned_by _ _ = true |- _ => apply owned_by_spec in H as [_ ?] end.
    congruence.
  - unfold stmt_db, fail_job. case_tests; try done;
      (apply holds_lease_replace; [done|]; intros ->; simplify_eq;
       match goal with H : owned_by _ _ = true |- _ => apply owned_by_spec in H as [_ ?] end;
       exfalso; simplify_eq; by eapply Hnf).
  - unfold stmt_db, renew_lease. case_tests; try done.
    apply holds_lease_replace; [done|]. intros ->. simplify_eq. cbn. eauto.
  - apply holds_lease_update_where; [done|]. intros r _ Hr. simplify_eq.
    unfold lease_expired. rewrite Hy. rewrite andb_false_iff, !bool_decide_eq_false. right. lia.
  - apply holds_lease_update_where; [done|]. intros r Hs' _. unfold retry_due. by rewrite Hs'.
  - unfold stmt_db, retry_job. case_tests; try done;
      (apply holds_lease_replace; [done|]; intros ->; congruence).
  - apply holds_lease_update_where; [done|]. intros r Hs' _. unfold unknown_queued. by rewrite Hs'.
Qed.

Lemma step_holds i wid x w w' :
  step (not_finishing i wid) w w' → db_wf (w_db w) → holds_lease (w_db w) i wid x →
  trunc_us (w_now w) ≤ x → x ≤ trunc_us (w_now w + leaseDuration) →
  holds_lease (w_db w') i wid x.
Proof.
  destruct 1 as [q op w Ha|w w' (Hj & _)]; intros Hwf Hh H1 H2.
  2:{ unfold holds_lease. by rewrite Hj. }
  destruct (run_op_refines q op w) as [-> | ->]; [done|]. by apply apply_op_holds.
Qed.

Lemma steps_hold i wid x w w' :
  rtc (step (not_finishing i wid)) w w' → db_wf (w_db w) → holds_lease (w_db w) i wid x →
  x ≤ trunc_us (w_now w + leaseDuration) → trunc_us (w_now w') ≤ x →
  holds_lease (w_db w') i wid x.
Proof.
  induction 1 as [|w1 w2 w3 Hs Hr IH]; [done|]. intros Hwf Hh Hx Hn.
  pose proof (steps_now _ _ _ Hr). assert (w_now w1 ≤ w_now w2) by (by eapply steps_now, rtc_once).
  apply IH; [by apply (step_sound true _ _ _ (λ H, ltac:(done)) Hs)| | |done].
  - eapply step_holds; [done..| |done]. transitivity (trunc_us (w_now w3)); [|done].
    apply trunc_us_mono. lia.
  - etransitivity; [done|]. apply trunc_us_mono. lia.
Qed.

(** ** Calls that meet no fault *)

Lemma record_nofault q et id ev ct ci p w :
  w_faults w = [] →
  record q et id ev ct ci p w =
    (tt, if q_audit q then w <| w_events := w_events w ++ [EvAudit et id ev ct ci p] |> else w).
Proof.
  intros Hf. unfold record. destruct (q_audit q); [|done].
  unfold audit_RecordEvent. rewrite bindS_run. unfold next_fault. by rewrite Hf.
Qed.

(** The job [Enqueue] returns: the inserted row before the database truncates
    its timestamps. *)
Definition new_job (id : uuid) (now : time) (p : EnqueueParams) : ProcessingJob :=
  (new_row id now p) <| job_CreatedAt := now |> <| job_UpdatedAt := now |>.

Definition created_event (id : uuid) (p : EnqueueParams) : Event :=
  EvAudit "job" id "job.created" "system" "queue"
    [("job_type", JStr (p_JobType p)); ("source_task_id", JStr (uuid_String (p_SourceTaskID p)));
     ("priority", JInt (p_Priority p))].

Definition audited (q : Queue) (ev : Event) (w : World) : World :=
  if q_audit q then w <| w_events := w_events w ++ [ev] |> else w.

(** *** Calls of the lease holder and of others *)

Section held.
Variables (q : Queue) (j : uuid) (wid : string) (w : World) (rj : ProcessingJob).
Hypothesis Hf : w_faults w = [].
Hypothesis Hj : processing_jobs (w_db w) !! j = Some rj.

(** The world after replacing the row of [j], with the fault script unused. *)
Definition replaced (rj' : ProcessingJob) (w' : World) : Prop :=
  w_faults w' = [] ∧ w_now w' = w_now w ∧
  w_db w' = (w_db w) <| processing_jobs := <[j := rj']> (processing_jobs (w_db w)) |>.

Lemma calls_fenced c m :
  owned_by wid rj = false →
  Complete q j wid w = (Ok tt, w) ∧ Fail q j wid c m w = (Ok None, w) ∧
  RenewLease q j wid w = (Ok false, w).
Proof using Hf Hj.
  intros Ho. assert (Hset : w <| w_db := w_db w |> = w) by (by destruct w).
  unfold Complete, Fail, RenewLease. rewrite !(bindS_run time_Now).
  cbn [time_Now fst snd]. rewrite !bindS_run, !db_call_nofault by done.
  unfold complete_job, fail_job, renew_lease. rewrite Hj, Ho. cbn -[set_field].
  by rewrite Hset.
Qed.

Hypothesis Ho : owned_by wid rj = true.

Lemma Complete_held :
  ∃ w', Complete q j wid w = (Ok tt, w') ∧ replaced (complete_row (trunc_us (w_now w)) rj) w'.
Proof using Hf Hj Ho.
  unfold Complete. rewrite (bindS_run time_Now). cbn [time_Now fst snd].
  rewrite bindS_run, db_call_nofault by done. unfold complete_job. rewrite Hj, Ho.
  cbn -[bindS set_field]. rewrite bool_decide_false by done.
  rewrite bindS_run, record_nofault by done. cbn.
  eexists. split; [reflexivity|]. by destruct (q_audit q).
Qed.

Lemma RenewLease_held :
  ∃ w', RenewLease q j wid w = (Ok true, w') ∧
        replaced (renew_row (trunc_us (w_now w + leaseDuration)) (trunc_us (w_now w)) rj) w'.
Proof using Hf Hj Ho.
  unfold RenewLease. rewrite (bindS_run time_Now). cbn [time_Now fst snd].
  rewrite bindS_run, db_call_nofault by done. unfold renew_lease. rewrite Hj, Ho.
  cbn -[bindS set_field]. rewrite bool_decide_false by done.
  rewrite bindS_run, record_nofault by done. cbn.
  eexists. split; [reflexivity|]. by destruct (q_audit q).
Qed.

(** When the retry of attempt [n] is scheduled; [None] for the last attempt. *)
Definition fail_sched (now : time) (r0 : ProcessingJob) : option time :=
  let n := job_AttemptCount r0 + 1 in
  if bool_decide (job_MaxAttempts r0 ≤ n) then None else Some (now + 30 * n * n * Second).

Lemma fail_job_held c m :
  0 ≤ job_AttemptCount rj < backoff_limit → w_now w ≤ 253402300799 * Second →
  let now := trunc_us (w_now w) in
  let rj' := fail_row now c m (fail_sched now rj) rj in
  fail_job now j wid c m (w_db w) =
    Ok (Some rj', (w_db w) <| processing_jobs := <[j := rj']> (processing_jobs (w_db w)) |>).
Proof using Hj Ho.
  intros Hn Ht now rj'. unfold fail_job. rewrite Hj, Ho.
  assert (in_int4 (job_AttemptCount rj + 1) = true) as ->
    by (apply bool_decide_eq_true; unfold backoff_limit in *; lia).
  cbn [negb]. unfold rj', fail_sched, fail_dead. case_bool_decide as Hd; [done|].
  unfold retry_time. rewrite backoff_exact by (unfold backoff_limit in *; lia).
  rewrite bool_decide_true.
  - replace (now + 1000 * _) with (now + 30 * (job_AttemptCount rj + 1)
      * (job_AttemptCount rj + 1) * Second) by (unfold Second; lia). done.
  - pose proof (trunc_us_le (w_now w)). unfold now, backoff_limit, pg_max_us, Second in *. nia.
Qed.

Lemma Fail_held c m :
  0 ≤ job_AttemptCount rj < backoff_limit → w_now w ≤ 253402300799 * Second →
  let sched := fail_sched (trunc_us (w_now w)) rj in
  let rj' := fail_row (trunc_us (w_now w)) c m sched rj in
  ∃ w', Fail q j wid c m w =
          (Ok (Some (mkFailResult (job_Status rj') (job_AttemptCount rj + 1)
                       (job_MaxAttempts rj) sched)), w') ∧
        replaced rj' w'.
Proof using Hf Hj Ho.
  intros Hn Ht sched rj'. unfold Fail.
  rewrite (bindS_run time_Now). cbn [time_Now fst snd].
  rewrite bindS_run, db_call_nofault, fail_job_held by done. fold sched rj'.
  cbn -[bindS set_field rj']. rewrite bindS_run, record_nofault by done.
  cbn -[bindS set_field rj']. rewrite bindS_run, record_nofault by (by destruct (q_audit q)).
  cbn -[set_field rj']. eexists. split; [reflexivity|]. by destruct (q_audit q).
Qed.
End held.

Section enqueue_nofault.
Variables (q : Queue) (p : EnqueueParams) (w : World).
Hypothesis Hf : w_faults w = [].
Hypothesis Hk : IsKnownJobType (p_JobType p) = true.
Hypothesis Hp : in_int4 (p_Priority p) = true.
Hypothesis Hm : in_int4 (max_attempts_or_default (p_MaxAttempts p)) = true.

Lemma Enqueue_dup :
  dedupe_conflict (processing_jobs (w_db w)) None (p_DedupeKey p) = true →
  Enqueue q p w = (Ok None, w <| w_uuids := S (w_uuids w) |>).
Proof using Hf Hk Hp Hm.
  intros Hd. unfold Enqueue. rewrite Hk. cbn [negb].
  rewrite (bindS_run time_Now), (bindS_run fresh_uuid), (bindS_run (db_call _)).
  rewrite db_call_nofault by done. unfold insert_job.
  cbn -[bool_decide bindS]. rewrite Hp, Hm. cbn -[bindS]. by rewrite Hd.
Qed.

Lemma Enqueue_new st :
  dedupe_conflict (processing_jobs (w_db w)) None (p_DedupeKey p) = false →
  processing_jobs (w_db w) !! uuid_New (w_uuids w) = None →
  source_tasks (w_db w) !! p_SourceTaskID p = Some st →
  let id := uuid_New (w_uuids w) in
  Enqueue q p w =
    (Ok (Some (new_job id (w_now w) p)),
     audited q (created_event id p)
       (w <| w_uuids := S (w_uuids w) |>
          <| w_db := (w_db w) <| processing_jobs :=
               <[id := new_row id (w_now w) p]> (processing_jobs (w_db w)) |> |>)).
Proof using Hf Hk Hp Hm.
  intros Hd Hid Hst. unfold Enqueue. rewrite Hk. cbn [negb].
  rewrite (bindS_run time_Now), (bindS_run fresh_uuid), (bindS_run (db_call _)).
  rewrite db_call_nofault by done. unfold insert_job.
  cbn -[bool_decide bindS]. rewrite Hp, Hm. cbn -[bindS]. rewrite Hd, Hid, Hst. cbn -[bindS].
  rewrite bool_decide_false by done. by rewrite bindS_run, record_nofault.
Qed.
End enqueue_nofault.

End spec.
