(* ===== verification/JobQueueProps.v ===== *)
(** * Theorems about the job queue *)

From stdpp Require Import base gmap strings list fin_maps relations.
From Stdlib Require Import ZArith Lia.
From S2P Require Import Prelude GoFloat Models JobQueue Fixtures JobQueueSpec.
Import JobsTable Queue.

Open Scope Z_scope.

Section theorems.
Context {U : UuidPkg}.

(** C1: in every world the queue can reach (any interleaving of calls, clock
    movement, lock contention, database faults and new source tasks) the jobs
    table satisfies [db_wf]: rows are keyed by their id, reference an existing
    source task, have a known type, are owned exactly when leased, carry a
    retry time and a counter strictly between 0 and the limit when a retry is
    scheduled, carry an error when dead-lettered, are never ['failed'], and no
    two live rows share a dedupe key. *)
Theorem queue_invariant (w : World) : reachable w → db_wf (w_db w).
Proof. apply reachable_wf. Qed.

(** C2: every call of the queue, whatever faults it meets, changes each job by
    at most one edge of the life cycle [life] (an edge out of ['dead_letter']
    only in [Retry]), never rewrites its identifying columns, never touches a
    succeeded job, deletes nothing, and creates jobs only as ['queued'] with no
    attempt counted. *)
Theorem queue_refines_life (q : Queue) (op : Op) (w : World) :
  reachable w → db_evolves (is_retry op) (w_db w) (w_db (run_op q op w)).
Proof. intros Hw. apply run_op_sound. by apply reachable_wf. Qed.

(** C3: a lease is exclusive while it runs.  If worker [wid] holds job [i] until
    [x], then after any steps that do not contain [wid]'s own [Complete] or
    [Fail] of [i], as long as the clock has not passed [x], [wid] still holds
    [i]: nobody else leased, finished, failed or requeued it. *)
Theorem lease_exclusive (i : uuid) (wid : string) (x : time) (w w' : World) :
  reachable w → holds_lease (w_db w) i wid x → x ≤ trunc_us (w_now w + leaseDuration) →
  rtc (step (not_finishing i wid)) w w' → trunc_us (w_now w') ≤ x →
  holds_lease (w_db w') i wid x.
Proof. intros Hw Hh Hx Hs Hn. eapply steps_hold; eauto using reachable_wf. Qed.

(** A job that has succeeded is final: its row stays exactly as it is
    through any further steps. *)
Theorem succeeded_final (w w' : World) (i : uuid) (r : ProcessingJob) :
  reachable w → rtc (step any_op) w w' →
  processing_jobs (w_db w) !! i = Some r → job_Status r = JobStatusSucceeded →
  processing_jobs (w_db w') !! i = Some r.
Proof. intros Hw Hs. eapply steps_succeeded; eauto using reachable_wf. Qed.

(** As long as no operator retries a job by hand, its attempt counter is
    below its limit in every status but ['dead_letter'], where it equals the
    limit: a job fails at most [max_attempts] times. *)
Theorem attempts_never_exceed_limit (w0 w : World) :
  initial w0 → rtc (step no_manual_retry) w0 w → attempts_bounded (w_db w).
Proof.
  intros Hi Hs. eapply steps_attempts; [done|rewrite Hi; apply empty_db_wf|].
  rewrite Hi. intros i r. cbn. by rewrite lookup_empty.
Qed.

(** C4: the ownership fence.  A worker that does not hold the lease of a job can
    neither complete, nor fail, nor renew it: the call reports the loss
    (success with no effect, a nil result, [false]) and leaves the whole world
    as it was, audit trail included. *)
Theorem ownership_fence (q : Queue) (j : uuid) (wid c m : string) (w : World) (r : ProcessingJob) :
  w_faults w = [] → processing_jobs (w_db w) !! j = Some r → ¬ held_by wid r →
  Complete q j wid w = (Ok tt, w) ∧ Fail q j wid c m w = (Ok None, w) ∧
  RenewLease q j wid w = (Ok false, w).
Proof. intros Hf Hj Ho. apply owned_by_false in Ho. by eapply calls_fenced. Qed.

(** C5: without faults, [Lease] returns a job exactly when one is available, and
    then the first by priority and age: the job it returns was queued, due, of
    a requested type and not locked; no other such job has a higher priority,
    nor the same priority and an earlier creation time; and the only change is
    that this row is now leased to the caller until five minutes later. *)
Theorem lease_takes_the_best (q : Queue) (wid : string) (ts : list string) (w : World) :
  w_faults w = [] → db_wf (w_db w) →
  let n := trunc_us (w_now w) in
  let ok := available n ts (w_locked w) in
  match fst (Lease q wid ts w) with
  | Err _ => False
  | Ok None =>
      w_db (snd (Lease q wid ts w)) = w_db w ∧
      ∀ i r, processing_jobs (w_db w) !! i = Some r → ¬ ok r
  | Ok (Some job) =>
      ∃ r, processing_jobs (w_db w) !! job_ID job = Some r ∧ ok r ∧
      (∀ i s, processing_jobs (w_db w) !! i = Some s → ok s →
         job_Priority s < job_Priority r ∨
         (job_Priority s = job_Priority r ∧ job_CreatedAt r ≤ job_CreatedAt s)) ∧
      processing_jobs (w_db (snd (Lease q wid ts w))) =
        <[job_ID job := r <| job_Status := JobStatusLeased |> <| job_LeasedAt := Some n |>
             <| job_LeaseExpiry := Some (trunc_us (w_now w + 5 * Minute)) |>
             <| job_LeasedByWorkerID := Some wid |> <| job_UpdatedAt := n |>]>
          (processing_jobs (w_db w)) ∧
      job_LeasedByWorkerID job = Some wid ∧ job_Status job = JobStatusLeased
  end.
Proof.
  intros Hf Hwf n ok. unfold Lease. rewrite (bindS_run time_Now). cbn [time_Now fst snd].
  rewrite (bindS_run locked_rows). cbn [locked_rows fst snd].
  rewrite bindS_run, db_call_nofault by done. unfold lease_job.
  pose proof (lease_select (processing_jobs (w_db w)) n ts (w_locked w)) as Hsel.
  unfold n, ok in *. destruct (select_best _ _) as [r|]; cbn.
  - destruct Hsel as ([i Hi] & Hl & Hmax). rewrite bindS_run, record_nofault by done. cbn.
    exists r. rewrite (wf_id _ Hwf i r Hi). apply leasable_spec in Hl. repeat split; eauto; try apply Hl.
    + intros i' s Hs Hok. apply leasable_spec in Hok. by eapply lease_before_false, Hmax.
    + by destruct (q_audit q).
  - split; [by destruct w|]. intros i r Hi Hok. apply leasable_spec in Hok.
    pose proof (Hsel i r Hi) as Hno. unfold n in Hok. congruence.
Qed.

(** C6: without faults, the holder's [Fail] counts the attempt and either
    dead-letters the job, when this was the last allowed attempt, or schedules
    its retry [30 n^2] seconds later, [n] being the new attempt count; nothing
    but this row changes and both facts are reported back. *)
Theorem fail_counts_and_backs_off (q : Queue) (j : uuid) (wid c m : string) (w : World)
    (r : ProcessingJob) :
  w_faults w = [] → processing_jobs (w_db w) !! j = Some r → held_by wid r →
  0 ≤ job_AttemptCount r < backoff_limit → w_now w ≤ 253402300799 * Second →
  let n := job_AttemptCount r + 1 in
  let dead := bool_decide (job_MaxAttempts r ≤ n) in
  let sched := if dead then None else Some (trunc_us (w_now w) + 30 * n * n * Second) in
  fst (Fail q j wid c m w) =
    Ok (Some (mkFailResult (if dead then JobStatusDeadLetter else JobStatusRetryScheduled)
                n (job_MaxAttempts r) sched)) ∧
  processing_jobs (w_db (snd (Fail q j wid c m w))) =
    <[j := r <| job_Status := if dead then JobStatusDeadLetter else JobStatusRetryScheduled |>
             <| job_AttemptCount := n |> <| job_LeasedByWorkerID := None |>
             <| job_ScheduledAt := sched |> <| job_UpdatedAt := trunc_us (w_now w) |>
             <| job_ErrorCode := Some c |> <| job_ErrorMessage := Some m |>]>
      (processing_jobs (w_db w)).
Proof.
  intros Hf Hj Ho Hn Ht n dead sched. apply owned_by_spec in Ho.
  destruct (Fail_held q j wid w r Hf Hj Ho c m Hn Ht) as (w' & E & _ & _ & Hdb).
  rewrite E. cbn [fst snd]. by rewrite Hdb.
Qed.

(** A job other than [self] that is not finished carries the key. *)
Definition live_duplicate (t : gmap uuid ProcessingJob) (self : option uuid) (key : option string)
    : Prop :=
  ∃ i r k, t !! i = Some r ∧ job_Status r ≠ JobStatusSucceeded ∧
           job_Status r ≠ JobStatusDeadLetter ∧ key = Some k ∧
           job_DedupeKey r = Some k ∧ Some (job_ID r) ≠ self.

Lemma live_spec s : live s = true ↔ s ≠ JobStatusSucceeded ∧ s ≠ JobStatusDeadLetter.
Proof using. destruct s; cbn; intuition congruence. Qed.

Lemma dedupe_conflict_spec (t : gmap uuid ProcessingJob) self key :
  dedupe_conflict t self key = true ↔ live_duplicate t self key.
Proof using.
  unfold live_duplicate. split.
  - destruct key as [k|]; [|done]. cbn. rewrite existsb_exists. intros (r & Hr & H).
    rewrite !andb_true_iff, negb_true_iff, bool_decide_eq_false, bool_decide_eq_true in H.
    destruct H as [[[H1 H2]%live_spec Hk] Hs].
    apply list_elem_of_In, elem_of_rows in Hr as [i Hi]. exists i, r, k. auto 10.
  - intros (i & r & k & Hi & H1 & H2 & -> & Hk & Hs).
    destruct (dedupe_conflict t self (Some k)) eqn:E; [done|].
    destruct Hs. eapply dedupe_conflict_false; eauto. by apply live_spec.
Qed.

(** Without faults, [Enqueue] of a known job type for an existing source task
    is a deduplicating insert: it returns nil and changes nothing when a live
    job carries the same dedupe key, and otherwise inserts and returns one
    fresh queued job with no attempts and the default limit of 3 when none is
    given.  An unknown type is refused before the database is reached. *)
Theorem enqueue_deduplicates (q : Queue) (p : EnqueueParams) (w : World) :
  w_faults w = [] →
  in_int4 (p_Priority p) = true → in_int4 (max_attempts_or_default (p_MaxAttempts p)) = true →
  processing_jobs (w_db w) !! uuid_New (w_uuids w) = None →
  is_Some (source_tasks (w_db w) !! p_SourceTaskID p) →
  let id := uuid_New (w_uuids w) in
  let t := processing_jobs (w_db w) in
  let out := Enqueue q p w in
  (IsKnownJobType (p_JobType p) = false →
     snd out = w ∧ ∃ e, fst out = Err e) ∧
  (IsKnownJobType (p_JobType p) = true → live_duplicate t None (p_DedupeKey p) →
     fst out = Ok None ∧ w_db (snd out) = w_db w) ∧
  (IsKnownJobType (p_JobType p) = true → ¬ live_duplicate t None (p_DedupeKey p) →
     processing_jobs (w_db (snd out)) = <[id := new_row id (w_now w) p]> t ∧
     ∃ job, fst out = Ok (Some job) ∧ job_ID job = id ∧ job_pos job = (JobStatusQueued, 0) ∧
            job_MaxAttempts job = max_attempts_or_default (p_MaxAttempts p)).
Proof.
  intros Hf Hp Hm Hid [st Hst] id t out.
  rewrite <- dedupe_conflict_spec. subst id t out. split; [|split].
  - intros Hk. unfold Enqueue. rewrite Hk. cbn. eauto.
  - intros Hk Hd. by rewrite Enqueue_dup.
  - intros Hk Hd. apply not_true_iff_false in Hd.
    rewrite (Enqueue_new q p w Hf Hk Hp Hm st) by done. cbn. unfold audited.
    split; [by destruct (q_audit q)|eauto].
Qed.

(** Without faults, [Retry] reopens exactly the failed and dead-lettered
    jobs: the row becomes queued and immediately due with its attempt counter
    kept.  It fails, changing nothing, when the job does not exist or is in
    another status ([ErrNoRows]) and when another live job has taken the
    job's dedupe key meanwhile. *)
Theorem retry_reopens (q : Queue) (j : uuid) (w : World) :
  w_faults w = [] →
  let out := Retry q j w in
  let t := processing_jobs (w_db w) in
  let refused := snd out = w ∧ ∃ s, fst out = Err (Wrapf s ErrNoRows) in
  match t !! j with
  | Some r =>
      if bool_decide (job_Status r = JobStatusFailed ∨ job_Status r = JobStatusDeadLetter) then
        (live_duplicate t (Some j) (job_DedupeKey r) →
           snd out = w ∧ ∃ s, fst out = Err (Wrapf s unique_violation)) ∧
        (¬ live_duplicate t (Some j) (job_DedupeKey r) →
           fst out = Ok tt ∧
           processing_jobs (w_db (snd out)) =
             <[j := r <| job_Status := JobStatusQueued |> <| job_ScheduledAt := None |>
                      <| job_UpdatedAt := trunc_us (w_now w) |>]> t)
      else refused
  | None => refused
  end.
Proof.
  intros Hf out t refused. unfold refused, out, Retry. rewrite (bindS_run time_Now).
  cbn [time_Now fst snd].
  rewrite bindS_run, db_call_nofault by done. unfold retry_job.
  destruct w as [db ? ? ? ? ?]; cbn -[bindS bool_decide] in *. unfold t.
  destruct (processing_jobs db !! j) as [r|]; cbn -[bindS]; [|by unfold wrap; eauto].
  case_bool_decide as Hc.
  - assert (bool_decide (1 = 0) = false) as H10 by done.
    rewrite <- dedupe_conflict_spec.
    destruct Hc as [-> | ->];
      (destruct (dedupe_conflict _ _ _); cbn -[bindS bool_decide]; split; intros Hd; try done;
       [by unfold wrap; eauto|]);
      rewrite H10, bindS_run, record_nofault by done; cbn; split; try done;
      by destruct (q_audit q).
  - destruct (job_Status r); cbn; unfold wrap; eauto; destruct Hc; auto.
Qed.

End theorems.

(** ** The theorems at work *)

Section witnesses.
#[local] Existing Instance demo_uuid.

Lemma demo_leased_reachable : reachable demo_leased.
Proof.
  exists demo_start. split; [done|].
  eapply rtc_l; [apply (step_outside _ demo_start demo_world); split; [done|split; [by intros i [? ?]|done]]|].
  eapply rtc_l; [by apply (step_call _ demo_queue (OpEnqueue demo_params))|].
  eapply rtc_l; [by apply (step_call _ demo_queue (OpLease "A" KnownJobTypes))|].
  apply rtc_refl.
Qed.

Lemma demo_lookup : processing_jobs (w_db demo_leased) !! 100 = Some demo_row.
Proof. rewrite demo_leased_row. vm_compute. reflexivity. Qed.

Lemma queue_invariant_witness : reachable demo_leased ∧ db_wf (w_db demo_leased).
Proof.
  split; [apply demo_leased_reachable|].
  apply queue_invariant. apply demo_leased_reachable.
Defined.

Lemma queue_refines_life_witness :
  db_evolves false (w_db demo_leased) (w_db (run_op demo_queue (OpComplete 100 "A") demo_leased)).
Proof.
  apply (queue_refines_life demo_queue (OpComplete 100 "A") demo_leased).
  apply demo_leased_reachable.
Defined.

(** Four minutes later, after another worker tried to take the job. *)
Lemma lease_exclusive_witness :
  holds_lease
    (w_db (run_op demo_queue (OpLease "B" KnownJobTypes)
             (demo_leased <| w_now := demo_now + 4 * Minute |>)))
    100 "A" (demo_now + leaseDuration).
Proof.
  apply (lease_exclusive 100 "A" (demo_now + leaseDuration) demo_leased).
  - apply demo_leased_reachable.
  - exists demo_row, (demo_now + leaseDuration). rewrite demo_lookup. by repeat split.
  - vm_compute. discriminate.
  - eapply rtc_l; [apply (step_outside _ _ (demo_leased <| w_now := demo_now + 4 * Minute |>)); split; [done|split; [done|vm_compute; discriminate]]|].
    eapply rtc_l; [apply (step_call _ demo_queue (OpLease "B" KnownJobTypes)); by split|].
    apply rtc_refl.
  - vm_compute. discriminate.
Defined.

Lemma demo_done_lookup :
  processing_jobs (w_db (run_op demo_queue (OpComplete 100 "A") demo_leased)) !! 100
    = Some (complete_row demo_now demo_row).
Proof. vm_compute. reflexivity. Qed.

Lemma succeeded_final_witness :
  processing_jobs (w_db (run_op demo_queue (OpFail 100 "A" "c" "m")
                           (run_op demo_queue (OpComplete 100 "A") demo_leased))) !! 100
    = Some (complete_row demo_now demo_row).
Proof.
  apply (succeeded_final (run_op demo_queue (OpComplete 100 "A") demo_leased)).
  - destruct demo_leased_reachable as (w0 & Hi & Hs). exists w0. split; [done|].
    eapply rtc_r; [exact Hs|]. by apply step_call.
  - eapply rtc_once. by apply step_call.
  - apply demo_done_lookup.
  - reflexivity.
Defined.

Lemma attempts_never_exceed_limit_witness :
  attempts_bounded (w_db (run_op demo_queue (OpEnqueue demo_params) demo_world)).
Proof.
  apply (attempts_never_exceed_limit demo_start); [reflexivity|].
  eapply rtc_l; [apply (step_outside _ demo_start demo_world); split; [done|split; [by intros i [? ?]|done]]|].
  eapply rtc_once. by apply (step_call _ demo_queue (OpEnqueue demo_params)).
Defined.

Lemma ownership_fence_witness :
  Complete demo_queue 100 "B" demo_leased = (Ok tt, demo_leased) ∧
  Fail demo_queue 100 "B" "c" "m" demo_leased = (Ok None, demo_leased) ∧
  RenewLease demo_queue 100 "B" demo_leased = (Ok false, demo_leased).
Proof.
  apply (ownership_fence demo_queue 100 "B" "c" "m" demo_leased demo_row).
  - reflexivity.
  - apply demo_lookup.
  - by intros [_ [=]].
Defined.

Lemma lease_takes_the_best_witness :
  ∃ job, fst (Lease demo_queue "A" KnownJobTypes demo_queued) = Ok (Some job) ∧
  ∃ r, processing_jobs (w_db demo_queued) !! job_ID job = Some r ∧
       available (trunc_us (w_now demo_queued)) KnownJobTypes (w_locked demo_queued) r.
Proof.
  assert (Hwf : db_wf (w_db demo_queued)).
  { apply reachable_wf. exists demo_start. split; [reflexivity|].
    eapply rtc_l; [apply (step_outside _ demo_start demo_world); split; [done|split; [by intros i [? ?]|done]]|].
    eapply rtc_once. by apply (step_call _ demo_queue (OpEnqueue demo_params)). }
  pose proof (lease_takes_the_best demo_queue "A" KnownJobTypes demo_queued eq_refl Hwf) as H.
  destruct (fst (Lease demo_queue "A" KnownJobTypes demo_queued)) as [[job|]|e] eqn:E.
  - exists job. split; [reflexivity|]. destruct H as (r & H1 & H2 & _). exists r. by split.
  - vm_compute in E. discriminate.
  - vm_compute in E. discriminate.
Defined.

Lemma fail_counts_and_backs_off_witness :
  fst (Fail demo_queue 100 "A" "c" "m" demo_leased) =
    Ok (Some (mkFailResult JobStatusRetryScheduled 1 3 (Some (demo_now + 30 * Second)))).
Proof.
  destruct (fail_counts_and_backs_off demo_queue 100 "A" "c" "m" demo_leased demo_row) as [H _].
  - reflexivity.
  - apply demo_lookup.
  - split; reflexivity.
  - vm_compute. split; [discriminate|reflexivity].
  - vm_compute. discriminate.
  - rewrite H. vm_compute. reflexivity.
Defined.

(** The second [Enqueue] with the same key is a duplicate. *)
Lemma enqueue_deduplicates_witness :
  fst (Enqueue demo_queue demo_params demo_queued) = Ok None.
Proof.
  destruct (enqueue_deduplicates demo_queue demo_params demo_queued) as (_ & H & _).
  - reflexivity.
  - reflexivity.
  - reflexivity.
  - vm_compute. reflexivity.
  - exists demo_task. vm_compute. reflexivity.
  - apply H; [reflexivity|]. apply dedupe_conflict_spec. vm_compute. reflexivity.
Defined.

Lemma retry_reopens_witness :
  ∃ s, fst (Retry demo_queue 100 demo_leased) = Err (Wrapf s ErrNoRows).
Proof.
  pose proof (retry_reopens demo_queue 100 demo_leased eq_refl) as H. cbv zeta in H.
  rewrite demo_lookup in H. apply H.
Defined.

End witnesses.
