(* ===== verification/Steps.v ===== *)
(** * Computations as sequences of queue steps

    [by_steps allowed c]: whatever the world, running [c] is a sequence of
    [step]s whose queue calls are all [allowed].  The services around the queue
    are shown to be such computations, so that what is proved of reachable
    worlds holds of the whole system. *)

From stdpp Require Import base gmap strings list fin_maps relations.
From Stdlib Require Import ZArith Lia.
From S2P Require Import Prelude GoFloat Models JobQueue JobQueueSpec.
Import JobsTable Queue.

Open Scope Z_scope.

Create HintDb steps.

Section by_steps.
Context {U : UuidPkg} (allowed : Op → Prop).

Definition by_steps {A} (c : M A) : Prop := ∀ w, rtc (step allowed) w (snd (c w)).

(** A statement that neither touches the jobs table nor deletes source tasks. *)
Definition stmt_outside {A} (stmt : DB → res (A * DB)) : Prop :=
  ∀ db a db', stmt db = Ok (a, db') →
    processing_jobs db' = processing_jobs db ∧
    ∀ i, is_Some (source_tasks db !! i) → is_Some (source_tasks db' !! i).

Lemma by_steps_ret {A} (a : A) : by_steps (retS a).
Proof. intros w. apply rtc_refl. Qed.

Lemma by_steps_bind {A B} (c : M A) (k : A → M B) :
  by_steps c → (∀ a, by_steps (k a)) → by_steps (bindS c k).
Proof. intros Hc Hk w. rewrite bindS_run. etransitivity; [apply Hc|apply Hk]. Qed.

Lemma by_steps_forS {A} (g : A → M unit) l : (∀ x, by_steps (g x)) → by_steps (forS g l).
Proof.
  intros Hg. induction l as [|x l IH]; [apply by_steps_ret|].
  cbn [forS]. apply by_steps_bind; auto.
Qed.

Lemma outside_db w w' : w_db w' = w_db w → w_now w' = w_now w → outside w w'.
Proof. unfold outside. intros -> ->. auto with lia. Qed.

(** Code that leaves the database and the clock alone. *)
Lemma by_steps_frame {A} (c : M A) : db_frame c → now_frame c → by_steps c.
Proof. intros Hd Hn w. apply rtc_once, step_outside. by apply outside_db. Qed.

Lemma by_steps_db_call {A} (stmt : DB → res (A * DB)) :
  stmt_outside stmt → by_steps (db_call stmt).
Proof.
  intros Hs w. apply rtc_once, step_outside.
  destruct (db_call_cases stmt w) as [(e & _ & Hd)|(a & db' & Hst & Hd & _)].
  - apply outside_db; [done|apply db_call_now].
  - destruct (Hs _ _ _ Hst). unfold outside. rewrite Hd, db_call_now. auto with lia.
Qed.

Lemma by_steps_call q op w : allowed op → rtc (step allowed) w (run_op q op w).
Proof. intros H. by apply rtc_once, step_call. Qed.

Lemma by_steps_Enqueue q p : allowed (OpEnqueue p) → by_steps (Enqueue q p).
Proof. intros H w. by apply (by_steps_call q (OpEnqueue p)). Qed.
Lemma by_steps_Lease q wid ts : allowed (OpLease wid ts) → by_steps (Lease q wid ts).
Proof. intros H w. by apply (by_steps_call q (OpLease wid ts)). Qed.
Lemma by_steps_Complete q j wid : allowed (OpComplete j wid) → by_steps (Complete q j wid).
Proof. intros H w. by apply (by_steps_call q (OpComplete j wid)). Qed.
Lemma by_steps_Fail q j wid c m : allowed (OpFail j wid c m) → by_steps (Fail q j wid c m).
Proof. intros H w. by apply (by_steps_call q (OpFail j wid c m)). Qed.
Lemma by_steps_RenewLease q j wid : allowed (OpRenewLease j wid) → by_steps (RenewLease q j wid).
Proof. intros H w. by apply (by_steps_call q (OpRenewLease j wid)). Qed.
Lemma by_steps_Reclaim q : allowed OpReclaim → by_steps (ReclaimExpiredLeases q).
Proof. intros H w. by apply (by_steps_call q OpReclaim). Qed.
Lemma by_steps_Requeue q : allowed OpRequeue → by_steps (RequeueScheduledRetries q).
Proof. intros H w. by apply (by_steps_call q OpRequeue). Qed.
Lemma by_steps_Retry q j : allowed (OpRetry j) → by_steps (Retry q j).
Proof. intros H w. by apply (by_steps_call q (OpRetry j)). Qed.
Lemma by_steps_FailUnknown q :
  allowed OpFailUnknown → by_steps (FailUnknownJobTypes q KnownJobTypes).
Proof. intros H w. by apply (by_steps_call q OpFailUnknown). Qed.
Lemma by_steps_GetJob q j : allowed (OpGetJob j) → by_steps (GetJob q j).
Proof. intros H w. by apply (by_steps_call q (OpGetJob j)). Qed.
Lemma by_steps_QueueStats q : allowed OpQueueStats → by_steps (QueueStats q).
Proof. intros H w. by apply (by_steps_call q OpQueueStats). Qed.

End by_steps.

#[export] Hint Resolve by_steps_ret by_steps_Enqueue by_steps_Lease by_steps_Complete
  by_steps_Fail by_steps_RenewLease by_steps_Reclaim by_steps_Requeue by_steps_Retry
  by_steps_FailUnknown by_steps_GetJob by_steps_QueueStats by_steps_db_call : steps.

(** Solves [by_steps] goals over code built from queue calls, statements on
    other tables and the environment primitives. *)
Ltac solve_steps :=
  repeat first
    [ progress intros
    | solve [eauto 3 with steps]
    | solve [apply by_steps_frame; solve_frame]
    | apply by_steps_bind
    | apply by_steps_forS
    | case_match ].

Lemma reachable_by_steps {U : UuidPkg} {A} (c : M A) w :
  by_steps any_op c → reachable w → reachable (snd (c w)).
Proof. intros Hc (w0 & Hi & Hs). exists w0. split; [done|]. etransitivity; [done|apply Hc]. Qed.

Lemma any_op_all op : any_op op.
Proof. exact I. Qed.
#[export] Hint Resolve any_op_all : steps.
