(* ===== verification/Processors.v ===== *)
(** * Processors ([internal/processors/processor.go, composite.go])

    The processor interface, the registry and the composite processor.  A
    processor is a record of its methods; [Process] receives, beside the job
    context, whether the context it runs under has been cancelled, and may act
    on the world in any way. *)

From stdpp Require Import base gmap strings list.
From Stdlib Require Import ZArith.
From S2P Require Import Prelude GoStrconv Models.

Open Scope Z_scope.

(** ** Data *)

Record JobContext := mkJobContext {
  jc_JobID : uuid;
  jc_SourceTaskID : uuid;
  jc_JobType : string;
  jc_SnapshotPayload : string;
  jc_PriorResults : list ProcessingRun
}.

Record ProcessResult := mkProcessResult {
  res_ProposalType : string;
  res_OutputPayload : option string;          (* None: nil *)
  res_HumanReviewRequired : bool;
  res_Outcome : string;
  res_ErrorMessage : string;
  res_PromptTemplateID : string;
  res_PromptTemplateVersion : string;
  res_ModelProvider : string;
  res_ModelRole : string;
  res_ModelName : string;
  res_TokensPrompt : Z;
  res_TokensCompletion : Z;
  res_TokensUsed : Z;
  res_DurationMS : Z;
  res_TimeoutUsed : Z;                         (* nanoseconds *)
  res_ExecutionTrace : option string;
  res_UsedFallback : bool
}.

#[export] Instance ProcessResult_settable : Settable ProcessResult := fun r =>
  mkProcessResult (res_ProposalType r) (res_OutputPayload r) (res_HumanReviewRequired r)
    (res_Outcome r) (res_ErrorMessage r) (res_PromptTemplateID r)
    (res_PromptTemplateVersion r) (res_ModelProvider r) (res_ModelRole r) (res_ModelName r)
    (res_TokensPrompt r) (res_TokensCompletion r) (res_TokensUsed r) (res_DurationMS r)
    (res_TimeoutUsed r) (res_ExecutionTrace r) (res_UsedFallback r).

(** [ProcessResult{}] *)
Definition zero_result : ProcessResult :=
  mkProcessResult "" None false "" "" "" "" "" "" "" 0 0 0 0 0 None false.

Record Processor := mkProcessor {
  proc_Name : string;
  proc_Version : string;
  proc_CanHandle : string → bool;
  proc_Process : bool → JobContext → M (ProcessResult * option error)
}.

(** ** Registry *)

Record Registry := mkRegistry { reg_processors : list Processor }.

Definition NewRegistry : Registry := mkRegistry [].

Definition Register (r : Registry) (p : Processor) : Registry :=
  mkRegistry (reg_processors r ++ [p]).

Definition FindFor (r : Registry) (jobType : string) : res Processor :=
  match List.find (fun p => proc_CanHandle p jobType) (reg_processors r) with
  | Some p => Ok p
  | None => Err (Errorf ("no processor found for job type " +:+ quote jobType))
  end.

(** ** Composite processor *)

Record CompositeProcessor := mkCompositeProcessor {
  comp_name : string;
  comp_subProcessors : list Processor
}.

(** The loop of [Process]; [lastResult] is its accumulator. *)
Fixpoint composite_loop (cancelled : bool) (jc : JobContext) (subs : list Processor)
    (lastResult : ProcessResult) : M (ProcessResult * option error) :=
  match subs with
  | [] => retS (lastResult, None)
  | sub :: subs' =>
      let! out := proc_Process sub cancelled jc in
      match out with
      | (_, Some err) =>
          retS (zero_result <| res_Outcome := "error" |>
                  <| res_ErrorMessage :=
                       "sub-processor " +:+ quote (proc_Name sub) +:+ " error: "
                         +:+ error_text err |>, Some err)
      | (result, None) =>
          if bool_decide (res_Outcome result ≠ "success") then
            retS (zero_result <| res_Outcome := "failure" |>
                    <| res_ErrorMessage :=
                         "sub-processor " +:+ quote (proc_Name sub) +:+ " failed: "
                           +:+ res_ErrorMessage result |>, None)
          else composite_loop cancelled jc subs' result
      end
  end.

Definition Composite_Process (p : CompositeProcessor) (cancelled : bool) (jc : JobContext)
    : M (ProcessResult * option error) :=
  composite_loop cancelled jc (comp_subProcessors p) zero_result.

Definition Composite_CanHandle (jobType : string) : bool := bool_decide (jobType = "composite").

(** A composite used as a processor. *)
Definition composite (p : CompositeProcessor) : Processor :=
  mkProcessor (comp_name p) "v1" Composite_CanHandle (Composite_Process p).

(** ** Properties *)

(** [FindFor] is first match: no earlier processor handles the type. *)
Lemma FindFor_first r t p :
  FindFor r t = Ok p ↔
  ∃ pre post, reg_processors r = pre ++ p :: post ∧ proc_CanHandle p t = true ∧
              ∀ q, q ∈ pre → proc_CanHandle q t = false.
Proof.
  unfold FindFor. destruct r as [l]. cbn. induction l as [|q l IH]; cbn.
  - split; [done|]. by intros ([|? ?] & post & ? & _).
  - destruct (proc_CanHandle q t) eqn:E.
    + split.
      * intros [= <-]. exists [], l. split; [done|]. split; [done|].
        intros q0 Hq0. by apply elem_of_nil in Hq0.
      * intros ([|q' pre] & post & Heq & Hp & Hpre); simplify_eq/=; [done|].
        rewrite Hpre in E; [done|]. by apply elem_of_cons; left.
    + rewrite IH. split.
      * intros (pre & post & -> & Hp & Hpre). exists (q :: pre), post.
        split; [done|]. split; [done|]. intros q' [->|Hq]%elem_of_cons; auto.
      * intros ([|q' pre] & post & Heq & Hp & Hpre); simplify_eq/=; [congruence|].
        exists pre, post. split; [done|]. split; [done|]. intros q Hq. apply Hpre.
        by apply elem_of_cons; right.
Qed.

(** Registering never changes which processor serves a type already served. *)
Lemma FindFor_Register r p q t : FindFor r t = Ok p → FindFor (Register r q) t = Ok p.
Proof.
  rewrite !FindFor_first. intros (pre & post & E & Hp & Hpre).
  exists pre, (post ++ [q]). unfold Register. cbn. rewrite E, <- app_assoc. auto.
Qed.

(** The world after running processors that all succeed, one after the other. *)
Inductive all_succeed (cancelled : bool) (jc : JobContext)
    : list Processor → World → ProcessResult → World → ProcessResult → Prop :=
| all_nil w r : all_succeed cancelled jc [] w r w r
| all_cons p ps w r r1 w1 w2 r2 :
    proc_Process p cancelled jc w = ((r1, None), w1) → res_Outcome r1 = "success" →
    all_succeed cancelled jc ps w1 r1 w2 r2 →
    all_succeed cancelled jc (p :: ps) w r w2 r2.

Lemma composite_prefix cancelled jc pre rest w r w' r' :
  all_succeed cancelled jc pre w r w' r' →
  composite_loop cancelled jc (pre ++ rest) r w = composite_loop cancelled jc rest r' w'.
Proof.
  induction 1 as [|p ps w r r1 w1 w2 r2 Hp Ho _ IH]; [done|].
  cbn [composite_loop app]. rewrite bindS_run, Hp. cbn.
  by rewrite bool_decide_false by (by intros []).
Qed.
