(* ===== verification/Orchestrator.v ===== *)
(** * Orchestrator ([internal/orchestrator])

    The table of job transitions and the three message handlers.  A message is
    the event decoded from its data, or [None] when [json.Unmarshal] rejects
    it; acknowledging it is an event of the world. *)

From stdpp Require Import base gmap strings list fin_maps relations.
From Stdlib Require Import ZArith Lia.
From S2P Require Import Prelude GoFloat Models Contracts JobQueue Fixtures JobQueueSpec Steps Processors.
Import JobsTable Queue.

Open Scope Z_scope.

(** ** Lifecycle *)

Definition ValidTransitions : list (string * list string) :=
  [("queued", ["leased"; "dead_letter"]);
   ("leased", ["running"; "failed"; "dead_letter"]);
   ("running", ["succeeded"; "failed"; "retry_scheduled"; "dead_letter"]);
   ("retry_scheduled", ["queued"]);
   ("failed", ["retry_scheduled"; "dead_letter"]);
   ("succeeded", []);
   ("dead_letter", [])].

Definition CanTransition (from to : string) : bool :=
  match List.find (fun e => bool_decide (e.1 = from)) ValidTransitions with
  | None => false
  | Some e => bool_decide (to ∈ e.2)
  end.

(** ** Handlers *)

Record Orchestrator := mkOrchestrator {
  orch_queue : Queue;
  orch_registry : Registry
}.

(** [defer msg.Ack()] *)
Definition ack (subject : string) : M unit := emit (EvAck subject).

Section handlers.
Context {U : UuidPkg}.

(** What the handler of [SubjectJobCreated] found out; it only logs it. *)
Inductive Routed : Type :=
| NotRouted
| RoutedToWorker.

Definition handleJobCreated (o : Orchestrator) (msg : option JobCreatedEvent) : M Routed :=
  let! out :=
    match msg with
    | None => retS NotRouted
    | Some evt =>
        match uuid_Parse (jce_JobID evt) with
        | Err _ => retS NotRouted
        | Ok jobID =>
            let! r := GetJob (orch_queue o) jobID in
            match r with
            | Err _ => retS NotRouted
            | Ok job =>
                if negb (CanTransition (job_status_string (job_Status job)) "leased")
                then retS NotRouted
                else match FindFor (orch_registry o) (job_JobType job) with
                     | Err _ => retS NotRouted
                     | Ok _ => retS RoutedToWorker
                     end
            end
        end
    end in
  let! _ := ack SubjectJobCreated in
  retS out.

Definition resync_params (sourceTaskID : uuid) (cmd : TaskResyncCommandEvent) : EnqueueParams :=
  mkEnqueueParams sourceTaskID (trc_JobType cmd) (trc_Priority cmd)
    (Some (trc_SourceTaskID cmd +:+ ":" +:+ trc_JobType cmd)) 3.

Definition handleTaskResync (o : Orchestrator) (msg : option TaskResyncCommandEvent) : M unit :=
  let! _ :=
    match msg with
    | None => retS tt
    | Some cmd =>
        match uuid_Parse (trc_SourceTaskID cmd) with
        | Err _ => retS tt
        | Ok sourceTaskID =>
            let! r := Enqueue (orch_queue o) (resync_params sourceTaskID cmd) in
            match r with
            | Err _ => retS tt
            | Ok None => retS tt
            | Ok (Some job) =>
                publish SubjectJobCreated
                  (NewJobCreatedEvent (uuid_String (job_ID job)) (trc_SourceTaskID cmd)
                     (trc_JobType cmd) (trc_Priority cmd) "")
            end
        end
    end in
  ack SubjectCommandTaskResync.

Definition handleJobRetry (o : Orchestrator) (msg : option JobRetryCommandEvent) : M unit :=
  let! _ :=
    match msg with
    | None => retS tt
    | Some cmd =>
        match uuid_Parse (jrc_JobID cmd) with
        | Err _ => retS tt
        | Ok jobID =>
            let! r := Retry (orch_queue o) jobID in
            match r with
            | Err _ => retS tt
            | Ok _ =>
                let! g := GetJob (orch_queue o) jobID in
                match g with
                | Err _ => retS tt
                | Ok job =>
                    publish SubjectJobCreated
                      (NewJobCreatedEvent (uuid_String (job_ID job))
                         (uuid_String (job_SourceTaskID job)) (job_JobType job)
                         (job_Priority job) (default "" (job_DedupeKey job)))
                end
            end
        end
    end in
  ack SubjectCommandJobRetry.

End handlers.

(** ** Theorems *)

Section theorems.
Context {U : UuidPkg}.

Lemma by_steps_ack s : by_steps any_op (ack s).
Proof. apply by_steps_frame; intros w; done. Qed.
Hint Resolve by_steps_ack : steps.

Lemma by_steps_publish s p : by_steps any_op (publish s p).
Proof. apply by_steps_frame; auto with frame. Qed.
Hint Resolve by_steps_publish : steps.

Lemma handleJobCreated_steps o msg : by_steps any_op (handleJobCreated o msg).
Proof. unfold handleJobCreated. solve_steps. Qed.
Lemma handleTaskResync_steps o msg : by_steps any_op (handleTaskResync o msg).
Proof. unfold handleTaskResync. solve_steps. Qed.
Lemma handleJobRetry_steps o msg : by_steps any_op (handleJobRetry o msg).
Proof. unfold handleJobRetry. solve_steps. Qed.

(** The orchestrator routes a job to a worker only from the one status that
    [Lease] takes jobs from, but as a description of the whole life cycle its
    table is incomplete: of the transitions the queue makes, it allows exactly
    queued to leased, leased to dead_letter and retry_scheduled to queued. *)
Theorem lifecycle_table (s : JobStatus) (max : Z) (x y : JobStatus * Z) :
  (CanTransition (job_status_string s) "leased" = true ↔ s = JobStatusQueued) ∧
  (life true max x y →
   CanTransition (job_status_string x.1) (job_status_string y.1) =
   bool_decide ((x.1, y.1) ∈ [(JobStatusQueued, JobStatusLeased);
                              (JobStatusLeased, JobStatusDeadLetter);
                              (JobStatusRetryScheduled, JobStatusQueued)])).
Proof. split; [by destruct s|]. by destruct 1. Qed.

(** The row a resync command creates is live and carries the command's key. *)
Lemma resync_key_live t id now st cmd :
  dedupe_conflict (<[id := new_row id now (resync_params st cmd)]> t) None
    (p_DedupeKey (resync_params st cmd)) = true.
Proof.
  cbn. apply existsb_exists. exists (new_row id now (resync_params st cmd)). split.
  - apply list_elem_of_In, elem_of_rows. exists id. apply lookup_insert_eq.
  - cbn. by rewrite bool_decide_true.
Qed.

(** A resync command whose key a live job already carries only costs an
    acknowledgement. *)
Lemma resync_dup o cmd st w :
  w_faults w = [] → uuid_Parse (trc_SourceTaskID cmd) = Ok st →
  IsKnownJobType (trc_JobType cmd) = true → in_int4 (trc_Priority cmd) = true →
  dedupe_conflict (processing_jobs (w_db w)) None
    (p_DedupeKey (resync_params st cmd)) = true →
  snd (handleTaskResync o (Some cmd) w) =
    w <| w_uuids := S (w_uuids w) |>
      <| w_events := w_events w ++ [EvAck SubjectCommandTaskResync] |>.
Proof.
  intros Hf Hs Hk Hp Hd. unfold handleTaskResync. rewrite Hs.
  rewrite !bindS_run, (Enqueue_dup _ _ w) by done. done.
Qed.

Definition resync_event (id : uuid) (cmd : TaskResyncCommandEvent) : Event :=
  EvPublish SubjectJobCreated
    (NewJobCreatedEvent (uuid_String id) (trc_SourceTaskID cmd) (trc_JobType cmd)
       (trc_Priority cmd) "").

(** A resync command for a key no live job carries. *)
Lemma resync_new o cmd st row w :
  w_faults w = [] → uuid_Parse (trc_SourceTaskID cmd) = Ok st →
  IsKnownJobType (trc_JobType cmd) = true → in_int4 (trc_Priority cmd) = true →
  source_tasks (w_db w) !! st = Some row →
  processing_jobs (w_db w) !! uuid_New (w_uuids w) = None →
  dedupe_conflict (processing_jobs (w_db w)) None (p_DedupeKey (resync_params st cmd)) = false →
  let id := uuid_New (w_uuids w) in
  let p := resync_params st cmd in
  snd (handleTaskResync o (Some cmd) w) =
    w <| w_db := (w_db w) <| processing_jobs :=
           <[id := new_row id (w_now w) p]> (processing_jobs (w_db w)) |> |>
      <| w_uuids := S (w_uuids w) |>
      <| w_events := w_events w ++ (if q_audit (orch_queue o) then [created_event id p] else [])
           ++ [resync_event id cmd; EvAck SubjectCommandTaskResync] |>.
Proof.
  intros Hf Hs Hk Hp Hst Hid Hd id p. unfold handleTaskResync. rewrite Hs, !bindS_run.
  rewrite (Enqueue_new (orch_queue o) p w Hf Hk Hp eq_refl row) by done.
  unfold audited. destruct (q_audit _); cbn -[bindS];
    rewrite publish_nofault by done; cbn; by rewrite <- ?app_assoc.
Qed.

(** A resync command creates work once.  On a database without a live job
    for the command's key it inserts one queued job for the parsed task and
    announces it on [SubjectJobCreated]; a second delivery of the same command
    changes no table and publishes nothing.  Both are acknowledged. *)
Theorem resync_once (o : Orchestrator) (cmd : TaskResyncCommandEvent) (st : uuid) (w : World) :
  w_faults w = [] → uuid_Parse (trc_SourceTaskID cmd) = Ok st →
  IsKnownJobType (trc_JobType cmd) = true → in_int4 (trc_Priority cmd) = true →
  is_Some (source_tasks (w_db w) !! st) →
  processing_jobs (w_db w) !! uuid_New (w_uuids w) = None →
  dedupe_conflict (processing_jobs (w_db w)) None (p_DedupeKey (resync_params st cmd)) = false →
  let id := uuid_New (w_uuids w) in
  let p := resync_params st cmd in
  let w1 := snd (handleTaskResync o (Some cmd) w) in
  let w2 := snd (handleTaskResync o (Some cmd) w1) in
  w_db w1 = (w_db w) <| processing_jobs :=
              <[id := new_row id (w_now w) p]> (processing_jobs (w_db w)) |> ∧
  w_events w1 = w_events w ++ (if q_audit (orch_queue o) then [created_event id p] else [])
    ++ [resync_event id cmd; EvAck SubjectCommandTaskResync] ∧
  w_db w2 = w_db w1 ∧
  w_events w2 = w_events w1 ++ [EvAck SubjectCommandTaskResync].
Proof.
  intros Hf Hs Hk Hp [row Hst] Hid Hd id p w1 w2. unfold w2.
  assert (E : w1 = _) by exact (resync_new o cmd st row w Hf Hs Hk Hp Hst Hid Hd).
  rewrite (resync_dup o cmd st w1); rewrite ?E; try done.
  apply (resync_key_live (processing_jobs (w_db w)) id (w_now w)).
Qed.
End theorems.

(** ** The theorems at work *)

Section witnesses.
#[local] Existing Instance demo_uuid.

Definition demo_orchestrator : Orchestrator := mkOrchestrator demo_queue NewRegistry.
Definition demo_resync : TaskResyncCommandEvent :=
  mkTaskResyncCommandEvent "v1" (uuid_String 7) "llm_rewrite" 1.

Lemma resync_once_witness :
  length (rows (processing_jobs (w_db
    (snd (handleTaskResync demo_orchestrator (Some demo_resync)
      (snd (handleTaskResync demo_orchestrator (Some demo_resync) demo_world))))))) = 1%nat.
Proof.
  destruct (resync_once demo_orchestrator demo_resync 7 demo_world) as (H1 & _ & H2 & _);
    [done..|].
  rewrite H2, H1. reflexivity.
Defined.

Lemma lifecycle_table_witness :
  CanTransition (job_status_string JobStatusLeased) (job_status_string JobStatusSucceeded) = false.
Proof.
  apply (lifecycle_table JobStatusQueued 3 (JobStatusLeased, 0) (JobStatusSucceeded, 0)).
  constructor.
Defined.

End witnesses.
