(* ===== verification/GoTime.v ===== *)
(** * Package [time]: instants, durations, calendar dates and texts, in UTC

    The proleptic Gregorian calendar by days since 1970-01-01.  A text of
    [Format(time.RFC3339)] determines the second it was made from
    ([rfc3339_inj]). *)

From stdpp Require Import base numbers list strings pretty.
From Stdlib Require Import ZArith Lia Ascii.
From S2P Require Import Prelude GoFloat Models GoStrings.

Open Scope Z_scope.

(** Go's zero time, 0001-01-01T00:00:00Z. *)
Definition zero_time : time := -62135596800 * Second.

(** [t.Sub(u)], saturating. *)
Definition time_Sub (t u : time) : Z := Z.max int64_min (Z.min int64_max (t - u)).

(** [Duration.Hours] and [Duration.Minutes] *)
Definition dur_in (unit d : Z) : float64 :=
  fadd (f_of_Z (Z.quot d unit)) (fdiv (f_of_Z (Z.rem d unit)) (f_of_Z unit)).
Definition Hour : Z := 60 * Minute.

(** ** Dates and texts *)

Definition OneDay : Z := 24 * Hour.

(** [time.Date(t.Year(), t.Month(), t.Day(), 0, 0, 0, 0, time.UTC)] *)
Definition midnight (t : time) : time := t - t mod OneDay.

(** ** Civil dates *)

(** Years are counted from March; 400 of them, an era, have 146097 days. *)
Definition year_of_era (doe : Z) : Z := (doe - doe / 1460 + doe / 36524 - doe / 146096) / 365.
Definition day_of_year (doe : Z) : Z :=
  let yoe := year_of_era doe in doe - (365 * yoe + yoe / 4 - yoe / 100).

Definition civil (days : Z) : Z * Z * Z :=
  let z := days + 719468 in
  let era := z / 146097 in
  let doe := z mod 146097 in
  let doy := day_of_year doe in
  let mp := (5 * doy + 2) / 153 in
  let d := doy - (153 * mp + 2) / 5 + 1 in
  let m := if bool_decide (mp < 10) then mp + 3 else mp - 9 in
  (year_of_era doe + era * 400 + (if bool_decide (m ≤ 2) then 1 else 0), m, d).

Definition days_of_civil (date : Z * Z * Z) : Z :=
  let '(y, m, d) := date in
  let y := y - (if bool_decide (m ≤ 2) then 1 else 0) in
  let era := y / 400 in
  let yoe := y mod 400 in
  let doy := (153 * (if bool_decide (2 < m) then m - 3 else m + 9) + 2) / 5 + d - 1 in
  era * 146097 + (yoe * 365 + yoe / 4 - yoe / 100 + doy) - 719468.

Definition weekdays : list string :=
  ["Sunday"; "Monday"; "Tuesday"; "Wednesday"; "Thursday"; "Friday"; "Saturday"].

(** [t.Weekday().String()]; day 0 was a Thursday. *)
Definition weekday (t : time) : string := nth (Z.to_nat ((t / OneDay + 4) mod 7)) weekdays "".

(** ** Texts *)

Definition digit (n : Z) : ascii := ascii_of_nat (48 + Z.to_nat n).

(** The last [k] decimal digits. *)
Fixpoint digits (k : nat) (n : Z) : string :=
  match k with
  | O => ""
  | S k => String (digit (n / 10 ^ Z.of_nat k mod 10)) (digits k n)
  end.

(** Years outside 0 to 9999 have a sign or more digits. *)
Definition year_text (y : Z) : string :=
  if bool_decide (0 ≤ y < 10000) then digits 4 y
  else if bool_decide (y < 0) then
    "-" +:+ (if bool_decide (- y < 10000) then digits 4 (- y) else pretty (- y))
  else pretty y.

Definition rfc3339 (t : time) : string :=
  let '(y, m, d) := civil (t / OneDay) in
  let sec := t mod OneDay / Second in
  year_text y +:+ ("-" +:+ digits 2 m +:+ "-" +:+ digits 2 d +:+ "T" +:+ digits 2 (sec / 3600) +:+ ":" +:+
    digits 2 (sec / 60 mod 60) +:+ ":" +:+ digits 2 (sec mod 60) +:+ "Z").

Example rfc3339_epoch : rfc3339 0 = "1970-01-01T00:00:00Z". Proof. by vm_compute. Qed.
Example rfc3339_zero : rfc3339 zero_time = "0001-01-01T00:00:00Z". Proof. by vm_compute. Qed.
Example rfc3339_leap : rfc3339 (1709251199 * Second + 5) = "2024-02-29T23:59:59Z". Proof. by vm_compute. Qed.
Example weekday_leap : weekday (1709251199 * Second) = "Thursday". Proof. by vm_compute. Qed.

Definition is_digit (c : ascii) : bool := bool_decide (48 ≤ nat_of_ascii c ≤ 57)%nat.
Definition digit_value (c : ascii) : Z := Z.of_nat (nat_of_ascii c) - 48.

(** [getnum]: one or two digits, or exactly two. *)
Definition getnum (fixed : bool) (s : string) : option (Z * string) :=
  match s with
  | String a rest =>
      if negb (is_digit a) then None
      else match rest with
           | String b rest' => if is_digit b then Some (10 * digit_value a + digit_value b, rest')
                               else if fixed then None else Some (digit_value a, rest)
           | EmptyString => if fixed then None else Some (digit_value a, rest)
           end
  | EmptyString => None
  end.

(** [time.Parse("15:04", s)]: the minute of the day. *)
Definition parse_hour_minute (s : string) : option Z :=
  match getnum false s with
  | Some (h, String ":" rest) =>
      match getnum true rest with
      | Some (m, "") => if bool_decide (h < 24) && bool_decide (m < 60) then Some (60 * h + m) else None
      | _ => None
      end
  | _ => None
  end.

Example parse_short : parse_hour_minute "9:30" = Some 570. Proof. done. Qed.
Example parse_midnight : parse_hour_minute "24:00" = None. Proof. done. Qed.
Example parse_digit : parse_hour_minute "09:5" = None. Proof. done. Qed.

Lemma parse_range s n : parse_hour_minute s = Some n → 0 ≤ n < 24 * 60.
Proof.
  assert (Hnum : ∀ fixed s h rest, getnum fixed s = Some (h, rest) → 0 ≤ h).
  { intros fixed x h rest H. unfold getnum, is_digit, digit_value in H.
    repeat (case_match; simplify_eq; try done); rewrite ?negb_false_iff in *;
      repeat match goal with E : bool_decide _ = true |- _ => apply bool_decide_eq_true in E end; lia. }
  unfold parse_hour_minute. destruct (getnum false s) as [[h rest]|] eqn:Eh; [|done].
  destruct rest as [|c rest]; [done|]. destruct c as [[] [] [] [] [] [] [] []]; try done.
  destruct (getnum true rest) as [[m rest']|] eqn:Em; [|done]. destruct rest' as [|]; [|done].
  apply Hnum in Eh, Em. destruct (bool_decide (h < 24)) eqn:E1, (bool_decide (m < 60)) eqn:E2; cbn; try done.
  apply bool_decide_eq_true in E1, E2. intros [= <-]. lia.
Qed.

(** ** The calendar *)

Lemma year_of_era_range doe : 0 ≤ doe < 146097 → 0 ≤ year_of_era doe < 400 ∧ 0 ≤ day_of_year doe ≤ 365.
Proof.
  intros H. unfold day_of_year, year_of_era. cbv zeta.
  set (a := doe / 1460). set (b := doe / 36524). set (c := doe / 146096).
  assert (Hb : b = 0 ∨ b = 1 ∨ b = 2 ∨ b = 3 ∨ b = 4) by (unfold b; Z.to_euclidean_division_equations; lia).
  assert (Hc : c = 0 ∨ c = 1) by (unfold c; Z.to_euclidean_division_equations; lia).
  unfold a, b, c in *. Z.to_euclidean_division_equations. lia.
Qed.

Lemma civil_fields days y m d : civil days = (y, m, d) → 1 ≤ m ≤ 12 ∧ 1 ≤ d ≤ 31.
Proof.
  unfold civil. cbv zeta. set (doe := (days + 719468) mod 146097).
  destruct (year_of_era_range doe) as [_ Hdoy]; [unfold doe; apply Z.mod_pos_bound; lia|].
  set (doy := day_of_year doe) in *. intros [= _ <- <-].
  assert (0 ≤ (5 * doy + 2) / 153 < 12) by (Z.to_euclidean_division_equations; lia).
  case_bool_decide; split; try lia; Z.to_euclidean_division_equations; lia.
Qed.

Lemma days_of_civil_of_days days : days_of_civil (civil days) = days.
Proof.
  unfold civil, days_of_civil. cbv zeta. set (z := days + 719468). set (doe := z mod 146097).
  destruct (year_of_era_range doe) as [Hy Hdoy]; [unfold doe; apply Z.mod_pos_bound; lia|].
  set (doy := day_of_year doe) in *. set (mp := (5 * doy + 2) / 153).
  assert (Hmp : 0 ≤ mp < 12) by (unfold mp; Z.to_euclidean_division_equations; lia).
  set (m := if bool_decide (mp < 10) then mp + 3 else mp - 9).
  assert (Hback : (if bool_decide (2 < m) then m - 3 else m + 9) = mp)
    by (unfold m; repeat case_bool_decide; lia).
  rewrite Hback. set (adj := if bool_decide (m ≤ 2) then 1 else 0).
  replace (year_of_era doe + z / 146097 * 400 + adj - adj) with (year_of_era doe + z / 146097 * 400) by lia.
  rewrite Z.div_add, Z.mod_add by lia. rewrite (Z.div_small (year_of_era doe)), (Z.mod_small (year_of_era doe)) by lia.
  assert (Hdoe : doe = 365 * year_of_era doe + year_of_era doe / 4 - year_of_era doe / 100 + doy).
  { unfold doy, day_of_year. cbv zeta. lia. }
  assert (Hz : z = z / 146097 * 146097 + doe) by (unfold doe; pose proof (Z.div_mod z 146097); lia).
  unfold z in *. lia.
Qed.

(** ** Texts determine instants *)

Lemma digit_inj a b : 0 ≤ a < 10 → 0 ≤ b < 10 → digit a = digit b → a = b.
Proof.
  intros Ha Hb E. apply (f_equal nat_of_ascii) in E. unfold digit in E.
  rewrite !nat_ascii_embedding in E by lia. lia.
Qed.

Lemma digits_length k n : String.length (digits k n) = k.
Proof. induction k as [|k IH]; cbn; [done|]. by rewrite IH. Qed.

Lemma digits_inj k a b : digits k a = digits k b → a mod 10 ^ Z.of_nat k = b mod 10 ^ Z.of_nat k.
Proof.
  induction k as [|k IH]; cbn [digits]; intros E; [by rewrite !Z.mod_1_r|]. injection E as Ed Er.
  apply digit_inj in Ed; [|apply Z.mod_pos_bound; lia|apply Z.mod_pos_bound; lia].
  replace (Z.of_nat (S k)) with (Z.of_nat k + 1) by lia. rewrite Z.pow_add_r, Z.pow_1_r by lia.
  assert (0 < 10 ^ Z.of_nat k) by (apply Z.pow_pos_nonneg; lia).
  rewrite !Z.rem_mul_r by lia. by rewrite Ed, (IH Er).
Qed.

Lemma string_app_inj (a a' b b' : string) :
  String.length a = String.length a' → a +:+ b = a' +:+ b' → a = a' ∧ b = b'.
Proof.
  revert a'. induction a as [|c a IH]; intros [|c' a'] Hl E; try done. cbn in E. injection E as -> E.
  destruct (IH a') as [-> ->]; [by injection Hl|done|done].
Qed.

(** A separator and a field of two digits. *)
Lemma field_inj (sep : string) x y (rest rest' : string) : 0 ≤ x < 100 → 0 ≤ y < 100 →
  sep +:+ (digits 2 x +:+ rest) = sep +:+ (digits 2 y +:+ rest') → x = y ∧ rest = rest'.
Proof.
  intros Hx Hy E. apply string_app_inj in E as [_ E]; [|done].
  apply string_app_inj in E as [E ->]; [|by rewrite !digits_length]. apply digits_inj in E.
  change (10 ^ Z.of_nat 2) with 100 in E. by rewrite !Z.mod_small in E by lia.
Qed.

(** *** Years of any length *)

Lemma pretty_long x : ∀ k s, (10 ^ N.of_nat k ≤ x)%N → (k + String.length s < String.length (pretty_N_go x s))%nat.
Proof.
  induction (N.lt_wf_0 x) as [x _ IH]. intros k s Hk.
  assert (0 < x)%N by (pose proof (N.pow_nonzero 10 (N.of_nat k)); lia).
  rewrite pretty_N_go_step by done. assert (x `div` 10 < x)%N by (by apply N.div_lt). destruct k as [|k].
  - destruct (decide (x `div` 10 = 0)%N) as [->|Hne]; [rewrite pretty_N_go_0; cbn [String.length]; lia|].
    assert (Hone : (10 ^ N.of_nat 0 ≤ x `div` 10)%N) by (apply (proj2 (N.le_succ_l 0 _)), N.neq_0_lt_0, Hne).
    apply (IH _ ltac:(done) 0%nat (String (pretty_N_char (x `mod` 10)) s)) in Hone. cbn [String.length] in Hone. lia.
  - rewrite Nat2N.inj_succ, N.pow_succ_r' in Hk.
    pose proof (IH (x `div` 10)%N ltac:(done) k (String (pretty_N_char (x `mod` 10)) s)) as Hl.
    cbn [String.length] in Hl. specialize (Hl ltac:(apply N.div_le_lower_bound; lia)). lia.
Qed.

(** The text of a year that is not negative. *)
Definition year_digits (n : Z) : string := if bool_decide (n < 10000) then digits 4 n else pretty n.

Lemma year_text_eq y : year_text y = if bool_decide (y < 0) then "-" +:+ year_digits (- y) else year_digits y.
Proof. unfold year_text, year_digits. repeat case_bool_decide; (done || lia). Qed.

Lemma pretty_pos (n : Z) : 0 < n → pretty n = pretty_N_go (Z.to_N n) "".
Proof. intros H. destruct n as [|n|n]; [lia| |lia]. cbn. unfold pretty_N. by destruct (decide _). Qed.

Lemma year_digits_dash n s : 0 ≤ n → year_digits n ≠ "-" +:+ s.
Proof.
  intros Hn. unfold year_digits. case_bool_decide.
  - cbn [digits]. pose proof (Z.mod_pos_bound (n / 10 ^ Z.of_nat 3) 10 ltac:(lia)) as Hd.
    set (v := n / 10 ^ Z.of_nat 3 mod 10) in *. intros E. injection E as E _.
    apply (f_equal nat_of_ascii) in E. unfold digit in E. rewrite nat_ascii_embedding in E by lia.
    change (nat_of_ascii "-") with 45%nat in E. lia.
  - rewrite pretty_pos by lia. by apply pretty_N_go_ne_dash.
Qed.

Lemma year_digits_inj n n' : 0 ≤ n → 0 ≤ n' → year_digits n = year_digits n' → n = n'.
Proof.
  assert (Hlong : ∀ m, 10000 ≤ m → (4 < String.length (pretty m))%nat).
  { intros m Hm. rewrite pretty_pos by lia.
    assert (Hl : (10 ^ N.of_nat 4 ≤ Z.to_N m)%N) by (change (10 ^ N.of_nat 4)%N with 10000%N; lia).
    apply (pretty_long _ 4 "") in Hl. cbn [String.length] in Hl. lia. }
  intros H H' E. unfold year_digits in E. repeat case_bool_decide.
  - apply digits_inj in E. change (10 ^ Z.of_nat 4) with 10000 in E. by rewrite !Z.mod_small in E by lia.
  - specialize (Hlong n' ltac:(lia)). rewrite <- E, digits_length in Hlong. lia.
  - specialize (Hlong n ltac:(lia)). rewrite E, digits_length in Hlong. lia.
  - by apply (inj pretty) in E.
Qed.

Lemma year_text_inj y y' : year_text y = year_text y' → y = y'.
Proof.
  rewrite !year_text_eq. repeat case_bool_decide; intros E.
  - apply string_app_inj in E as [_ E]; [|done]. apply year_digits_inj in E; lia.
  - symmetry in E. by apply year_digits_dash in E; [|lia].
  - by apply year_digits_dash in E; [|lia].
  - apply year_digits_inj in E; lia.
Qed.

Lemma append_length (a b : string) : String.length (a +:+ b) = (String.length a + String.length b)%nat.
Proof. induction a as [|c a IH]; [done|]. rewrite string_app_cons. cbn [String.length Nat.add]. by rewrite IH. Qed.

Lemma rfc3339_inj t t' : rfc3339 t = rfc3339 t' → t / Second = t' / Second.
Proof.
  unfold rfc3339. destruct (civil (t / OneDay)) as [[y m] d] eqn:Ec.
  destruct (civil (t' / OneDay)) as [[y' m'] d'] eqn:Ec'. intros E.
  destruct (civil_fields _ _ _ _ Ec) as [Hm Hd], (civil_fields _ _ _ _ Ec') as [Hm' Hd'].
  set (sec := t mod OneDay / Second) in *. set (sec' := t' mod OneDay / Second) in *.
  assert (Hsec : ∀ u, 0 ≤ u mod OneDay / Second < 86400).
  { intros u. change OneDay with (86400 * Second). pose proof (Z.mod_pos_bound u (86400 * Second)).
    split; [apply Z.div_pos; unfold Second in *; lia|apply Z.div_lt_upper_bound; unfold Second in *; lia]. }
  pose proof (Hsec t) as Hs. pose proof (Hsec t') as Hs'. fold sec in Hs. fold sec' in Hs'.
  apply string_app_inj in E as [E1 E].
  2:{ apply (f_equal String.length) in E. rewrite !append_length, !digits_length in E. cbn in E. lia. }
  apply year_text_inj in E1.
  assert (Hbounds : ∀ u, 0 ≤ u < 86400 → 0 ≤ u / 3600 < 100 ∧ 0 ≤ u / 60 mod 60 < 100 ∧ 0 ≤ u mod 60 < 100)
    by (intros u Hu; Z.to_euclidean_division_equations; lia).
  destruct (Hbounds sec Hs) as (B1 & B2 & B3), (Hbounds sec' Hs') as (B1' & B2' & B3').
  apply (field_inj "-") in E as [E2 E]; [|lia|lia]. apply (field_inj "-") in E as [E3 E]; [|lia|lia].
  apply (field_inj "T") in E as [E4 E]; [|lia|lia]. apply (field_inj ":") in E as [E5 E]; [|lia|lia].
  apply (field_inj ":") in E as [E6 _]; [|lia|lia].
  assert (Hday : t / OneDay = t' / OneDay).
  { rewrite <- (days_of_civil_of_days (t / OneDay)), <- (days_of_civil_of_days (t' / OneDay)), Ec, Ec'. congruence. }
  assert (Hs2 : sec = sec') by (clear - E4 E5 E6 Hs Hs'; Z.to_euclidean_division_equations; lia).
  assert (Hdiv : ∀ u, u / Second = u / OneDay * 86400 + u mod OneDay / Second).
  { intros u. rewrite (Z.div_mod u OneDay) at 1 by done. change OneDay with (86400 * Second) at 1.
    replace (86400 * Second * (u / OneDay)) with (u / OneDay * 86400 * Second) by lia. by rewrite Z.div_add_l. }
  rewrite (Hdiv t), (Hdiv t'). fold sec sec'. congruence.
Qed.

(** The text is that of the second. *)
Lemma rfc3339_second t t' : t / Second = t' / Second → rfc3339 t = rfc3339 t'.
Proof.
  intros E. unfold rfc3339. change OneDay with (Second * 86400).
  assert (Hmod : ∀ u, u mod (Second * 86400) / Second = u / Second mod 86400).
  { intros u. rewrite Z.rem_mul_r by done. rewrite Z.add_comm, Z.mul_comm, Z.div_add_l by done.
    rewrite (Z.div_small (u mod Second)) by (apply Z.mod_pos_bound; done). lia. }
  rewrite !Hmod, <- !Z.div_div by done. by rewrite E.
Qed.
