(* ===== verification/Source.v ===== *)
(** * Source synchronisation ([internal/source])

    Content hashing, change detection and the sync loop.  The connector is an
    interface of the program; JSON encoding and SHA-256 enter as the functions
    of [CodecPkg]. *)

From stdpp Require Import base gmap strings list fin_maps sorting relations pretty.
From Stdlib Require Import ZArith Lia Ascii.
From S2P Require Import Prelude GoFloat Models Contracts GoTime JobQueue Fixtures JobQueueSpec Steps.
Import JobsTable Queue.

Open Scope Z_scope.

(** ** Data *)

Record RawTask := mkRawTask {
  raw_ExternalID : string;
  raw_EntityType : string;
  raw_SourcePayload : string
}.

Record NormalizedTask := mkNormalizedTask {
  nt_ExternalID : string;
  nt_Title : string;
  nt_Description : string;
  nt_Status : string;
  nt_Priority : string;
  nt_DueDate : option time;
  nt_Labels : list string;
  nt_Metadata : gmap string string;
  nt_Hash : string
}.

#[export] Instance NormalizedTask_settable : Settable NormalizedTask := fun r =>
  mkNormalizedTask (nt_ExternalID r) (nt_Title r) (nt_Description r) (nt_Status r)
    (nt_Priority r) (nt_DueDate r) (nt_Labels r) (nt_Metadata r) (nt_Hash r).

Record hashableTask := mkHashableTask {
  h_ExternalID : string;
  h_Title : string;
  h_Description : string;
  h_Status : string;
  h_Priority : string;
  h_DueDate : string;
  h_Labels : list string;
  h_Metadata : gmap string string
}.

#[export] Instance hashableTask_eq_dec : EqDecision hashableTask.
Proof. solve_decision. Defined.

(** [json.Marshal] of a normalised task (it fails for due dates outside the
    years 0 to 9999) and the hexadecimal SHA-256 of the JSON of a hashable task. *)
Class CodecPkg := {
  marshal_task : NormalizedTask → res string;
  digest : hashableTask → string
}.

(** ** Hashing *)

(** [t.UTC().Format("2006-01-02T15:04:05Z")], which writes what RFC 3339 does. *)
Definition format_due (t : time) : string := rfc3339 t.

Example format_due_demo : format_due demo_now = "2023-11-14T22:13:20Z".
Proof. vm_compute. reflexivity. Qed.
Example format_due_leap : format_due (951782400 * Second - 1) = "2000-02-28T23:59:59Z".
Proof. vm_compute. reflexivity. Qed.

(** The due date as it is hashed. *)
Definition due_text (t : NormalizedTask) : string :=
  match nt_DueDate t with None => "" | Some d => format_due d end.

Section hashing.
Context {C : CodecPkg}.

(** [sort.Strings] orders bytewise, as [String.le] does. *)
Definition hashable (t : NormalizedTask) : hashableTask :=
  let labels := merge_sort String.le (nt_Labels t) in
  mkHashableTask (nt_ExternalID t) (nt_Title t) (nt_Description t) (nt_Status t)
    (nt_Priority t) (due_text t) labels (nt_Metadata t).

Definition ComputeHash (t : NormalizedTask) : string := digest (hashable t).

End hashing.

(** ** Change detection *)

Inductive ChangeType : Type := ChangeNew | ChangeChanged | ChangeUnchanged.

#[export] Instance ChangeType_eq_dec : EqDecision ChangeType.
Proof. solve_decision. Defined.

Definition change_string (c : ChangeType) : string :=
  match c with
  | ChangeNew => "new"
  | ChangeChanged => "changed"
  | ChangeUnchanged => "unchanged"
  end.

Record DetectionResult := mkDetectionResult {
  det_ChangeType : ChangeType;
  det_PreviousHash : string;
  det_NewHash : string;
  det_SourceTaskID : uuid;
  det_SnapshotID : option uuid     (* None: uuid.Nil *)
}.

(** The row of a task by its upstream identity, unique by
    [uq_source_tasks_connection_external]. *)
Definition is_task (connID : uuid) (ext : string) (r : SourceTask) : bool :=
  bool_decide (st_SourceConnectionID r = connID) && bool_decide (st_ExternalID r = ext).

Definition find_task (db : DB) (connID : uuid) (ext : string) : option SourceTask :=
  List.find (is_task connID ext) ((map_to_list (source_tasks db)).*2).

(** [INSERT INTO source_tasks ... ON CONFLICT ... DO UPDATE ... RETURNING id,
    content_hash]: the update leaves [content_hash] alone. *)
Definition upsert_task (row : SourceTask) (db : DB) : res ((uuid * string) * DB) :=
  match find_task db (st_SourceConnectionID row) (st_ExternalID row) with
  | Some old =>
      let new := old <| st_Title := st_Title row |> <| st_Description := st_Description row |>
                     <| st_RawPayload := st_RawPayload row |> <| st_Status := st_Status row |>
                     <| st_UpdatedAt := st_UpdatedAt row |> in
      Ok ((st_ID old, st_ContentHash old),
          db <| source_tasks := <[st_ID old := new]> (source_tasks db) |>)
  | None =>
      match source_tasks db !! st_ID row with
      | Some _ => Err unique_violation
      | None => Ok ((st_ID row, st_ContentHash row),
                    db <| source_tasks := <[st_ID row := row]> (source_tasks db) |>)
      end
  end.

Definition snapshots_of (db : DB) (taskID : uuid) : list SourceTaskSnapshot :=
  List.filter (fun s => bool_decide (sn_SourceTaskID s = taskID))
    ((map_to_list (source_task_snapshots db)).*2).

(** [SELECT COALESCE(MAX(snapshot_version), 0) ...] *)
Definition max_version (l : list SourceTaskSnapshot) : Z :=
  match sn_SnapshotVersion <$> l with
  | [] => 0
  | v :: vs => foldr Z.max v vs
  end.

Definition get_version (taskID : uuid) (db : DB) : res (Z * DB) :=
  Ok (max_version (snapshots_of db taskID), db).

Definition insert_snapshot (s : SourceTaskSnapshot) (db : DB) : res (unit * DB) :=
  let t := source_task_snapshots db in
  if negb (in_int4 (sn_SnapshotVersion s)) then Err out_of_range
  else match t !! sn_ID s, source_tasks db !! sn_SourceTaskID s with
  | Some _, _ => Err unique_violation
  | _, None => Err fk_violation
  | None, Some _ =>
      if existsb (fun x => bool_decide (sn_SnapshotVersion x = sn_SnapshotVersion s))
           (snapshots_of db (sn_SourceTaskID s))
      then Err unique_violation
      else Ok (tt, db <| source_task_snapshots := <[sn_ID s := s]> t |>)
  end.

Definition update_hash (hash : string) (now : time) (taskID : uuid) (db : DB)
    : res (unit * DB) :=
  match source_tasks db !! taskID with
  | None => Ok (tt, db)
  | Some r =>
      Ok (tt, db <| source_tasks :=
                <[taskID := r <| st_ContentHash := hash |> <| st_UpdatedAt := now |>]>
                  (source_tasks db) |>)
  end.

Section detect.
Context {U : UuidPkg} {C : CodecPkg}.

Definition task_row (newID connID : uuid) (task : NormalizedTask) (payload : string)
    (now : time) : SourceTask :=
  mkSourceTask newID connID (nt_ExternalID task) (nt_Title task)
    (if bool_decide (nt_Description task = "") then None else Some (nt_Description task))
    payload (nt_Hash task) (nt_Status task) (trunc_us now) (trunc_us now).

(** The rest of [Detect] for a new or changed task: a snapshot with the next
    version, then the stored hash. *)
Definition store_change (now : time) (task : NormalizedTask) (payload : string)
    (result : DetectionResult) : M (res DetectionResult) :=
  let taskID := det_SourceTaskID result in
  let! v := db_call (get_version taskID) in
  match v with
  | Err e => retS (Err (wrap "get snapshot version: " e))
  | Ok ver =>
      let snapshotVersion := wrap64 (ver + 1) in
      let! snapshotID := fresh_uuid in
      let! i := db_call (insert_snapshot
                  (mkSnapshot snapshotID taskID snapshotVersion (nt_Hash task) payload
                     (trunc_us now))) in
      match i with
      | Err e => retS (Err (wrap "insert snapshot: " e))
      | Ok _ =>
          let! u := db_call (update_hash (nt_Hash task) (trunc_us now) taskID) in
          match u with
          | Err e => retS (Err (wrap "update source task hash: " e))
          | Ok _ =>
              retS (Ok (mkDetectionResult (det_ChangeType result) (det_PreviousHash result)
                          (det_NewHash result) taskID (Some snapshotID)))
          end
      end
  end.

Definition Detect (connID : uuid) (task : NormalizedTask) : M (res DetectionResult) :=
  let! now := time_Now in
  match marshal_task task with
  | Err e => retS (Err (wrap "marshal normalized payload: " e))
  | Ok normalizedPayload =>
      let! newID := fresh_uuid in
      let! r := db_call (upsert_task (task_row newID connID task normalizedPayload now)) in
      match r with
      | Err e => retS (Err (wrap "upsert source task: " e))
      | Ok (taskID, storedHash) =>
          if bool_decide (taskID = newID) then
            store_change now task normalizedPayload
              (mkDetectionResult ChangeNew "" (nt_Hash task) taskID None)
          else if bool_decide (storedHash = nt_Hash task) then
            retS (Ok (mkDetectionResult ChangeUnchanged storedHash (nt_Hash task) taskID None))
          else
            store_change now task normalizedPayload
              (mkDetectionResult ChangeChanged storedHash (nt_Hash task) taskID None)
      end
  end.

(** ** The sync loop *)

Record SourceConnection := mkSourceConnection { conn_ID : uuid; conn_Name : string }.

Class Connector := {
  FetchTasks : SourceConnection → M (res (list RawTask));
  NormalizeTask : RawTask → res NormalizedTask
}.

Record Syncer := mkSyncer { sync_jobQueue : Queue; sync_metrics : bool }.

Definition sync_params (taskID : uuid) (dedupeKey : string) : EnqueueParams :=
  mkEnqueueParams taskID "llm_rewrite" 0 (Some dedupeKey) 3.

(** [fmt.Sprintf("%s:%s:%s", conn.ID, raw.ExternalID, detection.NewHash)] *)
Definition sync_key (conn : SourceConnection) (ext hash : string) : string :=
  uuid_String (conn_ID conn) +:+ ":" +:+ ext +:+ ":" +:+ hash.

(** The body of the loop over the fetched tasks. *)
Definition sync_task {K : Connector} (s : Syncer) (conn : SourceConnection) (raw : RawTask)
    : M unit :=
  match NormalizeTask raw with
  | Err _ => retS tt
  | Ok normalized0 =>
      let normalized := normalized0 <| nt_Hash := ComputeHash normalized0 |> in
      let! d := Detect (conn_ID conn) normalized in
      match d with
      | Err _ => retS tt
      | Ok detection =>
          if bool_decide (det_ChangeType detection = ChangeUnchanged) then retS tt
          else
            let! _ := metric_add (sync_metrics s) "tasks_changed" 1 in
            let dedupeKey := sync_key conn (raw_ExternalID raw) (det_NewHash detection) in
            let taskID := uuid_String (det_SourceTaskID detection) in
            let! e := Enqueue (sync_jobQueue s)
                        (sync_params (det_SourceTaskID detection) dedupeKey) in
            match e with
            | Err _ => retS tt
            | Ok None => retS tt
            | Ok (Some job) =>
                let! _ := metric_add (sync_metrics s) "jobs_created" 1 in
                let! now := time_Now in
                let! _ :=
                  if bool_decide (det_ChangeType detection = ChangeNew) then
                    publish SubjectSourceTaskDetected
                      (NewSourceTaskDetectedEvent taskID (uuid_String (conn_ID conn))
                         (raw_ExternalID raw) (change_string (det_ChangeType detection)) now)
                  else
                    publish SubjectSourceTaskChanged
                      (NewSourceTaskChangedEvent taskID (det_PreviousHash detection)
                         (det_NewHash detection) now) in
                publish SubjectJobCreated
                  (NewJobCreatedEvent (uuid_String (job_ID job)) taskID (job_JobType job)
                     (job_Priority job) dedupeKey)
            end
      end
  end.

Definition SyncConnection {K : Connector} (s : Syncer) (conn : SourceConnection)
    : M (res unit) :=
  let! r := FetchTasks conn in
  match r with
  | Err e => retS (Err (wrap ("fetch tasks from " +:+ conn_Name conn +:+ ": ") e))
  | Ok rawTasks =>
      let! _ := metric_add (sync_metrics s) "tasks_fetched" (Z.of_nat (length rawTasks)) in
      let! _ := forS (sync_task s conn) rawTasks in
      retS (Ok tt)
  end.

End detect.
