(* ===== verification/SourceProps.v ===== *)
(** * Theorems about source synchronisation *)

From stdpp Require Import base gmap strings list fin_maps sorting relations.
From Stdlib Require Import ZArith Lia.
From S2P Require Import Prelude GoFloat Models Contracts GoTime JobQueue.
From S2P Require Import Fixtures JobQueueSpec Steps Source.
Import JobsTable Queue.

Open Scope Z_scope.

(** ** The hash sees the canonical content *)

Lemma sort_labels_perm l l' : l ≡ₚ l' → merge_sort String.le l = merge_sort String.le l'.
Proof.
  intros Hp. apply (Sorted_unique String.le); [exact (Sorted_merge_sort String.le _)..|].
  by rewrite !merge_sort_Permutation.
Qed.

Section hash.
Context {C : CodecPkg}.

(** The second a due date falls in; [None] without a due date. *)
Definition due_second (t : NormalizedTask) : option Z := (fun d => d / Second) <$> nt_DueDate t.

(** Same content up to the order of the labels, the representation of the
    metadata map and the instant within the due second. *)
Record same_content (t t' : NormalizedTask) : Prop := {
  sc_ext : nt_ExternalID t = nt_ExternalID t';
  sc_title : nt_Title t = nt_Title t';
  sc_desc : nt_Description t = nt_Description t';
  sc_status : nt_Status t = nt_Status t';
  sc_prio : nt_Priority t = nt_Priority t';
  sc_due : due_second t = due_second t';
  sc_labels : nt_Labels t ≡ₚ nt_Labels t';
  sc_meta : nt_Metadata t = nt_Metadata t'
}.

(** The text determines the second, and whether there is a due date at all. *)
Lemma due_text_inj t t' : due_text t = due_text t' ↔ due_second t = due_second t'.
Proof.
  unfold due_text, due_second, format_due.
  assert (Hne : ∀ d, rfc3339 d ≠ "").
  { intros d. unfold rfc3339. destruct (civil _) as [[y m] dd]. intros E.
    apply (f_equal String.length) in E. rewrite !append_length in E. cbn in E. lia. }
  destruct (nt_DueDate t) as [d|], (nt_DueDate t') as [d'|]; cbn; split; intros E; try done.
  - f_equal. by apply rfc3339_inj.
  - injection E as E. by apply rfc3339_second.
  - by apply Hne in E.
  - symmetry in E. by apply Hne in E.
Qed.

(** C9: the content hash is canonical: the value that is hashed is the same for
    two tasks exactly when every field agrees, the labels only up to order and
    the due date only up to its second (a task without one differs from every
    task with one, in any year); so two tasks of the same content have the same
    hash, which depends on nothing else, in particular not on a hash already
    stored; and two tasks with the same hash have the same content or are a
    collision of the digest. *)
Theorem hash_canonical (t t' : NormalizedTask) :
  (hashable t = hashable t' ↔ same_content t t') ∧
  (same_content t t' → ComputeHash t = ComputeHash t') ∧
  (ComputeHash t = ComputeHash t' →
   same_content t t' ∨ hashable t ≠ hashable t' ∧ digest (hashable t) = digest (hashable t')).
Proof.
  assert (H : hashable t = hashable t' ↔ same_content t t').
  { unfold hashable. split.
    - intros [= H1 H2 H3 H4 H5 H6 H7 H8]. split; try done; [by apply due_text_inj|].
      by rewrite <- (merge_sort_Permutation String.le), H7, merge_sort_Permutation.
    - intros [-> -> -> -> -> HD HL ->]. apply due_text_inj in HD. by rewrite HD, (sort_labels_perm _ _ HL). }
  split; [done|]. split.
  - intros Hs. unfold ComputeHash. by rewrite (proj2 H Hs).
  - intros Hc. destruct (decide (hashable t = hashable t')) as [E|E]; [left; by apply H|by right].
Qed.
End hash.

(** ** The task and snapshot tables *)

(** Rows are keyed by their id and unique by upstream identity. *)
Record tasks_wf (db : DB) : Prop := {
  tw_id : ∀ i r, source_tasks db !! i = Some r → st_ID r = i;
  tw_uniq : ∀ i j r s, source_tasks db !! i = Some r → source_tasks db !! j = Some s →
            st_SourceConnectionID r = st_SourceConnectionID s →
            st_ExternalID r = st_ExternalID s → i = j
}.

Lemma is_task_spec c e r :
  is_task c e r = true ↔ st_SourceConnectionID r = c ∧ st_ExternalID r = e.
Proof. unfold is_task. by rewrite andb_true_iff, !bool_decide_eq_true. Qed.

Lemma elem_of_values {A} (m : gmap uuid A) x : x ∈ (map_to_list m).*2 ↔ ∃ i, m !! i = Some x.
Proof.
  rewrite list_elem_of_fmap. split.
  - intros ([i y] & -> & H). apply elem_of_map_to_list in H. by exists i.
  - intros [i H]. exists (i, x). split; [done|]. by apply elem_of_map_to_list.
Qed.

Lemma find_task_None db c e :
  find_task db c e = None ↔ ∀ i r, source_tasks db !! i = Some r → is_task c e r = false.
Proof.
  unfold find_task. split.
  - intros H i r Hi. eapply List.find_none; [exact H|]. apply list_elem_of_In, elem_of_values. eauto.
  - intros H. destruct (List.find _ _) as [r|] eqn:E; [|done].
    apply List.find_some in E as [Hin Ht]. apply list_elem_of_In, elem_of_values in Hin as [i Hi].
    by rewrite (H i r Hi) in Ht.
Qed.

Lemma find_task_Some db c e r :
  tasks_wf db →
  find_task db c e = Some r ↔ source_tasks db !! st_ID r = Some r ∧ is_task c e r = true.
Proof.
  intros [Hid Hu]. unfold find_task. split.
  - intros E. apply List.find_some in E as [Hin Ht].
    apply list_elem_of_In, elem_of_values in Hin as [i Hi]. by rewrite (Hid i r Hi).
  - intros [Hr Ht]. destruct (List.find _ _) as [s|] eqn:E.
    + apply List.find_some in E as [Hin Hs].
      apply list_elem_of_In, elem_of_values in Hin as [i Hi]. rewrite is_task_spec in *.
      assert (i = st_ID r) as -> by (apply (Hu _ _ s r); intuition congruence). congruence.
    + rewrite (List.find_none _ _ E r) in Ht; [done|].
      apply list_elem_of_In, elem_of_values. eauto.
Qed.

Lemma tasks_wf_insert db new :
  tasks_wf db →
  (∀ i r, source_tasks db !! i = Some r →
     is_task (st_SourceConnectionID new) (st_ExternalID new) r = true → i = st_ID new) →
  tasks_wf (db <| source_tasks := <[st_ID new := new]> (source_tasks db) |>).
Proof.
  intros [Hid Hu] Hn. split; cbn; intros *; rewrite !lookup_insert.
  - case_decide; [by intros [= <-]|apply Hid].
  - repeat case_decide; intros; simplify_eq; eauto.
    + symmetry. eapply Hn; [done|]. by apply is_task_spec.
    + eapply Hn; [done|]. by apply is_task_spec.
Qed.

Lemma max_version_ge l s : s ∈ l → sn_SnapshotVersion s ≤ max_version l.
Proof.
  assert (H : ∀ vs v x, x ∈ v :: vs → x ≤ foldr Z.max v vs).
  { induction vs as [|y vs IH]; intros v x; rewrite !elem_of_cons; cbn.
    - intros [->|Hx]; [done|by apply elem_of_nil in Hx].
    - intros [->|[->|Hx]]; [|lia|].
      + pose proof (IH v v (list_elem_of_here _ _)). lia.
      + pose proof (IH v x (list_elem_of_further _ _ _ Hx)). lia. }
  intros Hs. unfold max_version.
  assert (Hv : sn_SnapshotVersion s ∈ sn_SnapshotVersion <$> l) by (apply list_elem_of_fmap; eauto).
  destruct (sn_SnapshotVersion <$> l); [by apply elem_of_nil in Hv|by apply H].
Qed.

Lemma next_version_new l :
  existsb (fun x => bool_decide (sn_SnapshotVersion x = max_version l + 1)) l = false.
Proof.
  apply not_true_iff_false. rewrite existsb_exists. intros (x & Hx & He).
  apply bool_decide_eq_true in He. apply list_elem_of_In, max_version_ge in Hx. lia.
Qed.

Section detection.
Context {U : UuidPkg} {L : UuidLaws U} {C : CodecPkg}.

(** No id that [uuid.New] has yet to return is in use. *)
Definition fresh_ids (w : World) : Prop :=
  ∀ n, (w_uuids w ≤ n)%nat → source_tasks (w_db w) !! uuid_New n = None ∧
                              source_task_snapshots (w_db w) !! uuid_New n = None.

Lemma upsert_spec row db :
  tasks_wf db → source_tasks db !! st_ID row = None →
  ∃ new, upsert_task row db = Ok ((st_ID new, st_ContentHash new),
           db <| source_tasks := <[st_ID new := new]> (source_tasks db) |>) ∧
    is_task (st_SourceConnectionID row) (st_ExternalID row) new = true ∧
    tasks_wf (db <| source_tasks := <[st_ID new := new]> (source_tasks db) |>) ∧
    match find_task db (st_SourceConnectionID row) (st_ExternalID row) with
    | Some old => st_ID new = st_ID old ∧ st_ContentHash new = st_ContentHash old ∧
                  st_ID new ≠ st_ID row
    | None => new = row
    end.
Proof.
  intros Hwf Hrow. unfold upsert_task.
  destruct (find_task db _ _) as [old|] eqn:E.
  - apply find_task_Some in E as [Hold Ht]; [|done]. eexists (old <| st_Title := _ |>
      <| st_Description := _ |> <| st_RawPayload := _ |> <| st_Status := _ |> <| st_UpdatedAt := _ |>).
    cbn. split; [reflexivity|]. split; [done|]. split; [|split; [done|split; [done|congruence]]].
    apply (tasks_wf_insert db (mkSourceTask _ _ _ _ _ _ _ _ _ _)); [done|]. cbn.
    intros i r Hi Hr. rewrite is_task_spec in *. eapply (tw_uniq _ Hwf); [done..| |]; intuition congruence.
  - rewrite Hrow. exists row. split; [done|]. split; [by apply is_task_spec|].
    split; [|done]. apply tasks_wf_insert; [done|]. intros i r Hi Hr.
    rewrite find_task_None in E. by rewrite (E i r Hi) in Hr.
Qed.

Lemma store_change_nofault now task p result row w :
  w_faults w = [] → source_tasks (w_db w) !! det_SourceTaskID result = Some row →
  source_task_snapshots (w_db w) !! uuid_New (w_uuids w) = None →
  let id := det_SourceTaskID result in
  let v := max_version (snapshots_of (w_db w) id) + 1 in
  let sid := uuid_New (w_uuids w) in
  in_int4 v = true →
  store_change now task p result w =
    (Ok (mkDetectionResult (det_ChangeType result) (det_PreviousHash result)
           (det_NewHash result) id (Some sid)),
     w <| w_uuids := S (w_uuids w) |>
       <| w_db := (w_db w)
            <| source_tasks := <[id := row <| st_ContentHash := nt_Hash task |>
                                           <| st_UpdatedAt := trunc_us now |>]>
                                 (source_tasks (w_db w)) |>
            <| source_task_snapshots :=
                 <[sid := mkSnapshot sid id v (nt_Hash task) p (trunc_us now)]>
                   (source_task_snapshots (w_db w)) |> |>).
Proof using.
  intros Hf Hrow Hsid id v sid Hv. fold id in Hrow. unfold store_change.
  rewrite bindS_run, db_call_nofault by done. cbn -[bindS].
  fold id. rewrite wrap64_id by (apply bool_decide_eq_true in Hv; unfold in_int64, int64_min,
    int64_max; subst v; lia). fold v.
  rewrite (bindS_run fresh_uuid). cbn -[bindS]. rewrite bindS_run, db_call_nofault by done.
  unfold insert_snapshot. cbn -[bindS in_int4]. fold id. rewrite Hv, Hsid, Hrow.
  cbn -[bindS].
  replace (snapshots_of _ id) with (snapshots_of (w_db w) id) by done.
  subst v. rewrite next_version_new. cbn -[bindS].
  rewrite bindS_run, db_call_nofault by done. unfold update_hash. cbn. fold id. by rewrite Hrow.
Qed.

(** [Detect] up to its classification of the task. *)
Lemma Detect_upsert connID task p w :
  w_faults w = [] → marshal_task task = Ok p → tasks_wf (w_db w) →
  source_tasks (w_db w) !! uuid_New (w_uuids w) = None →
  ∃ new,
    let newID := uuid_New (w_uuids w) in
    let db1 := (w_db w) <| source_tasks := <[st_ID new := new]> (source_tasks (w_db w)) |> in
    let found ct prev := mkDetectionResult ct prev (nt_Hash task) (st_ID new) None in
    is_task connID (nt_ExternalID task) new = true ∧ tasks_wf db1 ∧
    match find_task (w_db w) connID (nt_ExternalID task) with
    | Some old => st_ID new = st_ID old ∧ st_ContentHash new = st_ContentHash old ∧
                  st_ID new ≠ newID
    | None => new = task_row newID connID task p (w_now w)
    end ∧
    Detect connID task w =
      (if bool_decide (st_ID new = newID) then store_change (w_now w) task p (found ChangeNew "")
       else if bool_decide (st_ContentHash new = nt_Hash task)
            then retS (Ok (found ChangeUnchanged (st_ContentHash new)))
            else store_change (w_now w) task p (found ChangeChanged (st_ContentHash new)))
        (w <| w_uuids := S (w_uuids w) |> <| w_db := db1 |>).
Proof using.
  intros Hf Hm Hwf Hnew.
  destruct (upsert_spec (task_row (uuid_New (w_uuids w)) connID task p (w_now w)) (w_db w))
    as (new & Hup & Ht & Hwf1 & Hcase); [done..|].
  exists new. cbn zeta. split; [done|]. split; [done|]. split; [done|].
  unfold Detect. rewrite (bindS_run time_Now). cbn [time_Now fst snd]. rewrite Hm.
  rewrite (bindS_run fresh_uuid). cbn [fresh_uuid fst snd].
  rewrite bindS_run, db_call_nofault by done. cbn [w_db set_field]. rewrite Hup. cbn -[bool_decide].
  by repeat case_bool_decide.
Qed.

Lemma Detect_faults connID task w : w_faults w = [] → w_faults (snd (Detect connID task w)) = [].
Proof using.
  intros Hf. apply (frame_nofault (Detect connID task)); [|done].
  unfold Detect, store_change. solve_nofault.
Qed.

(** What a fault-free detection needs: an encodable task, well-formed tables,
    unused ids and room for one more version. *)
Record detect_ready (task : NormalizedTask) (p : string) (w : World) : Prop := {
  dr_faults : w_faults w = [];
  dr_marshal : marshal_task task = Ok p;
  dr_wf : tasks_wf (w_db w);
  dr_fresh : fresh_ids w;
  dr_versions : ∀ id, in_int4 (max_version (snapshots_of (w_db w) id) + 1) = true
}.

Definition classified (connID : uuid) (task : NormalizedTask) (w : World)
    (ct : ChangeType) (prev : string) (id : uuid) : Prop :=
  match find_task (w_db w) connID (nt_ExternalID task) with
  | None => ct = ChangeNew ∧ prev = "" ∧ id = uuid_New (w_uuids w)
  | Some old =>
      id = st_ID old ∧ prev = st_ContentHash old ∧
      ct = if bool_decide (st_ContentHash old = nt_Hash task)
           then ChangeUnchanged else ChangeChanged
  end.

(** The row now stored for the task carries the detected hash. *)
Definition stored (connID : uuid) (task : NormalizedTask) (id : uuid) (db : DB) : Prop :=
  tasks_wf db ∧ ∃ row, find_task db connID (nt_ExternalID task) = Some row ∧
                       st_ID row = id ∧ st_ContentHash row = nt_Hash task.

Lemma stored_insert connID task db new h now :
  tasks_wf db → source_tasks db !! st_ID new = Some new →
  is_task connID (nt_ExternalID task) new = true → h = nt_Hash task →
  stored connID task (st_ID new)
    (db <| source_tasks := <[st_ID new := new <| st_ContentHash := h |> <| st_UpdatedAt := now |>]>
             (source_tasks db) |>).
Proof using.
  intros Hwf Hnew Ht ->.
  pose (new' := new <| st_ContentHash := nt_Hash task |> <| st_UpdatedAt := now |>).
  assert (Hwf' : tasks_wf (db <| source_tasks := <[st_ID new' := new']> (source_tasks db) |>)).
  { apply tasks_wf_insert; [done|]. intros i r Hi Hr. rewrite is_task_spec in *.
    eapply (tw_uniq _ Hwf); [done..| |]; destruct new; cbn in *; intuition congruence. }
  split; [done|]. exists new'. split; [|done].
  rewrite find_task_Some by done. split; [apply lookup_insert_eq|done].
Qed.

Lemma stored_ext connID task id db db' :
  source_tasks db' = source_tasks db → stored connID task id db → stored connID task id db'.
Proof using.
  intros E (Hwf & Hrow). split; [destruct Hwf; split; by rewrite E|].
  unfold find_task in *. by rewrite E.
Qed.

(** The outcome of a fault-free detection, whatever the case. *)
Definition detect_outcome (connID : uuid) (task : NormalizedTask) (p : string) (w : World)
    (out : res DetectionResult * World) : Prop :=
  let db := w_db w in
  ∃ ct prev id snap,
    fst out = Ok (mkDetectionResult ct prev (nt_Hash task) id snap) ∧
    classified connID task w ct prev id ∧
    stored connID task id (w_db (snd out)) ∧
    source_task_snapshots (w_db (snd out)) =
      match snap with
      | None => source_task_snapshots db
      | Some sid => <[sid := mkSnapshot sid id (max_version (snapshots_of db id) + 1)
                               (nt_Hash task) p (trunc_us (w_now w))]> (source_task_snapshots db)
      end ∧
    (snap = None ↔ ct = ChangeUnchanged) ∧
    processing_jobs (w_db (snd out)) = processing_jobs db.

Lemma store_change_outcome connID task p w new ct prev :
  detect_ready task p w →
  let w1 := w <| w_uuids := S (w_uuids w) |> <| w_db :=
    (w_db w) <| source_tasks := <[st_ID new := new]> (source_tasks (w_db w)) |> |> in
  tasks_wf (w_db w1) → is_task connID (nt_ExternalID task) new = true → ct ≠ ChangeUnchanged →
  classified connID task w ct prev (st_ID new) →
  detect_outcome connID task p w
    (store_change (w_now w) task p
       (mkDetectionResult ct prev (nt_Hash task) (st_ID new) None) w1).
Proof using.
  intros [Hf Hm Hwf Hfr Hv] w1 Hwf1 Ht Hct Hcl.
  assert (Hlk : source_tasks (w_db w1) !! st_ID new = Some new) by apply lookup_insert_eq.
  assert (Hsn : source_task_snapshots (w_db w1) !! uuid_New (w_uuids w1) = None)
    by (apply Hfr; cbn; lia).
  rewrite (store_change_nofault _ _ _ _ new) by (done || apply Hv).
  exists ct, prev, (st_ID new), (Some (uuid_New (S (w_uuids w)))).
  split; [done|]. split; [done|]. split; [|done].
  eapply stored_ext; [|by apply (stored_insert _ _ (w_db w1))]. done.
Qed.

Lemma Detect_nofault connID task p w :
  detect_ready task p w → detect_outcome connID task p w (Detect connID task w).
Proof using.
  intros Hr. pose proof Hr as [Hf Hm Hwf Hfr Hv].
  destruct (Detect_upsert connID task p w Hf Hm Hwf) as (new & Ht & Hwf1 & Hcase & ->);
    [by apply Hfr|]. cbn zeta in *.
  assert (Hcl := store_change_outcome connID task p w new). unfold classified in Hcl.
  destruct (find_task (w_db w) connID _) as [old|] eqn:E.
  - destruct Hcase as (Hid & Hh & Hne). rewrite bool_decide_false by done.
    destruct (decide (st_ContentHash new = nt_Hash task)) as [Hs|Hs];
      [rewrite (bool_decide_true _ Hs)|rewrite (bool_decide_false _ Hs)].
    + exists ChangeUnchanged, (st_ContentHash new), (st_ID new), None.
      split; [done|]. split; [unfold classified; rewrite E, <- Hh, bool_decide_true; auto|].
      split; [|done]. split; [done|]. exists new. split; [|done].
      apply find_task_Some; [done|]. split; [apply lookup_insert_eq|done].
    + apply Hcl; try done. rewrite Hid, <- Hh, bool_decide_false; auto.
  - rewrite Hcase. cbn [st_ID task_row]. rewrite bool_decide_true by done.
    rewrite Hcase in Hcl, Hwf1, Ht. apply (Hcl ChangeNew ""); done.
Qed.

(** Without faults, detection classifies and records exactly the change: a
    task not yet stored is new, one stored with another hash is changed (its
    old hash reported), one stored with this hash is unchanged.  Afterwards the
    task is stored with this hash.  A new or changed task gains one snapshot,
    numbered one above its highest version; an unchanged one gains none; no
    other snapshot and no job is touched. *)
Theorem detect_classifies (connID : uuid) (task : NormalizedTask) (p : string) (w : World) :
  detect_ready task p w → detect_outcome connID task p w (Detect connID task w).
Proof using. apply Detect_nofault. Qed.

(** A stored task is unchanged. *)
Lemma Detect_stored connID task p id w :
  w_faults w = [] → marshal_task task = Ok p → stored connID task id (w_db w) →
  source_tasks (w_db w) !! uuid_New (w_uuids w) = None →
  fst (Detect connID task w) =
    Ok (mkDetectionResult ChangeUnchanged (nt_Hash task) (nt_Hash task) id None) ∧
  source_task_snapshots (w_db (snd (Detect connID task w))) = source_task_snapshots (w_db w).
Proof using.
  intros Hf Hm (Hwf & row & Hrow & Hid & Hh) Hn.
  destruct (Detect_upsert connID task p w Hf Hm Hwf Hn) as (new & Ht & Hwf1 & Hcase & ->).
  cbn zeta in *. rewrite Hrow in Hcase. destruct Hcase as (Hid' & Hh' & Hne).
  rewrite bool_decide_false, Hh', Hh, bool_decide_true by done. cbn. by rewrite Hid', Hid.
Qed.
(** Ids stay unused: what a detection inserts it has drawn from [uuid.New]. *)
Lemma Detect_unused connID task p w n :
  detect_ready task p w → (w_uuids (snd (Detect connID task w)) ≤ n)%nat →
  source_tasks (w_db (snd (Detect connID task w))) !! uuid_New n = None.
Proof using L.
  intros [Hf Hm Hwf Hfr Hv].
  destruct (Detect_upsert connID task p w Hf Hm Hwf) as (new & Ht & Hwf1 & Hcase & ->);
    [by apply Hfr|]. cbn zeta in *.
  assert (Hne : (S (w_uuids w) ≤ n)%nat → st_ID new ≠ uuid_New n).
  { intros Hn Heq. destruct (find_task (w_db w) connID _) as [old|] eqn:E.
    - destruct Hcase as (Hid & _). apply find_task_Some in E as [Hold _]; [|done].
      rewrite <- Hid, Heq in Hold. destruct (Hfr n); [lia|congruence].
    - rewrite Hcase in Heq. cbn in Heq. apply uuid_New_inj in Heq. lia. }
  assert (Hn0 : (S (w_uuids w) ≤ n)%nat → source_tasks (w_db w) !! uuid_New n = None)
    by (intros; apply Hfr; lia).
  repeat case_bool_decide; cbn [snd retS w_uuids set_field].
  2:{ intros Hn. cbn. rewrite lookup_insert_ne by auto. auto. }
  all: match goal with |- context [store_change ?a ?b ?c ?d ?w1] =>
         rewrite (store_change_nofault a b c d new w1);
           [|done|apply lookup_insert_eq|apply Hfr; cbn; lia|apply Hv] end;
       cbn; intros Hn; rewrite !lookup_insert_ne by (apply Hne; lia); apply Hn0; lia.
Qed.

(** Detection is idempotent: seeing the same content again, at any later
    time, reports it as unchanged and writes no snapshot. *)
Theorem detect_idempotent (connID : uuid) (task : NormalizedTask) (p : string) (w : World)
    (later : time) :
  detect_ready task p w →
  let w1 := (snd (Detect connID task w)) <| w_now := later |> in
  let out := Detect connID task w1 in
  (∃ id, fst out =
     Ok (mkDetectionResult ChangeUnchanged (nt_Hash task) (nt_Hash task) id None)) ∧
  source_task_snapshots (w_db (snd out)) = source_task_snapshots (w_db w1).
Proof using L.
  intros Hr w1 out. pose proof (Detect_nofault connID task p w Hr)
    as (ct & prev & id & snap & _ & _ & Hst & _ & _ & _).
  destruct (Detect_stored connID task p id w1) as [H1 H2]; [|apply Hr|done| |eauto].
  - apply Detect_faults. apply Hr.
  - by apply (Detect_unused connID task p w).
Qed.

(** A failed detection can hide a task for good.  When the upsert of a task
    not seen before goes through and the next statement fails, [Detect] returns
    the error; but the row already carries the task's hash, so the following
    fault-free detection calls the task unchanged: no snapshot of it is ever
    taken and [SyncConnection] enqueues no job for it. *)
Theorem failed_detection_is_lost (connID : uuid) (task : NormalizedTask) (p : string)
    (w : World) (e : error) :
  detect_ready task p w → find_task (w_db w) connID (nt_ExternalID task) = None →
  let first := Detect connID task (w <| w_faults := [NoFault; FaultBefore e] |>) in
  let second := Detect connID task (snd first) in
  fst first = Err (wrap "get snapshot version: " e) ∧
  (∃ id, fst second =
     Ok (mkDetectionResult ChangeUnchanged (nt_Hash task) (nt_Hash task) id None)) ∧
  source_task_snapshots (w_db (snd second)) = source_task_snapshots (w_db w).
Proof using L.
  intros [Hf Hm Hwf Hfr Hv] Hnone first second.
  set (row := task_row (uuid_New (w_uuids w)) connID task p (w_now w)).
  destruct (upsert_spec row (w_db w)) as (new & Hup & Ht & Hwf1 & Hcase);
    [done|apply Hfr; lia|]. cbn in Hcase, Ht. rewrite Hnone in Hcase. subst new.
  assert (E : first = (Err (wrap "get snapshot version: " e),
    w <| w_faults := [] |> <| w_uuids := S (w_uuids w) |>
      <| w_db := (w_db w) <| source_tasks := <[st_ID row := row]> (source_tasks (w_db w)) |> |>)).
  { unfold first, Detect. rewrite (bindS_run time_Now). cbn [time_Now fst snd]. rewrite Hm.
    rewrite (bindS_run fresh_uuid). cbn [fresh_uuid fst snd].
    rewrite bindS_run, (db_call_nofault_cons _ [FaultBefore e]) by done.
    cbn [w_db set_field w_now w_uuids]. fold row. rewrite Hup.
    cbn -[bindS bool_decide]. rewrite bool_decide_true by done. unfold store_change.
    by rewrite bindS_run, (db_call_before _ e []). }
  unfold second. rewrite E. split; [done|].
  destruct (Detect_stored connID task p (st_ID row)
    (snd (Err (A := DetectionResult) (wrap "get snapshot version: " e), w <| w_faults := [] |>
       <| w_uuids := S (w_uuids w) |> <| w_db := (w_db w) <| source_tasks :=
            <[st_ID row := row]> (source_tasks (w_db w)) |> |>))) as [H1 H2]; try done.
  - split; [done|]. exists row. split; [|done]. apply find_task_Some; [done|].
    split; [apply lookup_insert_eq|done].
  - cbn. rewrite lookup_insert_ne; [apply Hfr; lia|]. intros ?%uuid_New_inj. lia.
  - split; [eauto|]. rewrite H2. done.
Qed.

End detection.

(** ** Snapshot versions *)

(** The versions of every task are 1, 2, ..., n, and fit the column. *)
Definition versions_ok (db : DB) : Prop :=
  ∀ id, ∃ n, (sn_SnapshotVersion <$> snapshots_of db id) ≡ₚ seqZ 1 n ∧ 0 ≤ n < 2 ^ 31.

Lemma list_filter_perm {A} (f : A → bool) l l' : l ≡ₚ l' → List.filter f l ≡ₚ List.filter f l'.
Proof.
  induction 1 as [|x l l' _ IH|x y l|l1 l2 l3 _ IH1 _ IH2]; cbn; [done| | |by etransitivity].
  - destruct (f x); [by constructor|done].
  - destruct (f x), (f y); try done. constructor.
Qed.

Lemma max_version_seq l n :
  (sn_SnapshotVersion <$> l) ≡ₚ seqZ 1 n → 0 ≤ n → max_version l = n.
Proof.
  intros Hp Hn.
  assert (Hall : ∀ v, v ∈ sn_SnapshotVersion <$> l ↔ 1 ≤ v ≤ n).
  { intros v. rewrite Hp, elem_of_seqZ. lia. }
  assert (Hmax : ∀ vs v, foldr Z.max v vs ∈ v :: vs).
  { induction vs as [|y vs IH]; intros v; cbn; [apply list_elem_of_here|].
    pose proof (IH v) as H. rewrite !elem_of_cons in *.
    destruct (Z.max_spec y (foldr Z.max v vs)) as [[_ ->]|[_ ->]]; tauto. }
  destruct (decide (n = 0)) as [->|Hne].
  - rewrite seqZ_nil, Permutation_nil_r in Hp by lia. unfold max_version. by rewrite Hp.
  - assert (Hin : max_version l ∈ sn_SnapshotVersion <$> l).
    { unfold max_version. destruct (_ <$> l) as [|v vs] eqn:E; [|apply Hmax].
      assert (Hx : n ∈ @nil Z) by (rewrite Hall; lia). by apply elem_of_nil in Hx. }
    assert (Hn' : n ∈ sn_SnapshotVersion <$> l) by (rewrite Hall; lia).
    apply list_elem_of_fmap in Hn' as (s & -> & Hs). apply max_version_ge in Hs.
    apply Hall in Hin. lia.
Qed.

Lemma snapshots_of_insert db s id :
  source_task_snapshots db !! sn_ID s = None →
  snapshots_of (db <| source_task_snapshots := <[sn_ID s := s]> (source_task_snapshots db) |>) id
  ≡ₚ (if bool_decide (sn_SourceTaskID s = id) then [s] else []) ++ snapshots_of db id.
Proof.
  intros Hn. unfold snapshots_of. cbn [source_task_snapshots set_field].
  rewrite (list_filter_perm _ _ ((sn_ID s, s) :: map_to_list (source_task_snapshots db)).*2).
  - cbn. by case_bool_decide.
  - by rewrite map_to_list_insert.
Qed.

Lemma insert_snapshot_versions db s n db' :
  versions_ok db → sn_SnapshotVersion s = n + 1 →
  n = max_version (snapshots_of db (sn_SourceTaskID s)) →
  insert_snapshot s db = Ok (tt, db') → versions_ok db'.
Proof.
  intros Hok Hv -> Hins. unfold insert_snapshot in Hins.
  destruct (in_int4 _) eqn:Hi4; cbn [negb] in Hins; [|done].
  destruct (_ !! sn_ID s) eqn:Hid; [done|]. destruct (source_tasks db !! _); [|done].
  destruct (existsb _ _); [done|]. injection Hins as <-. intros id.
  destruct (Hok id) as (n & Hp & Hn). pose proof (snapshots_of_insert db s id Hid) as Hq.
  case_bool_decide as Hs; [|exists n; by rewrite Hq]. subst id.
  rewrite (max_version_seq _ n Hp) in Hv by lia. exists (n + 1).
  rewrite Hq. cbn. rewrite Hp, Hv. split.
  - rewrite (seqZ_app 1 n 1) by lia. rewrite Permutation_cons_append, Z.add_comm. done.
  - apply bool_decide_eq_true in Hi4. lia.
Qed.

Section versions.
Context {U : UuidPkg} {C : CodecPkg}.

Lemma versions_ok_ext db db' :
  source_task_snapshots db' = source_task_snapshots db → versions_ok db → versions_ok db'.
Proof using. intros E H id. unfold snapshots_of in *. rewrite E. apply H. Qed.

(** Statements that leave the snapshots alone. *)
Lemma db_call_versions {A} (stmt : DB → res (A * DB)) w :
  (∀ db a db', stmt db = Ok (a, db') → source_task_snapshots db' = source_task_snapshots db) →
  versions_ok (w_db w) → versions_ok (w_db (snd (db_call stmt w))).
Proof using.
  intros Hs H. destruct (db_call_cases stmt w) as [(e & _ & ->)|(a & db' & Hst & -> & _)]; [done|].
  by eapply versions_ok_ext; [eapply Hs|].
Qed.

Lemma upsert_snapshots row db x db' :
  upsert_task row db = Ok (x, db') → source_task_snapshots db' = source_task_snapshots db.
Proof using. unfold upsert_task. intros H. by case_tests. Qed.

Lemma update_hash_snapshots h now id db x db' :
  update_hash h now id db = Ok (x, db') → source_task_snapshots db' = source_task_snapshots db.
Proof using. unfold update_hash. intros H. by case_tests. Qed.

Lemma store_change_versions now task p r w :
  versions_ok (w_db w) → versions_ok (w_db (snd (store_change now task p r w))).
Proof using.
  intros H. unfold store_change. rewrite bindS_run.
  assert (Hw : w_db (snd (db_call (get_version (det_SourceTaskID r)) w)) = w_db w ∧
    ∀ v, fst (db_call (get_version (det_SourceTaskID r)) w) = Ok v →
         v = max_version (snapshots_of (w_db w) (det_SourceTaskID r))).
  { destruct (db_call_cases (get_version (det_SourceTaskID r)) w)
      as [(e & -> & ->)|(a & db' & [= <- <-] & -> & [-> | [e ->]])]; split; try done; by intros v [= <-]. }
  destruct Hw as [Hdb Hv]. destruct (db_call (get_version _) w) as [[v|e] w1]; cbn [fst snd] in *;
    [|by cbn; rewrite Hdb]. specialize (Hv v eq_refl).
  rewrite (bindS_run fresh_uuid). cbn [fresh_uuid fst snd]. rewrite (bindS_run (db_call _)).
  set (s := mkSnapshot _ _ _ _ _ _).
  set (w2 := set_field w_uuids _ w1). assert (Hdb2 : w_db w2 = w_db w) by exact Hdb.
  assert (H2 : versions_ok (w_db (snd (db_call (insert_snapshot s) w2)))).
  { destruct (db_call_cases (insert_snapshot s) w2) as [(e & _ & ->)|([] & db' & Hst & -> & _)];
      rewrite Hdb2 in *; [done|]. eapply insert_snapshot_versions; [done| |reflexivity|exact Hst].
    cbn [sn_SnapshotVersion s sn_SourceTaskID]. rewrite Hv.
    destruct (H (det_SourceTaskID r)) as (n & Hp & Hn). rewrite (max_version_seq _ n Hp) by lia.
    apply wrap64_id. unfold in_int64, int64_min, int64_max. lia. }
  destruct (fst (db_call _ w2)); [|done]. rewrite (bindS_run (db_call _)).
  assert (H3 := db_call_versions (update_hash (nt_Hash task) (trunc_us now) (det_SourceTaskID r))
    _ (update_hash_snapshots _ _ _) H2). by case_match.
Qed.

(** Whatever faults the database produces, detection keeps the snapshot
    history of every task gapless: its versions are exactly 1 to n, each once. *)
Theorem snapshot_versions_gapless (connID : uuid) (task : NormalizedTask) (w : World) :
  versions_ok (w_db w) → versions_ok (w_db (snd (Detect connID task w))).
Proof using.
  intros H. unfold Detect. rewrite (bindS_run time_Now). cbn [time_Now fst snd].
  destruct (marshal_task task) as [p|]; [|done].
  rewrite (bindS_run fresh_uuid). cbn [fresh_uuid fst snd]. rewrite bindS_run.
  match goal with |- context [db_call ?s ?x] =>
    assert (H1 : versions_ok (w_db (snd (db_call s x))))
      by (apply db_call_versions; [intros *; apply upsert_snapshots|done]) end.
  destruct (fst (db_call _ _)) as [[id h]|]; [|done].
  repeat case_bool_decide; auto using store_change_versions.
Qed.
End versions.

(** ** The sync loop only takes queue steps *)

Section sync.
Context {U : UuidPkg} {C : CodecPkg} {K : Connector}.

Lemma insert_keeps {A} (m : gmap uuid A) i j x : is_Some (m !! i) → is_Some (<[j := x]> m !! i).
Proof using. intros Hi. rewrite lookup_insert. case_decide; eauto. Qed.

Lemma upsert_outside row : stmt_outside (upsert_task row).
Proof using.
  intros db a db'. unfold upsert_task. intros H. case_tests; split; try done; cbn;
    eauto using insert_keeps.
Qed.

Lemma insert_snapshot_outside s : stmt_outside (insert_snapshot s).
Proof using. intros db a db'. unfold insert_snapshot. intros H. by case_tests. Qed.

Lemma get_version_outside id : stmt_outside (get_version id).
Proof using. by intros db a db' [= <- <-]. Qed.

Lemma update_hash_outside h now id : stmt_outside (update_hash h now id).
Proof using.
  intros db a db'. unfold update_hash. intros H. case_tests; split; try done; cbn;
    eauto using insert_keeps.
Qed.

#[local] Hint Resolve upsert_outside insert_snapshot_outside get_version_outside
  update_hash_outside : steps.

Lemma Detect_steps allowed connID task : by_steps allowed (Detect connID task).
Proof using. unfold Detect, store_change. solve_steps. Qed.
#[local] Hint Resolve Detect_steps : steps.

Lemma sync_task_steps s conn raw : by_steps any_op (sync_task s conn raw).
Proof using. unfold sync_task. solve_steps. Qed.

Lemma SyncConnection_steps s conn :
  by_steps any_op (FetchTasks conn) → by_steps any_op (SyncConnection s conn).
Proof using.
  intros HF. unfold SyncConnection. apply by_steps_bind; [done|]. intros [raws|e]; [|solve_steps].
  apply by_steps_bind; [solve_steps|]. intros _. apply by_steps_bind; [|solve_steps].
  apply by_steps_forS, sync_task_steps.
Qed.
End sync.

(** ** The theorems at work *)

Section witnesses.
#[local] Existing Instance demo_uuid.

Definition demo_codec : CodecPkg := {|
  marshal_task t := Ok (nt_Title t);
  digest h := h_Title h +:+ String.concat "," (h_Labels h)
|}.
#[local] Existing Instance demo_codec.

Definition demo_normalized (labels : list string) (title : string) : NormalizedTask :=
  let t := mkNormalizedTask "ext-9" title "" "open" "" None labels ∅ "" in
  t <| nt_Hash := ComputeHash t |>.

Lemma demo_ready : detect_ready (demo_normalized ["a"] "T") "T" demo_world.
Proof.
  split; try done.
  - split; cbn; intros *; rewrite ?lookup_singleton_Some; intuition (subst; done).
  - intros n _. cbn. rewrite lookup_singleton_ne by lia. done.
Qed.

Lemma detect_classifies_witness :
  detect_outcome 1 (demo_normalized ["a"] "T") "T" demo_world
    (Detect 1 (demo_normalized ["a"] "T") demo_world).
Proof. apply detect_classifies. apply demo_ready. Defined.

Lemma detect_idempotent_witness :
  ∃ id, fst (Detect 1 (demo_normalized ["a"] "T")
               ((snd (Detect 1 (demo_normalized ["a"] "T") demo_world)) <| w_now := demo_now |>)) =
    Ok (mkDetectionResult ChangeUnchanged "Ta" "Ta" id None).
Proof.
  apply (detect_idempotent 1 (demo_normalized ["a"] "T") "T" demo_world demo_now).
  apply demo_ready.
Defined.

Lemma failed_detection_is_lost_witness :
  ∃ id, fst (Detect 1 (demo_normalized ["a"] "T")
               (snd (Detect 1 (demo_normalized ["a"] "T")
                  (demo_world <| w_faults := [NoFault; FaultBefore Canceled] |>)))) =
    Ok (mkDetectionResult ChangeUnchanged "Ta" "Ta" id None).
Proof.
  apply (failed_detection_is_lost 1 (demo_normalized ["a"] "T") "T" demo_world Canceled).
  - apply demo_ready.
  - reflexivity.
Defined.

Lemma snapshot_versions_gapless_witness :
  versions_ok (w_db (snd (Detect 1 (demo_normalized ["a"] "T")
    (demo_world <| w_faults := [NoFault; NoFault; FaultAfter Canceled] |>)))).
Proof.
  apply snapshot_versions_gapless. intros id. exists 0. split; [done|lia].
Defined.

End witnesses.
