(* ===== verification/Worker.v ===== *)
(** * Worker ([internal/worker])

    Polling under the concurrency limit, the lease heartbeat, and running one
    job end to end.  The worker knows the queue only through [Queuer], the
    interface of [internal/jobs/queue.go]; the rest of the system runs between
    two ticks of the heartbeat. *)

From stdpp Require Import base gmap strings list fin_maps relations.
From Stdlib Require Import ZArith Lia.
From S2P Require Import Prelude GoFloat GoJSON Models Contracts JobQueue Processors.
Import JobsTable Queue.

Open Scope Z_scope.

(** ** The queue as the worker sees it *)

Class Queuer := {
  Q_Lease : string → list string → M (res (option ProcessingJob));
  Q_Complete : uuid → string → M (res unit);
  Q_Fail : uuid → string → string → string → M (res (option FailResult));
  Q_RenewLease : uuid → string → M (res bool)
}.

(** [*jobs.Queue] implements it. *)
Definition Queue_Queuer {U : UuidPkg} (q : Queue) : Queuer := {|
  Q_Lease := Lease q;
  Q_Complete := Complete q;
  Q_Fail := Fail q;
  Q_RenewLease := RenewLease q
|}.

Record Worker := mkWorker {
  wk_registry : Registry;
  wk_audit : bool;
  wk_metrics : bool;
  wk_workerID : string
}.

Definition maxConcurrentJobs : nat := 4.
Definition heartbeatInterval : Z := 60 * Second.

(** ** SQL statements *)

Definition latest_snapshot (sourceTaskID : uuid) (db : DB) : res (string * DB) :=
  match select_best
          (fun a b => bool_decide (sn_SnapshotVersion b < sn_SnapshotVersion a))
          (List.filter (fun s => bool_decide (sn_SourceTaskID s = sourceTaskID))
             ((map_to_list (source_task_snapshots db)).*2)) with
  | Some s => Ok (sn_RawPayload s, db)
  | None => Err ErrNoRows
  end.

(** What a [JSONB] column accepts of a result payload. *)
Definition payload_valid (p : option ResultPayload) : bool :=
  match p with
  | Some (RawPayload s) => json_Valid s
  | _ => true
  end.

Definition insert_run (r : ProcessingRun) (db : DB) : res (unit * DB) :=
  if negb (in_int4 (run_AttemptNumber r)) then Err out_of_range
  else if negb (payload_valid (run_ResultPayload r)) then Err (Errorf "invalid input syntax for type json")
  else match processing_runs db !! run_ID r, processing_jobs db !! run_JobID r with
       | Some _, _ => Err unique_violation
       | None, None => Err fk_violation
       | None, Some _ => Ok (tt, db <| processing_runs := <[run_ID r := r]> (processing_runs db) |>)
       end.

Definition insert_proposal (p : SuggestionProposal) (db : DB) : res (unit * DB) :=
  if negb (json_Valid (pr_ProposalPayload p)) then Err (Errorf "invalid input syntax for type json")
  else match suggestion_proposals db !! pr_ID p, source_tasks db !! pr_SourceTaskID p,
             processing_jobs db !! pr_JobID p with
       | Some _, _, _ => Err unique_violation
       | None, Some _, Some _ =>
           Ok (tt, db <| suggestion_proposals := <[pr_ID p := p]> (suggestion_proposals db) |>)
       | None, _, _ => Err fk_violation
       end.

(** ** Operations *)

Section worker.
Context {U : UuidPkg} {Q : Queuer}.

(** [poll]: [sem] is the number of slots taken; a job that was leased keeps the
    slot and is handed to a goroutine. *)
Definition poll (w : Worker) (sem : nat) : M (nat * option ProcessingJob) :=
  if bool_decide (maxConcurrentJobs ≤ sem)%nat then retS (sem, None)
  else
    let! r := Q_Lease (wk_workerID w) KnownJobTypes in
    match r with
    | Err _ => retS (sem, None)
    | Ok None => retS (sem, None)
    | Ok (Some job) => retS (S sem, Some job)
    end.

Definition audit_if (w : Worker) (ev : Event) : M unit :=
  if wk_audit w then audit_RecordEvent ev else retS tt.

Definition failJob (w : Worker) (job : ProcessingJob) (errCode msg : string) : M (res unit) :=
  let! r := Q_Fail (job_ID job) (wk_workerID w) errCode msg in
  match r with
  | Err e => retS (Err (wrap ("fail job " +:+ uuid_String (job_ID job) +:+ ": ") e))
  | Ok result =>
      let! _ := metric_add (wk_metrics w) "jobs_failed" 1 in
      match result with
      | None => retS (Ok tt)
      | Some fr =>
          let! now := time_Now in
          let! _ :=
            match fr_NewStatus fr with
            | JobStatusRetryScheduled =>
                publish SubjectJobRetry
                  (NewJobRetryEvent (uuid_String (job_ID job)) (uuid_String (job_SourceTaskID job))
                     (job_JobType job) (fr_AttemptCount fr) (fr_MaxAttempts fr) errCode msg
                     (default now (fr_ScheduledAt fr)))
            | JobStatusDeadLetter =>
                publish SubjectJobDead
                  (NewJobDeadEvent (uuid_String (job_ID job)) (uuid_String (job_SourceTaskID job))
                     (job_JobType job) (fr_AttemptCount fr) (fr_MaxAttempts fr) errCode msg now)
            | _ => retS tt
            end in
          retS (Ok tt)
      end
  end.

Definition loadSnapshotPayload (sourceTaskID : uuid) : M (res string) :=
  let! r := db_call (latest_snapshot sourceTaskID) in
  match r with
  | Err e => retS (Err (wrap "load snapshot: " e))
  | Ok p => retS (Ok p)
  end.

(** One tick of the heartbeat goroutine. *)
Inductive Beat : Type :=
| BeatOn        (* renewed: wait for the next tick *)
| BeatStopped   (* a renewal error: the goroutine returns *)
| BeatLost.     (* ownership lost: the processor's context is cancelled *)

#[export] Instance Beat_eq_dec : EqDecision Beat.
Proof using. solve_decision. Defined.

Definition heartbeat_tick (w : Worker) (job : ProcessingJob) : M Beat :=
  let! r := Q_RenewLease (job_ID job) (wk_workerID w) in
  match r with
  | Err _ => retS BeatStopped
  | Ok false =>
      let! _ := metric_add (wk_metrics w) "lease_renewal_lost" 1 in
      let! _ := audit_if w (EvAudit "job" (job_ID job) "job.lease_lost" "worker" (wk_workerID w)
                  [("worker_id", JStr (wk_workerID w));
                   ("reason", JStr "lease_expired_and_reclaimed")]) in
      let! now := time_Now in
      let! _ := publish SubjectControlAlertLeaseLost
                  (NewLeaseLostAlertEvent (uuid_String (job_ID job)) (wk_workerID w) now) in
      retS BeatLost
  | Ok true =>
      let! _ := metric_add (wk_metrics w) "lease_renewals" 1 in
      retS BeatOn
  end.

(** The heartbeat while the processor runs: [between] is what happens in the
    system before each tick.  Returns whether the processor was cancelled. *)
Fixpoint heartbeat (w : Worker) (job : ProcessingJob) (between : list (M unit)) : M bool :=
  match between with
  | [] => retS false
  | e :: rest =>
      let! _ := e in
      let! b := heartbeat_tick w job in
      match b with
      | BeatOn => heartbeat w job rest
      | BeatStopped => let! _ := forS (fun e => e) rest in retS false
      | BeatLost => let! _ := forS (fun e => e) rest in retS true
      end
  end.

(** [result.OutputPayload], enriched when the processor named a model; encoding
    fails when an embedded message is not JSON. *)
Definition run_payload (job : ProcessingJob) (result : ProcessResult) : option ResultPayload :=
  if bool_decide (res_ModelProvider result ≠ "" ∨ res_ModelRole result ≠ "") then
    let ok p := match p with None => true | Some s => json_Valid s end in
    if ok (res_OutputPayload result) && ok (res_ExecutionTrace result) then
      Some (MetaPayload (mkRunMeta (res_ModelProvider result) (res_ModelRole result)
        (res_ModelName result) (res_TokensPrompt result) (res_TokensCompletion result)
        (res_TokensUsed result) (res_TimeoutUsed result) (res_UsedFallback result)
        (wrap64 (job_AttemptCount job + 1)) (res_OutputPayload result)
        (res_ExecutionTrace result)))
    else RawPayload <$> res_OutputPayload result
  else RawPayload <$> res_OutputPayload result.

(** [finishedAt.Sub(startedAt).Milliseconds()]; [Sub] saturates. *)
Definition duration_ms (startedAt finishedAt : time) : Z :=
  Z.quot (Z.max int64_min (Z.min int64_max (finishedAt - startedAt))) 1000000.

Definition run_outcome (result : ProcessResult) (err : option error) : string :=
  match err with Some _ => RunOutcomeError | None => res_Outcome result end.

Definition run_error (result : ProcessResult) (err : option error) : string :=
  match err with
  | Some e => if bool_decide (res_ErrorMessage result = "") then error_text e
              else res_ErrorMessage result
  | None => res_ErrorMessage result
  end.

Definition run_row (w : Worker) (job : ProcessingJob) (runID : uuid)
    (startedAt finishedAt : time) (result : ProcessResult) (err : option error) : ProcessingRun :=
  let errMsg := run_error result err in
  mkRun runID (job_ID job) (wrap64 (job_AttemptCount job + 1)) (run_outcome result err)
    (trunc_us startedAt) (Some (trunc_us finishedAt)) (Some (duration_ms startedAt finishedAt))
    (if bool_decide (errMsg = "") then None else Some errMsg)
    (run_payload job result) (Some (wk_workerID w)).

Definition proposal_row (job : ProcessingJob) (result : ProcessResult) (proposalID : uuid)
    (now : time) : SuggestionProposal :=
  mkProposal proposalID (job_SourceTaskID job) (job_ID job) (res_ProposalType result)
    ApprovalStatusPending (res_HumanReviewRequired result)
    (default "" (res_OutputPayload result)) None false None (trunc_us now) (trunc_us now).

(** [len(result.OutputPayload) > 0 && result.ProposalType != ""] *)
Definition has_proposal (result : ProcessResult) : bool :=
  bool_decide (default "" (res_OutputPayload result) ≠ "")
  && bool_decide (res_ProposalType result ≠ "").

Definition createProposal (w : Worker) (job : ProcessingJob) (result : ProcessResult) : M unit :=
  let! proposalID := fresh_uuid in
  let! now := time_Now in
  let! r := db_call (insert_proposal (proposal_row job result proposalID now)) in
  match r with
  | Err _ => retS tt
  | Ok _ =>
      let! _ := publish SubjectProposalCreated
                  (NewProposalCreatedEvent (uuid_String proposalID)
                     (uuid_String (job_SourceTaskID job)) (res_ProposalType result)
                     (res_HumanReviewRequired result)) in
      audit_if w (EvAudit "proposal" proposalID "proposal.created" "worker" (wk_workerID w)
        [("proposal_id", JStr (uuid_String proposalID));
         ("source_task_id", JStr (uuid_String (job_SourceTaskID job)));
         ("proposal_type", JStr (res_ProposalType result));
         ("job_id", JStr (uuid_String (job_ID job)))])
  end.

(** [RunJob] from the end of the processing phase on. *)
Definition finishRun (w : Worker) (job : ProcessingJob) (startedAt : time)
    (result : ProcessResult) (err : option error) : M (res unit) :=
  let! finishedAt := time_Now in
  let! runID := fresh_uuid in
  let! _ := db_call (insert_run (run_row w job runID startedAt finishedAt result err)) in
  if bool_decide (run_outcome result err ≠ RunOutcomeSuccess) then
    failJob w job "PROCESSING_FAILED" (run_error result err)
  else
    let! _ := if has_proposal result then createProposal w job result else retS tt in
    let! c := Q_Complete (job_ID job) (wk_workerID w) in
    match c with
    | Err e => retS (Err (wrap "complete job: " e))
    | Ok _ =>
        let! _ := metric_add (wk_metrics w) "jobs_succeeded" 1 in
        retS (Ok tt)
    end.

(** [RunJob], with what the system does between the heartbeats of this job. *)
Definition RunJob (w : Worker) (between : list (M unit)) (job : ProcessingJob) : M (res unit) :=
  match FindFor (wk_registry w) (job_JobType job) with
  | Err e => failJob w job "NO_PROCESSOR" (error_text e)
  | Ok proc =>
      let! sp := loadSnapshotPayload (job_SourceTaskID job) in
      let snapshotPayload := match sp with Ok p => p | Err _ => "{}" end in
      let jc := mkJobContext (job_ID job) (job_SourceTaskID job) (job_JobType job)
                  snapshotPayload [] in
      let! startedAt := time_Now in
      let! cancelled := heartbeat w job between in
      let! out := proc_Process proc cancelled jc in
      finishRun w job startedAt (fst out) (snd out)
  end.

End worker.
