(* ===== verification/WorkerProps.v ===== *)
(** * Theorems about the worker

    [QueuerLaws] is the contract of the queue with its worker; the worker's
    theorems rest on it alone, and [Queue_laws] shows that the job queue
    honours it. *)

From stdpp Require Import base gmap strings list fin_maps relations.
From Stdlib Require Import ZArith Lia.
From S2P Require Import Prelude GoFloat GoJSON Models Contracts JobQueue.
From S2P Require Import Fixtures JobQueueSpec JobQueueProps Steps Processors Worker.
Import JobsTable Queue.

Open Scope Z_scope.

(** ** The contract *)

Definition set_job (w : World) (j : uuid) (r : ProcessingJob) : DB :=
  (w_db w) <| processing_jobs := <[j := r]> (processing_jobs (w_db w)) |>.

(** Attempt counters and clocks for which the back-off of [Fail] is in range. *)
Definition fail_in_range (w : World) (r : ProcessingJob) : Prop :=
  0 ≤ job_AttemptCount r < 10000 ∧ w_now w ≤ 253402300799 * Second.

Class QueuerLaws (Q : Queuer) : Prop := {
  ql_fence : ∀ w j wid r, w_faults w = [] → processing_jobs (w_db w) !! j = Some r →
    owned_by wid r = false →
    Q_Complete j wid w = (Ok tt, w) ∧ (∀ c m, Q_Fail j wid c m w = (Ok None, w)) ∧
    Q_RenewLease j wid w = (Ok false, w);
  ql_complete : ∀ w j wid r, w_faults w = [] → processing_jobs (w_db w) !! j = Some r →
    owned_by wid r = true →
    ∃ w', Q_Complete j wid w = (Ok tt, w') ∧ w_faults w' = [] ∧ w_now w' = w_now w ∧
          w_db w' = set_job w j (complete_row (trunc_us (w_now w)) r);
  ql_renew : ∀ w j wid r, w_faults w = [] → processing_jobs (w_db w) !! j = Some r →
    owned_by wid r = true →
    ∃ w', Q_RenewLease j wid w = (Ok true, w') ∧ w_faults w' = [] ∧ w_now w' = w_now w ∧
          w_db w' = set_job w j
                      (renew_row (trunc_us (w_now w + leaseDuration)) (trunc_us (w_now w)) r);
  ql_fail : ∀ w j wid c m r, w_faults w = [] → processing_jobs (w_db w) !! j = Some r →
    owned_by wid r = true → fail_in_range w r →
    let sched := fail_sched (trunc_us (w_now w)) r in
    let r' := fail_row (trunc_us (w_now w)) c m sched r in
    ∃ w', Q_Fail j wid c m w =
            (Ok (Some (mkFailResult (job_Status r') (job_AttemptCount r + 1)
                         (job_MaxAttempts r) sched)), w') ∧
          w_faults w' = [] ∧ w_now w' = w_now w ∧ w_db w' = set_job w j r'
}.

(** The job queue honours the contract. *)
#[export] Instance Queue_laws {U : UuidPkg} (q : Queue) : QueuerLaws (Queue_Queuer q).
Proof.
  split; cbn; intros.
  - destruct (calls_fenced q j wid w r) with (c := "") (m := "") as (H2 & _ & H3); try done.
    split; [done|]. split; [|done]. intros c m. by apply (calls_fenced q j wid w r).
  - by apply Complete_held.
  - by apply RenewLease_held.
  - destruct H2. apply Fail_held; unfold backoff_limit; lia || done.
Qed.

Section theorems.
Context {U : UuidPkg} {Q : Queuer} {QL : QueuerLaws Q}.

(** ** Heartbeat *)

Lemma metric_add_facts b n k w :
  w_db (snd (metric_add b n k w)) = w_db w ∧ w_faults (snd (metric_add b n k w)) = w_faults w ∧
  w_now (snd (metric_add b n k w)) = w_now w.
Proof using. unfold metric_add. by destruct b. Qed.

(** [i] is leased to [wid] for a full lease from now. *)
Definition freshly_held (i : uuid) (wid : string) (w : World) : Prop :=
  w_faults w = [] ∧ db_wf (w_db w) ∧
  holds_lease (w_db w) i wid (trunc_us (w_now w + leaseDuration)).

Lemma tick_renews wk job w x :
  w_faults w = [] → db_wf (w_db w) → holds_lease (w_db w) (job_ID job) (wk_workerID wk) x →
  let out := heartbeat_tick wk job w in
  fst out = BeatOn ∧ freshly_held (job_ID job) (wk_workerID wk) (snd out) ∧
  w_now (snd out) = w_now w.
Proof using QL.
  intros Hf Hwf (r & y & Hj & Hs & Hw & _) out.
  assert (Ho : owned_by (wk_workerID wk) r = true) by (by apply owned_by_spec).
  destruct (ql_renew w _ _ r Hf Hj Ho) as (w' & E & Hf' & Hn' & Hdb').
  unfold out, heartbeat_tick. rewrite bindS_run, E. cbn [fst snd]. rewrite bindS_run.
  destruct (metric_add_facts (wk_metrics wk) "lease_renewals" 1 w') as (H1 & H2 & H3).
  cbn [fst snd retS]. unfold freshly_held. rewrite H1, H2, H3, Hn', Hdb'.
  split; [done|]. split; [|done]. split; [done|]. split.
  - eapply (op_sound_replace true); [done..|].
    eapply renew_row_ok; [by eapply wf_row|done].
  - eexists _, _. cbn. rewrite lookup_insert_eq. by repeat split.
Qed.

(** What may happen between two ticks while the lease is kept: calls of the
    queue other than this worker's own completion or failure of the job, no
    database fault, and no more time than a lease lasts. *)
Record keeps_lease {A} (i : uuid) (wid : string) (e : M A) : Prop := {
  kl_steps : by_steps (not_finishing i wid) e;
  kl_nofault : nofault_frame e;
  kl_time : ∀ w, w_now (snd (e w)) ≤ w_now w + leaseDuration
}.

Lemma keeps_lease_held {A} i wid (e : M A) w :
  keeps_lease i wid e → freshly_held i wid w →
  let w' := snd (e w) in
  w_faults w' = [] ∧ db_wf (w_db w') ∧ ∃ x, holds_lease (w_db w') i wid x.
Proof using.
  intros [Hs Hnf Ht] (Hf & Hwf & Hh) w'. split; [by apply Hnf|].
  split; [by eapply steps_wf; [apply Hs|]|]. eexists. eapply steps_hold; [apply Hs|done..|].
  apply trunc_us_mono, Ht.
Qed.

Lemma heartbeat_held wk job between w :
  Forall (keeps_lease (job_ID job) (wk_workerID wk)) between →
  freshly_held (job_ID job) (wk_workerID wk) w →
  fst (heartbeat wk job between w) = false ∧
  freshly_held (job_ID job) (wk_workerID wk) (snd (heartbeat wk job between w)).
Proof using QL.
  intros Hb. revert w. induction Hb as [|e rest He Hb IH]; intros w Hw; [done|].
  cbn [heartbeat]. rewrite bindS_run.
  destruct (keeps_lease_held _ _ e w He Hw) as (Hf & Hwf & x & Hx).
  destruct (tick_renews wk job _ x Hf Hwf Hx) as (Hbeat & Hh & _).
  rewrite bindS_run, Hbeat. by apply IH.
Qed.

(** The heartbeat keeps the lease.  Starting from a fresh lease, whatever
    other workers, the control loop and the API do between two ticks, as long
    as ticks are at most a lease apart and the database answers, every tick
    renews, the processor is never cancelled, and at the end the worker holds
    the job for another full lease. *)
Theorem heartbeat_keeps_lease (wk : Worker) (job : ProcessingJob) (between : list (M unit))
    (w : World) :
  Forall (keeps_lease (job_ID job) (wk_workerID wk)) between →
  freshly_held (job_ID job) (wk_workerID wk) w →
  fst (heartbeat wk job between w) = false ∧
  freshly_held (job_ID job) (wk_workerID wk) (snd (heartbeat wk job between w)).
Proof using QL. apply heartbeat_held. Qed.

(** ** Finishing a run *)

(** The run row is written first, and an error only logged. *)
Definition after_run (wk : Worker) (job : ProcessingJob) (startedAt : time)
    (result : ProcessResult) (err : option error) (w : World) : World :=
  snd (db_call (insert_run (run_row wk job (uuid_New (w_uuids w)) startedAt (w_now w) result err))
         (w <| w_uuids := S (w_uuids w) |>)).

(** What a statement on another table leaves alone. *)
Record beside_jobs (w w' : World) : Prop := {
  bj_faults : w_faults w' = w_faults w;
  bj_now : w_now w' = w_now w;
  bj_jobs : processing_jobs (w_db w') = processing_jobs (w_db w);
  bj_tasks : source_tasks (w_db w') = source_tasks (w_db w)
}.

Lemma after_run_beside wk job t result err w :
  w_faults w = [] → beside_jobs w (after_run wk job t result err w).
Proof using.
  intros Hf. unfold after_run. rewrite db_call_nofault by done. unfold insert_run.
  split; case_tests; done.
Qed.

Lemma after_run_recorded wk job t result err w :
  w_faults w = [] → in_int4 (wrap64 (job_AttemptCount job + 1)) = true →
  payload_valid (run_payload job result) = true →
  processing_runs (w_db w) !! uuid_New (w_uuids w) = None →
  is_Some (processing_jobs (w_db w) !! job_ID job) →
  w_db (after_run wk job t result err w) =
    (w_db w) <| processing_runs :=
      <[uuid_New (w_uuids w) := run_row wk job (uuid_New (w_uuids w)) t (w_now w) result err]>
        (processing_runs (w_db w)) |>.
Proof using.
  intros Hf Hi Hp Hr [r Hj]. unfold after_run. rewrite db_call_nofault by done.
  unfold insert_run. cbn -[in_int4 wrap64 payload_valid]. by rewrite Hi, Hp, Hr, Hj.
Qed.

Lemma createProposal_beside wk job result w :
  w_faults w = [] → beside_jobs w (snd (createProposal wk job result w)).
Proof using.
  intros Hf. unfold createProposal. rewrite (bindS_run fresh_uuid), (bindS_run time_Now).
  cbn [fresh_uuid time_Now fst snd]. rewrite bindS_run, db_call_nofault by done.
  unfold insert_proposal, audit_if, audit_RecordEvent, publish, next_fault, bindS.
  destruct w; cbn in *; subst. split; case_tests; done.
Qed.

Lemma finishRun_failure wk job t result err w :
  run_outcome result err ≠ RunOutcomeSuccess →
  finishRun wk job t result err w =
    failJob wk job "PROCESSING_FAILED" (run_error result err) (after_run wk job t result err w).
Proof using.
  intros Ho. unfold finishRun. rewrite (bindS_run time_Now), (bindS_run fresh_uuid).
  cbn [fresh_uuid time_Now fst snd]. rewrite bindS_run. by rewrite bool_decide_true.
Qed.

(** The world in which the job of a successful run is completed. *)
Definition before_complete (wk : Worker) (job : ProcessingJob) (t : time)
    (result : ProcessResult) (w : World) : World :=
  let w1 := after_run wk job t result None w in
  if has_proposal result then snd (createProposal wk job result w1) else w1.

Lemma before_complete_beside wk job t result w :
  w_faults w = [] → beside_jobs w (before_complete wk job t result w).
Proof using.
  intros Hf. destruct (after_run_beside wk job t result None w Hf) as [H1 H2 H3 H4].
  unfold before_complete. case_match; [|done].
  destruct (createProposal_beside wk job result (after_run wk job t result None w))
    as [G1 G2 G3 G4]; [congruence|]. split; congruence.
Qed.

Lemma finishRun_success wk job t result w :
  res_Outcome result = RunOutcomeSuccess →
  finishRun wk job t result None w =
    bindS (Q_Complete (job_ID job) (wk_workerID wk)) (fun c =>
      match c with
      | Err e => retS (Err (wrap "complete job: " e))
      | Ok _ => let! _ := metric_add (wk_metrics wk) "jobs_succeeded" 1 in retS (Ok tt)
      end) (before_complete wk job t result w).
Proof using.
  intros Ho. unfold finishRun. rewrite (bindS_run time_Now), (bindS_run fresh_uuid).
  cbn [fresh_uuid time_Now fst snd]. rewrite bindS_run, bool_decide_false by (by intros []).
  rewrite bindS_run. unfold before_complete. by destruct (has_proposal result).
Qed.

Lemma finishRun_held wk job t result w r :
  w_faults w = [] → processing_jobs (w_db w) !! job_ID job = Some r →
  owned_by (wk_workerID wk) r = true → res_Outcome result = RunOutcomeSuccess →
  let out := finishRun wk job t result None w in
  fst out = Ok tt ∧
  processing_jobs (w_db (snd out)) =
    <[job_ID job := complete_row (trunc_us (w_now w)) r]> (processing_jobs (w_db w)).
Proof using QL.
  intros Hf Hj Ho Hs out. unfold out. rewrite finishRun_success by done.
  destruct (before_complete_beside wk job t result w Hf) as [H1 H2 H3 H4].
  destruct (ql_complete (before_complete wk job t result w) (job_ID job) (wk_workerID wk) r)
    as (w' & E & _ & _ & Hdb); [congruence|congruence|done|].
  rewrite bindS_run, E. cbn [fst snd]. rewrite bindS_run. cbn [fst snd retS].
  destruct (metric_add_facts (wk_metrics wk) "jobs_succeeded" 1 w') as (G1 & _ & _).
  split; [done|]. by rewrite G1, Hdb, <- H2, <- H3.
Qed.

(** C7: a job runs to success.  A worker that starts from a fresh lease, whose
    heartbeats are at most a lease apart, and whose processor ends within a
    lease of the last one and reports success, leaves the job succeeded, no
    matter how other workers, the control loop and the API interleave. *)
Theorem run_job_succeeds (wk : Worker) (between : list (M unit)) (job : ProcessingJob)
    (proc : Processor) (w : World) :
  freshly_held (job_ID job) (wk_workerID wk) w →
  FindFor (wk_registry wk) (job_JobType job) = Ok proc →
  Forall (keeps_lease (job_ID job) (wk_workerID wk)) between →
  (∀ jc, keeps_lease (job_ID job) (wk_workerID wk) (proc_Process proc false jc)) →
  (∀ jc w', snd (fst (proc_Process proc false jc w')) = None ∧
            res_Outcome (fst (fst (proc_Process proc false jc w'))) = RunOutcomeSuccess) →
  let out := RunJob wk between job w in
  fst out = Ok tt ∧
  ∃ r, processing_jobs (w_db (snd out)) !! job_ID job = Some r ∧
       job_Status r = JobStatusSucceeded.
Proof using QL.
  intros Hh Hfind Hb Hp Hres out. unfold out, RunJob. rewrite Hfind.
  rewrite bindS_run. set (w1 := snd (loadSnapshotPayload _ w)).
  assert (Hh1 : freshly_held (job_ID job) (wk_workerID wk) w1).
  { destruct Hh as (Hf & Hwf & Hl). unfold w1, loadSnapshotPayload.
    rewrite bindS_run, db_call_nofault by done. unfold latest_snapshot.
    destruct (select_best _ _); cbn; by destruct w. }
  rewrite (bindS_run time_Now). cbn [time_Now fst snd]. rewrite bindS_run.
  destruct (heartbeat_held wk job between w1 Hb Hh1) as [-> Hh2].
  rewrite bindS_run. set (jc := mkJobContext _ _ _ _ _).
  set (w2 := snd (heartbeat wk job between w1)) in *.
  destruct (keeps_lease_held _ _ _ w2 (Hp jc) Hh2) as (Hf3 & _ & x & r & y & Hj & Hst & Hw & _).
  destruct (Hres jc w2) as [-> Hok].
  destruct (finishRun_held wk job (w_now w1) (fst (fst (proc_Process proc false jc w2)))
    (snd (proc_Process proc false jc w2)) r) as [E1 E2]; try done;
    [by apply owned_by_spec|].
  split; [done|]. rewrite E2, lookup_insert_eq. eauto.
Qed.

(** A run that fails is counted.  Finishing a failed run of a job the worker
    still holds writes the run, counts the attempt and schedules the retry or
    dead-letters the job, and tells the bus which of the two it was. *)
Theorem failed_run_is_counted (wk : Worker) (job : ProcessingJob) (t : time)
    (result : ProcessResult) (err : option error) (w : World) (r : ProcessingJob) :
  w_faults w = [] → processing_jobs (w_db w) !! job_ID job = Some r →
  held_by (wk_workerID wk) r → fail_in_range w r →
  run_outcome result err ≠ RunOutcomeSuccess →
  let msg := run_error result err in
  let now := trunc_us (w_now w) in
  let sched := fail_sched now r in
  let n := job_AttemptCount r + 1 in
  let id := uuid_String (job_ID job) in
  let task := uuid_String (job_SourceTaskID job) in
  let out := finishRun wk job t result err w in
  fst out = Ok tt ∧
  processing_jobs (w_db (snd out)) =
    <[job_ID job := fail_row now "PROCESSING_FAILED" msg sched r]> (processing_jobs (w_db w)) ∧
  last (w_events (snd out)) = Some
    match sched with
    | Some s => EvPublish SubjectJobRetry
        (NewJobRetryEvent id task (job_JobType job) n (job_MaxAttempts r)
           "PROCESSING_FAILED" msg s)
    | None => EvPublish SubjectJobDead
        (NewJobDeadEvent id task (job_JobType job) n (job_MaxAttempts r)
           "PROCESSING_FAILED" msg (w_now w))
    end.
Proof using QL.
  intros Hf Hj Ho Hr Hout msg now sched n id task out. unfold out. apply owned_by_spec in Ho.
  rewrite finishRun_failure by done.
  set (w1 := after_run wk job t result err w).
  destruct (after_run_beside wk job t result err w Hf) as [H1 H2 H3 H4]. fold w1 in H1, H2, H3, H4.
  destruct (ql_fail w1 (job_ID job) (wk_workerID wk) "PROCESSING_FAILED" msg r)
    as (w' & E & Hf' & Hn' & Hdb); [congruence|congruence|done|by unfold fail_in_range in *; rewrite H2|].
  unfold failJob. fold msg. rewrite bindS_run, E. cbn [fst snd].
  rewrite bindS_run. destruct (metric_add_facts (wk_metrics wk) "jobs_failed" 1 w') as (G1 & G2 & G3).
  set (w2 := snd (metric_add _ _ _ w')) in *.
  rewrite (bindS_run time_Now). cbn [time_Now fst snd]. rewrite bindS_run.
  assert (Hpub : ∀ sub p, w_db (snd (publish sub p w2)) = w_db w' ∧
    last (w_events (snd (publish sub p w2))) = Some (EvPublish sub p)).
  { intros sub p. rewrite publish_nofault by congruence. cbn [snd w_db w_events set_field].
    by rewrite last_snoc. }
  assert (Hjobs : processing_jobs (w_db w') =
    <[job_ID job := fail_row now "PROCESSING_FAILED" msg sched r]> (processing_jobs (w_db w))).
  { rewrite Hdb. unfold set_job. cbn [processing_jobs set_field]. by rewrite H2, H3. }
  assert (Hst : job_Status (fail_row (trunc_us (w_now w1)) "PROCESSING_FAILED" msg
    (fail_sched (trunc_us (w_now w1)) r) r) =
    match sched with Some _ => JobStatusRetryScheduled | None => JobStatusDeadLetter end).
  { unfold sched, fail_sched, fail_row, fail_dead. cbn [job_Status set_field].
    by case_bool_decide. }
  cbn [fr_NewStatus fr_ScheduledAt fr_AttemptCount fr_MaxAttempts]. rewrite Hst, H2.
  fold now sched. split; [done|].
  destruct sched as [s|]; cbn [default]; rewrite ?G3, ?Hn', ?H2;
    match goal with |- context [publish ?a ?b w2] => destruct (Hpub a b) as [P1 P2] end;
    cbn [snd retS]; rewrite P1, P2; done.
Qed.

Lemma after_run_ids wk job t result err w :
  w_faults w = [] →
  w_uuids (after_run wk job t result err w) = S (w_uuids w) ∧
  suggestion_proposals (w_db (after_run wk job t result err w)) = suggestion_proposals (w_db w).
Proof using.
  intros Hf. unfold after_run. rewrite db_call_nofault by done. unfold insert_run.
  case_tests; done.
Qed.

Lemma createProposal_new wk job result w st r :
  w_faults w = [] → json_Valid (default "" (res_OutputPayload result)) = true →
  source_tasks (w_db w) !! job_SourceTaskID job = Some st →
  processing_jobs (w_db w) !! job_ID job = Some r →
  let pid := uuid_New (w_uuids w) in
  suggestion_proposals (w_db w) !! pid = None →
  suggestion_proposals (w_db (snd (createProposal wk job result w))) =
    <[pid := proposal_row job result pid (w_now w)]> (suggestion_proposals (w_db w)).
Proof using.
  intros Hf Hv Hst Hj pid Hp. unfold createProposal.
  rewrite (bindS_run fresh_uuid), (bindS_run time_Now). cbn [fresh_uuid time_Now fst snd].
  rewrite bindS_run, db_call_nofault by done. unfold insert_proposal.
  cbn -[bindS json_Valid]. rewrite Hv. fold pid. rewrite Hp, Hst, Hj. cbn -[bindS].
  rewrite bind_tail_db, publish_db; [done|]. intros _. unfold audit_if. solve_frame.
Qed.

(** What the ownership fence does not cover.  A worker that lost its lease
    while processing cannot change the job any more, and is told that finishing
    went well; but a successful result still leaves a new pending proposal for
    the task, next to the one the job's new owner will write. *)
Theorem stale_worker_still_proposes (wk : Worker) (job : ProcessingJob) (t : time)
    (result : ProcessResult) (w : World) (r : ProcessingJob) :
  w_faults w = [] → processing_jobs (w_db w) !! job_ID job = Some r →
  ¬ held_by (wk_workerID wk) r →
  res_Outcome result = RunOutcomeSuccess → has_proposal result = true →
  json_Valid (default "" (res_OutputPayload result)) = true →
  is_Some (source_tasks (w_db w) !! job_SourceTaskID job) →
  let pid := uuid_New (S (w_uuids w)) in
  suggestion_proposals (w_db w) !! pid = None →
  let out := finishRun wk job t result None w in
  fst out = Ok tt ∧
  processing_jobs (w_db (snd out)) = processing_jobs (w_db w) ∧
  suggestion_proposals (w_db (snd out)) =
    <[pid := proposal_row job result pid (w_now w)]> (suggestion_proposals (w_db w)).
Proof using QL.
  intros Hf Hj Ho Hs Hp Hv [st Hst] pid Hpid out. apply owned_by_false in Ho. unfold out. rewrite finishRun_success by done.
  destruct (before_complete_beside wk job t result w Hf) as [H1 H2 H3 H4].
  destruct (ql_fence (before_complete wk job t result w) (job_ID job) (wk_workerID wk) r)
    as (E & _); [congruence|congruence|done|].
  rewrite bindS_run, E. cbn [fst snd]. rewrite bindS_run. cbn [fst snd retS].
  destruct (metric_add_facts (wk_metrics wk) "jobs_succeeded" 1
    (before_complete wk job t result w)) as (G1 & _ & _).
  split; [done|]. rewrite G1. split; [done|].
  destruct (after_run_beside wk job t result None w Hf) as [A1 A2 A3 A4].
  destruct (after_run_ids wk job t result None w Hf) as [A5 A6].
  unfold before_complete. rewrite Hp.
  rewrite (createProposal_new _ _ _ _ st r); rewrite ?A5, ?A6, ?A2; try done; congruence.
Qed.

(** ** Concurrency *)

(** The worker's slots, the jobs its goroutines are running, and the world. *)
Record WorkerState := mkWorkerState {
  ws_sem : nat;
  ws_running : list ProcessingJob;
  ws_world : World
}.

Inductive wstep (wk : Worker) : WorkerState → WorkerState → Prop :=
| wstep_poll sem running w sem' job w' :
    poll wk sem w = ((sem', job), w') →
    wstep wk (mkWorkerState sem running w)
      (mkWorkerState sem' (match job with Some j => j :: running | None => running end) w')
| wstep_finish sem pre j post w w' :
    (* the goroutine of [j] returns: [<-w.sem] *)
    wstep wk (mkWorkerState sem (pre ++ j :: post) w) (mkWorkerState (pred sem) (pre ++ post) w')
| wstep_env sem running w w' :
    wstep wk (mkWorkerState sem running w) (mkWorkerState sem running w').

(** Bounded concurrency.  However polling and finishing interleave, the slots
    taken are exactly the jobs in progress, there are never more than
    [maxConcurrentJobs] of them, and a poll at the limit leaves the world alone:
    no job is leased that cannot be started. *)
Theorem bounded_concurrency (wk : Worker) (w0 : World) (s : WorkerState) :
  rtc (wstep wk) (mkWorkerState 0 [] w0) s →
  ws_sem s = length (ws_running s) ∧ (length (ws_running s) ≤ maxConcurrentJobs)%nat ∧
  (ws_sem s = maxConcurrentJobs →
   ∀ w, poll wk (ws_sem s) w = ((ws_sem s, None), w)).
Proof using.
  intros Hs.
  assert (Hinv : ws_sem s = length (ws_running s) ∧ (ws_sem s ≤ maxConcurrentJobs)%nat).
  { assert (H0 : ws_sem (mkWorkerState 0 [] w0) = length (ws_running (mkWorkerState 0 [] w0)) ∧
      (ws_sem (mkWorkerState 0 [] w0) ≤ maxConcurrentJobs)%nat)
      by (cbn; unfold maxConcurrentJobs; lia).
    induction Hs as [|s1 s2 s3 H12 _ IH]; [done|]. apply IH. revert H0. clear IH.
    destruct H12 as [sem running w sem' job w' Hp| |]; cbn; [|rewrite !length_app; cbn; lia|done].
    intros [-> Hle]. revert Hp. unfold poll. case_bool_decide as Hm; [by intros [= <- <- _]|].
    rewrite bindS_run. destruct (fst _) as [[j|]|]; intros [= <- <- _]; cbn; lia. }
  destruct Hinv as [H1 H2]. split; [done|]. split; [lia|].
  intros Hm w. unfold poll. by rewrite bool_decide_true by lia.
Qed.

End theorems.

(** ** The worker only takes queue steps *)

Section steps.
Context {U : UuidPkg} (q : Queue).
#[local] Instance the_queue : Queuer := Queue_Queuer q.

Lemma insert_run_outside r : stmt_outside (insert_run r).
Proof using. intros db a db'. unfold insert_run. intros H. by case_tests. Qed.
Lemma insert_proposal_outside p : stmt_outside (insert_proposal p).
Proof using. intros db a db'. unfold insert_proposal. intros H. by case_tests. Qed.
Lemma latest_snapshot_outside id : stmt_outside (latest_snapshot id).
Proof using. intros db a db'. unfold latest_snapshot. intros H. by case_tests. Qed.
#[local] Hint Resolve insert_run_outside insert_proposal_outside latest_snapshot_outside : steps.

Lemma failJob_steps wk job c m : by_steps any_op (failJob wk job c m).
Proof using. unfold failJob. cbn [Q_Fail the_queue Queue_Queuer]. solve_steps. Qed.

Lemma tick_steps wk job : by_steps any_op (heartbeat_tick wk job).
Proof using.
  unfold heartbeat_tick, audit_if. cbn [Q_RenewLease the_queue Queue_Queuer]. solve_steps.
Qed.

Lemma heartbeat_steps wk job between :
  Forall (by_steps any_op) between → by_steps any_op (heartbeat wk job between).
Proof using.
  induction 1 as [|e rest He Hr IH]; [apply by_steps_ret|]. cbn [heartbeat].
  apply by_steps_bind; [done|]. intros _. apply by_steps_bind; [apply tick_steps|].
  assert (Hrest : by_steps any_op (forS (fun e : M unit => e) rest)).
  { clear IH. induction Hr; [apply by_steps_ret|]. by apply by_steps_bind. }
  intros []; [done|..]; (apply by_steps_bind; [done|intros; apply by_steps_ret]).
Qed.

Lemma finishRun_steps wk job t result err : by_steps any_op (finishRun wk job t result err).
Proof using.
  unfold finishRun, createProposal, audit_if. cbn [Q_Complete the_queue Queue_Queuer].
  pose proof failJob_steps. solve_steps.
Qed.

Lemma RunJob_steps wk between job :
  Forall (by_steps any_op) between →
  (∀ p c jc, p ∈ reg_processors (wk_registry wk) → by_steps any_op (proc_Process p c jc)) →
  by_steps any_op (RunJob wk between job).
Proof using.
  intros Hb Hp. unfold RunJob. destruct (FindFor _ _) as [p|] eqn:Hf; [|apply failJob_steps].
  apply by_steps_bind; [unfold loadSnapshotPayload; solve_steps|]. intros sp.
  apply by_steps_bind; [solve_steps|]. intros t.
  apply by_steps_bind; [by apply heartbeat_steps|]. intros c.
  apply by_steps_bind; [|intros; apply finishRun_steps]. apply Hp.
  unfold FindFor in Hf. destruct (List.find _ _) eqn:E; [|done]. injection Hf as ->.
  apply List.find_some in E as [? _]. by apply list_elem_of_In.
Qed.

Lemma poll_steps wk sem : by_steps any_op (poll wk sem).
Proof using. unfold poll. cbn [Q_Lease the_queue Queue_Queuer]. solve_steps. Qed.
End steps.

(** ** The theorems at work *)

Section witnesses.
#[local] Existing Instance demo_uuid.
#[local] Instance demo_queuer : Queuer := Queue_Queuer demo_queue.

Definition demo_result : ProcessResult :=
  zero_result <| res_Outcome := "success" |> <| res_ProposalType := "rewrite" |>
    <| res_OutputPayload := Some "{}" |>.
Definition demo_processor : Processor :=
  mkProcessor "demo" "v1" (fun t => bool_decide (t = "llm_rewrite"))
    (fun _ _ => retS (demo_result, None)).
Definition demo_worker : Worker :=
  mkWorker (Register NewRegistry demo_processor) true true "A".

(** A minute passes while the control loop reclaims what has expired. *)
Definition demo_minute : M unit :=
  let! _ := (fun w => (tt, w <| w_now := w_now w + heartbeatInterval |>)) in
  let! _ := ReclaimExpiredLeases (mkQueue false) in
  retS tt.

Lemma demo_minute_keeps : keeps_lease 100 "A" demo_minute.
Proof.
  assert (Hn : ∀ w, w_now (snd (demo_minute w)) = w_now w + heartbeatInterval).
  { intros w. unfold demo_minute. rewrite bindS_run. cbn [fst snd]. rewrite bindS_run.
    cbn [snd retS]. apply (run_op_now (mkQueue false) OpReclaim). }
  split.
  - unfold demo_minute. apply by_steps_bind.
    + intros w. apply rtc_once, step_outside. split; [done|]. split; [done|].
      unfold heartbeatInterval, Second. cbn. lia.
    + intros _. apply by_steps_bind; [|intros; apply by_steps_ret].
      apply by_steps_Reclaim. by split.
  - intros w Hf. unfold demo_minute. rewrite bindS_run. cbn [fst snd]. rewrite bindS_run.
    cbn [snd retS]. unfold ReclaimExpiredLeases. rewrite (bindS_run time_Now).
    cbn [time_Now fst snd]. rewrite bindS_run, db_call_nofault by done. cbn -[forS].
    rewrite bindS_run. cbn [snd retS].
    match goal with |- w_faults (snd (forS ?f ?l ?w0)) = [] =>
      apply (forS_invariant (fun w => w_faults w = []) f l); [by intros|done] end.
  - intros w. rewrite Hn. unfold heartbeatInterval, leaseDuration, Minute, Second. lia.
Qed.

Lemma demo_held : freshly_held 100 "A" demo_leased.
Proof.
  split; [vm_compute; reflexivity|]. split; [apply reachable_wf, demo_leased_reachable|].
  exists demo_row, (demo_now + leaseDuration). split; [apply demo_lookup|].
  repeat split. vm_compute. discriminate.
Qed.

Lemma demo_processor_keeps jc : keeps_lease 100 "A" (proc_Process demo_processor false jc).
Proof.
  split; [apply by_steps_ret|by intros w|]. intros w. cbn.
  unfold leaseDuration, Minute, Second. lia.
Qed.

Lemma heartbeat_keeps_lease_witness :
  freshly_held 100 "A" (snd (heartbeat demo_worker demo_row (replicate 30 demo_minute) demo_leased)).
Proof.
  apply (heartbeat_keeps_lease demo_worker demo_row (replicate 30 demo_minute) demo_leased).
  - apply Forall_replicate, demo_minute_keeps.
  - apply demo_held.
Defined.

Lemma run_job_succeeds_witness :
  fst (RunJob demo_worker (replicate 30 demo_minute) demo_row demo_leased) = Ok tt.
Proof.
  apply (run_job_succeeds demo_worker (replicate 30 demo_minute) demo_row demo_processor demo_leased).
  - apply demo_held.
  - reflexivity.
  - apply Forall_replicate, demo_minute_keeps.
  - apply demo_processor_keeps.
  - done.
Defined.

Lemma failed_run_is_counted_witness :
  fst (finishRun demo_worker demo_row demo_now (demo_result <| res_Outcome := "failure" |>) None
         demo_leased) = Ok tt.
Proof.
  apply (failed_run_is_counted demo_worker demo_row demo_now
           (demo_result <| res_Outcome := "failure" |>) None demo_leased demo_row).
  - reflexivity.
  - apply demo_lookup.
  - split; reflexivity.
  - unfold fail_in_range. vm_compute. repeat split; discriminate.
  - done.
Defined.

Lemma stale_worker_still_proposes_witness :
  fst (finishRun (mkWorker NewRegistry true true "B") demo_row demo_now demo_result None
         demo_leased) = Ok tt.
Proof.
  apply (stale_worker_still_proposes (mkWorker NewRegistry true true "B") demo_row demo_now
           demo_result demo_leased demo_row); try reflexivity; [by intros [_ [=]]|].
  eexists. vm_compute. reflexivity.
Defined.

Lemma bounded_concurrency_witness :
  ws_sem (mkWorkerState 1 [demo_row] demo_leased) = 1%nat.
Proof.
  apply (bounded_concurrency demo_worker demo_queued (mkWorkerState 1 [demo_row] demo_leased)).
  apply rtc_once. apply (wstep_poll demo_worker 0 [] demo_queued 1 (Some demo_row) demo_leased).
  vm_compute. reflexivity.
Defined.

End witnesses.
