(* ===== verification/Control.v ===== *)
(** * Control loop and routing optimizer ([internal/control])

    [Loop] is one maintenance scan over the queue; [Optimizer] turns run
    statistics into routing advice. *)

From stdpp Require Import base gmap strings list fin_maps relations.
From Stdlib Require Import ZArith Lia.
From S2P Require Import Prelude GoFloat Models Contracts JobQueue.
Import JobsTable Queue.

Open Scope Z_scope.

(** ** The control loop *)

Class ControlQueuer := {
  C_ReclaimExpiredLeases : M (res Z);
  C_RequeueScheduledRetries : M (res Z);
  C_QueueStats : M (res (gmap string Z));
  C_FailUnknownJobTypes : list string → M (res Z)
}.

(** [*jobs.Queue] implements it. *)
Definition Queue_ControlQueuer (q : Queue) : ControlQueuer := {|
  C_ReclaimExpiredLeases := ReclaimExpiredLeases q;
  C_RequeueScheduledRetries := RequeueScheduledRetries q;
  C_QueueStats := QueueStats q;
  C_FailUnknownJobTypes := FailUnknownJobTypes q
|}.

Definition scanInterval : Z := 30 * Second.
Definition backlogThreshold : Z := 50.

(** [pub], [audit] and [metrics] may be nil. *)
Record Loop := mkLoop { lp_pub : bool; lp_audit : bool; lp_metrics : bool }.

(** [uuid.Nil] *)
Definition uuid_Nil : uuid := 0.

Section loop.
Context {Q : ControlQueuer}.

Definition Loop_publish (l : Loop) (subject : string) (p : payload) : M unit :=
  if lp_pub l then publish subject p else retS tt.

Definition Loop_audit (l : Loop) (eventType : string) (p : payload) : M unit :=
  if lp_audit l
  then audit_RecordEvent (EvAudit "system" uuid_Nil eventType "control_loop" "scheduler" p)
  else retS tt.

Definition Loop_reclaimExpiredLeases (l : Loop) : M unit :=
  let! r := C_ReclaimExpiredLeases in
  match r with
  | Err _ => retS tt
  | Ok count =>
      if bool_decide (count = 0) then retS tt
      else
        let! _ := metric_add (lp_metrics l) "jobs_reclaimed" count in
        let! _ := metric_add (lp_metrics l) "control_reclaims" count in
        let! _ := metric_add (lp_metrics l) "control_alerts/lease_expired" count in
        let! now := time_Now in
        let! _ := Loop_publish l SubjectControlAlertLeaseExpired
                    (NewLeaseExpiredAlertEvent count now) in
        let! _ := Loop_publish l SubjectControlResultReclaimCompleted
                    (NewReclaimCompletedEvent count) in
        Loop_audit l "control.reclaim_completed" [("reclaimed_count", JInt count)]
  end.

Definition Loop_requeueOverdueRetries (l : Loop) : M unit :=
  let! r := C_RequeueScheduledRetries in
  match r with
  | Err _ => retS tt
  | Ok count =>
      if bool_decide (count = 0) then retS tt
      else
        let! _ := metric_add (lp_metrics l) "jobs_retried" count in
        let! _ := metric_add (lp_metrics l) "control_requeues" count in
        let! _ := metric_add (lp_metrics l) "control_alerts/retry_overdue" count in
        let! now := time_Now in
        let! _ := Loop_publish l SubjectControlAlertRetryOverdue
                    (NewRetryOverdueAlertEvent count now) in
        let! _ := Loop_publish l SubjectControlResultRetryRequeueCompleted
                    (NewRetryRequeueCompletedEvent count) in
        Loop_audit l "control.retry_requeue_completed" [("requeued_count", JInt count)]
  end.

Definition Loop_failUnknownJobTypes (l : Loop) : M unit :=
  let! r := C_FailUnknownJobTypes KnownJobTypes in
  match r with
  | Err _ => retS tt
  | Ok count =>
      if bool_decide (count = 0) then retS tt
      else
        let! _ := metric_add (lp_metrics l) "control_alerts/unknown_job_type" count in
        Loop_audit l "control.unknown_job_types_failed" [("failed_count", JInt count)]
  end.

(** [stats[k]] *)
Definition stat (stats : gmap string Z) (k : string) : Z := default 0 (stats !! k).

Definition Loop_checkQueueState (l : Loop) : M unit :=
  let! r := C_QueueStats in
  match r with
  | Err _ => retS tt
  | Ok stats =>
      let queued := stat stats "queued" in
      let leased := stat stats "leased" in
      let retry := stat stats "retry_scheduled" in
      (* gauges: the event carries the value set *)
      let! _ := metric_add (lp_metrics l) "queue_depth_queued" queued in
      let! _ := metric_add (lp_metrics l) "queue_depth_leased" leased in
      let! _ := metric_add (lp_metrics l) "queue_depth_retry" retry in
      if bool_decide (backlogThreshold < queued) then
        let! _ := metric_add (lp_metrics l) "control_alerts/queue_backlog" 1 in
        let! now := time_Now in
        Loop_publish l SubjectControlAlertQueueBacklog
          (NewQueueBacklogAlertEvent queued backlogThreshold now)
      else retS tt
  end.

Definition scan (l : Loop) : M unit :=
  let! _ := Loop_reclaimExpiredLeases l in
  let! _ := Loop_requeueOverdueRetries l in
  let! _ := Loop_failUnknownJobTypes l in
  Loop_checkQueueState l.

End loop.

(** ** The optimizer *)

Module Optimizer.

Definition thresholdMinSampleSize : Z := 5.
Definition thresholdRemoveFailureRate : float64 := lit 50 100.
Definition thresholdEscalateFailureRate : float64 := lit 20 100.
Definition thresholdEscalateLowAccept : float64 := lit 40 100.
Definition thresholdHighLatencyMS : float64 := f_of_Z 30000.
Definition thresholdHealthyAcceptance : float64 := lit 70 100.
Definition thresholdEscalateFallbackRate : float64 := lit 30 100.

Inductive RecommendedAction : Type :=
| ActionKeep
| ActionReduceEscalation
| ActionIncreaseEscalation
| ActionRemoveProvider.

#[export] Instance RecommendedAction_eq_dec : EqDecision RecommendedAction.
Proof. solve_decision. Defined.

Record DataQuality := mkDataQuality {
  HasRealFallbackSignal : bool;
  HasRealAcceptanceSignal : bool;
  SampleSize : Z
}.

Record RunMetrics := mkRunMetrics {
  m_Provider : string;
  m_ModelRole : string;
  m_TotalRuns : Z;
  m_SuccessRuns : Z;
  m_FailureRuns : Z;
  m_AcceptedRuns : Z;
  m_RejectedRuns : Z;
  m_AcceptanceRate : float64;
  m_RejectionRate : float64;
  m_FailureRate : float64;
  m_FallbackRuns : Z;
  m_FallbackRate : float64;
  m_AvgAttemptNumber : float64;
  m_AvgTokensTotal : float64;
  m_AvgLatencyMS : float64;
  m_Quality : DataQuality
}.

Record RoutingPolicyConfig := mkRoutingPolicyConfig {
  FastEscalation : string;
  DefaultEscalation : string;
  PlannerEscalation : string;
  ReviewEscalation : string
}.

(** Why an action was chosen: the case of the switch; the text of the source is
    this case rendered with the metrics. *)
Inductive Reason : Type :=
| InsufficientData
| PersistentFailure
| HighFailure
| HighFallback
| LowAcceptance
| SlowButHealthy
| WithinParameters.

Record RoutingRecommendation := mkRec {
  rec_Role : string;
  rec_Provider : string;
  rec_CurrentPolicy : string;
  rec_Metrics : RunMetrics;
  rec_Action : RecommendedAction;
  rec_Explanation : Reason;
  rec_DataQuality : DataQuality
}.

Definition policyFor (c : RoutingPolicyConfig) (role : string) : string :=
  if bool_decide (role = "fast") then FastEscalation c
  else if bool_decide (role = "default") then DefaultEscalation c
  else if bool_decide (role = "planner") then PlannerEscalation c
  else if bool_decide (role = "review") then ReviewEscalation c
  else "unknown".

Definition recommend (c : RoutingPolicyConfig) (m : RunMetrics) : RoutingRecommendation :=
  let base := mkRec (m_ModelRole m) (m_Provider m) (policyFor c (m_ModelRole m)) m in
  let done_ a why := base a why (m_Quality m) in
  if bool_decide (m_TotalRuns m < thresholdMinSampleSize) then
    done_ ActionKeep InsufficientData
  else if fleb thresholdRemoveFailureRate (m_FailureRate m) then
    done_ ActionRemoveProvider PersistentFailure
  else if fleb thresholdEscalateFailureRate (m_FailureRate m) then
    done_ ActionIncreaseEscalation HighFailure
  else if fleb thresholdEscalateFallbackRate (m_FallbackRate m) then
    done_ ActionIncreaseEscalation HighFallback
  else if fltb (m_AcceptanceRate m) thresholdEscalateLowAccept
          && HasRealAcceptanceSignal (m_Quality m) then
    done_ ActionIncreaseEscalation LowAcceptance
  else if fltb thresholdHighLatencyMS (m_AvgLatencyMS m)
          && fleb thresholdHealthyAcceptance (m_AcceptanceRate m)
          && fltb (m_FailureRate m) thresholdEscalateFailureRate
          && fltb (m_FallbackRate m) thresholdEscalateFallbackRate then
    done_ ActionReduceEscalation SlowButHealthy
  else done_ ActionKeep WithinParameters.

(** *** The SQL of [QueryRunMetrics] *)

(** One row of [processing_runs LEFT JOIN suggestion_proposals], with the JSON
    fields the query reads; [j_proposal] is [None] where no proposal joined. *)
Record Joined := mkJoined {
  j_outcome : string;
  j_used_fallback : option bool;
  j_proposal : option ApprovalStatus
}.

Definition count {A} (p : A → bool) (l : list A) : Z := Z.of_nat (length (List.filter p l)).

(** [BOOL_OR]: NULLs are ignored, and an aggregate over no value is NULL. *)
Definition bool_or (l : list (option bool)) : option bool :=
  foldr (fun x acc => match x, acc with
                      | None, _ => acc
                      | Some b, None => Some b
                      | Some b, Some c => Some (b || c)
                      end) None l.

(** One group of the result; the averages are PostgreSQL's. *)
Record GroupRow := mkGroupRow {
  g_provider : option string;
  g_role : option string;
  g_total : Z;
  g_success : Z;
  g_failure : Z;
  g_accepted : Z;
  g_rejected : Z;
  g_fallback : Z;
  g_has_fallback : option bool;
  g_has_acceptance : option bool;
  g_avg_tokens : float64;
  g_avg_latency : float64;
  g_avg_attempt : float64
}.

Definition aggregate (provider role : option string) (tokens latency attempt : float64)
    (l : list Joined) : GroupRow :=
  mkGroupRow provider role (count (fun _ => true) l)
    (count (fun j => bool_decide (j_outcome j = "success")) l)
    (count (fun j => bool_decide (j_outcome j ≠ "success")) l)
    (count (fun j => bool_decide (j_proposal j = Some ApprovalStatusApproved)) l)
    (count (fun j => bool_decide (j_proposal j = Some ApprovalStatusRejected)) l)
    (count (fun j => bool_decide (j_used_fallback j = Some true)) l)
    (bool_or ((fun j => Some (bool_decide (is_Some (j_used_fallback j)))) <$> l))
    (bool_or ((fun j => (fun s => bool_decide (s ≠ ApprovalStatusPending)) <$> j_proposal j) <$> l))
    tokens latency attempt.

(** The scan of one group: a NULL cannot be read into a [bool]. *)
Definition scan_group (g : GroupRow) : res RunMetrics :=
  match g_has_fallback g, g_has_acceptance g with
  | Some fb, Some acc =>
      let rate n := fdiv (f_of_Z n) (f_of_Z (g_total g)) in
      let pos := bool_decide (0 < g_total g) in
      let fail := if pos then rate (g_failure g) else f0 in
      let fbRuns := if pos && negb fb then g_failure g else g_fallback g in
      let fbRate := if pos then (if fb then rate (g_fallback g) else fail) else f0 in
      Ok (mkRunMetrics (default "" (g_provider g)) (default "" (g_role g)) (g_total g)
            (g_success g) (g_failure g) (g_accepted g) (g_rejected g)
            (if pos then rate (g_accepted g) else f0) (if pos then rate (g_rejected g) else f0)
            fail fbRuns fbRate (g_avg_attempt g) (g_avg_tokens g) (g_avg_latency g)
            (mkDataQuality fb acc (g_total g)))
  | _, _ => Err (Wrapf "scan run metrics row: cannot scan NULL into *bool"
                       (Errorf "cannot scan NULL into *bool"))
  end.

(** [QueryRunMetrics] on the groups the database returns. *)
Fixpoint QueryRunMetrics (groups : list GroupRow) : res (list RunMetrics) :=
  match groups with
  | [] => Ok []
  | g :: gs =>
      match scan_group g with
      | Err e => Err e
      | Ok m => match QueryRunMetrics gs with Ok ms => Ok (m :: ms) | Err e => Err e end
      end
  end.

Definition AnalyzeAndRecommend (c : RoutingPolicyConfig) (query : res (list GroupRow))
    : res (list RoutingRecommendation) :=
  match query with
  | Err e => Err (wrap "optimizer: query run metrics: " (wrap "db query run metrics: " e))
  | Ok groups =>
      match QueryRunMetrics groups with
      | Err e => Err (wrap "optimizer: query run metrics: " e)
      | Ok ms => Ok (recommend c <$> ms)
      end
  end.

End Optimizer.
