(* ===== verification/ControlProps.v ===== *)
(** * Theorems about the control loop and the optimizer *)

From stdpp Require Import base gmap strings list fin_maps relations.
From Stdlib Require Import ZArith Lia.
From S2P Require Import Prelude GoFloat Models Contracts JobQueue.
From S2P Require Import Fixtures JobQueueSpec JobQueueProps Steps Control.
Import JobsTable Queue.

Open Scope Z_scope.

Section loop.
Context {U : UuidPkg} (q : Queue).
#[local] Instance the_queue : ControlQueuer := Queue_ControlQueuer q.

Lemma db_frame_record' et id ev ct ci p : db_frame (record q et id ev ct ci p).
Proof using. intros w. apply record_db. Qed.
Lemma now_frame_record' et id ev ct ci p : now_frame (record q et id ev ct ci p).
Proof using. unfold record. solve_frame. Qed.
Lemma nofault_record et id ev ct ci p : nofault_frame (record q et id ev ct ci p).
Proof using. unfold record. solve_nofault. Qed.
#[local] Hint Resolve db_frame_record' now_frame_record' nofault_record : frame.

(** A maintenance call that meets no fault applies its statement. *)
Lemma sweep_db {A B} (p : ProcessingJob → bool) f (k : res (list ProcessingJob) → M A)
    (rest : A → M B) w :
  w_faults w = [] → (∀ r, db_frame (k r)) → (∀ a, db_frame (rest a)) →
  processing_jobs (w_db (snd (bindS (bindS (db_call (update_where p f)) k) rest w))) =
    (fun r => if p r then f r else r) <$> processing_jobs (w_db w).
Proof using.
  intros Hf Hk Hr. by rewrite !bind_tail_db, db_call_nofault by done.
Qed.

Section one_scan.
Variable l : Loop.

Lemma reclaim_db w :
  w_faults w = [] →
  let n := trunc_us (w_now w) in
  processing_jobs (w_db (snd (Loop_reclaimExpiredLeases l w))) =
    (fun r => if lease_expired n r then reclaim_row n r else r) <$> processing_jobs (w_db w).
Proof using.
  intros Hf n. unfold Loop_reclaimExpiredLeases, C_ReclaimExpiredLeases, the_queue,
    Queue_ControlQueuer, ReclaimExpiredLeases, Loop_publish, Loop_audit.
  apply (sweep_db (lease_expired n) (reclaim_row n)); [done|..]; solve_frame.
Qed.

Lemma requeue_db w :
  w_faults w = [] →
  let n := trunc_us (w_now w) in
  processing_jobs (w_db (snd (Loop_requeueOverdueRetries l w))) =
    (fun r => if retry_due n r then requeue_row n r else r) <$> processing_jobs (w_db w).
Proof using.
  intros Hf n. unfold Loop_requeueOverdueRetries, C_RequeueScheduledRetries, the_queue,
    Queue_ControlQueuer, RequeueScheduledRetries, Loop_publish, Loop_audit.
  apply (sweep_db (retry_due n) (requeue_row n)); [done|..]; solve_frame.
Qed.

Lemma unknown_db w :
  w_faults w = [] →
  processing_jobs (w_db (snd (Loop_failUnknownJobTypes l w))) =
    (fun r => if unknown_queued KnownJobTypes r then unknown_row (trunc_us (w_now w)) r else r)
      <$> processing_jobs (w_db w).
Proof using.
  intros Hf. unfold Loop_failUnknownJobTypes, C_FailUnknownJobTypes, the_queue,
    Queue_ControlQueuer, FailUnknownJobTypes, Loop_audit.
  apply (sweep_db (unknown_queued KnownJobTypes) (unknown_row _)); [done|..]; solve_frame.
Qed.

Lemma check_db w : w_db (snd (Loop_checkQueueState l w)) = w_db w.
Proof using.
  unfold Loop_checkQueueState, C_QueueStats, the_queue, Queue_ControlQueuer, Loop_publish.
  rewrite bind_tail_db by solve_frame. unfold QueueStats. rewrite bind_tail_db by solve_frame.
  by match goal with |- context [db_call ?s w] => destruct (db_call_stmt_db s w) as [-> | ->] end.
Qed.

Ltac open_loop :=
  unfold Loop_reclaimExpiredLeases, Loop_requeueOverdueRetries, Loop_failUnknownJobTypes,
    C_ReclaimExpiredLeases, C_RequeueScheduledRetries, C_FailUnknownJobTypes, the_queue,
    Queue_ControlQueuer, ReclaimExpiredLeases, RequeueScheduledRetries, FailUnknownJobTypes,
    Loop_publish, Loop_audit.

Lemma reclaim_quiet : nofault_frame (Loop_reclaimExpiredLeases l) ∧
                      now_frame (Loop_reclaimExpiredLeases l).
Proof using. open_loop. split; [solve_nofault|solve_frame]. Qed.
Lemma requeue_quiet : nofault_frame (Loop_requeueOverdueRetries l) ∧
                      now_frame (Loop_requeueOverdueRetries l).
Proof using. open_loop. split; [solve_nofault|solve_frame]. Qed.
Lemma unknown_quiet : nofault_frame (Loop_failUnknownJobTypes l) ∧
                      now_frame (Loop_failUnknownJobTypes l).
Proof using. open_loop. split; [solve_nofault|solve_frame]. Qed.

(** What one scan does to one job. *)
Definition scan_row (n : time) (r : ProcessingJob) : ProcessingJob :=
  let r1 := if lease_expired n r then reclaim_row n r else r in
  let r2 := if retry_due n r1 then requeue_row n r1 else r1 in
  if unknown_queued KnownJobTypes r2 then unknown_row n r2 else r2.

Lemma scan_jobs w :
  w_faults w = [] →
  processing_jobs (w_db (snd (scan l w))) =
    scan_row (trunc_us (w_now w)) <$> processing_jobs (w_db w).
Proof using.
  intros Hf. unfold scan. rewrite !bindS_run, check_db.
  destruct reclaim_quiet as [F1 N1], requeue_quiet as [F2 N2].
  rewrite unknown_db, requeue_db, reclaim_db by auto. rewrite N2, N1.
  by rewrite <- !map_fmap_compose.
Qed.

(** A job that a scan has handled needs no further handling at that instant. *)
Lemma scan_row_settled n r :
  lease_expired n (scan_row n r) = false ∧ retry_due n (scan_row n r) = false ∧
  unknown_queued KnownJobTypes (scan_row n r) = false.
Proof using.
  unfold scan_row.
  destruct (lease_expired n r) eqn:E1.
  - assert (retry_due n (reclaim_row n r) = false) as -> by done.
    destruct (unknown_queued _ _) eqn:E3; [|by rewrite E3]. repeat split; done.
  - destruct (retry_due n r) eqn:E2.
    + destruct (unknown_queued _ (requeue_row n r)) eqn:E3; [done|by rewrite E3].
    + destruct (unknown_queued _ r) eqn:E3; [done|]. by rewrite E1, E2, E3.
Qed.

(** A job nothing will pick up again unless the control loop moves it. *)
Definition stuck (n : time) (r : ProcessingJob) : Prop :=
  (job_Status r = JobStatusLeased ∧ ∃ x, job_LeaseExpiry r = Some x ∧ x < n) ∨
  (job_Status r = JobStatusRetryScheduled ∧ ∃ s, job_ScheduledAt r = Some s ∧ s ≤ n) ∨
  (job_Status r = JobStatusQueued ∧ job_JobType r ∉ KnownJobTypes).

Lemma stuck_tests n r :
  stuck n r ↔ lease_expired n r || retry_due n r || unknown_queued KnownJobTypes r = true.
Proof using.
  unfold stuck, lease_expired, retry_due, unknown_queued.
  rewrite !orb_true_iff, !andb_true_iff, !bool_decide_eq_true, negb_true_iff, bool_decide_eq_false.
  destruct (job_LeaseExpiry r) as [x|], (job_ScheduledAt r) as [s|];
    rewrite ?bool_decide_eq_true; split; intros H;
    repeat match goal with
    | H : _ ∨ _ |- _ => destruct H
    | H : _ ∧ _ |- _ => destruct H
    | H : ∃ _, _ |- _ => destruct H
    end; simplify_eq; eauto 6.
Qed.

(** A stuck job ends queued, or dead-lettered when no processor knows its type. *)
Lemma scan_row_moves n r :
  stuck n r →
  job_Status (scan_row n r) =
    if bool_decide (job_JobType r ∈ KnownJobTypes) then JobStatusQueued else JobStatusDeadLetter.
Proof using.
  intros H%stuck_tests. unfold scan_row.
  assert (Hq : ∀ r', job_Status r' = JobStatusQueued → job_JobType r' = job_JobType r →
    job_Status (if unknown_queued KnownJobTypes r' then unknown_row n r' else r') =
    if bool_decide (job_JobType r ∈ KnownJobTypes) then JobStatusQueued else JobStatusDeadLetter).
  { intros r' Hs Ht. unfold unknown_queued. rewrite Hs, Ht, bool_decide_true by done. cbn [andb].
    destruct (bool_decide (job_JobType r ∈ KnownJobTypes)); [exact Hs|done]. }
  destruct (lease_expired n r); [by apply Hq|].
  destruct (retry_due n r); [by apply Hq|]. apply Hq; [|done].
  cbn [orb] in H. unfold unknown_queued in H. apply andb_true_iff in H as [H _].
  by apply bool_decide_eq_true in H.
Qed.

Lemma scan_row_idle n r : ¬ stuck n r → scan_row n r = r.
Proof using.
  rewrite stuck_tests, not_true_iff_false, !orb_false_iff. intros [[H1 H2] H3].
  unfold scan_row. by rewrite H1, H2, H3.
Qed.

(** A scan leaves no stuck job.  Stuck means leased past its expiry, waiting
    for a retry that is due, or queued with a type no processor knows.  Without
    faults, no job is stuck after one scan of the control loop; a job that was
    stuck is queued again, or dead-lettered when its type is unknown; every
    other job is untouched. *)
Theorem scan_leaves_nothing_stuck (w : World) :
  w_faults w = [] →
  let n := trunc_us (w_now w) in
  let jobs := processing_jobs (w_db (snd (scan l w))) in
  (∀ i r, jobs !! i = Some r → ¬ stuck n r) ∧
  (∀ i r, processing_jobs (w_db w) !! i = Some r →
     ∃ r', jobs !! i = Some r' ∧ (¬ stuck n r → r' = r) ∧
           (stuck n r → job_Status r' = if bool_decide (job_JobType r ∈ KnownJobTypes)
                                        then JobStatusQueued else JobStatusDeadLetter)) ∧
  dom jobs = dom (processing_jobs (w_db w)).
Proof using.
  intros Hf n jobs. unfold jobs. rewrite scan_jobs by done. split; [|split].
  - intros i r. rewrite lookup_fmap_Some. intros (r0 & <- & _) Hs%stuck_tests.
    destruct (scan_row_settled n r0) as (H1 & H2 & H3). fold n in Hs. by rewrite H1, H2, H3 in Hs.
  - intros i r Hi. exists (scan_row n r). rewrite lookup_fmap, Hi. split; [done|].
    split; [apply scan_row_idle|apply scan_row_moves].
  - apply dom_fmap_L.
Qed.

Lemma scan_steps : by_steps any_op (scan l).
Proof using.
  unfold scan, Loop_checkQueueState, C_QueueStats. open_loop.
  fold (ReclaimExpiredLeases q). fold (RequeueScheduledRetries q).
  fold (FailUnknownJobTypes q KnownJobTypes).
  solve_steps.
Qed.
End one_scan.

(** ** Queue statistics and the backlog alert *)

Section stats.
Implicit Types (m : gmap string Z) (l : list (string * Z)).

Abbreviation insert_all := (foldl (fun m kv => <[kv.1 := kv.2]> m)).

Lemma insert_all_other l m k : k ∉ l.*1 → insert_all m l !! k = m !! k.
Proof using.
  revert m. induction l as [|[k' v] l IH]; intros m Hk; [done|]. cbn in *.
  rewrite not_elem_of_cons in Hk. destruct Hk. rewrite IH by done.
  by rewrite lookup_insert_ne.
Qed.

Lemma insert_all_elem l m k v : NoDup l.*1 → (k, v) ∈ l → insert_all m l !! k = Some v.
Proof using.
  revert m. induction l as [|[k' v'] l IH]; intros m Hn Hin; [by apply elem_of_nil in Hin|].
  cbn in *. apply NoDup_cons in Hn as [Hk' Hn]. apply elem_of_cons in Hin as [[= -> ->]|Hin].
  - rewrite insert_all_other by done. apply lookup_insert_eq.
  - by apply IH.
Qed.

Definition groups (t : table) : list (string * Z) :=
  List.filter (fun kv => bool_decide (0 < kv.2))
    ((fun s => (job_status_string s, count_status s t)) <$> stat_statuses).

Lemma groups_NoDup t : NoDup (groups t).*1.
Proof using.
  assert (H : ∀ ss, NoDup ss → NoDup (List.filter (fun kv => bool_decide (0 < kv.2))
    ((fun s => (job_status_string s, count_status s t)) <$> ss)).*1 ∧
    ∀ k, k ∈ (List.filter (fun kv => bool_decide (0 < kv.2))
      ((fun s => (job_status_string s, count_status s t)) <$> ss)).*1 →
      ∃ s, s ∈ ss ∧ k = job_status_string s).
  { induction ss as [|s ss IH]; intros Hn; cbn.
    - split; [constructor|]. intros k Hk. by apply elem_of_nil in Hk.
    - apply NoDup_cons in Hn as [Hs Hn]. destruct (IH Hn) as [IH1 IH2].
      case_bool_decide; cbn; [|split; [done|]; intros k (s' & ? & ->)%IH2; exists s';
        split; [by apply elem_of_cons; right|done]].
      split.
      + apply NoDup_cons. split; [|done]. intros (s' & Hs' & E)%IH2.
        apply (inj job_status_string) in E as ->. done.
      + intros k [->|Hk]%elem_of_cons; [exists s; split; [by apply elem_of_cons; left|done]|].
        destruct (IH2 k Hk) as (s' & ? & ->). exists s'. split; [by apply elem_of_cons; right|done]. }
  apply H. by apply (bool_decide_unpack _).
Qed.

Lemma zeros_lookup s :
  s ∈ stat_statuses →
  (list_to_map ((fun s => (job_status_string s, 0)) <$> stat_statuses) : gmap string Z)
    !! job_status_string s = Some 0.
Proof using.
  intros Hs. assert (Hd : s ≠ JobStatusSucceeded) by (intros ->; by apply (bool_decide_pack _) in Hs).
  by destruct s.
Qed.

Lemma QueueStats_counts w :
  w_faults w = [] →
  ∃ m, QueueStats q w = (Ok m, w) ∧
       ∀ s, s ∈ stat_statuses →
            m !! job_status_string s = Some (count_status s (processing_jobs (w_db w))).
Proof using.
  intros Hf. unfold QueueStats. rewrite bindS_run, db_call_nofault by done. cbn -[foldl fmap stat_statuses].
  eexists. split; [by destruct w|]. intros s Hs. fold (groups (processing_jobs (w_db w))).
  set (t := processing_jobs (w_db w)).
  destruct (decide (0 < count_status s t)) as [Hp|Hp].
  - apply insert_all_elem; [apply groups_NoDup|]. unfold groups.
    apply list_elem_of_In, filter_In. split; [|by apply bool_decide_eq_true].
    apply list_elem_of_In, list_elem_of_fmap. eauto.
  - rewrite insert_all_other.
    + rewrite zeros_lookup by done. f_equal. unfold count_status in *. lia.
    + intros (kv & E & Hk)%list_elem_of_fmap. unfold groups in Hk.
      apply list_elem_of_In, filter_In in Hk as [Hk Hc].
      apply list_elem_of_In, list_elem_of_fmap in Hk as (s' & -> & _).
      apply (inj job_status_string) in E as <-. by apply bool_decide_eq_true in Hc.
Qed.
End stats.

(** The backlog alert is raised exactly when more than [backlogThreshold]
    jobs are queued, and carries their exact number; the queue gauges are set
    to the exact counts. *)
Theorem backlog_alert_is_exact (l : Loop) (w : World) :
  w_faults w = [] → lp_pub l = true →
  let t := processing_jobs (w_db w) in
  let queued := count_status JobStatusQueued t in
  let metrics evs := if lp_metrics l then evs else [] in
  snd (Loop_checkQueueState l w) =
    w <| w_events := w_events w ++
      metrics [EvMetric "queue_depth_queued" queued;
               EvMetric "queue_depth_leased" (count_status JobStatusLeased t);
               EvMetric "queue_depth_retry" (count_status JobStatusRetryScheduled t)] ++
      (if bool_decide (backlogThreshold < queued)
       then metrics [EvMetric "control_alerts/queue_backlog" 1] ++
            [EvPublish SubjectControlAlertQueueBacklog
               (NewQueueBacklogAlertEvent queued backlogThreshold (w_now w))]
       else []) |>.
Proof using.
  intros Hf Hp t queued metrics. destruct (QueueStats_counts w Hf) as (m & E & Hm).
  unfold Loop_checkQueueState, C_QueueStats, the_queue, Queue_ControlQueuer.
  rewrite bindS_run, E. cbn [fst snd]. unfold stat.
  assert (Hs : ∀ s, s ∈ stat_statuses → default 0 (m !! job_status_string s) = count_status s t)
    by (intros s Hs; by rewrite Hm).
  assert (Hq := Hs JobStatusQueued ltac:(by apply (bool_decide_unpack _))).
  assert (Hl := Hs JobStatusLeased ltac:(by apply (bool_decide_unpack _))).
  assert (Hr := Hs JobStatusRetryScheduled ltac:(by apply (bool_decide_unpack _))).
  cbn [job_status_string] in Hq, Hl, Hr. rewrite Hq, Hl, Hr. fold queued.
  unfold metrics, metric_add, Loop_publish. rewrite Hp. clear -Hf.
  destruct w; cbn in Hf; subst.
  destruct (lp_metrics l), (bool_decide (backlogThreshold < queued)); cbn;
    rewrite <- ?app_assoc; cbn; by rewrite ?app_nil_r.
Qed.

End loop.

(** ** The optimizer *)

Section optimizer.
Import Optimizer.

(** How much an advice departs from the current policy towards more capable,
    or away from unreliable, providers. *)
Definition severity (a : RecommendedAction) : Z :=
  match a with
  | ActionKeep | ActionReduceEscalation => 0
  | ActionIncreaseEscalation => 1
  | ActionRemoveProvider => 2
  end.

(** The same metrics with another failure rate. *)
Definition with_failure_rate (m : RunMetrics) (f : float64) : RunMetrics :=
  mkRunMetrics (m_Provider m) (m_ModelRole m) (m_TotalRuns m) (m_SuccessRuns m)
    (m_FailureRuns m) (m_AcceptedRuns m) (m_RejectedRuns m) (m_AcceptanceRate m)
    (m_RejectionRate m) f (m_FallbackRuns m) (m_FallbackRate m) (m_AvgAttemptNumber m)
    (m_AvgTokensTotal m) (m_AvgLatencyMS m) (m_Quality m).

(** The optimizer's advice is monotone in the failure rate: all else equal, a
    provider that fails more often never gets milder advice; below the minimal
    sample size the advice is always to keep the policy. *)
Theorem recommend_monotone (c : RoutingPolicyConfig) (m : RunMetrics) (f f' : float64) :
  fleb f f' = true →
  severity (rec_Action (recommend c (with_failure_rate m f))) ≤
  severity (rec_Action (recommend c (with_failure_rate m f'))) ∧
  (m_TotalRuns m < thresholdMinSampleSize → rec_Action (recommend c m) = ActionKeep).
Proof using.
  intros Hf. split; [|intros Hm; unfold recommend; by rewrite bool_decide_true].
  unfold recommend. cbn [m_TotalRuns m_FailureRate m_FallbackRate m_AcceptanceRate m_AvgLatencyMS
    m_Quality with_failure_rate].
  assert (Hle : ∀ t, fleb t f = true → fleb t f' = true) by (intros t Ht; by eapply fleb_trans).
  case_bool_decide; [done|].
  destruct (fleb thresholdRemoveFailureRate f) eqn:E1; [by rewrite (Hle _ E1)|].
  destruct (fleb thresholdEscalateFailureRate f) eqn:E2; [rewrite (Hle _ E2); by case_match|].
  destruct (fleb thresholdEscalateFallbackRate (m_FallbackRate m)) eqn:E3;
    [by repeat case_match|].
  destruct (fltb (m_AcceptanceRate m) thresholdEscalateLowAccept && _) eqn:E4;
    [by repeat case_match|].
  by repeat case_match.
Qed.

Lemma bool_or_None l : bool_or l = None ↔ Forall (fun x => x = None) l.
Proof using.
  induction l as [|x l IH]; cbn; [split; [constructor|done]|].
  rewrite Forall_cons, <- IH. clear IH. fold (bool_or l). destruct x as [b|], (bool_or l) as [c|]; cbn; intuition congruence.
Qed.

Lemma scan_aggregate p r t la at_ l :
  l ≠ [] →
  (∃ m, scan_group (aggregate p r t la at_ l) = Ok m) ↔ Exists (fun j => is_Some (j_proposal j)) l.
Proof using.
  intros Hl.
  assert (Hfb : bool_or ((fun j => Some (bool_decide (is_Some (j_used_fallback j)))) <$> l) ≠ None).
  { destruct l as [|j l]; [done|]. intros H%bool_or_None. by apply Forall_cons in H as [? _]. }
  assert (Hacc : bool_or ((fun j => (fun s => bool_decide (s ≠ ApprovalStatusPending)) <$> j_proposal j)
                            <$> l) = None ↔ ¬ Exists (fun j => is_Some (j_proposal j)) l).
  { rewrite bool_or_None, Forall_fmap, <- Forall_Exists_neg. apply Forall_proper; [|done].
    intros j. cbn. destruct (j_proposal j); cbn; [split; [done|intros []; eauto]|].
    split; [by intros _ [? ?]|done]. }
  unfold scan_group, aggregate. cbn [g_has_fallback g_has_acceptance].
  destruct (bool_or ((fun j => Some _) <$> l)) as [fb|]; [|done].
  destruct (bool_or (_ <$> l)) as [acc|].
  - split; [|eauto]. intros _. destruct (decide (Exists (fun j => is_Some (j_proposal j)) l)); [done|].
    by apply Hacc in n.
  - split; [by intros [? ?]|]. intros He. by apply Hacc in He.
Qed.

(** The optimizer depends on proposals.  It produces recommendations, one per
    group, exactly when every group of runs has at least one run whose job has
    a proposal; a single group without any (for example a provider all of whose
    runs failed) makes the whole analysis fail. *)
Theorem optimizer_needs_proposals (c : RoutingPolicyConfig)
    (groups : list (option string * option string * list Joined)) :
  Forall (fun g => g.2 ≠ []) groups →
  let rows := (fun g => aggregate g.1.1 g.1.2 f0 f0 f0 g.2) <$> groups in
  (∃ recs, AnalyzeAndRecommend c (Ok rows) = Ok recs ∧ length recs = length groups) ↔
  Forall (fun g => Exists (fun j => is_Some (j_proposal j)) g.2) groups.
Proof using.
  intros Hne rows. unfold AnalyzeAndRecommend.
  assert (H : (∃ ms, QueryRunMetrics rows = Ok ms ∧ length ms = length groups) ↔
              Forall (fun g => Exists (fun j => is_Some (j_proposal j)) g.2) groups).
  { unfold rows. clear rows. induction Hne as [|g gs Hg Hgs IH]; cbn; [split; eauto|].
    pose proof (scan_aggregate g.1.1 g.1.2 f0 f0 f0 g.2 Hg) as Hs.
    rewrite Forall_cons, <- IH, <- Hs.
    destruct (scan_group _) as [m|e];
      [|split; [by intros (? & [=] & _)|by intros [[? [=]] _]]].
    destruct (QueryRunMetrics _) as [ms|e];
      [|split; [by intros (? & [=] & _)|by intros (_ & ? & [=] & _)]].
    split.
    - intros (ms' & [= <-] & Hlen). cbn in Hlen. split; [eauto|]. exists ms. split; [done|lia].
    - intros (_ & ms' & [= <-] & Hlen). eexists. split; [done|]. cbn. lia. }
  rewrite <- H. destruct (QueryRunMetrics rows) as [ms|e];
    [|split; by intros (? & [=] & _)].
  split; intros (xs & [= <-] & Hlen); eexists; (split; [done|]); by rewrite ?length_fmap in *.
Qed.
End optimizer.

(** ** The theorems at work *)

Section witnesses.
#[local] Existing Instance demo_uuid.
Import Optimizer.

Definition demo_loop : Loop := mkLoop true true true.

Lemma scan_leaves_nothing_stuck_witness :
  let w := demo_leased <| w_now := demo_now + 6 * Minute |> in
  w_faults w = [] ∧
  ∀ i r, processing_jobs (w_db (snd (scan (Q := Queue_ControlQueuer demo_queue) demo_loop w))) !! i
         = Some r → ¬ stuck (trunc_us (w_now w)) r.
Proof.
  intros w. assert (Hf : w_faults w = []) by (vm_compute; reflexivity). split; [exact Hf|].
  destruct (scan_leaves_nothing_stuck demo_queue demo_loop w Hf) as [H _]. exact H.
Defined.

Lemma backlog_alert_is_exact_witness :
  w_events (snd (Loop_checkQueueState (Q := Queue_ControlQueuer demo_queue) demo_loop demo_world)) =
  [EvMetric "queue_depth_queued" 0; EvMetric "queue_depth_leased" 0; EvMetric "queue_depth_retry" 0].
Proof.
  etransitivity; [apply (f_equal w_events), (backlog_alert_is_exact demo_queue demo_loop demo_world);
    reflexivity|]. vm_compute. reflexivity.
Defined.

Definition demo_policy : RoutingPolicyConfig :=
  mkRoutingPolicyConfig "local_only" "local_only" "local_cloud" "local_cloud".
Definition demo_metrics : RunMetrics :=
  mkRunMetrics "ollama" "fast" 10 5 5 0 0 f0 f0 f0 0 f0 f1 f0 f0 (mkDataQuality true false 10).

Lemma recommend_monotone_witness :
  severity (rec_Action (recommend demo_policy (with_failure_rate demo_metrics f0))) ≤
  severity (rec_Action (recommend demo_policy (with_failure_rate demo_metrics (lit 60 100)))).
Proof. apply (recommend_monotone demo_policy demo_metrics f0 (lit 60 100)). reflexivity. Defined.

Lemma optimizer_needs_proposals_witness :
  ¬ ∃ recs, AnalyzeAndRecommend demo_policy
      (Ok [aggregate (Some "ollama") (Some "fast") f0 f0 f0
             [mkJoined "error" (Some false) None; mkJoined "error" (Some false) None]]) = Ok recs
      ∧ length recs = 1%nat.
Proof.
  intros H. apply (optimizer_needs_proposals demo_policy
    [(Some "ollama", Some "fast",
      [mkJoined "error" (Some false) None; mkJoined "error" (Some false) None])]) in H.
  - apply Forall_cons in H as [H _]. inversion H as [? ? []|? ? H']; subst; [done|].
    inversion H' as [? ? []|? ? H'']; subst; [done|]. inversion H''.
  - by constructor.
Defined.

End witnesses.
