(* ===== verification/System.v ===== *)
(** * The services together

    The pipeline as one transition system: source synchronisation, the
    orchestrator's handlers, any number of workers and the control loop act on
    one database, in any order, under any faults.  They interleave at whole
    actions (one sync, one message, one poll, one scan); only while a job is
    processed do other steps come in [between] its heartbeats.  Each of them only takes
    queue steps, so the invariant of the queue is an invariant of the system. *)

From stdpp Require Import base gmap strings list fin_maps relations.
From Stdlib Require Import ZArith Lia.
From S2P Require Import Prelude GoFloat Models Contracts JobQueue Fixtures JobQueueSpec JobQueueProps Steps.
From S2P Require Import Processors Orchestrator Source SourceProps Worker WorkerProps Control ControlProps.
Import JobsTable Queue.

Open Scope Z_scope.

Section system.
Context {U : UuidPkg} {C : CodecPkg} {K : Connector} (q : Queue).

#[local] Instance system_queuer : Queuer := Queue_Queuer q.
#[local] Instance system_control : ControlQueuer := Queue_ControlQueuer q.

(** What one service does at a time. *)
Inductive Action : Type :=
| ActSync (s : Syncer) (conn : SourceConnection)
| ActJobCreated (o : Orchestrator) (msg : option JobCreatedEvent)
| ActTaskResync (o : Orchestrator) (msg : option TaskResyncCommandEvent)
| ActJobRetry (o : Orchestrator) (msg : option JobRetryCommandEvent)
| ActPoll (wk : Worker) (sem : nat)
| ActRunJob (wk : Worker) (between : list (M unit)) (job : ProcessingJob)
| ActScan (l : Loop).

Definition run_action (a : Action) (w : World) : World :=
  match a with
  | ActSync s conn => snd (SyncConnection s conn w)
  | ActJobCreated o msg => snd (handleJobCreated o msg w)
  | ActTaskResync o msg => snd (handleTaskResync o msg w)
  | ActJobRetry o msg => snd (handleJobRetry o msg w)
  | ActPoll wk sem => snd (poll wk sem w)
  | ActRunJob wk between job => snd (RunJob wk between job w)
  | ActScan l => snd (scan l w)
  end.

(** Connectors and processors, and what happens while a job runs, reach the
    jobs table through the queue only. *)
Definition action_ok (a : Action) : Prop :=
  match a with
  | ActSync _ conn => by_steps any_op (FetchTasks conn)
  | ActRunJob wk between _ =>
      Forall (by_steps any_op) between ∧
      ∀ p c jc, p ∈ reg_processors (wk_registry wk) → by_steps any_op (proc_Process p c jc)
  | _ => True
  end.

Inductive sys_step : World → World → Prop :=
| sys_action a w : action_ok a → sys_step w (run_action a w)
| sys_outside w w' : outside w w' → sys_step w w'.

Lemma sys_step_steps w w' : sys_step w w' → rtc (step any_op) w w'.
Proof using.
  destruct 1 as [a w Ha|]; [|by apply rtc_once, step_outside].
  destruct a; cbn in *.
  - by apply SyncConnection_steps.
  - apply handleJobCreated_steps.
  - apply handleTaskResync_steps.
  - apply handleJobRetry_steps.
  - apply (poll_steps q).
  - destruct Ha. by apply (RunJob_steps q).
  - apply (scan_steps q).
Qed.

(** C8: the system keeps the queue sound.  In every world that any interleaving
    of whole syncs, message handlers, polls, scans and job runs, with further
    steps between the heartbeats of a job, can produce from an empty database,
    under any database faults, the jobs table satisfies its invariant, and jobs
    that had succeeded on the way are still there, untouched. *)
Theorem system_invariant (w0 w1 w2 : World) :
  initial w0 → rtc sys_step w0 w1 → rtc sys_step w1 w2 →
  db_wf (w_db w2) ∧
  ∀ i r, processing_jobs (w_db w1) !! i = Some r → job_Status r = JobStatusSucceeded →
         processing_jobs (w_db w2) !! i = Some r.
Proof using.
  intros Hi H1 H2.
  assert (Hsub : ∀ x y, rtc sys_step x y → rtc (step any_op) x y).
  { intros x y. induction 1 as [|x y z Hxy _ IH]; [done|].
    etransitivity; [by apply sys_step_steps|done]. }
  apply Hsub in H1, H2.
  assert (Hwf1 : db_wf (w_db w1)) by (apply reachable_wf; by exists w0).
  split; [by eapply steps_wf|]. intros i r. by eapply steps_succeeded.
Qed.
End system.

(** ** The theorem at work: a sync, a poll and a run to success. *)

Section witnesses.
#[local] Existing Instances demo_uuid demo_codec.

Definition demo_connector : Connector := {|
  FetchTasks _ := retS (Ok [mkRawTask "ext-9" "task" "{}"]);
  NormalizeTask raw :=
    Ok (mkNormalizedTask (raw_ExternalID raw) "T" "" "open" "" None [] ∅ "")
|}.
#[local] Existing Instance demo_connector.

Definition demo_synced : World :=
  run_action demo_queue (ActSync (mkSyncer demo_queue true) (mkSourceConnection 1 "c")) demo_start.
Definition demo_polled : World := run_action demo_queue (ActPoll demo_worker 0) demo_synced.

Lemma system_invariant_witness : db_wf (w_db demo_polled).
Proof.
  apply (system_invariant demo_queue demo_start demo_synced demo_polled).
  - reflexivity.
  - apply rtc_once, sys_action. apply by_steps_ret.
  - apply rtc_once, sys_action. exact I.
Defined.

Example demo_pipeline :
  (job_pos ∘ snd) <$> map_to_list (processing_jobs (w_db demo_polled)) = [(JobStatusLeased, 0)].
Proof. vm_compute. reflexivity. Qed.
End witnesses.
