(* ===== verification/Execution.v ===== *)
(** * Candidate-chain execution ([internal/providers/execution], [profile])

    Failure classification, output validation, the engine that walks a chain
    of model candidates with retries and fallback, its trace, and the provider
    that wraps it. *)

From stdpp Require Import base gmap strings list pretty.
From Stdlib Require Import ZArith Lia Ascii.
From S2P Require Import Prelude GoStrconv GoFloat GoJSON GoStrings Models Processors Worker.

Open Scope Z_scope.

(** ** Roles, candidates and profiles *)

Definition RoleDefault : string := "default".
Definition RoleFast : string := "fast".
Definition RolePlanner : string := "planner".
Definition RoleReview : string := "review".

Inductive ThinkMode : Type := ThinkDefault | ThinkEnabled | ThinkDisabled | ThinkOther (s : string).

#[export] Instance ThinkMode_eq_dec : EqDecision ThinkMode.
Proof. solve_decision. Defined.

(** The Go value, a string; [ThinkOther] is any other string. *)
Definition think_value (m : ThinkMode) : string :=
  match m with
  | ThinkDefault => ""
  | ThinkEnabled => "thinking"
  | ThinkDisabled => "nothinking"
  | ThinkOther s => s
  end.

Definition ThinkMode_IsValid (m : ThinkMode) : bool :=
  match m with ThinkOther _ => false | _ => true end.

Definition ThinkMode_String (m : ThinkMode) : string :=
  match m with ThinkDefault => "default" | _ => think_value m end.

Definition ParseThinkMode (s : string) : res ThinkMode :=
  if bool_decide (s ∈ [""; "default"]) then Ok ThinkDefault
  else if bool_decide (s ∈ ["thinking"; "think"; "on"]) then Ok ThinkEnabled
  else if bool_decide (s ∈ ["nothinking"; "nothink"; "off"]) then Ok ThinkDisabled
  else Err (Errorf ("invalid think mode " +:+ quote s +:+
                    ": must be one of thinking, nothinking, on, off, default")).

Record ModelCandidate := mkCandidate {
  mc_ModelName : string;
  mc_ProviderName : string;
  mc_ThinkMode : ThinkMode;
  mc_Timeout : Z;
  mc_JSONMode : bool
}.

#[export] Instance ModelCandidate_eq_dec : EqDecision ModelCandidate.
Proof. solve_decision. Defined.

(** A map from roles to chains. *)
Abbreviation RoleProfiles := (gmap string (list ModelCandidate)).

Definition CandidatesForRole (rp : RoleProfiles) (role : string) : list ModelCandidate :=
  match rp !! role with
  | Some (c :: cs) => c :: cs
  | _ => default [] (rp !! RoleDefault)
  end.

(** ** Failures *)

Inductive FailureClass : Type :=
| FailureTimeout
| FailureRateLimit
| FailureServerError
| FailureConnectionRefused
| FailureInvalidResponse
| FailureValidation
| FailureContextOverflow
| FailureUnknown.

#[export] Instance FailureClass_eq_dec : EqDecision FailureClass.
Proof. solve_decision. Defined.

Definition failure_string (f : FailureClass) : string :=
  match f with
  | FailureTimeout => "timeout"
  | FailureRateLimit => "rate_limit"
  | FailureServerError => "server_error"
  | FailureConnectionRefused => "connection_refused"
  | FailureInvalidResponse => "invalid_response"
  | FailureValidation => "validation"
  | FailureContextOverflow => "context_overflow"
  | FailureUnknown => "unknown"
  end.

Inductive FallbackAction : Type := ActionNextCandidate | ActionRetry | ActionAbort.

#[export] Instance FallbackAction_eq_dec : EqDecision FallbackAction.
Proof. solve_decision. Defined.

Definition DefaultFallbackAction (fc : FailureClass) : FallbackAction :=
  match fc with
  | FailureTimeout => ActionNextCandidate
  | FailureRateLimit => ActionRetry
  | FailureServerError => ActionNextCandidate
  | FailureConnectionRefused => ActionRetry
  | FailureInvalidResponse => ActionNextCandidate
  | FailureValidation => ActionNextCandidate
  | FailureContextOverflow => ActionNextCandidate
  | FailureUnknown => ActionNextCandidate
  end.

(** [asValidationError]: along the [Unwrap] chain. *)
Fixpoint asValidationError (err : error) : bool :=
  match err with
  | ValidationErr _ => true
  | Wrapf _ inner => asValidationError inner
  | _ => false
  end.

(** [isNetError]: the [Timeout()] of the first [net.Error] in the chain;
    [context.DeadlineExceeded] is one. *)
Fixpoint isNetError (err : error) : option bool :=
  match err with
  | NetError t _ => Some t
  | DeadlineExceeded => Some true
  | Wrapf _ inner => isNetError inner
  | _ => None
  end.

Definition contains_any (msg : string) (subs : list string) : bool := existsb (contains msg) subs.

Definition ClassifyError (err : error) : FailureClass :=
  let msg := error_text err in
  if asValidationError err then FailureValidation
  else if bool_decide (err = DeadlineExceeded) || contains msg "context deadline exceeded"
  then FailureTimeout
  else if bool_decide (err = Canceled) || contains msg "context canceled" then FailureTimeout
  else match isNetError err with
  | Some true => FailureTimeout
  | Some false => FailureConnectionRefused
  | None =>
      if contains_any msg ["connection refused"; "no such host"] then FailureConnectionRefused
      else if contains_any msg ["429"; "rate limit"; "too many requests"] then FailureRateLimit
      else if contains_any msg ["context length"; "context window"; "too long"]
      then FailureContextOverflow
      else if contains_any msg ["decode response"; "unmarshal"; "invalid response"]
      then FailureInvalidResponse
      else if contains_any msg ["500"; "502"; "503"; "unexpected status 5"; "404"]
              || (contains msg "model" && contains msg "not found")
      then FailureServerError
      else FailureUnknown
  end.

(** ** Requests, responses, providers *)

Record GenerateRequest := mkRequest {
  rq_Model : string;
  rq_ModelRole : string;
  rq_SystemPrompt : string;
  rq_UserPrompt : string;
  rq_Temperature : float64;
  rq_MaxTokens : Z;
  rq_TopP : float64;
  rq_JSONMode : bool;
  rq_Timeout : Z;
  rq_PromptTemplateID : string;
  rq_PromptTemplateVersion : string;
  rq_InputVariables : gmap string string;
  rq_ThinkMode : string
}.

#[export] Instance GenerateRequest_settable : Settable GenerateRequest := fun r =>
  mkRequest (rq_Model r) (rq_ModelRole r) (rq_SystemPrompt r) (rq_UserPrompt r)
    (rq_Temperature r) (rq_MaxTokens r) (rq_TopP r) (rq_JSONMode r) (rq_Timeout r)
    (rq_PromptTemplateID r) (rq_PromptTemplateVersion r) (rq_InputVariables r) (rq_ThinkMode r).

Record GenerateResponse := mkResponse {
  rp_Content : string;
  rp_Model : string;
  rp_ModelRole : string;
  rp_Provider : string;
  rp_TokensPrompt : Z;
  rp_TokensCompletion : Z;
  rp_TokensTotal : Z;
  rp_DurationMS : Z;
  rp_TimeoutUsed : Z;
  rp_ThinkingContent : string;
  rp_UsedFallback : bool;
  rp_ErrorClass : string
}.

#[export] Instance GenerateResponse_settable : Settable GenerateResponse := fun r =>
  mkResponse (rp_Content r) (rp_Model r) (rp_ModelRole r) (rp_Provider r) (rp_TokensPrompt r)
    (rp_TokensCompletion r) (rp_TokensTotal r) (rp_DurationMS r) (rp_TimeoutUsed r)
    (rp_ThinkingContent r) (rp_UsedFallback r) (rp_ErrorClass r).

Definition zero_response : GenerateResponse := mkResponse "" "" "" "" 0 0 0 0 0 "" false "".

(** A backend: its name and what [Generate] does and returns. *)
Record Provider := mkProvider {
  pv_Name : string;
  pv_Generate : GenerateRequest → M (GenerateResponse * option error)
}.

(** ** Validation *)

Inductive Validator : Type :=
| JSONValidator
| NonEmptyValidator
| MinLengthValidator (min : Z).

Definition Validator_Name (v : Validator) : string :=
  match v with
  | JSONValidator => "json"
  | NonEmptyValidator => "non_empty"
  | MinLengthValidator _ => "min_length"
  end.

Definition Validator_Validate (v : Validator) (content : string) : option error :=
  let t := trim_space content in
  let len := Z.of_nat (String.length t) in
  match v with
  | JSONValidator =>
      if json_Valid t then None else Some (Errorf "response is not valid JSON")
  | NonEmptyValidator =>
      if bool_decide (t = "") then Some (Errorf "response is empty") else None
  | MinLengthValidator min =>
      if bool_decide (len < min)
      then Some (Errorf ("response length " +:+ pretty len +:+ " is below minimum " +:+ pretty min))
      else None
  end.

(** [FailAction] is [None] when it is the empty string. *)
Record ValidationPolicy := mkValidationPolicy {
  vp_Validators : list Validator;
  vp_FailAction : option FallbackAction
}.

Fixpoint run_validators (vs : list Validator) (content : string) : option error :=
  match vs with
  | [] => None
  | v :: vs' =>
      match Validator_Validate v content with
      | Some err => Some (ValidationErr ("validator " +:+ quote (Validator_Name v) +:+ ": "
                                         +:+ error_text err))
      | None => run_validators vs' content
      end
  end.

Definition ValidationPolicy_Run (p : ValidationPolicy) (content : string) : option error :=
  run_validators (vp_Validators p) content.

(** ** Trace *)

Inductive ExecutionOutcome : Type :=
| OutcomeUnset | OutcomeSuccess | OutcomeFallback | OutcomeExhausted | OutcomeAborted.

#[export] Instance ExecutionOutcome_eq_dec : EqDecision ExecutionOutcome.
Proof. solve_decision. Defined.

Definition Outcome_IsSuccess (o : ExecutionOutcome) : bool :=
  match o with OutcomeSuccess | OutcomeFallback => true | _ => false end.

Record CandidateAttempt := mkAttempt {
  at_CandidateIndex : Z;
  at_ModelName : string;
  at_ProviderName : string;
  at_ThinkMode : string;
  at_StartedAt : time;
  at_FinishedAt : time;
  at_DurationMS : Z;
  at_Outcome : string;
  at_FailureClass : option FailureClass;
  at_FallbackAction : option FallbackAction;
  at_ErrorMessage : string;
  at_TokensPrompt : Z;
  at_TokensCompletion : Z;
  at_TokensTotal : Z
}.

#[export] Instance CandidateAttempt_settable : Settable CandidateAttempt := fun r =>
  mkAttempt (at_CandidateIndex r) (at_ModelName r) (at_ProviderName r) (at_ThinkMode r)
    (at_StartedAt r) (at_FinishedAt r) (at_DurationMS r) (at_Outcome r) (at_FailureClass r)
    (at_FallbackAction r) (at_ErrorMessage r) (at_TokensPrompt r) (at_TokensCompletion r)
    (at_TokensTotal r).

Record ExecutionTrace := mkTrace {
  tr_TraceID : string;
  tr_Role : string;
  tr_Outcome : ExecutionOutcome;
  tr_Attempts : list CandidateAttempt;
  tr_WinnerIndex : Z;
  tr_TotalDurationMS : Z;
  tr_StartedAt : time;
  tr_FinishedAt : time;
  tr_TotalTokensPrompt : Z;
  tr_TotalTokensCompletion : Z;
  tr_TotalTokensTotal : Z
}.

#[export] Instance ExecutionTrace_settable : Settable ExecutionTrace := fun r =>
  mkTrace (tr_TraceID r) (tr_Role r) (tr_Outcome r) (tr_Attempts r) (tr_WinnerIndex r)
    (tr_TotalDurationMS r) (tr_StartedAt r) (tr_FinishedAt r) (tr_TotalTokensPrompt r)
    (tr_TotalTokensCompletion r) (tr_TotalTokensTotal r).

(** The zero [time.Time] is not read before it is set; 0 stands for it. *)
Definition NewExecutionTrace (traceID role : string) (now : time) : ExecutionTrace :=
  mkTrace traceID role OutcomeUnset [] (-1) 0 now 0 0 0 0.

Definition RecordAttempt (t : ExecutionTrace) (a : CandidateAttempt) : ExecutionTrace :=
  t <| tr_Attempts := tr_Attempts t ++ [a] |>
    <| tr_TotalTokensPrompt := wrap64 (tr_TotalTokensPrompt t + at_TokensPrompt a) |>
    <| tr_TotalTokensCompletion := wrap64 (tr_TotalTokensCompletion t + at_TokensCompletion a) |>
    <| tr_TotalTokensTotal := wrap64 (tr_TotalTokensTotal t + at_TokensTotal a) |>.

Definition Finalize (t : ExecutionTrace) (o : ExecutionOutcome) (winner : Z) (now : time)
    : ExecutionTrace :=
  t <| tr_Outcome := o |> <| tr_WinnerIndex := winner |> <| tr_FinishedAt := now |>
    <| tr_TotalDurationMS := duration_ms (tr_StartedAt t) now |>.

Definition NewCandidateAttempt (index : Z) (c : ModelCandidate) (startedAt : time)
    : CandidateAttempt :=
  mkAttempt index (mc_ModelName c) (mc_ProviderName c) (ThinkMode_String (mc_ThinkMode c))
    startedAt 0 0 "" None None "" 0 0 0.

Definition Attempt_Complete (a : CandidateAttempt) (outcome : string) (finishedAt : time)
    : CandidateAttempt :=
  a <| at_FinishedAt := finishedAt |>
    <| at_DurationMS := duration_ms (at_StartedAt a) finishedAt |>
    <| at_Outcome := outcome |>.

Definition Attempt_CompleteWithError (a : CandidateAttempt) (err : error) (fc : FailureClass)
    (action : option FallbackAction) (finishedAt : time) : CandidateAttempt :=
  a <| at_FinishedAt := finishedAt |>
    <| at_DurationMS := duration_ms (at_StartedAt a) finishedAt |>
    <| at_Outcome := "failed" |>
    <| at_FailureClass := Some fc |>
    <| at_FallbackAction := action |>
    <| at_ErrorMessage := error_text err |>.

Definition set_tokens (a : CandidateAttempt) (resp : GenerateResponse) : CandidateAttempt :=
  a <| at_TokensPrompt := rp_TokensPrompt resp |>
    <| at_TokensCompletion := rp_TokensCompletion resp |>
    <| at_TokensTotal := rp_TokensTotal resp |>.

(** ** Engine *)

Record ExecutionEngine := mkEngine {
  en_primary : Provider;
  en_registry : option (gmap string Provider);
  en_maxRetries : Z
}.

Definition defaultMaxRetries : Z := 1.

Definition SetMaxRetries (e : ExecutionEngine) (n : Z) : ExecutionEngine :=
  mkEngine (en_primary e) (en_registry e) (if bool_decide (n < 0) then 0 else n).

Definition resolveProvider (e : ExecutionEngine) (name : string) : Provider :=
  match en_registry e with
  | Some reg => if bool_decide (name ≠ "") then default (en_primary e) (reg !! name)
                else en_primary e
  | None => en_primary e
  end.

Record ExecuteResult := mkExecuteResult {
  ex_Response : GenerateResponse;
  ex_Trace : option ExecutionTrace;
  ex_Outcome : ExecutionOutcome
}.

Definition zero_execute : ExecuteResult := mkExecuteResult zero_response None OutcomeUnset.

Definition candidate_request (req : GenerateRequest) (c : ModelCandidate) : GenerateRequest :=
  let r1 := req <| rq_Model := mc_ModelName c |> <| rq_ThinkMode := think_value (mc_ThinkMode c) |> in
  let r2 := if bool_decide (0 < mc_Timeout c) then r1 <| rq_Timeout := mc_Timeout c |> else r1 in
  if mc_JSONMode c then r2 <| rq_JSONMode := true |> else r2.

(** One call of a candidate; the trace is threaded. *)
Definition tryCandidate (e : ExecutionEngine) (req : GenerateRequest) (c : ModelCandidate)
    (index : Z) (trace : ExecutionTrace) (validation : ValidationPolicy)
    : M (ExecutionTrace * res GenerateResponse) :=
  let! startedAt := time_Now in
  let attempt := NewCandidateAttempt index c startedAt in
  let! out := pv_Generate (resolveProvider e (mc_ProviderName c)) (candidate_request req c) in
  let! finishedAt := time_Now in
  match out with
  | (_, Some err) =>
      let fc := ClassifyError err in
      retS (RecordAttempt trace
              (Attempt_CompleteWithError attempt err fc (Some (DefaultFallbackAction fc)) finishedAt),
            Err err)
  | (resp, None) =>
      match ValidationPolicy_Run validation (rp_Content resp) with
      | Some valErr =>
          retS (RecordAttempt trace
                  (set_tokens (Attempt_CompleteWithError attempt valErr FailureValidation
                                 (vp_FailAction validation) finishedAt) resp),
                Err valErr)
      | None =>
          retS (RecordAttempt trace (set_tokens (Attempt_Complete attempt "success" finishedAt) resp),
                Ok resp)
      end
  end.

(** What the engine does after a failure of the current candidate. *)
Definition failure_action (validation : ValidationPolicy) (err : error)
    : option FallbackAction :=
  let fc := ClassifyError err in
  if bool_decide (fc = FailureValidation) then vp_FailAction validation
  else Some (DefaultFallbackAction fc).

Inductive CandidateResult : Type :=
| CandidateWon (resp : GenerateResponse)
| CandidateAborted (err : error)
| CandidateNext (err : error).

(** The inner loop of [Execute]; [left] retries remain for this candidate. *)
Fixpoint candidate_loop (e : ExecutionEngine) (req : GenerateRequest) (c : ModelCandidate)
    (index : Z) (validation : ValidationPolicy) (left : nat) (trace : ExecutionTrace)
    : M (ExecutionTrace * CandidateResult) :=
  let! out := tryCandidate e req c index trace validation in
  match out with
  | (trace', Ok resp) => retS (trace', CandidateWon resp)
  | (trace', Err err) =>
      match failure_action validation err, left with
      | Some ActionAbort, _ => retS (trace', CandidateAborted err)
      | Some ActionRetry, S left' => candidate_loop e req c index validation left' trace'
      | _, _ => retS (trace', CandidateNext err)
      end
  end.

(** The outer loop of [Execute], at candidate [i] of [total]. *)
Fixpoint execute_loop (e : ExecutionEngine) (req : GenerateRequest)
    (validation : ValidationPolicy) (total : Z) (i : nat) (cands : list ModelCandidate)
    (lastErr : error) (trace : ExecutionTrace) : M (ExecuteResult * option error) :=
  match cands with
  | [] =>
      let! now := time_Now in
      let t := Finalize trace OutcomeExhausted (-1) now in
      retS (mkExecuteResult zero_response (Some t) OutcomeExhausted,
            Some (wrap ("execution exhausted all " +:+ pretty total
                        +:+ " candidates: last error: ") lastErr))
  | c :: cands' =>
      let! out := candidate_loop e req c (Z.of_nat i) validation (Z.to_nat (en_maxRetries e)) trace in
      match out with
      | (trace', CandidateWon resp) =>
          let! now := time_Now in
          let outcome := if bool_decide (0 < i)%nat then OutcomeFallback else OutcomeSuccess in
          retS (mkExecuteResult resp (Some (Finalize trace' outcome (Z.of_nat i) now)) outcome, None)
      | (trace', CandidateAborted err) =>
          let! now := time_Now in
          retS (mkExecuteResult zero_response (Some (Finalize trace' OutcomeAborted (-1) now))
                  OutcomeAborted,
                Some (wrap ("execution aborted at candidate " +:+ pretty (Z.of_nat i) +:+ " ("
                            +:+ mc_ModelName c +:+ "): ") err))
      | (trace', CandidateNext err) =>
          execute_loop e req validation total (S i) cands' err trace'
      end
  end.

Section execute.
Context {U : UuidPkg}.

Definition Execute (e : ExecutionEngine) (req : GenerateRequest)
    (candidates : list ModelCandidate) (validation : ValidationPolicy)
    : M (ExecuteResult * option error) :=
  match candidates with
  | [] => retS (zero_execute, Some (Errorf "execution engine: no candidates provided"))
  | _ =>
      let! id := fresh_uuid in
      let! now := time_Now in
      let trace := NewExecutionTrace (uuid_String id) (rq_ModelRole req) now in
      (* [lastErr] is set before it is read: the chain is not empty *)
      execute_loop e req validation (Z.of_nat (length candidates)) 0 candidates ErrNoRows trace
  end.

(** ** The wrapping provider *)

(** [lastTrace] is the provider's only mutable state; metrics are not modelled. *)
Record ExecutingProvider := mkExecutingProvider {
  ep_inner : Provider;
  ep_profiles : RoleProfiles;
  ep_engine : ExecutionEngine;
  ep_lastTrace : option ExecutionTrace
}.

#[export] Instance ExecutingProvider_settable : Settable ExecutingProvider := fun r =>
  mkExecutingProvider (ep_inner r) (ep_profiles r) (ep_engine r) (ep_lastTrace r).

(** The chain is a single plain candidate. *)
Definition is_passthrough (req : GenerateRequest) (cs : list ModelCandidate) : bool :=
  match cs with
  | [c] => bool_decide (mc_ThinkMode c = ThinkDefault) && negb (mc_JSONMode c)
           && negb (rq_JSONMode req) && bool_decide (mc_Timeout c = 0)
  | _ => false
  end.

(** The response also carries the trace, as JSON; here the trace is in the state. *)
Definition Generate (p : ExecutingProvider) (req : GenerateRequest)
    : M (GenerateResponse * option error * ExecutingProvider) :=
  let candidates := CandidatesForRole (ep_profiles p) (rq_ModelRole req) in
  match candidates with
  | [] => retS (zero_response,
                Some (Errorf ("no candidates for role " +:+ quote (rq_ModelRole req))), p)
  | c0 :: _ =>
      if is_passthrough req candidates then
        let! out := pv_Generate (ep_inner p) req in
        retS (out, p)
      else
        let validation :=
          if mc_JSONMode c0 || rq_JSONMode req
          then mkValidationPolicy [JSONValidator] (Some ActionNextCandidate)
          else mkValidationPolicy [] None in
        let! out := Execute (ep_engine p) req candidates validation in
        let '(result, err) := out in
        let p' := p <| ep_lastTrace := ex_Trace result |> in
        match err with
        | Some e =>
            let cls := match ex_Trace result with
                       | Some t => match last (tr_Attempts t) with
                                   | Some a => match at_FailureClass a with
                                               | Some fc => failure_string fc
                                               | None => ""
                                               end
                                   | None => ""
                                   end
                       | None => ""
                       end in
            retS (zero_response <| rp_ErrorClass := cls |>, Some e, p')
        | None => retS (ex_Response result, None, p')
        end
  end.

Definition LastTrace (p : ExecutingProvider) : option ExecutionTrace := ep_lastTrace p.

End execute.
