(* ===== verification/ExecutionProps.v ===== *)
(** * Theorems about candidate-chain execution *)

From stdpp Require Import base gmap strings list.
From Stdlib Require Import ZArith Lia.
From S2P Require Import Prelude GoFloat Models Fixtures Processors Execution.

Open Scope Z_scope.

Section engine.
Context {U : UuidPkg} (e : ExecutionEngine) (req : GenerateRequest) (validation : ValidationPolicy).

Definition failed (a : CandidateAttempt) : Prop := at_Outcome a = "failed".

Definition sum_of (f : CandidateAttempt → Z) (l : list CandidateAttempt) : Z :=
  foldr (fun a s => f a + s) 0 l.
#[local] Arguments sum_of : simpl never.

(** The token totals of a trace are the sums over its attempts, at the width of
    a machine integer. *)
Definition totals_ok (t : ExecutionTrace) : Prop :=
  tr_TotalTokensPrompt t = wrap64 (sum_of at_TokensPrompt (tr_Attempts t)) ∧
  tr_TotalTokensCompletion t = wrap64 (sum_of at_TokensCompletion (tr_Attempts t)) ∧
  tr_TotalTokensTotal t = wrap64 (sum_of at_TokensTotal (tr_Attempts t)).

Lemma sum_of_snoc f l a : sum_of f (l ++ [a]) = sum_of f l + f a.
Proof using. unfold sum_of. induction l as [|b l IH]; cbn; [lia|]. rewrite IH. lia. Qed.

Lemma totals_ok_record t a : totals_ok t → totals_ok (RecordAttempt t a).
Proof using.
  intros (H1 & H2 & H3). unfold totals_ok, RecordAttempt. cbn.
  by rewrite !sum_of_snoc, H1, H2, H3, !wrap64_add_l.
Qed.

(** What one attempt adds to the trace. *)
Definition tried (i : Z) (t : ExecutionTrace) (out : ExecutionTrace * res GenerateResponse) : Prop :=
  ∃ a, fst out = RecordAttempt t a ∧ at_CandidateIndex a = i ∧
  match snd out with
  | Ok resp => at_Outcome a = "success" ∧ ValidationPolicy_Run validation (rp_Content resp) = None
  | Err _ => failed a
  end.

Lemma tryCandidate_tried c i t :
  returns (tryCandidate e req c i t validation) (tried i t).
Proof using.
  unfold tryCandidate. eapply returns_bind; [apply returns_any|]. intros startedAt _.
  eapply returns_bind; [apply returns_any|]. intros [resp [err|]] _;
    (eapply returns_bind; [apply returns_any|]; intros finishedAt _).
  - apply returns_ret. eexists. repeat split.
  - destruct (ValidationPolicy_Run validation (rp_Content resp)) eqn:E;
      apply returns_ret; eexists; repeat split. done.
Qed.

(** The trace before candidate [i] is tried: only failures, of earlier
    candidates or of [i] itself, each earlier one tried at least once. *)
Record before (i : nat) (n : Z) (t : ExecutionTrace) : Prop := {
  bf_failed : Forall failed (tr_Attempts t);
  bf_index : Forall (fun a => 0 ≤ at_CandidateIndex a ≤ Z.of_nat i) (tr_Attempts t);
  bf_all : ∀ j, (j < i)%nat → Exists (fun a => at_CandidateIndex a = Z.of_nat j) (tr_Attempts t);
  bf_count : Z.of_nat (length (tr_Attempts t)) ≤ n;
  bf_totals : totals_ok t
}.

Lemma before_record i n t a :
  before i n t → failed a → at_CandidateIndex a = Z.of_nat i → before i (n + 1) (RecordAttempt t a).
Proof using.
  intros [H1 H2 H3 H4 H5] Ha Hi. split; cbn.
  - apply Forall_app. split; [done|]. by constructor.
  - apply Forall_app. split; [done|]. constructor; [lia|done].
  - intros j Hj. apply Exists_app. left. auto.
  - rewrite length_app. cbn. lia.
  - by apply totals_ok_record.
Qed.

(** How the inner loop leaves candidate [i]. *)
Definition left_candidate (i : nat) (n : Z) (out : ExecutionTrace * CandidateResult) : Prop :=
  match snd out with
  | CandidateWon resp =>
      ∃ t a, fst out = RecordAttempt t a ∧ before i (n - 1) t ∧ at_CandidateIndex a = Z.of_nat i ∧
             at_Outcome a = "success" ∧ ValidationPolicy_Run validation (rp_Content resp) = None
  | CandidateAborted err => before i n (fst out) ∧ failure_action validation err = Some ActionAbort
  | CandidateNext _ =>
      before i n (fst out) ∧
      Exists (fun a => at_CandidateIndex a = Z.of_nat i) (tr_Attempts (fst out))
  end.

Lemma before_weaken i n n' t : n ≤ n' → before i n t → before i n' t.
Proof using. intros Hn []. split; try done. lia. Qed.

Lemma candidate_loop_left c i left n t :
  before i n t →
  returns (candidate_loop e req c (Z.of_nat i) validation left t)
    (left_candidate i (n + 1 + Z.of_nat left)).
Proof using.
  revert n t. induction left as [|left IH]; intros n t Hb; cbn [candidate_loop];
    (eapply returns_bind; [apply tryCandidate_tried|]);
    intros [t' [resp|err]] (a & Ht & Hi & Ha); cbn in Ht, Ha; subst t'.
  1,3: apply returns_ret; exists t, a; split; [done|]; split; [eapply before_weaken; [|done]; lia|];
       by destruct Ha.
  all: assert (Hb' : before i (n + 1) (RecordAttempt t a)) by (by apply before_record);
       assert (Hx : Exists (fun a => at_CandidateIndex a = Z.of_nat i)
         (tr_Attempts (RecordAttempt t a))) by (apply Exists_app; right; by constructor).
  all: destruct (failure_action validation err) as [[]|] eqn:E;
       try (apply returns_ret; split; [eapply before_weaken; [|exact Hb']; lia|done]).
  eapply returns_weaken; [by apply (IH (n + 1))|]. intros out Hout.
  by replace (n + 1 + Z.of_nat (S left)) with (n + 1 + 1 + Z.of_nat left) by lia.
Qed.
(** What [Execute] promises about a chain of [n] candidates. *)
Definition execution_sound (n : nat) (out : ExecuteResult * option error) : Prop :=
  let '(r, err) := out in
  ∃ t, ex_Trace r = Some t ∧ tr_Outcome t = ex_Outcome r ∧ totals_ok t ∧
    Z.of_nat (length (tr_Attempts t)) ≤ Z.of_nat n * (1 + en_maxRetries e) ∧
    match err with
    | None =>
        ∃ i pre a, (i < n)%nat ∧ tr_WinnerIndex t = Z.of_nat i ∧ tr_Attempts t = pre ++ [a] ∧
          at_CandidateIndex a = Z.of_nat i ∧ at_Outcome a = "success" ∧ Forall failed pre ∧
          ex_Outcome r = (if bool_decide (0 < i)%nat then OutcomeFallback else OutcomeSuccess) ∧
          ValidationPolicy_Run validation (rp_Content (ex_Response r)) = None
    | Some _ =>
        tr_WinnerIndex t = -1 ∧ Forall failed (tr_Attempts t) ∧
        ((ex_Outcome r = OutcomeExhausted ∧
          ∀ j, (j < n)%nat → Exists (fun a => at_CandidateIndex a = Z.of_nat j) (tr_Attempts t)) ∨
         (ex_Outcome r = OutcomeAborted ∧ vp_FailAction validation = Some ActionAbort))
    end.

Lemma abort_only_by_policy err :
  failure_action validation err = Some ActionAbort → vp_FailAction validation = Some ActionAbort.
Proof using.
  unfold failure_action. case_bool_decide; [done|]. by destruct (ClassifyError err).
Qed.

Lemma before_next i n t :
  before i n t → Exists (fun a => at_CandidateIndex a = Z.of_nat i) (tr_Attempts t) →
  before (S i) n t.
Proof using.
  intros [H1 H2 H3 H4 H5] Hx. split; try done.
  - eapply Forall_impl; [exact H2|]. cbn. lia.
  - intros j Hj. destruct (decide (j = i)) as [->|]; [done|]. apply H3. lia.
Qed.

Lemma execute_loop_sound n cands i lastErr t :
  0 ≤ en_maxRetries e → (i + length cands = n)%nat →
  before i (Z.of_nat i * (1 + en_maxRetries e)) t →
  returns (execute_loop e req validation (Z.of_nat n) i cands lastErr t) (execution_sound n).
Proof using.
  intros HR. revert i lastErr t. induction cands as [|c cands IH]; intros i lastErr t Hn Hb;
    cbn [execute_loop length] in *.
  - eapply returns_bind; [apply returns_any|]. intros now _. apply returns_ret.
    assert (i = n) as -> by lia. eexists. split; [done|]. split; [done|]. split; [apply Hb|].
    split; [apply Hb|]. split; [done|]. split; [apply Hb|]. left. split; [done|]. apply Hb.
  - eapply returns_bind; [by apply (candidate_loop_left c i (Z.to_nat (en_maxRetries e)))|].
    rewrite Z2Nat.id by done. intros [t' [resp|err|err]] Hl; cbn in Hl.
    + destruct Hl as (t0 & a & -> & Hb0 & Hi & Ha & Hv).
      eapply returns_bind; [apply returns_any|]. intros now _. apply returns_ret.
      eexists. split; [done|]. split; [done|]. split; [apply totals_ok_record, Hb0|].
      split; [cbn; rewrite length_app; cbn; pose proof (bf_count _ _ _ Hb0); nia|].
      exists i, (tr_Attempts t0), a. repeat split; try done; [lia|apply Hb0].
    + destruct Hl as [Hb' Hab]. eapply returns_bind; [apply returns_any|]. intros now _.
      apply returns_ret. eexists. split; [done|]. split; [done|]. split; [apply Hb'|].
      split; [cbn; pose proof (bf_count _ _ _ Hb'); nia|].
      split; [done|]. split; [apply Hb'|]. right. split; [done|]. by eapply abort_only_by_policy.
    + destruct Hl as [Hb' Hx]. apply IH; [lia|]. apply before_next; [|done].
      eapply before_weaken; [|exact Hb']. lia.
Qed.

(** C10: candidate-chain execution is sound for any providers.  It always ends,
    after at most one attempt plus [maxRetries] retries per candidate.  On
    success the winner is the last attempt, every earlier attempt failed, the
    outcome says whether it was the first candidate, and the response passed
    validation.  On failure no attempt succeeded and either every candidate was
    tried or the validation policy asked to abort.  The token totals count
    every attempt. *)
Theorem execute_sound (cands : list ModelCandidate) :
  cands ≠ [] → 0 ≤ en_maxRetries e →
  returns (Execute e req cands validation) (execution_sound (length cands)).
Proof using.
  intros Hne HR. unfold Execute. destruct cands as [|c cands]; [done|].
  eapply returns_bind; [apply returns_any|]. intros id _.
  eapply returns_bind; [apply returns_any|]. intros now _.
  apply execute_loop_sound; [done..|]. split; cbn; try done; lia.
Qed.
End engine.

(** ** Error classification *)

(** Cancellation and validation are recognised wherever they sit in a chain
    of wrapped errors, whatever text the wrappers add: a wrapped validation
    error is always a validation failure, and any other error wrapping a
    deadline or a cancellation, each prefix keeping the inner text, counts as a
    timeout and never as retryable. *)
Theorem classify_wrapped (prefixes : list string) (inner : error) :
  let err := foldr wrap inner prefixes in
  (asValidationError inner = true → ClassifyError err = FailureValidation) ∧
  (inner = DeadlineExceeded ∨ inner = Canceled →
   ClassifyError err = FailureTimeout ∧
   DefaultFallbackAction (ClassifyError err) = ActionNextCandidate).
Proof.
  intros err.
  assert (Hv : asValidationError err = asValidationError inner)
    by (unfold err; clear err; by induction prefixes).
  assert (Ht : ∃ pre, error_text err = pre +:+ error_text inner).
  { unfold err. clear. induction prefixes as [|p ps [pre IH]]; [by exists ""|].
    exists (p +:+ pre). cbn. rewrite IH. by rewrite string_app_assoc. }
  split; [intros H; unfold ClassifyError; by rewrite Hv, H|].
  intros Hi. assert (ClassifyError err = FailureTimeout) as ->; [|done].
  destruct Ht as [pre Ht]. unfold ClassifyError. rewrite Hv, Ht.
  assert (Hc : ∀ s, contains (pre +:+ s) s = true).
  { intros s. apply contains_spec. exists pre, "". by rewrite string_app_nil_r. }
  destruct Hi as [-> | ->]; cbn [asValidationError error_text]; rewrite Hc, orb_true_r; [done|].
  by destruct (_ || _).
Qed.

(** ** The wrapping provider *)

Section provider.
Context {U : UuidPkg}.

(** A plain single candidate is bypassed.  When the chain of the role is one
    candidate without think mode, JSON mode or timeout, the request goes to the
    inner provider as it is: the candidate's model and provider names are not
    applied, and the trace of an earlier execution stays in place, so
    [LastTrace] does not become nil. *)
Theorem passthrough_bypasses_candidate (p : ExecutingProvider) (req : GenerateRequest)
    (model provider : string) (w : World) :
  CandidatesForRole (ep_profiles p) (rq_ModelRole req) =
    [mkCandidate model provider ThinkDefault 0 false] →
  rq_JSONMode req = false →
  let out := Generate p req w in
  fst (fst out) = fst (pv_Generate (ep_inner p) req w) ∧
  snd out = snd (pv_Generate (ep_inner p) req w) ∧
  LastTrace (snd (fst out)) = LastTrace p.
Proof.
  intros Hc Hj out. unfold out, Generate. rewrite Hc.
  cbn [is_passthrough mc_ThinkMode mc_JSONMode mc_Timeout]. rewrite Hj, !bool_decide_true by done.
  cbn [negb andb]. by rewrite !bindS_run.
Qed.
End provider.

(** ** The theorems at work *)

Section witnesses.
#[local] Existing Instance demo_uuid.

(** A provider that is rate-limited except for the model ["b"]. *)
Definition demo_provider : Provider := mkProvider "demo" (fun req =>
  retS (if bool_decide (rq_Model req = "b")
        then (zero_response <| rp_Content := "{}" |> <| rp_TokensTotal := 7 |>, None)
        else (zero_response, Some (Errorf "unexpected status 429")))).
Definition demo_engine : ExecutionEngine := mkEngine demo_provider None defaultMaxRetries.
Definition demo_request : GenerateRequest :=
  mkRequest "" "fast" "" "" f0 0 f1 true 0 "" "" ∅ "".
Definition demo_chain : list ModelCandidate :=
  [mkCandidate "a" "" ThinkDefault 0 false; mkCandidate "b" "" ThinkDefault 0 true].
Definition demo_json : ValidationPolicy := mkValidationPolicy [JSONValidator] (Some ActionNextCandidate).

Example demo_execution :
  let r := fst (fst (Execute demo_engine demo_request demo_chain demo_json demo_start)) in
  ex_Outcome r = OutcomeFallback ∧
  (at_CandidateIndex <$> from_option tr_Attempts [] (ex_Trace r)) = [0; 0; 1].
Proof. vm_compute. auto. Qed.

Lemma execute_sound_witness :
  execution_sound demo_engine demo_json 2
    (fst (Execute demo_engine demo_request demo_chain demo_json demo_start)).
Proof.
  apply (execute_sound demo_engine demo_request demo_json demo_chain); [done|].
  vm_compute. discriminate.
Defined.

Lemma classify_wrapped_witness :
  ClassifyError (foldr wrap Canceled ["generate: "; "ollama: "]) = FailureTimeout.
Proof. apply (classify_wrapped ["generate: "; "ollama: "] Canceled). by right. Defined.

Definition demo_executing : ExecutingProvider :=
  mkExecutingProvider demo_provider {[ "fast" := [mkCandidate "b" "" ThinkDefault 0 false] ]}
    demo_engine (Some (NewExecutionTrace "t" "fast" 0)).

Lemma passthrough_bypasses_candidate_witness :
  fst (fst (Generate demo_executing (demo_request <| rq_JSONMode := false |>) demo_start))
    = (zero_response, Some (Errorf "unexpected status 429")).
Proof.
  etransitivity; [apply (passthrough_bypasses_candidate demo_executing
    (demo_request <| rq_JSONMode := false |>) "b" "" demo_start); reflexivity|].
  vm_compute. reflexivity.
Defined.
End witnesses.
