(* ===== verification/RoutingPolicy.v ===== *)
(** * Routing policy ([internal/providers/routing])

    Escalation levels per role and the candidate chains they resolve to. *)

From stdpp Require Import base gmap strings list pretty fin_maps.
From Stdlib Require Import ZArith Lia Ascii.
From S2P Require Import Prelude GoStrconv GoStrings Processors Execution.

Open Scope Z_scope.

Inductive EscalationLevel : Type :=
| EscalationLocalOnly
| EscalationLocalCloud
| EscalationLocalCloudOpenRouter
| EscalationLocalOpenRouter.

#[export] Instance EscalationLevel_eq_dec : EqDecision EscalationLevel.
Proof. solve_decision. Defined.

Definition escalation_string (e : EscalationLevel) : string :=
  match e with
  | EscalationLocalOnly => "local_only"
  | EscalationLocalCloud => "local_cloud"
  | EscalationLocalCloudOpenRouter => "local_cloud_openrouter"
  | EscalationLocalOpenRouter => "local_openrouter"
  end.

Definition allowsCloud (e : EscalationLevel) : bool :=
  match e with EscalationLocalCloud | EscalationLocalCloudOpenRouter => true | _ => false end.

Definition allowsOpenRouter (e : EscalationLevel) : bool :=
  match e with EscalationLocalCloudOpenRouter | EscalationLocalOpenRouter => true | _ => false end.

(** [strings.ToLower], as far as it can produce one of the names below: no
    character outside ASCII has a lower-case form among their letters. *)
Definition lower_char (c : ascii) : ascii :=
  let n := nat_of_ascii c in
  if bool_decide (65 ≤ n ≤ 90)%nat then ascii_of_nat (n + 32) else c.
Fixpoint to_lower (s : string) : string :=
  match s with
  | EmptyString => EmptyString
  | String c s' => String (lower_char c) (to_lower s')
  end.

Definition ParseEscalationLevel (s : string) : res EscalationLevel :=
  let k := to_lower (trim_space s) in
  if bool_decide (k ∈ ["local_only"; "local"]) then Ok EscalationLocalOnly
  else if bool_decide (k = "local_cloud") then Ok EscalationLocalCloud
  else if bool_decide (k ∈ ["local_cloud_openrouter"; "full"]) then Ok EscalationLocalCloudOpenRouter
  else if bool_decide (k = "local_openrouter") then Ok EscalationLocalOpenRouter
  else Err (Errorf ("unknown escalation level " +:+ quote s +:+
    ": must be one of local_only, local_cloud, local_cloud_openrouter, local_openrouter")).

Example parse_escalation :
  ParseEscalationLevel "  Local_Cloud " = Ok EscalationLocalCloud ∧
  ParseEscalationLevel "FULL" = Ok EscalationLocalCloudOpenRouter ∧
  is_ok (ParseEscalationLevel "") = false.
Proof. vm_compute. auto. Qed.

Record RoutingPolicy := mkRoutingPolicy {
  pol_Fast : EscalationLevel;
  pol_Default : EscalationLevel;
  pol_Planner : EscalationLevel;
  pol_Review : EscalationLevel
}.

Definition NewRoutingPolicy (fast defaultLevel planner review : string) : res RoutingPolicy :=
  match ParseEscalationLevel fast with
  | Err e => Err (wrap "fast escalation: " e)
  | Ok f =>
      match ParseEscalationLevel defaultLevel with
      | Err e => Err (wrap "default escalation: " e)
      | Ok d =>
          match ParseEscalationLevel planner with
          | Err e => Err (wrap "planner escalation: " e)
          | Ok p =>
              match ParseEscalationLevel review with
              | Err e => Err (wrap "review escalation: " e)
              | Ok r => Ok (mkRoutingPolicy f d p r)
              end
          end
      end
  end.

Record Input := mkInput {
  in_Policy : RoutingPolicy;
  in_LocalDefaultModel : string;
  in_LocalFastModel : string;
  in_LocalPlannerModel : string;
  in_LocalReviewModel : string;
  in_CloudEnabled : bool;
  in_CloudModel : string;
  in_OpenRouterEnabled : bool;
  in_OpenRouterModel : string;
  in_CatalogLocalCandidates : gmap string (list ModelCandidate)
}.

Record RouteDecision := mkRouteDecision {
  rd_Role : string;
  rd_EscalationLevel : EscalationLevel;
  rd_Candidates : list ModelCandidate;
  rd_AvailableProviders : list string;
  rd_SkippedProviders : list string;
  rd_ProfileSource : string;
  rd_Justification : string
}.

Definition policyForRole (policy : RoutingPolicy) (role : string) : EscalationLevel :=
  if bool_decide (role = RoleFast) then pol_Fast policy
  else if bool_decide (role = RolePlanner) then pol_Planner policy
  else if bool_decide (role = RoleReview) then pol_Review policy
  else pol_Default policy.

Definition localModelForRole (input : Input) (role : string) : string :=
  let model :=
    if bool_decide (role = RoleFast) then in_LocalFastModel input
    else if bool_decide (role = RolePlanner) then in_LocalPlannerModel input
    else if bool_decide (role = RoleReview) then in_LocalReviewModel input
    else "" in
  if bool_decide (model = "") then in_LocalDefaultModel input else model.

(** [profile.ModelCandidate{ModelName: m, ProviderName: p}] *)
Definition plain (m p : string) : ModelCandidate := mkCandidate m p ThinkDefault 0 false.

(** The candidates, the available and the skipped providers so far. *)
Abbreviation chain := (list ModelCandidate * list string * list string)%type.

(** The cloud tier; [localModel] stands in for an unset cloud model. *)
Definition add_cloud (input : Input) (esc : EscalationLevel) (localModel : string) (c : chain)
    : chain :=
  let '(cands, available, skipped) := c in
  if allowsCloud esc then
    if in_CloudEnabled input then
      let cloudModel := if bool_decide (in_CloudModel input = "") then localModel
                        else in_CloudModel input in
      (cands ++ [plain cloudModel "ollama-cloud"], available ++ ["ollama-cloud"], skipped)
    else (cands, available, skipped ++ ["ollama-cloud (disabled)"])
  else c.

(** The OpenRouter tier. *)
Definition add_openrouter (input : Input) (esc : EscalationLevel) (role : string) (c : chain)
    : res chain :=
  let '(cands, available, skipped) := c in
  if allowsOpenRouter esc then
    if in_OpenRouterEnabled input then
      if bool_decide (in_OpenRouterModel input = "") then
        Err (Errorf ("role " +:+ quote role +:+
               " allows OpenRouter escalation but no model is configured" +:+
               " (set ROUTING_OPENROUTER_MODEL or OPENROUTER_DEFAULT_MODEL)"))
      else Ok (cands ++ [plain (in_OpenRouterModel input) "openrouter"],
               available ++ ["openrouter"], skipped)
    else Ok (cands, available, skipped ++ ["openrouter (disabled)"])
  else Ok c.

Definition resolveRole (input : Input) (role : string) : res RouteDecision :=
  let esc := policyForRole (in_Policy input) role in
  match in_CatalogLocalCandidates input !! role with
  | Some (c0 :: cs) =>
      let cat := c0 :: cs in
      match add_openrouter input esc role
              (add_cloud input esc (mc_ModelName c0) (cat, ["ollama"], [])) with
      | Err e => Err e
      | Ok (cands, available, skipped) =>
          Ok (mkRouteDecision role esc cands available skipped "catalog"
                ("catalog profile applied: " +:+ pretty (length cat)
                 +:+ " local candidates, escalation=" +:+ escalation_string esc))
      end
  | _ =>
      let localModel := localModelForRole input role in
      match add_openrouter input esc role
              (add_cloud input esc localModel ([plain localModel "ollama"], ["ollama"], [])) with
      | Err e => Err e
      | Ok (cands, available, skipped) =>
          Ok (mkRouteDecision role esc cands available skipped "policy"
                ("policy applied: escalation=" +:+ escalation_string esc +:+ ", local_model="
                 +:+ localModel +:+ ", candidates=" +:+ pretty (length cands)))
      end
  end.

Definition route_roles : list string := [RoleDefault; RoleFast; RolePlanner; RoleReview].

Fixpoint resolve_roles (input : Input) (roles : list string) (rp : RoleProfiles)
    (decisions : list RouteDecision) : res (RoleProfiles * list RouteDecision) :=
  match roles with
  | [] => Ok (rp, decisions)
  | role :: roles' =>
      match resolveRole input role with
      | Err e => Err (wrap ("routing policy for role " +:+ quote role +:+ ": ") e)
      | Ok d => resolve_roles input roles' (<[role := rd_Candidates d]> rp) (decisions ++ [d])
      end
  end.

Definition ResolveProfiles (input : Input) : res (RoleProfiles * list RouteDecision) :=
  if bool_decide (in_LocalDefaultModel input = "")
  then Err (Errorf "routing: LocalDefaultModel must not be empty")
  else resolve_roles input route_roles ∅ [].

(** ** Theorems *)

(** The chain a role should get: its local candidates, then the tiers that its
    level allows and that are enabled, in order of cost. *)
Definition local_part (input : Input) (role : string) : list ModelCandidate :=
  match in_CatalogLocalCandidates input !! role with
  | Some (c0 :: cs) => c0 :: cs
  | _ => [plain (localModelForRole input role) "ollama"]
  end.

Definition cloud_part (input : Input) (role : string) : list ModelCandidate :=
  if allowsCloud (policyForRole (in_Policy input) role) && in_CloudEnabled input then
    let local := match local_part input role with c :: _ => mc_ModelName c | [] => "" end in
    [plain (if bool_decide (in_CloudModel input = "") then local else in_CloudModel input)
       "ollama-cloud"]
  else [].

Definition openrouter_part (input : Input) (role : string) : list ModelCandidate :=
  if allowsOpenRouter (policyForRole (in_Policy input) role) && in_OpenRouterEnabled input
  then [plain (in_OpenRouterModel input) "openrouter"] else [].

Definition expected_chain (input : Input) (role : string) : list ModelCandidate :=
  local_part input role ++ cloud_part input role ++ openrouter_part input role.

(** OpenRouter is needed for the role but has no model. *)
Definition misconfigured (input : Input) (role : string) : bool :=
  allowsOpenRouter (policyForRole (in_Policy input) role) && in_OpenRouterEnabled input
  && bool_decide (in_OpenRouterModel input = "").

Lemma resolveRole_spec input role :
  if misconfigured input role then ∃ e, resolveRole input role = Err e
  else ∃ d, resolveRole input role = Ok d ∧ rd_Candidates d = expected_chain input role ∧
            rd_Role d = role.
Proof.
  unfold misconfigured, resolveRole, expected_chain, openrouter_part, cloud_part, local_part,
    add_openrouter, add_cloud.
  destruct (in_CatalogLocalCandidates input !! role) as [[|c0 cs]|];
    destruct (allowsCloud _), (allowsOpenRouter _), (in_CloudEnabled input),
      (in_OpenRouterEnabled input); cbn [andb];
    try (destruct (bool_decide (in_OpenRouterModel input = "")));
    eexists; try reflexivity; (split; [reflexivity|]); (split; [|reflexivity]); cbn;
    rewrite <- ?app_assoc, ?app_nil_r; done.
Qed.

Lemma resolve_roles_spec input roles rp ds :
  if existsb (misconfigured input) roles then ∃ e, resolve_roles input roles rp ds = Err e
  else ∃ rp' ds', resolve_roles input roles rp ds = Ok (rp', ds') ∧
       (∀ r, rp' !! r = if bool_decide (r ∈ roles) then Some (expected_chain input r) else rp !! r) ∧
       (rd_Role <$> ds') = (rd_Role <$> ds) ++ roles.
Proof.
  revert rp ds. induction roles as [|role roles IH]; intros rp ds; cbn [existsb resolve_roles].
  - exists rp, ds. split; [done|]. split; [done|]. by rewrite app_nil_r.
  - pose proof (resolveRole_spec input role) as Hr.
    destruct (misconfigured input role); cbn [orb].
    + destruct Hr as [e ->]. eauto.
    + destruct Hr as (d & -> & Hc & Hrole).
      specialize (IH (<[role := rd_Candidates d]> rp) (ds ++ [d])).
      destruct (existsb _ roles); [done|].
      destruct IH as (rp' & ds' & -> & Hlook & Hds). exists rp', ds'. split; [done|]. split.
      * intros r. rewrite Hlook. destruct (decide (r ∈ roles)) as [Hin|Hin].
        -- rewrite !bool_decide_true by (try apply elem_of_cons; tauto). done.
        -- rewrite (bool_decide_false (r ∈ roles)) by done. rewrite lookup_insert.
           case_decide as Heq; [subst; rewrite bool_decide_true by (apply elem_of_cons; tauto); congruence|].
           rewrite bool_decide_false; [done|]. rewrite elem_of_cons. intuition congruence.
      * rewrite Hds, fmap_app, <- app_assoc. cbn. by rewrite Hrole.
Qed.

(** Routing resolves every role or fails for a stated reason.  It fails
    exactly when the local default model is empty or some role needs OpenRouter
    that is enabled without a model.  Otherwise each role gets its local
    candidates followed by the cloud and OpenRouter candidates its level allows
    and the configuration enables, nothing else; one decision is logged per
    role; and whatever role is asked for later, the chain is not empty. *)
Theorem resolve_profiles_exact (input : Input) :
  if bool_decide (in_LocalDefaultModel input = "") || existsb (misconfigured input) route_roles
  then ∃ e, ResolveProfiles input = Err e
  else ∃ rp ds, ResolveProfiles input = Ok (rp, ds) ∧
       (∀ r, rp !! r = if bool_decide (r ∈ route_roles)
                       then Some (expected_chain input r) else None) ∧
       rd_Role <$> ds = route_roles ∧
       ∀ r, CandidatesForRole rp r ≠ [].
Proof.
  unfold ResolveProfiles. case_bool_decide as Hd; cbn [orb]; [eauto|].
  pose proof (resolve_roles_spec input route_roles ∅ []) as H.
  destruct (existsb _ _); [done|]. destruct H as (rp & ds & -> & Hlook & Hds).
  exists rp, ds. split; [done|]. split; [intros r; by rewrite Hlook, lookup_empty|].
  split; [done|].
  assert (Hne : ∀ r, expected_chain input r ≠ []).
  { intros r. unfold expected_chain, local_part.
    by destruct (_ !! r) as [[|c cs]|]. }
  intros r. unfold CandidatesForRole. rewrite (Hlook RoleDefault). rewrite bool_decide_true by (by apply (bool_decide_unpack _)).
  cbn [default]. destruct (rp !! r) as [[|c cs]|]; [apply Hne|done|apply Hne].
Qed.
