(* ===== verification/GoSort.v ===== *)
(** * Go's stable sort

    [sort.SliceStable] leaves the one arrangement of a slice that is ordered by
    the comparison and keeps equivalent elements in place; insertion sort
    computes it, and the lemmas hold for every strict weak order.

    Where the comparison is not transitive the outcome depends on the algorithm,
    which the second part follows: insertion sort of blocks of 20, merged in place
    by rotations ([stable_func], [symMerge_func], [rotate_func] of package
    [sort]).  For any comparison the outcome rearranges the slice, and one of at
    most 20 elements has no neighbours out of order.  Elements of different names
    sort by name into one list. *)

From stdpp Require Import sorting base list tactics strings numbers.
From Stdlib Require Import Lia.
From S2P Require Import Prelude.

Section stable_sort.
Context {A : Type} (less : A → A → bool).

(** [x] goes in front of the first element that is not less than it. *)
Fixpoint insert_stable (x : A) (l : list A) : list A :=
  match l with
  | [] => [x]
  | y :: l' => if less y x then y :: insert_stable x l' else x :: l
  end.

Fixpoint SliceStable (l : list A) : list A :=
  match l with
  | [] => []
  | x :: l' => insert_stable x (SliceStable l')
  end.

(** No element is less than one in front of it. *)
Definition ordered : list A → Prop := StronglySorted (fun x y => less y x = false).

Lemma insert_stable_perm x l : insert_stable x l ≡ₚ x :: l.
Proof.
  induction l as [|y l IH]; cbn; [done|]. destruct (less y x); [|done].
  rewrite IH. apply Permutation_swap.
Qed.

Lemma SliceStable_perm l : SliceStable l ≡ₚ l.
Proof. induction l as [|x l IH]; cbn; [done|]. by rewrite insert_stable_perm, IH. Qed.

Lemma SliceStable_elem x l : x ∈ SliceStable l ↔ x ∈ l.
Proof. by rewrite SliceStable_perm. Qed.

Hypothesis less_asym : ∀ x y, less x y = true → less y x = false.
Hypothesis less_negtrans : ∀ x y z, less x y = false → less y z = false → less x z = false.

Lemma insert_stable_ordered x l : ordered l → ordered (insert_stable x l).
Proof using less_asym less_negtrans.
  induction 1 as [|y l Hl IH H0]; cbn; [repeat constructor|].
  destruct (less y x) eqn:E.
  - constructor; [done|]. apply list.Forall_forall. intros z.
    intros Hz. rewrite insert_stable_perm in Hz. apply elem_of_cons in Hz as [->|Hz];
      [by apply less_asym|].
    exact (proj1 (list.Forall_forall _ _) H0 z Hz).
  - constructor; [by constructor|]. constructor; [done|].
    eapply Forall_impl; [|exact H0]. cbn. eauto.
Qed.

Lemma SliceStable_ordered l : ordered (SliceStable l).
Proof using less_asym less_negtrans.
  induction l as [|x l IH]; cbn; [constructor|]. by apply insert_stable_ordered.
Qed.

(** Stability: a class of mutually incomparable elements keeps its order. *)
Lemma insert_stable_class (P : A → Prop) `{!∀ x, Decision (P x)} x l :
  (∀ y z, P y → P z → less y z = false) →
  filter P (insert_stable x l) = filter P (x :: l).
Proof using.
  intros HP. induction l as [|y l IH]; [done|]. cbn [insert_stable].
  destruct (less y x) eqn:E; [|done].
  rewrite !filter_cons in *. rewrite IH. repeat case_decide; try done.
  rewrite HP in E by done. done.
Qed.

Lemma SliceStable_class (P : A → Prop) `{!∀ x, Decision (P x)} l :
  (∀ y z, P y → P z → less y z = false) → filter P (SliceStable l) = filter P l.
Proof using.
  intros HP. induction l as [|x l IH]; [done|]. cbn [SliceStable].
  rewrite insert_stable_class by done. rewrite !filter_cons, IH. done.
Qed.
End stable_sort.

(** A sublist of an ordered list is ordered. *)
Lemma filter_ordered {A} (less : A → A → bool) (p : A → bool) l :
  ordered less l → ordered less (List.filter p l).
Proof.
  induction 1 as [|x l Hl IH H0]; [constructor|]. cbn.
  destruct (p x); [|done]. constructor; [done|]. apply list.Forall_forall. intros z Hz.
  apply list_elem_of_In, filter_In in Hz as [Hz _].
  by apply (proj1 (list.Forall_forall _ _) H0), list_elem_of_In.
Qed.

Lemma ltb_asym x y : String.ltb x y = true → String.ltb y x = false.
Proof.
  unfold String.ltb. rewrite (String.compare_antisym x y). by destruct (String.compare y x).
Qed.

(** ** The algorithm, for any comparison *)

Section stable.
Context {A : Type} (less : A → A → bool).

(** [insertionSort_func]: the element moves left past those it is less than;
    the sorted part is held in reverse. *)
Fixpoint insert_back (x : A) (rev_sorted : list A) : list A :=
  match rev_sorted with
  | [] => [x]
  | y :: l => if less x y then y :: insert_back x l else x :: rev_sorted
  end.

Definition insertionSort (l : list A) : list A := reverse (fold_left (fun acc x => insert_back x acc) l []).

(** The first [i] in [i, j) at which [p] fails, by bisection; [j - i] shrinks. *)
Fixpoint bisect (fuel : nat) (p : nat → bool) (i j : nat) : nat :=
  match fuel with
  | O => i
  | S fuel' =>
      if bool_decide (i < j)%nat then
        let h := ((i + j) / 2)%nat in
        if p h then bisect fuel' p (h + 1) j else bisect fuel' p i h
      else i
  end.

(** Exchange the blocks [a, m) and [m, b). *)
Definition rotate (l : list A) (a m b : nat) : list A :=
  take a l ++ take (b - m) (drop m l) ++ take (m - a) (drop a l) ++ drop b l.

Definition less_idx (l : list A) (i j : nat) : bool :=
  match l !! i, l !! j with Some x, Some y => less x y | _, _ => false end.

(** Merge the sorted blocks [a, m) and [m, b); the blocks of the recursive
    calls are shorter. *)
Fixpoint symMerge (fuel : nat) (l : list A) (a m b : nat) : list A :=
  match fuel with
  | O => l
  | S fuel' =>
      if bool_decide (m - a = 1)%nat then
        rotate l a m (bisect (b - m) (fun h => less_idx l h a) m b)
      else if bool_decide (b - m = 1)%nat then
        rotate l (bisect (m - a) (fun h => negb (less_idx l m h)) a m) m b
      else
        let mid := ((a + b) / 2)%nat in
        let n := (mid + m)%nat in
        let '(start, r) := if bool_decide (mid < m)%nat then (n - b, mid)%nat else (a, m) in
        let p := (n - 1)%nat in
        let start := bisect (r - start) (fun c => negb (less_idx l (p - c) c)) start r in
        let stop := (n - start)%nat in
        let l := if bool_decide (start < m)%nat && bool_decide (m < stop)%nat
                 then rotate l start m stop else l in
        let l := if bool_decide (a < start)%nat && bool_decide (start < mid)%nat
                 then symMerge fuel' l a start mid else l in
        if bool_decide (mid < stop)%nat && bool_decide (stop < b)%nat
        then symMerge fuel' l mid stop b else l
  end.

Definition blockSize : nat := 20.

(** Sort each block of [blockSize]. *)
Fixpoint sort_blocks (fuel : nat) (l : list A) : list A :=
  match fuel with
  | O => l
  | S fuel' =>
      if bool_decide (length l < blockSize)%nat then insertionSort l
      else insertionSort (take blockSize l) ++ sort_blocks fuel' (drop blockSize l)
  end.

(** Merge neighbouring blocks of size [k], from [a]; [a] grows. *)
Fixpoint merge_blocks (fuel k : nat) (l : list A) (a : nat) : list A :=
  match fuel with
  | O => l
  | S fuel' =>
      let n := length l in
      if bool_decide (a + 2 * k ≤ n)%nat
      then merge_blocks fuel' k (symMerge n l a (a + k) (a + 2 * k)) (a + 2 * k)
      else if bool_decide (a + k < n)%nat then symMerge n l a (a + k) n else l
  end.

(** Double the block size until it covers the slice. *)
Fixpoint merge_all (fuel k : nat) (l : list A) : list A :=
  match fuel with
  | O => l
  | S fuel' =>
      if bool_decide (k < length l)%nat
      then merge_all fuel' (2 * k) (merge_blocks (S (length l)) k l 0) else l
  end.

Definition stable_sort (l : list A) : list A :=
  merge_all (length l) blockSize (sort_blocks (S (length l)) l).

(** ** The outcome rearranges the slice *)

Lemma insert_back_perm x l : insert_back x l ≡ₚ x :: l.
Proof.
  induction l as [|y l IH]; cbn; [done|]. destruct (less x y); [|done].
  rewrite IH. apply Permutation_swap.
Qed.

Lemma insertionSort_perm l : insertionSort l ≡ₚ l.
Proof.
  unfold insertionSort. rewrite reverse_Permutation.
  cut (∀ acc, fold_left (fun acc x => insert_back x acc) l acc ≡ₚ l ++ acc).
  { intros H. by rewrite H, app_nil_r. }
  induction l as [|x l IH]; intros acc; cbn; [done|]. rewrite IH, insert_back_perm.
  apply Permutation_sym, Permutation_middle.
Qed.

Lemma insertionSort_elem x l : x ∈ insertionSort l ↔ x ∈ l.
Proof. by rewrite insertionSort_perm. Qed.

Lemma rotate_perm l a m b : (a ≤ m)%nat → (m ≤ b)%nat → rotate l a m b ≡ₚ l.
Proof.
  intros Ham Hmb. unfold rotate.
  rewrite <- (take_drop a l) at 5. apply Permutation_app_head.
  rewrite <- (take_drop (m - a) (drop a l)) at 2. rewrite drop_drop.
  replace (a + (m - a))%nat with m by lia.
  rewrite <- (take_drop (b - m) (drop m l)) at 2. rewrite drop_drop.
  replace (m + (b - m))%nat with b by lia. rewrite !app_assoc. apply Permutation_app_tail, Permutation_app_comm.
Qed.

Lemma bisect_range fuel p i j : (i ≤ j)%nat → (i ≤ bisect fuel p i j ≤ j)%nat.
Proof.
  revert i j. induction fuel as [|fuel IH]; intros i j Hij; cbn [bisect]; [lia|].
  case_bool_decide as Hlt; [|lia].
  assert (Hh : (i ≤ (i + j) / 2)%nat ∧ ((i + j) / 2 < j)%nat).
  { split; [apply Nat.div_le_lower_bound; lia|apply Nat.Div0.div_lt_upper_bound; lia]. }
  revert Hh. generalize ((i + j) / 2)%nat. intros h [Hh1 Hh2].
  destruct (p h); [specialize (IH (h + 1)%nat j)|specialize (IH i h)]; lia.
Qed.

Lemma symMerge_perm fuel l a m b : (a ≤ m)%nat → (m ≤ b)%nat → symMerge fuel l a m b ≡ₚ l.
Proof.
  revert l a m b. induction fuel as [|fuel IH]; intros l a m b Ham Hmb; cbn [symMerge]; [done|].
  case_bool_decide.
  { pose proof (bisect_range (b - m) (fun h => less_idx l h a) m b Hmb). apply rotate_perm; lia. }
  case_bool_decide.
  { pose proof (bisect_range (m - a) (fun h => negb (less_idx l m h)) a m Ham). apply rotate_perm; lia. }
  cbv zeta. match goal with |- context [let '(_, _) := ?e in _] => destruct e as [start0 r] end.
  generalize (bisect (r - start0)
    (fun c => negb (less_idx l ((a + b) / 2 + m - 1 - c) c)) start0 r). intros start.
  generalize ((a + b) / 2 + m - start)%nat ((a + b) / 2)%nat. intros stop mid.
  assert (Hif : ∀ l' a' m' b', l' ≡ₚ l →
    (if bool_decide (a' < m')%nat && bool_decide (m' < b')%nat then symMerge fuel l' a' m' b' else l') ≡ₚ l).
  { intros l' a' m' b' Hl. repeat case_bool_decide; try done. cbn. by rewrite IH by lia. }
  apply Hif, Hif. repeat case_bool_decide; try done. apply rotate_perm; lia.
Qed.

Lemma sort_blocks_perm fuel l : sort_blocks fuel l ≡ₚ l.
Proof.
  revert l. induction fuel as [|fuel IH]; intros l; cbn [sort_blocks]; [done|].
  case_bool_decide; [apply insertionSort_perm|].
  by rewrite insertionSort_perm, IH, take_drop.
Qed.

Lemma merge_blocks_perm fuel k l a : merge_blocks fuel k l a ≡ₚ l.
Proof.
  revert l a. induction fuel as [|fuel IH]; intros l a; cbn [merge_blocks]; [done|].
  case_bool_decide; [rewrite IH; apply symMerge_perm; lia|].
  case_bool_decide; [apply symMerge_perm; lia|done].
Qed.

Lemma merge_all_perm fuel k l : merge_all fuel k l ≡ₚ l.
Proof.
  revert k l. induction fuel as [|fuel IH]; intros k l; cbn [merge_all]; [done|].
  case_bool_decide; [|done]. by rewrite IH, merge_blocks_perm.
Qed.

Lemma stable_sort_perm l : stable_sort l ≡ₚ l.
Proof. unfold stable_sort. by rewrite merge_all_perm, sort_blocks_perm. Qed.

Lemma stable_sort_elem x l : x ∈ stable_sort l ↔ x ∈ l.
Proof. by rewrite stable_sort_perm. Qed.

(** ** Slices of at most one block *)

Lemma stable_sort_short l : (length l ≤ blockSize)%nat → stable_sort l = insertionSort l.
Proof.
  intros Hl. unfold stable_sort.
  assert (E : sort_blocks (S (length l)) l = insertionSort l).
  { cbn [sort_blocks]. case_bool_decide; [done|]. assert (Hn : length l = blockSize) by lia.
    rewrite take_ge, drop_ge by lia. destruct (length l); [done|]. cbn [sort_blocks].
    rewrite bool_decide_true by (cbn; unfold blockSize; lia). cbn. by rewrite app_nil_r. }
  rewrite E. destruct (length l) eqn:En; [done|]. cbn [merge_all].
  rewrite bool_decide_false; [done|]. rewrite insertionSort_perm. lia.
Qed.

(** No element is less than its left neighbour. *)
Definition neighbours_ordered (l : list A) : Prop :=
  ∀ i x y, l !! i = Some x → l !! S i = Some y → less y x = false.

Hypothesis less_asym : ∀ x y, less x y = true → less y x = false.

Lemma insert_back_sorted x l :
  Sorted (fun a b => less a b = false) l → Sorted (fun a b => less a b = false) (insert_back x l).
Proof using less_asym.
  induction 1 as [|y l Hl IH Hy]; cbn; [by repeat constructor|].
  destruct (less x y) eqn:E; [|by repeat constructor].
  constructor; [done|]. destruct l as [|z l]; cbn; [constructor; by apply less_asym|].
  destruct (less x z); constructor; [by inversion Hy|by apply less_asym].
Qed.

Lemma insertionSort_neighbours l : neighbours_ordered (insertionSort l).
Proof using less_asym.
  unfold insertionSort.
  assert (Hs : Sorted (fun a b => less a b = false) (fold_left (fun acc x => insert_back x acc) l [])).
  { assert (H0 : Sorted (fun a b => less a b = false) []) by constructor.
    revert H0. generalize (@nil A). induction l as [|x l IH]; intros acc Hacc; cbn; [done|].
    by apply IH, insert_back_sorted. }
  revert Hs. generalize (fold_left (fun acc x => insert_back x acc) l []). clear l. intros l Hs i x y Hx Hy.
  apply reverse_lookup_Some in Hx as [Hx Hi]. apply reverse_lookup_Some in Hy as [Hy Hi'].
  assert (Hadj : ∀ k u v, l !! k = Some u → l !! S k = Some v → less u v = false).
  { clear -Hs. induction Hs as [|u l Hl IH Hu]; intros [|k] v w; cbn; try done.
    - intros [= <-] Hw. destruct l; [done|]. injection Hw as ->. by inversion Hu.
    - apply IH. }
  apply (Hadj (length l - S (S i))%nat); [done|].
  by replace (S (length l - S (S i))) with (length l - S i)%nat by lia.
Qed.

Lemma stable_sort_neighbours l : (length l ≤ blockSize)%nat → neighbours_ordered (stable_sort l).
Proof using less_asym. intros Hl. rewrite stable_sort_short by done. apply insertionSort_neighbours. Qed.

(** For a transitive comparison neighbours settle the whole order. *)
Hypothesis less_negtrans : ∀ x y z, less x y = false → less y z = false → less x z = false.

Lemma insertionSort_ordered l : ordered less (insertionSort l).
Proof using less_asym less_negtrans.
  apply Sorted_StronglySorted.
  { intros x y z Hyx Hzy. by eapply less_negtrans. }
  pose proof (insertionSort_neighbours l) as H. induction (insertionSort l) as [|x s IH]; constructor.
  - apply IH. intros i. exact (H (S i)).
  - destruct s as [|y s]; constructor. exact (H 0%nat x y eq_refl eq_refl).
Qed.

Lemma stable_sort_ordered l : (length l ≤ blockSize)%nat → ordered less (stable_sort l).
Proof using less_asym less_negtrans. intros Hl. rewrite stable_sort_short by done. apply insertionSort_ordered. Qed.

(** When no two elements compare as equal there is one order to sort into. *)
Lemma insertionSort_unique l k :
  (∀ x y, x ∈ l → y ∈ l → less x y = false → less y x = false → x = y) →
  l ≡ₚ k → ordered less k → insertionSort l = k.
Proof using less_asym less_negtrans.
  intros Htot Hp Hk. apply (StronglySorted_unique_strong (fun x y => less y x = false)).
  - intros x y Hx Hy Hxy Hyx. rewrite insertionSort_elem in Hx. rewrite <- Hp in Hy. by apply Htot.
  - apply insertionSort_ordered.
  - exact Hk.
  - by rewrite insertionSort_perm.
Qed.
End stable.

(** ** Sorting by a name *)

Lemma ascii_compare_Lt a b : Ascii.compare a b = Lt ↔ (Ascii.N_of_ascii a < Ascii.N_of_ascii b)%N.
Proof. unfold Ascii.compare. apply N.compare_lt_iff. Qed.

Lemma ascii_compare_Eq a b : Ascii.compare a b = Eq ↔ a = b.
Proof.
  unfold Ascii.compare. rewrite N.compare_eq_iff. split; [|by intros ->].
  intros H. by rewrite <- (Ascii.ascii_N_embedding a), H, Ascii.ascii_N_embedding.
Qed.

Lemma string_compare_trans x y z :
  String.compare x y = Lt → String.compare y z = Lt → String.compare x z = Lt.
Proof.
  revert y z. induction x as [|a x IH]; intros [|b y] [|c z]; cbn; try done.
  destruct (Ascii.compare a b) eqn:Eab; [|intros _|done].
  - apply ascii_compare_Eq in Eab as ->. destruct (Ascii.compare b c); [|done|done]. apply IH.
  - apply ascii_compare_Lt in Eab. destruct (Ascii.compare b c) eqn:Ebc; [| |done].
    + apply ascii_compare_Eq in Ebc as ->. apply ascii_compare_Lt in Eab. by rewrite Eab.
    + apply ascii_compare_Lt in Ebc. intros _.
      assert (H : (Ascii.N_of_ascii a < Ascii.N_of_ascii c)%N) by (by eapply N.lt_trans).
      apply ascii_compare_Lt in H. by rewrite H.
Qed.

Lemma ltb_total x y : String.ltb x y = false → String.ltb y x = false → x = y.
Proof.
  unfold String.ltb. rewrite (String.compare_antisym x y).
  destruct (String.compare y x) eqn:E; [|done|done]. intros _ _. by apply String.compare_eq_iff in E.
Qed.

Lemma ltb_negtrans x y z : String.ltb x y = false → String.ltb y z = false → String.ltb x z = false.
Proof.
  intros Hxy Hyz. destruct (String.ltb x z) eqn:Hxz; [|done]. exfalso.
  destruct (String.ltb y x) eqn:Hyx.
  - assert (String.ltb y z = true); [|congruence]. unfold String.ltb in *.
    destruct (String.compare y x) eqn:E1; try done. destruct (String.compare x z) eqn:E2; try done.
    by rewrite (string_compare_trans _ _ _ E1 E2).
  - rewrite (ltb_total _ _ Hxy Hyx) in Hxz. congruence.
Qed.

Section by_name.
Context {A : Type} (name : A → string).

Definition name_before (x y : A) : bool := String.ltb (name x) (name y).

(** A list of different names sorts into one list, whatever its order was. *)
Lemma sort_by_name_unique l k :
  NoDup (map name l) → l ≡ₚ k → insertionSort name_before l = insertionSort name_before k.
Proof using.
  intros Hnd Hp. apply insertionSort_unique.
  - intros x y. apply ltb_asym.
  - intros x y z. apply ltb_negtrans.
  - intros x y Hx Hy H1 H2. pose proof (ltb_total _ _ H1 H2) as Hn.
    apply list_elem_of_lookup in Hx as [i Hi]. apply list_elem_of_lookup in Hy as [j Hj].
    assert (i = j) as <-; [|congruence]. eapply NoDup_lookup; [exact Hnd| |]; rewrite list_lookup_fmap.
    + by rewrite Hi.
    + rewrite Hj. cbn. by rewrite Hn.
  - by rewrite insertionSort_perm.
  - apply insertionSort_ordered; [intros x y; apply ltb_asym|intros x y z; apply ltb_negtrans].
Qed.
End by_name.
