(* ===== verification/Arbitration.v ===== *)
(** * Signal arbitration ([internal/agent/arbitration])

    Seven kinds of learning signals compete to adjust the score of a path; the
    resolver applies five rules in a fixed order and keeps a full trace. *)

From stdpp Require Import base strings list tactics.
From Stdlib Require Import ZArith Lia.
From S2P Require Import Prelude GoFloat GoSort.

Open Scope Z_scope.

Inductive SignalType : Type :=
| SignalStability
| SignalCalibration
| SignalCausal
| SignalComparative
| SignalPathLearning
| SignalTransitionLearning
| SignalExploration.

#[export] Instance SignalType_eq_dec : EqDecision SignalType.
Proof. solve_decision. Defined.

(** The integer behind the constant. *)
Definition signal_rank (s : SignalType) : Z :=
  match s with
  | SignalStability => 0
  | SignalCalibration => 1
  | SignalCausal => 2
  | SignalComparative => 3
  | SignalPathLearning => 4
  | SignalTransitionLearning => 5
  | SignalExploration => 6
  end.

Definition SignalType_String (s : SignalType) : string :=
  match s with
  | SignalStability => "stability"
  | SignalCalibration => "calibration"
  | SignalCausal => "causal"
  | SignalComparative => "comparative"
  | SignalPathLearning => "path_learning"
  | SignalTransitionLearning => "transition_learning"
  | SignalExploration => "exploration"
  end.

Inductive Recommendation : Type := RecommendNeutral | RecommendPrefer | RecommendAvoid.

#[export] Instance Recommendation_eq_dec : EqDecision Recommendation.
Proof. solve_decision. Defined.

Definition recommendation_rank (r : Recommendation) : Z :=
  match r with RecommendNeutral => 0 | RecommendPrefer => 1 | RecommendAvoid => 2 end.

Record Signal := mkSignal {
  sg_Type : SignalType;
  sg_Recommendation : Recommendation;
  sg_Adjustment : float64;
  sg_Confidence : float64;
  sg_Source : string
}.

Definition ConfidenceSuppressionThreshold : float64 := lit 4 10.
(** [1 - NeutralizationStrength], a constant expression: exactly 0.7, rounded once. *)
Definition neutralization_factor : float64 := lit 7 10.

Record SuppressedSignal := mkSuppressed {
  ss_Signal : Signal;
  ss_Rule : string;
  ss_Reason : string
}.

Record AppliedSignal := mkApplied {
  as_Signal : Signal;
  as_Adjustment : float64
}.

Record ArbitrationTrace := mkArbitrationTrace {
  ar_PathSignature : string;
  ar_RawSignals : list Signal;
  ar_SuppressedSignals : list SuppressedSignal;
  ar_AppliedSignals : list AppliedSignal;
  ar_WinningSignal : option Signal;
  ar_RulesApplied : list string;
  ar_FinalAdjustment : float64;
  ar_Reason : string
}.

Record ArbitrationResult := mkArbitrationResult {
  re_FinalAdjustment : float64;
  re_Trace : ArbitrationTrace
}.

(** ** Priorities *)

Definition Priority (s : SignalType) : Z := signal_rank s + 1.
Definition HigherPriority (a b : SignalType) : bool := bool_decide (Priority a < Priority b).

Definition AllSignalTypes : list SignalType :=
  [SignalStability; SignalCalibration; SignalCausal; SignalComparative; SignalPathLearning;
   SignalTransitionLearning; SignalExploration].

Definition IsLearningSignal (s : SignalType) : bool :=
  bool_decide (s = SignalPathLearning) || bool_decide (s = SignalTransitionLearning)
  || bool_decide (s = SignalComparative).

Definition IsExplorationBlockedBy (blocker : SignalType) : bool :=
  bool_decide (blocker = SignalStability) || bool_decide (blocker = SignalCalibration).

(** ** The rules *)

Definition signal_less (x y : Signal) : bool :=
  if bool_decide (sg_Type x ≠ sg_Type y)
  then bool_decide (signal_rank (sg_Type x) < signal_rank (sg_Type y))
  else bool_decide (recommendation_rank (sg_Recommendation y)
                    < recommendation_rank (sg_Recommendation x)).

Definition sortSignals (signals : list Signal) : list Signal := SliceStable signal_less signals.

Definition directional (s : Signal) : bool :=
  bool_decide (sg_Recommendation s ≠ RecommendNeutral).

(** The loop that moves the signals satisfying [p] to the suppressed list; when
    none does, the input slice is returned unchanged. *)
Definition suppress (p : Signal → bool) (rule reason : string) (signals : list Signal)
    : list Signal * list SuppressedSignal :=
  let fix go l active suppressed :=
    match l with
    | [] => (active, suppressed)
    | s :: l' => if p s then go l' active (suppressed ++ [mkSuppressed s rule reason])
                 else go l' (active ++ [s]) suppressed
    end in
  let '(active, suppressed) := go signals [] [] in
  match suppressed with
  | [] => (signals, [])
  | _ => (active, suppressed)
  end.

Definition applyExplorationIsolation (signals : list Signal)
    : list Signal * list SuppressedSignal :=
  let hasBlocker := existsb (fun s => IsExplorationBlockedBy (sg_Type s) && directional s) signals in
  if negb hasBlocker then (signals, [])
  else suppress (fun s => bool_decide (sg_Type s = SignalExploration)) "exploration_isolation"
         "exploration cannot override stability/calibration" signals.

Definition applyConfidenceSuppression (signals : list Signal) (calibratedConfidence : float64)
    : list Signal * list SuppressedSignal :=
  if fleb ConfidenceSuppressionThreshold calibratedConfidence then (signals, [])
  else suppress (fun s => IsLearningSignal (sg_Type s)) "confidence_suppression"
         "calibrated confidence below threshold" signals.

Definition contradicts (a b : Recommendation) : bool :=
  bool_decide (a = RecommendPrefer) && bool_decide (b = RecommendAvoid)
  || bool_decide (a = RecommendAvoid) && bool_decide (b = RecommendPrefer).

(** The first dominant that overrides [s]. *)
Definition overrider (dominants : list (SignalType * Recommendation)) (s : Signal)
    : option (SignalType * Recommendation) :=
  if directional s
  then List.find (fun d => HigherPriority (fst d) (sg_Type s)
                           && contradicts (snd d) (sg_Recommendation s)) dominants
  else None.

Fixpoint override_loop (dominants : list (SignalType * Recommendation)) (signals : list Signal)
    (active : list Signal) (suppressed : list SuppressedSignal)
    : list Signal * list SuppressedSignal :=
  match signals with
  | [] => (active, suppressed)
  | s :: l' =>
      match overrider dominants s with
      | Some d =>
          override_loop dominants l' active
            (suppressed ++ [mkSuppressed s "hard_override"
                              (SignalType_String (fst d) +:+ " overrides "
                               +:+ SignalType_String (sg_Type s))])
      | None => override_loop dominants l' (active ++ [s]) suppressed
      end
  end.

Definition applyHardOverride (signals : list Signal) : list Signal * list SuppressedSignal :=
  if bool_decide (length signals <= 1)%nat then (signals, [])
  else
    let dominants := map (fun s => (sg_Type s, sg_Recommendation s))
                         (List.filter directional signals) in
    override_loop dominants signals [] [].

Definition has_rec (r : Recommendation) (signals : list Signal) : bool :=
  existsb (fun s => bool_decide (sg_Recommendation s = r)) signals.

Definition hasConflict (signals : list Signal) : bool :=
  has_rec RecommendPrefer signals && has_rec RecommendAvoid signals.

(** [total := 0.0; for ... { total += s.Adjustment }] *)
Definition total_adjustment (signals : list Signal) : float64 :=
  fold_left (fun t s => fadd t (sg_Adjustment s)) signals f0.

Definition computeNeutralization (signals : list Signal) : float64 :=
  match signals with
  | [] => f0
  | _ => fmul (total_adjustment signals) neutralization_factor
  end.

(** The winner loop of the reinforcement phase. *)
Definition winning_signal (signals : list Signal) : option Signal :=
  fold_left (fun w s => match w with
                        | None => Some s
                        | Some w0 => if HigherPriority (sg_Type s) (sg_Type w0) then Some s else w
                        end) signals None.

Definition ResolveSignals (pathSignature : string) (signals : list Signal)
    (calibratedConfidence : float64) : ArbitrationResult :=
  let result adj suppressed applied winner rules reason :=
    mkArbitrationResult adj
      (mkArbitrationTrace pathSignature signals suppressed applied winner rules adj reason) in
  match signals with
  | [] => result f0 [] [] None [] "no_signals"
  | _ =>
      let sorted := sortSignals signals in
      let '(active1, sup1) := applyExplorationIsolation sorted in
      let rules1 := match sup1 with [] => [] | _ => ["exploration_isolation"] end in
      let '(active2, sup2) := applyConfidenceSuppression active1 calibratedConfidence in
      let rules2 := rules1 ++ match sup2 with [] => [] | _ => ["confidence_suppression"] end in
      let '(active, sup3) := applyHardOverride active2 in
      let rules3 := rules2 ++ match sup3 with [] => [] | _ => ["hard_override"] end in
      let suppressed := sup1 ++ sup2 ++ sup3 in
      let applied := map (fun s => mkApplied s (sg_Adjustment s)) active in
      match active with
      | [] => result f0 suppressed [] None rules3 "all_signals_suppressed"
      | _ =>
          if hasConflict active then
            result (computeNeutralization active) suppressed applied None
              (rules3 ++ ["conflict_neutralization"]) "conflict_neutralized"
          else
            result (total_adjustment active) suppressed applied (winning_signal active)
              (rules3 ++ ["reinforcement"])
              (if bool_decide (length active = 1)%nat then "single_signal"
               else "signals_reinforced")
      end
  end.

Definition demo_signals : list Signal :=
  [mkSignal SignalExploration RecommendPrefer (lit 1 10) f1 "e";
   mkSignal SignalCausal RecommendPrefer (lit 2 10) f1 "c";
   mkSignal SignalStability RecommendAvoid (lit 3 10) f1 "s";
   mkSignal SignalPathLearning RecommendAvoid (lit 1 10) f1 "p"].

Example resolve_demo :
  let r := ResolveSignals "x" demo_signals (lit 1 2) in
  (sg_Source <$> (as_Signal <$> ar_AppliedSignals (re_Trace r)),
   sg_Source <$> (ss_Signal <$> ar_SuppressedSignals (re_Trace r)),
   ar_RulesApplied (re_Trace r))
  = (["s"], ["e"; "c"; "p"], ["exploration_isolation"; "hard_override"; "reinforcement"]).
Proof. vm_compute. reflexivity. Qed.

(** Isolation suppresses an exploration signal also when it agrees with the
    stability signal that blocks it. *)
Example agreeing_exploration :
  let r := ResolveSignals "x" [mkSignal SignalExploration RecommendPrefer (lit 1 10) f1 "e";
                               mkSignal SignalStability RecommendPrefer (lit 3 10) f1 "s"] f1 in
  (sg_Source <$> (ss_Signal <$> ar_SuppressedSignals (re_Trace r)), ss_Rule <$> ar_SuppressedSignals (re_Trace r))
  = (["e"], ["exploration_isolation"]).
Proof. vm_compute. reflexivity. Qed.

(** ** Specification: who is admitted

    The same rules without phases, loops or sorting. *)

Definition blocked (signals : list Signal) : bool :=
  existsb (fun s => IsExplorationBlockedBy (sg_Type s) && directional s) signals.

(** [s] is excluded by isolation or by low confidence. *)
Definition excluded (signals : list Signal) (confidence : float64) (s : Signal) : bool :=
  blocked signals && bool_decide (sg_Type s = SignalExploration)
  || negb (fleb ConfidenceSuppressionThreshold confidence) && IsLearningSignal (sg_Type s).

(** [d] has a strictly higher priority than [s] and the opposite direction. *)
Definition overrides (d s : Signal) : bool :=
  HigherPriority (sg_Type d) (sg_Type s) && contradicts (sg_Recommendation d) (sg_Recommendation s).

Definition admitted (signals : list Signal) (confidence : float64) (s : Signal) : bool :=
  negb (excluded signals confidence s)
  && negb (existsb (fun d => negb (excluded signals confidence d) && overrides d s) signals).

(** ** Lemmas *)

Lemma suppress_spec p rule reason l :
  suppress p rule reason l
  = (List.filter (fun s => negb (p s)) l,
     map (fun s => mkSuppressed s rule reason) (List.filter p l)).
Proof.
  unfold suppress.
  match goal with |- (let '(_, _) := ?go l [] [] in _) = _ =>
    assert (∀ k a b, go k a b = (a ++ List.filter (fun s => negb (p s)) k,
       b ++ map (fun s => mkSuppressed s rule reason) (List.filter p k))) as ->
  end.
  { induction k as [|s k IH]; intros a b; [by rewrite !app_nil_r|].
    cbn. destruct (p s); rewrite IH; cbn; by rewrite <- app_assoc. }
  cbn. destruct (List.filter p l) eqn:E; cbn; [|done]. f_equal. symmetry. apply filter_true.
  intros s Hs. apply negb_true_iff. destruct (p s) eqn:Ep; [|done].
  apply list_elem_of_In in Hs. pose proof (proj2 (filter_In p s l) (conj Hs Ep)) as Hin.
  by rewrite E in Hin.
Qed.

Lemma isolation_spec l :
  let out := applyExplorationIsolation l in
  let p s := blocked l && bool_decide (sg_Type s = SignalExploration) in
  fst out = List.filter (fun s => negb (p s)) l ∧
  map ss_Signal (snd out) = List.filter p l.
Proof.
  cbn. unfold applyExplorationIsolation. fold (blocked l). destruct (blocked l); cbn [negb].
  - rewrite suppress_spec. cbn. split; [done|]. by rewrite map_map, map_id.
  - cbn. rewrite filter_true, filter_false by done. done.
Qed.

Lemma confidence_spec l c :
  let out := applyConfidenceSuppression l c in
  let p s := negb (fleb ConfidenceSuppressionThreshold c) && IsLearningSignal (sg_Type s) in
  fst out = List.filter (fun s => negb (p s)) l ∧
  map ss_Signal (snd out) = List.filter p l.
Proof.
  cbn. unfold applyConfidenceSuppression. destruct (fleb _ c); cbn [negb].
  - cbn. rewrite filter_true, filter_false by done. done.
  - rewrite suppress_spec. cbn. split; [done|]. by rewrite map_map, map_id.
Qed.

Lemma contradicts_directional d s :
  contradicts (sg_Recommendation d) (sg_Recommendation s) = true →
  directional d = true ∧ directional s = true.
Proof. unfold contradicts, directional. by destruct (sg_Recommendation d), (sg_Recommendation s). Qed.

Lemma overrides_irrefl s : overrides s s = false.
Proof.
  unfold overrides, HigherPriority. rewrite bool_decide_false; [done|lia].
Qed.

(** A signal has an overrider among the dominants of [l] exactly when a signal
    of [l] overrides it. *)
Lemma overrider_spec l s :
  match overrider (map (fun s => (sg_Type s, sg_Recommendation s)) (List.filter directional l)) s with
  | Some _ => existsb (fun d => overrides d s) l = true
  | None => existsb (fun d => overrides d s) l = false
  end.
Proof.
  unfold overrider. destruct (directional s) eqn:Es.
  - destruct (List.find _ _) as [d|] eqn:E.
    + apply find_some in E as [Hin Hd]. apply in_map_iff in Hin as (x & <- & Hx).
      apply filter_In in Hx as [Hx _]. apply existsb_exists. by exists x.
    + apply not_true_iff_false. rewrite existsb_exists. intros (d & Hd & Ho).
      eapply find_none in E as E'; [|apply in_map, filter_In; split; [exact Hd|]].
      * unfold overrides in Ho. cbn in E'. congruence.
      * unfold overrides in Ho. apply andb_prop in Ho as [_ Ho].
        by apply contradicts_directional in Ho as [? _].
  - apply not_true_iff_false. rewrite existsb_exists. intros (d & Hd & Ho).
    unfold overrides in Ho. apply andb_prop in Ho as [_ Ho].
    apply contradicts_directional in Ho as [_ Ho]. congruence.
Qed.

Lemma hard_override_spec l :
  let out := applyHardOverride l in
  let p s := existsb (fun d => overrides d s) l in
  fst out = List.filter (fun s => negb (p s)) l ∧
  map ss_Signal (snd out) = List.filter p l.
Proof.
  cbn. unfold applyHardOverride. case_bool_decide as Hlen.
  - destruct l as [|s [|]]; cbn in *; [done| |lia]. by rewrite overrides_irrefl.
  - set (doms := map _ _). clear Hlen.
    assert (∀ k a b, let out := override_loop doms k a b in
      fst out = a ++ List.filter (fun s => negb (existsb (fun d => overrides d s) l)) k ∧
      map ss_Signal (snd out)
      = map ss_Signal b ++ List.filter (fun s => existsb (fun d => overrides d s) l) k) as H.
    { induction k as [|s k IH]; intros a b; cbn; [by rewrite !app_nil_r|].
      pose proof (overrider_spec l s) as Hs. fold doms in Hs.
      destruct (overrider doms s); rewrite Hs; cbn.
      - destruct (IH a (b ++ [mkSuppressed s "hard_override"
          (SignalType_String (fst p) +:+ " overrides " +:+ SignalType_String (sg_Type s))]))
          as [H1 H2].
        rewrite H1, H2, map_app, <- app_assoc. done.
      - destruct (IH (a ++ [s]) b) as [H1 H2]. rewrite H1, H2, <- app_assoc. done. }
    apply (H l [] []).
Qed.

(** The phases together. *)
Definition arbitrated (signals : list Signal) (confidence : float64)
    : list Signal * list SuppressedSignal :=
  let '(active1, sup1) := applyExplorationIsolation (sortSignals signals) in
  let '(active2, sup2) := applyConfidenceSuppression active1 confidence in
  let '(active, sup3) := applyHardOverride active2 in
  (active, sup1 ++ sup2 ++ sup3).

Lemma blocked_sorted l : blocked (sortSignals l) = blocked l.
Proof. apply existsb_perm, SliceStable_perm. Qed.

Lemma arbitrated_spec signals confidence :
  let out := arbitrated signals confidence in
  fst out = List.filter (admitted signals confidence) (sortSignals signals) ∧
  map ss_Signal (snd out) ++ fst out ≡ₚ signals.
Proof.
  cbn. unfold arbitrated. set (l := sortSignals signals).
  pose proof (isolation_spec l) as [A1 S1].
  destruct (applyExplorationIsolation l) as [active1 sup1]; cbn [fst snd] in *.
  pose proof (confidence_spec active1 confidence) as [A2 S2].
  destruct (applyConfidenceSuppression active1 confidence) as [active2 sup2]; cbn [fst snd] in *.
  pose proof (hard_override_spec active2) as [A3 S3].
  destruct (applyHardOverride active2) as [active sup3]; cbn [fst snd] in *.
  split.
  - assert (active2 = List.filter (fun s => negb (excluded signals confidence s)) l) as E2.
    { rewrite A2, A1, filter_filter_and. apply filter_ext. intros s.
      unfold excluded. subst l. by rewrite blocked_sorted, negb_orb. }
    rewrite A3, E2, filter_filter_and. apply filter_ext. intros s. unfold admitted.
    rewrite existsb_filter. do 2 f_equal. apply existsb_perm, SliceStable_perm.
  - rewrite !map_app, S1, S2, S3, A3, <- !app_assoc, filter_split.
    rewrite A2, filter_split, A1, filter_split. apply SliceStable_perm.
Qed.

Lemma ResolveSignals_arbitrated path signals confidence :
  let '(active, sup) := arbitrated signals confidence in
  let r := ResolveSignals path signals confidence in
  let t := re_Trace r in
  ar_RawSignals t = signals ∧
  map as_Signal (ar_AppliedSignals t) = active ∧
  ar_SuppressedSignals t = sup ∧
  re_FinalAdjustment r = ar_FinalAdjustment t ∧
  re_FinalAdjustment r = (if hasConflict active then fmul (total_adjustment active) (lit 7 10)
                          else total_adjustment active) ∧
  ar_WinningSignal t = if hasConflict active then None else winning_signal active.
Proof.
  unfold arbitrated, ResolveSignals. destruct signals as [|s0 ss].
  { cbn. unfold applyConfidenceSuppression. by destruct (fleb _ _). }
  destruct (applyExplorationIsolation _) as [active1 sup1].
  destruct (applyConfidenceSuppression _ _) as [active2 sup2].
  destruct (applyHardOverride _) as [active sup3].
  destruct active as [|a active]; [done|].
  destruct (hasConflict (a :: active)); cbn [re_Trace re_FinalAdjustment ar_RawSignals
    ar_AppliedSignals ar_SuppressedSignals ar_FinalAdjustment ar_WinningSignal];
    rewrite map_map, map_id; done.
Qed.

Lemma ResolveSignals_admitted path signals confidence :
  let t := re_Trace (ResolveSignals path signals confidence) in
  map as_Signal (ar_AppliedSignals t)
  = List.filter (admitted signals confidence) (sortSignals signals) ∧
  map ss_Signal (ar_SuppressedSignals t) ++ map as_Signal (ar_AppliedSignals t) ≡ₚ signals.
Proof.
  pose proof (ResolveSignals_arbitrated path signals confidence) as H.
  pose proof (arbitrated_spec signals confidence) as [H1 H2].
  destruct (arbitrated signals confidence) as [active sup]; cbn [fst snd] in *.
  destruct H as (_ & -> & -> & _). done.
Qed.

Lemma signal_less_asym x y : signal_less x y = true → signal_less y x = false.
Proof. unfold signal_less. repeat case_bool_decide; try done; try lia; congruence. Qed.

Lemma signal_less_negtrans x y z :
  signal_less x y = false → signal_less y z = false → signal_less x z = false.
Proof.
  unfold signal_less. intros H1 H2.
  destruct (sg_Type x), (sg_Type y); try discriminate H1;
    destruct (sg_Type z); try discriminate H2; try reflexivity;
    cbn in *; repeat case_bool_decide; try done; lia.
Qed.

Lemma signal_less_rank x y :
  signal_less y x = false → signal_rank (sg_Type x) ≤ signal_rank (sg_Type y).
Proof.
  unfold signal_less. repeat case_bool_decide; try done; intros; [lia|].
  destruct (decide (sg_Type y = sg_Type x)) as [->|]; [lia|tauto].
Qed.

(** The winner of a sorted list is its first element. *)
Lemma winning_signal_ordered l : ordered signal_less l → winning_signal l = head l.
Proof.
  destruct l as [|x l]; [done|]. intros Ho. inversion Ho as [|? ? _ H]; subst. clear Ho.
  unfold winning_signal. cbn [fold_left head].
  induction H as [|y l Hy _ IH]; [done|]. cbn [fold_left].
  apply signal_less_rank in Hy. unfold HigherPriority, Priority.
  rewrite bool_decide_false by lia. apply IH.
Qed.

(** ** Claims *)

(** C11: arbitration admits exactly the signals its rules admit, and accounts for
    every input.  The applied signals are, in priority order, those that are not
    excluded by exploration isolation (as soon as a stability or calibration
    signal points in a direction every exploration signal is, also one that
    agrees; the code's comment speaks of those that contradict, see
    [agreeing_exploration]) or by low confidence, and that no remaining
    signal of strictly higher priority contradicts; applied and suppressed
    signals together are the input, each once; the adjustment is the sum of the
    applied ones, scaled by 0.7 when they conflict; and without a conflict the
    winner is the first applied signal. *)
Theorem arbitration_exact (path : string) (signals : list Signal) (confidence : float64) :
  let r := ResolveSignals path signals confidence in
  let t := re_Trace r in
  let applied := map as_Signal (ar_AppliedSignals t) in
  applied = List.filter (admitted signals confidence) (sortSignals signals) ∧
  map ss_Signal (ar_SuppressedSignals t) ++ applied ≡ₚ signals ∧
  re_FinalAdjustment r = (if hasConflict applied then fmul (total_adjustment applied) (lit 7 10)
                          else total_adjustment applied) ∧
  ar_WinningSignal t = (if hasConflict applied then None else head applied).
Proof.
  cbn zeta. destruct (ResolveSignals_admitted path signals confidence) as [Ha Hp].
  pose proof (ResolveSignals_arbitrated path signals confidence) as H.
  destruct (arbitrated signals confidence) as [active sup].
  destruct H as (_ & Eact & _ & _ & Hadj & Hwin). rewrite Eact in *.
  split; [done|]. split; [done|]. split; [done|]. rewrite Hwin.
  destruct (hasConflict active); [done|]. apply winning_signal_ordered. rewrite Ha.
  apply filter_ordered, SliceStable_ordered;
    eauto using signal_less_asym, signal_less_negtrans.
Qed.

Lemma applied_iff path signals confidence s :
  s ∈ map as_Signal (ar_AppliedSignals (re_Trace (ResolveSignals path signals confidence)))
  ↔ s ∈ signals ∧ admitted signals confidence s = true.
Proof.
  destruct (ResolveSignals_admitted path signals confidence) as [-> _].
  rewrite list_elem_of_In, filter_In, <- list_elem_of_In. unfold sortSignals.
  by rewrite SliceStable_elem.
Qed.

Lemma admitted_true signals confidence s :
  admitted signals confidence s = true ↔
  excluded signals confidence s = false ∧
  ∀ d, d ∈ signals → excluded signals confidence d = false → overrides d s = false.
Proof.
  unfold admitted. rewrite andb_true_iff, !negb_true_iff. apply and_iff_compat_l.
  rewrite <- not_true_iff_false, existsb_elem. split.
  - intros H d Hd Hx. destruct (overrides d s) eqn:E; [|done].
    destruct H. exists d. by rewrite Hx, E.
  - intros H (d & Hd & [Hx Ho]%andb_true_iff). apply negb_true_iff in Hx.
    rewrite H in Ho by done. done.
Qed.

Lemma admitted_same_type signals confidence s d :
  s ∈ signals → d ∈ signals → admitted signals confidence s = true →
  admitted signals confidence d = true →
  contradicts (sg_Recommendation s) (sg_Recommendation d) = true → sg_Type s = sg_Type d.
Proof.
  rewrite !admitted_true. intros Hs Hd [Es Os] [Ed Od] Hc.
  pose proof (Os d Hd Ed) as H1. pose proof (Od s Hs Es) as H2. unfold overrides in *.
  assert (contradicts (sg_Recommendation d) (sg_Recommendation s) = true) as Hc'.
  { unfold contradicts in *. by destruct (sg_Recommendation s), (sg_Recommendation d). }
  rewrite Hc, Hc', !andb_true_r in *. unfold HigherPriority in *.
  destruct (sg_Type s), (sg_Type d); done.
Qed.

(** The guarantees the rules are meant to give.  A stability signal is never
    suppressed.  No exploration signal is applied when a stability or
    calibration signal points in a direction, and no learning signal when the
    confidence is not at least 0.4 (or is not a number).  Two applied signals
    that contradict each other are of the same type, so neutralization only
    happens inside one priority level. *)
Theorem arbitration_guarantees (path : string) (signals : list Signal) (confidence : float64) :
  let applied :=
    map as_Signal (ar_AppliedSignals (re_Trace (ResolveSignals path signals confidence))) in
  (∀ s, s ∈ signals → sg_Type s = SignalStability → s ∈ applied) ∧
  (∀ b, b ∈ signals → sg_Type b ∈ [SignalStability; SignalCalibration] →
        sg_Recommendation b ≠ RecommendNeutral →
        ∀ s, s ∈ applied → sg_Type s ≠ SignalExploration) ∧
  (fleb ConfidenceSuppressionThreshold confidence = false →
   ∀ s, s ∈ applied → IsLearningSignal (sg_Type s) = false) ∧
  (∀ s d, s ∈ applied → d ∈ applied →
          contradicts (sg_Recommendation s) (sg_Recommendation d) = true →
          sg_Type s = sg_Type d).
Proof.
  cbn zeta. split; [|split; [|split]].
  - intros s Hs Ht. apply applied_iff. split; [done|]. apply admitted_true.
    unfold excluded, overrides. rewrite Ht. split; [by rewrite !andb_false_r|].
    intros d _ _. by destruct (sg_Type d).
  - intros b Hb Ht Hr s [Hs [Hx _]%admitted_true]%applied_iff Hs'.
    unfold excluded in Hx. apply orb_false_iff in Hx as [Hx _].
    rewrite bool_decide_true, andb_true_r in Hx by done.
    apply not_true_iff_false in Hx. apply Hx. apply existsb_elem. exists b. split; [done|].
    unfold IsExplorationBlockedBy, directional.
    rewrite (bool_decide_true (_ ≠ _)) by done. rewrite andb_true_r.
    rewrite !elem_of_cons in Ht. destruct Ht as [-> |[-> |[]%elem_of_nil]]; done.
  - intros Hc s [Hs [Hx _]%admitted_true]%applied_iff.
    unfold excluded in Hx. apply orb_false_iff in Hx as [_ Hx]. by rewrite Hc in Hx.
  - intros s d [Hs As]%applied_iff [Hd Ad]%applied_iff. by eapply admitted_same_type.
Qed.
