(* ===== verification/GoHeap.v ===== *)
(** * Go's [container/heap]

    The package keeps a binary heap in a slice through the client's [Len],
    [Less], [Swap], [Push] and [Pop].  Here the slice is a list and [less]
    compares elements, which is how every client in this repository compares
    them.  Its correctness is proved for every strict weak order. *)

From stdpp Require Import base list tactics numbers.
From Stdlib Require Import Lia.
From S2P Require Import Prelude GoSort.

Section heap.
Context {A : Type} (less : A → A → bool).

(** [h.Swap(i, j)] *)
Definition swap (l : list A) (i j : nat) : list A :=
  match l !! i, l !! j with
  | Some x, Some y => <[i := y]> (<[j := x]> l)
  | _, _ => l
  end.

(** [h.Less(i, j)]; both indices are in range where it is called. *)
Definition less_at (l : list A) (i j : nat) : bool :=
  match l !! i, l !! j with Some x, Some y => less x y | _, _ => false end.

(** [up(h, j)]; [j] decreases, so [j] rounds of fuel are enough. *)
Fixpoint up (fuel : nat) (l : list A) (j : nat) : list A :=
  match fuel with
  | O => l
  | S fuel' =>
      let i := ((j - 1) / 2)%nat in
      if bool_decide (i = j) || negb (less_at l j i) then l else up fuel' (swap l i j) i
  end.

(** The smaller child of [i] among the first [n] elements. *)
Definition smaller_child (l : list A) (i n : nat) : nat :=
  let j1 := (2 * i + 1)%nat in
  let j2 := (j1 + 1)%nat in
  if bool_decide (j2 < n)%nat && less_at l j2 j1 then j2 else j1.

(** [down(h, i, n)]; [i] increases below [n], so [n] rounds are enough. *)
Fixpoint down (fuel : nat) (l : list A) (i n : nat) : list A :=
  match fuel with
  | O => l
  | S fuel' =>
      if bool_decide (n ≤ 2 * i + 1)%nat then l
      else let j := smaller_child l i n in
           if negb (less_at l j i) then l else down fuel' (swap l i j) j n
  end.

(** The loop of [heap.Init], from index [k - 1] to 0. *)
Fixpoint init_from (k : nat) (l : list A) : list A :=
  match k with
  | O => l
  | S k' => init_from k' (down (length l) l k' (length l))
  end.

Definition heap_Init (l : list A) : list A := init_from (length l / 2) l.

Definition heap_Push (l : list A) (x : A) : list A := up (length l) (l ++ [x]) (length l).

(** [heap.Pop]; the slice is not empty where it is called. *)
Definition heap_Pop (l : list A) : option (A * list A) :=
  let n := (length l - 1)%nat in
  let l' := down n (swap l 0 n) 0 n in
  match l' !! n with
  | Some x => Some (x, take n l')
  | None => None
  end.

(** ** Swapping *)

Lemma swap_lookup l i j k :
  (i < length l)%nat → (j < length l)%nat →
  swap l i j !! k = if decide (k = i) then l !! j else if decide (k = j) then l !! i else l !! k.
Proof using.
  intros Hi Hj. unfold swap.
  destruct (lookup_lt_is_Some_2 l i Hi) as [x Hx], (lookup_lt_is_Some_2 l j Hj) as [y Hy].
  rewrite Hx, Hy. destruct (decide (k = i)) as [-> |Hki].
  - rewrite list_lookup_insert_eq; [done|]. by rewrite length_insert.
  - rewrite list_lookup_insert_ne by done. destruct (decide (k = j)) as [-> |Hkj].
    + by rewrite list_lookup_insert_eq.
    + by rewrite list_lookup_insert_ne.
Qed.

Lemma swap_length l i j : length (swap l i j) = length l.
Proof using. unfold swap. repeat case_match; rewrite ?length_insert; done. Qed.

Lemma swap_perm l i j : swap l i j ≡ₚ l.
Proof using.
  unfold swap. destruct (l !! i) as [x|] eqn:Hx, (l !! j) as [y|] eqn:Hy; try done.
  destruct (decide (i = j)) as [<- |Hne].
  - simplify_eq. by rewrite list_insert_insert_eq, list_insert_id.
  - apply Permutation_inj. split; [by rewrite !length_insert|].
    exists (fun k => if decide (k = i) then j else if decide (k = j) then i else k). split.
    + intros a b. repeat case_decide; congruence.
    + intros k. pose proof (swap_lookup l i j k) as H. unfold swap in H. rewrite Hx, Hy in H.
      rewrite H by (eauto using lookup_lt_Some). repeat case_decide; congruence.
Qed.

(** ** The heap property *)

(** [x] may stand in front of [y]. *)
Definition le (x y : A) : Prop := less y x = false.

Definition le_at (l : list A) (i j : nat) : Prop :=
  ∀ x y, l !! i = Some x → l !! j = Some y → le x y.

Definition child (p c : nat) : Prop := (c = 2 * p + 1 ∨ c = 2 * p + 2)%nat.

(** Parents from index [lo] on are not beaten by their children below [n]. *)
Definition heap_from (lo n : nat) (l : list A) : Prop :=
  ∀ p c, child p c → (lo ≤ p)%nat → (c < n)%nat → le_at l p c.

Definition is_heap (l : list A) : Prop := heap_from 0 (length l) l.

Hypothesis less_asym : ∀ x y, less x y = true → less y x = false.
Hypothesis less_negtrans : ∀ x y z, less x y = false → less y z = false → less x z = false.

Lemma le_refl x : le x x.
Proof using less_asym. unfold le. destruct (less x x) eqn:E; [|done]. pose proof (less_asym x x E). congruence. Qed.

Lemma le_trans x y z : le x y → le y z → le x z.
Proof using less_negtrans. unfold le. eauto. Qed.

Lemma less_at_le l i j : less_at l j i = true → le_at l j i.
Proof using less_asym.
  unfold less_at, le_at, le. intros H x y Hx Hy. rewrite Hx, Hy in H. auto.
Qed.

Lemma less_at_false l i j : less_at l j i = false → le_at l i j.
Proof using. unfold less_at, le_at, le. intros H x y Hx Hy. by rewrite Hx, Hy in H. Qed.

Lemma le_at_trans l i j k : (j < length l)%nat → le_at l i j → le_at l j k → le_at l i k.
Proof using less_negtrans.
  intros Hj H1 H2 x z Hx Hz. destruct (lookup_lt_is_Some_2 l j Hj) as [y Hy].
  eapply le_trans; [by apply H1|by apply H2].
Qed.

(** ** Sifting down *)

(** The heap property holds except below [i], whose children are still not
    better than its parent. *)
Definition hole_down (lo n i : nat) (l : list A) : Prop :=
  (∀ p c, child p c → (lo ≤ p)%nat → (c < n)%nat → p ≠ i → le_at l p c) ∧
  (∀ p c, child p i → child i c → (lo ≤ p)%nat → (c < n)%nat → le_at l p c).

(** [le_at] after a swap, in terms of the list before. *)
Lemma swap_le_at l i j p c :
  (i < length l)%nat → (j < length l)%nat →
  le_at l (if decide (p = i) then j else if decide (p = j) then i else p)
          (if decide (c = i) then j else if decide (c = j) then i else c) →
  le_at (swap l i j) p c.
Proof using.
  intros Hi Hj H x y. rewrite !swap_lookup by done. intros Hx Hy.
  apply H; repeat case_decide; done.
Qed.

Lemma smaller_child_spec l i n :
  (2 * i + 1 < n)%nat →
  let j := smaller_child l i n in
  child i j ∧ (j < n)%nat ∧ ∀ c, child i c → (c < n)%nat → le_at l j c.
Proof using less_asym.
  intros Hn. unfold smaller_child, child.
  case_bool_decide as H2; cbn [andb].
  - destruct (less_at l (2 * i + 1 + 1) (2 * i + 1)) eqn:E.
    + split; [lia|]. split; [lia|]. intros c [-> | ->] _.
      * by apply less_at_le.
      * replace (2 * i + 2)%nat with (2 * i + 1 + 1)%nat by lia.
        intros x y Hx Hy. simplify_eq. by apply le_refl.
    + split; [lia|]. split; [lia|]. intros c [-> | ->] _.
      * intros x y Hx Hy. simplify_eq. by apply le_refl.
      * replace (2 * i + 2)%nat with (2 * i + 1 + 1)%nat by lia. by apply less_at_false.
  - split; [lia|]. split; [lia|]. intros c [-> | ->] Hc; [|lia].
    intros x y Hx Hy. simplify_eq. by apply le_refl.
Qed.

Lemma down_hole lo n i l :
  (n ≤ length l)%nat → (lo ≤ i)%nat → (2 * i + 1 < n)%nat → hole_down lo n i l →
  let j := smaller_child l i n in
  less_at l j i = true → hole_down lo n j (swap l i j).
Proof using less_asym less_negtrans.
  intros Hn Hlo Hi [H1 H2] j Hless. destruct (smaller_child_spec l i n Hi) as (Hc & Hj & Hmin).
  fold j in Hc, Hj, Hmin. assert (Hij : i ≠ j) by (unfold child in Hc; lia).
  split.
  - intros p c Hpc Hp Hcn Hpj. apply swap_le_at; [unfold child in *; lia..|].
    destruct (decide (p = i)) as [-> |Hpi].
    + destruct (decide (c = i)); [unfold child in *; lia|].
      destruct (decide (c = j)); [by apply less_at_le|]. by apply Hmin.
    + rewrite (decide_False (P := p = j)) by done.
      destruct (decide (c = i)) as [-> |]; [by apply H2|].
      destruct (decide (c = j)) as [-> |]; [unfold child in *; lia|]. by apply H1.
  - intros p c Hpj Hjc Hp Hcn. assert (p = i) as -> by (unfold child in *; lia).
    apply swap_le_at; [unfold child in *; lia..|].
    rewrite decide_True by done. rewrite !decide_False by (unfold child in *; lia).
    apply H1; try done; unfold child in *; lia.
Qed.

Lemma down_length fuel l i n : length (down fuel l i n) = length l.
Proof using.
  revert l i. induction fuel as [|fuel IH]; intros l i; cbn [down]; [done|].
  repeat case_match; rewrite ?IH, ?swap_length; done.
Qed.

Lemma down_perm fuel l i n : down fuel l i n ≡ₚ l.
Proof using.
  revert l i. induction fuel as [|fuel IH]; intros l i; cbn [down]; [done|].
  repeat case_match; try done. by rewrite IH, swap_perm.
Qed.

(** Nothing from index [n] on is touched. *)
Lemma down_above fuel l i n k :
  (n ≤ length l)%nat → (n ≤ k)%nat → down fuel l i n !! k = l !! k.
Proof using less_asym.
  intros Hn Hk. revert l i Hn. induction fuel as [|fuel IH]; intros l i Hn; cbn [down]; [done|].
  case_bool_decide as Hi; [done|]. destruct (negb _); [done|].
  destruct (smaller_child_spec l i n) as (Hc & Hj & _); [lia|].
  rewrite IH by (by rewrite swap_length). unfold child in Hc.
  rewrite swap_lookup by lia. by rewrite !decide_False by lia.
Qed.

Lemma down_heap fuel lo n i l :
  (n ≤ length l)%nat → (lo ≤ i)%nat → (n ≤ i + fuel)%nat → hole_down lo n i l →
  heap_from lo n (down fuel l i n).
Proof using less_asym less_negtrans.
  revert l i. induction fuel as [|fuel IH]; intros l i Hn Hlo Hf Hh; cbn [down].
  - intros p c Hpc Hp Hc. apply (proj1 Hh); try done. unfold child in *; lia.
  - case_bool_decide as Hi.
    + intros p c Hpc Hp Hc. apply (proj1 Hh); try done. unfold child in *; lia.
    + destruct (smaller_child_spec l i n) as (Hc & Hj & Hmin); [lia|].
      destruct (less_at l (smaller_child l i n) i) eqn:E; cbn [negb].
      * apply IH; [by rewrite swap_length|unfold child in *; lia..|]. apply down_hole; auto; lia.
      * intros p c Hpc Hp Hcn. destruct (decide (p = i)) as [-> |]; [|by apply (proj1 Hh)].
        eapply (le_at_trans _ _ (smaller_child l i n)); [lia|by apply less_at_false|by apply Hmin].
Qed.

Lemma heap_from_hole lo n l : heap_from (S lo) n l → hole_down lo n lo l.
Proof using.
  intros H. split.
  - intros p c Hpc Hp Hc Hne. apply H; auto. lia.
  - intros p c Hp. unfold child in Hp. lia.
Qed.

Lemma init_from_spec k l :
  heap_from k (length l) l → is_heap (init_from k l) ∧ init_from k l ≡ₚ l.
Proof using less_asym less_negtrans.
  revert l. induction k as [|k IH]; intros l H; cbn [init_from]; [done|].
  destruct (IH (down (length l) l k (length l))) as [H1 H2].
  - rewrite down_length. apply down_heap; try lia. by apply heap_from_hole.
  - split; [done|]. by rewrite H2, down_perm.
Qed.

Lemma heap_Init_spec l : is_heap (heap_Init l) ∧ heap_Init l ≡ₚ l.
Proof using less_asym less_negtrans.
  apply init_from_spec. intros p c Hpc Hp Hc.
  pose proof (Nat.div_mod (length l) 2). pose proof (Nat.mod_upper_bound (length l) 2).
  unfold child in *. lia.
Qed.

(** ** Sifting up *)

Lemma parent_child j : (0 < j)%nat → child ((j - 1) / 2) j.
Proof using.
  intros Hj. pose proof (Nat.div_mod (j - 1) 2). pose proof (Nat.mod_upper_bound (j - 1) 2).
  unfold child. lia.
Qed.

(** The heap property holds except above [j], whose parent is not beaten by
    [j]'s children. *)
Definition hole_up (j : nat) (l : list A) : Prop :=
  (∀ p c, child p c → (c < length l)%nat → c ≠ j → le_at l p c) ∧
  (∀ p c, child p j → child j c → (c < length l)%nat → le_at l p c).

Lemma up_hole i j l :
  (j < length l)%nat → child i j → hole_up j l → less_at l j i = true → hole_up i (swap l i j).
Proof using less_asym less_negtrans.
  intros Hj Hij [H1 H2] Hless. apply less_at_le in Hless.
  assert (Hne : (i < j)%nat) by (unfold child in Hij; lia).
  split.
  - intros p c Hpc Hc Hci. rewrite swap_length in Hc. apply swap_le_at; [lia..|].
    rewrite (decide_False (P := c = i)) by done.
    destruct (decide (c = j)) as [-> |Hcj].
    + assert (p = i) as -> by (unfold child in *; lia). by rewrite decide_True.
    + destruct (decide (p = i)) as [-> |Hpi].
      * apply (le_at_trans l j i c); [lia|done|by apply H1].
      * destruct (decide (p = j)) as [-> |]; [by apply H2|by apply H1].
  - intros p c Hpi Hic Hc. rewrite swap_length in Hc. apply swap_le_at; [lia..|].
    assert (p < i)%nat by (unfold child in *; lia).
    rewrite (decide_False (P := p = i)), (decide_False (P := p = j)) by lia.
    rewrite (decide_False (P := c = i)) by (unfold child in *; lia).
    assert (Hpi' : le_at l p i) by (apply H1; [done|lia|lia]).
    destruct (decide (c = j)) as [-> |]; [done|].
    apply (le_at_trans l p i c); [lia|done|by apply H1].
Qed.

Lemma up_heap fuel l j :
  (j < length l)%nat → (j ≤ fuel)%nat → hole_up j l → is_heap (up fuel l j).
Proof using less_asym less_negtrans.
  assert (Hroot : ∀ l', hole_up 0 l' → is_heap l').
  { intros l' [H _] p c Hpc _ Hc. apply H; [done|done|unfold child in *; lia]. }
  revert l j. induction fuel as [|fuel IH]; intros l j Hj Hf Hh; cbn [up].
  - apply Hroot. by replace 0%nat with j by lia.
  - destruct (decide (j = 0)%nat) as [-> |Hj0]; [by apply Hroot|].
    pose proof (parent_child j ltac:(lia)) as Hp. set (i := ((j - 1) / 2)%nat) in *.
    assert (Hij : (i < j)%nat) by (unfold child in Hp; lia).
    rewrite bool_decide_false by lia. cbn [orb].
    destruct (less_at l j i) eqn:E; cbn [negb].
    + apply IH; [rewrite swap_length; lia|lia|]. by apply up_hole.
    + intros p c Hpc _ Hc. destruct (decide (c = j)) as [-> |]; [|by apply (proj1 Hh)].
      assert (p = i) as -> by (unfold child in *; lia). by apply less_at_false.
Qed.

Lemma up_perm fuel l j : up fuel l j ≡ₚ l.
Proof using.
  revert l j. induction fuel as [|fuel IH]; intros l j; cbn [up]; [done|].
  case_match; [done|]. by rewrite IH, swap_perm.
Qed.

Lemma heap_Push_spec l x : is_heap l → is_heap (heap_Push l x) ∧ heap_Push l x ≡ₚ x :: l.
Proof using less_asym less_negtrans.
  intros H. unfold heap_Push. split.
  - apply up_heap; [rewrite length_app; cbn; lia|lia|]. split.
    + intros p c Hpc Hc Hne. rewrite length_app in Hc. cbn in Hc.
      intros a b. unfold child in Hpc. rewrite !lookup_app_l by lia.
      apply (H p c); [done|lia|lia].
    + intros p c _ Hjc Hc. rewrite length_app in Hc. cbn in Hc. unfold child in Hjc. lia.
  - rewrite up_perm. by rewrite Permutation_app_comm.
Qed.

(** ** The root *)

Lemma heap_root l x y : is_heap l → l !! 0%nat = Some x → y ∈ l → le x y.
Proof using less_asym less_negtrans.
  intros H Hx [k Hk]%list_elem_of_lookup.
  assert (Hle : le_at l 0 k).
  { clear y Hk. induction k as [k IH] using lt_wf_ind.
    destruct (decide (k = 0)%nat) as [-> |Hk0].
    - intros a b Ha Hb. simplify_eq. by apply le_refl.
    - intros a b Ha Hb. pose proof (lookup_lt_Some _ _ _ Hb) as Hlen.
      pose proof (parent_child k ltac:(lia)) as Hp. set (p := ((k - 1) / 2)%nat) in *.
      assert (Hpk : (p < k)%nat) by (unfold child in Hp; lia).
      refine (le_at_trans l 0 p k _ (IH p Hpk) _ a b Ha Hb); [lia|].
      apply H; [done|lia|done]. }
  by apply Hle.
Qed.

Lemma take_heap n l : (n ≤ length l)%nat → heap_from 0 n l → is_heap (take n l).
Proof using.
  intros Hn H p c Hpc _ Hc x y. rewrite length_take in Hc.
  assert (p < c)%nat by (unfold child in Hpc; lia).
  rewrite !lookup_take_lt by lia. apply H; [done|lia|lia].
Qed.

(** Popping a heap gives an element none beats and the rest, again a heap. *)
Lemma heap_Pop_spec l :
  is_heap l → l ≠ [] →
  ∃ x rest, heap_Pop l = Some (x, rest) ∧ l !! 0%nat = Some x ∧ is_heap rest ∧
            x :: rest ≡ₚ l ∧ ∀ y, y ∈ l → le x y.
Proof using less_asym less_negtrans.
  intros H Hne. assert (Hlen : (0 < length l)%nat) by (destruct l; [done|cbn; lia]).
  destruct (lookup_lt_is_Some_2 l 0 Hlen) as [x Hx].
  unfold heap_Pop. set (n := (length l - 1)%nat).
  set (l1 := swap l 0 n). set (l2 := down n l1 0 n).
  assert (Hl1 : length l1 = length l) by apply swap_length.
  assert (Hl2 : length l2 = length l) by (unfold l2; by rewrite down_length).
  assert (Hlast : l2 !! n = Some x).
  { unfold l2. rewrite down_above by lia. unfold l1. rewrite swap_lookup by lia.
    destruct (decide (n = 0)%nat) as [E|]; [by rewrite E|by rewrite decide_True]. }
  assert (Hheap : heap_from 0 n l2).
  { unfold l2. apply down_heap; [lia..|]. apply heap_from_hole. intros p c Hpc Hp Hc.
    unfold l1. apply swap_le_at; [lia..|]. unfold child in Hpc.
    rewrite !decide_False by lia. apply H; [done|lia|lia]. }
  rewrite Hlast. exists x, (take n l2). split; [done|]. split; [done|].
  split; [apply take_heap; [lia|done]|]. split.
  - assert (l2 ≡ₚ l) as <- by (unfold l2, l1; by rewrite down_perm, swap_perm).
    rewrite <- (take_drop n l2) at 2. rewrite (drop_S _ _ _ Hlast), drop_ge by lia.
    by rewrite Permutation_app_comm.
  - intros y Hy. by eapply heap_root.
Qed.
End heap.

(** ** Comparisons that agree on the elements

    The heap operations only compare elements of the slice. *)

Section agree.
Context {A : Type} (less less' : A → A → bool) (P : A → Prop).
Hypothesis agree : ∀ x y, P x → P y → less x y = less' x y.

Lemma less_at_agree l i j : Forall P l → less_at less l i j = less_at less' l i j.
Proof using agree.
  intros HP. unfold less_at. destruct (l !! i) as [x|] eqn:Hx, (l !! j) as [y|] eqn:Hy; try done.
  apply agree; by eapply Forall_lookup_1.
Qed.

Lemma swap_Forall l i j : Forall P l → Forall P (swap l i j).
Proof using. intros H. by rewrite swap_perm. Qed.

Lemma up_agree fuel l j : Forall P l → up less fuel l j = up less' fuel l j.
Proof using agree.
  revert l j. induction fuel as [|fuel IH]; intros l j HP; cbn [up]; [done|].
  rewrite less_at_agree by done. case_match; [done|]. by apply IH, swap_Forall.
Qed.

Lemma down_agree fuel l i n : Forall P l → down less fuel l i n = down less' fuel l i n.
Proof using agree.
  revert l i. induction fuel as [|fuel IH]; intros l i HP; cbn [down]; [done|].
  assert (smaller_child less l i n = smaller_child less' l i n) as ->
    by (unfold smaller_child; by rewrite less_at_agree).
  rewrite less_at_agree by done. repeat case_match; try done. by apply IH, swap_Forall.
Qed.

Lemma init_agree l : Forall P l → heap_Init less l = heap_Init less' l.
Proof using agree.
  unfold heap_Init. generalize (length l / 2)%nat as k. intros k. revert l.
  induction k as [|k IH]; intros l HP; cbn [init_from]; [done|].
  rewrite down_agree by done. apply IH. by rewrite down_perm.
Qed.

Lemma push_agree l x : Forall P l → P x → heap_Push less l x = heap_Push less' l x.
Proof using agree. intros HP Hx. apply up_agree. by rewrite Forall_app, Forall_singleton. Qed.

Lemma pop_agree l : Forall P l → heap_Pop less l = heap_Pop less' l.
Proof using agree. intros HP. unfold heap_Pop. by rewrite down_agree by (by apply swap_Forall). Qed.
End agree.
