(* ===== verification/TaskQueue.v ===== *)
(** * The task priority queue ([internal/agent/task_orchestrator/queue.go])

    Highest priority first, ties by insertion time, on [container/heap]. *)

From stdpp Require Import sorting base strings list tactics numbers.
From Stdlib Require Import ZArith Lia.
From S2P Require Import Prelude GoFloat GoSort GoHeap Models.

Open Scope Z_scope.

Record TaskQueueEntry := mkEntry {
  qe_TaskID : string;
  qe_PriorityScore : float64;
  qe_InsertedAt : time;
  qe_LastUpdatedAt : time
}.

Definition zero_entry : TaskQueueEntry := mkEntry "" f0 0 0.

Record PriorityQueue := mkPQ { pq_entries : list TaskQueueEntry }.

(** [Less], on the entries at the two indices. *)
Definition Less (x y : TaskQueueEntry) : bool :=
  if negb (feqb (qe_PriorityScore x) (qe_PriorityScore y))
  then fltb (qe_PriorityScore y) (qe_PriorityScore x)
  else bool_decide (qe_InsertedAt x < qe_InsertedAt y).

Definition NewPriorityQueue : PriorityQueue := mkPQ [].

Definition BuildFromEntries (entries : list TaskQueueEntry) : PriorityQueue :=
  mkPQ (heap_Init Less entries).

Definition Len (pq : PriorityQueue) : nat := length (pq_entries pq).

Definition PQ_Enqueue (pq : PriorityQueue) (e : TaskQueueEntry) : PriorityQueue :=
  mkPQ (heap_Push Less (pq_entries pq) e).

(** The entry, whether there was one, and the queue afterwards. *)
Definition Dequeue (pq : PriorityQueue) : TaskQueueEntry * bool * PriorityQueue :=
  match heap_Pop Less (pq_entries pq) with
  | Some (x, rest) => (x, true, mkPQ rest)
  | None => (zero_entry, false, pq)
  end.

Definition Peek (pq : PriorityQueue) : TaskQueueEntry * bool :=
  match pq_entries pq with
  | [] => (zero_entry, false)
  | x :: _ => (x, true)
  end.

Fixpoint pop_n (n : nat) (l : list TaskQueueEntry) : list TaskQueueEntry :=
  match n with
  | O => []
  | S n' =>
      match heap_Pop Less l with
      | Some (x, rest) => x :: pop_n n' rest
      | None => []
      end
  end.

(** [None] is Go's nil slice; the queue itself is not changed. *)
Definition TopN (pq : PriorityQueue) (n : Z) : option (list TaskQueueEntry) :=
  if bool_decide (n ≤ 0) || bool_decide (Len pq = 0%nat) then None
  else Some (pop_n (Z.to_nat n) (heap_Init Less (pq_entries pq))).

Definition Entries (pq : PriorityQueue) : list TaskQueueEntry := pq_entries pq.

Definition demo_entries : list TaskQueueEntry :=
  [mkEntry "a" (lit 1 10) 1 0; mkEntry "b" (lit 7 10) 2 0; mkEntry "c" (lit 7 10) 1 0;
   mkEntry "d" (lit 3 10) 3 0; mkEntry "e" f0 0 0].

Example topn_demo :
  fmap (M := option) (fmap qe_TaskID) (TopN (BuildFromEntries demo_entries) 4)
  = Some ["c"; "b"; "d"; "a"].
Proof. vm_compute. reflexivity. Qed.

(** ** The order of the entries *)

(** Priorities that compare like numbers. *)
Definition proper (e : TaskQueueEntry) : Prop := is_nan (qe_PriorityScore e) = false.

(** A strict weak order on all entries that is [Less] on proper ones. *)
Definition tame (e : TaskQueueEntry) : TaskQueueEntry :=
  if is_nan (qe_PriorityScore e) then mkEntry "" f0 (qe_InsertedAt e) 0 else e.
Definition Less' (x y : TaskQueueEntry) : bool := Less (tame x) (tame y).

Lemma tame_proper e : proper (tame e).
Proof. unfold proper, tame. destruct (is_nan (qe_PriorityScore e)) eqn:E; [done|exact E]. Qed.

Lemma Less_agree x y : proper x → proper y → Less x y = Less' x y.
Proof. unfold proper, Less', tame. intros -> ->. done. Qed.

Lemma Less_asym x y : proper x → proper y → Less x y = true → Less y x = false.
Proof.
  unfold proper, Less. intros Hx Hy.
  destruct (feqb (qe_PriorityScore x) _) eqn:E1, (feqb (qe_PriorityScore y) _) eqn:E2; cbn;
    try (exfalso; float_order; fail).
  - rewrite !bool_decide_eq_true, bool_decide_eq_false. lia.
  - intros. float_order.
Qed.

Lemma Less_negtrans x y z :
  proper x → proper y → proper z → Less x y = false → Less y z = false → Less x z = false.
Proof.
  unfold proper, Less. intros Hx Hy Hz.
  destruct (feqb (qe_PriorityScore x) (qe_PriorityScore y)) eqn:E1,
    (feqb (qe_PriorityScore y) (qe_PriorityScore z)) eqn:E2,
    (feqb (qe_PriorityScore x) (qe_PriorityScore z)) eqn:E3; cbn; intros H1 H2;
    rewrite ?bool_decide_eq_false in *; try lia; try (float_order; fail);
    exfalso; float_order.
Qed.

Lemma Less'_asym x y : Less' x y = true → Less' y x = false.
Proof. apply Less_asym; apply tame_proper. Qed.

Lemma Less'_negtrans x y z : Less' x y = false → Less' y z = false → Less' x z = false.
Proof. apply Less_negtrans; apply tame_proper. Qed.

(** ** Specification: a bag from which the best entry is taken *)

(** [x] is to be served no later than [y]. *)
Definition before (x y : TaskQueueEntry) : Prop :=
  fltb (qe_PriorityScore y) (qe_PriorityScore x) = true ∨
  (feqb (qe_PriorityScore x) (qe_PriorityScore y) = true ∧ qe_InsertedAt x ≤ qe_InsertedAt y).

Lemma before_Less x y : proper x → proper y → Less y x = false ↔ before x y.
Proof.
  unfold proper, Less, before. intros Hx Hy.
  destruct (feqb (qe_PriorityScore y) _) eqn:E1, (feqb (qe_PriorityScore x) _) eqn:E2; cbn;
    try (exfalso; float_order; fail).
  - rewrite bool_decide_eq_false. split; [intros; right; split; [done|lia]|].
    intros [H|[_ H]]; [exfalso; float_order|lia].
  - split; [intros; left; float_order|]. intros [H|[[=] _]]. float_order.
Qed.

Inductive PQOp : Type := OpEnqueue (e : TaskQueueEntry) | OpDequeue.

Inductive bag_step : list TaskQueueEntry → PQOp → option TaskQueueEntry → list TaskQueueEntry →
    Prop :=
| bag_enqueue b e b' : b' ≡ₚ e :: b → bag_step b (OpEnqueue e) None b'
| bag_empty : bag_step [] OpDequeue None []
| bag_dequeue b x b' :
    x :: b' ≡ₚ b → (∀ y, y ∈ b → before x y) → bag_step b OpDequeue (Some x) b'.

Inductive bag_run : list TaskQueueEntry → list PQOp → list (option TaskQueueEntry) →
    list TaskQueueEntry → Prop :=
| bag_done b : bag_run b [] [] b
| bag_more b op out b1 ops outs b2 :
    bag_step b op out b1 → bag_run b1 ops outs b2 → bag_run b (op :: ops) (out :: outs) b2.

(** One call on the queue and what it reports. *)
Definition pq_step (pq : PriorityQueue) (op : PQOp) : option TaskQueueEntry * PriorityQueue :=
  match op with
  | OpEnqueue e => (None, PQ_Enqueue pq e)
  | OpDequeue => let '(x, ok, pq') := Dequeue pq in ((if ok then Some x else None), pq')
  end.

Fixpoint pq_run (pq : PriorityQueue) (ops : list PQOp)
    : list (option TaskQueueEntry) * PriorityQueue :=
  match ops with
  | [] => ([], pq)
  | op :: ops' =>
      let '(out, pq1) := pq_step pq op in
      let '(outs, pq2) := pq_run pq1 ops' in
      (out :: outs, pq2)
  end.

(** The representation invariant. *)
Definition pq_ok (pq : PriorityQueue) : Prop :=
  is_heap Less' (pq_entries pq) ∧ Forall proper (pq_entries pq).

Lemma Build_ok es :
  Forall proper es → pq_ok (BuildFromEntries es) ∧ pq_entries (BuildFromEntries es) ≡ₚ es.
Proof.
  intros Hp. unfold pq_ok, BuildFromEntries. cbn [pq_entries]. rewrite (init_agree _ _ _ Less_agree) by done.
  destruct (heap_Init_spec Less' Less'_asym Less'_negtrans es) as [H1 H2].
  split; [split; [done|by rewrite H2]|done].
Qed.

Lemma Enqueue_ok pq e :
  pq_ok pq → proper e →
  pq_ok (PQ_Enqueue pq e) ∧ pq_entries (PQ_Enqueue pq e) ≡ₚ e :: pq_entries pq.
Proof.
  intros [Hh Hp] He. unfold pq_ok, PQ_Enqueue. cbn [pq_entries]. rewrite (push_agree _ _ _ Less_agree) by done.
  destruct (heap_Push_spec Less' Less'_asym Less'_negtrans (pq_entries pq) e Hh) as [H1 H2].
  split; [split; [done|]|done]. rewrite H2. by constructor.
Qed.

Lemma le_before x y : proper x → proper y → le Less' x y → before x y.
Proof. intros Hx Hy H. apply before_Less; [done..|]. by rewrite Less_agree. Qed.

Lemma pop_ok l :
  is_heap Less' l → Forall proper l → l ≠ [] →
  ∃ x rest, heap_Pop Less l = Some (x, rest) ∧ l !! 0%nat = Some x ∧ is_heap Less' rest ∧
            Forall proper rest ∧ x :: rest ≡ₚ l ∧ ∀ y, y ∈ l → before x y.
Proof.
  intros Hh Hp Hne.
  destruct (heap_Pop_spec Less' Less'_asym Less'_negtrans l Hh Hne)
    as (x & rest & E & H0 & H1 & H2 & H3).
  assert (Hx : Forall proper (x :: rest)) by (by rewrite H2).
  apply Forall_cons_1 in Hx as [Hx Hr].
  exists x, rest. rewrite (pop_agree _ _ _ Less_agree) by done. repeat split; try done.
  intros y Hy. apply le_before; [done| |by apply H3].
  rewrite list.Forall_forall in Hp. by apply Hp.
Qed.

Lemma heap_Pop_nil : heap_Pop Less [] = None.
Proof. done. Qed.

Lemma pq_step_refines pq op b :
  pq_ok pq → pq_entries pq ≡ₚ b → (∀ e, op = OpEnqueue e → proper e) →
  let out := pq_step pq op in
  ∃ b', bag_step b op (fst out) b' ∧ pq_ok (snd out) ∧ pq_entries (snd out) ≡ₚ b'.
Proof.
  intros [Hh Hp] Hb Hop. destruct op as [e|]; cbn.
  - destruct (Enqueue_ok pq e) as [H1 H2]; [done|by apply Hop|].
    exists (e :: b). split; [by constructor|]. split; [done|]. by rewrite H2, Hb.
  - unfold Dequeue. destruct (decide (pq_entries pq = [])) as [E|Hne].
    + rewrite E in Hb. apply Permutation_nil in Hb as Eb. subst b. rewrite E. cbn.
      exists []. split; [constructor|]. split; [by split|]. by rewrite E.
    + destruct (pop_ok (pq_entries pq) Hh Hp Hne) as (x & rest & -> & _ & H1 & H2 & H3 & H4).
      cbn. exists rest. split; [|by repeat split].
      constructor; [by rewrite H3|]. intros y Hy. apply H4. by rewrite Hb.
Qed.

Lemma pq_run_refines ops b0 pq0 :
  (∀ e, OpEnqueue e ∈ ops → proper e) → pq_ok pq0 → pq_entries pq0 ≡ₚ b0 →
  let '(outs, pq) := pq_run pq0 ops in
  ∃ b, bag_run b0 ops outs b ∧ pq_entries pq ≡ₚ b ∧
       Peek pq = fst (Dequeue pq) ∧ (snd (Peek pq) = false ↔ b = []).
Proof.
  revert b0 pq0. induction ops as [|op ops IH]; intros b0 pq0 Hops Hok Hb; cbn [pq_run].
  - exists b0. split; [constructor|]. split; [done|]. destruct Hok as [Hh Hp].
    unfold Peek, Dequeue. destruct (pq_entries pq0) as [|x l] eqn:E.
    + apply Permutation_nil in Hb as ->. done.
    + destruct (pop_ok (x :: l)) as (x' & rest & -> & [= <-] & _); [done..|].
      split; [done|]. split; [done|]. intros ->. by apply Permutation_sym, Permutation_nil in Hb.
  - destruct (pq_step_refines pq0 op b0 Hok Hb) as (b1 & Hs & Hok1 & Hb1).
    { intros e ->. apply Hops, elem_of_cons. by left. }
    destruct (pq_step pq0 op) as [out pq1]. cbn [fst snd] in *.
    specialize (IH b1 pq1 ltac:(intros e He; apply Hops, elem_of_cons; by right) Hok1 Hb1).
    destruct (pq_run pq1 ops) as [outs pq2]. destruct IH as (b & Hr & Hrest).
    exists b. split; [by econstructor|done].
Qed.

(** C14: the task queue is a priority queue.  Built from any entries whose
    priorities are numbers and used with any sequence of [Enqueue] and
    [Dequeue] calls, it behaves like a bag: every [Dequeue] takes an entry that
    no other beats on priority and then insertion time, or reports that the
    queue is empty exactly when it is; nothing is lost or duplicated; and
    [Peek] shows what the next [Dequeue] will take. *)
Theorem task_queue_refines_bag (entries : list TaskQueueEntry) (ops : list PQOp) :
  Forall proper entries → (∀ e, OpEnqueue e ∈ ops → proper e) →
  let '(outs, pq) := pq_run (BuildFromEntries entries) ops in
  ∃ b, bag_run entries ops outs b ∧ pq_entries pq ≡ₚ b ∧
       Peek pq = fst (Dequeue pq) ∧ (snd (Peek pq) = false ↔ b = []).
Proof.
  intros Hp Hops. destruct (Build_ok entries Hp) as [Hok Hperm]. by apply pq_run_refines.
Qed.

Lemma pop_n_spec n l :
  is_heap Less' l → Forall proper l →
  ∃ rest, pop_n n l ++ rest ≡ₚ l ∧ StronglySorted before (pop_n n l) ∧
          length (pop_n n l) = Nat.min n (length l) ∧
          ∀ x y, x ∈ pop_n n l → y ∈ rest → before x y.
Proof.
  revert l. induction n as [|n IH]; intros l Hh Hp; cbn [pop_n].
  - exists l. split; [done|]. split; [constructor|]. split; [done|]. by intros x y ?%elem_of_nil.
  - destruct (decide (l = [])) as [-> |Hne].
    { exists []. split; [done|]. split; [constructor|]. split; [done|].
      by intros x y ?%elem_of_nil. }
    destruct (pop_ok l Hh Hp Hne) as (x & r & -> & _ & H1 & H2 & H3 & H4).
    destruct (IH r H1 H2) as (rest & P1 & P2 & P3 & P4). exists rest.
    assert (Hin : ∀ y, y ∈ pop_n n r ∨ y ∈ rest → before x y).
    { intros y Hy. apply H4. rewrite <- H3. apply elem_of_cons. right.
      rewrite <- P1. by apply elem_of_app. }
    split; [rewrite <- H3; cbn; by rewrite P1|]. split.
    { constructor; [done|]. apply list.Forall_forall. intros y Hy. apply Hin. by left. }
    split; [apply Permutation_length in H3; cbn [length] in *; rewrite P3; lia|].
    intros a y [-> |Ha]%elem_of_cons Hy; [apply Hin; by right|by apply P4].
Qed.

(** [TopN] lists the best entries.  For a positive [n] and a queue whose
    priorities are numbers, it returns the [n] best entries, or all when there
    are fewer, in serving order, and no entry left out would be served before
    one listed; for [n <= 0] or an empty queue it returns nil.  It does not
    need the queue to be a heap. *)
Theorem topn_lists_the_best (pq : PriorityQueue) (n : Z) :
  Forall proper (pq_entries pq) →
  match TopN pq n with
  | None => n ≤ 0 ∨ pq_entries pq = []
  | Some top =>
      0 < n ∧ Z.of_nat (length top) = Z.min n (Z.of_nat (Len pq)) ∧
      StronglySorted before top ∧
      ∃ rest, top ++ rest ≡ₚ pq_entries pq ∧ ∀ x y, x ∈ top → y ∈ rest → before x y
  end.
Proof.
  intros Hp. unfold TopN, Len.
  case_bool_decide as Hn; [by left|]. case_bool_decide as Hl; cbn [orb].
  { right. by apply nil_length_inv. }
  destruct (Build_ok (pq_entries pq) Hp) as [[Hh Hp'] Hperm].
  unfold BuildFromEntries in *. cbn [pq_entries] in *.
  destruct (pop_n_spec (Z.to_nat n) _ Hh Hp') as (rest & P1 & P2 & P3 & P4).
  split; [lia|]. split; [apply Permutation_length in Hperm; lia|]. split; [done|].
  exists rest. split; [by rewrite P1|done].
Qed.

Lemma demo_proper : Forall proper demo_entries.
Proof. by repeat constructor. Qed.

Lemma task_queue_refines_bag_witness :
  fst (pq_run (BuildFromEntries demo_entries) [OpDequeue; OpDequeue])
  = [Some (mkEntry "c" (lit 7 10) 1 0); Some (mkEntry "b" (lit 7 10) 2 0)] ∧
  ∃ b, bag_run demo_entries [OpDequeue; OpDequeue]
         [Some (mkEntry "c" (lit 7 10) 1 0); Some (mkEntry "b" (lit 7 10) 2 0)] b.
Proof.
  pose proof (task_queue_refines_bag demo_entries [OpDequeue; OpDequeue] demo_proper) as H.
  destruct (pq_run _ _) as [outs pq] eqn:E. vm_compute in E. injection E as <- <-.
  split; [vm_compute; reflexivity|].
  destruct H as (b & Hb & _); [|exists b; exact Hb].
  intros e He. apply elem_of_cons in He as [[=]|He].
  apply elem_of_cons in He as [[=]|He]. by apply elem_of_nil in He.
Defined.

Lemma topn_lists_the_best_witness :
  match TopN (mkPQ demo_entries) 2 with
  | Some top => StronglySorted before top
  | None => False
  end.
Proof.
  pose proof (topn_lists_the_best (mkPQ demo_entries) 2 demo_proper) as H.
  destruct (TopN (mkPQ demo_entries) 2) as [top|] eqn:E; [apply H|].
  vm_compute in E. discriminate.
Defined.
