(* ===== verification/AgentWorld.v ===== *)
(** * The world of the agent engines

    State and effects shared by the engines of [internal/agent] whose stores are
    PostgreSQL tables: the tables, the state of the provider the engine calls
    into, a count of environment readings, the supply of fresh ids, a script of
    database faults and the audit log; and a program logic for such code.

    What the engine reads from its surroundings (the clock, governance mode,
    signals, the iteration order of a Go map) may change between two readings:
    every reading is a function of the number of readings before it.

    At the end, a concrete JSONB for the witnesses. *)

From stdpp Require Import base gmap strings list tactics numbers fin_maps.
From Stdlib Require Import ZArith Lia.
From S2P Require Import Prelude GoJSON Models.

Open Scope Z_scope.

(** ** JSONB columns *)

(** PostgreSQL's [JSONB]: the text a column gives back for the text written, or
    nothing when the text is refused. *)
Class PgJsonb := jsonb : string → option string.

(** Documented behaviour: the text read back is JSON and is kept as it is when
    written again, and [null] is stored. *)
Class PgJsonbLaws (J : PgJsonb) : Prop := {
  jsonb_valid : ∀ s t, jsonb s = Some t → json_Valid t = true;
  jsonb_again : ∀ s t, jsonb s = Some t → jsonb t = Some t;
  jsonb_null : is_Some (jsonb "null")
}.

(** Errors of constraints. *)
Definition ErrDuplicateKey : error := Errorf "duplicate key value violates unique constraint".
Definition ErrForeignKey : error := Errorf "insert or update violates foreign key constraint".
Definition ErrOutOfRange : error := Errorf "integer out of range".

(** [uuid.NewSHA1(uuid.NameSpaceDNS, seed).String()] of [github.com/google/uuid]. *)
Class UuidSHA1 := uuid_NewSHA1 : string → string.

(** ** State *)

Record Agent (D X : Type) := mkAgent {
  ag_db : D;
  ag_ext : X;
  ag_reads : nat;
  ag_uuids : nat;
  ag_faults : list Fault;
  ag_audit : list (string * string)    (* event type and entity id *)
}.
Arguments mkAgent {D X}.
Arguments ag_db {D X}.
Arguments ag_ext {D X}.
Arguments ag_reads {D X}.
Arguments ag_uuids {D X}.
Arguments ag_faults {D X}.
Arguments ag_audit {D X}.

#[export] Instance Agent_settable {D X} : Settable (Agent D X) := fun r =>
  mkAgent (ag_db r) (ag_ext r) (ag_reads r) (ag_uuids r) (ag_faults r) (ag_audit r).

Section effects.
Context {D X : Type}.
Implicit Types s : Agent D X.

(** One reading of the environment. *)
Definition reading {A} (f : nat → A) : St (Agent D X) A := fun s =>
  (f (ag_reads s), s <| ag_reads := S (ag_reads s) |>).

(** One database statement; a fault strikes before it runs or after. *)
Definition statement {A} (stmt : D → res (A * D)) : St (Agent D X) (res A) := fun s =>
  let '(f, s1) := match ag_faults s with
                  | [] => (NoFault, s)
                  | f :: fs => (f, s <| ag_faults := fs |>)
                  end in
  match f, stmt (ag_db s1) with
  | FaultBefore e, _ => (Err e, s1)
  | _, Err e => (Err e, s1)
  | NoFault, Ok (a, db) => (Ok a, s1 <| ag_db := db |>)
  | FaultAfter e, Ok (_, db) => (Err e, s1 <| ag_db := db |>)
  end.

Definition fresh_uuid {U : UuidPkg} : St (Agent D X) string := fun s =>
  (uuid_String (uuid_New (ag_uuids s)), s <| ag_uuids := S (ag_uuids s) |>).

(** An audit record, when there is an auditor; its error is dropped. *)
Definition record_audit (on : bool) (eventType entity : string) : St (Agent D X) unit := fun s =>
  (tt, if on then s <| ag_audit := ag_audit s ++ [(eventType, entity)] |> else s).

(** A call into the provider. *)
Definition provider {A} (c : St X A) : St (Agent D X) A := fun s =>
  let '(a, x) := c (ag_ext s) in (a, s <| ag_ext := x |>).

(** A statement that reports only its error, and one that is given the time. *)
Definition failed {A} (r : res A) : option error := match r with Ok _ => None | Err e => Some e end.
Definition exec (stmt : D → res (unit * D)) : St (Agent D X) (option error) :=
  let! r := statement stmt in retS (failed r).
Definition exec_now (clock : nat → Z) (stmt : Z → D → res (unit * D)) : St (Agent D X) (option error) :=
  let! now := reading clock in exec (stmt now).

(** [_ = c], and errors that are only logged. *)
Definition dropped {A} (c : St (Agent D X) A) : St (Agent D X) unit := let! _ := c in retS tt.

Lemma dropped_run {A} (c : St (Agent D X) A) s : dropped c s = (tt, snd (c s)).
Proof using. unfold dropped. by rewrite bindS_run. Qed.
End effects.

(** ** Program logic *)

Definition triple {W A} (P : W → Prop) (c : St W A) (Q : A → W → Prop) : Prop :=
  ∀ w, P w → Q (fst (c w)) (snd (c w)).

Section triples.
Context {W : Type}.

Lemma triple_ret {A} (P : W → Prop) (a : A) (Q : A → W → Prop) :
  (∀ w, P w → Q a w) → triple P (retS a) Q.
Proof using. intros H w. apply H. Qed.

Lemma triple_bind {A B} (P : W → Prop) (c : St W A) (R : A → W → Prop) (k : A → St W B) Q :
  triple P c R → (∀ a, triple (R a) (k a) Q) → triple P (bindS c k) Q.
Proof using. intros Hc Hk w HP. rewrite bindS_run. apply Hk, Hc, HP. Qed.

Lemma triple_weaken {A} (P P' : W → Prop) (c : St W A) (Q Q' : A → W → Prop) :
  triple P' c Q' → (∀ w, P w → P' w) → (∀ a w, Q' a w → Q a w) → triple P c Q.
Proof using. intros H HP HQ w Hw. apply HQ, H, HP, Hw. Qed.

Lemma triple_fact {A} (phi : Prop) (P : W → Prop) (c : St W A) Q :
  (phi → triple P c Q) → triple (fun w => phi ∧ P w) c Q.
Proof using. intros H w [Hphi HP]. by apply H. Qed.

Lemma triple_post_fact {A} (P : W → Prop) (c : St W A) (F : A → Prop) (Q : A → W → Prop) :
  returns c F → triple P c Q → triple P c (fun a w => F a ∧ Q a w).
Proof using. intros HF H w HP. split; [apply HF|by apply H]. Qed.

Lemma triple_know {A} (phi : Prop) (P : W → Prop) (c : St W A) Q :
  (∀ w, P w → phi) → (phi → triple P c Q) → triple P c Q.
Proof using. intros Hphi Hc w HP. by apply Hc; [eapply Hphi|]. Qed.

Lemma triple_true {A} (c : St W A) : triple (fun _ => True) c (fun _ _ => True).
Proof using. by intros w _. Qed.
End triples.

Section effect_triples.
Context {D X : Type}.
Implicit Types s : Agent D X.

(** [tables P]: a condition on the tables and the provider's state only. *)
Definition tables (P : D → X → Prop) : Agent D X → Prop := fun s => P (ag_db s) (ag_ext s).

Lemma tables_ret {A} (P : D → X → Prop) (a : A) (Q : A → D → X → Prop) :
  (∀ db x, P db x → Q a db x) → triple (tables P) (retS a) (fun a => tables (Q a)).
Proof using. intros H s. apply H. Qed.

Lemma triple_reading {A} (P : D → X → Prop) (f : nat → A) :
  triple (tables P) (reading f) (fun _ => tables P).
Proof using. intros s HP. exact HP. Qed.

Lemma triple_fresh {U : UuidPkg} (P : D → X → Prop) : triple (tables P) fresh_uuid (fun _ => tables P).
Proof using. intros s HP. exact HP. Qed.

Lemma triple_audit (P : D → X → Prop) on ev id :
  triple (tables P) (record_audit on ev id) (fun _ => tables P).
Proof using. intros s. by destruct on. Qed.

Lemma triple_statement {A} (P : D → X → Prop) (stmt : D → res (A * D)) Q :
  (∀ db x, P db x → (∀ e, Q (Err e) db x) ∧
     ∀ a db', stmt db = Ok (a, db') → Q (Ok a) db' x ∧ ∀ e, Q (Err e) db' x) →
  triple (tables P) (statement stmt) (fun r => tables (Q r)).
Proof using.
  intros H s HP. unfold statement, tables in *.
  destruct (ag_faults s) as [|f fs]; cbn; destruct (H _ _ HP) as [H1 H2].
  - destruct (stmt (ag_db s)) as [[a db']|e]; cbn; [by apply H2|apply H1].
  - destruct f; cbn; destruct (stmt (ag_db s)) as [[a db']|e']; cbn; try apply H1;
      destruct (H2 a db' eq_refl); auto.
Qed.

Lemma triple_dropped {A} (P : Agent D X → Prop) (c : St (Agent D X) A) (Q : Agent D X → Prop) :
  triple P c (fun _ => Q) → triple P (dropped c) (fun _ => Q).
Proof using. intros H. eapply triple_bind; [exact H|]. intros a. by apply triple_ret. Qed.

Lemma triple_provider {A} (P : D → X → Prop) (c : St X A) (Q : A → D → X → Prop) :
  (∀ db, triple (P db) c (fun a => Q a db)) →
  triple (tables P) (provider c) (fun a => tables (Q a)).
Proof using.
  intros H s HP. unfold provider, tables in *. specialize (H (ag_db s) (ag_ext s) HP).
  by destruct (c (ag_ext s)).
Qed.

Lemma tables_fact {A} (P : D → X → Prop) (phi : Prop) (c : St (Agent D X) A) Q :
  (phi → triple (tables P) c Q) → triple (tables (fun db x => P db x ∧ phi)) c Q.
Proof using. intros Hc s [HP Hphi]. by apply Hc. Qed.

(** Without faults a statement does what it says. *)
Lemma statement_run {A} (stmt : D → res (A * D)) s :
  ag_faults s = [] →
  statement stmt s = match stmt (ag_db s) with
                     | Ok (a, db) => (Ok a, s <| ag_db := db |>)
                     | Err e => (Err e, s)
                     end.
Proof using. intros H. unfold statement. rewrite H. by destruct (stmt (ag_db s)) as [[]|]. Qed.
End effect_triples.

(** ** Triples without faults

    [calm P]: [P] holds of the tables and the provider's state, and no fault is
    scripted, so that a statement does what it says. *)

Section calm.
Context {D X : Type}.

Definition calm (P : D → X → Prop) : Agent D X → Prop := fun s => ag_faults s = [] ∧ P (ag_db s) (ag_ext s).

Lemma calm_ret {A} (P : D → X → Prop) (a : A) (Q : A → D → X → Prop) :
  (∀ db x, P db x → Q a db x) → triple (calm P) (retS a) (fun a => calm (Q a)).
Proof using. intros H s [Hf HP]. split; [done|by apply H]. Qed.

Lemma calm_reading {A} (P : D → X → Prop) (f : nat → A) :
  triple (calm P) (reading f) (fun _ => calm P).
Proof using. intros s HP. exact HP. Qed.

Lemma calm_fresh {U : UuidPkg} (P : D → X → Prop) : triple (calm P) fresh_uuid (fun _ => calm P).
Proof using. intros s HP. exact HP. Qed.

Lemma calm_audit (P : D → X → Prop) on ev id :
  triple (calm P) (record_audit on ev id) (fun _ => calm P).
Proof using. intros s. by destruct on. Qed.

Lemma calm_statement {A} (P : D → X → Prop) (stmt : D → res (A * D)) Q :
  (∀ db x, P db x → match stmt db with Ok (a, db') => Q (Ok a) db' x | Err e => Q (Err e) db x end) →
  triple (calm P) (statement stmt) (fun r => calm (Q r)).
Proof using.
  intros H s [Hf HP]. rewrite (statement_run stmt s Hf). specialize (H _ _ HP).
  by destruct (stmt (ag_db s)) as [[a db']|e].
Qed.

Lemma calm_provider {A} (P : D → X → Prop) (c : St X A) (Q : A → D → X → Prop) :
  (∀ db x, P db x → Q (fst (c x)) db (snd (c x))) → triple (calm P) (provider c) (fun a => calm (Q a)).
Proof using.
  intros H s [Hf HP]. unfold provider. specialize (H _ _ HP). by destruct (c (ag_ext s)).
Qed.

Lemma calm_fact {A} (P : D → X → Prop) (phi : Prop) (c : St (Agent D X) A) Q :
  (phi → triple (calm P) c Q) → triple (calm (fun db x => P db x ∧ phi)) c Q.
Proof using. intros Hc s (Hf & HP & Hphi). by apply Hc. Qed.
End calm.

(** ** Computations that meet no fault

    With an empty script of faults, code stays without faults. *)

Create HintDb quiet.

Section quiet.
Context {D X : Type}.

Definition quiet {A} (c : St (Agent D X) A) : Prop :=
  ∀ s, ag_faults s = [] → ag_faults (snd (c s)) = [].

Lemma quiet_ret {A} (a : A) : quiet (retS a).
Proof using. by intros s. Qed.

Lemma quiet_bind {A B} (c : St (Agent D X) A) (k : A → St (Agent D X) B) :
  quiet c → (∀ a, quiet (k a)) → quiet (bindS c k).
Proof using. intros Hc Hk s Hs. rewrite bindS_run. by apply Hk, Hc. Qed.

Lemma quiet_statement {A} (stmt : D → res (A * D)) : quiet (statement stmt).
Proof using. intros s Hs. rewrite statement_run by done. by destruct (stmt _) as [[]|]. Qed.

Lemma quiet_reading {A} (f : nat → A) : quiet (reading f).
Proof using. by intros s. Qed.

Lemma quiet_fresh {U : UuidPkg} : quiet fresh_uuid.
Proof using. by intros s. Qed.

Lemma quiet_audit on ev id : quiet (record_audit on ev id).
Proof using. intros s Hs. by destruct on. Qed.

Lemma quiet_provider {A} (c : St X A) : quiet (provider c).
Proof using. intros s Hs. unfold provider. by destruct (c (ag_ext s)). Qed.

Lemma quiet_dropped {A} (c : St (Agent D X) A) : quiet c → quiet (dropped c).
Proof using. intros H. apply quiet_bind; [done|]. intros a. apply quiet_ret. Qed.

Lemma quiet_forS {A} (f : A → St (Agent D X) unit) l : (∀ a, quiet (f a)) → quiet (forS f l).
Proof using.
  intros Hf. induction l as [|a l IH]; [apply quiet_ret|]. apply quiet_bind; auto.
Qed.
End quiet.

#[export] Hint Resolve quiet_ret quiet_statement quiet_reading quiet_fresh quiet_audit
  quiet_provider quiet_dropped quiet_forS : quiet.

(** Decompose a computation down to its effects. *)
Ltac quiet_steps :=
  repeat first
    [ progress auto with quiet
    | progress intros
    | apply quiet_bind
    | apply quiet_dropped
    | match goal with |- quiet (match ?x with _ => _ end) => destruct x end ].

(** ** Computations that do not call the provider *)

Create HintDb keeps_ext.

Section keeps_ext.
Context {D X : Type}.

Definition keeps_ext {A} (c : St (Agent D X) A) : Prop := ∀ s, ag_ext (snd (c s)) = ag_ext s.

Lemma keeps_ext_ret {A} (a : A) : keeps_ext (retS a).
Proof using. by intros s. Qed.

Lemma keeps_ext_bind {A B} (c : St (Agent D X) A) (k : A → St (Agent D X) B) :
  keeps_ext c → (∀ a, keeps_ext (k a)) → keeps_ext (bindS c k).
Proof using. intros Hc Hk s. rewrite bindS_run. by rewrite Hk, Hc. Qed.

(** The continuation may rely on what the first computation returns. *)
Lemma keeps_ext_bind_returns {A B} (F : A → Prop) (c : St (Agent D X) A) (k : A → St (Agent D X) B) :
  keeps_ext c → returns c F → (∀ a, F a → keeps_ext (k a)) → keeps_ext (bindS c k).
Proof using. intros Hc HF Hk s. rewrite bindS_run. rewrite (Hk _ (HF s)). apply Hc. Qed.

Lemma keeps_ext_statement {A} (stmt : D → res (A * D)) : keeps_ext (statement stmt).
Proof using.
  intros s. unfold statement. destruct (ag_faults s) as [|f fs]; cbn.
  - by destruct (stmt (ag_db s)) as [[]|].
  - destruct f; cbn; by destruct (stmt (ag_db s)) as [[]|].
Qed.

Lemma keeps_ext_reading {A} (f : nat → A) : keeps_ext (reading f).
Proof using. by intros s. Qed.

Lemma keeps_ext_fresh {U : UuidPkg} : keeps_ext fresh_uuid.
Proof using. by intros s. Qed.

Lemma keeps_ext_audit on ev id : keeps_ext (record_audit on ev id).
Proof using. intros s. by destruct on. Qed.

Lemma keeps_ext_dropped {A} (c : St (Agent D X) A) : keeps_ext c → keeps_ext (dropped c).
Proof using. intros H. apply keeps_ext_bind; [done|]. intros a. apply keeps_ext_ret. Qed.

(** Such a computation satisfies any triple about the provider's state alone. *)
Lemma triple_keeps_ext {A} (P : X → Prop) (c : St (Agent D X) A) :
  keeps_ext c → triple (fun s => P (ag_ext s)) c (fun _ s => P (ag_ext s)).
Proof using. intros H s HP. by rewrite H. Qed.
End keeps_ext.

#[export] Hint Resolve keeps_ext_ret keeps_ext_statement keeps_ext_reading keeps_ext_fresh
  keeps_ext_audit keeps_ext_dropped : keeps_ext.

Ltac keeps_ext_steps :=
  repeat first
    [ progress auto with keeps_ext
    | progress intros
    | apply keeps_ext_bind
    | apply keeps_ext_dropped
    | match goal with |- keeps_ext (match ?x with _ => _ end) => destruct x end ].

(** ** A concrete JSONB

    Texts that are JSON are stored as they are; used to evaluate definitions and
    to show that hypotheses can hold. *)

#[export] Instance demo_jsonb : PgJsonb := fun s => if json_Valid s then Some s else None.

#[export] Instance demo_jsonb_laws : PgJsonbLaws demo_jsonb.
Proof.
  split; [| |by eexists]; intros s t; unfold jsonb, demo_jsonb;
    destruct (json_Valid s) eqn:H; try done; intros [= <-]; by rewrite ?H.
Qed.
