(* ===== verification/ExternalActions.v ===== *)
(** * External actions ([internal/agent/external_actions])

    An action for an external system is created, checked by the review policy,
    approved when it must be, and executed through a connector.  Modelled: the
    state machine, the policy, the connector router, the PostgreSQL store and
    the engine.

    Connectors are the [Connector] interface: their state [X] is the provider's
    state of the world, what they answer is arbitrary.  A [json.RawMessage] is
    [None] when nil; what a [JSONB] column keeps of a text is a parameter. *)

From stdpp Require Import base gmap strings list tactics numbers fin_maps.
From Stdlib Require Import ZArith Lia.
From S2P Require Import Prelude GoJSON GoSort Models GoTime AgentWorld.

Open Scope Z_scope.

(** ** Constants and types *)

Definition StatusCreated : string := "created".
Definition StatusReviewRequired : string := "review_required".
Definition StatusReady : string := "ready".
Definition StatusExecuted : string := "executed".
Definition StatusFailed : string := "failed".

Definition RiskLow : string := "low".
Definition RiskMedium : string := "medium".
Definition RiskHigh : string := "high".

Definition ModeDryRun : string := "dry_run".
Definition ModeExecute : string := "execute".

Definition ActionDraftMessage : string := "draft_message".
Definition ActionSendMessage : string := "send_message".
Definition ActionScheduleMeeting : string := "schedule_meeting".
Definition ActionPublishPost : string := "publish_post".
Definition ActionCreateTask : string := "create_task".
Definition ActionTriggerAPI : string := "trigger_api".

Definition MaxRetries : Z := 3.

Definition action_transitions (from : string) : list string :=
  if decide (from = StatusCreated) then [StatusReviewRequired; StatusReady]
  else if decide (from = StatusReviewRequired) then [StatusReady; StatusFailed]
  else if decide (from = StatusReady) then [StatusExecuted; StatusFailed]
  else [].

Definition HighRiskActionTypes (actionType : string) : bool :=
  bool_decide (actionType ∈ [ActionSendMessage; ActionScheduleMeeting; ActionPublishPost]).

Definition IsValidTransition (from to : string) : bool :=
  bool_decide (to ∈ action_transitions from).

Definition IsValidActionType (actionType : string) : bool :=
  bool_decide (actionType ∈ [ActionDraftMessage; ActionSendMessage; ActionScheduleMeeting;
                             ActionPublishPost; ActionCreateTask; ActionTriggerAPI]).

Record ExternalAction := mkAction {
  xa_ID : string;
  xa_OpportunityID : string;
  xa_ActionType : string;
  xa_Payload : option string;
  xa_Status : string;
  xa_ConnectorName : string;
  xa_IdempotencyKey : string;
  xa_RiskLevel : string;
  xa_ReviewReason : string;
  xa_RetryCount : Z;
  xa_MaxRetries : Z;
  xa_DryRunCompleted : bool;
  xa_CreatedAt : time;
  xa_UpdatedAt : time
}.

#[export] Instance ExternalAction_settable : Settable ExternalAction := fun r =>
  mkAction (xa_ID r) (xa_OpportunityID r) (xa_ActionType r) (xa_Payload r) (xa_Status r)
    (xa_ConnectorName r) (xa_IdempotencyKey r) (xa_RiskLevel r) (xa_ReviewReason r)
    (xa_RetryCount r) (xa_MaxRetries r) (xa_DryRunCompleted r) (xa_CreatedAt r) (xa_UpdatedAt r).

Record ExecutionResult := mkResult {
  xr_ID : string;
  xr_ActionID : string;
  xr_Success : bool;
  xr_ExternalID : string;
  xr_ResponsePayload : option string;
  xr_ErrorMessage : string;
  xr_Mode : string;
  xr_DurationMs : Z;
  xr_ExecutedAt : time
}.

#[export] Instance ExecutionResult_settable : Settable ExecutionResult := fun r =>
  mkResult (xr_ID r) (xr_ActionID r) (xr_Success r) (xr_ExternalID r) (xr_ResponsePayload r)
    (xr_ErrorMessage r) (xr_Mode r) (xr_DurationMs r) (xr_ExecutedAt r).

Definition zero_action : ExternalAction :=
  mkAction "" "" "" None "" "" "" "" "" 0 0 false zero_time zero_time.
Definition zero_exec_result : ExecutionResult :=
  mkResult "" "" false "" None "" "" 0 zero_time.

Record ActionPolicy := mkPolicy {
  ap_RequiresReview : bool;
  ap_RiskLevel : string;
  ap_Reason : string
}.

(** [Execute] and [DryRun] return their result together with an error. *)
Record Connector (X : Type) := mkConnector {
  cn_Name : string;
  cn_Supports : string → bool;
  cn_Enabled : bool;
  cn_Execute : option string → St X (ExecutionResult * option error);
  cn_DryRun : option string → St X (ExecutionResult * option error)
}.
Arguments mkConnector {X}.
Arguments cn_Name {X}.
Arguments cn_Supports {X}.
Arguments cn_Enabled {X}.
Arguments cn_Execute {X}.
Arguments cn_DryRun {X}.

Definition ErrEmptyPayload : error := Errorf "payload must not be empty".
Definition ErrInvalidPayload : error := Errorf "payload is not valid JSON".
Definition ErrConnectorNotFound : error := Errorf "no connector found for action type".
Definition ErrConnectorDisabled : error := Errorf "connector is disabled".
Definition ErrReviewRequired : error := Errorf "action requires review before execution".
Definition ErrActionTransition : error := Errorf "invalid status transition".
Definition ErrActionNotFound : error := Errorf "action not found".
Definition ErrAlreadyExecuted : error := Errorf "action has already been executed".
Definition ErrMaxRetriesExceeded : error := Errorf "maximum retries exceeded".

Definition ValidatePayload (payload : option string) : option error :=
  match payload with
  | None | Some EmptyString => Some ErrEmptyPayload
  | Some s => if json_Valid s then None else Some ErrInvalidPayload
  end.

(** ** Policy *)

Definition Evaluate (action : ExternalAction) : ActionPolicy :=
  if HighRiskActionTypes (xa_ActionType action) then
    mkPolicy true RiskHigh ("action type " +:+ xa_ActionType action +:+ " requires human review")
  else if bool_decide (xa_OpportunityID action ≠ "") then
    mkPolicy true RiskMedium "action linked to income opportunity requires review"
  else mkPolicy false RiskLow "standard action — no review required".

(** ** Tables *)

Record XDB := mkXDB {
  external_actions : gmap string ExternalAction;   (* agent_external_actions *)
  action_results : gmap string ExecutionResult     (* agent_external_action_results *)
}.

#[export] Instance XDB_settable : Settable XDB := fun r =>
  mkXDB (external_actions r) (action_results r).

(** [json.Marshal] of a [json.RawMessage]; the compaction it does changes the
    text, not the value, and is undone by [JSONB]'s own. *)
Definition marshal_raw (p : option string) : option string :=
  match p with
  | None => Some "null"
  | Some s => if json_Valid s then Some s else None
  end.

Section store.
Context {J : PgJsonb} {X : Type}.

Abbreviation XA := (St (Agent XDB X)).

Definition no_json {A} : res A := Err (Errorf "invalid input syntax for type json").
Definition unique_violation {A} : res A :=
  Err (Errorf "duplicate key value violates unique constraint").

Definition insert_action (a : ExternalAction) (db : XDB) : res (ExternalAction * XDB) :=
  match marshal_raw (xa_Payload a) with
  | None => Err (Errorf "json: error calling MarshalJSON for type json.RawMessage")
  | Some text =>
      match jsonb text with
      | None => no_json
      | Some stored =>
          if negb (in_int4 (xa_RetryCount a) && in_int4 (xa_MaxRetries a))
          then Err (Errorf "integer out of range")
          else if bool_decide (is_Some (external_actions db !! xa_ID a))
                  || existsb (fun r => bool_decide (xa_IdempotencyKey r = xa_IdempotencyKey a))
                             (map_to_list (external_actions db)).*2
          then unique_violation
          else
            let row := a <| xa_Payload := Some stored |>
                         <| xa_CreatedAt := trunc_us (xa_CreatedAt a) |>
                         <| xa_UpdatedAt := trunc_us (xa_UpdatedAt a) |> in
            Ok (row, db <| external_actions := <[xa_ID a := row]> (external_actions db) |>)
      end
  end.

Definition XStore_CreateAction (clock : nat → time) (a : ExternalAction)
    : XA (res ExternalAction) :=
  let! now := reading clock in
  let a1 := if bool_decide (xa_CreatedAt a = zero_time) then a <| xa_CreatedAt := now |> else a in
  statement (insert_action (a1 <| xa_UpdatedAt := now |>)).

Definition XStore_GetAction (id : string) : XA (res ExternalAction) :=
  statement (fun db =>
    match external_actions db !! id with Some a => Ok (a, db) | None => Err ErrNoRows end).

(** An [UPDATE ... WHERE id = $1]; no row is no error. *)
Definition update_action (id : string) (f : ExternalAction → ExternalAction) (db : XDB)
    : res (unit * XDB) :=
  Ok (tt, db <| external_actions := alter f id (external_actions db) |>).

Definition UpdateActionStatus (clock : nat → time) (id status : string) : XA (res unit) :=
  let! now := reading clock in
  statement (update_action id (fun a =>
    a <| xa_Status := status |> <| xa_UpdatedAt := trunc_us now |>)).

Definition UpdateActionDryRun (clock : nat → time) (id : string) : XA (res unit) :=
  let! now := reading clock in
  statement (update_action id (fun a =>
    a <| xa_DryRunCompleted := true |> <| xa_UpdatedAt := trunc_us now |>)).

Definition IncrementRetryCount (clock : nat → time) (id : string) : XA (res unit) :=
  let! now := reading clock in
  statement (fun db =>
    match external_actions db !! id with
    | Some a => if in_int4 (xa_RetryCount a + 1)
                then update_action id (fun a => a <| xa_RetryCount := xa_RetryCount a + 1 |>
                                                  <| xa_UpdatedAt := trunc_us now |>) db
                else Err (Errorf "integer out of range")
    | None => Ok (tt, db)
    end).

Definition GetActionByIdempotencyKey (key : string) : XA (res ExternalAction) :=
  statement (fun db =>
    match List.filter (fun a => bool_decide (xa_IdempotencyKey a = key))
                      (map_to_list (external_actions db)).*2 with
    | a :: _ => Ok (a, db)
    | [] => Err ErrNoRows
    end).

(** [ORDER BY created_at DESC LIMIT $1] *)
Definition ListActions (limit : Z) : XA (res (list ExternalAction)) :=
  statement (fun db =>
    if bool_decide (limit < 0) then Err (Errorf "LIMIT must not be negative")
    else Ok (take (Z.to_nat limit)
               (SliceStable (fun x y => bool_decide (xa_CreatedAt y < xa_CreatedAt x))
                  (map_to_list (external_actions db)).*2), db)).

Definition insert_result (r : ExecutionResult) (db : XDB) : res (ExecutionResult * XDB) :=
  match jsonb (default "null" (marshal_raw (xr_ResponsePayload r))) with
  | None => no_json
  | Some stored =>
      if bool_decide (is_Some (action_results db !! xr_ID r)) then unique_violation
      else match external_actions db !! xr_ActionID r with
      | None => Err (Errorf "insert or update violates foreign key constraint")
      | Some _ =>
          let row := r <| xr_ResponsePayload := Some stored |>
                       <| xr_ExecutedAt := trunc_us (xr_ExecutedAt r) |> in
          Ok (row, db <| action_results := <[xr_ID r := row]> (action_results db) |>)
      end
  end.

Definition CreateResult (clock : nat → time) (r : ExecutionResult) : XA (res ExecutionResult) :=
  let! r1 := (if bool_decide (xr_ExecutedAt r = zero_time)
              then let! now := reading clock in retS (r <| xr_ExecutedAt := now |>)
              else retS r) in
  statement (insert_result r1).

(** [WHERE action_id = $1 ORDER BY executed_at DESC] *)
Definition ListResultsByAction (actionID : string) : XA (res (list ExecutionResult)) :=
  statement (fun db =>
    Ok (SliceStable (fun x y => bool_decide (xr_ExecutedAt y < xr_ExecutedAt x))
          (List.filter (fun r => bool_decide (xr_ActionID r = actionID))
             (map_to_list (action_results db)).*2), db)).
End store.

(** ** Engine

    [xe_order n] arranges the connectors the way the [n]-th iteration over the
    router's map visits them. *)

Record XEngine (X : Type) := mkXEngine {
  xe_connectors : gmap string (Connector X);
  xe_order : nat → list (Connector X) → list (Connector X);
  xe_clock : nat → time;
  xe_audit : bool
}.
Arguments mkXEngine {X}.
Arguments xe_connectors {X}.
Arguments xe_order {X}.
Arguments xe_clock {X}.
Arguments xe_audit {X}.

(** [Register]: the last connector of a name wins. *)
Definition RegisterConnector {X} (c : Connector X) (m : gmap string (Connector X)) :=
  <[cn_Name c := c]> m.

Section engine.
Context {U : UuidPkg} {J : PgJsonb} {X : Type}.

Abbreviation XA := (St (Agent XDB X)).

Definition Route (e : XEngine X) (actionType : string) : XA (option (Connector X)) :=
  let! cs := reading (fun n => xe_order e n (map_to_list (xe_connectors e)).*2) in
  retS (find (fun c => cn_Enabled c && cn_Supports c actionType) cs).

Definition RouteByName (e : XEngine X) (name : string) : option (Connector X) :=
  match xe_connectors e !! name with
  | Some c => if cn_Enabled c then Some c else None
  | None => None
  end.

Definition emitAudit (e : XEngine X) (eventType actionID : string) : XA unit :=
  record_audit (xe_audit e) eventType actionID.

(** The connector's name for a new action. *)
Definition select_connector (e : XEngine X) (a : ExternalAction) : XA (res string) :=
  if bool_decide (xa_ConnectorName a ≠ "") then
    retS match RouteByName e (xa_ConnectorName a) with
         | None => Err ErrConnectorNotFound
         | Some c =>
             if negb (cn_Supports c (xa_ActionType a))
             then Err (Errorf ("connector " +:+ xa_ConnectorName a +:+
                               " does not support action type " +:+ xa_ActionType a))
             else Ok (xa_ConnectorName a)
         end
  else
    let! c := Route e (xa_ActionType a) in
    retS match c with None => Err ErrConnectorNotFound | Some c => Ok (cn_Name c) end.

Definition CreateAction (e : XEngine X) (a : ExternalAction) : XA (res ExternalAction) :=
  if negb (IsValidActionType (xa_ActionType a))
  then retS (Err (Errorf ("invalid action type: " +:+ xa_ActionType a)))
  else match ValidatePayload (xa_Payload a) with
  | Some err => retS (Err err)
  | None =>
      let! id := fresh_uuid in
      let a := a <| xa_ID := id |> in
      let! a := (if bool_decide (xa_IdempotencyKey a = "")
                 then let! key := fresh_uuid in retS (a <| xa_IdempotencyKey := key |>)
                 else retS a) in
      let a := if bool_decide (xa_MaxRetries a = 0) then a <| xa_MaxRetries := MaxRetries |> else a in
      let! sel := select_connector e a in
      match sel with
      | Err err => retS (Err err)
      | Ok connectorName =>
          let a := a <| xa_ConnectorName := connectorName |> in
          let pol := Evaluate a in
          let a := a <| xa_RiskLevel := ap_RiskLevel pol |> in
          let a := if ap_RequiresReview pol
                   then a <| xa_Status := StatusReviewRequired |> <| xa_ReviewReason := ap_Reason pol |>
                   else a <| xa_Status := StatusReady |> in
          let! saved := XStore_CreateAction (xe_clock e) a in
          match saved with
          | Err err => retS (Err (wrap "store action: " err))
          | Ok saved =>
              let! _ := emitAudit e "external.action_created" (xa_ID saved) in
              retS (Ok saved)
          end
      end
  end.

Definition ApproveAction (e : XEngine X) (actionID approvedBy : string) : XA (res ExternalAction) :=
  let! g := XStore_GetAction actionID in
  match g with
  | Err _ => retS (Err ErrActionNotFound)
  | Ok action =>
      if negb (IsValidTransition (xa_Status action) StatusReady)
      then retS (Err (Wrapf ("invalid status transition: cannot approve from status " +:+
                             xa_Status action) ErrActionTransition))
      else
        let! u := UpdateActionStatus (xe_clock e) actionID StatusReady in
        match u with
        | Err err => retS (Err (wrap "update status: " err))
        | Ok _ =>
            let! _ := emitAudit e "external.action_approved" actionID in
            retS (Ok (action <| xa_Status := StatusReady |>))
        end
  end.

(** [time.Since(start).Milliseconds()] around a connector's call, and the fields
    the engine fills in. *)
Definition timed_call (e : XEngine X) (call : St X (ExecutionResult * option error))
    (actionID mode : string) : XA (ExecutionResult * option error) :=
  let! start := reading (xe_clock e) in
  let! out := provider call in
  let! stop := reading (xe_clock e) in
  let! id := fresh_uuid in
  retS ((fst out) <| xr_DurationMs := Z.quot (stop - start) 1000000 |> <| xr_ID := id |>
                  <| xr_ActionID := actionID |> <| xr_Mode := mode |>, snd out).

Definition DryRun (e : XEngine X) (actionID : string) : XA (ExecutionResult * option error) :=
  let! g := XStore_GetAction actionID in
  match g with
  | Err _ => retS (zero_exec_result, Some ErrActionNotFound)
  | Ok action =>
      match RouteByName e (xa_ConnectorName action) with
      | None => retS (zero_exec_result, Some ErrConnectorNotFound)
      | Some c =>
          if negb (cn_Enabled c) then retS (zero_exec_result, Some ErrConnectorDisabled)
          else
            let! out := timed_call e (cn_DryRun c (xa_Payload action)) actionID ModeDryRun in
            let '(result, err) := out in
            match err with
            | Some err =>
                let! _ := emitAudit e "external.action_failed" actionID in
                retS (result, Some err)
            | None =>
                let! saved := CreateResult (xe_clock e) result in
                let result := match saved with Ok r => r | Err _ => result end in
                let! _ := dropped (UpdateActionDryRun (xe_clock e) actionID) in
                let! _ := emitAudit e "external.action_dry_run" actionID in
                retS (result, None)
            end
      end
  end.

(** The part of [Execute] after its guards: one call of the connector. *)
Definition run_connector (e : XEngine X) (c : Connector X) (action : ExternalAction)
    (actionID : string) : XA (ExecutionResult * option error) :=
  let! out := timed_call e (cn_Execute c (xa_Payload action)) actionID ModeExecute in
  let '(result, execErr) := out in
  match execErr with
  | Some err =>
      let result := result <| xr_Success := false |> <| xr_ErrorMessage := error_text err |> in
      let! _ := dropped (IncrementRetryCount (xe_clock e) actionID) in
      let! _ := dropped (CreateResult (xe_clock e) result) in
      let! _ := emitAudit e "external.action_failed" actionID in
      retS (result, Some err)
  | None =>
      let newStatus := if xr_Success result then StatusExecuted else StatusFailed in
      let! _ := dropped (UpdateActionStatus (xe_clock e) actionID newStatus) in
      let! saved := CreateResult (xe_clock e) result in
      let result := match saved with Ok r => r | Err _ => result end in
      let! _ := emitAudit e "external.action_executed" actionID in
      retS (result, None)
  end.

Definition ExecuteAction (e : XEngine X) (actionID : string) : XA (ExecutionResult * option error) :=
  let! g := XStore_GetAction actionID in
  match g with
  | Err _ => retS (zero_exec_result, Some ErrActionNotFound)
  | Ok action =>
      if bool_decide (xa_Status action = StatusReviewRequired)
      then retS (zero_exec_result, Some ErrReviewRequired)
      else if bool_decide (xa_Status action = StatusExecuted)
      then retS (zero_exec_result, Some ErrAlreadyExecuted)
      else if bool_decide (xa_Status action ≠ StatusReady)
      then retS (zero_exec_result,
                 Some (Wrapf ("invalid status transition: cannot execute from status " +:+
                              xa_Status action) ErrActionTransition))
      else match RouteByName e (xa_ConnectorName action) with
      | None => retS (zero_exec_result, Some ErrConnectorNotFound)
      | Some c =>
          if negb (cn_Enabled c) then retS (zero_exec_result, Some ErrConnectorDisabled)
          else if bool_decide (xa_MaxRetries action ≤ xa_RetryCount action) then
            let! _ := dropped (UpdateActionStatus (xe_clock e) actionID StatusFailed) in
            retS (zero_exec_result, Some ErrMaxRetriesExceeded)
          else run_connector e c action actionID
      end
  end.
End engine.
