(* ===== verification/ExternalActionsProps.v ===== *)
(** * Properties of the external actions engine *)

From stdpp Require Import base gmap strings list tactics numbers fin_maps.
From Stdlib Require Import ZArith Lia.
From S2P Require Import Prelude GoJSON Models AgentWorld ExternalActions Fixtures.

Open Scope Z_scope.

(** ** Calls *)

Inductive XCall : Type :=
| CallCreate (a : ExternalAction)
| CallApprove (id by_ : string)
| CallDryRun (id : string)
| CallExecute (id : string).

#[export] Instance ExternalAction_eq_dec : EqDecision ExternalAction.
Proof. solve_decision. Defined.
#[export] Instance XCall_eq_dec : EqDecision XCall.
Proof. solve_decision. Defined.

Section calls.
Context {U : UuidPkg} {J : PgJsonb} {JL : PgJsonbLaws J} {X : Type} (e : XEngine X).

Definition run_call (c : XCall) : St (Agent XDB X) unit :=
  match c with
  | CallCreate a => dropped (CreateAction e a)
  | CallApprove id by_ => dropped (ApproveAction e id by_)
  | CallDryRun id => dropped (DryRun e id)
  | CallExecute id => dropped (ExecuteAction e id)
  end.

Definition run_calls (cs : list XCall) : St (Agent XDB X) unit := forS run_call cs.

(** ** Invariant *)

(** The statuses an action can have after its creation. *)
Definition live_statuses : list string :=
  [StatusReviewRequired; StatusReady; StatusExecuted; StatusFailed].

Definition risky (a : ExternalAction) : bool := ap_RequiresReview (Evaluate a).

Definition row_ok (id : string) (a : ExternalAction) : Prop :=
  xa_ID a = id ∧ IsValidActionType (xa_ActionType a) = true ∧ xa_Status a ∈ live_statuses ∧
  in_int4 (xa_MaxRetries a) = true ∧ in_int4 (xa_RetryCount a) = true ∧
  ValidatePayload (xa_Payload a) = None.

Definition xdb_wf (db : XDB) : Prop := ∀ id a, external_actions db !! id = Some a → row_ok id a.

(** What the engine never changes of an action. *)
Definition same_action (a a' : ExternalAction) : Prop :=
  xa_ID a' = xa_ID a ∧ xa_OpportunityID a' = xa_OpportunityID a ∧
  xa_ActionType a' = xa_ActionType a ∧ xa_Payload a' = xa_Payload a ∧
  xa_ConnectorName a' = xa_ConnectorName a ∧ xa_IdempotencyKey a' = xa_IdempotencyKey a ∧
  xa_RiskLevel a' = xa_RiskLevel a ∧ xa_MaxRetries a' = xa_MaxRetries a ∧
  xa_CreatedAt a' = xa_CreatedAt a ∧ xa_RetryCount a ≤ xa_RetryCount a'.

Lemma same_action_refl a : same_action a a.
Proof using. by repeat split; lia. Qed.

Lemma same_action_trans a b c : same_action a b → same_action b c → same_action a c.
Proof using.
  intros (? & ? & ? & ? & ? & ? & ? & ? & ? & ?) (? & ? & ? & ? & ? & ? & ? & ? & ? & ?).
  repeat split; (congruence || lia).
Qed.

Lemma risky_same a a' : same_action a a' → risky a' = risky a.
Proof using. intros (_ & Ho & Ht & _). unfold risky, Evaluate. by rewrite Ho, Ht. Qed.

(** Between two points of one call on [id]: other rows are as in [db0], and the
    row of [id] has kept its identity and has a status of [sts]. *)
Definition at_row (db0 : XDB) (id : string) (sts : list string) (db : XDB) : Prop :=
  xdb_wf db ∧
  (∀ j, j ≠ id → external_actions db !! j = external_actions db0 !! j) ∧
  match external_actions db0 !! id with
  | Some a0 => ∃ a, external_actions db !! id = Some a ∧ same_action a0 a ∧ xa_Status a ∈ sts
  | None => external_actions db !! id = None
  end.

Lemma at_row_more db0 id sts sts' db :
  (∀ s, s ∈ sts → s ∈ sts') → at_row db0 id sts db → at_row db0 id sts' db.
Proof using.
  intros Hs (H1 & H2 & H3). split; [done|]. split; [done|].
  destruct (external_actions db0 !! id); [|done]. destruct H3 as (a & ? & ? & ?). eauto.
Qed.

(** An update of the row of [id]. *)
Lemma at_row_update db0 id sts sts' f db :
  (∀ a, external_actions db !! id = Some a → row_ok id a → xa_Status a ∈ sts →
        row_ok id (f a) ∧ same_action a (f a) ∧ xa_Status (f a) ∈ sts') →
  at_row db0 id sts db →
  at_row db0 id sts' (db <| external_actions := alter f id (external_actions db) |>).
Proof using.
  intros Hf (Hwf & Hj & Hi). destruct (external_actions db0 !! id) as [a0|] eqn:H0.
  - destruct Hi as (a & Ha & Hsame & Hst). destruct (Hf a Ha (Hwf _ _ Ha) Hst) as (Hok & Hs' & Hst').
    split; [|split].
    + intros j b. cbn. destruct (decide (j = id)) as [->|Hne].
      * rewrite lookup_alter_eq, Ha. cbn. by intros [= <-].
      * rewrite lookup_alter_ne by done. apply Hwf.
    + intros j Hne. cbn. rewrite lookup_alter_ne by done. by apply Hj.
    + rewrite H0. exists (f a). cbn. rewrite lookup_alter_eq, Ha. split; [done|].
      split; [|done]. by eapply same_action_trans.
  - assert (Hid : alter f id (external_actions db) = external_actions db).
    { apply map_eq. intros j. destruct (decide (j = id)) as [->|Hne].
      - by rewrite lookup_alter_eq, Hi.
      - by rewrite lookup_alter_ne. }
    split; [|split]; cbn; rewrite ?Hid; [done|done|by rewrite H0].
Qed.

(** [P] of the tables, and the provider's state [x0]. *)
Definition with_ext (x0 : X) (P : XDB → Prop) (db : XDB) (x : X) : Prop := P db ∧ x = x0.

Lemma triple_GetAction id (P : XDB → X → Prop) :
  triple (tables P) (XStore_GetAction id)
    (fun r => tables (fun db x => P db x ∧
       match r with Ok a => external_actions db !! id = Some a | Err _ => True end)).
Proof using.
  apply (triple_statement _ _ (fun r db x => P db x ∧
    match r with Ok a => external_actions db !! id = Some a | Err _ => True end)).
  intros db x HP. split; [done|]. intros a db'.
  destruct (external_actions db !! id) as [row|] eqn:Hrow; [|done].
  intros [= <- <-]. done.
Qed.

Lemma triple_update (P Q : XDB → X → Prop) id f :
  (∀ db x, P db x → Q db x) →
  (∀ db x, P db x → Q (db <| external_actions := alter f id (external_actions db) |>) x) →
  triple (tables P) (statement (update_action id f)) (fun _ => tables Q).
Proof using.
  intros H1 H2. apply (triple_statement _ _ (fun _ => Q)). intros db x HP.
  split; [intros _; by apply H1|]. intros a db' [= <- <-]. split; [|intros _]; by apply H2.
Qed.

Lemma triple_UpdateStatus db0 id sts st x0 clock :
  st ∈ live_statuses →
  triple (tables (with_ext x0 (at_row db0 id sts))) (UpdateActionStatus clock id st)
    (fun _ => tables (with_ext x0 (at_row db0 id (st :: sts)))).
Proof using.
  intros Hst. eapply triple_bind; [apply triple_reading|]. intros now. cbn beta.
  apply triple_update; intros db x [Hat ->]; (split; [|done]).
  - eapply at_row_more; [|exact Hat]. intros s Hs. by apply elem_of_cons; right.
  - eapply at_row_update; [|exact Hat]. intros a _ (Hid & Hty & _ & Hmax & Hre & Hp) _.
    split; [by repeat split|]. split; [by repeat split|]. apply elem_of_cons. by left.
Qed.

Lemma triple_UpdateDryRun db0 id sts x0 clock :
  triple (tables (with_ext x0 (at_row db0 id sts))) (UpdateActionDryRun clock id)
    (fun _ => tables (with_ext x0 (at_row db0 id sts))).
Proof using.
  eapply triple_bind; [apply triple_reading|]. intros now. cbn beta.
  apply triple_update; intros db x [Hat ->]; (split; [|done]); [done|].
  eapply at_row_update; [|exact Hat]. intros a _ (Hid & Hty & Hst & Hmax & Hre & Hp) Hs.
  split; [by repeat split|]. split; [by repeat split|done].
Qed.

Lemma triple_IncrementRetry db0 id sts x0 clock :
  triple (tables (with_ext x0 (at_row db0 id sts))) (IncrementRetryCount clock id)
    (fun _ => tables (with_ext x0 (at_row db0 id sts))).
Proof using.
  eapply triple_bind; [apply triple_reading|]. intros now. cbn beta.
  apply (triple_statement _ _ (fun _ => with_ext x0 (at_row db0 id sts))). intros db x [Hat ->].
  split; [done|]. intros a db'.
  destruct (external_actions db !! id) as [row|] eqn:Hrow; [|by intros [= <- <-]].
  destruct (in_int4 _) eqn:Hint; [|done]. intros [= <- <-].
  assert (H : at_row db0 id sts (db <| external_actions := alter (fun a =>
    a <| xa_RetryCount := xa_RetryCount a + 1 |> <| xa_UpdatedAt := trunc_us now |>) id
      (external_actions db) |>)); [|done].
  eapply (at_row_update db0 id sts sts); [|exact Hat]. intros b Hb (Hid & Hty & Hst & Hmax & _ & Hp) Hs.
  rewrite Hrow in Hb. injection Hb as <-.
  split; [by repeat split|]. split; [repeat split; cbn; lia|done].
Qed.

Lemma triple_CreateResult db0 id sts x0 clock r :
  triple (tables (with_ext x0 (at_row db0 id sts))) (CreateResult clock r)
    (fun _ => tables (with_ext x0 (at_row db0 id sts))).
Proof using.
  eapply (triple_bind _ _ (fun _ => tables (with_ext x0 (at_row db0 id sts)))).
  { destruct (bool_decide _); [|by apply triple_ret].
    eapply triple_bind; [apply triple_reading|]. intros now. by apply triple_ret. }
  intros r1. apply (triple_statement _ _ (fun _ => with_ext x0 (at_row db0 id sts))).
  intros db x [Hat ->]. split; [done|]. intros a db'. unfold insert_result.
  destruct (jsonb _); [|done]. destruct (bool_decide _); [done|].
  destruct (external_actions db !! _); [|done]. intros [= <- <-].
  split; [|intros _]; split; (exact Hat || done).
Qed.
(** ** The engine's operations *)

Definition start (db0 : XDB) (x0 : X) (db : XDB) (x : X) : Prop := db = db0 ∧ x = x0.

(** The statuses the row of [id] can have after a call that may do [next]. *)
Definition after_call (db0 : XDB) (id : string) (next : string → list string) : XDB → Prop :=
  at_row db0 id (match external_actions db0 !! id with
                 | Some a => xa_Status a :: next (xa_Status a)
                 | None => []
                 end).

Lemma at_row_start db0 id next : xdb_wf db0 → after_call db0 id next db0.
Proof using.
  intros Hwf. split; [done|]. split; [done|]. destruct (external_actions db0 !! id); [|done].
  eexists. split; [done|]. split; [apply same_action_refl|]. apply elem_of_cons. by left.
Qed.

Lemma triple_start db0 x0 id next :
  xdb_wf db0 → ∀ db x, start db0 x0 db x → with_ext x0 (after_call db0 id next) db x.
Proof using. intros Hwf db x [-> ->]. split; [by apply at_row_start|done]. Qed.

Lemma triple_any_ext {A} (P Q : XDB → Prop) (c : St (Agent XDB X) A) :
  (∀ x0, triple (tables (with_ext x0 P)) c (fun _ => tables (with_ext x0 Q))) →
  triple (tables (fun db _ => P db)) c (fun _ => tables (fun db _ => Q db)).
Proof using. intros H s HP. by apply (H (ag_ext s) s). Qed.

Lemma with_ext_start {A} db0 x0 id next (P : Prop) (c : St (Agent XDB X) A) Q :
  xdb_wf db0 →
  triple (tables (with_ext x0 (after_call db0 id next))) c Q →
  triple (tables (fun db x => start db0 x0 db x ∧ P)) c Q.
Proof using.
  intros Hwf H. eapply triple_weaken; [exact H| |done].
  intros s [Hs _]. by apply triple_start.
Qed.

(** Reading the row first, and what is known when there is none. *)
Lemma triple_Get_start {A} db0 x0 id (k : res ExternalAction → St (Agent XDB X) A) Q :
  (∀ err, triple (tables (start db0 x0)) (k (Err err)) Q) →
  (∀ a, external_actions db0 !! id = Some a → triple (tables (start db0 x0)) (k (Ok a)) Q) →
  triple (tables (start db0 x0)) (let! g := XStore_GetAction id in k g) Q.
Proof using.
  intros H1 H2. eapply triple_bind; [apply triple_GetAction|]. intros [a|err].
  - intros s [Hs Ha]. apply (H2 a); [|done]. destruct Hs as [Hdb _]. by rewrite Hdb in Ha.
  - intros s [Hs _]. by apply H1.
Qed.

Definition approve_next (st : string) : list string :=
  if IsValidTransition st StatusReady then [StatusReady] else [].
Definition execute_next (st : string) : list string :=
  if bool_decide (st = StatusReady) then [StatusExecuted; StatusFailed] else [].
Definition no_next (st : string) : list string := [].

Lemma after_call_intro db0 id a next next' db :
  external_actions db0 !! id = Some a →
  at_row db0 id (next' :: [xa_Status a]) db → next' ∈ next (xa_Status a) →
  after_call db0 id next db.
Proof using.
  intros Ha Hat Hn. unfold after_call. rewrite Ha. eapply at_row_more; [|exact Hat].
  intros s Hs. rewrite !elem_of_cons, elem_of_nil in Hs. rewrite elem_of_cons.
  destruct Hs as [-> | [-> | []]]; auto.
Qed.

Lemma after_call_here db0 id a next db :
  external_actions db0 !! id = Some a → at_row db0 id [xa_Status a] db → after_call db0 id next db.
Proof using.
  intros Ha Hat. unfold after_call. rewrite Ha. eapply at_row_more; [|exact Hat].
  intros s Hs%list_elem_of_singleton. rewrite elem_of_cons. by left.
Qed.

Lemma at_row_init db0 id a : external_actions db0 !! id = Some a → xdb_wf db0 →
  at_row db0 id [xa_Status a] db0.
Proof using. intros Ha Hwf. pose proof (at_row_start db0 id no_next Hwf) as H. unfold after_call in H. by rewrite Ha in H. Qed.

Lemma ApproveAction_spec db0 x0 id by_ :
  xdb_wf db0 →
  triple (tables (start db0 x0)) (ApproveAction e id by_)
    (fun _ => tables (with_ext x0 (after_call db0 id approve_next))).
Proof using.
  intros Hwf. apply triple_Get_start.
  { intros err. apply triple_ret. intros s. by apply triple_start. }
  intros a Ha. destruct (IsValidTransition (xa_Status a) StatusReady) eqn:Hv; cbn [negb].
  2:{ apply triple_ret. intros s. by apply triple_start. }
  eapply triple_weaken with (P' := tables (with_ext x0 (at_row db0 id [xa_Status a])));
    [|intros s [Hd Hx]; split; [by rewrite Hd; apply at_row_init|done]|intros ? ? HQ; exact HQ].
  eapply triple_bind; [apply triple_UpdateStatus; by apply (bool_decide_unpack _)|].
  assert (Hend : ∀ db x, with_ext x0 (at_row db0 id [StatusReady; xa_Status a]) db x →
    with_ext x0 (after_call db0 id approve_next) db x).
  { intros db x [Hat ->]. split; [|done]. eapply after_call_intro; [exact Ha|exact Hat|].
    unfold approve_next. rewrite Hv. apply elem_of_cons. by left. }
  intros [u|err].
  - eapply triple_bind; [apply triple_audit|]. intros ?. apply triple_ret. intros s. apply Hend.
  - apply triple_ret. intros s. apply Hend.
Qed.

(** [timed_call] leaves the tables alone. *)
Lemma triple_timed (P : XDB → Prop) call id mode :
  triple (tables (fun db _ => P db)) (timed_call e call id mode) (fun _ => tables (fun db _ => P db)).
Proof using.
  eapply triple_bind; [apply triple_reading|]. intros t1.
  eapply triple_bind; [apply (triple_provider _ _ (fun _ db _ => P db)); intros db x HP; exact HP|].
  intros out. eapply triple_bind; [apply triple_reading|]. intros t2.
  eapply triple_bind; [apply triple_fresh|]. intros i. by apply triple_ret.
Qed.

Lemma run_connector_spec db0 c a id sts :
  triple (tables (fun db _ => at_row db0 id sts db)) (run_connector e c a id)
    (fun _ => tables (fun db _ => at_row db0 id (StatusExecuted :: StatusFailed :: sts) db)).
Proof using.
  assert (Hmore : ∀ st db, at_row db0 id (st :: sts) db →
    st = StatusExecuted ∨ st = StatusFailed ∨ st ∈ sts →
    at_row db0 id (StatusExecuted :: StatusFailed :: sts) db).
  { intros st db Hat Hst. eapply at_row_more; [|exact Hat].
    intros s [-> | Hs]%elem_of_cons; rewrite !elem_of_cons; tauto. }
  eapply triple_bind; [apply triple_timed|]. intros [result [err|]].
  - eapply triple_bind; [apply triple_dropped, triple_any_ext; intros x0; apply triple_IncrementRetry|].
    intros ?. eapply triple_bind; [apply triple_dropped, triple_any_ext; intros x0; apply triple_CreateResult|].
    intros ?. eapply triple_bind; [apply triple_audit|]. intros ?. apply triple_ret.
    intros s Hat. eapply at_row_more; [|exact Hat]. intros st Hs. rewrite !elem_of_cons. auto.
  - set (st := if xr_Success result then _ else _).
    eapply triple_bind; [apply triple_dropped, triple_any_ext; intros x0; apply triple_UpdateStatus|].
    { unfold st. destruct (xr_Success _); by apply (bool_decide_unpack _). }
    intros ?. eapply triple_bind; [apply triple_any_ext; intros x0; apply triple_CreateResult|].
    intros saved. eapply triple_bind; [apply triple_audit|]. intros ?. apply triple_ret.
    intros s Hat. eapply Hmore; [exact Hat|]. unfold st. destruct (xr_Success _); auto.
Qed.

(** Without a ready action nothing happens. *)
Lemma Execute_blocked db0 x0 id :
  (∀ a, external_actions db0 !! id = Some a → xa_Status a ≠ StatusReady) →
  triple (tables (start db0 x0)) (ExecuteAction e id) (fun _ => tables (start db0 x0)).
Proof using.
  intros Hn. apply triple_Get_start; [intros err; by apply triple_ret|].
  intros a Ha. pose proof (Hn a Ha) as Hst.
  destruct (bool_decide (xa_Status a = StatusReviewRequired)); [by apply triple_ret|].
  destruct (bool_decide (xa_Status a = StatusExecuted)); [by apply triple_ret|].
  rewrite bool_decide_true by done. by apply triple_ret.
Qed.

Lemma Execute_spec db0 x0 id :
  xdb_wf db0 →
  triple (tables (start db0 x0)) (ExecuteAction e id)
    (fun _ => tables (fun db _ => after_call db0 id execute_next db)).
Proof using.
  intros Hwf.
  assert (Hret : ∀ (r : ExecutionResult * option error),
    triple (tables (start db0 x0)) (retS r) (fun _ => tables (fun db _ => after_call db0 id execute_next db))).
  { intros r. apply triple_ret. intros s Hs. by eapply triple_start. }
  apply triple_Get_start; [intros err; apply Hret|]. intros a Ha.
  destruct (bool_decide (xa_Status a = StatusReviewRequired)); [apply Hret|].
  destruct (bool_decide (xa_Status a = StatusExecuted)); [apply Hret|].
  destruct (bool_decide_reflect (xa_Status a ≠ StatusReady)) as [|Hst]; [apply Hret|].
  apply dec_stable in Hst.
  destruct (RouteByName e _) as [c|]; [|apply Hret].
  destruct (negb _); [apply Hret|].
  assert (Hend : ∀ db, at_row db0 id (StatusExecuted :: StatusFailed :: [xa_Status a]) db →
    after_call db0 id execute_next db).
  { intros db Hat. unfold after_call. rewrite Ha, Hst. eapply at_row_more; [|exact Hat].
    intros s. rewrite Hst. unfold execute_next. rewrite bool_decide_true by done.
    rewrite !elem_of_cons. tauto. }
  destruct (bool_decide _).
  - eapply triple_weaken with (P' := tables (with_ext x0 (at_row db0 id [xa_Status a])));
      [|intros s [Hd Hx]; split; [by rewrite Hd; apply at_row_init|done]|intros ? ? HQ; exact HQ].
    eapply triple_bind; [apply triple_dropped, triple_UpdateStatus; by apply (bool_decide_unpack _)|].
    intros ?. apply triple_ret. intros s [Hat _]. apply Hend. eapply at_row_more; [|exact Hat].
    intros st Hs. rewrite !elem_of_cons in *. tauto.
  - eapply triple_weaken; [apply (run_connector_spec db0)| |].
    + intros s [Hd _]. unfold tables. rewrite Hd. by apply at_row_init.
    + intros r s Hat. by apply Hend.
Qed.

Lemma DryRun_spec db0 x0 id :
  xdb_wf db0 →
  triple (tables (start db0 x0)) (DryRun e id)
    (fun _ => tables (fun db _ => after_call db0 id no_next db)).
Proof using.
  intros Hwf.
  assert (Hret : ∀ (r : ExecutionResult * option error),
    triple (tables (start db0 x0)) (retS r) (fun _ => tables (fun db _ => after_call db0 id no_next db))).
  { intros r. apply triple_ret. intros s Hs. by eapply triple_start. }
  apply triple_Get_start; [intros err; apply Hret|]. intros a Ha.
  destruct (RouteByName e _) as [c|]; [|apply Hret].
  destruct (negb _); [apply Hret|].
  eapply triple_weaken with (P' := tables (fun db _ => after_call db0 id no_next db));
    [|intros s Hs; by eapply triple_start|intros ? ? HQ; exact HQ].
  eapply triple_bind; [apply triple_timed|]. intros [result [err|]].
  - eapply triple_bind; [apply triple_audit|]. intros ?. by apply triple_ret.
  - eapply triple_bind; [apply triple_any_ext; intros x1; apply triple_CreateResult|]. intros saved.
    eapply triple_bind; [apply triple_dropped, triple_any_ext; intros x1; apply triple_UpdateDryRun|]. intros ?.
    eapply triple_bind; [apply triple_audit|]. intros ?. by apply triple_ret.
Qed.

(** A new row, or nothing. *)
Definition created (db0 db : XDB) : Prop :=
  external_actions db = external_actions db0 ∨
  ∃ row, row_ok (xa_ID row) row ∧ external_actions db0 !! xa_ID row = None ∧
         external_actions db = <[xa_ID row := row]> (external_actions db0) ∧
         xa_Status row = (if risky row then StatusReviewRequired else StatusReady).

Lemma created_start db0 x0 : ∀ db x, start db0 x0 db x → with_ext x0 (created db0) db x.
Proof using. intros db x [-> ->]. split; [by left|done]. Qed.

Lemma valid_payload_stored s t :
  ValidatePayload (Some s) = None → jsonb s = Some t → ValidatePayload (Some t) = None.
Proof using JL.
  intros _ Ht. pose proof (jsonb_valid s t Ht) as Hv. cbn. destruct t; [done|]. by rewrite Hv.
Qed.

Lemma insert_action_spec db0 x0 a :
  IsValidActionType (xa_ActionType a) = true → ValidatePayload (xa_Payload a) = None →
  xa_Status a = (if risky a then StatusReviewRequired else StatusReady) →
  triple (tables (start db0 x0)) (statement (insert_action a))
    (fun _ => tables (with_ext x0 (created db0))).
Proof using JL.
  intros Hty Hp Hst. apply (triple_statement _ _ (fun _ => with_ext x0 (created db0))).
  intros db x [-> ->]. split; [intros _; by apply created_start|].
  intros r db'. unfold insert_action. destruct (xa_Payload a) as [s|] eqn:Hpl; [|done].
  cbn [marshal_raw]. destruct (json_Valid s) eqn:Hv; [|done].
  destruct (jsonb s) as [t|] eqn:Ht; [|done].
  destruct (in_int4 (xa_RetryCount a) && in_int4 (xa_MaxRetries a)) eqn:Hint; [|done].
  cbn [negb]. destruct (bool_decide _ || _) eqn:Hdup; [done|].
  apply orb_false_iff in Hdup as [Hnone%bool_decide_eq_false _].
  intros [= <- <-]. match goal with |- ?P ∧ _ => assert P as Hok; [|by split; [|intros _]] end.
  split; [|done]. right.
  exists (a <| xa_Payload := Some t |> <| xa_CreatedAt := trunc_us (xa_CreatedAt a) |>
            <| xa_UpdatedAt := trunc_us (xa_UpdatedAt a) |>).
  split; [|split; [|split; [reflexivity|]]].
  - split; [done|]. split; [exact Hty|]. split.
    { change (xa_Status a ∈ live_statuses). rewrite Hst. destruct (risky a); by apply (bool_decide_unpack _). }
    apply andb_true_iff in Hint as [Hr Hm]. split; [exact Hm|]. split; [exact Hr|]. cbn. by apply (valid_payload_stored s).
  - apply eq_None_not_Some. exact Hnone.
  - exact Hst.
Qed.

Lemma CreateAction_spec db0 x0 a0 :
  triple (tables (start db0 x0)) (CreateAction e a0)
    (fun _ => tables (with_ext x0 (created db0))).
Proof using JL.
  assert (Hret : ∀ r : res ExternalAction, triple (tables (start db0 x0)) (retS r)
    (fun _ => tables (with_ext x0 (created db0)))).
  { intros r. apply triple_ret. intros s. by apply created_start. }
  unfold CreateAction. destruct (IsValidActionType (xa_ActionType a0)) eqn:Hty; [|apply Hret].
  destruct (ValidatePayload (xa_Payload a0)) as [err|] eqn:Hp; [apply Hret|]. cbn [negb].
  eapply triple_bind; [apply triple_fresh|]. intros id. cbv zeta.
  eapply (triple_bind _ _ (fun a s => (xa_ActionType a = xa_ActionType a0 ∧
    xa_Payload a = xa_Payload a0) ∧ tables (start db0 x0) s)).
  { destruct (bool_decide _); [|by apply triple_ret].
    eapply triple_bind; [apply triple_fresh|]. intros key. by apply triple_ret. }
  intros a1. apply triple_fact. intros [Hty1 Hp1].
  set (a2 := if bool_decide (xa_MaxRetries a1 = 0) then _ else _).
  assert (H2 : xa_ActionType a2 = xa_ActionType a0 ∧ xa_Payload a2 = xa_Payload a0)
    by (unfold a2; by destruct (bool_decide _)).
  destruct H2 as [Hty2 Hp2]. clearbody a2.
  eapply (triple_bind _ _ (fun _ => tables (start db0 x0))).
  { unfold select_connector, Route. destruct (bool_decide _); [by apply triple_ret|].
    eapply (triple_bind _ _ (fun _ => tables (start db0 x0))).
    { eapply triple_bind; [apply triple_reading|]. intros cs. by apply triple_ret. }
    intros c. by apply triple_ret. }
  intros [name|err]; [|apply Hret].
  set (a3 := a2 <| xa_ConnectorName := name |>).
  set (a4 := if ap_RequiresReview (Evaluate a3) then _ else _).
  assert (H4 : IsValidActionType (xa_ActionType a4) = true ∧ ValidatePayload (xa_Payload a4) = None ∧
    xa_Status a4 = (if risky a4 then StatusReviewRequired else StatusReady)).
  { assert (Hr : risky a4 = risky a2) by (unfold a4; by destruct (ap_RequiresReview (Evaluate a3))).
    split; [|split].
    - rewrite <- Hty, <- Hty2. unfold a4. by destruct (ap_RequiresReview _).
    - rewrite <- Hp, <- Hp2. unfold a4. by destruct (ap_RequiresReview _).
    - rewrite Hr. unfold a4. change (ap_RequiresReview (Evaluate a3)) with (risky a2).
      by destruct (risky a2). }
  destruct H4 as (Hty4 & Hp4 & Hst4). clearbody a4.
  eapply (triple_bind _ _ (fun _ => tables (with_ext x0 (created db0)))).
  { eapply triple_bind; [apply triple_reading|]. intros now. cbv zeta.
    apply insert_action_spec; by destruct (bool_decide _). }
  intros [saved|err]; [|by apply triple_ret].
  eapply triple_bind; [apply triple_audit|]. intros ?. by apply triple_ret.
Qed.

(** ** Sequences of calls *)

Definition moves (st st' : string) : Prop := st' = st ∨ IsValidTransition st st' = true.

(** No action disappears or changes identity; statuses follow the state machine. *)
Definition evolves (db db' : XDB) : Prop :=
  ∀ id a, external_actions db !! id = Some a →
  ∃ a', external_actions db' !! id = Some a' ∧ same_action a a' ∧ moves (xa_Status a) (xa_Status a').

Lemma evolves_after_call db0 id next db :
  (∀ st st', st' ∈ next st → IsValidTransition st st' = true) →
  after_call db0 id next db → evolves db0 db.
Proof using.
  intros Hn (_ & Hj & Hi) j a Ha. destruct (decide (j = id)) as [->|Hne].
  - rewrite Ha in Hi. destruct Hi as (a' & Ha' & Hs & Hst). exists a'. split; [done|]. split; [done|].
    apply elem_of_cons in Hst as [-> | Hst]; [by left|]. right. by apply Hn.
  - exists a. rewrite Hj by done. split; [done|]. split; [apply same_action_refl|by left].
Qed.

Lemma created_wf db0 db : xdb_wf db0 → created db0 db → xdb_wf db ∧ evolves db0 db.
Proof using.
  intros Hwf [Heq|(row & Hok & Hnone & Heq & _)]; (split; [intros j a|intros j a Ha]); rewrite Heq.
  - apply Hwf.
  - exists a. split; [done|]. split; [apply same_action_refl|by left].
  - rewrite lookup_insert. case_decide as E; [intros [= <-]; congruence|apply Hwf].
  - exists a. rewrite lookup_insert_ne by congruence.
    split; [done|]. split; [apply same_action_refl|by left].
Qed.

Lemma next_valid :
  (∀ st st', st' ∈ approve_next st → IsValidTransition st st' = true) ∧
  (∀ st st', st' ∈ execute_next st → IsValidTransition st st' = true) ∧
  (∀ st st', st' ∈ no_next st → IsValidTransition st st' = true).
Proof using.
  split; [|split]; intros st st'.
  - unfold approve_next. destruct (IsValidTransition st StatusReady) eqn:H; [|by intros ?%elem_of_nil].
    by intros ->%list_elem_of_singleton.
  - unfold execute_next. case_bool_decide as H; [|by intros ?%elem_of_nil]. subst st.
    intros [-> | ->%list_elem_of_singleton]%elem_of_cons; reflexivity.
  - by intros ?%elem_of_nil.
Qed.

Lemma run_call_evolves c s :
  xdb_wf (ag_db s) →
  let s' := snd (run_call c s) in xdb_wf (ag_db s') ∧ evolves (ag_db s) (ag_db s').
Proof using JL.
  intros Hwf. destruct next_valid as (Hap & Hex & Hno).
  assert (Hd : ∀ {A} (m : St (Agent XDB X) A) next id,
    (∀ st st', st' ∈ next st → IsValidTransition st st' = true) →
    triple (tables (start (ag_db s) (ag_ext s))) m (fun _ => tables (fun db _ => after_call (ag_db s) id next db)) →
    xdb_wf (ag_db (snd (dropped m s))) ∧ evolves (ag_db s) (ag_db (snd (dropped m s)))).
  { intros A m next id Hn Hm. specialize (Hm s (conj eq_refl eq_refl)). rewrite dropped_run. cbn [snd]. split; [apply Hm|eapply evolves_after_call; [exact Hn|exact Hm]]. }
  destruct c as [a|id by_|id|id]; cbn [run_call].
  - rewrite dropped_run. cbn [snd]. apply created_wf; [done|].
    by apply (CreateAction_spec (ag_db s) (ag_ext s) a s).
  - eapply Hd; [exact Hap|]. eapply triple_weaken; [by apply (ApproveAction_spec (ag_db s) (ag_ext s))|done|].
    intros r t Ht. apply Ht.
  - eapply Hd; [exact Hno|]. by apply DryRun_spec.
  - eapply Hd; [exact Hex|]. by apply Execute_spec.
Qed.

Lemma run_calls_wf cs s : xdb_wf (ag_db s) → xdb_wf (ag_db (snd (run_calls cs s))).
Proof using JL.
  intros Hwf. apply (forS_invariant (fun s => xdb_wf (ag_db s))); [|done].
  intros c s' _ H. by apply run_call_evolves.
Qed.

(** ** Review before execution *)

Definition approves (c : XCall) : list string :=
  match c with CallApprove id _ => [id] | _ => [] end.

(** Every risky action that left review is in [ap]. *)
Definition guarded (ap : list string) (db : XDB) : Prop :=
  ∀ id a, external_actions db !! id = Some a → risky a = true →
  xa_Status a ≠ StatusReviewRequired → id ∈ ap.

Lemma guarded_after_call ap ap' db0 id next db :
  guarded ap db0 → (∀ i, i ∈ ap → i ∈ ap') →
  (next StatusReviewRequired = [] ∨ id ∈ ap') →
  after_call db0 id next db → guarded ap' db.
Proof using.
  intros Hg Hsub Hnext (_ & Hj & Hi) j a Ha Hr Hst. destruct (decide (j = id)) as [->|Hne].
  - destruct Hnext as [Hnext|]; [|done]. destruct (external_actions db0 !! id) as [a0|] eqn:H0; [|congruence].
    destruct Hi as (a' & Ha' & Hs & Hin). rewrite Ha in Ha'. injection Ha' as <-.
    apply Hsub, (Hg id a0 H0); [by rewrite <- (risky_same a0 a)|].
    intros E. rewrite E, Hnext in Hin. by apply list_elem_of_singleton in Hin.
  - rewrite Hj in Ha by done. apply Hsub. by eapply Hg.
Qed.

Lemma guarded_created ap db0 db : guarded ap db0 → created db0 db → guarded ap db.
Proof using.
  intros Hg [Heq|(row & _ & _ & Heq & Hst)] j a; rewrite Heq; [apply Hg|].
  rewrite lookup_insert. case_decide; [|apply Hg]. intros [= <-] Hr Hne.
  rewrite Hr in Hst. congruence.
Qed.

Lemma run_call_guarded ap c s :
  xdb_wf (ag_db s) → guarded ap (ag_db s) → guarded (approves c ++ ap) (ag_db (snd (run_call c s))).
Proof using JL.
  intros Hwf Hg.
  assert (Hd : ∀ {A} (m : St (Agent XDB X) A) next id,
    (next StatusReviewRequired = [] ∨ id ∈ approves c ++ ap) →
    triple (tables (start (ag_db s) (ag_ext s))) m (fun _ => tables (fun db _ => after_call (ag_db s) id next db)) →
    guarded (approves c ++ ap) (ag_db (snd (dropped m s)))).
  { intros A m next id Hn Hm. specialize (Hm s (conj eq_refl eq_refl)). rewrite dropped_run. cbn [snd]. eapply guarded_after_call; [exact Hg| |exact Hn|exact Hm].
    intros i Hi. apply elem_of_app. by right. }
  destruct c as [a|id by_|id|id]; cbn [run_call].
  - rewrite dropped_run. cbn [snd]. eapply guarded_created; [exact Hg|].
    by apply (CreateAction_spec (ag_db s) (ag_ext s) a s).
  - eapply Hd; [right; apply elem_of_cons; by left|].
    eapply triple_weaken; [by apply (ApproveAction_spec (ag_db s) (ag_ext s) id by_)|done|].
    intros r t Ht. apply Ht.
  - eapply (Hd _ _ no_next); [by left|]. by apply DryRun_spec.
  - eapply (Hd _ _ execute_next); [by left|]. by apply Execute_spec.
Qed.

Lemma run_calls_guarded cs : ∀ ap s,
  xdb_wf (ag_db s) → guarded ap (ag_db s) →
  guarded (concat (map approves cs) ++ ap) (ag_db (snd (run_calls cs s))).
Proof using JL.
  induction cs as [|c cs IH]; intros ap s Hwf Hg; [done|].
  unfold run_calls. cbn [forS]. rewrite bindS_run.
  pose proof (IH (approves c ++ ap) _ (proj1 (run_call_evolves c s Hwf)) (run_call_guarded ap c s Hwf Hg)) as H.
  intros id a Ha Hr Hst. specialize (H id a Ha Hr Hst). cbn. rewrite !elem_of_app in *. tauto.
Qed.

(** Nothing is executed for an action that is not ready. *)
Lemma Execute_refused s id :
  (∀ a, external_actions (ag_db s) !! id = Some a → xa_Status a ≠ StatusReady) →
  let '(r, err, s') := ExecuteAction e id s in
  ag_db s' = ag_db s ∧ ag_ext s' = ag_ext s ∧ r = zero_exec_result ∧ err ≠ None.
Proof using.
  intros Hn.
  assert (H : triple (tables (start (ag_db s) (ag_ext s))) (ExecuteAction e id)
    (fun out s' => (fst out = zero_exec_result ∧ snd out ≠ None) ∧
                   tables (start (ag_db s) (ag_ext s)) s')).
  { apply triple_Get_start; [intros err; by apply triple_ret|].
    intros a Ha. pose proof (Hn a Ha) as Hst.
    destruct (bool_decide (xa_Status a = StatusReviewRequired)); [by apply triple_ret|].
    destruct (bool_decide (xa_Status a = StatusExecuted)); [by apply triple_ret|].
    rewrite bool_decide_true by done. by apply triple_ret. }
  specialize (H s (conj eq_refl eq_refl)). destruct (ExecuteAction e id s) as [[r err] s'].
  destruct H as [[Hr Herr] [Hdb Hx]]. done.
Qed.

Lemma xdb_empty_wf (s : Agent XDB X) : ag_db s = mkXDB ∅ ∅ → xdb_wf (ag_db s) ∧ guarded [] (ag_db s).
Proof using. intros ->. split; intros id a; cbn; by rewrite lookup_empty. Qed.

(** ** Attempts without faults *)

Definition finished (a : ExternalAction) : bool :=
  bool_decide (xa_Status a = StatusExecuted) || bool_decide (xa_Status a = StatusFailed).

Definition attempts_left (id : string) (db : XDB) : nat :=
  match external_actions db !! id with
  | Some a => if finished a then 0 else Z.to_nat (xa_MaxRetries a - xa_RetryCount a)
  | None => 0
  end.

(** [ExecuteAction] gets as far as calling the connector. *)
Definition reaches_connector (id : string) (db : XDB) : bool :=
  match external_actions db !! id with
  | Some a => bool_decide (xa_Status a = StatusReady)
              && match RouteByName e (xa_ConnectorName a) with Some _ => true | None => false end
              && bool_decide (xa_RetryCount a < xa_MaxRetries a)
  | None => false
  end.

(** How often the calls run the connector for [id]. *)
Fixpoint connector_runs (cs : list XCall) (id : string) (s : Agent XDB X) : nat :=
  match cs with
  | [] => 0
  | c :: cs' =>
      (if bool_decide (c = CallExecute id) && reaches_connector id (ag_db s) then 1 else 0)
      + connector_runs cs' id (snd (run_call c s))
  end.

Lemma moves_finished st st' :
  moves st st' → bool_decide (st = StatusExecuted) || bool_decide (st = StatusFailed) = true → st' = st.
Proof using.
  intros [->|H] Hf; [done|]. apply orb_true_iff in Hf as [->%bool_decide_eq_true| ->%bool_decide_eq_true];
    vm_compute in H; discriminate H.
Qed.

Lemma attempts_left_evolves id db db' a :
  external_actions db !! id = Some a → evolves db db' → (attempts_left id db' ≤ attempts_left id db)%nat.
Proof using.
  intros Ha Hev. destruct (Hev id a Ha) as (a' & Ha' & Hs & Hm). unfold attempts_left.
  rewrite Ha, Ha'. unfold finished in *.
  destruct (bool_decide (xa_Status a = StatusExecuted) || bool_decide (xa_Status a = StatusFailed)) eqn:Hf.
  - rewrite (moves_finished _ _ Hm Hf), Hf. lia.
  - destruct (bool_decide (xa_Status a' = _) || _); [lia|]. destruct Hs as (_ & _ & _ & _ & _ & _ & _ & Hmax & _ & Hre). lia.
Qed.

(** The row of [id], in a state without pending faults. *)
Definition row_is (id : string) (Q : ExternalAction → Prop) (s : Agent XDB X) : Prop :=
  ag_faults s = [] ∧ ∃ a, external_actions (ag_db s) !! id = Some a ∧ Q a.

Lemma row_is_update id Q f :
  triple (row_is id Q) (statement (update_action id f)) (fun _ => row_is id (fun b => ∃ a, Q a ∧ b = f a)).
Proof using.
  intros s (Hf & a & Ha & HQ). rewrite statement_run by done. split; [done|].
  exists (f a). cbn. rewrite lookup_alter_eq, Ha. split; [done|]. eauto.
Qed.

Lemma row_is_reading {A} id Q (f : nat → A) : triple (row_is id Q) (reading f) (fun _ => row_is id Q).
Proof using. intros s H. exact H. Qed.

Lemma row_is_result id Q clock r : triple (row_is id Q) (CreateResult clock r) (fun _ => row_is id Q).
Proof using.
  eapply (triple_bind _ _ (fun _ => row_is id Q)).
  { destruct (bool_decide _); [|by apply triple_ret].
    eapply triple_bind; [apply row_is_reading|]. intros now. by apply triple_ret. }
  intros r1 s (Hf & a & Ha & HQ). rewrite statement_run by done. unfold insert_result.
  repeat case_match; simplify_eq; cbn; (split; [done|]; eauto).
Qed.

Lemma row_is_timed id Q call mode :
  triple (row_is id Q) (timed_call e call id mode) (fun _ => row_is id Q).
Proof using.
  eapply triple_bind; [apply row_is_reading|]. intros t1.
  eapply (triple_bind _ _ (fun _ => row_is id Q)).
  { intros s H. unfold provider. by destruct (call (ag_ext s)). }
  intros out. eapply triple_bind; [apply row_is_reading|]. intros t2.
  eapply (triple_bind _ _ (fun _ => row_is id Q)); [intros s H; exact H|]. intros i. by apply triple_ret.
Qed.

Lemma row_is_audit id Q ev : triple (row_is id Q) (emitAudit e ev id) (fun _ => row_is id Q).
Proof using. intros s H. unfold emitAudit, record_audit. by destruct (xe_audit e). Qed.

(** A run of the connector finishes the action or uses up an attempt. *)
Lemma run_connector_row id a0 c :
  in_int4 (xa_MaxRetries a0) = true → in_int4 (xa_RetryCount a0) = true →
  xa_RetryCount a0 < xa_MaxRetries a0 →
  triple (row_is id (eq a0)) (run_connector e c a0 id)
    (fun _ => row_is id (fun b => finished b = true ∨
       xa_RetryCount b = xa_RetryCount a0 + 1 ∧ xa_MaxRetries b = xa_MaxRetries a0)).
Proof using.
  intros Hmax%bool_decide_eq_true Hre%bool_decide_eq_true Hlt.
  eapply triple_bind; [apply row_is_timed|]. intros [result [err|]].
  - set (Q := fun b => xa_RetryCount b = xa_RetryCount a0 + 1 ∧ xa_MaxRetries b = xa_MaxRetries a0).
    eapply (triple_bind _ _ (fun _ => row_is id Q)).
    { apply triple_dropped. eapply triple_bind; [apply row_is_reading|]. intros now.
      intros s (Hf & a & Ha & <-). rewrite statement_run by done. cbn beta. rewrite Ha.
      unfold in_int4. rewrite bool_decide_true by lia. split; [done|].
      eexists. cbn. rewrite lookup_alter_eq, Ha. split; [reflexivity|]. by split. }
    intros ?. eapply triple_bind; [apply triple_dropped, row_is_result|]. intros ?.
    eapply triple_bind; [apply row_is_audit|]. intros ?. apply triple_ret.
    intros s (Hf & b & Hb & HQ). split; [done|]. exists b. split; [done|by right].
  - eapply (triple_bind _ _ (fun _ => row_is id (fun b => finished b = true))).
    { apply triple_dropped. eapply triple_bind; [apply row_is_reading|]. intros now.
      eapply triple_weaken; [apply row_is_update|intros s H; exact H|].
      intros ? s (Hf & b & Hb & a & _ & ->). split; [done|]. eexists. split; [exact Hb|].
      unfold finished. cbn. by destruct (xr_Success result). }
    intros ?. eapply triple_bind; [apply row_is_result|]. intros saved.
    eapply triple_bind; [apply row_is_audit|]. intros ?. apply triple_ret.
    intros s (Hf & b & Hb & HQ). split; [done|]. exists b. split; [done|by left].
Qed.

Lemma run_call_quiet c : quiet (run_call c).
Proof using.
  unfold run_call, CreateAction, ApproveAction, DryRun, ExecuteAction, run_connector, timed_call,
    select_connector, Route, XStore_CreateAction, XStore_GetAction, UpdateActionStatus,
    UpdateActionDryRun, IncrementRetryCount, CreateResult, emitAudit.
  destruct c; cbv zeta; quiet_steps.
Qed.

Lemma Execute_unreached s id :
  ag_faults s = [] → reaches_connector id (ag_db s) = false →
  ag_ext (snd (ExecuteAction e id s)) = ag_ext s.
Proof using.
  intros Hf Hr. unfold ExecuteAction. rewrite bindS_run. unfold XStore_GetAction.
  rewrite statement_run by done. unfold reaches_connector in Hr.
  destruct (external_actions (ag_db s) !! id) as [a|] eqn:Ha; [|done]. cbn [fst snd].
  destruct (bool_decide (xa_Status a = StatusReviewRequired)); [done|].
  destruct (bool_decide (xa_Status a = StatusExecuted)); [done|].
  destruct (bool_decide_reflect (xa_Status a ≠ StatusReady)) as [|Hst]; [done|].
  apply dec_stable in Hst. rewrite (bool_decide_true (xa_Status a = StatusReady)) in Hr by done.
  destruct (RouteByName e (xa_ConnectorName a)) as [c|]; [|done].
  destruct (negb (cn_Enabled c)); [done|]. cbn [andb] in Hr. apply bool_decide_eq_false in Hr.
  rewrite bool_decide_true by lia. rewrite bindS_run, dropped_run. cbn [retS snd].
  unfold UpdateActionStatus. rewrite bindS_run. by rewrite statement_run.
Qed.

(** What a call that reaches the connector does to the attempts left. *)
Lemma Execute_uses_attempt s id :
  xdb_wf (ag_db s) → ag_faults s = [] → reaches_connector id (ag_db s) = true →
  (attempts_left id (ag_db (snd (ExecuteAction e id s))) < attempts_left id (ag_db s))%nat.
Proof using.
  intros Hwf Hf Hr. unfold reaches_connector in Hr.
  destruct (external_actions (ag_db s) !! id) as [a|] eqn:Ha; [|done].
  apply andb_true_iff in Hr as [[Hst%bool_decide_eq_true Hc]%andb_true_iff Hlt%bool_decide_eq_true].
  destruct (Hwf id a Ha) as (_ & _ & _ & Hmax & Hre & _).
  unfold ExecuteAction. rewrite bindS_run. unfold XStore_GetAction. rewrite statement_run by done.
  rewrite Ha. cbn [fst snd]. rewrite Hst.
  rewrite !bool_decide_false by (try done; intros H; by apply H).
  unfold RouteByName in *. destruct (xe_connectors e !! xa_ConnectorName a) as [c|]; [|done].
  destruct (cn_Enabled c) eqn:Hen; [|done]. rewrite Hen. cbn [negb].
  rewrite bool_decide_false by lia.
  destruct (run_connector_row id a c Hmax Hre Hlt (s <| ag_db := ag_db s |>)) as (_ & b & Hb & Hfin).
  { split; [done|]. exists a. split; [done|reflexivity]. }
  unfold attempts_left. rewrite Hb, Ha. unfold finished at 2. rewrite Hst. cbn [orb].
  rewrite !bool_decide_false by done. cbn [orb].
  destruct Hfin as [-> | [H1 H2]]; [lia|]. destruct (finished b); [lia|]. rewrite H1, H2. lia.
Qed.

Lemma connector_runs_bound cs id : ∀ s a,
  xdb_wf (ag_db s) → ag_faults s = [] → external_actions (ag_db s) !! id = Some a →
  (connector_runs cs id s ≤ attempts_left id (ag_db s))%nat.
Proof using JL.
  induction cs as [|c cs IH]; intros s a Hwf Hf Ha; [cbn; lia|]. cbn [connector_runs].
  destruct (run_call_evolves c s Hwf) as [Hwf' Hev].
  pose proof (attempts_left_evolves id _ _ a Ha Hev) as Hle.
  destruct (Hev id a Ha) as (a' & Ha' & _).
  pose proof (IH _ a' Hwf' (run_call_quiet c s Hf) Ha') as Hrec.
  destruct (bool_decide_reflect (c = CallExecute id)) as [->|]; cbn [andb]; [|lia].
  destruct (reaches_connector id (ag_db s)) eqn:Hr; [|lia].
  pose proof (Execute_uses_attempt s id Hwf Hf Hr) as Huse.
  cbn [run_call] in *. rewrite dropped_run in *. cbn [snd] in *. lia.
Qed.
End calls.

(** ** A concrete engine *)

(** Counts its calls and succeeds. *)
Definition demo_connector : Connector nat :=
  mkConnector "noop" (fun _ => true) true
    (fun _ n => (zero_exec_result <| xr_Success := true |>, None, S n))
    (fun _ n => (zero_exec_result <| xr_Success := true |>, None, n)).

Definition demo_xengine : XEngine nat :=
  mkXEngine {[ "noop" := demo_connector ]} (fun _ l => l) (fun n => demo_now + Z.of_nat n * Second) true.

Definition demo_xstate : Agent XDB nat := mkAgent (mkXDB ∅ ∅) 0%nat 0 0 [] [].

Definition demo_post : ExternalAction :=
  zero_action <| xa_ActionType := ActionPublishPost |> <| xa_Payload := Some "{}" |>.
Definition demo_draft : ExternalAction := demo_post <| xa_ActionType := ActionDraftMessage |>.

(** The ids the demo engine gives to the first action. *)
Definition demo_id : string := uuid_String (UuidPkg := demo_uuid) (uuid_New (UuidPkg := demo_uuid) 0).

Section theorems.
Context {U : UuidPkg} {J : PgJsonb} {JL : PgJsonbLaws J} {X : Type} (e : XEngine X).

(** C17: actions follow their state machine.  After any calls of the engine on
    empty tables, whatever database faults strike, every action is awaiting
    review, ready, executed or failed, has a known type and a JSON payload; and
    any further call keeps its identity and payload, never lowers its retry
    count and changes its status only along a valid transition. *)
Theorem actions_follow_lifecycle (s0 : Agent XDB X) (cs : list XCall) (c : XCall) :
  ag_db s0 = mkXDB ∅ ∅ →
  let s1 := snd (run_calls e cs s0) in
  let s2 := snd (run_call e c s1) in
  ∀ id a, external_actions (ag_db s1) !! id = Some a →
  xa_Status a ∈ ["review_required"; "ready"; "executed"; "failed"] ∧
  IsValidActionType (xa_ActionType a) = true ∧ ValidatePayload (xa_Payload a) = None ∧
  ∃ a', external_actions (ag_db s2) !! id = Some a' ∧ same_action a a' ∧
        (xa_Status a' = xa_Status a ∨ IsValidTransition (xa_Status a) (xa_Status a') = true).
Proof using JL.
  intros H0 s1 s2 id a Ha. destruct (xdb_empty_wf s0 H0) as [Hwf0 _].
  pose proof (run_calls_wf e cs s0 Hwf0) as Hwf1.
  destruct (Hwf1 id a Ha) as (_ & Hty & Hst & _ & _ & Hp).
  destruct (run_call_evolves e c s1 Hwf1) as [_ Hev].
  split; [exact Hst|]. split; [done|]. split; [done|]. by apply Hev.
Qed.

(** C16: actions that need review wait for it.  After any calls on empty
    tables and under any faults, an action that sends a message, schedules a
    meeting or publishes a post, or that belongs to an opportunity, is still
    awaiting review unless one of the calls approved it; and executing it then
    is refused, calls no connector and changes no table. *)
Theorem risky_actions_wait (s0 : Agent XDB X) (cs : list XCall) (id : string) (a : ExternalAction) :
  ag_db s0 = mkXDB ∅ ∅ →
  let s1 := snd (run_calls e cs s0) in
  external_actions (ag_db s1) !! id = Some a →
  xa_ActionType a ∈ ["send_message"; "schedule_meeting"; "publish_post"] ∨ xa_OpportunityID a ≠ "" →
  (∀ by_, CallApprove id by_ ∉ cs) →
  xa_Status a = "review_required" ∧
  let '(r, err, s2) := ExecuteAction e id s1 in
  ag_db s2 = ag_db s1 ∧ ag_ext s2 = ag_ext s1 ∧ r = zero_exec_result ∧ err ≠ None.
Proof using JL.
  intros H0 s1 Ha Hrisk Hno. destruct (xdb_empty_wf s0 H0) as [Hwf0 Hg0].
  assert (Hr : risky a = true).
  { unfold risky, Evaluate, HighRiskActionTypes. destruct Hrisk as [Ht|Ho].
    - by rewrite bool_decide_true.
    - destruct (bool_decide _); [done|]. by rewrite bool_decide_true. }
  assert (Hst : xa_Status a = "review_required").
  { pose proof (run_calls_guarded e cs [] s0 Hwf0 Hg0 id a Ha Hr) as Hin.
    destruct (decide (xa_Status a = StatusReviewRequired)) as [E|E]; [exact E|].
    apply Hin in E. rewrite app_nil_r in E. apply list_elem_of_In, in_concat in E as (l & Hl & Hi).
    apply in_map_iff in Hl as (c & <- & Hc). destruct c as [|i by_| |]; try by destruct Hi.
    destruct Hi as [-> | []]. exfalso. by apply (Hno by_), list_elem_of_In. }
  split; [done|]. apply Execute_refused. intros b Hb E.
  assert (a = b) as <- by congruence. rewrite Hst in E. discriminate E.
Qed.

(** Execution attempts are bounded.  Without database faults, for an action
    found after any calls on empty tables, later calls run its connector at most
    [MaxRetries - RetryCount] times in all, and not at all once it is executed or
    failed; and a call that does not reach the connector leaves the provider
    alone. *)
Theorem execution_attempts_bounded (s0 : Agent XDB X) (cs0 cs : list XCall) (id : string)
    (a : ExternalAction) :
  ag_db s0 = mkXDB ∅ ∅ →
  let s1 := snd (run_calls e cs0 s0) in
  ag_faults s1 = [] → external_actions (ag_db s1) !! id = Some a →
  (connector_runs e cs id s1 ≤ Z.to_nat (xa_MaxRetries a - xa_RetryCount a))%nat ∧
  (xa_Status a = "executed" ∨ xa_Status a = "failed" → connector_runs e cs id s1 = 0%nat) ∧
  (reaches_connector e id (ag_db s1) = false → ag_ext (snd (ExecuteAction e id s1)) = ag_ext s1).
Proof using JL.
  intros H0 s1 Hf Ha. destruct (xdb_empty_wf s0 H0) as [Hwf0 _].
  pose proof (run_calls_wf e cs0 s0 Hwf0) as Hwf1.
  pose proof (connector_runs_bound e cs id s1 a Hwf1 Hf Ha) as Hb.
  unfold attempts_left in Hb. fold s1 in Hb.
  rewrite Ha in Hb. unfold finished in Hb.
  split; [destruct (bool_decide _ || _); lia|]. split.
  - intros E. assert (Hd : bool_decide (xa_Status a = StatusExecuted)
      || bool_decide (xa_Status a = StatusFailed) = true) by (by destruct E as [-> | ->]).
    rewrite Hd in Hb. lia.
  - intros Hr. by apply Execute_unreached.
Qed.
End theorems.

(** ** Witnesses *)

Definition demo_run (cs : list XCall) : Agent XDB nat :=
  snd (run_calls (U := demo_uuid) demo_xengine cs demo_xstate).

Definition demo_action (cs : list XCall) : ExternalAction :=
  default zero_action (external_actions (ag_db (demo_run cs)) !! demo_id).

Lemma actions_follow_lifecycle_witness :
  external_actions (ag_db (demo_run [CallCreate demo_draft])) !! demo_id
    = Some (demo_action [CallCreate demo_draft]) ∧
  ∃ a', external_actions (ag_db (snd (run_call (U := demo_uuid) demo_xengine (CallExecute demo_id)
          (demo_run [CallCreate demo_draft])))) !! demo_id = Some a' ∧
        same_action (demo_action [CallCreate demo_draft]) a'.
Proof.
  assert (H : external_actions (ag_db (demo_run [CallCreate demo_draft])) !! demo_id
    = Some (demo_action [CallCreate demo_draft])) by (vm_compute; reflexivity).
  split; [exact H|].
  destruct (actions_follow_lifecycle (U := demo_uuid) demo_xengine demo_xstate [CallCreate demo_draft]
    (CallExecute demo_id) eq_refl demo_id _ H) as (_ & _ & _ & a' & H1 & H2 & _).
  exists a'. split; [exact H1|exact H2].
Defined.

Lemma risky_actions_wait_witness :
  xa_Status (demo_action [CallCreate demo_post; CallExecute demo_id]) = "review_required".
Proof.
  refine (proj1 (risky_actions_wait (U := demo_uuid) demo_xengine demo_xstate
    [CallCreate demo_post; CallExecute demo_id] demo_id
    (demo_action [CallCreate demo_post; CallExecute demo_id]) eq_refl _ _ _)).
  - vm_compute. reflexivity.
  - left. assert (E : xa_ActionType (demo_action [CallCreate demo_post; CallExecute demo_id])
      = "publish_post") by (vm_compute; reflexivity).
    rewrite E. by apply (bool_decide_unpack _).
  - intros by_ Hin. rewrite !elem_of_cons, elem_of_nil in Hin.
    by destruct Hin as [|[|]].
Defined.

Lemma execution_attempts_bounded_witness :
  (connector_runs (U := demo_uuid) demo_xengine
     [CallExecute demo_id; CallExecute demo_id; CallExecute demo_id; CallExecute demo_id] demo_id
     (demo_run [CallCreate demo_draft]) ≤ 3)%nat.
Proof.
  refine (proj1 (execution_attempts_bounded (U := demo_uuid) demo_xengine demo_xstate
    [CallCreate demo_draft]
    [CallExecute demo_id; CallExecute demo_id; CallExecute demo_id; CallExecute demo_id] demo_id
    (demo_action [CallCreate demo_draft]) eq_refl _ _)); vm_compute; reflexivity.
Defined.

(** A ready action runs its connector once and is then executed; an approved
    post is executed too. *)
Example demo_draft_executes :
  ag_ext (demo_run [CallCreate demo_draft; CallExecute demo_id; CallExecute demo_id]) = 1%nat ∧
  xa_Status (demo_action [CallCreate demo_draft; CallExecute demo_id]) = "executed".
Proof. vm_compute. auto. Qed.

Example demo_post_approved :
  ag_ext (demo_run [CallCreate demo_post; CallExecute demo_id; CallApprove demo_id "op";
                    CallExecute demo_id]) = 1%nat.
Proof. vm_compute. reflexivity. Qed.

(** When the status update after a successful run is lost, the action stays
    ready and a second call runs the connector again. *)
Example lost_update_repeats_action :
  let s := demo_run [CallCreate demo_draft] in
  let s1 := snd (ExecuteAction (U := demo_uuid) demo_xengine demo_id
              (s <| ag_faults := [NoFault; FaultBefore DeadlineExceeded] |>)) in
  let s2 := snd (ExecuteAction (U := demo_uuid) demo_xengine demo_id s1) in
  ag_ext s1 = 1%nat ∧ ag_ext s2 = 2%nat.
Proof. vm_compute. auto. Qed.
