(* ===== verification/ProviderRouting.v ===== *)
(** * Provider routing ([internal/agent/provider_routing])

    Registered providers of language models are filtered, scored and ranked for
    a task; the best becomes the primary, the next ones its fallback chain.
    Modelled: the registry, the quota tracker with its persistence, the scorer,
    the router and its adapter.

    The state is the router's: the registry's map, the tracker's map and its
    table, the recent decisions.  The in-memory maps hold what the Go pointers
    point to; calls of the router are atomic.  The auditor is an interface,
    which answers arbitrarily. *)

From stdpp Require Import base gmap strings list tactics numbers fin_maps pretty.
From Stdlib Require Import ZArith Lia.
From S2P Require Import Prelude GoFloat GoStrconv GoSort Models GoTime AgentWorld ExternalActions.

Open Scope Z_scope.

(** ** Types *)

Definition KindLocal : string := "local".
Definition KindCloud : string := "cloud".
Definition KindRouter : string := "router".

Definition RoleFallback : string := "fallback".

Definition CostFree : string := "free".
Definition CostLocal : string := "local".
Definition CostCheap : string := "cheap".
Definition CostUnknown : string := "unknown".

Definition WeightLatencyFit : float64 := lit 30 100.
Definition WeightQuotaHeadroom : float64 := lit 25 100.
Definition WeightReliability : float64 := lit 20 100.
Definition WeightCostEfficiency : float64 := lit 15 100.
Definition WeightModelCapability : float64 := lit 10 100.

Definition MaxFallbackChainLength : Z := 3.
Definition TieBreakEpsilon : float64 := lit 1 1000.
Definition MaxRecentDecisions : nat := 100.

Record ProviderLimits := mkLimits { lm_RPM : Z; lm_TPM : Z; lm_RPD : Z; lm_TPD : Z }.
Record ProviderCostModel := mkCost { co_CostClass : string; co_RelativeCost : float64 }.
Record ProviderHealth := mkHealth {
  he_Enabled : bool; he_Reachable : bool; he_Degraded : bool; he_LastCheckedAt : time }.

Record Provider := mkProvider {
  pv_Name : string;
  pv_Kind : string;
  pv_Roles : list string;
  pv_Capabilities : list string;
  pv_Limits : ProviderLimits;
  pv_Cost : ProviderCostModel;
  pv_Health : ProviderHealth
}.

(** What a failed map lookup returns. *)
Definition zero_provider : Provider :=
  mkProvider "" "" [] [] (mkLimits 0 0 0 0) (mkCost "" f0) (mkHealth false false false zero_time).

Definition IsLocal (p : Provider) : bool := bool_decide (pv_Kind p = KindLocal).
Definition IsExternal (p : Provider) : bool :=
  bool_decide (pv_Kind p = KindCloud) || bool_decide (pv_Kind p = KindRouter).
Definition HasRole (p : Provider) (role : string) : bool := bool_decide (role ∈ pv_Roles p).
Definition HasCapability (p : Provider) (cap : string) : bool := bool_decide (cap ∈ pv_Capabilities p).

Record RoutingInput := mkRoutingInput {
  ri_GoalType : string;
  ri_TaskType : string;
  ri_PreferredRole : string;
  ri_EstimatedTokens : Z;
  ri_LatencyBudgetMs : Z;
  ri_ConfidenceRequired : float64;
  ri_AllowExternal : bool;
  ri_RequiredCapabilities : list string
}.

#[export] Instance RoutingInput_settable : Settable RoutingInput := fun r =>
  mkRoutingInput (ri_GoalType r) (ri_TaskType r) (ri_PreferredRole r) (ri_EstimatedTokens r)
    (ri_LatencyBudgetMs r) (ri_ConfidenceRequired r) (ri_AllowExternal r) (ri_RequiredCapabilities r).

Record ProviderModelPair := mkPair { pp_Provider : string; pp_Model : string }.

#[export] Instance ProviderModelPair_eq_dec : EqDecision ProviderModelPair.
Proof. solve_decision. Defined.

(** [provider/model], or the provider alone. *)
Definition target_key (provider model : string) : string :=
  if bool_decide (model = "") then provider else provider +:+ "/" +:+ model.

Definition pair_String (p : ProviderModelPair) : string := target_key (pp_Provider p) (pp_Model p).

Record ExecutionConfig := mkExecConfig {
  ec_TimeoutSeconds : Z;
  ec_ThinkMode : string;
  ec_JSONMode : bool;
  ec_MaxOutputTokens : Z
}.
Definition zero_exec_config : ExecutionConfig := mkExecConfig 0 "" false 0.

Record RejectedProvider := mkRejected { rj_Provider : string; rj_Model : string; rj_Reason : string }.
Record RankedProvider := mkRanked {
  rk_Provider : string; rk_Model : string; rk_Score : float64; rk_Reason : string }.

Record RoutingTrace := mkTrace {
  tc_Considered : list string;
  tc_Rejected : list RejectedProvider;
  tc_Ranked : list RankedProvider;
  tc_FinalReason : string
}.

Record ExecutionPlan := mkPlan {
  pl_Provider : string;
  pl_Model : string;
  pl_Fallbacks : list ProviderModelPair;
  pl_Execution : ExecutionConfig;
  pl_Score : float64;
  pl_Reason : string;
  pl_Trace : RoutingTrace
}.

Definition empty_plan (reason : string) (trace : RoutingTrace) : ExecutionPlan :=
  mkPlan "" "" [] zero_exec_config f0 reason trace.

Definition IsEmpty (p : ExecutionPlan) : bool := bool_decide (pl_Provider p = "").
Definition PrimaryTarget (p : ExecutionPlan) : ProviderModelPair := mkPair (pl_Provider p) (pl_Model p).
Definition AllTargets (p : ExecutionPlan) : list ProviderModelPair := PrimaryTarget p :: pl_Fallbacks p.

Record ProviderUsageState := mkUsage {
  us_ProviderName : string;
  us_RequestsThisMinute : Z;
  us_TokensThisMinute : Z;
  us_RequestsToday : Z;
  us_TokensToday : Z;
  us_LastUpdated : time
}.

#[export] Instance ProviderUsageState_settable : Settable ProviderUsageState := fun r =>
  mkUsage (us_ProviderName r) (us_RequestsThisMinute r) (us_TokensThisMinute r) (us_RequestsToday r)
    (us_TokensToday r) (us_LastUpdated r).

Record GlobalPolicyConfig := mkGlobalPolicy {
  gp_PreferFree : bool;
  gp_AllowExternal : bool;
  gp_MaxFallbackChain : Z;
  gp_RolePreferences : gmap string (list string);
  gp_DegradePolicy : list string
}.

Record RoutingRecord := mkRoutingRecord {
  rr_ID : string;
  rr_GoalType : string;
  rr_TaskType : string;
  rr_SelectedProvider : string;
  rr_SelectedModel : string;
  rr_Fallbacks : list ProviderModelPair;
  rr_Execution : ExecutionConfig;
  rr_Score : float64;
  rr_Reason : string;
  rr_CreatedAt : time
}.

(** ** Registry *)

Abbreviation Registry := (gmap string Provider).

Definition Register (p : Provider) (r : Registry) : Registry := <[pv_Name p := p]> r.
Definition Registry_Get (r : Registry) (name : string) : option Provider := r !! name.

(** Names are distinct, so sorting by name has one outcome. *)
Definition All (r : Registry) : list Provider :=
  SliceStable (fun x y => String.ltb (pv_Name x) (pv_Name y)) (map_to_list r).*2.
Definition Enabled (r : Registry) : list Provider := List.filter (fun p => he_Enabled (pv_Health p)) (All r).
Definition ByRole (r : Registry) (role : string) : list Provider :=
  List.filter (fun p => HasRole p role) (Enabled r).
Definition ByCapability (r : Registry) (cap : string) : list Provider :=
  List.filter (fun p => HasCapability p cap) (Enabled r).
Definition Registry_Count (r : Registry) : nat := size r.

(** ** Quotas *)

(** [t.Truncate(d)]: counted from the zero time. *)
Definition Truncate (t d : time) : time := t - (t - zero_time) mod d.
Definition Day : time := 24 * 60 * Minute.

(** Instants of one location are equal when their values are. *)
Definition applyResets (s : ProviderUsageState) (now : time) : ProviderUsageState :=
  if bool_decide (us_LastUpdated s = zero_time) then s
  else
    let s := if bool_decide (Truncate now Minute ≠ Truncate (us_LastUpdated s) Minute)
             then s <| us_RequestsThisMinute := 0 |> <| us_TokensThisMinute := 0 |> else s in
    if bool_decide (Truncate now Day ≠ Truncate (us_LastUpdated s) Day)
    then s <| us_RequestsToday := 0 |> <| us_TokensToday := 0 |> else s.

Definition exceeded (what : string) (projected limit : Z) : string :=
  what +:+ " exceeded: projected " +:+ pretty projected +:+ " > limit " +:+ pretty limit.

(** [Some reason] stands for [(reason, false)]. *)
Definition CheckQuota (limits : ProviderLimits) (usage : ProviderUsageState) (estimatedTokens : Z)
    : option string :=
  let tokens := if bool_decide (estimatedTokens < 0) then 0 else estimatedTokens in
  let rpm := wrap64 (us_RequestsThisMinute usage + 1) in
  let tpm := wrap64 (us_TokensThisMinute usage + tokens) in
  let rpd := wrap64 (us_RequestsToday usage + 1) in
  let tpd := wrap64 (us_TokensToday usage + tokens) in
  if bool_decide (0 < lm_RPM limits) && bool_decide (lm_RPM limits < rpm)
  then Some (exceeded "RPM" rpm (lm_RPM limits))
  else if bool_decide (0 < lm_TPM limits) && bool_decide (0 < tokens) && bool_decide (lm_TPM limits < tpm)
  then Some (exceeded "TPM" tpm (lm_TPM limits))
  else if bool_decide (0 < lm_RPD limits) && bool_decide (lm_RPD limits < rpd)
  then Some (exceeded "RPD" rpd (lm_RPD limits))
  else if bool_decide (0 < lm_TPD limits) && bool_decide (0 < tokens) && bool_decide (lm_TPD limits < tpd)
  then Some (exceeded "TPD" tpd (lm_TPD limits))
  else None.

Definition headroom (projected limit : Z) : float64 :=
  fclamp01 (fsub f1 (fdiv (f_of_Z projected) (f_of_Z limit))).

Definition ComputeHeadroom (limits : ProviderLimits) (usage : ProviderUsageState) (estimatedTokens : Z)
    : float64 :=
  let tokens := if bool_decide (estimatedTokens < 0) then 0 else estimatedTokens in
  let score (on : bool) projected limit := if on then [headroom (wrap64 projected) limit] else [] in
  let scores :=
    score (bool_decide (0 < lm_RPM limits)) (us_RequestsThisMinute usage + 1) (lm_RPM limits) ++
    score (bool_decide (0 < lm_TPM limits) && bool_decide (0 < tokens))
      (us_TokensThisMinute usage + tokens) (lm_TPM limits) ++
    score (bool_decide (0 < lm_RPD limits)) (us_RequestsToday usage + 1) (lm_RPD limits) ++
    score (bool_decide (0 < lm_TPD limits) && bool_decide (0 < tokens))
      (us_TokensToday usage + tokens) (lm_TPD limits) in
  match scores with
  | [] => f1
  | s :: rest => fold_left (fun min s => if fltb s min then s else min) rest s
  end.

(** ** Scorer *)

Record ScoreComponents := mkScore {
  sc_LatencyFit : float64;
  sc_QuotaHeadroom : float64;
  sc_ReliabilityFit : float64;
  sc_CostEfficiency : float64;
  sc_ModelCapability : float64;
  sc_PreferenceBoost : float64;
  sc_FinalScore : float64
}.

#[export] Instance ScoreComponents_settable : Settable ScoreComponents := fun r =>
  mkScore (sc_LatencyFit r) (sc_QuotaHeadroom r) (sc_ReliabilityFit r) (sc_CostEfficiency r)
    (sc_ModelCapability r) (sc_PreferenceBoost r) (sc_FinalScore r).

Definition computeLatencyFit (p : Provider) (input : RoutingInput) : float64 :=
  let ms := ri_LatencyBudgetMs input in
  if bool_decide (ms ≤ 0) then lit 5 10
  else if bool_decide (pv_Kind p = KindLocal) then
    if bool_decide (ms ≤ 500) then f1 else lit 8 10
  else if bool_decide (pv_Kind p = KindCloud) then
    if bool_decide (ms ≤ 500) then lit 3 10
    else if bool_decide (ms ≤ 2000) then lit 6 10 else lit 8 10
  else if bool_decide (pv_Kind p = KindRouter) then
    if bool_decide (ms ≤ 500) then lit 2 10
    else if bool_decide (ms ≤ 2000) then lit 5 10 else lit 7 10
  else lit 5 10.

Definition computeReliabilityFit (p : Provider) : float64 :=
  if negb (he_Enabled (pv_Health p)) then f0
  else if negb (he_Reachable (pv_Health p)) then lit 1 10
  else if he_Degraded (pv_Health p) then lit 4 10
  else f1.

Definition computeCostEfficiency (p : Provider) : float64 :=
  let c := co_CostClass (pv_Cost p) in
  if bool_decide (c = CostLocal) then f1
  else if bool_decide (c = CostFree) then lit 95 100
  else if bool_decide (c = CostCheap) then lit 7 10
  else if bool_decide (c = CostUnknown) then lit 5 10
  else fclamp01 (fsub f1 (co_RelativeCost (pv_Cost p))).

Definition computeModelCapabilityFit (p : Provider) (input : RoutingInput) : float64 :=
  match ri_RequiredCapabilities input with
  | [] => f1
  | reqs => fdiv (f_of_Z (Z.of_nat (length (List.filter (HasCapability p) reqs))))
                 (f_of_Z (Z.of_nat (length reqs)))
  end.

Definition ScoreProvider (p : Provider) (input : RoutingInput) (usage : ProviderUsageState)
    : ScoreComponents :=
  let latency := computeLatencyFit p input in
  let quota := ComputeHeadroom (pv_Limits p) usage (ri_EstimatedTokens input) in
  let reliability := computeReliabilityFit p in
  let cost := computeCostEfficiency p in
  let capability := computeModelCapabilityFit p input in
  let final := fadd (fadd (fadd (fadd (fmul latency WeightLatencyFit)
                                      (fmul quota WeightQuotaHeadroom))
                                (fmul reliability WeightReliability))
                          (fmul cost WeightCostEfficiency))
                    (fmul capability WeightModelCapability) in
  mkScore latency quota reliability cost capability f0 (fclamp01 final).

Definition FormatScoreReason (c : ScoreComponents) : string :=
  "latency=" +:+ fmt_fixed 2 (sc_LatencyFit c) +:+
  " quota=" +:+ fmt_fixed 2 (sc_QuotaHeadroom c) +:+
  " reliability=" +:+ fmt_fixed 2 (sc_ReliabilityFit c) +:+
  " cost=" +:+ fmt_fixed 2 (sc_CostEfficiency c) +:+
  " capability=" +:+ fmt_fixed 2 (sc_ModelCapability c) +:+
  (if fltb f0 (sc_PreferenceBoost c)
   then " preference=" +:+ fmt_fixed 2 (sc_PreferenceBoost c) else "") +:+
  " → score=" +:+ fmt_fixed 3 (sc_FinalScore c).

(** ** State of the router *)

Record RoutingDB := mkRoutingDB {
  rg_providers : Registry;
  rg_usage : gmap string ProviderUsageState;      (* the tracker's map *)
  rg_rows : gmap string ProviderUsageState;       (* agent_provider_usage *)
  rg_recent : list RoutingRecord
}.

#[export] Instance RoutingDB_settable : Settable RoutingDB := fun r =>
  mkRoutingDB (rg_providers r) (rg_usage r) (rg_rows r) (rg_recent r).

(** The payloads of the router's audit events; every event's entity is the nil
    UUID. *)
Inductive RoutingEvent : Type :=
| PlanEvent (eventType : string) (input : RoutingInput) (target : ProviderModelPair)
    (fallback_chain : list string) (execution : ExecutionConfig) (score : float64) (reason : string)
    (rejected : list (string * string))
| QuotaEvent (provider : string) (input : RoutingInput) (reason : string).

Record Router (X : Type) := mkRouter {
  rt_clock : nat → time;
  rt_order : nat → list ProviderUsageState → list ProviderUsageState;  (* of the tracker's map *)
  rt_db : bool;                                                        (* q.db != nil *)
  rt_auditor : option (RoutingEvent → St X (option error));
  rt_policy : option GlobalPolicyConfig;
  rt_modelExecMap : option (gmap string ExecutionConfig)
}.
Arguments mkRouter {X}.
Arguments rt_clock {X}.
Arguments rt_order {X}.
Arguments rt_db {X}.
Arguments rt_auditor {X}.
Arguments rt_policy {X}.
Arguments rt_modelExecMap {X}.

Definition WithGlobalPolicy {X} (r : Router X) (cfg : option GlobalPolicyConfig) : Router X :=
  mkRouter (rt_clock r) (rt_order r) (rt_db r) (rt_auditor r) cfg (rt_modelExecMap r).

Definition WithModelExecutionMap {X} (r : Router X) (m : option (gmap string ExecutionConfig)) : Router X :=
  match m with
  | None => r
  | Some _ => mkRouter (rt_clock r) (rt_order r) (rt_db r) (rt_auditor r) (rt_policy r) m
  end.

Section router.
Context {U : UuidPkg} {X : Type} (rt : Router X).

Abbreviation RT := (St (Agent RoutingDB X)).

Definition rt_now : RT time := reading (rt_clock rt).

(** Reading and writing the memory shared by the router's calls. *)
Definition memory {A} (f : RoutingDB → A) : RT A := fun s => (f (ag_db s), s).
Definition put_usage (provider : string) (st : ProviderUsageState) : RT unit := fun s =>
  (tt, s <| ag_db := (ag_db s) <| rg_usage := <[provider := st]> (rg_usage (ag_db s)) |> |>).

(** ** Quota tracker *)

Definition getOrCreate (provider : string) : RT ProviderUsageState :=
  let! usage := memory rg_usage in
  match usage !! provider with
  | Some s => retS s
  | None =>
      let! now := rt_now in
      let s := mkUsage provider 0 0 0 0 now in
      let! _ := put_usage provider s in
      retS s
  end.

Definition GetUsage (provider : string) : RT ProviderUsageState :=
  let! state := getOrCreate provider in
  let! now := rt_now in
  let state := applyResets state now in
  let! _ := put_usage provider state in
  retS state.

Definition GetAllUsage : RT (list ProviderUsageState) :=
  let! now := rt_now in
  let! usage := memory (fun db => (fun u => applyResets u now) <$> rg_usage db) in
  let! _ := (fun s => (tt, s <| ag_db := (ag_db s) <| rg_usage := usage |> |>)) in
  reading (fun n => rt_order rt n (map_to_list usage).*2).

(** The counters are [INTEGER] columns. *)
Definition usage_ints_ok (s : ProviderUsageState) : bool :=
  in_int4 (us_RequestsThisMinute s) && in_int4 (us_TokensThisMinute s) &&
  in_int4 (us_RequestsToday s) && in_int4 (us_TokensToday s).

Definition persistState (s : ProviderUsageState) : RT unit :=
  if negb (rt_db rt) then retS tt
  else dropped (statement (fun db =>
    if negb (usage_ints_ok s) then Err (Errorf "integer out of range")
    else Ok (tt, db <| rg_rows := <[us_ProviderName s := s <| us_LastUpdated := trunc_us (us_LastUpdated s) |>]>
                                    (rg_rows db) |>))).

Definition RecordUsage (provider : string) (tokens : Z) : RT unit :=
  let! state := getOrCreate provider in
  let! now := rt_now in
  let state := applyResets state now in
  let state := state <| us_RequestsThisMinute := wrap64 (us_RequestsThisMinute state + 1) |>
                     <| us_RequestsToday := wrap64 (us_RequestsToday state + 1) |> in
  let state := if bool_decide (0 < tokens)
               then state <| us_TokensThisMinute := wrap64 (us_TokensThisMinute state + tokens) |>
                          <| us_TokensToday := wrap64 (us_TokensToday state + tokens) |>
               else state in
  let state := state <| us_LastUpdated := now |> in
  let! _ := put_usage provider state in
  persistState state.

(** Rows replace what the map holds under their names. *)
Definition LoadFromDB : RT (option error) :=
  if negb (rt_db rt) then retS None
  else
    let! rows := statement (fun db => Ok ((map_to_list (rg_rows db)).*2, db)) in
    match rows with
    | Err err => retS (Some (wrap "load provider usage: " err))
    | Ok rows => let! _ := forS (fun s => put_usage (us_ProviderName s) s) rows in retS None
    end.

(** ** Events and records *)

Definition emit (ev : RoutingEvent) : RT unit :=
  match rt_auditor rt with
  | None => retS tt
  | Some record => dropped (provider (record ev))
  end.

Definition Routing_emitAudit (eventType : string) (input : RoutingInput) (plan : ExecutionPlan) : RT unit :=
  emit (PlanEvent eventType input (PrimaryTarget plan) (map pair_String (pl_Fallbacks plan))
          (pl_Execution plan) (pl_Score plan) (pl_Reason plan)
          (map (fun rp => (rj_Provider rp, rj_Reason rp)) (tc_Rejected (pl_Trace plan)))).

Definition emitQuotaExceeded (name : string) (input : RoutingInput) (reason : string) : RT unit :=
  emit (QuotaEvent name input reason).

Definition recordDecision (input : RoutingInput) (plan : ExecutionPlan) : RT unit :=
  let! id := fresh_uuid in
  let! now := rt_now in
  let record := mkRoutingRecord id (ri_GoalType input) (ri_TaskType input) (pl_Provider plan)
                  (pl_Model plan) (pl_Fallbacks plan) (pl_Execution plan) (pl_Score plan)
                  (pl_Reason plan) now in
  fun s =>
    let recent := rg_recent (ag_db s) ++ [record] in
    let recent := if bool_decide (MaxRecentDecisions < length recent)%nat
                  then drop (length recent - MaxRecentDecisions) recent else recent in
    (tt, s <| ag_db := (ag_db s) <| rg_recent := recent |> |>).

Definition GetRecentDecisions : RT (list RoutingRecord) := memory rg_recent.

(** ** Filtering, scoring and ranking *)

(** [Some reason] stands for [(reason, false)]. *)
Definition filterProvider (p : Provider) (input : RoutingInput) : RT (option string) :=
  if negb (he_Enabled (pv_Health p)) then retS (Some "provider disabled")
  else if negb (he_Reachable (pv_Health p)) then retS (Some "provider unreachable")
  else if negb (ri_AllowExternal input) && IsExternal p then
    retS (Some "external providers not allowed")
  else if bool_decide (ri_PreferredRole input ≠ "") &&
          (negb (HasRole p (ri_PreferredRole input)) && negb (HasRole p RoleFallback)) then
    retS (Some ("does not have role " +:+ quote (ri_PreferredRole input)))
  else
    let! usage := GetUsage (pv_Name p) in
    match CheckQuota (pv_Limits p) usage (ri_EstimatedTokens input) with
    | Some reason =>
        let! _ := emitQuotaExceeded (pv_Name p) input reason in
        retS (Some reason)
    | None => retS None
    end.

(** The filtering loop of [Route]: the valid and the rejected candidates. *)
Fixpoint filter_providers (input : RoutingInput) (ps : list Provider)
    : RT (list Provider * list RejectedProvider) :=
  match ps with
  | [] => retS ([], [])
  | p :: ps' =>
      let! reason := filterProvider p input in
      let! out := filter_providers input ps' in
      let '(valid, rejected) := out in
      retS match reason with
           | Some reason => (valid, mkRejected (pv_Name p) "" reason :: rejected)
           | None => (p :: valid, rejected)
           end
  end.

(** The position of a name in the role's preference list. *)
Fixpoint index_of (name : string) (l : list string) (i : nat) : option nat :=
  match l with
  | [] => None
  | x :: l' => if bool_decide (x = name) then Some i else index_of name l' (S i)
  end.

Definition preferenceBoostFor (providerName role : string) : float64 :=
  match rt_policy rt with
  | None => f0
  | Some policy =>
      match index_of providerName (default [] (gp_RolePreferences policy !! role)) 0 with
      | None => f0
      | Some i =>
          let boost := fsub (lit 10 100) (fmul (f_of_Z (Z.of_nat i)) (lit 3 100)) in
          if fltb boost f0 then f0 else boost
      end
  end.

Definition scored (p : Provider) (input : RoutingInput) (usage : ProviderUsageState) : RankedProvider :=
  let components := ScoreProvider p input usage in
  let boost := preferenceBoostFor (pv_Name p) (ri_PreferredRole input) in
  let components := if fltb f0 boost
                    then components <| sc_PreferenceBoost := boost |>
                                    <| sc_FinalScore := fclamp01 (fadd (sc_FinalScore components) boost) |>
                    else components in
  mkRanked (pv_Name p) "" (sc_FinalScore components) (FormatScoreReason components).

Fixpoint score_each (input : RoutingInput) (ps : list Provider) : RT (list RankedProvider) :=
  match ps with
  | [] => retS []
  | p :: ps' =>
      let! usage := GetUsage (pv_Name p) in
      let! ranked := score_each input ps' in
      retS (scored p input usage :: ranked)
  end.

(** The comparison of [scoreProviders]. *)
Definition ranked_before (reg : Registry) (x y : RankedProvider) : bool :=
  let diff := fsub (rk_Score x) (rk_Score y) in
  if fltb TieBreakEpsilon diff then true
  else if fltb diff (lit (-1) 1000) then false
  else
    let px := default zero_provider (reg !! rk_Provider x) in
    let py := default zero_provider (reg !! rk_Provider y) in
    if negb (Bool.eqb (IsLocal px) (IsLocal py)) then IsLocal px
    else
      let cx := co_RelativeCost (pv_Cost px) in
      let cy := co_RelativeCost (pv_Cost py) in
      if negb (feqb cx cy) then fltb cx cy
      else if bool_decide (rk_Provider x ≠ rk_Provider y) then String.ltb (rk_Provider x) (rk_Provider y)
      else String.ltb (rk_Model x) (rk_Model y).

Definition scoreProviders (providers : list Provider) (input : RoutingInput) : RT (list RankedProvider) :=
  let! ranked := score_each input providers in
  memory (fun db => stable_sort (ranked_before (rg_providers db)) ranked).

(** The loop of [degradeTierIndex]. *)
Fixpoint tier_from (kind : string) (tiers : list string) (i : nat) : nat :=
  match tiers with
  | [] => i
  | tier :: tiers' =>
      let match_kind k := bool_decide (kind = k) in
      if (bool_decide (tier = "external_strong") || bool_decide (tier = "external_fast"))
           && match_kind KindCloud
         || bool_decide (tier = "router") && match_kind KindRouter
         || bool_decide (tier = "local") && match_kind KindLocal
      then i else tier_from kind tiers' (S i)
  end.

Definition degradeTierIndex (p : Provider) : nat :=
  match rt_policy rt with
  | None => 0
  | Some policy => tier_from (pv_Kind p) (gp_DegradePolicy policy) 0
  end.

Definition tier_before (reg : Registry) (x y : RankedProvider) : bool :=
  match reg !! rk_Provider x, reg !! rk_Provider y with
  | Some px, Some py => bool_decide (degradeTierIndex px < degradeTierIndex py)%nat
  | Some _, None => true
  | None, _ => false
  end.

(** The last loop of [buildFallbackPairs]. *)
Fixpoint take_pairs (room : nat) (seen : list string) (ranked : list RankedProvider)
    : list ProviderModelPair :=
  match room, ranked with
  | S room', rp :: rest =>
      let key := target_key (rk_Provider rp) (rk_Model rp) in
      if bool_decide (key ∈ seen) then take_pairs room seen rest
      else mkPair (rk_Provider rp) (rk_Model rp) :: take_pairs room' (key :: seen) rest
  | _, _ => []
  end.

Definition max_chain : Z :=
  match rt_policy rt with
  | Some policy => if bool_decide (0 < gp_MaxFallbackChain policy) then gp_MaxFallbackChain policy
                   else MaxFallbackChainLength
  | None => MaxFallbackChainLength
  end.

(** Also returns [remaining], which is sorted in place and shares its array with
    the ranking of the trace. *)
Definition buildFallbackPairs (reg : Registry) (remaining : list RankedProvider) (primary : string)
    : list ProviderModelPair * list RankedProvider :=
  let remaining :=
    match rt_policy rt with
    | Some policy => match gp_DegradePolicy policy with
                     | [] => remaining
                     | _ => stable_sort (tier_before reg) remaining
                     end
    | None => remaining
    end in
  (take_pairs (Z.to_nat max_chain) [primary] remaining, remaining).

Definition execConfigFor (provider model : string) : ExecutionConfig :=
  match rt_modelExecMap rt with
  | None => zero_exec_config
  | Some m =>
      match m !! target_key provider model with
      | Some cfg => cfg
      | None => default zero_exec_config (m !! provider)
      end
  end.

(** ** Routing *)

(** Step 1 without candidates. *)
Definition no_providers (input : RoutingInput) : RT ExecutionPlan :=
  let plan := empty_plan "no providers available in registry"
                (mkTrace [] [] [] "empty registry or all providers disabled") in
  let! _ := recordDecision input plan in
  let! _ := Routing_emitAudit "provider.routing_decided" input plan in
  retS plan.

(** Step 2 without valid candidates. *)
Definition all_rejected (input : RoutingInput) (considered : list string)
    (rejected : list RejectedProvider) : RT ExecutionPlan :=
  let plan := empty_plan "all providers rejected by filtering"
                (mkTrace considered rejected [] "no valid providers after filtering") in
  let! _ := recordDecision input plan in
  let! _ := Routing_emitAudit "provider.routing_decided" input plan in
  let! _ := Routing_emitAudit "provider.degraded_to_local" input plan in
  retS plan.

(** Steps 4 to 6: the plan of a ranking. *)
Definition ranked_plan (reg : Registry) (considered : list string) (rejected : list RejectedProvider)
    (primary : RankedProvider) (rest : list RankedProvider) : ExecutionPlan :=
  let key := target_key (rk_Provider primary) (rk_Model primary) in
  let '(fallbacks, rest) := buildFallbackPairs reg rest key in
  let execCfg := execConfigFor (rk_Provider primary) (rk_Model primary) in
  let reason := "selected " +:+ key +:+ ": " +:+ rk_Reason primary in
  mkPlan (rk_Provider primary) (rk_Model primary) fallbacks execCfg (rk_Score primary) reason
    (mkTrace considered rejected (primary :: rest) reason).

Definition degraded_to_local (reg : Registry) (plan : ExecutionPlan) : bool :=
  bool_decide (pl_Provider plan ≠ "") &&
  match reg !! pl_Provider plan with Some p => IsLocal p | None => false end &&
  existsb (fun rp => bool_decide (rj_Reason rp ≠ "")) (tc_Rejected (pl_Trace plan)).

(** The rest of [Route], from step 3.  The ranking of some candidates is not
    empty. *)
Definition select_ranked (input : RoutingInput) (reg : Registry) (considered : list string)
    (rejected : list RejectedProvider) (ranking : list RankedProvider) : RT ExecutionPlan :=
  match ranking with
  | [] => retS (empty_plan "" (mkTrace considered rejected [] ""))
  | primary :: rest =>
      let plan := ranked_plan reg considered rejected primary rest in
      let! _ := recordDecision input plan in
      let! _ := Routing_emitAudit "provider.routing_decided" input plan in
      let! _ := if degraded_to_local reg plan
                then Routing_emitAudit "provider.degraded_to_local" input plan else retS tt in
      retS plan
  end.

Definition Route (input : RoutingInput) : RT ExecutionPlan :=
  let input := match rt_policy rt with
               | Some policy => if gp_AllowExternal policy then input
                                else input <| ri_AllowExternal := false |>
               | None => input
               end in
  let! reg := memory rg_providers in
  let candidates := Enabled reg in
  if bool_decide (length candidates = 0)%nat then no_providers input
  else
    let considered := map pv_Name candidates in
    let! out := filter_providers input candidates in
    let '(valid, rejected) := out in
    if bool_decide (length valid = 0)%nat then all_rejected input considered rejected
    else
      let! ranking := scoreProviders valid input in
      select_ranked input reg considered rejected ranking.
End router.

(** [GraphAdapter.RouteForTask]; [None] is a nil adapter. *)
Definition RouteForTask {U : UuidPkg} {X} (router : option (Router X))
    (goalType taskType preferredRole : string) (estimatedTokens latencyBudgetMs : Z)
    (confidenceRequired : float64) (allowExternal : bool) : St (Agent RoutingDB X) ExecutionPlan :=
  match router with
  | None => retS (empty_plan "provider router not configured" (mkTrace [] [] [] ""))
  | Some r => Route r (mkRoutingInput goalType taskType preferredRole estimatedTokens latencyBudgetMs
                         confidenceRequired allowExternal [])
  end.
