(* ===== verification/ProviderRoutingProps.v ===== *)
(** * Properties of provider routing *)

From stdpp Require Import base gmap strings list tactics numbers fin_maps sorting.
From Stdlib Require Import ZArith Lia.
From S2P Require Import Prelude GoFloat GoStrconv GoSort Models AgentWorld ExternalActions Fixtures ProviderRouting.

Open Scope Z_scope.

(** ** The registry *)

Definition registry_wf (reg : Registry) : Prop := ∀ k p, reg !! k = Some p → pv_Name p = k.

Lemma Register_wf p reg : registry_wf reg → registry_wf (Register p reg).
Proof. intros H k q. unfold Register. rewrite lookup_insert. case_decide; [by intros [= <-]|apply H]. Qed.

Lemma elem_All reg p : p ∈ All reg ↔ ∃ k, reg !! k = Some p.
Proof.
  unfold All. rewrite SliceStable_elem, list_elem_of_fmap. split.
  - intros ([k q] & -> & H%elem_of_map_to_list). by exists k.
  - intros [k H]. exists (k, p). by rewrite elem_of_map_to_list.
Qed.

Lemma NoDup_All reg : registry_wf reg → NoDup (map pv_Name (All reg)).
Proof.
  intros Hwf. unfold All. change (NoDup (pv_Name <$> SliceStable (fun x y => String.ltb (pv_Name x) (pv_Name y)) (map_to_list reg).*2)).
  rewrite SliceStable_perm, <- list_fmap_compose.
  rewrite (list_fmap_ext _ fst); [apply NoDup_fst_map_to_list|].
  intros i [k p] Hi. cbn. apply Hwf, elem_of_map_to_list. by eapply list_elem_of_lookup_2.
Qed.

Lemma sublist_filter {A} (f : A → bool) l : List.filter f l `sublist_of` l.
Proof.
  induction l as [|x l IH]; cbn; [constructor|]. destruct (f x); by constructor.
Qed.

Lemma NoDup_Enabled reg : registry_wf reg → NoDup (map pv_Name (Enabled reg)).
Proof.
  intros Hwf. eapply sublist_NoDup; [apply (NoDup_All reg Hwf)|].
  apply (fmap_sublist pv_Name), sublist_filter.
Qed.

Lemma elem_Enabled reg p :
  registry_wf reg → p ∈ Enabled reg ↔ reg !! pv_Name p = Some p ∧ he_Enabled (pv_Health p) = true.
Proof.
  intros Hwf. unfold Enabled. rewrite list_elem_of_In, filter_In, <- list_elem_of_In, elem_All. split.
  - intros [[k H] He]. by rewrite (Hwf k p H).
  - intros [H He]. split; [by eexists|done].
Qed.

(** ** Usage as the tracker reports it *)

Section usage.
Context {U : UuidPkg} {X : Type} (rt : Router X).
Implicit Types s : Agent RoutingDB X.

(** The entry found or created; a new one is stamped at [t]. *)
Definition entry (usage : gmap string ProviderUsageState) (name : string) (t : time)
    : ProviderUsageState := default (mkUsage name 0 0 0 0 t) (usage !! name).

Lemma getOrCreate_run name s :
  getOrCreate rt name s =
  (entry (rg_usage (ag_db s)) name (rt_clock rt (ag_reads s)),
   match rg_usage (ag_db s) !! name with
   | Some _ => s
   | None => s <| ag_reads := S (ag_reads s) |>
               <| ag_db := (ag_db s) <| rg_usage := <[name := mkUsage name 0 0 0 0 (rt_clock rt (ag_reads s))]>
                                                      (rg_usage (ag_db s)) |> |>
   end).
Proof using.
  unfold getOrCreate, entry, memory. rewrite bindS_run. cbn [fst snd].
  by destruct (rg_usage (ag_db s) !! name).
Qed.

(** The instants of one reading: of the creation and of the reset. *)
Lemma GetUsage_run name s :
  ∃ t0 t, fst (GetUsage rt name s) = applyResets (entry (rg_usage (ag_db s)) name t0) t ∧
    let s' := snd (GetUsage rt name s) in
    ag_db s' = (ag_db s) <| rg_usage := <[name := fst (GetUsage rt name s)]> (rg_usage (ag_db s)) |> ∧
    ag_ext s' = ag_ext s ∧ ag_faults s' = ag_faults s.
Proof using.
  unfold GetUsage. rewrite bindS_run, getOrCreate_run. cbn [fst snd].
  destruct (rg_usage (ag_db s) !! name) as [u|] eqn:Hu; unfold rt_now; rewrite bindS_run; cbn [reading fst snd].
  - exists 0, (rt_clock rt (ag_reads s)). unfold entry. rewrite Hu. by split_and!.
  - exists (rt_clock rt (ag_reads s)), (rt_clock rt (S (ag_reads s))). unfold entry. rewrite Hu.
    split_and!; try done. cbn. by rewrite insert_insert_eq.
Qed.

(** A condition on the tables that another provider's entry does not touch. *)
Lemma triple_GetUsage name (P : RoutingDB → X → Prop) (Q : ProviderUsageState → RoutingDB → X → Prop) :
  (∀ db x t0 t, P db x → let u := applyResets (entry (rg_usage db) name t0) t in
     Q u (db <| rg_usage := <[name := u]> (rg_usage db) |>) x) →
  triple (tables P) (GetUsage rt name) (fun u => tables (Q u)).
Proof using.
  intros H s HP. destruct (GetUsage_run name s) as (t0 & t & Hu & Hdb & Hx & _).
  unfold tables. rewrite Hdb, Hx, Hu. by apply H.
Qed.

Lemma triple_emit (P : RoutingDB → Prop) ev :
  triple (tables (fun db (_ : X) => P db)) (emit rt ev) (fun _ => tables (fun db _ => P db)).
Proof using.
  unfold emit. destruct (rt_auditor rt) as [record|]; [|by apply tables_ret].
  apply triple_dropped. apply triple_provider. by intros db x H.
Qed.
End usage.

(** ** Filtering *)

(** The checks that need no quota. *)
Definition static_reason (input : RoutingInput) (p : Provider) : option string :=
  if negb (he_Enabled (pv_Health p)) then Some "provider disabled"
  else if negb (he_Reachable (pv_Health p)) then Some "provider unreachable"
  else if negb (ri_AllowExternal input) && IsExternal p then Some "external providers not allowed"
  else if bool_decide (ri_PreferredRole input ≠ "") &&
          (negb (HasRole p (ri_PreferredRole input)) && negb (HasRole p RoleFallback)) then
    Some ("does not have role " +:+ GoStrconv.quote (ri_PreferredRole input))
  else None.

(** The verdict on a provider, its quota checked at some instant against the
    usage recorded for it. *)
Definition judged (input : RoutingInput) (usage : gmap string ProviderUsageState) (p : Provider)
    (verdict : option string) : Prop :=
  match static_reason input p with
  | Some reason => verdict = Some reason
  | None => ∃ t0 t, verdict = CheckQuota (pv_Limits p) (applyResets (entry usage (pv_Name p) t0) t)
                                (ri_EstimatedTokens input)
  end.

(** Providers with their verdicts, split. *)
Definition kept (pvs : list (Provider * option string)) : list Provider :=
  omap (fun pv => match snd pv with None => Some (fst pv) | Some _ => None end) pvs.
Definition dismissed (pvs : list (Provider * option string)) : list RejectedProvider :=
  omap (fun pv => mkRejected (pv_Name (fst pv)) "" <$> snd pv) pvs.

Section filtering.
Context {U : UuidPkg} {X : Type} (rt : Router X).

(** Everything but the tracker's map. *)
Definition frame (db : RoutingDB) := (rg_providers db, rg_rows db, rg_recent db).

(** The frame stays and so does the usage of the providers named. *)
Definition agrees (fr : Registry * gmap string ProviderUsageState * list RoutingRecord)
    (usage : gmap string ProviderUsageState) (names : list string) (db : RoutingDB) : Prop :=
  frame db = fr ∧ ∀ n, n ∈ names → rg_usage db !! n = usage !! n.

Lemma entry_agrees fr usage names db name t :
  agrees fr usage names db → name ∈ names → entry (rg_usage db) name t = entry usage name t.
Proof using. intros [_ H] Hn. unfold entry. by rewrite H. Qed.

Lemma triple_filterProvider fr usage names p input :
  pv_Name p ∉ names →
  triple (tables (fun db (_ : X) => agrees fr usage (pv_Name p :: names) db)) (filterProvider rt p input)
    (fun v => tables (fun db _ => judged input usage p v ∧ agrees fr usage names db)).
Proof using.
  intros Hp. unfold filterProvider.
  assert (Hstatic : ∀ reason, static_reason input p = Some reason →
    triple (tables (fun db (_ : X) => agrees fr usage (pv_Name p :: names) db)) (retS (Some reason))
      (fun v => tables (fun db _ => judged input usage p v ∧ agrees fr usage names db))).
  { intros reason Hr. apply tables_ret. intros db x [H1 H2]. split; [unfold judged; by rewrite Hr|].
    split; [done|]. intros n Hn. apply H2. by right. }
  unfold static_reason in Hstatic.
  destruct (negb (he_Enabled (pv_Health p))) eqn:E1; [by apply Hstatic|].
  destruct (negb (he_Reachable (pv_Health p))) eqn:E2; [by apply Hstatic|].
  destruct (negb (ri_AllowExternal input) && IsExternal p) eqn:E3; [by apply Hstatic|].
  destruct (bool_decide (ri_PreferredRole input ≠ "") && _) eqn:E4; [by apply Hstatic|].
  clear Hstatic.
  assert (Hs : static_reason input p = None) by (unfold static_reason; by rewrite E1, E2, E3, E4).
  apply (triple_bind _ _ (fun u => tables (fun db _ =>
    (∃ t0 t, u = applyResets (entry usage (pv_Name p) t0) t) ∧ agrees fr usage names db))).
  { apply triple_GetUsage. intros db x t0 t H. cbv zeta.
    rewrite (entry_agrees _ _ _ _ _ _ H) by by left. split; [by eexists _, _|].
    destruct H as [H1 H2]. split; [done|]. intros n Hn. cbn. rewrite lookup_insert_ne by (intros E; by rewrite E in Hp).
    apply H2. by right. }
  intros u. destruct (CheckQuota _ u _) as [reason|] eqn:Hq.
  - apply (triple_bind _ _ (fun _ => tables (fun db _ =>
      (∃ t0 t, u = applyResets (entry usage (pv_Name p) t0) t) ∧ agrees fr usage names db)));
      [apply triple_emit|]. intros _. apply tables_ret. intros db x [(t0 & t & ->) H].
    split; [|done]. unfold judged. rewrite Hs. by exists t0, t.
  - apply tables_ret. intros db x [(t0 & t & ->) H]. split; [|done]. unfold judged. rewrite Hs. by exists t0, t.
Qed.

Lemma triple_filter_providers fr usage ps input : NoDup (map pv_Name ps) →
  triple (tables (fun db (_ : X) => agrees fr usage (map pv_Name ps) db)) (filter_providers rt input ps)
    (fun out => tables (fun db _ =>
       (∃ vs, Forall2 (judged input usage) ps vs ∧ out = (kept (zip ps vs), dismissed (zip ps vs))) ∧
       frame db = fr)).
Proof using.
  induction ps as [|p ps IH]; intros Hnd; cbn [filter_providers map].
  { apply tables_ret. intros db x [H _]. split; [|done]. exists []. split; [constructor|done]. }
  apply NoDup_cons in Hnd as [Hp Hnd].
  eapply triple_bind; [by apply triple_filterProvider|]. intros v.
  apply (triple_bind _ _ (fun out => tables (fun db _ => judged input usage p v ∧
    (∃ vs, Forall2 (judged input usage) ps vs ∧ out = (kept (zip ps vs), dismissed (zip ps vs))) ∧
    frame db = fr))).
  { intros s [Hv Hs]. split; [exact Hv|]. by apply IH. }
  intros [valid rejected]. apply tables_ret. intros db x (Hv & (vs & Hvs & [= -> ->]) & Hreg).
  split; [|done]. exists (v :: vs). split; [by constructor|]. by destruct v.
Qed.
(** ** Scoring *)

Lemma triple_score_each fr input ps :
  triple (tables (fun db (_ : X) => frame db = fr)) (score_each rt input ps)
    (fun ranked => tables (fun db _ =>
       Forall2 (fun p k => ∃ u, k = scored rt p input u) ps ranked ∧ frame db = fr)).
Proof using.
  induction ps as [|p ps IH]; cbn [score_each].
  { apply tables_ret. intros db x H. by split. }
  apply (triple_bind _ _ (fun _ => tables (fun db _ => frame db = fr))).
  { by apply triple_GetUsage. }
  intros u. eapply triple_bind; [exact IH|]. intros ranked. apply tables_ret.
  intros db x [H1 H2]. split; [|done]. constructor; [by eexists|done].
Qed.

Lemma triple_memory {A} (f : RoutingDB → A) (P : RoutingDB → X → Prop) :
  triple (tables P) (memory f) (fun a => tables (fun db x => a = f db ∧ P db x)).
Proof using. intros s HP. by split. Qed.

(** ** Records *)

Definition latest (l : list RoutingRecord) : list RoutingRecord := drop (length l - MaxRecentDecisions) l.

(** The record of a plan. *)
Definition recorded (input : RoutingInput) (plan : ExecutionPlan) (rec : RoutingRecord) : Prop :=
  (rr_GoalType rec, rr_TaskType rec) = (ri_GoalType input, ri_TaskType input) ∧
  (rr_SelectedProvider rec, rr_SelectedModel rec, rr_Fallbacks rec, rr_Execution rec, rr_Score rec, rr_Reason rec)
  = (pl_Provider plan, pl_Model plan, pl_Fallbacks plan, pl_Execution plan, pl_Score plan, pl_Reason plan).

Definition logs (fr : Registry * gmap string ProviderUsageState * list RoutingRecord)
    (input : RoutingInput) (plan : ExecutionPlan) (db : RoutingDB) : Prop :=
  ∃ rec, recorded input plan rec ∧ frame db = (fr.1, latest (fr.2 ++ [rec])).

Lemma triple_recordDecision fr input plan :
  triple (tables (fun db (_ : X) => frame db = fr)) (recordDecision rt input plan)
    (fun _ => tables (fun db _ => logs fr input plan db)).
Proof using.
  unfold recordDecision. eapply triple_bind; [apply triple_fresh|]. intros id.
  eapply triple_bind; [apply triple_reading|]. intros now s H.
  unfold tables, logs, frame in *. cbn [fst snd ag_db set_field]. subst fr.
  exists (mkRoutingRecord id (ri_GoalType input) (ri_TaskType input) (pl_Provider plan) (pl_Model plan)
            (pl_Fallbacks plan) (pl_Execution plan) (pl_Score plan) (pl_Reason plan) now).
  split; [split; reflexivity|].
  cbn. f_equal. unfold latest. case_bool_decide as Hl; [done|].
  rewrite length_app in *. cbn in *. unfold MaxRecentDecisions in *.
  by replace (_ - 100)%nat with 0%nat by lia.
Qed.

Lemma triple_emitAudit (P : RoutingDB → Prop) ev input plan :
  triple (tables (fun db (_ : X) => P db)) (Routing_emitAudit rt ev input plan)
    (fun _ => tables (fun db _ => P db)).
Proof using. apply triple_emit. Qed.
(** ** Routing *)

(** The input under the global policy. *)
Definition gated (input : RoutingInput) : RoutingInput :=
  match rt_policy rt with
  | Some policy => if gp_AllowExternal policy then input else input <| ri_AllowExternal := false |>
  | None => input
  end.

(** What [Route] decides, given the registry and the usage it starts from. *)
Definition decided (reg : Registry) (usage : gmap string ProviderUsageState) (input : RoutingInput)
    (plan : ExecutionPlan) : Prop :=
  ∃ vs, Forall2 (judged input usage) (Enabled reg) vs ∧
    let pvs := zip (Enabled reg) vs in
    tc_Considered (pl_Trace plan) = map pv_Name (Enabled reg) ∧
    tc_Rejected (pl_Trace plan) = dismissed pvs ∧
    ((kept pvs = [] ∧ pl_Provider plan = "" ∧ pl_Fallbacks plan = [] ∧ tc_Ranked (pl_Trace plan) = []) ∨
     ∃ ranked primary rest, Forall2 (fun p k => ∃ u, k = scored rt p input u) (kept pvs) ranked ∧
       stable_sort (ranked_before reg) ranked = primary :: rest ∧
       plan = ranked_plan rt reg (map pv_Name (Enabled reg)) (dismissed pvs) primary rest).

Lemma record_and_emit fr input plan (k : St (Agent RoutingDB X) ExecutionPlan) :
  triple (tables (fun db _ => logs fr input plan db)) k
    (fun plan' => tables (fun db _ => plan' = plan ∧ logs fr input plan db)) →
  triple (tables (fun db (_ : X) => frame db = fr))
    (let! _ := recordDecision rt input plan in
     let! _ := Routing_emitAudit rt "provider.routing_decided" input plan in k)
    (fun plan' => tables (fun db _ => plan' = plan ∧ logs fr input plan db)).
Proof using.
  intros Hk. eapply triple_bind; [apply triple_recordDecision|]. intros ?.
  eapply triple_bind; [apply (triple_emitAudit (logs fr input plan))|]. intros ?. exact Hk.
Qed.

Lemma triple_no_providers fr input :
  triple (tables (fun db (_ : X) => frame db = fr)) (no_providers rt input)
    (fun plan => tables (fun db _ =>
       plan = empty_plan "no providers available in registry"
                (mkTrace [] [] [] "empty registry or all providers disabled") ∧ logs fr input plan db)).
Proof using.
  eapply triple_weaken; [apply (record_and_emit fr input); by apply tables_ret|done|].
  intros plan s [-> H]. by split.
Qed.

Lemma triple_all_rejected fr input considered rejected :
  triple (tables (fun db (_ : X) => frame db = fr)) (all_rejected rt input considered rejected)
    (fun plan => tables (fun db _ =>
       plan = empty_plan "all providers rejected by filtering"
                (mkTrace considered rejected [] "no valid providers after filtering") ∧ logs fr input plan db)).
Proof using.
  set (plan := empty_plan _ _). eapply triple_weaken; [apply (record_and_emit fr input plan)|done|].
  - eapply triple_bind; [apply (triple_emitAudit (logs fr input plan))|]. intros ?. by apply tables_ret.
  - intros plan' s [-> H]. by split.
Qed.

Lemma triple_select_ranked fr input reg considered rejected primary rest :
  triple (tables (fun db (_ : X) => frame db = fr))
    (select_ranked rt input reg considered rejected (primary :: rest))
    (fun plan => tables (fun db _ =>
       plan = ranked_plan rt reg considered rejected primary rest ∧ logs fr input plan db)).
Proof using.
  unfold select_ranked. cbv zeta. set (plan := ranked_plan _ _ _ _ _ _).
  eapply triple_weaken; [apply (record_and_emit fr input plan)|done|].
  - apply (triple_bind _ _ (fun _ => tables (fun db _ => logs fr input plan db))).
    + destruct (degraded_to_local reg plan); [apply (triple_emitAudit (logs fr input plan))|by apply tables_ret].
    + intros ?. by apply tables_ret.
  - intros plan' s [-> H]. by split.
Qed.

Lemma triple_scoreProviders fr input ps :
  triple (tables (fun db (_ : X) => frame db = fr)) (scoreProviders rt ps input)
    (fun ranking => tables (fun db _ => (∃ ranked, Forall2 (fun p k => ∃ u, k = scored rt p input u) ps ranked ∧
       ranking = stable_sort (ranked_before fr.1.1) ranked) ∧ frame db = fr)).
Proof using.
  unfold scoreProviders. eapply triple_bind; [apply triple_score_each|]. intros ranked s [H1 H2].
  split; [|exact H2]. exists ranked. split; [done|]. cbn. unfold tables, frame in H2. by rewrite <- H2.
Qed.

Lemma triple_Route fr usage input : registry_wf fr.1.1 →
  triple (tables (fun db (_ : X) => frame db = fr ∧ rg_usage db = usage)) (Route rt input)
    (fun plan => tables (fun db _ =>
       decided fr.1.1 usage (gated input) plan ∧ logs fr (gated input) plan db)).
Proof using.
  intros Hwf. unfold Route. fold (gated input). cbv zeta. set (input' := gated input). clearbody input'.
  set (reg := fr.1.1) in *. pose proof (NoDup_Enabled reg Hwf) as Hnd.
  apply (triple_bind _ _ (fun reg' => tables (fun db _ => reg' = reg ∧ frame db = fr ∧ rg_usage db = usage))).
  { intros s [H1 H2]. split; [|by split]. unfold reg. by rewrite <- H1. }
  intros reg'. apply (triple_fact (reg' = reg)). intros ->. case_bool_decide as Hc.
  { eapply triple_weaken; [apply (triple_no_providers fr input')|by intros s [H _]|].
    intros plan s [-> Hlog]. split; [|exact Hlog]. apply length_zero_iff_nil in Hc.
    exists []. rewrite Hc. split; [by apply Forall2_nil|]. cbv zeta. split; [done|]. split; [done|]. by left. }
  apply (triple_bind _ _ (fun out => tables (fun db _ =>
    (∃ vs, Forall2 (judged input' usage) (Enabled reg) vs ∧
           out = (kept (zip (Enabled reg) vs), dismissed (zip (Enabled reg) vs))) ∧ frame db = fr))).
  { eapply triple_weaken; [by apply triple_filter_providers| |intros a s H; exact H].
    intros s [H1 H2]. split; [done|]. intros n _. by rewrite H2. }
  intros [valid rejected].
  apply (triple_fact (∃ vs, Forall2 (judged input' usage) (Enabled reg) vs ∧
    (valid, rejected) = (kept (zip (Enabled reg) vs), dismissed (zip (Enabled reg) vs)))).
  intros (vs & Hvs & [= -> ->]). case_bool_decide as Hk.
  { eapply triple_weaken; [apply (triple_all_rejected fr input')|done|].
    intros plan s [-> Hlog]. split; [|exact Hlog]. apply length_zero_iff_nil in Hk.
    exists vs. split; [done|]. cbv zeta. split; [done|]. split; [done|]. by left. }
  eapply triple_bind; [apply triple_scoreProviders|]. intros ranking.
  apply (triple_fact (∃ ranked, Forall2 (fun p k => ∃ u, k = scored rt p input' u) (kept (zip (Enabled reg) vs)) ranked ∧
    ranking = stable_sort (ranked_before reg) ranked)).
  intros (ranked & Hr & ->). destruct (stable_sort (ranked_before reg) ranked) as [|primary rest] eqn:Hs.
  { exfalso. apply Hk. apply (f_equal length) in Hs. rewrite stable_sort_perm in Hs.
    by rewrite (Forall2_length _ _ _ Hr). }
  eapply triple_weaken; [apply triple_select_ranked|done|].
  intros plan s [-> Hlog]. split; [|exact Hlog]. exists vs. split; [done|]. cbv zeta. split; [|split].
  1,2: unfold ranked_plan; by destruct (buildFallbackPairs _ _ _ _).
  right. by exists ranked, primary, rest.
Qed.
End filtering.

(** ** What a plan is made of *)

Lemma kept_elem input usage ps vs p :
  Forall2 (judged input usage) ps vs → p ∈ kept (zip ps vs) → p ∈ ps ∧ judged input usage p None.
Proof.
  induction 1 as [|q v ps vs Hq Hvs IH]; [by intros ?%elem_of_nil|]. unfold kept. cbn.
  destruct v as [reason|]; cbn.
  - intros [H1 H2]%IH. split; [by right|done].
  - intros [-> |H]%elem_of_cons; [by split; [left|]|]. destruct (IH H). split; [by right|done].
Qed.

Lemma verdicts_split (ps : list Provider) vs :
  length vs = length ps →
  map pv_Name ps ≡ₚ map rj_Provider (dismissed (zip ps vs)) ++ map pv_Name (kept (zip ps vs)).
Proof.
  revert vs. induction ps as [|p ps IH]; intros [|v vs] Hl; try done. cbn in Hl. injection Hl as Hl.
  specialize (IH vs Hl). unfold dismissed, kept in *. cbn. destruct v as [reason|]; cbn.
  - by rewrite IH.
  - rewrite IH. apply Permutation_middle.
Qed.

Section plans.
Context {X : Type} (rt : Router X).

Lemma scored_names input ps ranked :
  Forall2 (fun p k => ∃ u, k = scored rt p input u) ps ranked →
  map rk_Provider ranked = map pv_Name ps ∧ Forall (fun k => rk_Model k = "") ranked.
Proof using.
  induction 1 as [|p k ps ranked (u & ->) _ [IH1 IH2]]; [done|]. cbn. rewrite IH1.
  split; [done|by constructor].
Qed.

Lemma take_pairs_take room seen ranked :
  Forall (fun k => rk_Model k = "") ranked → NoDup (map rk_Provider ranked) →
  (∀ n, n ∈ map rk_Provider ranked → n ∉ seen) →
  take_pairs room seen ranked = take room (map (fun k => mkPair (rk_Provider k) "") ranked).
Proof using.
  revert room seen. induction ranked as [|k ranked IH]; intros room seen Hm Hnd Hseen; [by destruct room|].
  apply Forall_cons in Hm as [Hk Hm]. cbn in Hnd. apply NoDup_cons in Hnd as [Hnin Hnd].
  destruct room as [|room]; [done|]. cbn [take_pairs map take]. unfold target_key. rewrite Hk.
  rewrite (bool_decide_eq_true_2 ("" = "")) by done.
  rewrite bool_decide_eq_false_2 by (apply Hseen; by left).
  f_equal. apply IH; [done|done|]. intros n Hn [-> |Hs]%elem_of_cons; [done|].
  by apply (Hseen n); [right|].
Qed.

Lemma chain_perm reg rest key : (buildFallbackPairs rt reg rest key).2 ≡ₚ rest.
Proof using.
  unfold buildFallbackPairs. destruct (rt_policy rt) as [policy|]; [|done]. cbn [snd].
  destruct (gp_DegradePolicy policy); [done|]. apply stable_sort_perm.
Qed.

Lemma chain_pairs reg rest key :
  Forall (fun k => rk_Model k = "") rest → NoDup (key :: map rk_Provider rest) →
  (buildFallbackPairs rt reg rest key).1
  = take (Z.to_nat (max_chain rt))
      (map (fun k => mkPair (rk_Provider k) "") (buildFallbackPairs rt reg rest key).2).
Proof using.
  intros Hm [Hkey Hnd]%NoDup_cons. pose proof (chain_perm reg rest key) as Hp.
  assert (E : (buildFallbackPairs rt reg rest key).1
    = take_pairs (Z.to_nat (max_chain rt)) [key] (buildFallbackPairs rt reg rest key).2) by done.
  rewrite E. clear E. set (rest' := (buildFallbackPairs rt reg rest key).2) in *. clearbody rest'.
  apply take_pairs_take.
  - by rewrite Hp.
  - change (NoDup (rk_Provider <$> rest')). by rewrite Hp.
  - intros n Hn ->%list_elem_of_singleton. apply Hkey.
    change (key ∈ rk_Provider <$> rest). rewrite <- Hp. exact Hn.
Qed.
Definition provider_pair (k : RankedProvider) : ProviderModelPair := mkPair (rk_Provider k) "".

(** The targets of a plan are the first of the ranking in its trace, which
    rearranges the candidates. *)
Lemma plan_targets reg considered rejected ranked primary rest :
  Forall (fun k => rk_Model k = "") ranked → NoDup (map rk_Provider ranked) →
  primary :: rest ≡ₚ ranked →
  let plan := ranked_plan rt reg considered rejected primary rest in
  tc_Rejected (pl_Trace plan) = rejected ∧
  tc_Ranked (pl_Trace plan) ≡ₚ ranked ∧
  AllTargets plan = take (S (Z.to_nat (max_chain rt))) (map provider_pair (tc_Ranked (pl_Trace plan))) ∧
  tc_Ranked (pl_Trace plan) ≠ [].
Proof using.
  intros Hm Hnd Hperm. cbv zeta. rewrite <- Hperm in Hm. apply Forall_cons in Hm as [Hm1 Hm2].
  assert (Hnd' : NoDup (rk_Provider primary :: map rk_Provider rest)).
  { change (NoDup (rk_Provider <$> primary :: rest)). by rewrite Hperm. }
  unfold ranked_plan. assert (Hkey : target_key (rk_Provider primary) (rk_Model primary) = rk_Provider primary).
  { unfold target_key. by rewrite Hm1. }
  rewrite Hkey, Hm1. pose proof (chain_perm reg rest (rk_Provider primary)) as Hcp.
  pose proof (chain_pairs reg rest (rk_Provider primary) Hm2 Hnd') as Hchain.
  destruct (buildFallbackPairs rt reg rest (rk_Provider primary)) as [fallbacks rest']. cbn [fst snd] in *.
  split; [done|]. split; [cbn; by rewrite Hcp|]. split; [|done].
  unfold AllTargets, PrimaryTarget. cbn. f_equal. exact Hchain.
Qed.
End plans.

Lemma max_chain_pos {X} (rt : Router X) : 0 < max_chain rt.
Proof.
  unfold max_chain, MaxFallbackChainLength. destruct (rt_policy rt); [|lia]. case_bool_decide; lia.
Qed.

Lemma static_none input p :
  static_reason input p = None →
  he_Enabled (pv_Health p) = true ∧ he_Reachable (pv_Health p) = true ∧
  (IsExternal p = true → ri_AllowExternal input = true) ∧
  (ri_PreferredRole input = "" ∨ HasRole p (ri_PreferredRole input) = true ∨ HasRole p RoleFallback = true).
Proof.
  unfold static_reason. destruct (he_Enabled _); [|done]. destruct (he_Reachable _); [|done]. cbn.
  destruct (ri_AllowExternal input), (IsExternal p); try done; cbn; case_bool_decide; cbn;
    destruct (HasRole p (ri_PreferredRole input)), (HasRole p RoleFallback); cbn; try done; intros _;
    split_and!; try done; try tauto; left; by apply dec_stable.
Qed.

Section route.
Context {U : UuidPkg} {X : Type} (rt : Router X).

Lemma Route_decided input s : registry_wf (rg_providers (ag_db s)) →
  decided rt (rg_providers (ag_db s)) (rg_usage (ag_db s)) (gated rt input) (fst (Route rt input s)) ∧
  logs (frame (ag_db s)) (gated rt input) (fst (Route rt input s)) (ag_db (snd (Route rt input s))).
Proof using.
  intros Hwf. pose proof (triple_Route rt (frame (ag_db s)) (rg_usage (ag_db s)) input Hwf s) as H.
  by apply H.
Qed.

(** Whether external providers may be used: the policy has the last word. *)
Definition external_allowed (input : RoutingInput) : bool :=
  ri_AllowExternal input && match rt_policy rt with Some p => gp_AllowExternal p | None => true end.

Lemma gated_fields input :
  ri_AllowExternal (gated rt input) = external_allowed input ∧
  ri_PreferredRole (gated rt input) = ri_PreferredRole input ∧
  ri_EstimatedTokens (gated rt input) = ri_EstimatedTokens input.
Proof using.
  unfold gated, external_allowed. destruct (rt_policy rt) as [p|]; [|by rewrite andb_true_r].
  destruct (gp_AllowExternal p); [by rewrite andb_true_r|by rewrite andb_false_r].
Qed.

Lemma judged_admissible input usage p :
  judged (gated rt input) usage p None →
  ∃ t0 t, he_Enabled (pv_Health p) = true ∧ he_Reachable (pv_Health p) = true ∧
    (IsExternal p = true → external_allowed input = true) ∧
    (ri_PreferredRole input = "" ∨ HasRole p (ri_PreferredRole input) = true ∨ HasRole p RoleFallback = true) ∧
    CheckQuota (pv_Limits p) (applyResets (entry usage (pv_Name p) t0) t) (ri_EstimatedTokens input) = None.
Proof using.
  intros Hj. unfold judged in Hj. destruct (static_reason (gated rt input) p) eqn:Hst; [done|].
  destruct Hj as (t0 & t & Hq). destruct (gated_fields input) as (G1 & G2 & G3).
  rewrite G3 in Hq. destruct (static_none _ _ Hst) as (S1 & S2 & S3 & S4). rewrite G1 in S3. rewrite G2 in S4.
  by exists t0, t.
Qed.

Lemma provider_pairs_NoDup l : NoDup (map rk_Provider l) → NoDup (map provider_pair l).
Proof using.
  intros H. apply NoDup_fmap_1 with (f := pp_Provider).
  change (NoDup (map pp_Provider (map provider_pair l))). by rewrite map_map.
Qed.

(** What a plan may name.  For a registry keyed by name, and whatever the
    auditor does: every target of a plan that is not empty is a registered
    provider, enabled and reachable, allowed if external by both the input and
    the global policy, fit for the preferred role or a fallback, and within its
    quotas when they were checked.  No target is named twice, the fallbacks
    respect the chain's bound, and the targets are the first of the ranking the
    trace shows.  Each enabled provider is either rejected or ranked, and a
    plan is empty when none is ranked.  The decision is appended to the recent
    ones, of which the latest 100 are kept; the registry stays. *)
Theorem route_selects_admissible (input : RoutingInput) (s : Agent RoutingDB X) :
  registry_wf (rg_providers (ag_db s)) →
  let '(plan, s') := Route rt input s in
  let ranked := map rk_Provider (tc_Ranked (pl_Trace plan)) in
  (∀ tgt, IsEmpty plan = false → tgt ∈ AllTargets plan →
     ∃ p t0 t, rg_providers (ag_db s) !! pp_Provider tgt = Some p ∧
       he_Enabled (pv_Health p) = true ∧ he_Reachable (pv_Health p) = true ∧
       (IsExternal p = true → external_allowed input = true) ∧
       (ri_PreferredRole input = "" ∨ HasRole p (ri_PreferredRole input) = true ∨
        HasRole p RoleFallback = true) ∧
       CheckQuota (pv_Limits p) (applyResets (entry (rg_usage (ag_db s)) (pv_Name p) t0) t)
         (ri_EstimatedTokens input) = None) ∧
  NoDup (AllTargets plan) ∧ Z.of_nat (length (pl_Fallbacks plan)) ≤ max_chain rt ∧
  (ranked ≠ [] → map pp_Provider (AllTargets plan) = take (S (Z.to_nat (max_chain rt))) ranked) ∧
  (ranked = [] → IsEmpty plan = true ∧ pl_Fallbacks plan = []) ∧
  map pv_Name (Enabled (rg_providers (ag_db s))) ≡ₚ
    map rj_Provider (tc_Rejected (pl_Trace plan)) ++ ranked ∧
  rg_providers (ag_db s') = rg_providers (ag_db s) ∧
  ∃ rec, recorded input plan rec ∧ rg_recent (ag_db s') = latest (rg_recent (ag_db s) ++ [rec]).
Proof using.
  intros Hwf. destruct (Route_decided input s Hwf) as [Hd (rec & Hrec & Hfr)].
  destruct (Route rt input s) as [plan s']. cbn [fst snd] in *.
  assert (Hlog : rg_providers (ag_db s') = rg_providers (ag_db s) ∧
    ∃ rec, recorded input plan rec ∧ rg_recent (ag_db s') = latest (rg_recent (ag_db s) ++ [rec])).
  { unfold frame in Hfr. injection Hfr as H1 _ H2. split; [done|]. exists rec. split; [|done].
    destruct Hrec as [E1 E2]. split; [|exact E2]. rewrite E1. unfold gated.
    destruct (rt_policy rt) as [policy|]; [|done]. by destruct (gp_AllowExternal policy). }
  clear Hrec Hfr. destruct Hd as (vs & Hvs & Hcons & Hrej & Hd). cbv zeta in *.
  set (reg := rg_providers (ag_db s)) in *. set (usage := rg_usage (ag_db s)) in *.
  pose proof (verdicts_split (Enabled reg) vs (eq_sym (Forall2_length _ _ _ Hvs))) as Hsplit.
  destruct Hd as [(Hk & Hp & Hf & Hr)|(ranked & primary & rest & Hranked & Hsort & ->)].
  { rewrite Hr, Hrej. unfold AllTargets, IsEmpty, PrimaryTarget. rewrite Hp, Hf. cbn [map].
    split; [done|]. split; [apply NoDup_singleton|].
    split; [cbn; pose proof (max_chain_pos rt); lia|]. do 2 (split; [done|]).
    split; [by rewrite Hsplit, Hk|]. exact Hlog. }
  destruct (scored_names rt _ _ _ Hranked) as [Hnames Hmodels].
  assert (Hnd : NoDup (map rk_Provider ranked)).
  { rewrite Hnames. pose proof (NoDup_Enabled reg Hwf) as Hn. rewrite Hsplit in Hn.
    by apply NoDup_app in Hn as (_ & _ & Hn). }
  destruct (plan_targets rt reg (map pv_Name (Enabled reg)) (dismissed (zip (Enabled reg) vs)) ranked primary
    rest Hmodels Hnd) as (_ & Hcp & Hall & Hne); [rewrite <- Hsort; apply stable_sort_perm|].
  set (plan := ranked_plan _ _ _ _ _ _) in *. clearbody plan. rewrite Hall.
  set (shown := tc_Ranked (pl_Trace plan)) in *.
  assert (Hnd' : NoDup (map rk_Provider shown)).
  { change (NoDup (rk_Provider <$> shown)). by rewrite Hcp. }
  split; [|split; [|split; [|split; [|split; [|split; [|exact Hlog]]]]]].
  - intros tgt _ Htgt. apply elem_of_take in Htgt as (i & Htgt & _).
    apply list_elem_of_lookup_2, list_elem_of_fmap in Htgt as (k & -> & Hk). cbn [pp_Provider provider_pair].
    assert (Hin : rk_Provider k ∈ map pv_Name (kept (zip (Enabled reg) vs))).
    { rewrite <- Hnames. apply (list_elem_of_fmap_2 rk_Provider). by rewrite <- Hcp. }
    apply list_elem_of_fmap in Hin as (p & -> & Hp).
    destruct (kept_elem _ _ _ _ _ Hvs Hp) as [Hen Hj]. apply elem_Enabled in Hen as [Hget _]; [|done].
    by apply judged_admissible in Hj as (t0 & t & Hj); exists p, t0, t.
  - eapply sublist_NoDup; [|apply sublist_take]. by apply provider_pairs_NoDup.
  - apply (f_equal length) in Hall. unfold AllTargets in Hall. cbn [length] in Hall.
    rewrite length_take in Hall. pose proof (max_chain_pos rt). lia.
  - intros _. change (map pp_Provider) with (fmap (M := list) pp_Provider). rewrite fmap_take. f_equal.
    change (map pp_Provider (map provider_pair shown) = map rk_Provider shown). by rewrite map_map.
  - intros E. exfalso. apply Hne. by apply map_eq_nil in E.
  - rewrite Hsplit, Hrej. apply Permutation_app_head. rewrite <- Hnames.
    change (rk_Provider <$> ranked ≡ₚ rk_Provider <$> shown). by rewrite Hcp.
Qed.
End route.

(** ** The ranking *)

Lemma feqb_sym x y : feqb x y = feqb y x.
Proof. apply eq_true_iff_eq. rewrite !feqb_iff. intuition lia. Qed.

Lemma beyond_asym x y :
  fltb TieBreakEpsilon (fsub y x) = fltb (fsub x y) (lit (-1) 1000).
Proof. rewrite fsub_beyond by (vm_compute; reflexivity). by f_equal. Qed.

Lemma ranked_before_asym reg x y : ranked_before reg x y = true → ranked_before reg y x = false.
Proof.
  unfold ranked_before. cbv zeta. rewrite <- !beyond_asym.
  destruct (fltb TieBreakEpsilon (fsub (rk_Score x) (rk_Score y))) eqn:E1.
  { intros _. destruct (fltb TieBreakEpsilon (fsub (rk_Score y) (rk_Score x))) eqn:E2; [|done].
    exfalso. rewrite beyond_asym in E2. set (d := fsub _ _) in *.
    assert (H1 : fltb d TieBreakEpsilon = true).
    { eapply fltb_trans; [exact E2|]. vm_compute. reflexivity. }
    apply fltb_asym in H1. congruence. }
  destruct (fltb TieBreakEpsilon (fsub (rk_Score y) (rk_Score x))) eqn:E2; [done|].
  set (px := default _ (reg !! rk_Provider x)). set (py := default _ (reg !! rk_Provider y)).
  rewrite (feqb_sym (co_RelativeCost (pv_Cost py))).
  destruct (IsLocal px), (IsLocal py); cbn; try done.
  all: destruct (feqb _ _); cbn; [|apply fltb_asym].
  all: repeat case_bool_decide; try congruence; apply ltb_asym.
Qed.

Lemma ranked_before_beyond reg x y :
  ranked_before reg y x = false → fltb TieBreakEpsilon (fsub (rk_Score y) (rk_Score x)) = false.
Proof. unfold ranked_before. cbv zeta. by destruct (fltb TieBreakEpsilon (fsub (rk_Score y) (rk_Score x))). Qed.

Section ranking.
Context {U : UuidPkg} {X : Type} (rt : Router X).

Lemma tier_before_asym reg x y : tier_before rt reg x y = true → tier_before rt reg y x = false.
Proof using.
  unfold tier_before. destruct (reg !! rk_Provider x), (reg !! rk_Provider y); try done.
  repeat case_bool_decide; try done. lia.
Qed.

Lemma tier_before_negtrans reg x y z :
  tier_before rt reg x y = false → tier_before rt reg y z = false → tier_before rt reg x z = false.
Proof using.
  unfold tier_before. destruct (reg !! rk_Provider x), (reg !! rk_Provider y), (reg !! rk_Provider z);
    try done. repeat case_bool_decide; try done. lia.
Qed.

Definition tiers : list string :=
  match rt_policy rt with Some policy => gp_DegradePolicy policy | None => [] end.

Lemma chain_order reg rest key :
  (buildFallbackPairs rt reg rest key).2
  = if bool_decide (tiers = []) then rest else stable_sort (tier_before rt reg) rest.
Proof using.
  unfold buildFallbackPairs, tiers. destruct (rt_policy rt) as [policy|]; [|done].
  by destruct (gp_DegradePolicy policy).
Qed.

Lemma scored_unit input p u :
  is_nan (rk_Score (scored rt p input u)) = true ∨ in_unit (rk_Score (scored rt p input u)).
Proof using.
  assert (H : ∀ v, is_nan (fclamp01 v) = true ∨ in_unit (fclamp01 v)).
  { intros v. destruct (is_nan v) eqn:E; [left|right; by apply fclamp01_unit].
    by destruct v. }
  unfold scored, ScoreProvider. cbv zeta. destruct (fltb f0 _); apply H.
Qed.

(** How providers are ranked.  With at most 20 valid candidates, the primary
    and what follows it stand in an order where no provider is preferred to
    its left neighbour: its score does not exceed the neighbour's by more than
    0.001, and within 0.001 local providers, lower relative costs and smaller
    names come first.  With a degrade policy the fallbacks are then rearranged
    by tier, otherwise they stay.  Scores lie between 0 and 1 or are not
    numbers. *)
Theorem route_ranking_ordered (input : RoutingInput) (s : Agent RoutingDB X) :
  registry_wf (rg_providers (ag_db s)) →
  let plan := fst (Route rt input s) in
  let reg := rg_providers (ag_db s) in
  let shown := tc_Ranked (pl_Trace plan) in
  (∀ k, k ∈ shown → is_nan (rk_Score k) = true ∨ in_unit (rk_Score k)) ∧
  (0 < length shown ≤ 20 →
   ∃ primary rest rest', shown = primary :: rest' ∧ rest' ≡ₚ rest ∧
     pl_Provider plan = rk_Provider primary ∧ pl_Score plan = rk_Score primary ∧
     (∀ i x y, (primary :: rest) !! i = Some x → (primary :: rest) !! S i = Some y →
        ranked_before reg y x = false ∧
        fltb TieBreakEpsilon (fsub (rk_Score y) (rk_Score x)) = false) ∧
     (tiers = [] → rest' = rest) ∧
     (tiers ≠ [] → StronglySorted (fun x y => ∀ px py, reg !! rk_Provider x = Some px →
        reg !! rk_Provider y = Some py → degradeTierIndex rt px ≤ degradeTierIndex rt py) rest'))%nat.
Proof using.
  intros Hwf. cbv zeta. destruct (Route_decided rt input s Hwf) as [Hd _].
  set (plan := fst (Route rt input s)) in *. clearbody plan. set (reg := rg_providers (ag_db s)) in *.
  destruct Hd as (vs & Hvs & _ & _ & Hd). cbv zeta in Hd.
  destruct Hd as [(_ & _ & _ & Hr)|(ranked & primary & rest & Hranked & Hsort & ->)].
  { rewrite Hr. split; [by intros k ?%elem_of_nil|cbn; lia]. }
  assert (Hperm : primary :: rest ≡ₚ ranked) by (rewrite <- Hsort; apply stable_sort_perm).
  set (key := target_key (rk_Provider primary) (rk_Model primary)).
  pose proof (chain_perm rt reg rest key) as Hcp. pose proof (chain_order reg rest key) as Hco.
  unfold ranked_plan. fold key.
  destruct (buildFallbackPairs rt reg rest key) as [fallbacks rest']. cbn [fst snd] in *.
  cbn [pl_Trace tc_Ranked pl_Provider pl_Score]. split.
  { intros k Hk. rewrite Hcp, Hperm in Hk. apply list_elem_of_lookup in Hk as [i Hk].
    destruct (Forall2_lookup_r _ _ _ _ _ Hranked Hk) as (p & _ & u & ->). apply scored_unit. }
  intros [_ Hlen]. assert (Hl : (length ranked ≤ blockSize)%nat).
  { rewrite <- Hperm. cbn in Hlen |- *. apply Permutation_length in Hcp. unfold blockSize. lia. }
  exists primary, rest, rest'. split; [done|]. split; [done|]. do 2 (split; [done|]). split; [|split].
  - intros i x y Hx Hy. rewrite <- Hsort in Hx, Hy.
    pose proof (stable_sort_neighbours _ (ranked_before_asym reg) ranked Hl i x y Hx Hy) as H.
    split; [exact H|by eapply ranked_before_beyond].
  - intros E. by rewrite Hco, bool_decide_true.
  - intros E. rewrite bool_decide_false in Hco by done. rewrite Hco.
    assert (Hl' : (length rest ≤ blockSize)%nat) by (rewrite <- Hperm in Hl; cbn in Hl; lia).
    pose proof (stable_sort_ordered _ (tier_before_asym reg) (tier_before_negtrans reg) rest Hl') as Ho.
    clear -Ho. unfold ordered in Ho. induction Ho as [|x l _ IH Hx]; constructor; [exact IH|].
    eapply Forall_impl; [exact Hx|]. intros y Hxy px py Hpx Hpy.
    unfold tier_before in Hxy. rewrite Hpx, Hpy in Hxy. case_bool_decide; [done|lia].
Qed.
End ranking.
