(* ===== verification/ProviderQuota.v ===== *)
(** * The quota tracker against its history

    The tracker keeps two pairs of counters per provider and forgets them when
    a minute or a UTC day ends.  Here its calls are accompanied by the list of
    everything recorded so far, which the counters are shown to summarise.

    The last part has concrete registries: witnesses of the theorems on routing
    and quotas. *)

From stdpp Require Import base gmap strings list tactics numbers fin_maps.
From Stdlib Require Import ZArith Lia.
From S2P Require Import Prelude GoFloat Models GoTime AgentWorld ExternalActions Fixtures ProviderRouting ProviderRoutingProps.

Open Scope Z_scope.

(** ** Windows of time *)

Lemma Truncate_window t d : 0 < d → Truncate t d = zero_time + d * ((t - zero_time) / d).
Proof. intros Hd. unfold Truncate. rewrite Z.mod_eq by lia. lia. Qed.

Lemma Truncate_mono s t d : 0 < d → s ≤ t → Truncate s d ≤ Truncate t d.
Proof.
  intros Hd Hst. rewrite !Truncate_window by done.
  pose proof (Z.div_le_mono (s - zero_time) (t - zero_time) d). nia.
Qed.

(** A window that has been left is not entered again. *)
Lemma window_left s t u d : 0 < d → s ≤ t → t ≤ u → Truncate t d ≠ Truncate s d →
  Truncate u d ≠ Truncate s d.
Proof.
  intros Hd Hst Htu Hne. pose proof (Truncate_mono s t d Hd Hst). pose proof (Truncate_mono t u d Hd Htu). lia.
Qed.

Lemma Minute_pos : 0 < Minute. Proof. done. Qed.
Lemma Day_pos : 0 < Day. Proof. done. Qed.

(** ** History *)

Record Use := mkUse { use_provider : string; use_time : time; use_tokens : Z }.

(** What the uses of a provider weigh in the window of [d] around [t]. *)
Definition counts (d t : time) (p : string) (u : Use) : bool :=
  bool_decide (use_provider u = p) && bool_decide (Truncate (use_time u) d = Truncate t d).

Definition tally (weight : Z → Z) (d t : time) (p : string) (h : list Use) : Z :=
  foldr (fun u sum => (if counts d t p u then weight (use_tokens u) else 0) + sum) 0 h.

Definition one (k : Z) : Z := 1.
Definition positive_part (k : Z) : Z := Z.max k 0.

Lemma tally_cons w d t p u h :
  tally w d t p (u :: h) = (if counts d t p u then w (use_tokens u) else 0) + tally w d t p h.
Proof. done. Qed.

Lemma tally_app w d t p h1 h2 : tally w d t p (h1 ++ h2) = tally w d t p h1 + tally w d t p h2.
Proof. induction h1 as [|u h1 IH]; [done|]. cbn [app]. rewrite !tally_cons, IH. lia. Qed.

Lemma tally_nonneg w d t p h : (∀ k, 0 ≤ w k) → 0 ≤ tally w d t p h.
Proof.
  intros Hw. induction h as [|u h IH]; [done|]. rewrite tally_cons.
  pose proof (Hw (use_tokens u)). destruct (counts d t p u); lia.
Qed.

Lemma tally_window w d t t' p h : Truncate t d = Truncate t' d → tally w d t p h = tally w d t' p h.
Proof. intros E. induction h as [|u h IH]; [done|]. rewrite !tally_cons, IH. unfold counts. by rewrite E. Qed.

Lemma tally_none w d t p h : (∀ u, u ∈ h → counts d t p u = false) → tally w d t p h = 0.
Proof.
  intros Hh. induction h as [|u h IH]; [done|]. rewrite tally_cons, IH by (intros v Hv; apply Hh; by right).
  by rewrite (Hh u) by (by left).
Qed.

(** Nothing counts in a window after all uses. *)
Lemma tally_after w d t t' p h : 0 < d → (∀ u, u ∈ h → use_time u ≤ t) → t ≤ t' → Truncate t d ≠ Truncate t' d →
  tally w d t' p h = 0.
Proof.
  intros Hd Hh Htt' Hne. apply tally_none. intros u Hu. pose proof (Truncate_mono _ _ d Hd (Hh u Hu)).
  pose proof (Truncate_mono _ _ d Hd Htt'). unfold counts.
  rewrite (bool_decide_eq_false_2 (Truncate (use_time u) d = _)) by lia. by rewrite andb_false_r.
Qed.

Lemma tally_absent w d t p h : (∀ u, u ∈ h → use_provider u ≠ p) → tally w d t p h = 0.
Proof.
  intros Hh. apply tally_none. intros u Hu. unfold counts.
  by rewrite (bool_decide_eq_false_2 (use_provider u = p)) by (by apply Hh).
Qed.

(** ** Resets *)

Definition same_window (d s t : time) : bool := bool_decide (Truncate t d = Truncate s d).

Lemma resets_fields s now : us_LastUpdated s ≠ zero_time →
  let minute := same_window Minute (us_LastUpdated s) now in
  let day := same_window Day (us_LastUpdated s) now in
  applyResets s now =
  mkUsage (us_ProviderName s)
    (if minute then us_RequestsThisMinute s else 0) (if minute then us_TokensThisMinute s else 0)
    (if day then us_RequestsToday s else 0) (if day then us_TokensToday s else 0) (us_LastUpdated s).
Proof.
  intros Hz. unfold applyResets, same_window. rewrite (bool_decide_eq_false_2 (us_LastUpdated s = zero_time)) by done.
  cbv zeta. destruct s as [n a b c e u]; cbn [us_LastUpdated] in *.
  destruct (decide (Truncate now Minute = Truncate u Minute)) as [E1|E1];
    [rewrite (bool_decide_eq_false_2 (Truncate now Minute ≠ _)), (bool_decide_eq_true_2 (Truncate now Minute = _)) by tauto
    |rewrite (bool_decide_eq_true_2 (Truncate now Minute ≠ _)), (bool_decide_eq_false_2 (Truncate now Minute = _)) by tauto];
  destruct (decide (Truncate now Day = Truncate u Day)) as [E2|E2];
    cbn -[Truncate Day Minute];
    rewrite ?(bool_decide_eq_false_2 (Truncate now Day ≠ _)), ?(bool_decide_eq_true_2 (Truncate now Day = _)),
      ?(bool_decide_eq_true_2 (Truncate now Day ≠ _)), ?(bool_decide_eq_false_2 (Truncate now Day = _)) by tauto;
    reflexivity.
Qed.

(** A window seen again at the later of two instants was seen at the earlier. *)
Lemma same_window_between d s t u : 0 < d → s ≤ t → t ≤ u →
  same_window d s t && same_window d s u = same_window d s u.
Proof.
  intros Hd Hst Htu. unfold same_window. pose proof (Truncate_mono s t d Hd Hst). pose proof (Truncate_mono t u d Hd Htu).
  destruct (bool_decide (Truncate u d = Truncate s d)) eqn:E; [|by rewrite andb_false_r].
  apply bool_decide_eq_true in E. by rewrite bool_decide_eq_true_2 by lia.
Qed.

(** A reset at one reading is absorbed by the reset at a later one. *)
Lemma resets_later s t now :
  us_LastUpdated s ≠ zero_time → us_LastUpdated s ≤ t → t ≤ now →
  applyResets (applyResets s t) now = applyResets s now.
Proof.
  intros Hz Ht Hnow. pose proof (resets_fields s t Hz) as E. cbv zeta in E. rewrite E.
  rewrite (resets_fields s now Hz), resets_fields by done. cbn.
  pose proof (same_window_between Minute _ _ _ Minute_pos Ht Hnow).
  pose proof (same_window_between Day _ _ _ Day_pos Ht Hnow).
  destruct (same_window Minute _ t), (same_window Day _ t), (same_window Minute _ now), (same_window Day _ now);
    by cbn in *.
Qed.

(** ** The tracker's runs *)

Section tracker.
Context {U : UuidPkg} {X : Type} (rt : Router X).
Implicit Types s : Agent RoutingDB X.
Implicit Types h : list Use.

(** The use that a call of [RecordUsage] ending in [s] recorded. *)
Definition last_use (p : string) (k : Z) s : Use :=
  mkUse p (us_LastUpdated (entry (rg_usage (ag_db s)) p zero_time)) k.

(** The runs of a process from its start, the tracker's map empty, with what was
    recorded in it; code that leaves the tracker alone may run in between. *)
Inductive tracked : Agent RoutingDB X → list Use → Prop :=
| tracked_start s : rg_usage (ag_db s) = ∅ → tracked s []
| tracked_read s h p : tracked s h → tracked (snd (GetUsage rt p s)) h
| tracked_read_all s h : tracked s h → tracked (snd (GetAllUsage rt s)) h
| tracked_record s h p k :
    tracked s h → let s' := snd (RecordUsage rt p k s) in tracked s' (h ++ [last_use p k s'])
| tracked_other s s' h :
    tracked s h → rg_usage (ag_db s') = rg_usage (ag_db s) → (ag_reads s ≤ ag_reads s')%nat → tracked s' h.

(** The runs of a client that records only what it has just checked, from an
    empty tracker. *)
Inductive disciplined (limits : string → ProviderLimits) : Agent RoutingDB X → list Use → Prop :=
| disciplined_start s : rg_usage (ag_db s) = ∅ → disciplined limits s []
| disciplined_read s h p : disciplined limits s h → disciplined limits (snd (GetUsage rt p s)) h
| disciplined_read_all s h : disciplined limits s h → disciplined limits (snd (GetAllUsage rt s)) h
| disciplined_use s h p k :
    disciplined limits s h →
    CheckQuota (limits p) (fst (GetUsage rt p s)) k = None → k < 2 ^ 62 →
    let s' := snd (RecordUsage rt p k (snd (GetUsage rt p s))) in
    disciplined limits s' (h ++ [last_use p k s'])
| disciplined_other s s' h :
    disciplined limits s h → rg_usage (ag_db s') = rg_usage (ag_db s) → (ag_reads s ≤ ag_reads s')%nat →
    disciplined limits s' h.

(** ** What the counters show *)

Definition shows (e : ProviderUsageState) (p : string) h (t : time) : Prop :=
  us_RequestsThisMinute e = wrap64 (tally one Minute t p h) ∧
  us_TokensThisMinute e = wrap64 (tally positive_part Minute t p h) ∧
  us_RequestsToday e = wrap64 (tally one Day t p h) ∧
  us_TokensToday e = wrap64 (tally positive_part Day t p h).

Hypothesis clock_mono : ∀ m n, (m ≤ n)%nat → rt_clock rt m ≤ rt_clock rt n.
Hypothesis clock_set : ∀ n, zero_time < rt_clock rt n.

(** [t] has been read. *)
Definition past s (t : time) : Prop := ∃ n, (n < ag_reads s)%nat ∧ t = rt_clock rt n.

(** An entry as of a state. *)
Definition summary s h (p : string) (e : ProviderUsageState) : Prop :=
  past s (us_LastUpdated e) ∧
  ∀ n, (ag_reads s ≤ n)%nat → shows (applyResets e (rt_clock rt n)) p h (rt_clock rt n).

Definition consistent s h : Prop :=
  (∀ u, u ∈ h → past s (use_time u)) ∧
  ∀ p, match rg_usage (ag_db s) !! p with
       | Some e => summary s h p e
       | None => ∀ u, u ∈ h → use_provider u ≠ p
       end.

Lemma past_later s s' t : (ag_reads s ≤ ag_reads s')%nat → past s t → past s' t.
Proof using. intros Hs (n & Hn & ->). exists n. split; [lia|done]. Qed.

Lemma past_before s t n : past s t → (ag_reads s ≤ n)%nat → t ≤ rt_clock rt n.
Proof using clock_mono. intros (m & Hm & ->) Hn. apply clock_mono. lia. Qed.

Lemma past_set s t : past s t → t ≠ zero_time.
Proof using clock_set. intros (m & _ & ->). specialize (clock_set m). lia. Qed.

Lemma summary_later s s' h p e : (ag_reads s ≤ ag_reads s')%nat → summary s h p e → summary s' h p e.
Proof using. intros Hs [H1 H2]. split; [by eapply past_later|]. intros n Hn. apply H2. lia. Qed.

Lemma consistent_other s s' h :
  rg_usage (ag_db s') = rg_usage (ag_db s) → (ag_reads s ≤ ag_reads s')%nat → consistent s h → consistent s' h.
Proof using.
  intros Hu Hs [H1 H2]. split; [intros u Hin; eapply past_later; [done|by apply H1]|].
  intros p. specialize (H2 p). rewrite Hu. destruct (rg_usage (ag_db s) !! p); [by eapply summary_later|done].
Qed.

(** An entry is replaced. *)
Lemma consistent_insert s s' h p e :
  rg_usage (ag_db s') = <[p := e]> (rg_usage (ag_db s)) → (ag_reads s ≤ ag_reads s')%nat →
  consistent s h → summary s' h p e → consistent s' h.
Proof using.
  intros Hu Hs [H1 H2] He. split; [intros u Hin; eapply past_later; [done|by apply H1]|].
  intros q. specialize (H2 q). rewrite Hu, lookup_insert. case_decide as E; [by subst q|].
  destruct (rg_usage (ag_db s) !! q); [by eapply summary_later|done].
Qed.

(** A summary after a reset at a reading already made. *)
Lemma summary_reset s s' h p e n :
  (ag_reads s ≤ n)%nat → (n < ag_reads s')%nat → summary s h p e → summary s' h p (applyResets e (rt_clock rt n)).
Proof using clock_mono clock_set.
  intros Hn Hs' [H1 H2]. pose proof (past_set _ _ H1) as Hz. split.
  - pose proof (resets_fields e (rt_clock rt n) Hz) as E. cbv zeta in E. rewrite E.
    eapply past_later; [|exact H1]. lia.
  - intros m Hm. rewrite resets_later; [apply H2; lia|done|by eapply past_before|apply clock_mono; lia].
Qed.

(** A new entry. *)
Lemma summary_new s' h p n :
  (n < ag_reads s')%nat → (∀ u, u ∈ h → use_provider u ≠ p) → summary s' h p (mkUsage p 0 0 0 0 (rt_clock rt n)).
Proof using clock_set.
  intros Hn Hh. split; [by exists n|]. intros m Hm.
  assert (Hz : rt_clock rt n ≠ zero_time) by (specialize (clock_set n); lia).
  pose proof (resets_fields (mkUsage p 0 0 0 0 (rt_clock rt n)) (rt_clock rt m) Hz) as E. cbv zeta in E. rewrite E.
  unfold shows. cbn. rewrite !tally_absent by done. by repeat destruct (same_window _ _ _).
Qed.

Lemma getOrCreate_consistent p s h : consistent s h →
  let '(e, s') := getOrCreate rt p s in
  (ag_reads s ≤ ag_reads s')%nat ∧ rg_usage (ag_db s') !! p = Some e ∧ consistent s' h.
Proof using clock_set.
  intros H. rewrite getOrCreate_run. unfold entry. pose proof (proj2 H p) as Hp.
  destruct (rg_usage (ag_db s) !! p) as [e|] eqn:E; cbn [default]; [by split_and!|].
  cbn. split_and!; [lia|by rewrite lookup_insert_eq|].
  eapply (consistent_insert s); [reflexivity|cbn; lia|exact H|]. apply summary_new; [cbn; lia|done].
Qed.

(** [GetUsage] resets the entry at the reading [n]. *)
Lemma GetUsage_consistent p s h : consistent s h →
  let '(u, s') := GetUsage rt p s in
  (ag_reads s ≤ ag_reads s')%nat ∧ consistent s' h ∧
  ∃ n, (ag_reads s ≤ n < ag_reads s')%nat ∧ shows u p h (rt_clock rt n).
Proof using clock_mono clock_set.
  intros H. unfold GetUsage. rewrite bindS_run. pose proof (getOrCreate_consistent p s h H) as H1.
  destruct (getOrCreate rt p s) as [e s1]. destruct H1 as (Hs & He & H1). cbn [fst snd].
  pose proof (proj2 H1 p) as Hp. rewrite He in Hp.
  unfold rt_now, reading, put_usage. rewrite !bindS_run. cbn [fst snd retS ag_reads ag_db].
  split_and!; [cbn; lia| |].
  - apply (consistent_insert s1 _ h p (applyResets e (rt_clock rt (ag_reads s1)))); [reflexivity|cbn; lia|exact H1|].
    apply (summary_reset s1); [lia|cbn; lia|done].
  - exists (ag_reads s1). split; [cbn; lia|]. apply Hp. lia.
Qed.

(** A counter one use later. *)
Lemma tally_record w d t now p h k c : 0 < d →
  (∀ u, u ∈ h → use_time u ≤ t) → t ≤ now → c = wrap64 (tally w d t p h) →
  (if same_window d t now then wrap64 (c + w k) else 0) = wrap64 (tally w d now p (h ++ [mkUse p t k])).
Proof using.
  intros Hd Hh Ht ->. rewrite tally_app, tally_cons. cbn [tally foldr]. unfold counts, same_window. cbn [use_provider use_time use_tokens].
  rewrite (bool_decide_eq_true_2 (p = p)) by done. cbn [andb]. case_bool_decide as E.
  - rewrite (bool_decide_eq_true_2 (Truncate t d = _)) by done. rewrite wrap64_add_l.
    rewrite (tally_window w d now t) by done. f_equal. lia.
  - rewrite (bool_decide_eq_false_2 (Truncate t d = _)) by congruence.
    rewrite (tally_after w d t now p h Hd Hh Ht) by congruence. reflexivity.
Qed.

Lemma wrap64_idem z : wrap64 (wrap64 z) = wrap64 z.
Proof using. pose proof (wrap64_add_l z 0) as H. by rewrite !Z.add_0_r in H. Qed.

(** The token counters move by the positive part. *)
Lemma add_tokens c k z : c = wrap64 z → (if bool_decide (0 < k) then wrap64 (c + k) else c) = wrap64 (c + positive_part k).
Proof using.
  intros ->. unfold positive_part. case_bool_decide; [by rewrite Z.max_l by lia|].
  rewrite Z.max_r by lia. by rewrite Z.add_0_r, wrap64_idem.
Qed.

(** The entry [RecordUsage] stores. *)
Definition used (e : ProviderUsageState) (t : time) (k : Z) : ProviderUsageState :=
  let e := applyResets e t in
  mkUsage (us_ProviderName e) (wrap64 (us_RequestsThisMinute e + 1))
    (if bool_decide (0 < k) then wrap64 (us_TokensThisMinute e + k) else us_TokensThisMinute e)
    (wrap64 (us_RequestsToday e + 1))
    (if bool_decide (0 < k) then wrap64 (us_TokensToday e + k) else us_TokensToday e) t.

Lemma summary_used s s' h p e n k :
  consistent s h → (ag_reads s ≤ n)%nat → (n < ag_reads s')%nat → summary s h p e →
  summary s' (h ++ [mkUse p (rt_clock rt n) k]) p (used e (rt_clock rt n) k).
Proof using clock_mono clock_set.
  intros H Hn Hs' [H1 H2]. destruct (H2 n Hn) as (S1 & S2 & S3 & S4).
  split; [exists n; by split|]. intros m Hm. set (t := rt_clock rt n) in *.
  assert (Htm : t ≤ rt_clock rt m) by (apply clock_mono; lia).
  assert (Hh : ∀ u, u ∈ h → use_time u ≤ t) by (intros u Hu; eapply past_before; [by apply (proj1 H)|done]).
  assert (Hz : us_LastUpdated (used e t k) ≠ zero_time) by (cbn; specialize (clock_set n); unfold t; lia).
  pose proof (resets_fields _ (rt_clock rt m) Hz) as E. cbv zeta in E. rewrite E. clear E.
  unfold shows, used. cbn. rewrite (add_tokens _ _ _ S2), (add_tokens _ _ _ S4).
  split_and!; [apply (tally_record one)|apply (tally_record positive_part)
              |apply (tally_record one)|apply (tally_record positive_part)]; done.
Qed.

(** Other providers' entries summarise a longer history just as well. *)
Lemma summary_other s h p q e u : p ≠ q → use_provider u = p → summary s h q e → summary s (h ++ [u]) q e.
Proof using.
  intros Hpq Hu [H1 H2]. split; [done|]. intros n Hn. specialize (H2 n Hn). unfold shows in *.
  rewrite !tally_app, !(tally_absent _ _ _ _ [u]), !Z.add_0_r; [done| | | |];
    intros v ->%list_elem_of_singleton; congruence.
Qed.

Lemma RecordUsage_run p k s :
  let '(e, s1) := getOrCreate rt p s in
  let s' := snd (RecordUsage rt p k s) in
  rg_usage (ag_db s') = <[p := used e (rt_clock rt (ag_reads s1)) k]> (rg_usage (ag_db s1)) ∧
  ag_reads s' = S (ag_reads s1).
Proof using.
  unfold RecordUsage. rewrite bindS_run. destruct (getOrCreate rt p s) as [e s1]. cbn [fst snd].
  assert (Hp : ∀ e' s2, rg_usage (ag_db (snd (persistState rt e' s2))) = rg_usage (ag_db s2) ∧
                        ag_reads (snd (persistState rt e' s2)) = ag_reads s2).
  { intros e' s2. unfold persistState. destruct (negb (rt_db rt)); [done|]. rewrite dropped_run. unfold statement. cbn [snd].
    destruct (ag_faults s2) as [|[| |] fs]; cbn; by destruct (negb (usage_ints_ok e')). }
  unfold rt_now, reading. rewrite bindS_run. cbn [fst snd]. cbv zeta. rewrite bindS_run. unfold put_usage. cbn [fst snd].
  match goal with |- context [persistState rt ?e ?s] => destruct (Hp e s) as [-> ->] end.
  split; [|done]. cbn. f_equal. unfold used. by case_bool_decide.
Qed.

Lemma RecordUsage_consistent p k s h : consistent s h →
  let s' := snd (RecordUsage rt p k s) in
  (∃ n, (ag_reads s ≤ n < ag_reads s')%nat ∧ last_use p k s' = mkUse p (rt_clock rt n) k) ∧
  consistent s' (h ++ [last_use p k s']).
Proof using clock_mono clock_set.
  intros H. cbv zeta. pose proof (getOrCreate_consistent p s h H) as H1. pose proof (RecordUsage_run p k s) as HR.
  destruct (getOrCreate rt p s) as [e s1]. destruct H1 as (Hs & He & H1). cbv zeta in HR. destruct HR as [Hu Hr].
  set (s' := snd (RecordUsage rt p k s)) in *. set (n := ag_reads s1) in *.
  assert (Hl : last_use p k s' = mkUse p (rt_clock rt n) k).
  { unfold last_use, entry. by rewrite Hu, lookup_insert_eq. }
  split; [exists n; split; [lia|done]|]. rewrite Hl.
  pose proof H1 as [Hh Hent]. split.
  - intros u [Hin| ->%list_elem_of_singleton]%elem_of_app; [|exists n; split; [lia|done]].
    eapply past_later; [|by apply Hh]. lia.
  - intros q. specialize (Hent q). rewrite Hu, lookup_insert. case_decide as E; [subst q|].
    + rewrite He in Hent. by apply (summary_used s1); [done|lia|lia|].
    + destruct (rg_usage (ag_db s1) !! q) as [eq|].
      * apply (summary_other _ _ p); [done|done|]. eapply summary_later; [|done]. lia.
      * intros u [Hin| ->%list_elem_of_singleton]%elem_of_app; [by apply Hent|done].
Qed.

Lemma GetAllUsage_consistent s h : consistent s h →
  (ag_reads s ≤ ag_reads (snd (GetAllUsage rt s)))%nat ∧ consistent (snd (GetAllUsage rt s)) h.
Proof using clock_mono clock_set.
  intros [H1 H2]. unfold GetAllUsage, rt_now, reading, memory. rewrite !bindS_run. cbn [fst snd ag_reads ag_db].
  split; [cbn; lia|]. split.
  - intros u Hu. eapply past_later; [|by apply H1]. cbn. lia.
  - intros p. specialize (H2 p). cbn. rewrite lookup_fmap.
    destruct (rg_usage (ag_db s) !! p) as [e|]; cbn; [|done].
    apply (summary_reset s); [lia|cbn; lia|done].
Qed.

Lemma tracked_consistent s h : tracked s h → consistent s h.
Proof using clock_mono clock_set.
  induction 1 as [s Hs|s h p _ IH|s h _ IH|s h p k _ IH|s s' h _ IH Hu Hr].
  - split; [by intros u ?%elem_of_nil|]. intros p. rewrite Hs, lookup_empty. by intros u ?%elem_of_nil.
  - pose proof (GetUsage_consistent p s h IH) as HG. destruct (GetUsage rt p s). apply HG.
  - by apply GetAllUsage_consistent.
  - by apply RecordUsage_consistent.
  - by eapply consistent_other.
Qed.

(** The usage the tracker reports is its history: whatever sequence of reads,
    resets and recordings came before, at whatever instants, the counters
    [GetUsage] returns are the number of uses and the tokens recorded for the
    provider in the current minute and the current UTC day (at 64 bits). *)
Theorem tracker_counts_history s h p : tracked s h →
  ∃ n, (ag_reads s ≤ n < ag_reads (snd (GetUsage rt p s)))%nat ∧
    shows (fst (GetUsage rt p s)) p h (rt_clock rt n).
Proof using clock_mono clock_set.
  intros H%tracked_consistent. pose proof (GetUsage_consistent p s h H) as HG.
  destruct (GetUsage rt p s). apply HG.
Qed.

(** ** Quotas *)

Lemma CheckQuota_None limits usage k : CheckQuota limits usage k = None →
  (0 < lm_RPM limits → wrap64 (us_RequestsThisMinute usage + 1) ≤ lm_RPM limits) ∧
  (0 < lm_RPD limits → wrap64 (us_RequestsToday usage + 1) ≤ lm_RPD limits) ∧
  (0 < lm_TPM limits → 0 < k → wrap64 (us_TokensThisMinute usage + k) ≤ lm_TPM limits) ∧
  (0 < lm_TPD limits → 0 < k → wrap64 (us_TokensToday usage + k) ≤ lm_TPD limits).
Proof using.
  unfold CheckQuota. cbv zeta. intros H.
  destruct (bool_decide (0 < lm_RPM limits) && _) eqn:E1; [done|].
  destruct (bool_decide (0 < lm_TPM limits) && _ && _) eqn:E2; [done|].
  destruct (bool_decide (0 < lm_RPD limits) && _) eqn:E3; [done|].
  destruct (bool_decide (0 < lm_TPD limits) && _ && _) eqn:E4; [done|]. clear H.
  split_and!; intros H; [clear E2 E3 E4|clear E1 E2 E4|clear E1 E3 E4|clear E1 E2 E3]; intros;
    repeat case_bool_decide; cbn [andb] in *; congruence || lia.
Qed.

(** What is counted stays within a limit when it did at the check, a while
    before it is recorded. *)
Lemma tally_within w d L p h k t1 t2 : 0 < d → 0 < L < 2 ^ 62 →
  (∀ k, 0 ≤ w k) → w k < 2 ^ 62 → (∀ u, u ∈ h → use_time u ≤ t1) → t1 ≤ t2 →
  (∀ t, tally w d t p h ≤ L) →
  (w k = 0 ∨ wrap64 (wrap64 (tally w d t1 p h) + w k) ≤ L) →
  ∀ t, tally w d t p (h ++ [mkUse p t2 k]) ≤ L.
Proof using.
  intros Hd HL Hw Hk Hh Ht12 Hbefore Hcheck t. rewrite tally_app, tally_cons. cbn [tally foldr use_tokens].
  unfold counts. cbn [use_provider use_time]. specialize (Hbefore t) as Ht. pose proof (Hbefore t1) as Ht1.
  pose proof (tally_nonneg w d t1 p h Hw) as Hpos. specialize (Hw k).
  destruct (bool_decide (p = p) && bool_decide (Truncate t2 d = Truncate t d)) eqn:E; [|lia].
  apply andb_true_iff in E as [_ E%bool_decide_eq_true]. destruct Hcheck as [Hz|Hcheck]; [lia|].
  rewrite wrap64_add_l, wrap64_id in Hcheck by (unfold in_int64, int64_min, int64_max; lia).
  destruct (decide (Truncate t1 d = Truncate t2 d)) as [Es|En].
  - rewrite (tally_window w d t t1) by congruence. lia.
  - rewrite (tally_window w d t t2) by congruence. rewrite (tally_after w d t1 t2 p h) by done. lia.
Qed.

(** A limit of 0 is no limit. *)
Definition within (limits : ProviderLimits) (p : string) h : Prop := ∀ t,
  (0 < lm_RPM limits → tally one Minute t p h ≤ lm_RPM limits) ∧
  (0 < lm_TPM limits → tally positive_part Minute t p h ≤ lm_TPM limits) ∧
  (0 < lm_RPD limits → tally one Day t p h ≤ lm_RPD limits) ∧
  (0 < lm_TPD limits → tally positive_part Day t p h ≤ lm_TPD limits).

Definition representable (limits : ProviderLimits) : Prop :=
  lm_RPM limits < 2 ^ 62 ∧ lm_TPM limits < 2 ^ 62 ∧ lm_RPD limits < 2 ^ 62 ∧ lm_TPD limits < 2 ^ 62.

Lemma disciplined_tracked limits s h : disciplined limits s h → tracked s h.
Proof using.
  induction 1.
  - by apply tracked_start.
  - by apply tracked_read.
  - by apply tracked_read_all.
  - by apply tracked_record, tracked_read.
  - by eapply tracked_other.
Qed.

Lemma within_use limits p h k t1 t2 usage :
  representable limits → k < 2 ^ 62 → (∀ u, u ∈ h → use_time u ≤ t1) → t1 ≤ t2 →
  shows usage p h t1 → CheckQuota limits usage k = None →
  within limits p h → within limits p (h ++ [mkUse p t2 k]).
Proof using.
  intros (L1 & L2 & L3 & L4) Hk Hh Ht (S1 & S2 & S3 & S4) Hq%CheckQuota_None Hw.
  destruct Hq as (Q1 & Q2 & Q3 & Q4). rewrite S1 in Q1. rewrite S2 in Q3. rewrite S3 in Q2. rewrite S4 in Q4.
  assert (Hone : ∀ k, 0 ≤ one k) by done.
  assert (Hpp : ∀ k, 0 ≤ positive_part k) by (unfold positive_part; lia).
  assert (Htok : ∀ w L, (0 < k → wrap64 (w + k) ≤ L) → positive_part k = 0 ∨ wrap64 (w + positive_part k) ≤ L).
  { intros w L HwL. unfold positive_part. destruct (decide (0 < k)); [right; rewrite Z.max_l by lia; auto|left; lia]. }
  intros t. split_and!; intros HL.
  - eapply (tally_within one Minute); [done|lia|done|done|exact Hh|done|intros t'; by apply (Hw t')|right; by apply Q1].
  - eapply (tally_within positive_part Minute); [done|lia|done|unfold positive_part; lia|exact Hh|done|intros t'; by apply (Hw t')|].
    apply Htok. auto.
  - eapply (tally_within one Day); [done|lia|done|done|exact Hh|done|intros t'; by apply (Hw t')|right; by apply Q2].
  - eapply (tally_within positive_part Day); [done|lia|done|unfold positive_part; lia|exact Hh|done|intros t'; by apply (Hw t')|].
    apply Htok. auto.
Qed.

(** C23: Quotas hold, in a process whose tracker starts empty (usage of before,
    which [LoadFromDB] brings back at startup, is not counted): when every use is recorded right after [CheckQuota] admitted
    it against the usage the tracker reports, no minute and no UTC day ever sees
    more requests or tokens of a provider than its limits, even when a window
    ends between the check and the recording. *)
Theorem quotas_enforced limits s h :
  (∀ p, representable (limits p)) → disciplined limits s h → ∀ p, within (limits p) p h.
Proof using clock_mono clock_set.
  intros HL. induction 1 as [s Hs|s h q _ IH|s h _ IH|s h q k Hd IH Hq Hk s'|s s' h _ IH _ _]; try done.
  { intros p t. cbn. split_and!; intros; lia. }
  intros p. pose proof (tracked_consistent _ _ (disciplined_tracked _ _ _ Hd)) as Hc.
  pose proof (GetUsage_consistent q s h Hc) as HG.
  destruct (GetUsage rt q s) as [usage s1]. cbn [fst snd] in *. destruct HG as (Hs1 & Hc1 & n & Hn & Hshow).
  pose proof (RecordUsage_consistent q k s1 h Hc1) as HR. cbv zeta in HR. fold s' in HR.
  destruct HR as [(m & Hm & Hl) _]. rewrite Hl.
  destruct (decide (p = q)) as [->|Hpq].
  - apply (within_use _ q h k (rt_clock rt n) (rt_clock rt m) usage); try done; [|apply clock_mono; lia].
    intros u Hu. eapply past_before; [by apply (proj1 Hc)|lia].
  - intros t. rewrite !tally_app, !(tally_absent _ _ _ _ [_]), !Z.add_0_r; [by apply IH| | | |];
      intros u ->%list_elem_of_singleton; cbn; congruence.
Qed.
End tracker.

(** ** Routing only reads the tracker *)

Section routing.
Context {U : UuidPkg} {X : Type} (rt : Router X).
Variable P : Agent RoutingDB X → Prop.
Hypothesis P_read : ∀ s p, P s → P (snd (GetUsage rt p s)).
Hypothesis P_other : ∀ s s', P s → rg_usage (ag_db s') = rg_usage (ag_db s) → (ag_reads s ≤ ag_reads s')%nat → P s'.

Definition leaves {A} (c : St (Agent RoutingDB X) A) : Prop :=
  ∀ s, rg_usage (ag_db (snd (c s))) = rg_usage (ag_db s) ∧ (ag_reads s ≤ ag_reads (snd (c s)))%nat.

Lemma triple_leaves {A} (c : St (Agent RoutingDB X) A) : leaves c → triple P c (fun _ => P).
Proof using P_other. intros Hc s HP. destruct (Hc s). by eapply P_other. Qed.

Lemma leaves_bind {A B} (c : St (Agent RoutingDB X) A) (k : A → St (Agent RoutingDB X) B) :
  leaves c → (∀ a, leaves (k a)) → leaves (bindS c k).
Proof using.
  intros Hc Hk s. rewrite bindS_run. destruct (Hc s), (Hk (fst (c s)) (snd (c s))). split; [congruence|lia].
Qed.

Lemma leaves_ret {A} (a : A) : leaves (retS a).
Proof using. by intros s. Qed.

Lemma leaves_emit ev : leaves (emit rt ev).
Proof using.
  unfold emit. destruct (rt_auditor rt) as [record|]; [|apply leaves_ret]. intros s.
  rewrite dropped_run. cbn. unfold provider. by destruct (record ev (ag_ext s)).
Qed.

Lemma leaves_recordDecision input plan : leaves (recordDecision rt input plan).
Proof using.
  unfold recordDecision. apply leaves_bind; [by intros s|]. intros id. apply leaves_bind; [|by intros now s].
  intros s. cbn. split; [done|lia].
Qed.

Hint Resolve leaves_ret leaves_emit leaves_recordDecision : core.

Ltac leaves_steps := repeat first [apply leaves_bind; [by auto|intros ?] | by auto].

Lemma triple_read p : triple P (GetUsage rt p) (fun _ => P).
Proof using P_read. intros s. apply P_read. Qed.

Lemma filterProvider_reads p input : triple P (filterProvider rt p input) (fun _ => P).
Proof using P_other P_read.
  unfold filterProvider.
  repeat match goal with |- triple _ (if ?b then _ else _) _ => destruct b; [by apply triple_ret|] end.
  eapply triple_bind; [apply triple_read|]. intros usage. apply triple_leaves.
  unfold emitQuotaExceeded. destruct (CheckQuota _ _ _); leaves_steps.
Qed.

Lemma filter_providers_reads input ps : triple P (filter_providers rt input ps) (fun _ => P).
Proof using P_other P_read.
  induction ps as [|p ps IH]; cbn [filter_providers]; [by apply triple_ret|].
  eapply triple_bind; [apply filterProvider_reads|]. intros reason.
  eapply triple_bind; [exact IH|]. intros [valid rejected]. by apply triple_ret.
Qed.

Lemma score_each_reads input ps : triple P (score_each rt input ps) (fun _ => P).
Proof using P_read.
  induction ps as [|p ps IH]; cbn [score_each]; [by apply triple_ret|].
  eapply triple_bind; [apply triple_read|]. intros usage.
  eapply triple_bind; [exact IH|]. intros ranked. by apply triple_ret.
Qed.

Lemma Route_reads input : triple P (Route rt input) (fun _ => P).
Proof using P_other P_read.
  unfold Route. cbv zeta. eapply triple_bind; [by apply triple_leaves; intros s|]. intros reg.
  case_bool_decide; [apply triple_leaves; unfold no_providers, Routing_emitAudit; leaves_steps|].
  eapply triple_bind; [apply filter_providers_reads|]. intros [valid rejected].
  case_bool_decide; [apply triple_leaves; unfold all_rejected, Routing_emitAudit; leaves_steps|].
  eapply triple_bind.
  { unfold scoreProviders. eapply triple_bind; [apply score_each_reads|]. intros ranked.
    by apply triple_leaves; intros s. }
  intros ranking. apply triple_leaves. unfold select_ranked, Routing_emitAudit.
  destruct ranking as [|primary rest]; [auto|]. cbv zeta.
  apply leaves_bind; [auto|]. intros ?. apply leaves_bind; [auto|]. intros ?.
  apply leaves_bind; [|auto]. destruct (degraded_to_local _ _); auto.
Qed.
End routing.

(** Routing decisions consume no quota: a run stays a run with the same history. *)
Lemma Route_tracked {U : UuidPkg} {X} (rt : Router X) s h input :
  tracked rt s h → tracked rt (snd (Route rt input s)) h.
Proof.
  apply (Route_reads rt (fun s => tracked rt s h)).
  - intros s0 p. apply tracked_read.
  - intros s0 s' H Hu Hr. by eapply tracked_other.
Qed.

Lemma Route_disciplined {U : UuidPkg} {X} (rt : Router X) limits s h input :
  disciplined rt limits s h → disciplined rt limits (snd (Route rt input s)) h.
Proof.
  apply (Route_reads rt (fun s => disciplined rt limits s h)).
  - intros s0 p. apply disciplined_read.
  - intros s0 s' H Hu Hr. by eapply disciplined_other.
Qed.

(** ** Provider routing on concrete registries

    Witnesses that the hypotheses of the routing theorems hold, and two
    behaviours of the ranking that its documentation does not suggest. *)

(** *** A deployment *)

Definition demo_provider (name kind : string) (rpm : Z) (cost : string) (reachable : bool) : Provider :=
  mkProvider name kind ["fast"] ["json_mode"] (mkLimits rpm 0 0 0) (mkCost cost f0)
    (mkHealth true reachable false zero_time).

Definition demo_registry : Registry :=
  Register (demo_provider "ollama" KindLocal 0 CostLocal true)
    (Register (demo_provider "groq" KindCloud 2 CostFree true)
      (Register (demo_provider "gemini" KindCloud 60 CostCheap true)
        (Register (demo_provider "openrouter" KindRouter 60 CostCheap true)
          (Register (demo_provider "sambanova" KindCloud 60 CostCheap false) ∅)))).

Lemma demo_registry_wf : registry_wf demo_registry.
Proof. unfold demo_registry. repeat apply Register_wf. intros k p H. by rewrite lookup_empty in H. Qed.

(** A clock that advances a second per reading. *)
Definition demo_ticks (n : nat) : time := 1700000000 * Second + Z.of_nat n * Second.

Definition demo_policy : GlobalPolicyConfig :=
  mkGlobalPolicy true true 2 {[ "fast" := ["gemini"; "groq"] ]} ["router"; "external_fast"; "local"].

(** The auditor keeps the events. *)
Definition demo_router (policy : option GlobalPolicyConfig) : Router (list RoutingEvent) :=
  mkRouter demo_ticks (fun _ l => l) true (Some (fun ev x => (None, x ++ [ev]))) policy None.

Definition demo_agent (reg : Registry) (usage : gmap string ProviderUsageState)
    : Agent RoutingDB (list RoutingEvent) := mkAgent (mkRoutingDB reg usage ∅ []) [] 0 0 [] [].

Definition demo_input : RoutingInput := mkRoutingInput "g" "t" "fast" 100 400 f0 true ["json_mode"].

Definition targets (plan : ExecutionPlan) : list string := map pp_Provider (AllTargets plan).

(** The local provider wins on latency; the unreachable one is rejected. *)
Example demo_route :
  let plan := fst (Route (U := demo_uuid) (demo_router None) demo_input (demo_agent demo_registry ∅)) in
  targets plan = ["ollama"; "gemini"; "openrouter"; "groq"] ∧
  tc_Rejected (pl_Trace plan) = [mkRejected "sambanova" "" "provider unreachable"].
Proof. by vm_compute. Qed.

(** With the policy, a boost for the first preference and fallbacks by tier. *)
Example demo_route_policy :
  let plan := fst (Route (U := demo_uuid) (demo_router (Some demo_policy)) demo_input (demo_agent demo_registry ∅)) in
  targets plan = ["ollama"; "openrouter"; "gemini"].
Proof. by vm_compute. Qed.

(** *** Witnesses *)

Lemma route_selects_admissible_witness :
  let plan := fst (Route (U := demo_uuid) (demo_router (Some demo_policy)) demo_input (demo_agent demo_registry ∅)) in
  IsEmpty plan = false ∧ NoDup (AllTargets plan) ∧
  map pv_Name (Enabled demo_registry) ≡ₚ
    map rj_Provider (tc_Rejected (pl_Trace plan)) ++ map rk_Provider (tc_Ranked (pl_Trace plan)).
Proof.
  pose proof (route_selects_admissible (U := demo_uuid) (demo_router (Some demo_policy)) demo_input
    (demo_agent demo_registry ∅) demo_registry_wf) as H.
  destruct (Route _ _ _) as [plan s'] eqn:E. cbv zeta in *. cbn [fst]. split.
  - change plan with (fst (plan, s')). rewrite <- E. by vm_compute.
  - split; [apply H|apply H].
Defined.

Lemma route_ranking_ordered_witness :
  let plan := fst (Route (U := demo_uuid) (demo_router (Some demo_policy)) demo_input (demo_agent demo_registry ∅)) in
  length (tc_Ranked (pl_Trace plan)) = 4%nat ∧
  ∃ primary rest, tc_Ranked (pl_Trace plan) = primary :: rest ∧ pl_Provider plan = rk_Provider primary.
Proof.
  assert (Hl : length (tc_Ranked (pl_Trace (fst (Route (U := demo_uuid) (demo_router (Some demo_policy)) demo_input
    (demo_agent demo_registry ∅))))) = 4%nat) by by vm_compute.
  pose proof (route_ranking_ordered (U := demo_uuid) (demo_router (Some demo_policy)) demo_input
    (demo_agent demo_registry ∅) demo_registry_wf) as [_ H].
  cbv zeta. split; [exact Hl|]. cbv zeta in H. rewrite Hl in H. clear Hl.
  destruct (H ltac:(lia)) as (primary & rest & rest' & H1 & _ & H2 & _). exists primary, rest'. split; [exact H1|exact H2].
Defined.

Lemma demo_ticks_mono m n : (m ≤ n)%nat → demo_ticks m ≤ demo_ticks n.
Proof. unfold demo_ticks, Second. lia. Qed.

Lemma demo_ticks_set n : zero_time < demo_ticks n.
Proof. unfold demo_ticks, zero_time, Second. lia. Qed.

Definition demo_fresh : Agent RoutingDB (list RoutingEvent) := demo_agent demo_registry ∅.
Definition demo_limits (p : string) : ProviderLimits := mkLimits 2 500 0 0.

(** One recording, after the clock's first two readings. *)
Lemma tracker_counts_history_witness :
  let rt := demo_router None in
  let s' := snd (RecordUsage rt "groq" 120 demo_fresh) in
  let u := fst (GetUsage rt "groq" s') in
  (us_RequestsThisMinute u, us_TokensToday u) = (1, 120) ∧
  ∃ n, shows u "groq" [last_use "groq" 120 s'] (demo_ticks n).
Proof.
  split; [by vm_compute|].
  destruct (tracker_counts_history (demo_router None) demo_ticks_mono demo_ticks_set
    (snd (RecordUsage (demo_router None) "groq" 120 demo_fresh))
    [last_use "groq" 120 (snd (RecordUsage (demo_router None) "groq" 120 demo_fresh))] "groq") as (n & _ & H).
  - apply (tracked_record (demo_router None) demo_fresh []). by apply tracked_start.
  - by exists n.
Defined.

Lemma quotas_enforced_witness :
  let rt := demo_router None in
  let s' := snd (RecordUsage rt "groq" 120 (snd (GetUsage rt "groq" demo_fresh))) in
  CheckQuota (demo_limits "groq") (fst (GetUsage rt "groq" s')) 500 ≠ None ∧
  within (demo_limits "groq") "groq" [last_use "groq" 120 s'].
Proof.
  split; [by vm_compute|].
  apply (quotas_enforced (demo_router None) demo_ticks_mono demo_ticks_set demo_limits
    (snd (RecordUsage (demo_router None) "groq" 120 (snd (GetUsage (demo_router None) "groq" demo_fresh))))).
  - intros p. by vm_compute.
  - apply (disciplined_use (demo_router None) demo_limits demo_fresh []); [by apply disciplined_start|by vm_compute|lia].
Defined.

(** *** Ties within an epsilon

    Three cloud providers with the same cost, whose quota headroom makes their
    scores differ by less than 0.001 between neighbours and by more between the
    ends: the comparison of [scoreProviders] is not transitive, and the order
    it settles on puts the worst score first. *)

Definition close_registry : Registry :=
  let p name := demo_provider name KindCloud 10000 CostFree true in
  Register (p "a") (Register (p "b") (Register (p "c") ∅)).

Definition close_usage : gmap string ProviderUsageState :=
  let u name n := (name, mkUsage name n 0 n 0 (demo_ticks 0)) in
  list_to_map [u "a" 64; u "b" 32; u "c" 0].

Lemma ranking_not_transitive :
  let s := demo_agent close_registry close_usage in
  let plan := fst (Route (U := demo_uuid) (demo_router None) demo_input s) in
  match tc_Ranked (pl_Trace plan) with
  | [x; y; z] =>
      (rk_Provider x, rk_Provider y, rk_Provider z) = ("a", "b", "c") ∧
      fltb (rk_Score x) (rk_Score z) = true ∧
      ranked_before close_registry x y = true ∧ ranked_before close_registry y z = true ∧
      ranked_before close_registry z x = true
  | _ => False
  end.
Proof. by vm_compute. Qed.

(** *** The trace after the fallbacks

    [buildFallbackPairs] sorts the slice it is given, which is the tail of the
    ranking kept in the trace: with a degrade policy the trace shows the
    fallbacks by tier, not by score. *)
Lemma trace_reordered_by_tier :
  let plan policy := fst (Route (U := demo_uuid) (demo_router policy) demo_input (demo_agent demo_registry ∅)) in
  let tiers := demo_policy in
  let flat := mkGlobalPolicy true true 2 (gp_RolePreferences demo_policy) [] in
  let shown p := map rk_Provider (tc_Ranked (pl_Trace (plan (Some p)))) in
  shown flat = ["ollama"; "gemini"; "groq"; "openrouter"] ∧
  shown tiers = ["ollama"; "openrouter"; "gemini"; "groq"].
Proof. by vm_compute. Qed.
