(* ===== verification/DependencyGraph.v ===== *)
(** * Dependency graphs ([internal/agent/goal_planning/dependency.go])

    Depth-first searches over the graph of dependencies between subgoals: cycle
    detection with three colours, topological order, depth of chains.  A search
    gets fuel, one unit per nested call; the nodes of the graph are enough.

    A Go map is ranged over in any order, which is an argument. *)

From stdpp Require Import base gmap strings list tactics numbers fin_maps relations.
From Stdlib Require Import Lia.
From S2P Require Import Prelude.

Open Scope nat_scope.

(** ** The graph *)

Record GoalDependency := mkDependency {
  gd_ID : string;
  gd_PlanID : string;
  gd_FromSubgoalID : string;
  gd_ToSubgoalID : string;
  gd_CreatedAt : BinNums.Z
}.

Abbreviation Graph := (gmap string (list string)).

(** [g.edges[node]] *)
Definition edges (g : Graph) (node : string) : list string := default [] (g !! node).

Definition NewDependencyGraph (deps : list GoalDependency) : Graph :=
  fold_left (fun g d => <[gd_FromSubgoalID d := edges g (gd_FromSubgoalID d) ++ [gd_ToSubgoalID d]]> g) deps ∅.

(** ** Cycles *)

(** Absent: unvisited; [false]: in the stack (1); [true]: done (2). *)
Abbreviation Colours := (gmap string bool).

(** The loop over the neighbours. *)
Fixpoint dfs_neighbours (dfs : string → Colours → bool * Colours) (node : string) (ns : list string)
    (visited : Colours) : bool * Colours :=
  match ns with
  | [] => (false, <[node := true]> visited)
  | n :: ns' =>
      match visited !! n with
      | Some false => (true, visited)
      | None =>
          let '(found, visited) := dfs n visited in
          if found then (true, visited) else dfs_neighbours dfs node ns' visited
      | Some true => dfs_neighbours dfs node ns' visited
      end
  end.

Fixpoint dfs (g : Graph) (fuel : nat) (node : string) (visited : Colours) : bool * Colours :=
  match fuel with
  | O => (false, visited)
  | S fuel' => dfs_neighbours (dfs g fuel') node (edges g node) (<[node := false]> visited)
  end.

Fixpoint HasCycle_loop (g : Graph) (fuel : nat) (nodes : list string) (visited : Colours) : bool :=
  match nodes with
  | [] => false
  | node :: nodes' =>
      match visited !! node with
      | None =>
          let '(found, visited) := dfs g fuel node visited in
          if found then true else HasCycle_loop g fuel nodes' visited
      | Some _ => HasCycle_loop g fuel nodes' visited
      end
  end.

(** Every node, as source or target. *)
Definition nodes (g : Graph) : list string := (map_to_list g).*1 ++ concat (map_to_list g).*2.
Definition graph_fuel (g : Graph) : nat := S (length (nodes g)).

(** [keys]: the keys of [g.edges] in the order of the range. *)
Definition HasCycle (g : Graph) (keys : list string) : bool := HasCycle_loop g (graph_fuel g) keys ∅.

(** ** Topological order *)

Record Walk := mkWalk { wk_visited : gset string; wk_order : list string }.

Definition walk_all (visit : string → Walk → Walk) (ns : list string) (w : Walk) : Walk :=
  fold_left (fun w n => visit n w) ns w.

Fixpoint visit (g : Graph) (nodeSet : gset string) (fuel : nat) (node : string) (w : Walk) : Walk :=
  match fuel with
  | O => w
  | S fuel' =>
      if bool_decide (node ∈ wk_visited w) || bool_decide (node ∉ nodeSet) then w
      else
        let w := walk_all (visit g nodeSet fuel') (edges g node)
                   (mkWalk ({[node]} ∪ wk_visited w) (wk_order w)) in
        mkWalk (wk_visited w) (wk_order w ++ [node])
  end.

(** [None] is the nil slice of a cyclic graph. *)
Definition TopologicalSort (g : Graph) (keys : list string) (subgoalIDs : list string)
    : option (list string) :=
  if HasCycle g keys then None
  else
    let w := walk_all (visit g (list_to_set subgoalIDs) (S (length subgoalIDs))) subgoalIDs (mkWalk ∅ []) in
    Some (reverse (wk_order w)).

(** ** Depth *)

(** [visited] is the path from the root. *)
Fixpoint depthDFS (g : Graph) (fuel : nat) (node : string) (visited : gset string) : nat :=
  match fuel with
  | O => 0
  | S fuel' =>
      if bool_decide (node ∈ visited) then 0
      else
        let depth child := depthDFS g fuel' child ({[node]} ∪ visited) in
        S (fold_left (fun maxChild child => if bool_decide (maxChild < depth child) then depth child
                                            else maxChild) (edges g node) 0)
  end.

(** The root may be outside the graph. *)
Definition Depth (g : Graph) (subgoalID : string) : nat := depthDFS g (S (graph_fuel g)) subgoalID ∅.

Definition Dependents (g : Graph) (subgoalID : string) : list string := edges g subgoalID.

Definition Prerequisites (g : Graph) (keys : list string) (subgoalID : string) : list string :=
  keys ≫= (fun from => (fun _ => from) <$> List.filter (fun to => bool_decide (to = subgoalID)) (edges g from)).

Definition MaxDepth : nat := 3.

Definition ValidateMaxDepth (g : Graph) (subgoalIDs : list string) : bool :=
  forallb (fun id => negb (bool_decide (MaxDepth < Depth g id))) subgoalIDs.

Example diamond :
  let g := NewDependencyGraph [mkDependency "" "" "a" "b" BinNums.Z0; mkDependency "" "" "a" "c" BinNums.Z0;
                               mkDependency "" "" "b" "d" BinNums.Z0; mkDependency "" "" "c" "d" BinNums.Z0] in
  TopologicalSort g ["b"; "a"; "c"] ["d"; "c"; "b"; "a"] = Some ["a"; "b"; "c"; "d"] ∧
  Depth g "a" = 3 ∧ ValidateMaxDepth g ["a"; "b"] = true ∧ Prerequisites g ["c"; "b"; "a"] "d" = ["c"; "b"].
Proof. by vm_compute. Qed.

(** * Properties *)

Section graph.
Context (g : Graph).

Definition edge (x y : string) : Prop := y ∈ edges g x.

Lemma edge_key x y : edge x y → x ∈ (map_to_list g).*1.
Proof.
  unfold edge, edges. destruct (g !! x) as [l|] eqn:E; [|by intros ?%elem_of_nil].
  intros _. apply list_elem_of_fmap. exists (x, l). by rewrite elem_of_map_to_list.
Qed.

Lemma edge_source x y : edge x y → x ∈ nodes g.
Proof. intros H%edge_key. unfold nodes. apply elem_of_app. by left. Qed.

Lemma edge_target x y : edge x y → y ∈ nodes g.
Proof.
  unfold edge, edges, nodes. destruct (g !! x) as [l|] eqn:E; [|by intros ?%elem_of_nil]. intros Hy.
  apply elem_of_app. right. apply list_elem_of_In, in_concat. exists l.
  split; [|by apply list_elem_of_In]. apply list_elem_of_In, list_elem_of_fmap. exists (x, l).
  by rewrite elem_of_map_to_list.
Qed.

Lemma tc_first x z : tc edge x z → ∃ y, edge x y ∧ rtc edge y z.
Proof using. destruct 1 as [x z H|x y z H H']; [by exists z|]. exists y. split; [done|by apply tc_rtc]. Qed.

(** ** Depth-first search *)

Definition grey (v : Colours) (x : string) : Prop := v !! x = Some false.
Definition black (v : Colours) (x : string) : Prop := v !! x = Some true.

(** Done nodes are on no cycle, and so are their successors. *)
Definition settled (v : Colours) : Prop :=
  ∀ b, black v b → ¬ tc (edge) b b ∧ ∀ c, edge b c → black v c.

Lemma settled_reach v b c : settled v → black v b → rtc edge b c → black v c.
Proof using. intros Hv Hb. induction 1 as [|b c d Hbc _ IH]; [done|]. by apply IH, (Hv b Hb). Qed.

Lemma size_list_le (l : list string) : size (list_to_set l : gset string) ≤ length l.
Proof using.
  induction l as [|x l IH]; cbn; [by rewrite size_empty|].
  rewrite (size_union_alt {[x]}), size_singleton.
  assert (size (list_to_set l ∖ {[x]} : gset string) ≤ size (list_to_set l : gset string)) by (apply subseteq_size; set_solver).
  lia.
Qed.

(** Nodes not visited yet. *)
Definition fresh (v : Colours) : gset string := list_to_set (nodes g) ∖ dom v.

Lemma fresh_shrinks v x c : x ∈ nodes g → v !! x = None → size (fresh (<[x := c]> v)) < size (fresh v).
Proof using.
  intros Hx Hv. apply subset_size. unfold fresh. rewrite dom_insert_L.
  apply not_elem_of_dom in Hv. split; [set_solver|]. intros H. specialize (H x). set_solver.
Qed.

Lemma fresh_mono v v' : dom v ⊆ dom v' → size (fresh v') ≤ size (fresh v).
Proof using. intros H. apply subseteq_size. unfold fresh. set_solver. Qed.

(** What a search that finds no cycle does: grey nodes stay grey, done ones
    done. *)
Definition advances (v v' : Colours) : Prop :=
  (∀ x, grey v' x ↔ grey v x) ∧ (∀ x, black v x → black v' x) ∧ dom v ⊆ dom v'.

Lemma advances_refl v : advances v v.
Proof using. by split_and!. Qed.

Lemma advances_trans u v w : advances u v → advances v w → advances u w.
Proof using.
  intros (A1 & A2 & A3) (B1 & B2 & B3). split_and!; [intros x; by rewrite B1|by auto|by set_solver].
Qed.

(** The search at [node], whose ancestors are the grey nodes. *)
Definition searches (search : string → Colours → bool * Colours) (bound : nat) : Prop :=
  ∀ node v, node ∈ nodes g → v !! node = None → size (fresh v) ≤ bound → settled v →
    (∀ x, grey v x → tc edge x node) →
    let '(found, v') := search node v in
    if found then ∃ x, tc edge x x else advances v v' ∧ black v' node ∧ settled v'.

(** The loop over the neighbours left, the ones before being done. *)
Lemma neighbours_spec search bound node ns done v :
  searches search bound → grey v node → edges g node = done ++ ns →
  (∀ c, c ∈ done → black v c) → size (fresh v) ≤ bound → settled v →
  (∀ x, grey v x → rtc edge x node) →
  let '(found, v') := dfs_neighbours search node ns v in
  if found then ∃ x, tc edge x x
  else (∀ x, grey v' x ↔ grey v x ∧ x ≠ node) ∧ (∀ x, black v x → black v' x) ∧ dom v ⊆ dom v' ∧
       black v' node ∧ settled v'.
Proof using.
  intros Hsearch. revert done v. induction ns as [|n ns IH]; intros done v Hnode Hns Hdone Hf Hset Hgrey; cbn.
  { rewrite app_nil_r in Hns. unfold grey, black in *. split_and!.
    - intros x. rewrite lookup_insert. case_decide; naive_solver.
    - intros x Hx. rewrite lookup_insert. by case_decide.
    - rewrite dom_insert. set_solver.
    - by rewrite lookup_insert_eq.
    - assert (Hout : ∀ c, edge node c → black v c) by (intros c Hc; apply Hdone; by rewrite <- Hns).
      intros b Hb. unfold black in Hb. rewrite lookup_insert in Hb. case_decide as E; [subst b|].
      + split.
        * intros (c & Hc & Hcn)%tc_first. assert (Hb' : black v node); [|unfold black in Hb'; congruence].
          eapply settled_reach; [exact Hset|by apply Hout|done].
        * intros c Hc. unfold black. rewrite lookup_insert. case_decide; [done|by apply Hout].
      + destruct (Hset b Hb) as [H1 H2]. split; [done|]. intros c Hc. unfold black. rewrite lookup_insert.
        case_decide; [done|by apply H2]. }
  assert (Hedge : edge node n) by (unfold edge; rewrite Hns; set_solver).
  assert (Hns' : edges g node = (done ++ [n]) ++ ns) by by rewrite <- app_assoc.
  assert (Hdone' : ∀ v', black v' n → (∀ c, black v c → black v' c) → ∀ c, c ∈ done ++ [n] → black v' c).
  { intros v' Hn Hb c [Hc| ->%list_elem_of_singleton]%elem_of_app; [by apply Hb, Hdone|done]. }
  destruct (v !! n) as [[]|] eqn:Hn.
  - apply (IH (done ++ [n])); auto.
  - exists n. eapply tc_rtc_l; [by apply Hgrey|]. by apply tc_once.
  - assert (Hs : let '(found, v') := search n v in
      if found then ∃ x, tc edge x x else advances v v' ∧ black v' n ∧ settled v').
    { apply Hsearch; auto.
      - by eapply edge_target.
      - intros x Hx. eapply tc_rtc_l; [by apply Hgrey|]. by apply tc_once. }
    destruct (search n v) as [[] v']; [done|]. destruct Hs as ((A1 & A2 & A3) & Hbn & Hset').
    specialize (IH (done ++ [n]) v'). destruct (dfs_neighbours search node ns v') as [[] v''].
    + apply IH; auto; [by apply A1|by etrans; [apply fresh_mono|]|intros x Hx; by apply Hgrey, A1].
    + destruct IH as (B1 & B2 & B3 & B4 & B5); auto;
        [by apply A1|by etrans; [apply fresh_mono|]|intros x Hx; by apply Hgrey, A1|].
      split_and!; auto; [intros x; by rewrite B1, A1|set_solver].
Qed.

Lemma dfs_spec fuel : searches (dfs g fuel) fuel.
Proof using.
  induction fuel as [|fuel IH]; intros node v Hnode Hn Hf Hset Hgrey.
  { exfalso. pose proof (fresh_shrinks v node true Hnode Hn). lia. }
  cbn [dfs]. set (v0 := <[node := false]> v).
  assert (Hb0 : ∀ b, black v0 b ↔ black v b).
  { intros b. unfold black, v0. rewrite lookup_insert. case_decide as E; [subst b|done]. by rewrite Hn. }
  assert (Hg0 : ∀ x, grey v0 x ↔ grey v x ∨ x = node).
  { intros x. unfold grey, v0. rewrite lookup_insert. case_decide as E; [subst x|]; naive_solver. }
  assert (H : let '(found, v') := dfs_neighbours (dfs g fuel) node (edges g node) v0 in
    if found then ∃ x, tc edge x x
    else (∀ x, grey v' x ↔ grey v0 x ∧ x ≠ node) ∧ (∀ x, black v0 x → black v' x) ∧ dom v0 ⊆ dom v' ∧
         black v' node ∧ settled v').
  { apply (neighbours_spec _ fuel node _ []); auto.
    - apply Hg0. by right.
    - by intros c ?%elem_of_nil.
    - pose proof (fresh_shrinks v node false Hnode Hn). unfold v0. lia.
    - intros b [H1 H2]%Hb0%Hset. split; [done|]. intros c Hc. apply Hb0, H2, Hc.
    - intros x [Hx| ->]%Hg0; [by apply tc_rtc, Hgrey|done]. }
  destruct (dfs_neighbours _ _ _ _) as [[] v']; [done|]. destruct H as (A1 & A2 & A3 & A4 & A5).
  split_and!; [split_and!| |]; auto.
  - intros x. rewrite A1, Hg0. split; [by intros [[]]|]. intros Hx. split; [by left|].
    intros ->. unfold grey in Hx. congruence.
  - intros x Hx. by apply A2, Hb0.
  - etrans; [|exact A3]. unfold v0. rewrite dom_insert. set_solver.
Qed.

Lemma HasCycle_loop_spec keys v :
  (∀ x, x ∈ keys → x ∈ nodes g) → settled v → (∀ x, ¬ grey v x) →
  if HasCycle_loop g (graph_fuel g) keys v then ∃ x, tc edge x x
  else ∃ v', (∀ x, x ∈ keys ∨ black v x → black v' x) ∧ settled v'.
Proof using.
  revert v. induction keys as [|k keys IH]; intros v Hk Hset Hg; cbn [HasCycle_loop].
  { exists v. split; [|done]. intros x [?%elem_of_nil|]; done. }
  assert (Hk' : ∀ x, x ∈ keys → x ∈ nodes g) by (intros x Hx; apply Hk; by right).
  destruct (v !! k) as [c|] eqn:Hc.
  - assert (Hb : black v k) by (destruct c; [done|by destruct (Hg k)]).
    specialize (IH v Hk' Hset Hg). destruct (HasCycle_loop _ _ _ _); [done|].
    destruct IH as (v' & H1 & H2). exists v'. split; [|done]. intros x [[->|]%elem_of_cons|]; auto.
  - assert (Hf : size (fresh v) ≤ graph_fuel g).
    { unfold graph_fuel, fresh. etrans; [apply (subseteq_size _ (list_to_set (nodes g))); set_solver|].
      pose proof (size_list_le (nodes g)). lia. }
    assert (Hs := dfs_spec (graph_fuel g) k v (Hk k (list_elem_of_here _ _)) Hc Hf Hset
      (fun x Hx => False_ind _ (Hg x Hx))).
    destruct (dfs g (graph_fuel g) k v) as [[] v1]; [exact Hs|]. destruct Hs as ((A1 & A2 & A3) & Hb & Hset1).
    specialize (IH v1 Hk' Hset1 (fun x Hx => Hg x (proj1 (A1 x) Hx))).
    destruct (HasCycle_loop _ _ _ _); [done|]. destruct IH as (v' & H1 & H2). exists v'. split; [|done].
    intros x [[->|]%elem_of_cons|]; auto.
Qed.

(** The order of the range is any permutation of the keys. *)
Definition key_order (keys : list string) : Prop := keys ≡ₚ (map_to_list g).*1.

(** Cycle detection is exact: whatever the order in which the map of edges is
    ranged over, [HasCycle] answers true if and only if some subgoal depends on
    itself through a chain of dependencies.  In particular the depth-first
    search has enough fuel. *)
Theorem HasCycle_correct keys : key_order keys → HasCycle g keys = true ↔ ∃ x, tc edge x x.
Proof using.
  unfold key_order. intros Hkeys. unfold HasCycle.
  pose proof (HasCycle_loop_spec keys ∅) as H. destruct (HasCycle_loop g (graph_fuel g) keys ∅).
  - split; [|done]. intros _. apply H.
    + intros x Hx. rewrite Hkeys in Hx. unfold nodes. set_solver.
    + intros b Hb. unfold black in Hb. by rewrite lookup_empty in Hb.
    + intros x Hx. unfold grey in Hx. by rewrite lookup_empty in Hx.
  - split; [done|]. intros [x Hx]. destruct H as (v' & H1 & H2).
    + intros y Hy. rewrite Hkeys in Hy. unfold nodes. set_solver.
    + intros b Hb. unfold black in Hb. by rewrite lookup_empty in Hb.
    + intros y Hy. unfold grey in Hy. by rewrite lookup_empty in Hy.
    + assert (Hb : black v' x).
      { apply H1. left. rewrite Hkeys. apply tc_first in Hx as (y & Hxy & _). by eapply edge_key. }
      destruct (H2 x Hb). contradiction.
Qed.

(** ** Topological order *)

Section topological.
Context (ids : gset string) (acyclic : ∀ x, ¬ tc edge x x).

(** Listed and on the way, after their targets. *)
Record ordered_walk (w : Walk) : Prop := {
  ow_visited : ∀ x, x ∈ wk_order w → x ∈ wk_visited w;
  ow_listed : wk_visited w ⊆ ids;
  ow_nodup : NoDup (wk_order w);
  ow_after : ∀ l1 x l2, wk_order w = l1 ++ x :: l2 → ∀ y, edge x y → y ∈ ids → y ∈ l1
}.

Definition pending (w : Walk) (x : string) : Prop := x ∈ wk_visited w ∧ x ∉ wk_order w.

Definition extends (w w' : Walk) : Prop :=
  ordered_walk w' ∧ (∀ x, pending w' x ↔ pending w x) ∧ wk_visited w ⊆ wk_visited w' ∧
  ∀ x, x ∈ wk_order w → x ∈ wk_order w'.

Lemma extends_refl w : ordered_walk w → extends w w.
Proof using. intros Hw. split; [done|]. by split_and!. Qed.

Lemma extends_trans w1 w2 w3 : extends w1 w2 → extends w2 w3 → extends w1 w3.
Proof using.
  intros (_ & A2 & A3 & A4) (B1 & B2 & B3 & B4).
  split; [done|]. split_and!; [intros x; by rewrite B2|by etrans|by auto].
Qed.

(** The visit of [node], whose ancestors are pending. *)
Definition visits (vis : string → Walk → Walk) (bound : nat) : Prop :=
  ∀ node w, ordered_walk w → size (ids ∖ wk_visited w) < bound → (∀ x, pending w x → tc edge x node) →
    extends w (vis node w) ∧ (node ∈ ids → node ∈ wk_order (vis node w)).

Lemma walk_all_spec vis bound ns w :
  visits vis bound → ordered_walk w → size (ids ∖ wk_visited w) < bound →
  (∀ n, n ∈ ns → ∀ x, pending w x → tc edge x n) →
  extends w (walk_all vis ns w) ∧ ∀ n, n ∈ ns → n ∈ ids → n ∈ wk_order (walk_all vis ns w).
Proof using.
  intros Hvis. revert w. induction ns as [|n ns IH]; intros w Hw Hb Hp; cbn.
  { split; [by apply extends_refl|by intros n ?%elem_of_nil]. }
  destruct (Hvis n w Hw Hb (Hp n (list_elem_of_here _ _))) as [He Hn].
  change (fold_left (λ w n, vis n w) ns (vis n w)) with (walk_all vis ns (vis n w)).
  destruct (IH (vis n w)) as [He' Hns].
  - apply He.
  - destruct He as (_ & _ & Hv & _). eapply Nat.le_lt_trans; [|exact Hb]. apply subseteq_size, difference_mono_l. exact Hv.
  - intros m Hm x Hx. apply (Hp m); [by right|]. by apply He.
  - split; [by eapply extends_trans|]. intros m [->|Hm]%elem_of_cons Hi; [by apply He', Hn|by apply Hns].
Qed.

Lemma visit_spec fuel : visits (visit g ids fuel) fuel.
Proof using acyclic.
  induction fuel as [|fuel IH]; intros node w Hw Hb Hp; [lia|]. cbn [visit].
  destruct (bool_decide (node ∈ wk_visited w)) eqn:Hvis; cbn [orb].
  { apply bool_decide_eq_true in Hvis. split; [by apply extends_refl|]. intros _.
    destruct (decide (node ∈ wk_order w)) as [|Hno]; [done|]. destruct (acyclic node). by apply Hp. }
  apply bool_decide_eq_false in Hvis.
  case_bool_decide as Hids; [split; [by apply extends_refl|done]|].
  set (w0 := mkWalk ({[node]} ∪ wk_visited w) (wk_order w)).
  assert (Hw0 : ordered_walk w0).
  { destruct Hw as [W1 W2 W3 W4]. split; cbn; [set_solver|set_solver|done|done]. }
  assert (Hp0 : ∀ x, pending w0 x ↔ pending w x ∨ x = node).
  { intros x. unfold pending, w0. cbn. destruct Hw as [W1 _ _ _]. set_solver. }
  destruct (walk_all_spec _ _ (edges g node) w0 IH Hw0) as [(E1 & E2 & E3 & E4) Hall].
  { assert (size (ids ∖ wk_visited w0) < size (ids ∖ wk_visited w)); [|lia].
    apply subset_size. unfold w0. cbn. set_solver. }
  { intros n Hn x [Hx| ->]%Hp0; [|by apply tc_once]. eapply tc_r; [by apply Hp|done]. }
  set (w1 := walk_all (visit g ids fuel) (edges g node) w0) in *.
  assert (Hno : node ∉ wk_order w1) by by apply (E2 node), Hp0; right.
  split; [split; [|split_and!]|]; cbn.
  - destruct E1 as [W1 W2 W3 W4]. split; cbn.
    + intros x [Hx| ->%list_elem_of_singleton]%elem_of_app; [by apply W1|]. apply E3. unfold w0. set_solver.
    + done.
    + apply NoDup_app. split_and!; [done| |apply NoDup_singleton].
      intros x Hx ->%list_elem_of_singleton. done.
    + intros l1 x l2 E y Hxy Hy. destruct l2 as [|z l2 _] using rev_ind.
      * apply app_inj_tail in E as [<- <-]. by apply Hall.
      * rewrite app_comm_cons, app_assoc in E. apply app_inj_tail in E as [E _]. by eapply W4.
  - intros x. unfold pending at 1. cbn. rewrite not_elem_of_app, list_elem_of_singleton.
    transitivity (pending w1 x ∧ x ≠ node); [unfold pending; tauto|]. rewrite E2, Hp0.
    split; [by intros [[]]|]. intros Hx. split; [by left|]. intros ->. by destruct Hx.
  - unfold w0 in E3. cbn in E3. set_solver.
  - intros x Hx. apply elem_of_app. left. by apply E4.
  - intros _. apply elem_of_app. right. by apply list_elem_of_singleton.
Qed.
End topological.

(** Topological sorting is correct: [TopologicalSort] gives up exactly when
    there is a cycle; otherwise it lists the requested subgoals, each once and
    nothing else, and each before every requested subgoal that depends on it. *)
Theorem TopologicalSort_correct keys subgoalIDs : key_order keys →
  match TopologicalSort g keys subgoalIDs with
  | None => ∃ x, tc edge x x
  | Some order =>
      (∀ x, ¬ tc edge x x) ∧ NoDup order ∧ (∀ x, x ∈ order ↔ x ∈ subgoalIDs) ∧
      ∀ l1 x l2, order = l1 ++ x :: l2 → ∀ y, edge x y → y ∈ subgoalIDs → y ∈ l2
  end.
Proof using.
  intros Hkeys%HasCycle_correct. unfold TopologicalSort.
  destruct (HasCycle g keys) eqn:Hc; [by apply Hkeys|].
  assert (Hac : ∀ x, ¬ tc edge x x) by (intros x Hx; assert (false = true) by (apply Hkeys; by exists x); done).
  set (ids := list_to_set subgoalIDs : gset string). cbv zeta.
  assert (Hw0 : ordered_walk ids (mkWalk ∅ [])).
  { split; cbn; [by intros x ?%elem_of_nil|set_solver|constructor|]. intros l1 x l2 E. by destruct l1. }
  destruct (walk_all_spec ids _ _ subgoalIDs (mkWalk ∅ []) (visit_spec ids Hac (S (length subgoalIDs))) Hw0)
    as [([W1 W2 W3 W4] & E2 & E3 & E4) Hall].
  { cbn. pose proof (size_list_le subgoalIDs). assert (size (ids ∖ ∅) ≤ size ids) by (apply subseteq_size; set_solver).
    unfold ids in *. lia. }
  { intros n _ x [Hx _]. cbn in Hx. set_solver. }
  set (w := walk_all _ _ _) in *. split_and!; [done|by rewrite reverse_Permutation| |].
  - intros x. rewrite elem_of_reverse. split.
    + intros Hx%W1%W2. unfold ids in Hx. by apply elem_of_list_to_set in Hx.
    + intros Hx. apply Hall; [done|]. unfold ids. by apply elem_of_list_to_set.
  - intros l1 x l2 E y Hxy Hy. apply elem_of_reverse.
    apply (W4 (reverse l2) x (reverse l1)); [|done|unfold ids; by apply elem_of_list_to_set].
    rewrite <- (reverse_involutive (wk_order w)), E, reverse_app, reverse_cons. by rewrite <- app_assoc.
Qed.

(** ** Depth *)

(** [path x l]: [l] is a path that starts at [x]. *)
Inductive path : string → list string → Prop :=
| path_one x : path x [x]
| path_step x y l : edge x y → path y l → path x (x :: l).

Lemma path_head x l : path x l → ∃ l', l = x :: l'.
Proof using. destruct 1; by eexists. Qed.

Lemma path_nodes x l y : path x l → y ∈ l → y = x ∨ y ∈ nodes g.
Proof using.
  induction 1 as [x|x z l Hz _ IH]; [by intros ->%list_elem_of_singleton; left|].
  intros [->|Hy]%elem_of_cons; [by left|]. right. destruct (IH Hy) as [->|]; [by eapply edge_target|done].
Qed.

Lemma fold_max (f : string → nat) l acc :
  let m := fold_left (fun maxChild child => if bool_decide (maxChild < f child) then f child else maxChild) l acc in
  acc ≤ m ∧ (∀ c, c ∈ l → f c ≤ m) ∧ (m = acc ∨ ∃ c, c ∈ l ∧ m = f c).
Proof using.
  revert acc. induction l as [|c l IH]; intros acc; cbn.
  { split_and!; [done|by intros c ?%elem_of_nil|by left]. }
  destruct (IH (if bool_decide (acc < f c) then f c else acc)) as (H1 & H2 & H3).
  assert (Hle : acc ≤ (if bool_decide (acc < f c) then f c else acc) ∧
                f c ≤ (if bool_decide (acc < f c) then f c else acc)) by (case_bool_decide; lia).
  split_and!.
  - lia.
  - intros d [->|Hd]%elem_of_cons; [lia|by apply H2].
  - destruct H3 as [->|(d & Hd & ->)]; [|right; exists d; split; [by right|done]].
    case_bool_decide; [right; exists c; split; [by left|done]|by left].
Qed.

(** The guarded search measures the longest path that avoids [visited]. *)
Lemma depthDFS_spec fuel node visited :
  (∀ l, path node l → NoDup l → (∀ x, x ∈ l → x ∉ visited) → length l ≤ fuel) →
  let d := depthDFS g fuel node visited in
  (∀ l, path node l → NoDup l → (∀ x, x ∈ l → x ∉ visited) → length l ≤ d) ∧
  (node ∉ visited → ∃ l, path node l ∧ NoDup l ∧ (∀ x, x ∈ l → x ∉ visited) ∧ length l = d) ∧
  (node ∈ visited → d = 0).
Proof using.
  revert node visited. induction fuel as [|fuel IH]; intros node visited Hfuel; cbn [depthDFS].
  { split_and!; [done| |done]. intros Hn. exfalso.
    specialize (Hfuel [node] (path_one _) (NoDup_singleton _)). cbn in Hfuel.
    assert (1 ≤ 0); [|lia]. apply Hfuel. by intros x ->%list_elem_of_singleton. }
  case_bool_decide as Hv.
  { split_and!; [|done|done]. intros l Hl _ Hav. destruct (path_head _ _ Hl) as [l' ->]. destruct (Hav node); [by left|done]. }
  cbv zeta. set (f child := depthDFS g fuel child ({[node]} ∪ visited)).
  destruct (fold_max f (edges g node) 0) as (_ & Hmax & Hwit). fold f.
  set (m := fold_left _ (edges g node) 0) in *.
  assert (Hchild : ∀ c, edge node c →
    let d := f c in
    (∀ l, path c l → NoDup l → (∀ x, x ∈ l → x ∉ {[node]} ∪ visited) → length l ≤ d) ∧
    (c ∉ {[node]} ∪ visited → ∃ l, path c l ∧ NoDup l ∧ (∀ x, x ∈ l → x ∉ {[node]} ∪ visited) ∧ length l = d) ∧
    (c ∈ {[node]} ∪ visited → d = 0)).
  { intros c Hc. apply IH. intros l Hl Hnd Hav.
    specialize (Hfuel (node :: l) (path_step _ _ _ Hc Hl)). cbn in Hfuel.
    assert (S (length l) ≤ S fuel); [|lia]. apply Hfuel.
    - constructor; [|done]. intros Hin. apply (Hav node Hin). set_solver.
    - intros x [->|Hx]%elem_of_cons; [done|]. specialize (Hav x Hx). set_solver. }
  split_and!; [| |done].
  - intros l Hl Hnd Hav. destruct Hl as [node|node c l Hc Hl]; cbn; [lia|].
    apply NoDup_cons in Hnd as [Hno Hnd]. specialize (Hmax c Hc).
    destruct (Hchild c Hc) as (H1 & _ & _). specialize (H1 l Hl Hnd).
    assert (length l ≤ f c); [|lia]. apply H1. intros x Hx. specialize (Hav x). set_solver.
  - intros _. destruct (decide (m = 0)) as [Hz|Hz].
    + exists [node]. split_and!; [constructor|apply NoDup_singleton|by intros x ->%list_elem_of_singleton|cbn; by rewrite Hz].
    + destruct Hwit as [|(c & Hc & Hm)]; [done|]. destruct (Hchild c Hc) as (_ & H2 & H3).
      destruct (decide (c ∈ ({[node]} ∪ visited : gset string))) as [Hin|Hout]; [rewrite H3 in Hm by done; done|].
      destruct (H2 Hout) as (l & Hl & Hnd & Hav & Hlen). exists (node :: l). split_and!.
      * by eapply path_step.
      * constructor; [|done]. intros Hin. apply (Hav node Hin). set_solver.
      * intros x [->|Hx]%elem_of_cons; [done|]. specialize (Hav x Hx). set_solver.
      * cbn. by rewrite Hlen, <- Hm.
Qed.

(** [Depth] is the length of the longest dependency chain without repetition
    that starts at the subgoal, cycles or not; so [ValidateMaxDepth] accepts a
    set of subgoals exactly when none starts a chain of more than 3. *)
Theorem Depth_correct subgoalID subgoalIDs :
  (∃ l, path subgoalID l ∧ NoDup l ∧ length l = Depth g subgoalID) ∧
  (∀ l, path subgoalID l → NoDup l → length l ≤ Depth g subgoalID) ∧
  (ValidateMaxDepth g subgoalIDs = true ↔
   ∀ x l, x ∈ subgoalIDs → path x l → NoDup l → length l ≤ MaxDepth).
Proof using.
  assert (H : ∀ x, (∃ l, path x l ∧ NoDup l ∧ length l = Depth g x) ∧
                   ∀ l, path x l → NoDup l → length l ≤ Depth g x).
  { intros x. destruct (depthDFS_spec (S (graph_fuel g)) x ∅) as (H1 & H2 & _).
    - intros l Hl Hnd _. unfold graph_fuel.
      assert (Hsub : l ⊆+ x :: nodes g); [|apply submseteq_length in Hsub; cbn in Hsub; lia].
      apply NoDup_submseteq; [done|]. intros y Hy. destruct (path_nodes _ _ _ Hl Hy) as [->|]; set_solver.
    - split; [|intros l Hl Hnd; apply H1; set_solver].
      destruct (H2 ltac:(set_solver)) as (l & Hl & Hnd & _ & E). by exists l. }
  split_and!; [apply H|apply H|]. unfold ValidateMaxDepth. rewrite forallb_forall.
  setoid_rewrite <- list_elem_of_In. split.
  - intros Hall x l Hx Hl Hnd. specialize (Hall x Hx). apply negb_true_iff, bool_decide_eq_false in Hall.
    pose proof (proj2 (H x) l Hl Hnd). lia.
  - intros Hall x Hx. destruct (H x) as [(l & Hl & Hnd & E) _]. specialize (Hall x l Hx Hl Hnd).
    apply negb_true_iff, bool_decide_eq_false. lia.
Qed.
End graph.

(** ** Witnesses *)

Definition demo_deps : list GoalDependency :=
  let dep from to := mkDependency "" "" from to BinNums.Z0 in
  [dep "a" "b"; dep "a" "c"; dep "b" "d"; dep "c" "d"].

Lemma HasCycle_correct_witness :
  HasCycle (NewDependencyGraph demo_deps) ["c"; "a"; "b"] = false ∧
  ¬ ∃ x, tc (edge (NewDependencyGraph demo_deps)) x x.
Proof.
  split; [by vm_compute|]. intros H.
  assert (E : HasCycle (NewDependencyGraph demo_deps) ["c"; "a"; "b"] = true); [|by vm_compute in E].
  apply (HasCycle_correct (NewDependencyGraph demo_deps) ["c"; "a"; "b"]); [|exact H].
  unfold key_order. apply (bool_decide_unpack _). by vm_compute.
Defined.

Lemma TopologicalSort_correct_witness :
  TopologicalSort (NewDependencyGraph demo_deps) ["c"; "a"; "b"] ["d"; "c"; "b"; "a"] = Some ["a"; "b"; "c"; "d"] ∧
  ∀ y, edge (NewDependencyGraph demo_deps) "b" y → y ∈ ["d"; "c"; "b"; "a"] → y ∈ ["c"; "d"].
Proof.
  assert (E : TopologicalSort (NewDependencyGraph demo_deps) ["c"; "a"; "b"] ["d"; "c"; "b"; "a"] = Some ["a"; "b"; "c"; "d"]) by by vm_compute.
  pose proof (TopologicalSort_correct (NewDependencyGraph demo_deps) ["c"; "a"; "b"] ["d"; "c"; "b"; "a"]) as H.
  rewrite E in H. split; [exact E|].
  destruct H as (_ & _ & _ & H); [unfold key_order; apply (bool_decide_unpack _); by vm_compute|].
  by apply (H ["a"] "b" ["c"; "d"]).
Defined.
