(* ===== verification/GoalPlanning.v ===== *)
(** * Goal planning ([internal/agent/goal_planning])

    Strategic goals are decomposed into subgoals, which are activated, measured,
    completed or blocked, and for which tasks are emitted; a replanner adjusts
    strategies to feedback.  Modelled: types, decomposition, progress, planning,
    strategies, the PostgreSQL stores, the engine, the replanner and the
    adapter.  The graph of dependencies is [DependencyGraph].

    The state is the four tables; statuses are strings, as in Go, since a caller
    may ask for any.  The clock and the providers answer a reading each time;
    the receiver of tasks is the provider state. *)

From stdpp Require Import base gmap strings list tactics numbers fin_maps pretty.
From Stdlib Require Import ZArith Lia.
From S2P Require Import Prelude GoFloat GoStrconv GoSort Models GoTime AgentWorld DependencyGraph.

Open Scope Z_scope.

(** ** Types *)

Definition SubgoalNotStarted : string := "not_started".
Definition SubgoalActive : string := "active".
Definition SubgoalBlocked : string := "blocked".
Definition SubgoalCompleted : string := "completed".
Definition SubgoalFailed : string := "failed".

Definition ValidSubgoalTransitions : gmap string (list string) := list_to_map
  [(SubgoalNotStarted, [SubgoalActive]);
   (SubgoalActive, [SubgoalCompleted; SubgoalFailed; SubgoalBlocked]);
   (SubgoalBlocked, [SubgoalActive; SubgoalFailed])].

Definition ValidateSubgoalTransition (from to : string) : bool :=
  match ValidSubgoalTransitions !! from with
  | None => false
  | Some allowed => bool_decide (to ∈ allowed)
  end.

Definition PlanDraft : string := "draft".
Definition PlanActive : string := "active".
Definition PlanReplanning : string := "replanning".
Definition PlanCompleted : string := "completed".
Definition PlanAbandoned : string := "abandoned".

Definition ValidPlanTransitions : gmap string (list string) := list_to_map
  [(PlanDraft, [PlanActive]);
   (PlanActive, [PlanCompleted; PlanAbandoned; PlanReplanning]);
   (PlanReplanning, [PlanActive; PlanAbandoned])].

Definition ValidatePlanTransition (from to : string) : bool :=
  match ValidPlanTransitions !! from with
  | None => false
  | Some allowed => bool_decide (to ∈ allowed)
  end.

Definition StrategyExploitSuccess : string := "exploit_success_path".
Definition StrategyReduceFailure : string := "reduce_failure_path".
Definition StrategyDiversify : string := "diversify_attempts".
Definition StrategyDeferHighRisk : string := "defer_high_risk".

Definition TriggerExecFailure : string := "execution_failure".
Definition TriggerRepeatedFailure : string := "repeated_failure".
Definition TriggerReinforcement : string := "positive_reinforcement".
Definition TriggerObjectivePenalty : string := "objective_penalty".

Definition HorizonContinuous : string := "continuous".
Definition HorizonDays : gmap string Z := list_to_map
  [("short", 1); ("medium", 7); ("long", 30); ("daily", 1); ("weekly", 7); ("monthly", 30);
   (HorizonContinuous, 90)].

Definition MaxSubgoalsPerGoal : nat := 5.
Definition MaxActiveSubgoals : Z := 12.
Definition MaxTasksPerPlan : nat := 10.
Definition ProgressStaleHours : Z := 24.
Definition MinProgressToComplete : float64 := lit 90 100.
Definition BlockedProgressThreshold : float64 := lit 10 100.
Definition TaskEmissionCooldownMinutes : Z := 30.
Definition PlanWeightUrgency : float64 := lit 35 100.
Definition PlanWeightGoalPriority : float64 := lit 35 100.
Definition PlanWeightProgressGap : float64 := lit 30 100.
Definition RepeatedFailureThreshold : Z := 3.
Definition SuccessReinforcementBoost : float64 := lit 10 100.
Definition MinusObjectivePenaltyThreshold : float64 := lit (-5) 100.

Record GoalPlan := mkGoalPlan {
  pn_ID : string;
  pn_GoalID : string;
  pn_Version : Z;
  pn_Horizon : string;
  pn_Strategy : string;
  pn_Status : string;
  pn_ExpectedUtility : float64;
  pn_RiskEstimate : float64;
  pn_ReplanCount : Z;
  pn_LastReplanAt : time;
  pn_CreatedAt : time;
  pn_UpdatedAt : time
}.

#[export] Instance GoalPlan_settable : Settable GoalPlan := fun r =>
  mkGoalPlan (pn_ID r) (pn_GoalID r) (pn_Version r) (pn_Horizon r) (pn_Strategy r) (pn_Status r)
    (pn_ExpectedUtility r) (pn_RiskEstimate r) (pn_ReplanCount r) (pn_LastReplanAt r)
    (pn_CreatedAt r) (pn_UpdatedAt r).

Record Subgoal := mkSubgoal {
  sg_ID : string;
  sg_GoalID : string;
  sg_PlanID : string;
  sg_Title : string;
  sg_Description : string;
  sg_Status : string;
  sg_ProgressScore : float64;
  sg_TargetMetric : string;
  sg_TargetValue : float64;
  sg_CurrentValue : float64;
  sg_PreferredAction : string;
  sg_Horizon : string;
  sg_Priority : float64;
  sg_DependsOn : string;
  sg_BlockReason : string;
  sg_Strategy : string;
  sg_FailureCount : Z;
  sg_SuccessCount : Z;
  sg_LastTaskEmitted : time;
  sg_CreatedAt : time;
  sg_UpdatedAt : time
}.

#[export] Instance Subgoal_settable : Settable Subgoal := fun r =>
  mkSubgoal (sg_ID r) (sg_GoalID r) (sg_PlanID r) (sg_Title r) (sg_Description r) (sg_Status r)
    (sg_ProgressScore r) (sg_TargetMetric r) (sg_TargetValue r) (sg_CurrentValue r)
    (sg_PreferredAction r) (sg_Horizon r) (sg_Priority r) (sg_DependsOn r) (sg_BlockReason r)
    (sg_Strategy r) (sg_FailureCount r) (sg_SuccessCount r) (sg_LastTaskEmitted r)
    (sg_CreatedAt r) (sg_UpdatedAt r).

(** [Subgoal{}] *)
Definition zero_subgoal : Subgoal :=
  mkSubgoal "" "" "" "" "" "" f0 "" f0 f0 "" "" f0 "" "" "" 0 0 zero_time zero_time zero_time.

Record GoalProgress := mkProgress {
  gr_ID : string;
  gr_SubgoalID : string;
  gr_GoalID : string;
  gr_MetricName : string;
  gr_MetricValue : float64;
  gr_ProgressPct : float64;
  gr_MeasuredAt : time
}.

#[export] Instance GoalProgress_settable : Settable GoalProgress := fun r =>
  mkProgress (gr_ID r) (gr_SubgoalID r) (gr_GoalID r) (gr_MetricName r) (gr_MetricValue r)
    (gr_ProgressPct r) (gr_MeasuredAt r).

Record GoalPlanSummary := mkSummary {
  su_GoalID : string;
  su_GoalType : string;
  su_GoalPriority : float64;
  su_Horizon : string;
  su_TotalSubgoals : Z;
  su_ActiveSubgoals : Z;
  su_CompletedSubgoals : Z;
  su_BlockedSubgoals : Z;
  su_OverallProgress : float64;
  su_UpdatedAt : time
}.

Record TaskEmission := mkEmission {
  em_SubgoalID : string;
  em_GoalID : string;
  em_ActionType : string;
  em_Urgency : float64;
  em_ExpectedValue : float64;
  em_RiskLevel : float64;
  em_StrategyType : string;
  em_Priority : float64
}.

#[export] Instance TaskEmission_settable : Settable TaskEmission := fun r =>
  mkEmission (em_SubgoalID r) (em_GoalID r) (em_ActionType r) (em_Urgency r) (em_ExpectedValue r)
    (em_RiskLevel r) (em_StrategyType r) (em_Priority r).

Record SubgoalTemplate := mkTemplate {
  tp_TitlePattern : string;
  tp_TargetMetric : string;
  tp_TargetValue : float64;
  tp_PreferredAction : string;
  tp_PriorityOffset : float64
}.

Record ReflectionSignalInput := mkReflectionSignal {
  rs_SignalType : string;
  rs_Strength : float64;
  rs_GoalID : string
}.

(** [goals.Metric] and [goals.SystemGoal], without the fields planning ignores. *)
Record Metric := mkMetric { mt_Name : string; mt_Target : string }.
Record SystemGoal := mkSystemGoal {
  sy_ID : string;
  sy_Type : string;
  sy_Priority : float64;
  sy_Horizon : string;
  sy_SuccessMetrics : list Metric
}.

(** ** Progress *)

Definition MeasureProgress (sg : Subgoal) : float64 :=
  if fleb (sg_TargetValue sg) f0 then
    if fleb (sg_CurrentValue sg) f0 then f1
    else fclamp01 (fsub f1 (fdiv (sg_CurrentValue sg) (f_of_Z 5)))
  else fclamp01 (fdiv (sg_CurrentValue sg) (sg_TargetValue sg)).

Definition IsStale (sg : Subgoal) (now : time) : bool :=
  fltb (f_of_Z ProgressStaleHours) (dur_in Hour (time_Sub now (sg_UpdatedAt sg))).

Definition ShouldAutoComplete (sg : Subgoal) : bool :=
  bool_decide (sg_Status sg = SubgoalActive) && fleb MinProgressToComplete (sg_ProgressScore sg).

Definition ShouldBlock (sg : Subgoal) (now : time) : bool :=
  bool_decide (sg_Status sg = SubgoalActive) &&
  (IsStale sg now && fltb (sg_ProgressScore sg) BlockedProgressThreshold).

Definition IsDependencyMet (sg : Subgoal) (allSubgoals : list Subgoal) : bool :=
  if bool_decide (sg_DependsOn sg = "") then true
  else match List.find (fun dep => bool_decide (sg_ID dep = sg_DependsOn sg)) allSubgoals with
       | Some dep => bool_decide (sg_Status dep = SubgoalCompleted)
       | None => false
       end.

Definition ComputeOverallProgress (subgoals : list Subgoal) : float64 :=
  match subgoals with
  | [] => f0
  | _ =>
      let weight sg := if fleb (sg_Priority sg) f0 then lit 1 10 else sg_Priority sg in
      let totalWeight := fold_left (fun t sg => fadd t (weight sg)) subgoals f0 in
      let weightedProgress :=
        fold_left (fun t sg => fadd t (fmul (weight sg) (sg_ProgressScore sg))) subgoals f0 in
      if feqb totalWeight f0 then f0 else fclamp01 (fdiv weightedProgress totalWeight)
  end.

Definition ComputeTaskUrgency (sg : Subgoal) (now : time) : float64 :=
  let horizonDays := default 90 (HorizonDays !! sg_Horizon sg) in
  let elapsed := fdiv (dur_in Hour (time_Sub now (sg_CreatedAt sg))) (f_of_Z 24) in
  let timePressure := fclamp01 (fdiv elapsed (f_of_Z horizonDays)) in
  let progressGap := fclamp01 (fsub f1 (sg_ProgressScore sg)) in
  fclamp01 (fadd (fmul timePressure (lit 50 100)) (fmul progressGap (lit 50 100))).

Definition ComputeTaskPriority (urgency goalPriority progressScore : float64) : float64 :=
  let progressGap := fclamp01 (fsub f1 progressScore) in
  fclamp01 (fadd (fadd (fmul urgency PlanWeightUrgency) (fmul goalPriority PlanWeightGoalPriority))
                 (fmul progressGap PlanWeightProgressGap)).

(** ** Planning *)

Definition emission_before (x y : TaskEmission) : bool :=
  fltb (em_Priority y) (em_Priority x) ||
  (feqb (em_Priority x) (em_Priority y) && String.ltb (em_SubgoalID x) (em_SubgoalID y)).

(** Insertion by exchanges of neighbours. *)
Definition sortEmissions (emissions : list TaskEmission) : list TaskEmission :=
  insertionSort emission_before emissions.

Definition in_cooldown (sg : Subgoal) (now : time) : bool :=
  bool_decide (sg_LastTaskEmitted sg ≠ zero_time) &&
  fltb (dur_in Minute (time_Sub now (sg_LastTaskEmitted sg))) (f_of_Z TaskEmissionCooldownMinutes).

(** The guards of the loop of [PlanTasks]. *)
Definition needs_task (subgoals : list Subgoal) (now : time) (sg : Subgoal) : bool :=
  bool_decide (sg_Status sg = SubgoalActive) &&
  negb (fleb MinProgressToComplete (sg_ProgressScore sg)) &&
  negb (in_cooldown sg now) && IsDependencyMet sg subgoals.

Definition emission_for (now : time) (sg : Subgoal) : TaskEmission :=
  let urgency := ComputeTaskUrgency sg now in
  mkEmission (sg_ID sg) (sg_GoalID sg) (sg_PreferredAction sg) urgency
    (fclamp01 (fmul (sg_Priority sg) (lit 80 100)))
    (fclamp01 (fmul (fsub f1 (sg_ProgressScore sg)) (lit 30 100)))
    (sg_GoalID sg)
    (ComputeTaskPriority urgency (sg_Priority sg) (sg_ProgressScore sg)).

Definition PlanTasks (subgoals : list Subgoal) (now : time) : list TaskEmission :=
  sortEmissions (map (emission_for now) (List.filter (needs_task subgoals now) subgoals)).

(** ** Strategies *)

Definition SelectStrategyWithVector (sg : Subgoal) (objectiveDelta explorationLevel riskTolerance : float64)
    : string :=
  let deferThreshold :=
    if fltb f0 riskTolerance
    then fmul MinusObjectivePenaltyThreshold
           (fadd f1 (fmul (fsub riskTolerance (lit 30 100)) (lit 60 100)))
    else MinusObjectivePenaltyThreshold in
  if fltb objectiveDelta deferThreshold then StrategyDeferHighRisk
  else if bool_decide (RepeatedFailureThreshold ≤ sg_FailureCount sg) then StrategyReduceFailure
  else if bool_decide (0 < sg_FailureCount sg) && bool_decide (0 < sg_SuccessCount sg) then StrategyDiversify
  else if fltb (lit 50 100) explorationLevel && bool_decide (sg_SuccessCount sg ≤ 1) then StrategyDiversify
  else StrategyExploitSuccess.

Definition SelectStrategy (sg : Subgoal) (objectiveDelta : float64) : string :=
  SelectStrategyWithVector sg objectiveDelta f0 f0.

Definition ApplyStrategyToEmission (em : TaskEmission) (strategy : string) : TaskEmission :=
  let em :=
    if bool_decide (strategy = StrategyDeferHighRisk) then
      em <| em_Priority := fclamp01 (fmul (em_Priority em) (lit 60 100)) |>
         <| em_RiskLevel := fclamp01 (fadd (em_RiskLevel em) (lit 20 100)) |>
    else if bool_decide (strategy = StrategyReduceFailure) then
      em <| em_ExpectedValue := fclamp01 (fmul (em_ExpectedValue em) (lit 70 100)) |>
    else if bool_decide (strategy = StrategyDiversify) then
      em <| em_RiskLevel := fclamp01 (fadd (em_RiskLevel em) (lit 10 100)) |>
    else if bool_decide (strategy = StrategyExploitSuccess) then
      em <| em_Priority := fclamp01 (fadd (em_Priority em) SuccessReinforcementBoost) |>
    else em in
  em <| em_StrategyType := strategy |>.

(** [None] stands for [(false, "")]. *)
Definition ShouldReplan (sg : Subgoal) (objectiveDelta : float64) : option string :=
  if fltb objectiveDelta MinusObjectivePenaltyThreshold then Some TriggerObjectivePenalty
  else if bool_decide (RepeatedFailureThreshold ≤ sg_FailureCount sg) then Some TriggerRepeatedFailure
  else if bool_decide (0 < sg_FailureCount sg) && bool_decide (sg_SuccessCount sg = 0) then
    Some TriggerExecFailure
  else if bool_decide (3 ≤ sg_SuccessCount sg) && bool_decide (sg_FailureCount sg = 0) then
    Some TriggerReinforcement
  else None.

(** ** Decomposition *)

Definition DefaultDecompositionRules : gmap string (list SubgoalTemplate) := list_to_map
  [("safety",
     [mkTemplate "Protect family time blocks" "blocked_hours_today" (f_of_Z 4) "schedule_work" f0;
      mkTemplate "Maintain governance constraints" "governance_violations" f0 "log_recommendation"
        (lit (-5) 100)]);
   ("income",
     [mkTemplate "Pursue high-value opportunities" "verified_monthly_income" (f_of_Z 13000)
        "analyze_opportunity" f0;
      mkTemplate "Convert pipeline to revenue" "pipeline_conversion_rate" (lit 30 100)
        "propose_income_action" (lit (-5) 100);
      mkTemplate "Schedule revenue-generating work" "scheduled_revenue_hours" (f_of_Z 20)
        "schedule_work" (lit (-10) 100)]);
   ("efficiency",
     [mkTemplate "Reduce owner cognitive load" "owner_load_score" (lit 50 100) "prioritize_tasks" f0;
      mkTemplate "Automate repetitive tasks" "automation_candidate_count" f0 "create_task"
        (lit (-5) 100)]);
   ("operational",
     [mkTemplate "Maintain system uptime" "failure_rate" (lit 5 100) "retry_job" f0;
      mkTemplate "Clear processing backlog" "queued_jobs" (f_of_Z 10) "trigger_resync" (lit (-5) 100)]);
   ("learning",
     [mkTemplate "Record and learn from outcomes" "outcomes_recorded" (f_of_Z 10) "record_outcome" f0;
      mkTemplate "Update strategy based on feedback" "strategy_adjustments" (f_of_Z 3)
        "adjust_strategy" (lit (-10) 100)]);
   ("evolution",
     [mkTemplate "Identify improvement candidates" "improvement_candidates" (f_of_Z 3)
        "log_recommendation" f0])].

Definition valid_horizon (h : string) : string :=
  match HorizonDays !! h with Some _ => h | None => HorizonContinuous end.

(** The first metric of that name decides, if its target is a number. *)
Definition target_value (goal : SystemGoal) (tmpl : SubgoalTemplate) : float64 :=
  match List.find (fun m => bool_decide (mt_Name m = tp_TargetMetric tmpl)) (sy_SuccessMetrics goal) with
  | Some m => default (tp_TargetValue tmpl) (ParseFloat (mt_Target m))
  | None => tp_TargetValue tmpl
  end.

Definition subgoal_id `{UuidSHA1} (goalID : string) (i : nat) : string :=
  uuid_NewSHA1 (goalID +:+ ":" +:+ pretty i).

Definition subgoal_of `{UuidSHA1} (goal : SystemGoal) (now : time) (i : nat) (tmpl : SubgoalTemplate)
    : Subgoal :=
  mkSubgoal (subgoal_id (sy_ID goal) i) (sy_ID goal) "" (tp_TitlePattern tmpl)
    ("Subgoal for " +:+ sy_ID goal +:+ ": " +:+ tp_TitlePattern tmpl)
    SubgoalNotStarted f0 (tp_TargetMetric tmpl) (target_value goal tmpl) f0 (tp_PreferredAction tmpl)
    (valid_horizon (sy_Horizon goal)) (fclamp01 (fadd (sy_Priority goal) (tp_PriorityOffset tmpl)))
    "" "" "" 0 0 zero_time now now.

(** The reading of the clock is an argument. *)
Definition DecomposeGoal `{UuidSHA1} (goal : SystemGoal) (rules : gmap string (list SubgoalTemplate))
    (now : time) : list Subgoal :=
  match rules !! sy_Type goal with
  | None => []
  | Some templates => imap (subgoal_of goal now) (take MaxSubgoalsPerGoal templates)
  end.

(** ** Tables *)

Record GPDB := mkGPDB {
  gp_subgoals : gmap string Subgoal;
  gp_progress : gmap string GoalProgress;
  gp_plans : gmap string GoalPlan;
  gp_deps : gmap string GoalDependency
}.

#[export] Instance GPDB_settable : Settable GPDB := fun r =>
  mkGPDB (gp_subgoals r) (gp_progress r) (gp_plans r) (gp_deps r).

Definition stored_subgoal (sg : Subgoal) : Subgoal :=
  sg <| sg_LastTaskEmitted := trunc_us (sg_LastTaskEmitted sg) |>
     <| sg_CreatedAt := trunc_us (sg_CreatedAt sg) |> <| sg_UpdatedAt := trunc_us (sg_UpdatedAt sg) |>.

Definition stored_plan (p : GoalPlan) : GoalPlan :=
  p <| pn_LastReplanAt := trunc_us (pn_LastReplanAt p) |>
    <| pn_CreatedAt := trunc_us (pn_CreatedAt p) |> <| pn_UpdatedAt := trunc_us (pn_UpdatedAt p) |>.

Definition insert_subgoal (sg : Subgoal) (db : GPDB) : res (unit * GPDB) :=
  if negb (in_int4 (sg_FailureCount sg) && in_int4 (sg_SuccessCount sg)) then Err ErrOutOfRange
  else match gp_subgoals db !! sg_ID sg with
       | Some _ => Err ErrDuplicateKey
       | None => Ok (tt, db <| gp_subgoals := <[sg_ID sg := stored_subgoal sg]> (gp_subgoals db) |>)
       end.

(** [UPDATE ... WHERE id = $1]: no row is not an error. *)
Definition update_subgoal (id : string) (f : Subgoal → Subgoal) (db : GPDB) : res (unit * GPDB) :=
  Ok (tt, db <| gp_subgoals := alter f id (gp_subgoals db) |>).

Definition insert_progress (p : GoalProgress) (db : GPDB) : res (unit * GPDB) :=
  match gp_progress db !! gr_ID p, gp_subgoals db !! gr_SubgoalID p with
  | Some _, _ => Err ErrDuplicateKey
  | None, None => Err ErrForeignKey
  | None, Some _ =>
      Ok (tt, db <| gp_progress := <[gr_ID p := p <| gr_MeasuredAt := trunc_us (gr_MeasuredAt p) |>]>
                                     (gp_progress db) |>)
  end.

Definition insert_plan (p : GoalPlan) (db : GPDB) : res (unit * GPDB) :=
  if negb (in_int4 (pn_Version p) && in_int4 (pn_ReplanCount p)) then Err ErrOutOfRange
  else match gp_plans db !! pn_ID p with
       | Some _ => Err ErrDuplicateKey
       | None => Ok (tt, db <| gp_plans := <[pn_ID p := stored_plan p]> (gp_plans db) |>)
       end.

(** An update that may leave the range of a counter. *)
Definition update_plan (id : string) (f : GoalPlan → GoalPlan) (db : GPDB) : res (unit * GPDB) :=
  match gp_plans db !! id with
  | None => Ok (tt, db)
  | Some p =>
      if in_int4 (pn_Version (f p)) && in_int4 (pn_ReplanCount (f p))
      then Ok (tt, db <| gp_plans := <[id := f p]> (gp_plans db) |>) else Err ErrOutOfRange
  end.

Definition insert_dependency (d : GoalDependency) (db : GPDB) : res (unit * GPDB) :=
  match gp_deps db !! gd_ID d, gp_plans db !! gd_PlanID d with
  | Some _, _ => Err ErrDuplicateKey
  | None, None => Err ErrForeignKey
  | None, Some _ =>
      Ok (tt, db <| gp_deps := <[gd_ID d := mkDependency (gd_ID d) (gd_PlanID d) (gd_FromSubgoalID d)
                                              (gd_ToSubgoalID d) (trunc_us (gd_CreatedAt d))]>
                                 (gp_deps db) |>)
  end.

(** [ORDER BY priority DESC, created_at ASC] *)
Definition subgoal_before (x y : Subgoal) : bool :=
  pg_flt (sg_Priority y) (sg_Priority x) ||
  negb (pg_flt (sg_Priority x) (sg_Priority y)) && bool_decide (sg_CreatedAt x < sg_CreatedAt y).

Definition subgoals_where (P : Subgoal → bool) (db : GPDB) : list Subgoal :=
  SliceStable subgoal_before (List.filter P (map_to_list (gp_subgoals db)).*2).

(** ** Providers *)

Record VectorProvider := mkVectorProvider {
  vp_GetIncomePriority : nat → float64;
  vp_GetExplorationLevel : nat → float64;
  vp_GetRiskTolerance : nat → float64
}.

Record Replanner := mkReplanner {
  rp_clock : nat → time;
  rp_plans : bool;                                              (* planStore != nil *)
  rp_auditor : bool;
  rp_objective : option (nat → float64);                        (* GetNetUtility *)
  rp_execFeedback : option (nat → string → Z * Z * Z);          (* GetFeedbackForGoal *)
  rp_range : list string → list string;                         (* of the map of goal ids *)
  rp_reflection : option (nat → list ReflectionSignalInput)
}.

Abbreviation Emit X :=
  (string → string → string → float64 → float64 → float64 → string → St X (option error)).

Record GoalEngine (X : Type) := mkGoalEngine {
  ge_clock : nat → time;
  ge_auditor : bool;
  ge_rules : gmap string (list SubgoalTemplate);
  ge_plans : bool;                                              (* planStore != nil *)
  ge_deps : bool;                                               (* depStore != nil *)
  ge_objective : option (nat → float64);
  ge_vector : option VectorProvider;
  ge_emitter : option (Emit X);
  ge_replanner : option Replanner
}.
Arguments mkGoalEngine {X}.
Arguments ge_clock {X}.
Arguments ge_auditor {X}.
Arguments ge_rules {X}.
Arguments ge_plans {X}.
Arguments ge_deps {X}.
Arguments ge_objective {X}.
Arguments ge_vector {X}.
Arguments ge_emitter {X}.
Arguments ge_replanner {X}.

(** ** Stores *)

Section stores.
Context {X : Type} (clock : nat → time).
Abbreviation GP A := (St (Agent GPDB X) A).

Definition SubgoalStore_Insert (sg : Subgoal) : GP (option error) := exec (insert_subgoal sg).

Definition SubgoalStore_Get (id : string) : GP (res Subgoal) :=
  let! r := statement (fun db => Ok (gp_subgoals db !! id, db)) in
  retS match r with
       | Ok (Some sg) => Ok sg
       | Ok None => Err ErrNoRows
       | Err e => Err e
       end.

Definition SubgoalStore_UpdateStatus (id status blockReason : string) : GP (option error) :=
  exec_now clock (fun now => update_subgoal id (fun sg =>
    sg <| sg_Status := status |> <| sg_BlockReason := blockReason |> <| sg_UpdatedAt := trunc_us now |>)).

Definition SubgoalStore_UpdateProgress (id : string) (progressScore currentValue : float64)
    : GP (option error) :=
  exec_now clock (fun now => update_subgoal id (fun sg =>
    sg <| sg_ProgressScore := progressScore |> <| sg_CurrentValue := currentValue |>
       <| sg_UpdatedAt := trunc_us now |>)).

Definition SubgoalStore_UpdateLastTaskEmitted (id : string) (t : time) : GP (option error) :=
  exec_now clock (fun now => update_subgoal id (fun sg =>
    sg <| sg_LastTaskEmitted := trunc_us t |> <| sg_UpdatedAt := trunc_us now |>)).

Definition SubgoalStore_UpdateStrategy (id strategy : string) (failureCount successCount : Z)
    : GP (option error) :=
  exec_now clock (fun now db =>
    if negb (in_int4 failureCount && in_int4 successCount) then Err ErrOutOfRange
    else update_subgoal id (fun sg =>
      sg <| sg_Strategy := strategy |> <| sg_FailureCount := failureCount |>
         <| sg_SuccessCount := successCount |> <| sg_UpdatedAt := trunc_us now |>) db).

Definition listWhere (P : Subgoal → bool) : GP (res (list Subgoal)) :=
  statement (fun db => Ok (subgoals_where P db, db)).

Definition SubgoalStore_ListByGoal (goalID : string) : GP (res (list Subgoal)) :=
  listWhere (fun sg => bool_decide (sg_GoalID sg = goalID)).
Definition SubgoalStore_ListByPlan (planID : string) : GP (res (list Subgoal)) :=
  listWhere (fun sg => bool_decide (sg_PlanID sg = planID)).
Definition SubgoalStore_ListActive : GP (res (list Subgoal)) :=
  listWhere (fun sg => bool_decide (sg_Status sg = SubgoalActive)).
Definition SubgoalStore_ListAll : GP (res (list Subgoal)) := listWhere (fun _ => true).

Definition ProgressStore_Insert (p : GoalProgress) : GP (option error) := exec (insert_progress p).

Definition progress_newest (rows : list GoalProgress) : list GoalProgress :=
  SliceStable (fun x y => bool_decide (gr_MeasuredAt y < gr_MeasuredAt x)) rows.

Definition ProgressStore_LatestForSubgoal (subgoalID : string) : GP (res GoalProgress) :=
  let! r := statement (fun db => Ok (progress_newest (List.filter (fun p =>
    bool_decide (gr_SubgoalID p = subgoalID)) (map_to_list (gp_progress db)).*2), db)) in
  retS match r with
       | Ok (p :: _) => Ok p
       | Ok [] => Err ErrNoRows
       | Err e => Err e
       end.

Definition ProgressStore_ListByGoal (goalID : string) : GP (res (list GoalProgress)) :=
  statement (fun db => Ok (progress_newest (List.filter (fun p =>
    bool_decide (gr_GoalID p = goalID)) (map_to_list (gp_progress db)).*2), db)).

Definition PlanStore_Insert (p : GoalPlan) : GP (option error) := exec (insert_plan p).

Definition PlanStore_Get (id : string) : GP (res GoalPlan) :=
  let! r := statement (fun db => Ok (gp_plans db !! id, db)) in
  retS match r with
       | Ok (Some p) => Ok p
       | Ok None => Err ErrNoRows
       | Err e => Err e
       end.

Definition PlanStore_GetByGoal (goalID : string) : GP (res GoalPlan) :=
  let! r := statement (fun db =>
    Ok (SliceStable (fun x y => bool_decide (pn_Version y < pn_Version x))
          (List.filter (fun p => bool_decide (pn_GoalID p = goalID)) (map_to_list (gp_plans db)).*2), db)) in
  retS match r with
       | Ok (p :: _) => Ok p
       | Ok [] => Err ErrNoRows
       | Err e => Err e
       end.

Definition PlanStore_UpdateStatus (id status : string) : GP (option error) :=
  exec_now clock (fun now => update_plan id (fun p =>
    p <| pn_Status := status |> <| pn_UpdatedAt := trunc_us now |>)).

Definition PlanStore_IncrementVersion (id : string) : GP (option error) :=
  exec_now clock (fun now => update_plan id (fun p =>
    p <| pn_Version := pn_Version p + 1 |> <| pn_UpdatedAt := trunc_us now |>)).

Definition PlanStore_IncrementReplanCount (id : string) : GP (option error) :=
  exec_now clock (fun now => update_plan id (fun p =>
    p <| pn_ReplanCount := pn_ReplanCount p + 1 |> <| pn_LastReplanAt := trunc_us now |>
      <| pn_UpdatedAt := trunc_us now |>)).

Definition PlanStore_ListAll : GP (res (list GoalPlan)) :=
  statement (fun db =>
    Ok (SliceStable (fun x y => bool_decide (pn_CreatedAt y < pn_CreatedAt x))
          (map_to_list (gp_plans db)).*2, db)).

Definition DependencyStore_Insert (d : GoalDependency) : GP (option error) := exec (insert_dependency d).

Definition DependencyStore_ListByPlan (planID : string) : GP (res (list GoalDependency)) :=
  statement (fun db => Ok (List.filter (fun d => bool_decide (gd_PlanID d = planID))
                             (map_to_list (gp_deps db)).*2, db)).

Definition DependencyStore_DeleteByPlan (planID : string) : GP (option error) :=
  exec (fun db => Ok (tt, db <| gp_deps := filter (fun '(_, d) => gd_PlanID d ≠ planID) (gp_deps db) |>)).
End stores.

(** ** Replanner *)

Section replanner.
Context {X : Type} (rp : Replanner).
Abbreviation GP A := (St (Agent GPDB X) A).

Definition rp_audit (eventType entity : string) : GP unit := record_audit (rp_auditor rp) eventType entity.

Definition applyReflectionSignal (sg : Subgoal) (sig : ReflectionSignalInput) : Subgoal :=
  if bool_decide (rs_SignalType sig = "execution_failure") || bool_decide (rs_SignalType sig = "repeated_failure")
  then sg <| sg_FailureCount := wrap64 (sg_FailureCount sg + 1) |>
  else if bool_decide (rs_SignalType sig = "positive_reinforcement")
  then sg <| sg_SuccessCount := wrap64 (sg_SuccessCount sg + 1) |>
  else sg.

(** The writes of [replanSubgoal] for its trigger. *)
Definition replan_writes (sg : Subgoal) (trigger newStrategy : string) : GP (option error) :=
  let update strategy := SubgoalStore_UpdateStrategy (rp_clock rp) (sg_ID sg) strategy
                           (sg_FailureCount sg) (sg_SuccessCount sg) in
  if bool_decide (trigger = TriggerExecFailure) then update newStrategy
  else if bool_decide (trigger = TriggerRepeatedFailure) then
    let! err := if bool_decide (sg_Status sg = SubgoalActive)
                then SubgoalStore_UpdateStatus (rp_clock rp) (sg_ID sg) SubgoalBlocked "repeated failures"
                else retS None in
    match err with
    | Some e => retS (Some e)
    | None => update newStrategy
    end
  else if bool_decide (trigger = TriggerReinforcement) then update StrategyExploitSuccess
  else if bool_decide (trigger = TriggerObjectivePenalty) then update StrategyDeferHighRisk
  else retS None.

Definition replanSubgoal (sg : Subgoal) (trigger : string) (objectiveDelta : float64) : GP (option error) :=
  let newStrategy := SelectStrategy sg objectiveDelta in
  let! err := replan_writes sg trigger newStrategy in
  match err with
  | Some e => retS (Some e)
  | None =>
      let! _ := if bool_decide (sg_PlanID sg ≠ "") && rp_plans rp
                then dropped (PlanStore_IncrementReplanCount (rp_clock rp) (sg_PlanID sg)) else retS tt in
      let! _ := rp_audit "goal_planning.subgoal_replanned" (sg_ID sg) in
      retS None
  end.

(** The subgoal with the feedback on its goal. *)
Definition with_feedback (feedback : gmap string (Z * Z * Z)) (signals : list ReflectionSignalInput)
    (sg : Subgoal) : Subgoal :=
  let sg := match feedback !! sg_GoalID sg with
            | Some (s, f, _) => sg <| sg_FailureCount := f |> <| sg_SuccessCount := s |>
            | None => sg
            end in
  fold_left (fun sg sig => if bool_decide (rs_GoalID sig = sg_GoalID sg) then applyReflectionSignal sg sig else sg)
    signals sg.

(** The loop of [RunReplanCycle]. *)
Fixpoint replan_all (feedback : gmap string (Z * Z * Z)) (signals : list ReflectionSignalInput)
    (objectiveDelta : float64) (all : list Subgoal) (replanned : Z) : GP Z :=
  match all with
  | [] => retS replanned
  | sg :: rest =>
      let continue := replan_all feedback signals objectiveDelta rest in
      if negb (bool_decide (sg_Status sg = SubgoalActive) || bool_decide (sg_Status sg = SubgoalBlocked))
      then continue replanned
      else
        let sg := with_feedback feedback signals sg in
        match ShouldReplan sg objectiveDelta with
        | None => continue replanned
        | Some trigger =>
            let! err := replanSubgoal sg trigger objectiveDelta in
            match err with
            | Some _ => continue replanned
            | None => continue (replanned + 1)
            end
        end
  end.

(** Feedback on each goal, in the order of a range over a map. *)
Fixpoint gather_feedback (ask : nat → string → Z * Z * Z) (goalIDs : list string) (m : gmap string (Z * Z * Z))
    : GP (gmap string (Z * Z * Z)) :=
  match goalIDs with
  | [] => retS m
  | gid :: rest => let! f := reading (fun n => ask n gid) in gather_feedback ask rest (<[gid := f]> m)
  end.

(** [GetNetUtility() - 0.50], or 0 without a provider. *)
Definition objective_delta (objective : option (nat → float64)) : GP float64 :=
  match objective with
  | None => retS f0
  | Some ask => let! u := reading ask in retS (fsub u (lit 50 100))
  end.

Definition RunReplanCycle : GP (Z * option error) :=
  let! rows := SubgoalStore_ListAll in
  match rows with
  | Err err => retS (0, Some (wrap "list subgoals: " err))
  | Ok all =>
      let! objectiveDelta := objective_delta (rp_objective rp) in
      let! feedback := match rp_execFeedback rp with
                       | None => retS ∅
                       | Some ask => gather_feedback ask
                           (rp_range rp (elements (list_to_set (map sg_GoalID all) : gset string))) ∅
                       end in
      let! signals := match rp_reflection rp with
                      | None => retS []
                      | Some ask => reading ask
                      end in
      let! _ := reading (rp_clock rp) in
      let! replanned := replan_all feedback signals objectiveDelta all 0 in
      let! _ := rp_audit "goal_planning.replan_completed" "" in
      retS (replanned, None)
  end.
End replanner.

(** ** Engine *)

Section engine.
Context {U : UuidPkg} {H : UuidSHA1} {X : Type} (e : GoalEngine X).
Abbreviation GP A := (St (Agent GPDB X) A).

Definition ge_now : GP time := reading (ge_clock e).
Definition goal_audit (eventType entity : string) : GP unit := record_audit (ge_auditor e) eventType entity.

(** The plan [DecomposeGoals] makes for a goal. *)
Definition plan_for (goal : SystemGoal) (planID : string) (now : time) : GoalPlan :=
  mkGoalPlan planID (sy_ID goal) 1 (valid_horizon (sy_Horizon goal)) StrategyExploitSuccess PlanActive
    (fclamp01 (fmul (sy_Priority goal) (lit 80 100)))
    (fclamp01 (fmul (fsub f1 (sy_Priority goal)) (lit 30 100))) 0 zero_time now now.

(** Insert the subgoals of one goal, each after the first with a dependency on
    its predecessor. *)
Fixpoint insert_subgoals (planID : string) (prev : option string) (subgoals : list Subgoal) (created : Z)
    : GP (Z * option error) :=
  match subgoals with
  | [] => retS (created, None)
  | sg :: rest =>
      let sg := sg <| sg_PlanID := planID |> <| sg_Strategy := StrategyExploitSuccess |> in
      let! err := SubgoalStore_Insert sg in
      match err with
      | Some err => retS (created, Some (wrap ("insert subgoal " +:+ sg_ID sg +:+ ": ") err))
      | None =>
          let! _ := match prev with
                    | Some before =>
                        if ge_deps e && bool_decide (planID ≠ "") then
                          let! id := fresh_uuid in
                          let! now := ge_now in
                          dropped (DependencyStore_Insert (mkDependency id planID before (sg_ID sg) now))
                        else retS tt
                    | None => retS tt
                    end in
          let! _ := goal_audit "goal_planning.subgoal_created" (sg_ID sg) in
          insert_subgoals planID (Some (sg_ID sg)) rest (created + 1)
      end
  end.

(** The plan of a goal: its id, or [""] without a plan store. *)
Definition insert_goal_plan (goal : SystemGoal) : GP (res string) :=
  if negb (ge_plans e) then retS (Ok "")
  else
    let! planID := fresh_uuid in
    let! now := ge_now in
    let! err := PlanStore_Insert (plan_for goal planID now) in
    retS match err with
         | Some err => Err (wrap ("create plan for " +:+ sy_ID goal +:+ ": ") err)
         | None => Ok planID
         end.

(** One goal without subgoals. *)
Definition decompose_one (goal : SystemGoal) (created : Z) : GP (Z * option error) :=
  let! plan := insert_goal_plan goal in
  match plan with
  | Err err => retS (created, Some err)
  | Ok planID =>
      let! subgoals := match ge_rules e !! sy_Type goal with
                       | None => retS []       (* DecomposeGoal returns before the clock is read *)
                       | Some _ => let! now := ge_now in retS (DecomposeGoal goal (ge_rules e) now)
                       end in
      insert_subgoals planID None subgoals created
  end.

Fixpoint decompose_goals (sysGoals : list SystemGoal) (created : Z) : GP (Z * option error) :=
  match sysGoals with
  | [] => retS (created, None)
  | goal :: rest =>
      let! existing := SubgoalStore_ListByGoal (sy_ID goal) in
      match existing with
      | Err err => retS (created, Some (wrap ("list subgoals for " +:+ sy_ID goal +:+ ": ") err))
      | Ok (_ :: _) => decompose_goals rest created
      | Ok [] =>
          let! out := decompose_one goal created in
          match out with
          | (created, Some err) => retS (created, Some err)
          | (created, None) => decompose_goals rest created
          end
      end
  end.

Definition DecomposeGoals (sysGoals : list SystemGoal) : GP (Z * option error) := decompose_goals sysGoals 0.

Definition count_active (all : list Subgoal) : Z :=
  Z.of_nat (length (List.filter (fun sg => bool_decide (sg_Status sg = SubgoalActive)) all)).

(** The loop of [ActivateSubgoals]; statuses are those listed at its start. *)
Fixpoint activate_loop (all todo : list Subgoal) (activeCount activated : Z) : GP (Z * option error) :=
  match todo with
  | [] => retS (activated, None)
  | sg :: rest =>
      if negb (bool_decide (sg_Status sg = SubgoalNotStarted)) then activate_loop all rest activeCount activated
      else if bool_decide (MaxActiveSubgoals ≤ activeCount) then retS (activated, None)
      else if negb (IsDependencyMet sg all) then activate_loop all rest activeCount activated
      else
        let! err := SubgoalStore_UpdateStatus (ge_clock e) (sg_ID sg) SubgoalActive "" in
        match err with
        | Some err => retS (activated, Some err)
        | None =>
            let! _ := goal_audit "goal_planning.subgoal_activated" (sg_ID sg) in
            activate_loop all rest (activeCount + 1) (activated + 1)
        end
  end.

Definition ActivateSubgoals : GP (Z * option error) :=
  let! rows := SubgoalStore_ListAll in
  match rows with
  | Err err => retS (0, Some err)
  | Ok all => activate_loop all all (count_active all) 0
  end.

(** One active subgoal of [UpdateProgress]. *)
Definition update_progress_one (all : list Subgoal) (now : time) (sg : Subgoal) : GP (option error) :=
  let progress := MeasureProgress sg in
  let! err := SubgoalStore_UpdateProgress (ge_clock e) (sg_ID sg) progress (sg_CurrentValue sg) in
  match err with
  | Some err => retS (Some err)
  | None =>
      let! id := fresh_uuid in
      let! _ := dropped (ProgressStore_Insert (mkProgress id (sg_ID sg) (sg_GoalID sg) (sg_TargetMetric sg)
                                                 (sg_CurrentValue sg) progress now)) in
      let sg := sg <| sg_ProgressScore := progress |> in
      if ShouldAutoComplete sg then
        let! err := SubgoalStore_UpdateStatus (ge_clock e) (sg_ID sg) SubgoalCompleted "" in
        match err with
        | Some err => retS (Some err)
        | None => let! _ := goal_audit "goal_planning.subgoal_completed" (sg_ID sg) in retS None
        end
      else if ShouldBlock sg now then
        let reason :=
          if IsDependencyMet sg all
          then "stale progress (" +:+ fmt_fixed 1 (fmul progress (f_of_Z 100)) +:+ "%) after " +:+
               pretty ProgressStaleHours +:+ "h"
          else "dependency not met: " +:+ sg_DependsOn sg in
        let! err := SubgoalStore_UpdateStatus (ge_clock e) (sg_ID sg) SubgoalBlocked reason in
        match err with
        | Some err => retS (Some err)
        | None => let! _ := goal_audit "goal_planning.subgoal_blocked" (sg_ID sg) in retS None
        end
      else retS None
  end.

Fixpoint update_progress_loop (all : list Subgoal) (now : time) (active : list Subgoal) : GP (option error) :=
  match active with
  | [] => retS None
  | sg :: rest =>
      let! err := update_progress_one all now sg in
      match err with
      | Some err => retS (Some err)
      | None => update_progress_loop all now rest
      end
  end.

(** A failed listing of all subgoals leaves none. *)
Definition list_all_or_none : GP (list Subgoal) :=
  let! rows := SubgoalStore_ListAll in retS match rows with Ok all => all | Err _ => [] end.

Definition UpdateProgress : GP (option error) :=
  let! rows := SubgoalStore_ListActive in
  match rows with
  | Err err => retS (Some err)
  | Ok active =>
      let! now := ge_now in
      let! all := list_all_or_none in
      update_progress_loop all now active
  end.

(** The emission with the strategy and the vector applied. *)
Definition adjust_emission (activeMap : gmap string Subgoal) (objectiveDelta : float64)
    (vector : option (float64 * float64 * float64)) (em : TaskEmission) : TaskEmission :=
  let sg := default zero_subgoal (activeMap !! em_SubgoalID em) in
  let '(explorationLevel, riskTolerance, incomePriority) := default (f0, f0, f0) vector in
  let em := ApplyStrategyToEmission em
              (SelectStrategyWithVector sg objectiveDelta explorationLevel riskTolerance) in
  match vector with
  | None => em
  | Some _ =>
      let incomeBoost := fclamp01 (fmul (fsub incomePriority (lit 70 100)) (lit 30 100)) in
      em <| em_Priority := fclamp01 (fadd (em_Priority em) incomeBoost) |>
  end.

Definition read_vector : GP (option (float64 * float64 * float64)) :=
  match ge_vector e with
  | None => retS None
  | Some v =>
      let! explorationLevel := reading (vp_GetExplorationLevel v) in
      let! riskTolerance := reading (vp_GetRiskTolerance v) in
      let! incomePriority := reading (vp_GetIncomePriority v) in
      retS (Some (explorationLevel, riskTolerance, incomePriority))
  end.

Fixpoint emit_loop (emit : Emit X) (now : time) (emissions : list TaskEmission) (emitted : Z) : GP Z :=
  match emissions with
  | [] => retS emitted
  | em :: rest =>
      let! err := provider (emit (em_SubgoalID em) (em_GoalID em) (em_ActionType em) (em_Urgency em)
                              (em_ExpectedValue em) (em_RiskLevel em) (em_StrategyType em)) in
      match err with
      | Some _ => emit_loop emit now rest emitted
      | None =>
          let! _ := dropped (SubgoalStore_UpdateLastTaskEmitted (ge_clock e) (em_SubgoalID em) now) in
          let! _ := goal_audit "goal_planning.task_emitted" (em_SubgoalID em) in
          emit_loop emit now rest (emitted + 1)
      end
  end.

Definition PlanAndEmitTasks : GP (Z * option error) :=
  let! rows := SubgoalStore_ListActive in
  match rows with
  | Err err => retS (0, Some err)
  | Ok active =>
      let! all := list_all_or_none in
      let activeMap := fold_left (fun m sg => <[sg_ID sg := sg]> m) active ∅ in
      let all := map (fun sg => default sg (activeMap !! sg_ID sg)) all in
      let! objectiveDelta := objective_delta (ge_objective e) in
      let! vector := read_vector in
      let! now := ge_now in
      let emissions := map (adjust_emission activeMap objectiveDelta vector)
                         (take MaxTasksPerPlan (PlanTasks all now)) in
      match ge_emitter e with
      | None => retS (Z.of_nat (length emissions), None)
      | Some emit => let! emitted := emit_loop emit now emissions 0 in retS (emitted, None)
      end
  end.

(** [fmt.Errorf("<prefix>%w", err)] when there is an error. *)
Definition RunCycle (sysGoals : list SystemGoal) : GP (option error) :=
  let! decomposed := DecomposeGoals sysGoals in
  match snd decomposed with
  | Some err => retS (Some (wrap "decompose: " err))
  | None =>
      let! activated := ActivateSubgoals in
      match snd activated with
      | Some err => retS (Some (wrap "activate: " err))
      | None =>
          let! err := UpdateProgress in
          match err with
          | Some err => retS (Some (wrap "progress: " err))
          | None =>
              let! emitted := PlanAndEmitTasks in
              match snd emitted with
              | Some err => retS (Some (wrap "emit: " err))
              | None => let! _ := goal_audit "goal_planning.cycle_completed" "" in retS None
              end
          end
      end
  end.

Definition Engine_RunReplanCycle : GP (Z * option error) :=
  match ge_replanner e with
  | None => retS (0, None)
  | Some r => RunReplanCycle r
  end.

(** The goal id is ignored. *)
Definition Replan (goalID : string) : GP (Z * option error) := Engine_RunReplanCycle.

Definition GetPlanSummary (goalID goalType : string) (goalPriority : float64) (horizon : string)
    : GP (res GoalPlanSummary) :=
  let! rows := SubgoalStore_ListByGoal goalID in
  match rows with
  | Err err => retS (Err err)
  | Ok subgoals =>
      let! now := ge_now in
      let count status := Z.of_nat (length (List.filter (fun sg => bool_decide (sg_Status sg = status)) subgoals)) in
      retS (Ok (mkSummary goalID goalType goalPriority horizon (Z.of_nat (length subgoals))
                  (count SubgoalActive) (count SubgoalCompleted) (count SubgoalBlocked)
                  (ComputeOverallProgress subgoals) now))
  end.

Definition TransitionSubgoal (id to reason : string) : GP (option error) :=
  let! got := SubgoalStore_Get id in
  match got with
  | Err err => retS (Some err)
  | Ok sg =>
      if negb (ValidateSubgoalTransition (sg_Status sg) to)
      then retS (Some (Errorf ("invalid transition: " +:+ sg_Status sg +:+ " → " +:+ to)))
      else SubgoalStore_UpdateStatus (ge_clock e) id to reason
  end.

Definition CreatePlan (goalID horizon strategy : string) : GP (res GoalPlan) :=
  if negb (ge_plans e) then retS (Err (Errorf "plan store not configured"))
  else
    let! now := ge_now in
    let! id := fresh_uuid in
    let plan := mkGoalPlan id goalID 1 horizon strategy PlanDraft (lit 50 100) (lit 20 100) 0 zero_time now now in
    let! err := PlanStore_Insert plan in
    match err with
    | Some err => retS (Err err)
    | None => let! _ := goal_audit "goal_planning.plan_created" id in retS (Ok plan)
    end.

Definition GetPlan (id : string) : GP (res GoalPlan) :=
  if negb (ge_plans e) then retS (Err (Errorf "plan store not configured")) else PlanStore_Get id.

Definition ListPlans : GP (res (list GoalPlan)) :=
  if negb (ge_plans e) then retS (Ok []) else PlanStore_ListAll.
End engine.

(** ** Adapter

    Errors become zero values; [None] is a nil adapter. *)

Section adapter.
Context {U : UuidPkg} {X : Type} (a : option (GoalEngine X)).
Abbreviation GP A := (St (Agent GPDB X) A).

Definition or_zero {A} (zero : A) (c : GP (res A)) : GP A :=
  match a with
  | None => retS zero
  | Some _ => let! r := c in retS match r with Ok x => x | Err _ => zero end
  end.

Definition Adapter_GetSubgoal (id : string) : GP Subgoal :=
  match a with
  | None => retS zero_subgoal
  | Some _ => let! r := SubgoalStore_Get id in retS match r with Ok sg => sg | Err _ => zero_subgoal end
  end.
Definition Adapter_ListSubgoals (goalID : string) : GP (list Subgoal) := or_zero [] (SubgoalStore_ListByGoal goalID).
Definition Adapter_ListAllSubgoals : GP (list Subgoal) := or_zero [] SubgoalStore_ListAll.

Definition Adapter_GetOverallProgress (goalID : string) : GP float64 :=
  match a with
  | None => retS f0
  | Some _ =>
      let! r := SubgoalStore_ListByGoal goalID in
      retS match r with Ok sgs => ComputeOverallProgress sgs | Err _ => f0 end
  end.

Definition Adapter_ListPlans : GP (list GoalPlan) :=
  match a with
  | None => retS []
  | Some e => let! r := ListPlans e in retS match r with Ok plans => plans | Err _ => [] end
  end.

(** [GoalPlan{}] *)
Definition zero_plan : GoalPlan := mkGoalPlan "" "" 0 "" "" "" f0 f0 0 zero_time zero_time zero_time.

Definition Adapter_CreatePlan (goalID horizon strategy : string) : GP GoalPlan :=
  match a with
  | None => retS zero_plan
  | Some e =>
      let! r := CreatePlan e goalID horizon strategy in
      retS match r with Ok plan => plan | Err _ => zero_plan end
  end.

Definition Adapter_RunReplanCycle : GP Z :=
  match a with
  | None => retS 0
  | Some e =>
      let! out := Engine_RunReplanCycle e in
      retS match out with (count, None) => count | (_, Some _) => 0 end
  end.
Definition Adapter_Replan (goalID : string) : GP Z := Adapter_RunReplanCycle.
End adapter.
