(* ===== verification/GoalPlanningProps.v ===== *)
(** * Properties of goal planning

    Rows evolve along the status machine and keep what planning never writes;
    what that implies for progress and completion; decomposition; emission. *)

From stdpp Require Import base gmap strings list tactics numbers fin_maps pretty relations sorting.
From Stdlib Require Import ZArith Lia.
From S2P Require Import Prelude GoFloat GoStrconv GoSort Models GoTime AgentWorld DependencyGraph GoalPlanning.

Open Scope Z_scope.

(** ** Rows *)

(** The columns no operation of the engine changes. *)
Definition fixed (sg : Subgoal) :=
  (sg_ID sg, sg_GoalID sg, sg_PlanID sg, sg_Title sg, sg_TargetMetric sg,
   (sg_TargetValue sg, sg_CurrentValue sg, sg_PreferredAction sg, sg_Horizon sg, sg_Priority sg,
    sg_DependsOn sg, sg_CreatedAt sg)).

Definition subgoal_step (a b : string) : Prop := ValidateSubgoalTransition a b = true.

(** The moves of status a call may make, subgoal by subgoal. *)
Abbreviation Moves := (string → string → string → Prop).

(** What happens to a row while moves are made. *)
Definition lives (R : Moves) (sg sg' : Subgoal) : Prop :=
  fixed sg = fixed sg' ∧ rtc (R (sg_ID sg)) (sg_Status sg) (sg_Status sg').

#[export] Instance lives_preorder R : PreOrder (lives R).
Proof.
  split; [by intros sg|]. intros x y z [H1 H2] [H3 H4]. split; [congruence|].
  assert (sg_ID x = sg_ID y) as E by (unfold fixed in H1; by injection H1). rewrite <- E in H4. by etrans.
Qed.

(** Rows stay and live on; a new row belongs to a goal that had none. *)
Definition evolves (R : Moves) (db db' : GPDB) : Prop :=
  (∀ id sg, gp_subgoals db !! id = Some sg → ∃ sg', gp_subgoals db' !! id = Some sg' ∧ lives R sg sg') ∧
  ∀ id sg', gp_subgoals db' !! id = Some sg' →
    is_Some (gp_subgoals db !! id) ∨ ∀ k sg, gp_subgoals db !! k = Some sg → sg_GoalID sg ≠ sg_GoalID sg'.

Lemma lives_goal R sg sg' : lives R sg sg' → sg_GoalID sg = sg_GoalID sg'.
Proof. intros [H _]. unfold fixed in H. by injection H. Qed.

#[export] Instance evolves_preorder R : PreOrder (evolves R).
Proof.
  split.
  { intros db. split; [intros id sg H; by exists sg|intros id sg H; left; by exists sg]. }
  intros x y z [H1 N1] [H2 N2]. split.
  - intros id sg H. destruct (H1 _ _ H) as (sg1 & Hs1 & L1). destruct (H2 _ _ Hs1) as (sg2 & Hs2 & L2).
    exists sg2. split; [done|by etrans].
  - intros id sg' H. destruct (N2 _ _ H) as [[sg1 Hs1]|Hno].
    + destruct (N1 _ _ Hs1) as [|Hno]; [by left|right]. intros k sg Hk E. apply (Hno k sg Hk). rewrite E.
      destruct (H2 _ _ Hs1) as (sg2 & Hs2 & L2). rewrite (lives_goal _ _ _ L2). congruence.
    + right. intros k sg Hk. destruct (H1 _ _ Hk) as (sg1 & Hs1 & L1). rewrite (lives_goal _ _ _ L1). by apply (Hno k).
Qed.

(** No row is added. *)
Lemma evolves_rows R db db' :
  (∀ id sg, gp_subgoals db !! id = Some sg → ∃ sg', gp_subgoals db' !! id = Some sg' ∧ lives R sg sg') →
  (∀ id, is_Some (gp_subgoals db' !! id) → is_Some (gp_subgoals db !! id)) → evolves R db db'.
Proof. intros H1 H2. split; [done|]. intros id sg' H. left. apply H2. by exists sg'. Qed.

Lemma alter_rows f id (m : gmap string Subgoal) k : is_Some (alter f id m !! k) → is_Some (m !! k).
Proof. rewrite lookup_alter. case_decide; [subst; by rewrite fmap_is_Some|done]. Qed.

Definition statuses : list string :=
  [SubgoalNotStarted; SubgoalActive; SubgoalBlocked; SubgoalCompleted; SubgoalFailed].

Lemma step_spec a b : subgoal_step a b ↔
  (a = SubgoalNotStarted ∧ b = SubgoalActive) ∨
  (a = SubgoalActive ∧ (b = SubgoalCompleted ∨ b = SubgoalFailed ∨ b = SubgoalBlocked)) ∨
  (a = SubgoalBlocked ∧ (b = SubgoalActive ∨ b = SubgoalFailed)).
Proof.
  unfold subgoal_step, ValidateSubgoalTransition, ValidSubgoalTransitions. cbn [list_to_map foldr fst snd].
  rewrite !lookup_insert, lookup_empty.
  destruct (decide (SubgoalNotStarted = a)) as [<-|H1]; [|destruct (decide (SubgoalActive = a)) as [<-|H2];
    [|destruct (decide (SubgoalBlocked = a)) as [<-|H3]]];
    rewrite ?bool_decide_eq_true, ?elem_of_cons, ?elem_of_nil; naive_solver.
Qed.

Lemma step_status a b : subgoal_step a b → b ∈ statuses.
Proof. rewrite step_spec. unfold statuses. rewrite !elem_of_cons. naive_solver. Qed.

(** A row that measured up, by its own target and current value. *)
Definition achieved (sg : Subgoal) : bool := fleb MinProgressToComplete (MeasureProgress sg).

(** What may have happened so far: no feedback was ever recorded, or only that no
    status was set by hand, or anything. *)
Inductive Regime := Unfed | Automatic | Manual.

#[export] Instance Regime_eq_dec : EqDecision Regime.
Proof. solve_decision. Defined.

Record sound_row (zero : Regime) (id : string) (sg : Subgoal) : Prop := {
  row_id : sg_ID sg = id;
  row_status : sg_Status sg ∈ statuses;
  row_completed : zero ≠ Manual → sg_Status sg = SubgoalCompleted → achieved sg = true;
  row_current : sg_CurrentValue sg = f0;
  row_depends : sg_DependsOn sg = "";
  row_counters : zero = Unfed → sg_FailureCount sg = 0 ∧ sg_SuccessCount sg = 0
}.

Record sound (zero : Regime) (db : GPDB) : Prop := {
  sound_rows : ∀ id sg, gp_subgoals db !! id = Some sg → sound_row zero id sg;
  sound_progress : ∀ id p, gp_progress db !! id = Some p → is_Some (gp_subgoals db !! gr_SubgoalID p);
  sound_deps : ∀ id d, gp_deps db !! id = Some d → is_Some (gp_plans db !! gd_PlanID d)
}.

Lemma fixed_fields sg sg' : fixed sg = fixed sg' →
  sg_ID sg = sg_ID sg' ∧ sg_GoalID sg = sg_GoalID sg' ∧ sg_TargetValue sg = sg_TargetValue sg' ∧
  sg_CurrentValue sg = sg_CurrentValue sg' ∧ sg_DependsOn sg = sg_DependsOn sg'.
Proof. unfold fixed. intros H. injection H. intros. by split_and!. Qed.

Lemma achieved_fixed sg sg' : fixed sg = fixed sg' → achieved sg = achieved sg'.
Proof.
  intros (_ & _ & E1 & E2 & _)%fixed_fields. unfold achieved, MeasureProgress. by rewrite E1, E2.
Qed.

(** Nothing sets the current value, so a positive target is never reached. *)
Lemma achieved_target sg : sg_CurrentValue sg = f0 → achieved sg = fleb (sg_TargetValue sg) f0.
Proof.
  unfold achieved, MeasureProgress. intros ->. destruct (fleb (sg_TargetValue sg) f0) eqn:E; [by vm_compute|].
  destruct (sg_TargetValue sg) as [[]|[]| |[] m ex]; try done; by vm_compute.
Qed.

Lemma sound_row_lives zero id sg sg' :
  sound_row zero id sg → fixed sg = fixed sg' → sg_Status sg' ∈ statuses →
  (zero ≠ Manual → sg_Status sg' = SubgoalCompleted → achieved sg = true) →
  (zero = Unfed → sg_FailureCount sg' = sg_FailureCount sg ∧ sg_SuccessCount sg' = sg_SuccessCount sg) →
  sound_row zero id sg'.
Proof.
  intros [R1 R2 R3 R4 R5 R6] Hf Hs Hc Hz. pose proof (achieved_fixed _ _ Hf) as Ha.
  apply fixed_fields in Hf as (E1 & _ & _ & E2 & E3). split; [congruence|done|by rewrite <- Ha|congruence|congruence|].
  intros Hz'. specialize (Hz Hz'). specialize (R6 Hz'). destruct Hz, R6. split; congruence.
Qed.

(** ** Listings *)

Lemma subgoals_where_elem P db sg :
  sg ∈ subgoals_where P db ↔ (∃ id, gp_subgoals db !! id = Some sg) ∧ P sg = true.
Proof.
  unfold subgoals_where. rewrite SliceStable_elem, list_elem_of_In, filter_In, <- list_elem_of_In, list_elem_of_fmap.
  split; intros [H HP]; (split; [|done]).
  - destruct H as ([id x] & -> & H%elem_of_map_to_list). by exists id.
  - destruct H as [id H]. exists (id, sg). by rewrite elem_of_map_to_list.
Qed.

Lemma subgoals_where_nodup zero P db : sound zero db → NoDup (map sg_ID (subgoals_where P db)).
Proof.
  intros Hs. assert (Hall : NoDup (map sg_ID (map_to_list (gp_subgoals db)).*2)).
  { change (NoDup (sg_ID <$> (map_to_list (gp_subgoals db)).*2)).
    rewrite <- list_fmap_compose, (list_fmap_ext _ fst); [apply NoDup_fst_map_to_list|].
    intros i [k sg] Hi. cbn. apply (row_id zero k), (sound_rows _ _ Hs), elem_of_map_to_list.
    by eapply list_elem_of_lookup_2. }
  unfold subgoals_where. change (NoDup (sg_ID <$> SliceStable subgoal_before
    (List.filter P (map_to_list (gp_subgoals db)).*2))).
  rewrite SliceStable_perm. eapply sublist_NoDup; [exact Hall|]. apply (fmap_sublist sg_ID).
  clear. induction ((map_to_list (gp_subgoals db)).*2) as [|x l IH]; cbn; [constructor|].
  destruct (P x); by constructor.
Qed.

(** ** Keeping track of a listing

    While an operation works through a listing, the rows still to come are as
    listed in their status and their fixed columns. *)

Definition as_listed (todo : list Subgoal) (db : GPDB) : Prop := ∀ sg, sg ∈ todo →
  ∃ row, gp_subgoals db !! sg_ID sg = Some row ∧ fixed row = fixed sg ∧ sg_Status row = sg_Status sg.

Definition tracks {X} (R : Moves) (zero : Regime) (db0 : GPDB) (todo : list Subgoal) (db : GPDB) (x : X) : Prop :=
  sound zero db ∧ evolves R db0 db ∧ as_listed todo db.

Section tracking.
Context {X : Type} (R : Moves) (zero : Regime) (db0 : GPDB).
Abbreviation GP A := (St (Agent GPDB X) A).

Lemma tracks_rest sg todo db (x : X) : tracks R zero db0 (sg :: todo) db x → tracks R zero db0 todo db x.
Proof using. intros (H1 & H2 & H3). split_and!; [done|done|]. intros y Hy. apply H3. by right. Qed.

(** A change of one row that is listed with status [st]. *)
Definition changes (sg : Subgoal) (status : string) (f : Subgoal → Subgoal) : Prop := ∀ row,
  fixed row = fixed sg → sg_Status row = sg_Status sg →
  fixed (f row) = fixed row ∧ sg_Status (f row) = status ∧
  (zero = Unfed → sg_FailureCount row = 0 ∧ sg_SuccessCount row = 0 →
   sg_FailureCount (f row) = 0 ∧ sg_SuccessCount (f row) = 0).

Definition allowed (sg : Subgoal) (status : string) : Prop :=
  status = sg_Status sg ∨
  R (sg_ID sg) (sg_Status sg) status ∧ status ∈ statuses ∧
  (zero ≠ Manual → status = SubgoalCompleted → achieved sg = true).

Lemma update_tracks sg status f todo db (x : X) db' :
  changes sg status f → allowed sg status → sg_ID sg ∉ map sg_ID todo →
  tracks R zero db0 (sg :: todo) db x → update_subgoal (sg_ID sg) f db = Ok (tt, db') →
  tracks R zero db0 ((sg <| sg_Status := status |>) :: todo) db' x.
Proof using.
  intros Hf Hal Hno (Hs & He & Hl) [= <-].
  destruct (Hl sg ltac:(by left)) as (row & Hrow & Hfix & Hst).
  destruct (Hf row Hfix Hst) as (F1 & F2 & F3). set (id := sg_ID sg) in *.
  assert (Hnew : alter f id (gp_subgoals db) !! id = Some (f row)) by (rewrite lookup_alter_eq, Hrow; done).
  assert (Hrs : sound_row zero id (f row)).
  { destruct (sound_rows _ _ Hs _ _ Hrow) as [R1 R2 R3 R4 R5 R6].
    destruct (fixed_fields _ _ F1) as (E1 & _ & _ & E2 & E3).
    split; [congruence| | |congruence|congruence|by auto].
    - rewrite F2. destruct Hal as [->|(_ & H & _)]; [by rewrite <- Hst|done].
    - rewrite F2. intros Hz Hc. rewrite (achieved_fixed _ _ F1). destruct Hal as [->|(_ & _ & H)].
      + apply R3; congruence.
      + rewrite (achieved_fixed _ _ Hfix). by apply H. }
  split_and!.
  - destruct Hs as [S1 S2 S3]. split; cbn.
    + intros k y Hk. destruct (decide (k = id)) as [->|Hne]; [rewrite Hnew in Hk; by injection Hk as <-|].
      rewrite lookup_alter_ne in Hk by done. by apply S1.
    + intros k p Hp. destruct (S2 k p Hp) as [y Hy]. destruct (decide (gr_SubgoalID p = id)) as [->|]; [by rewrite Hnew; eexists|].
      rewrite lookup_alter_ne by done. by exists y.
    + exact S3.
  - etrans; [exact He|]. apply evolves_rows; [|intros k; apply alter_rows].
    intros k y Hk. cbn. destruct (decide (k = id)) as [->|Hne].
    + rewrite Hrow in Hk. injection Hk as <-. exists (f row). split; [done|]. split; [done|]. rewrite F2, Hst.
      destruct Hal as [->|(H & _)]; [done|]. rewrite (row_id _ _ _ (sound_rows _ _ Hs _ _ Hrow)). by apply rtc_once.
    + exists y. by rewrite lookup_alter_ne.
  - intros y [->|Hy]%elem_of_cons; cbn.
    + exists (f row). split; [exact Hnew|]. split; [by rewrite F1, Hfix|done].
    + destruct (Hl y) as (rowy & Hry & Hfy & Hsy); [by right|]. exists rowy. split; [|done].
      rewrite lookup_alter_ne; [done|]. intros E. apply Hno. rewrite E. by apply (list_elem_of_fmap_2 sg_ID).
Qed.

(** A statement that refuses or changes one row. *)
Definition row_stmt (sg : Subgoal) (f : Subgoal → Subgoal) (stmt : GPDB → res (unit * GPDB)) : Prop :=
  ∀ db, (∃ e, stmt db = Err e) ∨ stmt db = update_subgoal (sg_ID sg) f db.

(** An error leaves open whether the row was changed. *)
Lemma triple_exec_now clock sg status f (stmt : time → GPDB → res (unit * GPDB)) todo :
  (∀ now, changes sg status (f now)) → allowed sg status → sg_ID sg ∉ map sg_ID todo →
  (∀ now, row_stmt sg (f now) (stmt now)) →
  triple (tables (tracks (X := X) R zero db0 (sg :: todo))) (exec_now clock stmt)
    (fun err => tables (fun db x => tracks R zero db0 todo db x ∧
       (err = None → tracks R zero db0 ((sg <| sg_Status := status |>) :: todo) db x))).
Proof using.
  intros Hf Hal Hno Hst. eapply triple_bind; [apply triple_reading|]. intros now.
  eapply triple_bind.
  - apply (triple_statement _ _ (fun r db x => tracks R zero db0 todo db x ∧
      (failed r = None → tracks R zero db0 ((sg <| sg_Status := status |>) :: todo) db x))).
    intros db x Ht. split.
    + intros e. split; [by eapply tracks_rest|done].
    + intros [] db' Hdb. assert (Ht' : tracks R zero db0 ((sg <| sg_Status := status |>) :: todo) db' x).
      { destruct (Hst now db) as [[e He]|He]; [congruence|]. rewrite He in Hdb. by eapply update_tracks. }
      split; [|intros e; split; [|done]]; [split; [|done]|]; by eapply tracks_rest.
  - intros r. apply tables_ret. intros db x H. exact H.
Qed.

(** A statement that keeps status, fixed columns and absent counters of
    whatever row it meets. *)
Definition harmless (f : Subgoal → Subgoal) : Prop := ∀ row,
  fixed (f row) = fixed row ∧ sg_Status (f row) = sg_Status row ∧
  (zero = Unfed → sg_FailureCount row = 0 ∧ sg_SuccessCount row = 0 →
   sg_FailureCount (f row) = 0 ∧ sg_SuccessCount (f row) = 0).

Lemma harmless_tracks id f todo db (x : X) :
  harmless f → tracks R zero db0 todo db x →
  tracks R zero db0 todo (db <| gp_subgoals := alter f id (gp_subgoals db) |>) x.
Proof using.
  intros Hf (Hs & He & Hl).
  assert (Hrow : ∀ k y, alter f id (gp_subgoals db) !! k = Some y →
    ∃ y0, gp_subgoals db !! k = Some y0 ∧ (y = y0 ∨ y = f y0)).
  { intros k y. rewrite lookup_alter. case_decide as E; [|intros Hk; exists y; split; [done|by left]].
    subst id. intros (y0 & Ek & ->)%fmap_Some. exists y0. split; [done|by right]. }
  assert (Hback : ∀ k y0, gp_subgoals db !! k = Some y0 →
    ∃ y, alter f id (gp_subgoals db) !! k = Some y ∧ (y = y0 ∨ y = f y0)).
  { intros k y0 Hk. rewrite lookup_alter. case_decide as E; [|exists y0; split; [done|by left]].
    subst id. rewrite Hk. exists (f y0). split; [done|by right]. }
  split_and!.
  - destruct Hs as [S1 S2 S3]. split; cbn; [| |exact S3].
    + intros k y Hk. destruct (Hrow k y Hk) as (y0 & Hy0 & [->| ->]); [by apply S1|].
      destruct (S1 k y0 Hy0) as [R1 R2 R3 R4 R5 R6]. destruct (Hf y0) as (F1 & F2 & F3).
      destruct (fixed_fields _ _ F1) as (E1 & _ & _ & E2 & E3).
      split; [congruence|by rewrite F2|rewrite F2, (achieved_fixed _ _ F1); auto|congruence|congruence|auto].
    + intros k p Hp. destruct (S2 k p Hp) as [y Hy]. destruct (Hback _ _ Hy) as (y' & Hy' & _). by exists y'.
  - etrans; [exact He|]. apply evolves_rows; [|intros k; apply alter_rows].
    intros k y Hk. destruct (Hback k y Hk) as (y' & Hy' & Hor). exists y'. split; [done|].
    destruct Hor as [->| ->]; [done|]. destruct (Hf y) as (F1 & F2 & _). split; [done|]. by rewrite F2.
  - intros sg Hsg. destruct (Hl sg Hsg) as (row & Hr & Hfix & Hst).
    destruct (Hback _ _ Hr) as (y & Hy & Hor). destruct Hor as [->| ->].
    + by exists row.
    + exists (f row). split; [done|]. destruct (Hf row) as (F1 & F2 & _). split; congruence.
Qed.

Lemma triple_touch clock id f (stmt : time → GPDB → res (unit * GPDB)) todo :
  (∀ now, harmless (f now)) →
  (∀ now db, (∃ e, stmt now db = Err e) ∨ stmt now db = update_subgoal id (f now) db) →
  triple (tables (tracks (X := X) R zero db0 todo)) (exec_now clock stmt)
    (fun _ => tables (tracks R zero db0 todo)).
Proof using.
  intros Hf Hst. eapply triple_bind; [apply triple_reading|]. intros now.
  eapply triple_bind.
  - apply (triple_statement _ _ (fun _ => tracks R zero db0 todo)). intros db x Ht. split; [done|].
    intros [] db' Hdb. destruct (Hst now db) as [[e He]|He]; [congruence|]. rewrite He in Hdb.
    injection Hdb as <-. split; [|intros _]; by apply harmless_tracks.
  - intros r. by apply tables_ret.
Qed.

(** Statements on the other tables. *)
Lemma triple_exec_other (stmt : GPDB → res (unit * GPDB)) todo :
  (∀ db db' x, tracks (X := X) R zero db0 todo db x → stmt db = Ok (tt, db') → tracks R zero db0 todo db' x) →
  triple (tables (tracks R zero db0 todo)) (exec stmt) (fun _ => tables (tracks (X := X) R zero db0 todo)).
Proof using.
  intros Hst. eapply triple_bind.
  - apply (triple_statement _ _ (fun _ => tracks R zero db0 todo)). intros db x Ht. split; [done|].
    intros [] db' Hdb. split; [|intros _]; by eapply Hst.
  - intros r. by apply tables_ret.
Qed.

Lemma tracks_other todo db db' (x : X) :
  gp_subgoals db' = gp_subgoals db →
  (∀ id p, gp_progress db' !! id = Some p → is_Some (gp_subgoals db !! gr_SubgoalID p)) →
  (∀ id d, gp_deps db' !! id = Some d → is_Some (gp_plans db' !! gd_PlanID d)) →
  tracks R zero db0 todo db x → tracks R zero db0 todo db' x.
Proof using.
  intros Hsub Hp Hd (Hs & He & Hl). split_and!.
  - destruct Hs as [S1 S2 S3]. split; [by rewrite Hsub|by rewrite Hsub|done].
  - etrans; [exact He|]. apply evolves_rows; rewrite Hsub; [|done]. intros id sg H. by exists sg.
  - intros sg Hsg. rewrite Hsub. by apply Hl.
Qed.

Lemma triple_insert_progress p todo :
  triple (tables (tracks (X := X) R zero db0 todo)) (ProgressStore_Insert p) (fun _ => tables (tracks R zero db0 todo)).
Proof using.
  apply triple_exec_other. intros db db' x Ht H. unfold insert_progress in H.
  destruct (gp_progress db !! gr_ID p); [done|]. destruct (gp_subgoals db !! gr_SubgoalID p) as [sg|] eqn:E; [|done].
  injection H as <-. apply (tracks_other _ db); [done| |apply Ht|done]. intros id q. cbn.
  rewrite lookup_insert. case_decide; [intros [= <-]; by exists sg|apply Ht].
Qed.

Lemma triple_insert_plan p todo :
  triple (tables (tracks (X := X) R zero db0 todo)) (PlanStore_Insert p) (fun _ => tables (tracks R zero db0 todo)).
Proof using.
  apply triple_exec_other. intros db db' x Ht H. unfold insert_plan in H.
  destruct (negb _); [done|]. destruct (gp_plans db !! pn_ID p); [done|].
  injection H as <-. apply (tracks_other _ db); [done|apply Ht| |done]. intros id d Hd. cbn in *.
  rewrite lookup_insert. case_decide; [by eexists|]. destruct Ht as [Hs _]. by apply (sound_deps _ _ Hs id).
Qed.

Lemma triple_update_plan clock id f todo :
  triple (tables (tracks (X := X) R zero db0 todo)) (exec_now clock (fun now => update_plan id (f now)))
    (fun _ => tables (tracks R zero db0 todo)).
Proof using.
  eapply triple_bind; [apply triple_reading|]. intros now. apply triple_exec_other.
  intros db db' x Ht H. unfold update_plan in H. destruct (gp_plans db !! id) as [p|] eqn:E; [|by injection H as <-].
  destruct (_ && _); [|done]. injection H as <-. apply (tracks_other _ db); [done|apply Ht| |done].
  intros k d Hd. cbn in *. rewrite lookup_insert. case_decide; [by eexists|].
  destruct Ht as [Hs _]. by apply (sound_deps _ _ Hs k).
Qed.

Lemma triple_insert_dependency d todo :
  triple (tables (tracks (X := X) R zero db0 todo)) (DependencyStore_Insert d) (fun _ => tables (tracks R zero db0 todo)).
Proof using.
  apply triple_exec_other. intros db db' x Ht H. unfold insert_dependency in H.
  destruct (gp_deps db !! gd_ID d); [done|]. destruct (gp_plans db !! gd_PlanID d) as [p|] eqn:E; [|done].
  injection H as <-. apply (tracks_other _ db); [done|apply Ht| |done]. intros id q. cbn.
  rewrite lookup_insert. case_decide; [intros [= <-]; cbn; by rewrite E|]. destruct Ht as [Hs _]. apply (sound_deps _ _ Hs).
Qed.

(** A listing, when it succeeds, is tracked. *)
Lemma triple_listWhere P :
  triple (tables (tracks (X := X) R zero db0 [])) (listWhere P)
    (fun r => tables (fun db x => match r with
       | Ok rows => tracks R zero db0 rows db x ∧ NoDup (map sg_ID rows) ∧ (∀ sg, sg ∈ rows → P sg = true) ∧
                    (∀ sg, sg ∈ rows → sound_row zero (sg_ID sg) sg)
       | Err _ => tracks R zero db0 [] db x
       end)).
Proof using.
  apply triple_statement. intros db x Ht. split; [done|]. intros rows db' [= <- <-]. split; [|done].
  destruct Ht as (Hs & He & _).
  assert (Hrow : ∀ sg, sg ∈ subgoals_where P db → gp_subgoals db !! sg_ID sg = Some sg ∧ P sg = true).
  { intros sg [[id H] HP]%subgoals_where_elem. split; [|done]. by rewrite (row_id _ _ _ (sound_rows _ _ Hs _ _ H)). }
  split_and!; [split_and!; [done|done|]|by eapply subgoals_where_nodup|by intros sg [_ ?]%Hrow|].
  - intros sg [H _]%Hrow. by exists sg.
  - intros sg [H _]%Hrow. by apply (sound_rows _ _ Hs).
Qed.
End tracking.

(** ** The operations keep the tables sound and let rows evolve *)

Section operations.
Context {U : UuidPkg} {H : UuidSHA1} {X : Type} (R : Moves) (zero : Regime) (db0 : GPDB).
Abbreviation GP A := (St (Agent GPDB X) A).
Abbreviation keeps c := (triple (tables (tracks (X := X) R zero db0 [])) c (fun _ => tables (tracks (X := X) R zero db0 []))).

Lemma tracks_nil todo db (x : X) : tracks R zero db0 todo db x → tracks R zero db0 [] db x.
Proof using. intros (H1 & H2 & _). split_and!; [done|done|]. by intros sg ?%elem_of_nil. Qed.

Lemma changes_status sg status reason now :
  changes zero sg status (fun row =>
    row <| sg_Status := status |> <| sg_BlockReason := reason |> <| sg_UpdatedAt := trunc_us now |>).
Proof using. by intros row Hf Hs. Qed.

Lemma triple_subgoal_status clock sg status reason todo :
  allowed R zero sg status → sg_ID sg ∉ map sg_ID todo →
  triple (tables (tracks (X := X) R zero db0 (sg :: todo))) (SubgoalStore_UpdateStatus clock (sg_ID sg) status reason)
    (fun err => tables (fun db x => tracks R zero db0 todo db x ∧
       (err = None → tracks R zero db0 ((sg <| sg_Status := status |>) :: todo) db x))).
Proof using.
  intros Hal Hno. eapply triple_exec_now; [intros now; apply changes_status|done|done|]. intros now db. by right.
Qed.

Lemma active_to sg status :
  sg_Status sg = SubgoalActive → R (sg_ID sg) SubgoalActive status → status ∈ statuses →
  (status = SubgoalCompleted → achieved sg = true) → allowed R zero sg status.
Proof using. intros Hs HR Hst Hc. right. rewrite Hs. by split_and!; [| |intros _]. Qed.

(** The moves each operation needs. *)
Definition activates : Prop := ∀ id, R id SubgoalNotStarted SubgoalActive.
Definition settles : Prop := ∀ id, R id SubgoalActive SubgoalCompleted ∧ R id SubgoalActive SubgoalBlocked.
Definition blocks : Prop := ∀ id, R id SubgoalActive SubgoalBlocked.

Lemma ActivateSubgoals_keeps (e : GoalEngine X) : activates → keeps (ActivateSubgoals e).
Proof using.
  intros HR. eapply triple_bind; [apply triple_listWhere|]. intros [all|err]; [|by apply tables_ret].
  assert (Hloop : ∀ todo ac an, NoDup (map sg_ID todo) →
    triple (tables (tracks (X := X) R zero db0 todo)) (activate_loop e all todo ac an)
      (fun _ => tables (tracks R zero db0 []))).
  { induction todo as [|sg todo IH]; intros ac an Hnd; cbn [activate_loop].
    { by apply tables_ret. }
    apply NoDup_cons in Hnd as [Hno Hnd].
    assert (Hskip : ∀ ac an, triple (tables (tracks (X := X) R zero db0 (sg :: todo))) (activate_loop e all todo ac an)
      (fun _ => tables (tracks R zero db0 []))).
    { intros ac' an'. eapply triple_weaken; [by apply IH| |done]. intros s. apply tracks_rest. }
    destruct (negb (bool_decide (sg_Status sg = SubgoalNotStarted))) eqn:Hst; [apply Hskip|].
    apply negb_false_iff, bool_decide_eq_true in Hst.
    destruct (bool_decide (MaxActiveSubgoals ≤ ac)); [apply tables_ret; intros db x; apply tracks_nil|].
    destruct (negb (IsDependencyMet sg all)); [apply Hskip|].
    eapply triple_bind; [apply triple_subgoal_status; [|done]|].
    { right. rewrite Hst. split_and!; [apply HR|unfold statuses; set_solver|done]. }
    intros [err|]; [apply tables_ret; intros db x [Ht _]; by eapply tracks_nil|].
    eapply triple_bind; [apply triple_audit|]. intros ?. eapply triple_weaken; [by apply IH| |done]. by intros s [? _]. }
  intros s (Ht & Hnd & _). by apply Hloop.
Qed.

Lemma listed_achieved sg : achieved (sg <| sg_ProgressScore := MeasureProgress sg |>) = achieved sg.
Proof using. done. Qed.

Lemma update_progress_one_keeps (e : GoalEngine X) all now sg todo :
  settles → sg_Status sg = SubgoalActive → NoDup (map sg_ID (sg :: todo)) →
  triple (tables (tracks (X := X) R zero db0 (sg :: todo))) (update_progress_one e all now sg)
    (fun _ => tables (tracks R zero db0 todo)).
Proof using.
  intros HR Hst Hnd. apply NoDup_cons in Hnd as [Hno Hnd]. unfold update_progress_one.
  eapply triple_bind.
  { apply (triple_exec_now R zero db0 _ sg (sg_Status sg) (fun now row =>
      row <| sg_ProgressScore := MeasureProgress sg |> <| sg_CurrentValue := sg_CurrentValue sg |>
          <| sg_UpdatedAt := trunc_us now |>)); [|by left|done|intros t db; by right].
    intros t row Hfix Hs. destruct (fixed_fields _ _ Hfix) as (_ & _ & _ & E & _). split_and!; [|done|done].
    unfold fixed in *. cbn. by rewrite <- E. }
  intros [err|]; [apply tables_ret; by intros db x [? _]|].
  apply (triple_bind _ _ (fun _ => tables (tracks R zero db0 (sg :: todo)))).
  { intros s [_ Ht]. specialize (Ht eq_refl). rewrite Hst in Ht. by destruct sg; cbn in *; subst. }
  intros id. eapply triple_bind; [apply triple_dropped, triple_insert_progress|]. intros ?.
  assert (Hto : ∀ status reason ev, allowed R zero sg status →
    triple (tables (tracks (X := X) R zero db0 (sg :: todo)))
      (let! err := SubgoalStore_UpdateStatus (ge_clock e) (sg_ID sg) status reason in
       match err with
       | Some err => retS (Some err)
       | None => let! _ := goal_audit e ev (sg_ID sg) in retS None
       end) (fun _ => tables (tracks R zero db0 todo))).
  { intros status reason ev Hal. eapply triple_bind; [by apply triple_subgoal_status|].
    intros [err|]; [apply tables_ret; by intros db x [? _]|].
    eapply triple_bind; [apply triple_audit|]. intros ?. apply tables_ret. by intros db x [? _]. }
  cbv zeta. destruct (ShouldAutoComplete _) eqn:Hc.
  { apply Hto, active_to; [done|apply HR|unfold statuses; set_solver|]. intros _. unfold ShouldAutoComplete in Hc.
    by apply andb_true_iff in Hc as [_ Hc]. }
  destruct (ShouldBlock _ _).
  { apply Hto, active_to; [done|apply HR|unfold statuses; set_solver|done]. }
  apply tables_ret. intros db x. apply tracks_rest.
Qed.

Lemma UpdateProgress_keeps (e : GoalEngine X) : settles → keeps (UpdateProgress e).
Proof using.
  intros HR. eapply triple_bind; [apply triple_listWhere|]. intros [active|err]; [|by apply tables_ret].
  intros s (Ht & Hnd & Hact & _). revert s Ht.
  change (triple (tables (tracks (X := X) R zero db0 active))
    (let! now := ge_now e in let! all := list_all_or_none in update_progress_loop e all now active)
    (fun _ => tables (tracks R zero db0 []))).
  eapply triple_bind; [apply triple_reading|]. intros now.
  apply (triple_bind _ _ (fun _ => tables (tracks R zero db0 active))).
  { eapply triple_bind.
    - apply (triple_statement _ _ (fun _ => tracks R zero db0 active)). intros db x Ht. split; [done|].
      by intros rows db' [= <- <-].
    - intros r. by apply tables_ret. }
  intros all. induction active as [|sg active IH]; cbn [update_progress_loop].
  { by apply tables_ret. }
  eapply triple_bind; [apply update_progress_one_keeps; [done| |done]|].
  { apply (bool_decide_eq_true_1 _), Hact. by left. }
  intros [err|]; [apply tables_ret; intros db x; apply tracks_nil|].
  apply IH; [by apply NoDup_cons in Hnd as [_ ?]|]. intros y Hy. apply Hact. by right.
Qed.

Lemma harmless_emitted t now : harmless zero (fun row =>
  row <| sg_LastTaskEmitted := trunc_us t |> <| sg_UpdatedAt := trunc_us now |>).
Proof using. by intros row. Qed.

(** The receiver of tasks does not see the tables of planning. *)
Lemma triple_tasks {A} (c : St X A) todo :
  triple (tables (tracks (X := X) R zero db0 todo)) (provider c) (fun _ => tables (tracks R zero db0 todo)).
Proof using. apply triple_provider. by intros db x Ht. Qed.

Lemma PlanAndEmitTasks_keeps (e : GoalEngine X) : keeps (PlanAndEmitTasks e).
Proof using.
  apply (triple_bind _ _ (fun _ => tables (tracks R zero db0 []))).
  { eapply triple_weaken; [apply triple_listWhere|done|]. intros [rows|err] s Hs; [|done].
    destruct Hs as (Ht & _). by eapply tracks_nil. }
  intros [active|err]; [|by apply tables_ret].
  apply (triple_bind _ _ (fun _ => tables (tracks R zero db0 []))).
  { eapply triple_bind.
    - apply (triple_statement _ _ (fun _ => tracks R zero db0 [])). intros db x Ht. split; [done|].
      by intros rows db' [= <- <-].
    - intros r. by apply tables_ret. }
  intros all. cbv zeta.
  apply (triple_bind _ _ (fun _ => tables (tracks R zero db0 []))).
  { unfold objective_delta. destruct (ge_objective e); [|by apply tables_ret].
    eapply triple_bind; [apply triple_reading|]. intros u. by apply tables_ret. }
  intros delta. apply (triple_bind _ _ (fun _ => tables (tracks R zero db0 []))).
  { unfold read_vector. destruct (ge_vector e) as [v|]; [|by apply tables_ret].
    do 3 (eapply triple_bind; [apply triple_reading|]; intros ?). by apply tables_ret. }
  intros vector. eapply triple_bind; [apply triple_reading|]. intros now.
  destruct (ge_emitter e) as [emit|]; [|by apply tables_ret].
  apply (triple_bind _ _ (fun _ => tables (tracks R zero db0 []))); [|intros n; by apply tables_ret].
  match goal with |- triple _ (emit_loop _ _ _ ?ems _) _ => generalize ems end.
  intros emissions. generalize 0. induction emissions as [|em rest IH]; intros n; cbn [emit_loop].
  { by apply tables_ret. }
  eapply triple_bind; [apply triple_tasks|]. intros [err|]; [apply IH|].
  eapply triple_bind; [apply triple_dropped, (triple_touch R zero db0 _ (em_SubgoalID em) (fun now' row =>
    row <| sg_LastTaskEmitted := trunc_us now |> <| sg_UpdatedAt := trunc_us now' |>))|].
  - intros t. apply harmless_emitted.
  - intros t db. by right.
  - intros ?. eapply triple_bind; [apply triple_audit|]. intros ?. apply IH.
Qed.

(** ** Decomposition *)

Lemma subgoal_of_sound goal now i tmpl planID :
  let sg := stored_subgoal ((subgoal_of goal now i tmpl)
              <| sg_PlanID := planID |> <| sg_Strategy := StrategyExploitSuccess |>) in
  sound_row zero (subgoal_id (sy_ID goal) i) sg.
Proof using. split; try done. apply list_elem_of_here. Qed.

Lemma triple_insert_subgoal sg :
  sound_row zero (sg_ID sg) (stored_subgoal sg) →
  (∀ k row, gp_subgoals db0 !! k = Some row → sg_GoalID row ≠ sg_GoalID sg) →
  keeps (SubgoalStore_Insert sg).
Proof using.
  intros Hrow Hnew. apply triple_exec_other. intros db db' x (Hs & He & _) Hi. unfold insert_subgoal in Hi.
  destruct (negb _); [done|]. destruct (gp_subgoals db !! sg_ID sg) eqn:Ek; [done|]. injection Hi as <-.
  split_and!; [| |by intros y ?%elem_of_nil].
  - destruct Hs as [S1 S2 S3]. split; cbn; [| |exact S3].
    + intros k y. rewrite lookup_insert. case_decide as E; [subst k; by intros [= <-]|apply S1].
    + intros k p Hp. rewrite lookup_insert. case_decide; [by eexists|by apply (S2 k)].
  - destruct He as [H1 H2]. split; cbn.
    + intros k y Hk. destruct (H1 k y Hk) as (y' & Hy' & Hlive). exists y'.
      rewrite lookup_insert_ne; [done|congruence].
    + intros k y'. rewrite lookup_insert. case_decide; [intros [= <-]; by right|apply H2].
Qed.

(** A goal the current listing has no rows of had none before. *)
Lemma triple_none_listed goalID :
  triple (tables (tracks (X := X) R zero db0 [])) (listWhere (fun sg => bool_decide (sg_GoalID sg = goalID)))
    (fun r => tables (fun db x => tracks R zero db0 [] db x ∧
       (r = Ok [] → ∀ k row, gp_subgoals db0 !! k = Some row → sg_GoalID row ≠ goalID))).
Proof using.
  apply triple_statement. intros db x Ht. split; [done|]. intros rows db' [= <- <-]. split; [|done].
  split; [done|]. intros [= Hnil] k row Hk E. destruct Ht as (_ & [He _] & _).
  destruct (He k row Hk) as (row' & Hrow' & Hlive). apply (not_elem_of_nil row'). rewrite <- Hnil.
  apply subgoals_where_elem. split; [by exists k|]. apply bool_decide_eq_true. by rewrite <- (lives_goal _ _ _ Hlive).
Qed.

(** The subgoals of one goal, whichever of them are still to be inserted. *)
Definition made_for (goal : SystemGoal) (sg : Subgoal) : Prop :=
  ∃ now i tmpl, sg = subgoal_of goal now i tmpl.

Lemma insert_subgoals_keeps (e : GoalEngine X) goal planID prev sgs created :
  (∀ k row, gp_subgoals db0 !! k = Some row → sg_GoalID row ≠ sy_ID goal) →
  Forall (made_for goal) sgs → keeps (insert_subgoals e planID prev sgs created).
Proof using.
  intros Hnew Hall. revert prev created. induction Hall as [|sg sgs (now & i & tmpl & ->) _ IH]; intros prev created;
    cbn [insert_subgoals]; [by apply tables_ret|].
  eapply triple_bind; [by apply triple_insert_subgoal; [apply subgoal_of_sound|]|]. intros [err|]; [by apply tables_ret|].
  apply (triple_bind _ _ (fun _ => tables (tracks R zero db0 []))).
  { destruct prev as [before|]; [|by apply tables_ret]. destruct (_ && _); [|by apply tables_ret].
    eapply triple_bind; [apply triple_fresh|]. intros id. eapply triple_bind; [apply triple_reading|]. intros t.
    apply triple_dropped, triple_insert_dependency. }
  intros ?. eapply triple_bind; [apply triple_audit|]. intros ?. apply IH.
Qed.

Lemma DecomposeGoal_made goal rules now : Forall (made_for goal) (DecomposeGoal goal rules now).
Proof using.
  unfold DecomposeGoal. destruct (rules !! sy_Type goal) as [templates|]; [|constructor].
  apply Forall_forall. intros sg Hsg. apply list_elem_of_lookup_1 in Hsg as [k Hk].
  rewrite list_lookup_imap in Hk. apply fmap_Some in Hk as (tmpl & _ & ->). by eexists _, _, _.
Qed.

Lemma decompose_one_keeps (e : GoalEngine X) goal created :
  (∀ k row, gp_subgoals db0 !! k = Some row → sg_GoalID row ≠ sy_ID goal) →
  keeps (decompose_one e goal created).
Proof using.
  intros Hnew. unfold decompose_one. apply (triple_bind _ _ (fun _ => tables (tracks R zero db0 []))).
  { unfold insert_goal_plan. destruct (negb (ge_plans e)); [by apply tables_ret|].
    eapply triple_bind; [apply triple_fresh|]. intros id. eapply triple_bind; [apply triple_reading|]. intros t.
    eapply triple_bind; [apply triple_insert_plan|]. intros r. by apply tables_ret. }
  intros [planID|err]; [|by apply tables_ret].
  apply (triple_bind _ _ (fun sgs => tables (fun db x => Forall (made_for goal) sgs ∧ tracks R zero db0 [] db x))).
  { destruct (ge_rules e !! sy_Type goal); [|apply tables_ret; by split; [constructor|]].
    eapply triple_bind; [apply triple_reading|]. intros t. apply tables_ret. intros db x Ht.
    split; [apply DecomposeGoal_made|done]. }
  intros sgs s [Hall Ht]. by apply (insert_subgoals_keeps e goal).
Qed.

Lemma DecomposeGoals_keeps (e : GoalEngine X) goals : keeps (DecomposeGoals e goals).
Proof using.
  unfold DecomposeGoals. generalize 0. induction goals as [|goal goals IH]; intros created; cbn [decompose_goals].
  { by apply tables_ret. }
  eapply triple_bind; [apply triple_none_listed|]. intros r. apply tables_fact. intros Hnone.
  destruct r as [[|sg rows]|err]; [|apply IH|by apply tables_ret].
  eapply triple_bind; [by apply decompose_one_keeps; apply Hnone|]. intros [n [err|]]; [by apply tables_ret|apply IH].
Qed.

(** ** Replanning *)

Lemma with_feedback_same feedback signals sg :
  fixed (with_feedback feedback signals sg) = fixed sg ∧
  sg_Status (with_feedback feedback signals sg) = sg_Status sg.
Proof using.
  unfold with_feedback. set (sg0 := match feedback !! sg_GoalID sg with Some _ => _ | None => sg end).
  assert (H0 : fixed sg0 = fixed sg ∧ sg_Status sg0 = sg_Status sg).
  { unfold sg0. by destruct (feedback !! sg_GoalID sg) as [[[] ]|]. }
  revert H0. generalize sg0. clear sg0. induction signals as [|sig signals IH]; intros sg0 H0; [done|].
  cbn [fold_left]. apply IH. case_bool_decide; [|done]. unfold applyReflectionSignal.
  destruct (_ || _); [done|]. by case_bool_decide.
Qed.

Lemma tracks_like sg sg' todo db (x : X) :
  fixed sg' = fixed sg → sg_Status sg' = sg_Status sg →
  tracks R zero db0 (sg :: todo) db x → tracks R zero db0 (sg' :: todo) db x.
Proof using.
  intros Hf Hs (H1 & H2 & H3). split_and!; [done|done|]. destruct (fixed_fields _ _ Hf) as (E & _).
  intros y [->|Hy]%elem_of_cons; [|apply H3; by right].
  destruct (H3 sg ltac:(by left)) as (row & Hr & F & S). exists row. rewrite E, Hf, Hs. done.
Qed.

Lemma triple_UpdateStrategy clock id strategy f n todo : zero ≠ Unfed →
  triple (tables (tracks (X := X) R zero db0 todo)) (SubgoalStore_UpdateStrategy clock id strategy f n)
    (fun _ => tables (tracks R zero db0 todo)).
Proof using.
  intros Hz. apply (triple_touch R zero db0 _ id (fun now row =>
    row <| sg_Strategy := strategy |> <| sg_FailureCount := f |> <| sg_SuccessCount := n |>
        <| sg_UpdatedAt := trunc_us now |>)).
  - intros now row. by split_and!.
  - intros now db. destruct (negb _); [left; by eexists|by right].
Qed.

Lemma replan_writes_keeps rp sg trigger strategy todo : blocks → zero ≠ Unfed →
  (sg_Status sg = SubgoalActive ∨ sg_Status sg = SubgoalBlocked) → sg_ID sg ∉ map sg_ID todo →
  triple (tables (tracks (X := X) R zero db0 (sg :: todo))) (replan_writes rp sg trigger strategy)
    (fun _ => tables (tracks R zero db0 todo)).
Proof using.
  intros HR Hz Hst Hno. assert (Hrest : ∀ c : GP (option error),
    triple (tables (tracks (X := X) R zero db0 todo)) c (fun _ => tables (tracks R zero db0 todo)) →
    triple (tables (tracks (X := X) R zero db0 (sg :: todo))) c (fun _ => tables (tracks R zero db0 todo))).
  { intros c Hc. eapply triple_weaken; [exact Hc| |done]. intros s. apply tracks_rest. }
  unfold replan_writes. cbv zeta.
  case_bool_decide; [by apply Hrest, triple_UpdateStrategy|].
  case_bool_decide; [|case_bool_decide; [by apply Hrest, triple_UpdateStrategy|];
                      case_bool_decide; [by apply Hrest, triple_UpdateStrategy|by apply Hrest, tables_ret]].
  apply (triple_bind _ _ (fun _ => tables (tracks R zero db0 todo))).
  - case_bool_decide as Ha; [|by apply Hrest, tables_ret].
    eapply triple_weaken; [apply triple_subgoal_status; [by apply active_to; [done|apply HR|unfold statuses; set_solver|]|done]|done|]. by intros err s [Ht _].
  - intros [err|]; [by apply tables_ret|by apply triple_UpdateStrategy].
Qed.

Lemma RunReplanCycle_keeps rp : blocks → zero ≠ Unfed → keeps (RunReplanCycle rp).
Proof using.
  intros HR Hz. eapply triple_bind; [apply triple_listWhere|]. intros [all|err]; [|by apply tables_ret].
  apply tables_fact. intros (Hnd & _).
  apply (triple_bind _ _ (fun _ => tables (tracks R zero db0 all))).
  { unfold objective_delta. destruct (rp_objective rp); [|by apply tables_ret].
    eapply triple_bind; [apply triple_reading|]. intros u. by apply tables_ret. }
  intros delta. apply (triple_bind _ _ (fun _ => tables (tracks R zero db0 all))).
  { destruct (rp_execFeedback rp) as [ask|]; [|by apply tables_ret].
    generalize (∅ : gmap string (Z * Z * Z)).
    induction (rp_range rp _) as [|gid ids IH]; intros m; cbn [gather_feedback]; [by apply tables_ret|].
    eapply triple_bind; [apply triple_reading|]. intros f. apply IH. }
  intros feedback. apply (triple_bind _ _ (fun _ => tables (tracks R zero db0 all))).
  { destruct (rp_reflection rp); [apply triple_reading|by apply tables_ret]. }
  intros signals. eapply triple_bind; [apply triple_reading|]. intros now.
  apply (triple_bind _ _ (fun _ => tables (tracks R zero db0 []))).
  2: { intros n. eapply triple_bind; [apply triple_audit|]. intros ?. by apply tables_ret. }
  generalize 0. induction all as [|sg todo IH]; intros n; cbn [replan_all]; [by apply tables_ret|].
  apply NoDup_cons in Hnd as [Hno Hnd]. specialize (IH Hnd).
  assert (Hskip : ∀ n, triple (tables (tracks (X := X) R zero db0 (sg :: todo)))
    (replan_all rp feedback signals delta todo n) (fun _ => tables (tracks R zero db0 []))).
  { intros n'. eapply triple_weaken; [apply IH| |done]. intros s. apply tracks_rest. }
  destruct (negb _) eqn:Hst; [apply Hskip|]. apply negb_false_iff, orb_true_iff in Hst.
  destruct (with_feedback_same feedback signals sg) as [Hf Hs]. set (sg' := with_feedback feedback signals sg) in *.
  destruct (ShouldReplan sg' delta) as [trigger|]; [|apply Hskip].
  destruct (fixed_fields _ _ Hf) as (Eid & _).
  apply (triple_bind _ _ (fun _ => tables (tracks R zero db0 todo))); [|intros [err|]; apply IH].
  unfold replanSubgoal. cbv zeta. eapply triple_bind.
  { eapply triple_weaken; [apply (replan_writes_keeps rp sg' trigger _ todo HR Hz)| |done].
    - rewrite Hs. destruct Hst as [?%bool_decide_eq_true|?%bool_decide_eq_true]; auto.
    - by rewrite Eid.
    - intros s. by apply tracks_like. }
  intros [err|]; [by apply tables_ret|]. apply (triple_bind _ _ (fun _ => tables (tracks R zero db0 todo))).
  { destruct (_ && _); [|by apply tables_ret]. apply triple_dropped, triple_update_plan. }
  intros ?. eapply triple_bind; [apply triple_audit|]. intros ?. by apply tables_ret.
Qed.

(** As deployed the replanner has no source of feedback: with no counter set it
    has nothing to do. *)
Lemma RunReplanCycle_inert rp :
  rp_objective rp = None → rp_execFeedback rp = None → rp_reflection rp = None → zero = Unfed →
  triple (tables (tracks (X := X) R zero db0 [])) (RunReplanCycle rp)
    (fun out => tables (fun db x => fst out = 0 ∧ tracks R zero db0 [] db x)).
Proof using.
  intros H1 H2 H3 Hz. unfold RunReplanCycle. eapply triple_bind; [apply triple_listWhere|].
  intros [all|err]; [|by apply tables_ret]. rewrite H1, H2, H3.
  apply tables_fact. intros (_ & _ & Hrows).
  assert (Hone : ∀ sg, sg ∈ all → with_feedback ∅ [] sg = sg ∧ ShouldReplan sg f0 = None).
  { intros sg Hsg. destruct (row_counters _ _ _ (Hrows sg Hsg) Hz) as [Hf Hn]. split; [done|].
    unfold ShouldReplan. rewrite Hf, Hn. by vm_compute. }
  assert (Hall : ∀ n, replan_all rp ∅ [] f0 all n = (retS n : GP Z)).
  { clear Hrows. induction all as [|sg rest IH]; intros n; cbn [replan_all]; [done|].
    destruct (Hone sg ltac:(by left)) as [E1 E2]. rewrite E1, E2.
    specialize (IH (fun y Hy => Hone y (list_elem_of_further _ _ _ Hy))). rewrite IH. by destruct (negb _). }
  change (triple (tables (tracks (X := X) R zero db0 all))
    (let! _ := reading (rp_clock rp) in
     let! replanned := replan_all rp ∅ [] f0 all 0 in
     let! _ := rp_audit rp "goal_planning.replan_completed" "" in retS (replanned, @None error))
    (fun out => tables (fun db x => fst out = 0 ∧ tracks R zero db0 [] db x))).
  eapply triple_bind; [apply triple_reading|]. intros now. rewrite Hall.
  apply (triple_bind _ _ (fun n => tables (fun db x => n = 0 ∧ tracks R zero db0 [] db x))).
  { apply tables_ret. intros db x Ht. split; [done|by eapply tracks_nil]. }
  intros n. eapply triple_bind; [apply triple_audit|]. intros ?. by apply tables_ret.
Qed.

Lemma CreatePlan_keeps (e : GoalEngine X) goalID horizon strategy : keeps (CreatePlan e goalID horizon strategy).
Proof using.
  unfold CreatePlan. destruct (negb (ge_plans e)); [by apply tables_ret|].
  eapply triple_bind; [apply triple_reading|]. intros now. eapply triple_bind; [apply triple_fresh|]. intros id.
  eapply triple_bind; [apply triple_insert_plan|]. intros [err|]; [by apply tables_ret|].
  eapply triple_bind; [apply triple_audit|]. intros ?. by apply tables_ret.
Qed.

Lemma RunCycle_keeps (e : GoalEngine X) goals : activates → settles → keeps (RunCycle e goals).
Proof using.
  intros HA HP. unfold RunCycle. eapply triple_bind; [apply DecomposeGoals_keeps|]. intros [n [err|]]; cbn [snd]; [by apply tables_ret|].
  eapply triple_bind; [by apply ActivateSubgoals_keeps|]. intros [m [err|]]; cbn [snd]; [by apply tables_ret|].
  eapply triple_bind; [by apply UpdateProgress_keeps|]. intros [err|]; [by apply tables_ret|].
  eapply triple_bind; [apply PlanAndEmitTasks_keeps|]. intros [k [err|]]; cbn [snd]; [by apply tables_ret|].
  eapply triple_bind; [apply triple_audit|]. intros ?. by apply tables_ret.
Qed.
(** Setting a status by hand. *)
Lemma TransitionSubgoal_keeps (e : GoalEngine X) id to reason :
  zero = Manual → (∀ a, subgoal_step a to → R id a to) → keeps (TransitionSubgoal e id to reason).
Proof using.
  intros Hz HR. unfold TransitionSubgoal, SubgoalStore_Get.
  apply (triple_bind _ _ (fun r => tables (fun db x => match r with
    | Ok sg => tracks R zero db0 [sg] db x ∧ sg_ID sg = id
    | Err _ => tracks R zero db0 [] db x
    end))).
  - eapply (triple_bind _ _ (fun r => tables (fun db x => match r with
      | Ok (Some sg) => tracks R zero db0 [sg] db x ∧ sg_ID sg = id
      | _ => tracks R zero db0 [] db x
      end))).
    + apply triple_statement. intros db x Ht. split; [done|]. intros o db' [= <- <-]. split; [|done].
      destruct (gp_subgoals db !! id) as [sg|] eqn:E; [|done]. pose proof Ht as (Hs & He & _).
      pose proof (row_id _ _ _ (sound_rows _ _ Hs _ _ E)) as Hid. split; [|done]. split_and!; [done|done|].
      intros y ->%list_elem_of_singleton. exists sg. by rewrite Hid.
    + intros [[sg|]|err]; apply tables_ret; by intros db x Hx.
  - intros [sg|err]; [|by apply tables_ret]. apply tables_fact. intros Hid.
    destruct (negb _) eqn:Hv; [apply tables_ret; intros db x; apply tracks_nil|]. apply negb_false_iff in Hv.
    rewrite <- Hid. eapply triple_weaken; [apply (triple_subgoal_status _ sg to reason []); [|apply not_elem_of_nil]|done|].
    + right. split_and!; [rewrite Hid; by apply HR|by eapply step_status|by intros ?].
    + by intros err s [Ht _].
Qed.
End operations.

(** ** Runs of the engine *)

(** What the autonomy loop and the API call, and [OpTransition], setting a status
    by hand; [OpReplan] is also the adapter's. *)
Inductive GPOp :=
| OpDecompose (goals : list SystemGoal)
| OpActivate
| OpProgress
| OpEmit
| OpCycle (goals : list SystemGoal)
| OpReplan
| OpCreatePlan (goalID horizon strategy : string)
| OpTransition (id to reason : string).

(** The moves a call makes: an activation, the settling of an active subgoal,
    blocking one, or the move asked for. *)
Definition op_moves (op : GPOp) : Moves := fun id a b =>
  match op with
  | OpActivate => a = SubgoalNotStarted ∧ b = SubgoalActive
  | OpProgress => a = SubgoalActive ∧ (b = SubgoalCompleted ∨ b = SubgoalBlocked)
  | OpCycle _ => (a = SubgoalNotStarted ∧ b = SubgoalActive) ∨
                 (a = SubgoalActive ∧ (b = SubgoalCompleted ∨ b = SubgoalBlocked))
  | OpReplan => a = SubgoalActive ∧ b = SubgoalBlocked
  | OpTransition id' to _ => id = id' ∧ b = to ∧ subgoal_step a b
  | _ => False
  end.

(** What becomes of a status in a call: at most one move; in a cycle at most an
    activation and then at most a settling. *)
Definition op_walk (op : GPOp) (id a b : string) : Prop :=
  match op with
  | OpCycle _ => ∃ m, (m = a ∨ op_moves OpActivate id a m) ∧ (b = m ∨ op_moves OpProgress id m b)
  | _ => b = a ∨ op_moves op id a b
  end.

(** And in a sequence of calls. *)
Fixpoint walk (ops : list GPOp) (id a b : string) : Prop :=
  match ops with
  | [] => b = a
  | op :: ops => ∃ m, op_walk op id a m ∧ walk ops id m b
  end.

Lemma op_moves_allowed op id a b : op_moves op id a b → subgoal_step a b.
Proof.
  intros H. apply step_spec. destruct op; cbn in H; try done; try naive_solver.
  destruct H as (_ & _ & H). by apply step_spec.
Qed.

Lemma rtc_at_most_one {A} (R : A → A → Prop) a b :
  (∀ x y z, R x y → R y z → False) → rtc R a b → b = a ∨ R a b.
Proof. intros HR H. destruct H as [|a m b Ham Hmb]; [by left|]. destruct Hmb as [|m n b Hmn _]; [by right|].
  by destruct (HR _ _ _ Ham Hmn). Qed.

Lemma rtc_op_walk op id a b : rtc (op_moves op id) a b → op_walk op id a b.
Proof.
  destruct op; cbn [op_walk]; intros H; try (apply rtc_at_most_one; [|done]; cbn; try naive_solver).
  - induction H as [a|a m b Ham _ (n & H1 & H2)]; [by exists a; auto|]. exists (if decide (a = SubgoalNotStarted) then m else a).
    cbn in *. destruct Ham as [[-> ->]|[-> Hm]].
    + rewrite decide_True by done. split; [by right|]. destruct H1 as [->|[[=] _]]. done.
    + rewrite decide_False by done. split; [by left|]. right. split; [done|].
      destruct Hm as [-> | ->]; destruct H1 as [->|[[=] _]]; destruct H2 as [->|[[=] _]]; auto.
  - intros x y z (_ & -> & _) (_ & -> & H'). apply step_spec in H'. naive_solver.
Qed.

Section runs.
Context {U : UuidPkg} {H : UuidSHA1} {X : Type} (e : GoalEngine X).
Implicit Types s : Agent GPDB X.

Definition run_gp (op : GPOp) s : Agent GPDB X :=
  match op with
  | OpDecompose goals => snd (DecomposeGoals e goals s)
  | OpActivate => snd (ActivateSubgoals e s)
  | OpProgress => snd (UpdateProgress e s)
  | OpEmit => snd (PlanAndEmitTasks e s)
  | OpCycle goals => snd (RunCycle e goals s)
  | OpReplan => snd (Engine_RunReplanCycle e s)
  | OpCreatePlan goalID horizon strategy => snd (CreatePlan e goalID horizon strategy s)
  | OpTransition id to reason => snd (TransitionSubgoal e id to reason s)
  end.

Definition run_gps (ops : list GPOp) s : Agent GPDB X := fold_left (fun s op => run_gp op s) ops s.

Definition replanner_unfed : Prop :=
  ∀ rp, ge_replanner e = Some rp → rp_objective rp = None ∧ rp_execFeedback rp = None ∧ rp_reflection rp = None.

Definition by_hand (op : GPOp) : bool := match op with OpTransition _ _ _ => true | _ => false end.

(** The calls of a regime. *)
Definition within_regime (z : Regime) (op : GPOp) : Prop := z = Manual ∨ by_hand op = false.

Lemma run_gp_tracks z op s : (z = Unfed → replanner_unfed) → within_regime z op → sound z (ag_db s) →
  sound z (ag_db (run_gp op s)) ∧ evolves (op_moves op) (ag_db s) (ag_db (run_gp op s)).
Proof using.
  intros Hz Hop Hs. assert (Ht : tables (tracks (op_moves op) z (ag_db s) []) s).
  { split_and!; [done|done|]. by intros sg ?%elem_of_nil. }
  assert (tables (tracks (op_moves op) z (ag_db s) []) (run_gp op s)) as (H1 & H2 & _); [|by split].
  revert Ht. generalize (ag_db s). intros db0 Ht. destruct op; cbn [run_gp].
  - by apply DecomposeGoals_keeps.
  - by apply ActivateSubgoals_keeps.
  - apply UpdateProgress_keeps; [|done]. by intros id; cbn; auto.
  - by apply PlanAndEmitTasks_keeps.
  - apply RunCycle_keeps; [| |done]; intros id; cbn; auto.
  - unfold Engine_RunReplanCycle. destruct (ge_replanner e) as [rp|] eqn:E; [|done].
    destruct (decide (z = Unfed)) as [->|Hne]; [|by apply RunReplanCycle_keeps].
    destruct (Hz eq_refl rp E) as (H1 & H2 & H3). by apply (RunReplanCycle_inert _ Unfed db0 rp).
  - by apply CreatePlan_keeps.
  - destruct Hop as [->|[=]]. apply TransitionSubgoal_keeps; [done| |done]. by intros a Ha.
Qed.

(** Rows after a run, and how they got their status. *)
Definition walked (ops : list GPOp) (db db' : GPDB) : Prop :=
  (∀ id sg, gp_subgoals db !! id = Some sg → ∃ sg', gp_subgoals db' !! id = Some sg' ∧
     fixed sg = fixed sg' ∧ walk ops id (sg_Status sg) (sg_Status sg')) ∧
  ∀ id sg', gp_subgoals db' !! id = Some sg' →
    is_Some (gp_subgoals db !! id) ∨ ∀ k sg, gp_subgoals db !! k = Some sg → sg_GoalID sg ≠ sg_GoalID sg'.

Lemma fixed_goal sg sg' : fixed sg = fixed sg' → sg_GoalID sg = sg_GoalID sg'.
Proof using. intros (_ & E & _)%fixed_fields. done. Qed.

Lemma run_gps_tracks z ops s : (z = Unfed → replanner_unfed) → Forall (within_regime z) ops → sound z (ag_db s) →
  sound z (ag_db (run_gps ops s)) ∧ walked ops (ag_db s) (ag_db (run_gps ops s)).
Proof using.
  intros Hz Hops. revert s. induction Hops as [|op ops Hop _ IH]; intros s Hs; cbn [run_gps fold_left].
  { split; [done|]. split; [intros id sg Hsg; by exists sg|intros id sg' Hsg; left; by exists sg']. }
  destruct (run_gp_tracks z op s Hz Hop Hs) as [Hs1 [E1 N1]]. destruct (IH _ Hs1) as [Hs2 [E2 N2]]. split; [done|].
  split.
  - intros id sg Hsg. destruct (E1 id sg Hsg) as (sg1 & Hsg1 & F1 & M1).
    destruct (E2 id sg1 Hsg1) as (sg2 & Hsg2 & F2 & W2). exists sg2. split_and!; [done|congruence|].
    exists (sg_Status sg1). split; [|done]. apply rtc_op_walk.
    by rewrite (row_id _ _ _ (sound_rows _ _ Hs _ _ Hsg)) in M1.
  - intros id sg' Hsg'. destruct (N2 _ _ Hsg') as [[sg1 Hs1']|Hno].
    + destruct (N1 _ _ Hs1') as [|Hno]; [by left|right]. intros k sg Hk E. apply (Hno k sg Hk). rewrite E.
      destruct (E2 _ _ Hs1') as (sg2 & Hsg2 & F2 & _). rewrite (fixed_goal _ _ F2).
      assert (Some sg' = Some sg2) as [= ->] by (rewrite <- Hsg2; symmetry; exact Hsg'). done.
    + right. intros k sg Hk. destruct (E1 _ _ Hk) as (sg1 & Hsg1 & F1 & _). rewrite (fixed_goal _ _ F1). by apply (Hno k).
Qed.
End runs.

Lemma sound_empty z : sound z (mkGPDB ∅ ∅ ∅ ∅).
Proof. split; cbn; intros id x Hx; by rewrite lookup_empty in Hx. Qed.

Lemma any_calls ops : Forall (within_regime Manual) ops.
Proof. apply list.Forall_forall. intros op _. by left. Qed.

(** C25: Subgoals live by their state machine: through any sequence of engine
    calls, statuses set by hand included, with any providers and any database
    faults, a subgoal is never removed, and its target, current value, priority,
    dependency and identity never change.  Its status moves once a call at most,
    and as the call may: an activation takes it from not started to active,
    measuring progress from active to completed or blocked, replanning from
    active to blocked, a move by hand to the status asked for; a cycle may
    activate it and then settle it; the other calls leave it alone.  Every such
    move is an allowed transition.  Progress rows and dependencies keep referring
    to existing subgoals and plans. *)
Theorem subgoals_follow_lifecycle {U : UuidPkg} {H : UuidSHA1} {X} (e : GoalEngine X) ops s :
  sound Manual (ag_db s) →
  let db' := ag_db (run_gps e ops s) in
  sound Manual db' ∧
  (∀ id sg, gp_subgoals (ag_db s) !! id = Some sg → ∃ sg', gp_subgoals db' !! id = Some sg' ∧
     fixed sg = fixed sg' ∧ walk ops id (sg_Status sg) (sg_Status sg')) ∧
  ∀ op id a b, op_moves op id a b → ValidateSubgoalTransition a b = true.
Proof.
  intros Hs. destruct (run_gps_tracks e Manual ops s) as (H1 & H2 & _); [done|apply any_calls|done|].
  split_and!; [done|done|apply op_moves_allowed].
Qed.

(** The rows of a goal. *)
Definition subgoal_of_goal (goalID : string) (db : GPDB) (id : string) : Prop :=
  ∃ sg, gp_subgoals db !! id = Some sg ∧ sg_GoalID sg = goalID.

(** A goal is decomposed once, for good: as soon as it has any subgoal, no
    sequence of engine calls with any goals, providers and faults adds a subgoal
    to it or takes one away.  The test is on the rows only, so a decomposition
    that a database error interrupted is never completed. *)
Theorem decomposition_happens_once {U : UuidPkg} {H : UuidSHA1} {X} (e : GoalEngine X) ops s goalID :
  sound Manual (ag_db s) → (∃ id, subgoal_of_goal goalID (ag_db s) id) →
  ∀ id, subgoal_of_goal goalID (ag_db (run_gps e ops s)) id ↔ subgoal_of_goal goalID (ag_db s) id.
Proof.
  intros Hs (id0 & sg0 & Hid0 & Hg0) id. destruct (run_gps_tracks e Manual ops s) as (_ & H1 & H2); [done|apply any_calls|done|].
  split.
  - intros (sg' & Hsg' & Hg'). destruct (H2 id sg' Hsg') as [[sg Hsg]|Hno].
    + exists sg. split; [done|]. destruct (H1 id sg Hsg) as (sg'' & E & Hl & _). rewrite (fixed_goal _ _ Hl). congruence.
    + exfalso. apply (Hno id0 sg0 Hid0). congruence.
  - intros (sg & Hsg & Hg). destruct (H1 id sg Hsg) as (sg' & Hsg' & Hl & _). exists sg'. split; [done|].
    by rewrite <- (fixed_goal _ _ Hl).
Qed.

(** Progress is never made: nothing feeds a subgoal's current value, so it
    stays at the 0 it was created with.  Whatever the engine does by itself and
    whatever fails, a completed subgoal is one whose target is at most 0, and a subgoal
    with a positive target never completes; no declared dependency ever holds a
    subgoal back, since the column it is read from stays empty. *)
Theorem progress_is_never_made {U : UuidPkg} {H : UuidSHA1} {X} (e : GoalEngine X) ops s id sg :
  sound Automatic (ag_db s) → Forall (fun op => by_hand op = false) ops →
  gp_subgoals (ag_db (run_gps e ops s)) !! id = Some sg →
  sg_CurrentValue sg = f0 ∧
  (sg_Status sg = SubgoalCompleted → fleb (sg_TargetValue sg) f0 = true) ∧
  ∀ all, IsDependencyMet sg all = true.
Proof.
  intros Hs Hops Hsg. destruct (run_gps_tracks e Automatic ops s) as [Hs' _]; [done| |done|].
  { eapply Forall_impl; [exact Hops|]. by right. }
  destruct (sound_rows _ _ Hs' _ _ Hsg) as [R1 R2 R3 R4 R5 R6]. split_and!; [done| |].
  - intros Hc. rewrite <- (achieved_target sg R4). by apply R3.
  - intros all. unfold IsDependencyMet. by rewrite R5.
Qed.

(** ** Measuring progress, without faults *)

Section progress.
Context {U : UuidPkg} {H : UuidSHA1} {X : Type} (e : GoalEngine X).
Implicit Types db : GPDB.

(** The status an active subgoal gets. *)
Definition verdict (now : time) (sg : Subgoal) : string :=
  if achieved sg then SubgoalCompleted
  else if IsStale sg now && fltb (MeasureProgress sg) BlockedProgressThreshold then SubgoalBlocked
  else SubgoalActive.

Definition progressed (now : time) (sg sg' : Subgoal) : Prop :=
  fixed sg' = fixed sg ∧ sg_Strategy sg' = sg_Strategy sg ∧ sg_LastTaskEmitted sg' = sg_LastTaskEmitted sg ∧
  sg_ProgressScore sg' = MeasureProgress sg ∧ sg_Status sg' = verdict now sg.

Lemma calm_exec_now clock (stmt : time → GPDB → res (unit * GPDB)) (P : GPDB → X → Prop) Q :
  (∀ db x now, P db x → match stmt now db with Ok (_, db') => Q None db' x | Err err => Q (Some err) db x end) →
  triple (calm P) (exec_now clock stmt) (fun err => calm (Q err)).
Proof using.
  intros Hst. eapply triple_bind; [apply calm_reading|]. intros now.
  eapply triple_bind; [apply (calm_statement _ _ (fun r => Q (failed r)))|].
  - intros db x HP. specialize (Hst db x now HP). by destruct (stmt now db) as [[[] db']|err].
  - intros r. by apply calm_ret.
Qed.

(** The rows relative to those at the start. *)
Definition partway (now : time) (db0 : GPDB) (todo : list Subgoal) (db : GPDB) (x : X) : Prop :=
  (∀ sg, sg ∈ todo → gp_subgoals db !! sg_ID sg = Some sg) ∧
  ∀ id, match gp_subgoals db0 !! id with
        | None => gp_subgoals db !! id = None
        | Some sg => ∃ sg', gp_subgoals db !! id = Some sg' ∧
            (if bool_decide (sg_Status sg = SubgoalActive) && bool_decide (id ∉ map sg_ID todo)
             then progressed now sg sg' else sg' = sg)
        end.

(** One row replaced. *)
Lemma partway_step now db0 sg sg' todo db db' (x : X) :
  sg_ID sg ∉ map sg_ID todo → gp_subgoals db0 !! sg_ID sg = Some sg → sg_Status sg = SubgoalActive →
  gp_subgoals db' = <[sg_ID sg := sg']> (gp_subgoals db) →
  progressed now sg sg' → partway now db0 (sg :: todo) db x → partway now db0 todo db' x.
Proof using.
  intros Hno H0 Hact Hdb' Hp [H1 H2]. split.
  - intros y Hy. rewrite Hdb', lookup_insert_ne; [apply H1; by right|].
    intros E. apply Hno. rewrite E. by apply (list_elem_of_fmap_2 sg_ID).
  - intros id. specialize (H2 id). rewrite Hdb'. destruct (decide (sg_ID sg = id)) as [<-|Hne].
    + rewrite H0, lookup_insert_eq. exists sg'. split; [done|].
      by rewrite (bool_decide_eq_true_2 (sg_Status sg = _)), (bool_decide_eq_true_2 (_ ∉ _)) by done.
    + rewrite lookup_insert_ne by done.
      destruct (gp_subgoals db0 !! id) as [y|]; [|done]. destruct H2 as (y' & Hy' & Hif). exists y'. split; [done|].
      rewrite (bool_decide_ext (id ∉ map sg_ID todo) (id ∉ map sg_ID (sg :: todo))); [done|].
      cbn. rewrite not_elem_of_cons. split; [intros; by split|tauto].
Qed.

Lemma progress_one_exact all now db0 sg todo :
  sg_ID sg ∉ map sg_ID todo → gp_subgoals db0 !! sg_ID sg = Some sg → sg_Status sg = SubgoalActive →
  triple (calm (partway now db0 (sg :: todo))) (update_progress_one e all now sg)
    (fun err => calm (fun db x => err = None ∧ partway now db0 todo db x)).
Proof using.
  intros Hno H0 Hact. unfold update_progress_one. cbv zeta.
  set (set_progress t (row : Subgoal) := row <| sg_ProgressScore := MeasureProgress sg |>
    <| sg_CurrentValue := sg_CurrentValue sg |> <| sg_UpdatedAt := trunc_us t |>).
  assert (∃ Mid, Mid = fun db (x : X) => ∃ dbp t, partway now db0 (sg :: todo) dbp x ∧
    gp_subgoals db = <[sg_ID sg := set_progress t sg]> (gp_subgoals dbp)) as [Mid HMid] by by eexists.
  eapply triple_bind; [apply (calm_exec_now _ _ _ (fun err db x => err = None ∧ Mid db x))|].
  { intros db x t Hp. cbn. split; [done|]. rewrite HMid. exists db, t. split; [done|]. cbn.
    pose proof (proj1 Hp sg ltac:(by left)) as Hrow. apply map_eq. intros id.
    rewrite lookup_insert. case_decide as E; [subst id; by rewrite lookup_alter_eq, Hrow|by rewrite lookup_alter_ne]. }
  intros [err|].
  { intros s [_ [? _]]; done. }
  apply (triple_bind _ _ (fun _ => calm Mid)); [intros s (Hf & _ & HM); by split|]. intros id.
  apply (triple_bind _ _ (fun _ => calm Mid)).
  { apply triple_dropped. eapply triple_bind; [apply (calm_statement _ _ (fun _ => Mid))|intros r; by apply calm_ret].
    intros db x HM. pose proof HM as HM'. rewrite HMid in HM'. destruct HM' as (dbp & t & Hp & Hdb). unfold insert_progress. cbn.
    destruct (gp_progress db !! id); [done|]. destruct (gp_subgoals db !! _); [|done]. rewrite HMid. by exists dbp, t. }
  intros ?.
  assert (Hset : ∀ status reason ev, status = verdict now sg →
    triple (calm Mid)
      (let! err := SubgoalStore_UpdateStatus (ge_clock e) (sg_ID sg) status reason in
       match err with
       | Some err => retS (Some err)
       | None => let! _ := goal_audit e ev (sg_ID sg) in retS None
       end) (fun err => calm (fun db x => err = None ∧ partway now db0 todo db x))).
  { intros status reason ev Hv.
    eapply triple_bind; [apply (calm_exec_now _ _ _ (fun err db x => err = None ∧ partway now db0 todo db x))|].
    { intros db x t HM. rewrite HMid in HM. destruct HM as (dbp & t' & Hp & Hdb). cbn. split; [done|].
      eapply (partway_step now db0 sg ((set_progress t' sg) <| sg_Status := status |> <| sg_BlockReason := reason |>
                <| sg_UpdatedAt := trunc_us t |>)); [done|done|done| | |exact Hp].
      - cbn. rewrite Hdb. apply map_eq. intros k. rewrite lookup_insert. case_decide as E.
        + subst k. by rewrite lookup_alter_eq, lookup_insert_eq.
        + by rewrite lookup_alter_ne, lookup_insert_ne.
      - by split_and!. }
    intros [err|]; [intros s [_ [? _]]; done|]. eapply triple_bind; [apply calm_audit|]. intros ?.
    apply calm_ret. by intros db x [_ ?]. }
  unfold ShouldAutoComplete, ShouldBlock, IsStale in *. cbn [sg_Status sg_ProgressScore set_field sg_UpdatedAt].
  rewrite !(bool_decide_eq_true_2 (sg_Status sg = SubgoalActive)) by done. cbn [andb].
  fold (IsStale sg now). change (fleb MinProgressToComplete (MeasureProgress sg)) with (achieved sg).
  unfold verdict in Hset.
  destruct (achieved sg) eqn:Ha; [by apply Hset|].
  destruct (IsStale sg now && fltb (MeasureProgress sg) BlockedProgressThreshold) eqn:Hb; [by apply Hset|].
  apply calm_ret. intros db x HM. rewrite HMid in HM. destruct HM as (dbp & t & Hp & Hdb). split; [done|].
  eapply (partway_step now db0 sg (set_progress t sg)); [done|done|done|exact Hdb| |exact Hp].
  split_and!; try done. unfold verdict. by rewrite Ha, Hb.
Qed.

(** One measurement, exactly.  Without database faults [UpdateProgress]
    succeeds and, for every active subgoal, stores the progress its target and
    current value measure and completes it if that reaches 0.90; otherwise it is
    blocked if it was last touched more than 24 hours ago with progress below
    0.10, and stays active if not.  Other subgoals are left alone. *)
Theorem update_progress_exact zero (s : Agent GPDB X) :
  ag_faults s = [] → sound zero (ag_db s) →
  let now := ge_clock e (ag_reads s) in
  let '(err, s') := UpdateProgress e s in
  err = None ∧ ∀ id, match gp_subgoals (ag_db s) !! id with
    | None => gp_subgoals (ag_db s') !! id = None
    | Some sg => ∃ sg', gp_subgoals (ag_db s') !! id = Some sg' ∧
        if bool_decide (sg_Status sg = SubgoalActive) then progressed now sg sg' else sg' = sg
    end.
Proof using.
  intros Hf Hs. cbv zeta. unfold UpdateProgress. rewrite bindS_run.
  unfold SubgoalStore_ListActive, listWhere. rewrite (statement_run _ s Hf). cbn [fst snd].
  set (active := subgoals_where _ (ag_db s)). unfold ge_now, reading. rewrite bindS_run. cbn [fst snd ag_reads].
  set (now := ge_clock e (ag_reads s)).
  assert (Hrow : ∀ sg, sg ∈ active → gp_subgoals (ag_db s) !! sg_ID sg = Some sg ∧ sg_Status sg = SubgoalActive).
  { intros sg [[id Hid] HP%bool_decide_eq_true]%subgoals_where_elem.
    by rewrite (row_id _ _ _ (sound_rows _ _ Hs _ _ Hid)). }
  assert (Hin : ∀ id sg, gp_subgoals (ag_db s) !! id = Some sg → sg_Status sg = SubgoalActive → id ∈ map sg_ID active).
  { intros id sg Hid Hact. rewrite <- (row_id _ _ _ (sound_rows _ _ Hs _ _ Hid)).
    apply (list_elem_of_fmap_2 sg_ID), subgoals_where_elem. split; [by exists id|by apply bool_decide_eq_true]. }
  assert (Hnd : NoDup (map sg_ID active)) by by eapply subgoals_where_nodup.
  assert (Hloop : ∀ all todo, NoDup (map sg_ID todo) →
    (∀ sg, sg ∈ todo → gp_subgoals (ag_db s) !! sg_ID sg = Some sg ∧ sg_Status sg = SubgoalActive) →
    triple (calm (partway now (ag_db s) todo)) (update_progress_loop e all now todo)
      (fun err => calm (fun db x => err = None ∧ partway now (ag_db s) [] db x))).
  { intros all. induction todo as [|sg todo IH]; intros Hnd' Hrows; cbn [update_progress_loop].
    { by apply calm_ret. }
    apply NoDup_cons in Hnd' as [Hno Hnd']. destruct (Hrows sg ltac:(by left)) as [H1 H2].
    eapply triple_bind; [by apply progress_one_exact|].
    intros [err|]; [intros s1 [_ [? _]]; done|].
    eapply triple_weaken; [apply IH; [done|intros y Hy; apply Hrows; by right]| |done]. by intros s1 (? & _ & ?). }
  set (s1 := s <| ag_reads := S (ag_reads s) |>).
  assert (Hlist : triple (calm (partway now (ag_db s) active))
    (let! all := list_all_or_none in update_progress_loop e all now active)
    (fun err => calm (fun db x => err = None ∧ partway now (ag_db s) [] db x))).
  { apply (triple_bind _ _ (fun _ => calm (partway now (ag_db s) active))); [|intros all; by apply Hloop].
    eapply triple_bind; [apply (calm_statement _ _ (fun _ => partway now (ag_db s) active)); by intros db x|].
    intros r. by apply calm_ret. }
  assert (Hstart : calm (partway now (ag_db s) active) s1).
  { split; [done|]. split; [by intros sg [? _]%Hrow|]. cbn. intros id.
    destruct (gp_subgoals (ag_db s) !! id) as [sg|] eqn:Hid; [|done]. exists sg. split; [done|].
    case_bool_decide as Hact; [|done]. rewrite bool_decide_eq_false_2; [done|].
    intros Hno. by apply Hno, (Hin id sg). }
  specialize (Hlist s1 Hstart).
  match goal with |- let '(_, _) := ?t in _ =>
    change t with ((let! all := list_all_or_none in update_progress_loop e all now active) s1) end.
  destruct ((let! all := list_all_or_none in update_progress_loop e all now active) s1) as [err s'].
  destruct Hlist as (_ & Herr & _ & Hrows). cbn [fst snd] in Herr, Hrows. split; [exact Herr|]. intros id. specialize (Hrows id).
  destruct (gp_subgoals (ag_db s) !! id) as [sg|]; [|done]. destruct Hrows as (sg' & H1 & H2). exists sg'.
  split; [done|]. by rewrite (bool_decide_eq_true_2 (id ∉ _)), andb_true_r in H2 by (cbn; apply not_elem_of_nil).
Qed.
End progress.

(** ** Emission of tasks *)

(** What the receiver of tasks is called with. *)
Record Call := mkCall {
  ca_SubgoalID : string;
  ca_GoalID : string;
  ca_ActionType : string;
  ca_Urgency : float64;
  ca_ExpectedValue : float64;
  ca_RiskLevel : float64;
  ca_StrategyType : string
}.

Definition call_of (em : TaskEmission) : Call :=
  mkCall (em_SubgoalID em) (em_GoalID em) (em_ActionType em) (em_Urgency em) (em_ExpectedValue em)
    (em_RiskLevel em) (em_StrategyType em).

(** A receiver that keeps its calls and answers the [n]-th with [answer n]. *)
Definition recorder (answer : nat → option error) : Emit (list Call) :=
  fun subgoalID goalID actionType urgency expectedValue riskLevel strategyType calls =>
    (answer (length calls), calls ++ [mkCall subgoalID goalID actionType urgency expectedValue riskLevel strategyType]).

(** A subgoal with work to do and no task emitted for it lately. *)
Definition wants_task (now : time) (sg : Subgoal) : Prop :=
  sg_Status sg = SubgoalActive ∧ fleb MinProgressToComplete (sg_ProgressScore sg) = false ∧
  in_cooldown sg now = false.

Lemma needs_task_iff all now sg : sg_DependsOn sg = "" → needs_task all now sg = true ↔ wants_task now sg.
Proof.
  intros Hd. unfold needs_task, wants_task, IsDependencyMet. rewrite (bool_decide_eq_true_2 (sg_DependsOn sg = "")) by done.
  rewrite !andb_true_iff, bool_decide_eq_true, !negb_true_iff. tauto.
Qed.

Lemma emission_before_asym x y : emission_before x y = true → emission_before y x = false.
Proof.
  unfold emission_before. intros [H|[H1 H2]%andb_true_iff]%orb_true_iff; apply orb_false_iff.
  - split; [by apply fltb_asym|]. apply andb_false_iff. left. revert H. float_order.
  - split; [|apply andb_false_iff; right; by apply ltb_asym]. revert H1. float_order.
Qed.

Section emission.
Context {U : UuidPkg} {H : UuidSHA1} (answer : nat → option error).
Abbreviation X := (list Call).
Context (e : GoalEngine X).

(** The row of an emission that was accepted without faults. *)
Definition stamped (now : time) (id : string) (db : GPDB) : Prop :=
  ∀ sg, gp_subgoals db !! id = Some sg → sg_LastTaskEmitted sg = trunc_us now.

(** The calls, and how many were accepted; [db0] the rows before. *)
Lemma emit_loop_calls now ems emitted calls0 :
  triple (fun s : Agent GPDB X => ag_ext s = calls0) (emit_loop e (recorder answer) now ems emitted)
    (fun n s => ag_ext s = calls0 ++ map call_of ems ∧ emitted ≤ n ≤ emitted + Z.of_nat (length ems)).
Proof using.
  revert emitted calls0. induction ems as [|em ems IH]; intros emitted calls0; cbn [emit_loop].
  { apply triple_ret. intros s ->. cbn. rewrite app_nil_r. split; [done|lia]. }
  set (calls1 := calls0 ++ [call_of em]).
  apply (triple_bind _ _ (fun _ s => ag_ext s = calls1)).
  { intros s Hs. unfold provider. cbn. by rewrite Hs. }
  assert (Hrest : ∀ n, triple (fun s : Agent GPDB X => ag_ext s = calls1) (emit_loop e (recorder answer) now ems n)
    (fun m s => ag_ext s = calls0 ++ map call_of (em :: ems) ∧ n ≤ m ≤ n + Z.of_nat (length ems))).
  { intros n. eapply triple_weaken; [apply (IH n calls1)|done|]. intros m s [H1 H2]. split; [|done].
    rewrite H1. unfold calls1. by rewrite <- app_assoc. }
  intros [err|].
  - eapply triple_weaken; [apply Hrest|done|]. intros m s [H1 H2]. cbn [length]. split; [done|lia].
  - apply (triple_bind _ _ (fun _ s => ag_ext s = calls1)).
    { apply (triple_keeps_ext (fun x => x = calls1)). unfold SubgoalStore_UpdateLastTaskEmitted, exec_now, exec. keeps_ext_steps. }
    intros ?. apply (triple_bind _ _ (fun _ s => ag_ext s = calls1)).
    { apply (triple_keeps_ext (fun x => x = calls1)). unfold goal_audit. keeps_ext_steps. }
    intros ?. eapply triple_weaken; [apply Hrest|done|]. intros m s [H1 H2]. cbn [length]. split; [done|lia].
Qed.

(** Without faults every accepted emission is stamped on its row, and stays. *)
Lemma emit_loop_stamps now ems emitted n0 (done_ids : list string) :
  triple (calm (fun db (calls : X) => length calls = n0 ∧ ∀ id, id ∈ done_ids → stamped now id db))
    (emit_loop e (recorder answer) now ems emitted)
    (fun _ => calm (fun db _ => (∀ id, id ∈ done_ids → stamped now id db) ∧
       ∀ i em, ems !! i = Some em → answer (n0 + i)%nat = None → stamped now (em_SubgoalID em) db)).
Proof using.
  revert emitted n0 done_ids. induction ems as [|em ems IH]; intros emitted n0 done_ids; cbn [emit_loop].
  { apply calm_ret. intros db x [_ Hd]. by split. }
  apply (triple_bind _ _ (fun err => calm (fun db (calls : X) =>
    (length calls = S n0 ∧ ∀ id, id ∈ done_ids → stamped now id db) ∧ err = answer n0))).
  { apply calm_provider. intros db x [Hn Hd]. cbn. rewrite length_app, Hn. cbn. split; [split; [lia|done]|done]. }
  assert (Hnext : ∀ (ids : list string) m, (∀ id, id ∈ done_ids → id ∈ ids) → (answer n0 = None → em_SubgoalID em ∈ ids) →
    triple (calm (fun db (calls : X) => length calls = S n0 ∧ ∀ id, id ∈ ids → stamped now id db))
      (emit_loop e (recorder answer) now ems m)
      (fun _ => calm (fun db _ => (∀ id, id ∈ done_ids → stamped now id db) ∧
         ∀ i em', (em :: ems) !! i = Some em' → answer (n0 + i)%nat = None → stamped now (em_SubgoalID em') db))).
  { intros ids m Hsub Hem. eapply triple_weaken; [apply (IH m (S n0) ids)|done|].
    intros k s (Hf & H1 & H2). split; [done|]. split; [by auto|]. intros [|i] em' Hi Ha; cbn in Hi.
    - injection Hi as <-. rewrite Nat.add_0_r in Ha. by apply H1, Hem.
    - apply (H2 i); [done|]. by replace (S n0 + i)%nat with (n0 + S i)%nat by lia. }
  intros [err|].
  - apply calm_fact. intros Ha. apply (Hnext done_ids); [done|congruence].
  - apply calm_fact. intros Ha.
    apply (triple_bind _ _ (fun _ => calm (fun db (calls : X) =>
      length calls = S n0 ∧ ∀ id, id ∈ em_SubgoalID em :: done_ids → stamped now id db))).
    { apply triple_dropped. apply (calm_exec_now _ _
        (fun db (calls : X) => length calls = S n0 ∧ ∀ id, id ∈ done_ids → stamped now id db)
        (fun _ db (calls : X) => length calls = S n0 ∧ ∀ id, id ∈ em_SubgoalID em :: done_ids → stamped now id db)).
      intros db x t [Hn Hd]. cbn. split; [done|]. intros id Hid sg. cbn. rewrite lookup_alter. case_decide as E.
      - intros (y & _ & ->)%fmap_Some. done.
      - apply Hd. apply elem_of_cons in Hid as [->|]; [by destruct E|done]. }
    intros ?. eapply triple_bind; [apply calm_audit|]. intros ?. apply Hnext; [by right|by left].
Qed.

(** Active rows replace themselves. *)
Lemma active_rows zero db (P Q : Subgoal → bool) : sound zero db →
  map (fun sg => default sg (fold_left (fun m sg => <[sg_ID sg := sg]> m) (subgoals_where P db)
                               (∅ : gmap string Subgoal) !! sg_ID sg)) (subgoals_where Q db) = subgoals_where Q db.
Proof using.
  intros Hs. assert (Hrow : ∀ R sg, sg ∈ subgoals_where R db → gp_subgoals db !! sg_ID sg = Some sg).
  { intros R sg [[id Hid] _]%subgoals_where_elem. by rewrite (row_id _ _ _ (sound_rows _ _ Hs _ _ Hid)). }
  assert (Hmap : ∀ l (m : gmap string Subgoal), (∀ sg, sg ∈ l → gp_subgoals db !! sg_ID sg = Some sg) →
    (∀ k (a : Subgoal), m !! k = Some a → gp_subgoals db !! k = Some a) →
    ∀ k a, fold_left (fun m sg => <[sg_ID sg := sg]> m) l m !! k = Some a → gp_subgoals db !! k = Some a).
  { induction l as [|sg l IH]; intros m Hl Hm; cbn; [done|]. apply IH; [intros y Hy; apply Hl; by right|].
    intros k a. rewrite lookup_insert. case_decide as E; [intros [= <-]; subst k; apply Hl; by left|apply Hm]. }
  rewrite <- (map_id (subgoals_where Q db)) at 2. apply map_ext_in. intros sg Hsg%list_elem_of_In.
  destruct (_ !! sg_ID sg) as [a|] eqn:E; [|done]. cbn.
  apply Hmap in E; [|apply Hrow|intros k b; by rewrite lookup_empty]. apply Hrow in Hsg. congruence.
Qed.

(** The receiver's call for a subgoal, under some strategy. *)
Definition call_for (now : time) (sg : Subgoal) (c : Call) : Prop := ∃ strategy,
  strategy ∈ [StrategyExploitSuccess; StrategyReduceFailure; StrategyDiversify; StrategyDeferHighRisk] ∧
  c = call_of (ApplyStrategyToEmission (emission_for now sg) strategy).

Lemma SelectStrategy_range sg delta exploration risk :
  SelectStrategyWithVector sg delta exploration risk ∈
    [StrategyExploitSuccess; StrategyReduceFailure; StrategyDiversify; StrategyDeferHighRisk].
Proof using.
  unfold SelectStrategyWithVector. cbv zeta.
  match goal with |- context [fltb delta ?t] => generalize t; intros threshold end.
  destruct (fltb delta threshold); [|case_bool_decide; [|destruct (_ && _); [|destruct (_ && _)]]];
    apply (bool_decide_unpack _); by vm_compute.
Qed.

Lemma adjusted_call activeMap delta vector now sg :
  call_for now sg (call_of (adjust_emission activeMap delta vector (emission_for now sg))).
Proof using.
  unfold adjust_emission, call_for. destruct (default (f0, f0, f0) vector) as [[exploration risk] income].
  eexists. split; [apply SelectStrategy_range|]. by destruct vector.
Qed.

(** The subgoals to emit for, best first. *)
Lemma planned zero db now : sound zero db →
  ∃ due, map (emission_for now) due = PlanTasks (subgoals_where (fun _ => true) db) now ∧
    NoDup (map sg_ID due) ∧
    (∀ sg, sg ∈ due ↔ (∃ id, gp_subgoals db !! id = Some sg) ∧ wants_task now sg) ∧
    ∀ i x y, due !! i = Some x → due !! S i = Some y →
      emission_before (emission_for now y) (emission_for now x) = false.
Proof using.
  intros Hs. set (rows := subgoals_where (fun _ => true) db). unfold PlanTasks, sortEmissions.
  set (wanting := List.filter (needs_task rows now) rows).
  destruct (Permutation_map_inv (emission_for now) wanting (l1 := insertionSort emission_before (map (emission_for now) wanting)))
    as (due & Hdue & Hperm); [apply insertionSort_perm|].
  exists due. split; [done|]. split_and!.
  - rewrite <- Hperm. eapply sublist_NoDup; [by apply (subgoals_where_nodup zero (fun _ => true) db)|].
    apply (fmap_sublist sg_ID). fold rows. unfold wanting. clear. generalize (needs_task rows now). intros f.
    induction rows as [|x l IH]; cbn; [constructor|]. destruct (f x); by constructor.
  - intros sg. rewrite <- Hperm. unfold wanting. rewrite list_elem_of_In, filter_In, <- list_elem_of_In.
    unfold rows at 1. rewrite subgoals_where_elem. split.
    + intros [[Hid _] Hn]. split; [done|]. destruct Hid as [id Hid].
      apply (needs_task_iff rows); [apply (row_depends zero id), (sound_rows _ _ Hs _ _ Hid)|done].
    + intros [Hid Hw]. split; [done|]. destruct Hid as [id Hid].
      apply (needs_task_iff rows); [apply (row_depends zero id), (sound_rows _ _ Hs _ _ Hid)|done].
  - intros i x y Hx Hy. apply (insertionSort_neighbours emission_before emission_before_asym
      (map (emission_for now) wanting) i); rewrite Hdue, list_lookup_fmap; [by rewrite Hx|by rewrite Hy].
Qed.

(** The state up to readings; [quiet0]: there were no faults. *)
Definition unmoved (quiet0 : bool) (db0 : GPDB) (x0 : X) (s : Agent GPDB X) : Prop :=
  ag_db s = db0 ∧ ag_ext s = x0 ∧ (quiet0 = true → ag_faults s = []).

Lemma unmoved_reading {A} q db0 x0 (f : nat → A) :
  triple (unmoved q db0 x0) (reading f) (fun _ => unmoved q db0 x0).
Proof using. intros s Hs. exact Hs. Qed.

Lemma unmoved_listWhere q db0 x0 P :
  triple (unmoved q db0 x0) (listWhere P)
    (fun r s => unmoved q db0 x0 s ∧ match r with Ok rows => rows = subgoals_where P db0 | Err _ => q = false end).
Proof using.
  intros s (H1 & H2 & H3). unfold listWhere, statement, unmoved.
  destruct (ag_faults s) as [|f fs] eqn:Ef; cbn.
  - by rewrite H1.
  - assert (Hq : q = false) by (destruct q; [by specialize (H3 eq_refl)|done]).
    destruct f; cbn; rewrite ?Hq; split_and!; try done; by rewrite H1.
Qed.

Lemma unmoved_delta q db0 x0 : triple (unmoved q db0 x0) (objective_delta (ge_objective e)) (fun _ => unmoved q db0 x0).
Proof using.
  unfold objective_delta. destruct (ge_objective e); [|by apply triple_ret].
  eapply triple_bind; [apply unmoved_reading|]. intros u. by apply triple_ret.
Qed.

Lemma unmoved_vector q db0 x0 : triple (unmoved q db0 x0) (read_vector e) (fun _ => unmoved q db0 x0).
Proof using.
  unfold read_vector. destruct (ge_vector e) as [v|]; [|by apply triple_ret].
  do 3 (eapply triple_bind; [apply unmoved_reading|]; intros ?). by apply triple_ret.
Qed.

(** What one emission run does, [due] being what the tables call for. *)
Definition emitted_for (q : bool) (db0 : GPDB) (x0 : X) (out : Z * option error) (s' : Agent GPDB X) : Prop :=
  ∃ now due calls, ag_ext s' = x0 ++ calls ∧ 0 ≤ fst out ≤ Z.of_nat (length calls) ∧
    NoDup (map sg_ID due) ∧ (∀ sg, sg ∈ due ↔ (∃ id, gp_subgoals db0 !! id = Some sg) ∧ wants_task now sg) ∧
    (∀ i x y, due !! i = Some x → due !! S i = Some y →
       emission_before (emission_for now y) (emission_for now x) = false) ∧
    (q = false ∧ calls = [] ∨ Forall2 (call_for now) (take MaxTasksPerPlan due) calls) ∧
    (q = true → snd out = None ∧ ∀ i c, calls !! i = Some c → answer (length x0 + i)%nat = None →
       stamped now (ca_SubgoalID c) (ag_db s')).

Lemma emitted_nothing zero db0 x0 err (s' : Agent GPDB X) : sound zero db0 → unmoved false db0 x0 s' →
  emitted_for false db0 x0 (0, err) s'.
Proof using e.
  intros Hs (H1 & H2 & _). destruct (planned zero db0 0 Hs) as (due & _ & P2 & P3 & P4).
  exists 0, due, []. rewrite app_nil_r. cbn. split_and!; try done. by left.
Qed.

Lemma emit_emitted zero q db0 x0 now activeMap delta vector (s : Agent GPDB X) : sound zero db0 → unmoved q db0 x0 s →
  let ems := map (adjust_emission activeMap delta vector)
               (take MaxTasksPerPlan (PlanTasks (subgoals_where (fun _ => true) db0) now)) in
  emitted_for q db0 x0 (fst (emit_loop e (recorder answer) now ems 0 s), None)
    (snd (emit_loop e (recorder answer) now ems 0 s)).
Proof using.
  intros Hs (H1 & H2 & H3). cbv zeta. destruct (planned zero db0 now Hs) as (due & P1 & P2 & P3 & P4).
  rewrite <- P1, firstn_map, map_map.
  set (ems := map (fun x => adjust_emission activeMap delta vector (emission_for now x)) (take MaxTasksPerPlan due)).
  destruct (emit_loop_calls now ems 0 x0 s H2) as [Hcalls Hn].
  exists now, due, (map call_of ems). split; [done|]. split; [by rewrite length_map|].
  do 3 (split; [done|]). split.
  - right. unfold ems. rewrite map_map. generalize (take MaxTasksPerPlan due). intros l.
    induction l as [|sg l IH]; cbn; constructor; [apply adjusted_call|done].
  - intros Hq. split; [done|]. intros i c Hc Ha. rewrite list_lookup_fmap in Hc.
    apply fmap_Some in Hc as (em & Hem & ->). cbn.
    destruct (emit_loop_stamps now ems 0 (length x0) [] s) as (_ & _ & Hst).
    + split; [by apply H3|]. split; [by rewrite H2|]. by intros id ?%elem_of_nil.
    + by apply (Hst i em).
Qed.
End emission.

(** C24: Tasks are emitted for the subgoals that need one, and only for them.
    Whatever the receiver answers and whatever fails, the receiver is called for
    the first ten, best first, of the active subgoals that are not achieved and
    got no task in the last 30 minutes, once each, with the task computed from
    their rows; only a database fault makes the engine call for none.  Without
    faults every accepted task stamps its subgoal, which excludes it for the
    next 30 minutes. *)
Theorem emissions_are_due {U : UuidPkg} {H : UuidSHA1} zero answer (e : GoalEngine (list Call)) s :
  ge_emitter e = Some (recorder answer) → sound zero (ag_db s) →
  let '(out, s') := PlanAndEmitTasks e s in
  emitted_for answer (bool_decide (ag_faults s = [])) (ag_db s) (ag_ext s) out s'.
Proof.
  intros He Hs. set (q := bool_decide (ag_faults s = [])). set (db0 := ag_db s). set (x0 := ag_ext s).
  assert (Hstart : unmoved q db0 x0 s) by (split_and!; [done|done|apply bool_decide_eq_true_1]).
  assert (Hrun : triple (unmoved q db0 x0) (PlanAndEmitTasks e) (emitted_for answer q db0 x0)).
  { unfold PlanAndEmitTasks. eapply triple_bind; [apply unmoved_listWhere|]. intros [active|err].
    2: { apply triple_ret. intros s1 [H1 ->]. by eapply emitted_nothing. }
    apply (triple_know (active = subgoals_where (fun sg => bool_decide (sg_Status sg = SubgoalActive)) db0));
      [by intros s1 [_ ?]|]. intros ->.
    apply (triple_bind _ _ (fun all s1 => unmoved q db0 x0 s1 ∧
      (all = subgoals_where (fun _ => true) db0 ∨ q = false ∧ all = []))).
    { unfold list_all_or_none. eapply triple_bind.
      - eapply triple_weaken; [apply (unmoved_listWhere q db0 x0 (fun _ => true))|by intros s1 [? _]|]. intros r s1 Hs1. exact Hs1.
      - intros r. apply triple_ret. intros s1 [H1 H2]. split; [done|]. destruct r; [by left|by right]. }
    intros all. cbv zeta.
    apply (triple_know (all = subgoals_where (fun _ => true) db0 ∨ q = false ∧ all = [])); [by intros s1 [_ ?]|]. intros Hall.
    apply (triple_bind _ _ (fun _ => unmoved q db0 x0));
      [eapply triple_weaken; [apply (unmoved_delta e)|by intros s1 [? _]|done]|]. intros delta.
    eapply triple_bind; [apply (unmoved_vector e)|]. intros vector.
    eapply triple_bind; [apply unmoved_reading|]. intros now. rewrite He.
    set (activeMap := fold_left _ _ _).
    intros s1 Hs1. rewrite bindS_run. cbn [fst snd retS]. destruct Hall as [->|[Hq ->]].
    - unfold activeMap. rewrite (active_rows zero db0 _ (fun _ => true) Hs). by eapply emit_emitted.
    - rewrite Hq in *. by eapply emitted_nothing. }
  specialize (Hrun s Hstart). by destruct (PlanAndEmitTasks e s).
Qed.
