(* ===== verification/GoalPlanningDemo.v ===== *)
(** * Goal planning on concrete goals

    Witnesses that the hypotheses of the theorems hold, and a decomposition that
    a database error leaves incomplete. *)

From stdpp Require Import base gmap strings list tactics numbers fin_maps.
From Stdlib Require Import ZArith Lia.
From S2P Require Import Prelude GoFloat Models GoTime AgentWorld Fixtures DependencyGraph GoalPlanning GoalPlanningProps.

Open Scope Z_scope.

#[local] Existing Instance demo_uuid.

(** Different seeds get different ids. *)
#[local] Instance demo_sha1 : UuidSHA1 := fun seed => seed.

(** A clock that advances a minute per reading. *)
Definition demo_minutes (n : nat) : time := 1700000000 * Second + Z.of_nat n * Minute.

(** The receiver accepts everything but its second call. *)
Definition demo_answer (n : nat) : option error :=
  if bool_decide (n = 1%nat) then Some (Errorf "task refused") else None.

Definition demo_engine : GoalEngine (list Call) :=
  mkGoalEngine demo_minutes true DefaultDecompositionRules true true None None
    (Some (recorder demo_answer)) None.

Definition demo_goals : list SystemGoal :=
  [mkSystemGoal "monthly_income" "income" (lit 90 100) "medium_term" [mkMetric "verified_monthly_income" "10000"];
   mkSystemGoal "family_safety" "safety" f1 "continuous" []].

Definition demo_start (faults : list Fault) : Agent GPDB (list Call) :=
  mkAgent (mkGPDB ∅ ∅ ∅ ∅) [] 0 0 faults [].

(** The ids, statuses and progress of the rows of a goal, in listing order. *)
Definition demo_rows (goalID : string) (s : Agent GPDB (list Call)) : list (string * string) :=
  map (fun sg => (sg_ID sg, sg_Status sg)) (subgoals_where (fun sg => bool_decide (sg_GoalID sg = goalID)) (ag_db s)).

Definition demo_run (ops : list GPOp) (faults : list Fault) := run_gps demo_engine ops (demo_start faults).

(** Two cycles: the governance subgoal, whose target is 0, completes at once;
    four tasks are asked for and none again within the half hour, except for the
    refused one. *)
Example demo_cycles :
  let s := demo_run [OpCycle demo_goals; OpCycle demo_goals] [] in
  demo_rows "monthly_income" s =
    [("monthly_income:0", SubgoalActive); ("monthly_income:1", SubgoalActive); ("monthly_income:2", SubgoalActive)] ∧
  demo_rows "family_safety" s = [("family_safety:0", SubgoalActive); ("family_safety:1", SubgoalCompleted)] ∧
  map ca_SubgoalID (ag_ext s) =
    ["family_safety:0"; "monthly_income:0"; "monthly_income:1"; "monthly_income:2"; "monthly_income:0"].
Proof. by vm_compute. Qed.

(** An error at the fourth statement of the decomposition, the second subgoal's
    row, leaves a goal with one subgoal of three for good. *)
Definition demo_partial : Agent GPDB (list Call) :=
  demo_run [OpCycle demo_goals] [NoFault; NoFault; NoFault; FaultBefore (Errorf "connection lost")].

Example demo_partial_stays :
  demo_rows "monthly_income" demo_partial = [("monthly_income:0", SubgoalNotStarted)] ∧
  demo_rows "monthly_income" (run_gps demo_engine [OpCycle demo_goals; OpCycle demo_goals] demo_partial) =
    [("monthly_income:0", SubgoalActive)].
Proof. by vm_compute. Qed.

(** ** Witnesses *)

Lemma demo_sound ops faults : sound Manual (ag_db (demo_run ops faults)).
Proof. apply (run_gps_tracks demo_engine); [done|apply any_calls|apply sound_empty]. Qed.

(** The governance subgoal is activated, given up by hand, and left alone. *)
Definition demo_moves : list GPOp :=
  [OpActivate; OpTransition "family_safety:1" SubgoalFailed "given up"; OpTransition "family_safety:1" SubgoalActive "";
   OpProgress].

Lemma subgoals_follow_lifecycle_witness :
  let s := demo_run [OpDecompose demo_goals] [] in
  ∃ sg sg', gp_subgoals (ag_db s) !! "family_safety:1" = Some sg ∧ sg_Status sg = SubgoalNotStarted ∧
    gp_subgoals (ag_db (run_gps demo_engine demo_moves s)) !! "family_safety:1" = Some sg' ∧
    sg_Status sg' = SubgoalFailed ∧ walk demo_moves "family_safety:1" (sg_Status sg) (sg_Status sg').
Proof.
  cbv zeta. set (s := demo_run _ _).
  assert (H : ∃ sg, gp_subgoals (ag_db s) !! "family_safety:1" = Some sg ∧ sg_Status sg = SubgoalNotStarted)
    by (eexists; split; vm_compute; reflexivity).
  assert (H' : (sg_Status <$> gp_subgoals (ag_db (run_gps demo_engine demo_moves s)) !! "family_safety:1")
    = Some SubgoalFailed) by (vm_compute; reflexivity).
  destruct H as (sg & H1 & H2).
  destruct (subgoals_follow_lifecycle demo_engine demo_moves s (demo_sound _ _)) as (_ & Hrows & _).
  destruct (Hrows _ _ H1) as (sg' & H3 & _ & H4). exists sg, sg'. rewrite H3 in H'. injection H' as H'. auto.
Defined.

Lemma decomposition_happens_once_witness :
  subgoal_of_goal "monthly_income" (ag_db demo_partial) "monthly_income:0" ∧
  ¬ subgoal_of_goal "monthly_income" (ag_db (run_gps demo_engine [OpCycle demo_goals; OpCycle demo_goals] demo_partial))
      "monthly_income:1".
Proof.
  assert (H : subgoal_of_goal "monthly_income" (ag_db demo_partial) "monthly_income:0")
    by (eexists; split; vm_compute; reflexivity).
  assert (Hno : ¬ subgoal_of_goal "monthly_income" (ag_db demo_partial) "monthly_income:1").
  { intros (sg & E & _). assert (gp_subgoals (ag_db demo_partial) !! "monthly_income:1" = None) as E'
      by (vm_compute; reflexivity). congruence. }
  split; [exact H|]. intros Hin. apply Hno.
  exact (proj1 (decomposition_happens_once demo_engine [OpCycle demo_goals; OpCycle demo_goals] demo_partial
    "monthly_income" (demo_sound _ _) (ex_intro _ _ H) "monthly_income:1") Hin).
Defined.

Lemma progress_is_never_made_witness :
  ∃ sg, gp_subgoals (ag_db (demo_run [OpCycle demo_goals] [])) !! "family_safety:1" = Some sg ∧
    sg_Status sg = SubgoalCompleted ∧ fleb (sg_TargetValue sg) f0 = true.
Proof.
  assert (H : ∃ sg, gp_subgoals (ag_db (demo_run [OpCycle demo_goals] [])) !! "family_safety:1" = Some sg ∧
    sg_Status sg = SubgoalCompleted) by (eexists; split; vm_compute; reflexivity).
  destruct H as (sg & H1 & H2). exists sg. split_and!; [exact H1|exact H2|].
  exact (proj1 (proj2 (progress_is_never_made demo_engine [OpCycle demo_goals] (demo_start []) "family_safety:1" sg
    (sound_empty Automatic) (Forall_cons_2 _ (OpCycle demo_goals) _ eq_refl (Forall_nil_2 _)) H1)) H2).
Defined.

Lemma update_progress_exact_witness :
  let s := demo_run [OpDecompose demo_goals; OpActivate] [] in
  fst (UpdateProgress demo_engine s) = None ∧ ag_faults s = [].
Proof.
  cbv zeta. set (s := demo_run _ _). assert (Hf : ag_faults s = []) by (vm_compute; reflexivity).
  split; [|exact Hf].
  pose proof (update_progress_exact demo_engine Manual s Hf (demo_sound _ _)) as H. cbv zeta in H.
  destruct (UpdateProgress demo_engine s) as [err s']. exact (proj1 H).
Defined.

Lemma emissions_are_due_witness :
  let s := demo_run [OpDecompose demo_goals; OpActivate; OpProgress] [] in
  emitted_for demo_answer true (ag_db s) (ag_ext s) (fst (PlanAndEmitTasks demo_engine s))
    (snd (PlanAndEmitTasks demo_engine s)).
Proof.
  cbv zeta. set (s := demo_run _ _).
  assert (Hf : bool_decide (ag_faults s = []) = true) by (vm_compute; reflexivity).
  pose proof (emissions_are_due Manual demo_answer demo_engine s eq_refl (demo_sound _ _)) as H.
  rewrite Hf in H. destruct (PlanAndEmitTasks demo_engine s) as [out s']. exact H.
Defined.
