(* ===== verification/Scheduling.v ===== *)
(** * Scheduling

    [internal/agent/scheduling]: the working day is cut into slots, blocked by
    family time, capped by the owner's capacity; a candidate piece of work is
    scored against the free slots and the best is proposed; a person approves
    the decision, and it is written to the calendar through a connector. *)

From stdpp Require Import base gmap strings list tactics numbers fin_maps.
From Stdlib Require Import ZArith Lia Ascii Floats.SpecFloat.
From S2P Require Import Prelude GoFloat GoStrings GoSort Models GoTime AgentWorld.

Open Scope Z_scope.

(** ** Types *)

Definition MaxSlotsPerDay : nat := 16.
Definition WeightValuePerHour : float64 := lit 35 100.
Definition SlotWeightUrgency : float64 := lit 25 100.
Definition WeightEffortFit : float64 := lit 25 100.
Definition WeightLoadPenalty : float64 := lit 15 100.
Definition HighValuePerHourThreshold : float64 := f_of_Z 100.
Definition StrategyPriorityBoostMax : float64 := lit 10 100.
Definition DefaultWindow : string := "09:00-18:00".
Definition MaxDaysAhead : Z := 7.

Definition SlotTypeWork : string := "work".
Definition SlotTypeFamilyBlocked : string := "family_blocked".
Definition SlotTypeBuffer : string := "buffer".
Definition SlotTypeMeeting : string := "meeting".

Definition DecisionStatusProposed : string := "proposed".
Definition DecisionStatusApproved : string := "approved".
Definition DecisionStatusScheduled : string := "scheduled".
Definition DecisionStatusRejected : string := "rejected".

Definition ValidDecisionTransitions : gmap string (list string) := list_to_map
  [(DecisionStatusProposed, [DecisionStatusApproved; DecisionStatusRejected]);
   (DecisionStatusApproved, [DecisionStatusScheduled; DecisionStatusRejected]);
   (DecisionStatusScheduled, [DecisionStatusRejected])].

Definition IsValidDecisionTransition (from to : string) : bool :=
  match ValidDecisionTransitions !! from with
  | Some allowed => bool_decide (to ∈ allowed)
  | None => false
  end.

Definition CalendarStatusPending : string := "pending".
Definition CalendarStatusCreated : string := "created".
Definition CalendarStatusFailed : string := "failed".
Definition CalendarStatusDryRun : string := "dry_run".

Record ScheduleSlot := mkSlot {
  sl_ID : string;
  sl_StartTime : time;
  sl_EndTime : time;
  sl_SlotType : string;
  sl_Available : bool;
  sl_DayOfWeek : string;
  sl_CreatedAt : time
}.

#[export] Instance ScheduleSlot_settable : Settable ScheduleSlot := fun r =>
  mkSlot (sl_ID r) (sl_StartTime r) (sl_EndTime r) (sl_SlotType r) (sl_Available r) (sl_DayOfWeek r)
    (sl_CreatedAt r).

Definition DurationHours (s : ScheduleSlot) : float64 := dur_in Hour (time_Sub (sl_EndTime s) (sl_StartTime s)).

Record SchedulingCandidate := mkCandidate {
  cd_ID : string;
  cd_ItemType : string;
  cd_ItemID : string;
  cd_EstimatedEffortHours : float64;
  cd_Urgency : float64;
  cd_ExpectedValue : float64;
  cd_PreferredWindow : string;
  cd_StrategyPriority : float64;
  cd_CreatedAt : time
}.

#[export] Instance SchedulingCandidate_settable : Settable SchedulingCandidate := fun r =>
  mkCandidate (cd_ID r) (cd_ItemType r) (cd_ItemID r) (cd_EstimatedEffortHours r) (cd_Urgency r)
    (cd_ExpectedValue r) (cd_PreferredWindow r) (cd_StrategyPriority r) (cd_CreatedAt r).

Record ScheduleDecision := mkDecision {
  de_ID : string;
  de_CandidateID : string;
  de_ChosenSlotID : string;
  de_FitScore : float64;
  de_RequiresReview : bool;
  de_ReviewReason : string;
  de_Status : string;
  de_CreatedAt : time
}.

#[export] Instance ScheduleDecision_settable : Settable ScheduleDecision := fun r =>
  mkDecision (de_ID r) (de_CandidateID r) (de_ChosenSlotID r) (de_FitScore r) (de_RequiresReview r)
    (de_ReviewReason r) (de_Status r) (de_CreatedAt r).

Record CalendarRecord := mkCalendarRecord {
  cr_ID : string;
  cr_DecisionID : string;
  cr_ExternalCalendarID : string;
  cr_EventRef : string;
  cr_Status : string;
  cr_ErrorMessage : string;
  cr_CreatedAt : time
}.

#[export] Instance CalendarRecord_settable : Settable CalendarRecord := fun r =>
  mkCalendarRecord (cr_ID r) (cr_DecisionID r) (cr_ExternalCalendarID r) (cr_EventRef r) (cr_Status r)
    (cr_ErrorMessage r) (cr_CreatedAt r).

Record SlotScore := mkSlotScore { ss_Slot : ScheduleSlot; ss_FitScore : float64 }.

Record ScheduleRecommendation := mkRecommendation {
  rc_CandidateID : string;
  rc_BestSlot : option SlotScore;
  rc_AlternateSlots : list SlotScore;
  rc_RequiresReview : bool;
  rc_ReviewReason : string;
  rc_NoValidSlots : bool
}.

Record BlockedRange := mkBlockedRange { br_Reason : string; br_Range : string }.

Record SlotGenerationConfig := mkSlotConfig {
  cf_MaxDailyWorkHours : float64;
  cf_MinFamilyTimeHours : float64;
  cf_BlockedRanges : list BlockedRange;
  cf_WorkingWindows : list string;
  cf_OwnerLoadScore : float64;
  cf_Date : time;
  cf_DaysAhead : Z
}.

#[export] Instance SlotGenerationConfig_settable : Settable SlotGenerationConfig := fun r =>
  mkSlotConfig (cf_MaxDailyWorkHours r) (cf_MinFamilyTimeHours r) (cf_BlockedRanges r) (cf_WorkingWindows r)
    (cf_OwnerLoadScore r) (cf_Date r) (cf_DaysAhead r).

(** ** Slots *)

(** [HH:MM-HH:MM], the texts trimmed: two minutes of the day. *)
Definition parseHHMM (s : string) : option Z := parse_hour_minute (trim_space s).

Definition parse_window (w : string) : option (Z * Z) :=
  match split_once "-"%char w with
  | Some (a, b) =>
      match parseHHMM a, parseHHMM b with
      | Some s, Some e => Some (s, e)
      | _, _ => None
      end
  | None => None
  end.

(** A range that ends before it starts reaches into the next day. *)
Definition blocked_window (dayStart : time) (s e : Z) : time * time :=
  let start := dayStart + s * Minute in
  let finish := dayStart + e * Minute in
  (start, if bool_decide (finish < start) then finish + OneDay else finish).

Definition parseBlockedWindows (dayStart : time) (ranges : list BlockedRange) : list (time * time) :=
  omap (fun br => match parse_window (br_Range br) with
                  | Some (s, e) => Some (blocked_window dayStart s e)
                  | None => None
                  end) ranges.

Definition isBlocked (slotStart slotEnd : time) (blocked : list (time * time)) : bool :=
  existsb (fun bw => bool_decide (slotStart < snd bw) && bool_decide (fst bw < slotEnd)) blocked.

Definition slot_seed (start finish : time) : string := "slot-" +:+ rfc3339 start +:+ "-" +:+ rfc3339 finish.

Section slots.
Context {H : UuidSHA1}.

Definition new_slot (dayStart : time) (blocked : list (time * time)) (now start finish : time) : ScheduleSlot :=
  let free := negb (isBlocked start finish blocked) in
  mkSlot (uuid_NewSHA1 (slot_seed start finish)) start finish
    (if free then SlotTypeWork else SlotTypeFamilyBlocked) free (weekday dayStart) now.

(** One hour after the other until the window or the day's room is used up. *)
Fixpoint window_slots (dayStart : time) (blocked : list (time * time)) (now : time) (room : nat)
    (slotStart windowEnd : time) : list ScheduleSlot :=
  match room with
  | O => []
  | S room =>
      if bool_decide (slotStart < windowEnd) then
        let slotEnd := Z.min (slotStart + Hour) windowEnd in
        new_slot dayStart blocked now slotStart slotEnd
          :: window_slots dayStart blocked now room slotEnd windowEnd
      else []
  end.

Fixpoint windows_slots (dayStart : time) (blocked : list (time * time)) (now : time) (windows : list string)
    (slots : list ScheduleSlot) : list ScheduleSlot :=
  match windows with
  | [] => slots
  | w :: rest =>
      let more := match parse_window w with
                  | Some (s, e) =>
                      window_slots dayStart blocked now (MaxSlotsPerDay - length slots)
                        (dayStart + s * Minute) (dayStart + e * Minute)
                  | None => []
                  end in
      windows_slots dayStart blocked now rest (slots ++ more)
  end.

(** The hours of work a day allows. *)
Definition max_work (cfg : SlotGenerationConfig) : float64 :=
  let maxWork := cf_MaxDailyWorkHours cfg in
  let maxWork :=
    if fltb f0 (cf_MinFamilyTimeHours cfg) then
      let effectiveMax := fsub (f_of_Z 24) (cf_MinFamilyTimeHours cfg) in
      if fltb effectiveMax maxWork then effectiveMax else maxWork
    else maxWork in
  if fltb (lit 60 100) (cf_OwnerLoadScore cfg) then
    let overloadFraction := fdiv (fsub (cf_OwnerLoadScore cfg) (lit 60 100)) (lit 40 100) in
    let reduction := fmul (fmul overloadFraction (lit 50 100)) maxWork in
    let maxWork := fsub maxWork reduction in
    if fltb maxWork f0 then f0 else maxWork
  else maxWork.

Fixpoint cap_slots (maxWork availableWorkHours : float64) (slots : list ScheduleSlot) : list ScheduleSlot :=
  match slots with
  | [] => []
  | s :: rest =>
      if sl_Available s && bool_decide (sl_SlotType s = SlotTypeWork) then
        let hours := fadd availableWorkHours (DurationHours s) in
        if fltb maxWork hours
        then s <| sl_SlotType := SlotTypeBuffer |> <| sl_Available := false |>
               :: cap_slots maxWork availableWorkHours rest
        else s :: cap_slots maxWork hours rest
      else s :: cap_slots maxWork availableWorkHours rest
  end.

Definition generateDaySlots (dayStart : time) (windows : list string) (cfg : SlotGenerationConfig) (now : time)
    : list ScheduleSlot :=
  let blocked := parseBlockedWindows dayStart (cf_BlockedRanges cfg) in
  cap_slots (max_work cfg) f0 (windows_slots dayStart blocked now windows []).

Definition slot_days (cfg : SlotGenerationConfig) : Z :=
  let days := if bool_decide (cf_DaysAhead cfg ≤ 0) then 1 else cf_DaysAhead cfg in
  if bool_decide (MaxDaysAhead < days) then MaxDaysAhead else days.

Definition GenerateSlots (cfg : SlotGenerationConfig) (now : time) : list ScheduleSlot :=
  let cfg := if fleb (cf_MaxDailyWorkHours cfg) f0 then cfg <| cf_MaxDailyWorkHours := f_of_Z 8 |> else cfg in
  let windows := match cf_WorkingWindows cfg with [] => [DefaultWindow] | ws => ws end in
  let baseDate := midnight (if bool_decide (cf_Date cfg = zero_time) then now else cf_Date cfg) in
  concat (map (fun d => generateDaySlots (baseDate + d * OneDay) windows cfg now) (seqZ 0 (slot_days cfg))).
End slots.

(** ** Scores *)

(** [math.Max] *)
Definition is_pos_inf (x : float64) : bool := match x with S754_infinity false => true | _ => false end.
Definition fmax (x y : float64) : float64 :=
  if is_pos_inf x || is_pos_inf y then S754_infinity false
  else if is_nan x || is_nan y then S754_nan
  else match x, y with
       | S754_zero true, S754_zero _ => y
       | S754_zero false, S754_zero _ => x
       | _, _ => if fltb y x then x else y
       end.

Definition ScoreFit (candidate : SchedulingCandidate) (slot : ScheduleSlot) (ownerLoadScore : float64) : float64 :=
  let effort := fmax (cd_EstimatedEffortHours candidate) (lit 50 100) in
  let valuePerHour :=
    if fltb f0 (cd_ExpectedValue candidate) then fdiv (cd_ExpectedValue candidate) effort else f0 in
  let normalizer := fmax HighValuePerHourThreshold f1 in
  let valueComp := fmul (fclamp01 (fdiv valuePerHour normalizer)) WeightValuePerHour in
  let urgencyComp := fmul (fclamp01 (cd_Urgency candidate)) SlotWeightUrgency in
  let slotHours := DurationHours slot in
  let maxDim := fmax effort slotHours in
  let effortFit := if fltb f0 maxDim then fsub f1 (fdiv (SFabs (fsub effort slotHours)) maxDim) else f0 in
  let effortFitComp := fmul (fclamp01 effortFit) WeightEffortFit in
  let loadComp := fmul (fclamp01 (fsub f1 ownerLoadScore)) WeightLoadPenalty in
  let base := fadd (fadd (fadd valueComp urgencyComp) effortFitComp) loadComp in
  let strategyBoost := fmul (fclamp01 (cd_StrategyPriority candidate)) StrategyPriorityBoostMax in
  fclamp01 (fadd base strategyBoost).

(** The comparison of [sortSlotScores]. *)
Definition score_before (x y : SlotScore) : bool :=
  fltb (ss_FitScore y) (ss_FitScore x) ||
  feqb (ss_FitScore x) (ss_FitScore y) && bool_decide (sl_StartTime (ss_Slot x) < sl_StartTime (ss_Slot y)).

Definition sortSlotScores (scores : list SlotScore) : list SlotScore := insertionSort score_before scores.

Definition offered (slot : ScheduleSlot) : bool :=
  sl_Available slot && bool_decide (sl_SlotType slot = SlotTypeWork).

Definition ScoreSlots (candidate : SchedulingCandidate) (slots : list ScheduleSlot) (ownerLoadScore : float64)
    : list SlotScore :=
  sortSlotScores (map (fun slot => mkSlotScore slot (ScoreFit candidate slot ownerLoadScore))
    (List.filter offered slots)).

Definition RequiresReview (candidate : SchedulingCandidate) (slot : ScheduleSlot) (willWriteCalendar : bool)
    : bool * string :=
  if bool_decide (sl_SlotType slot = SlotTypeMeeting) then (true, "external meeting requires review")
  else if bool_decide (cd_ItemType candidate = "meeting") then (true, "meeting scheduling requires review")
  else if willWriteCalendar then (true, "calendar write requires approval")
  else (false, "").

(** ** Tables *)

Record SCDB := mkSCDB {
  sc_slots : gmap string ScheduleSlot;
  sc_candidates : gmap string SchedulingCandidate;
  sc_decisions : gmap string ScheduleDecision;
  sc_records : gmap string CalendarRecord
}.

#[export] Instance SCDB_settable : Settable SCDB := fun r =>
  mkSCDB (sc_slots r) (sc_candidates r) (sc_decisions r) (sc_records r).

(** [ON CONFLICT (id) DO UPDATE] keeps [created_at]. *)
Definition stored_slot (old : option ScheduleSlot) (s : ScheduleSlot) : ScheduleSlot :=
  s <| sl_StartTime := trunc_us (sl_StartTime s) |> <| sl_EndTime := trunc_us (sl_EndTime s) |>
    <| sl_CreatedAt := match old with Some o => sl_CreatedAt o | None => trunc_us (sl_CreatedAt s) end |>.

Definition upsert_slot (s : ScheduleSlot) (db : SCDB) : res (unit * SCDB) :=
  Ok (tt, db <| sc_slots := <[sl_ID s := stored_slot (sc_slots db !! sl_ID s) s]> (sc_slots db) |>).

Definition stored_candidate (old : option SchedulingCandidate) (c : SchedulingCandidate) : SchedulingCandidate :=
  c <| cd_CreatedAt := match old with Some o => cd_CreatedAt o | None => trunc_us (cd_CreatedAt c) end |>.

Definition upsert_candidate (c : SchedulingCandidate) (db : SCDB) : res (SchedulingCandidate * SCDB) :=
  let c' := stored_candidate (sc_candidates db !! cd_ID c) c in
  Ok (c', db <| sc_candidates := <[cd_ID c := c']> (sc_candidates db) |>).

Definition insert_decision (d : ScheduleDecision) (db : SCDB) : res (ScheduleDecision * SCDB) :=
  match sc_decisions db !! de_ID d, sc_candidates db !! de_CandidateID d, sc_slots db !! de_ChosenSlotID d with
  | Some _, _, _ => Err ErrDuplicateKey
  | None, Some _, Some _ =>
      let d' := d <| de_CreatedAt := trunc_us (de_CreatedAt d) |> in
      Ok (d', db <| sc_decisions := <[de_ID d := d']> (sc_decisions db) |>)
  | None, _, _ => Err ErrForeignKey
  end.

Definition update_decision_status (id status : string) (db : SCDB) : res (unit * SCDB) :=
  Ok (tt, db <| sc_decisions := alter (fun d => d <| de_Status := status |>) id (sc_decisions db) |>).

Definition insert_record (r : CalendarRecord) (db : SCDB) : res (CalendarRecord * SCDB) :=
  match sc_records db !! cr_ID r, sc_decisions db !! cr_DecisionID r with
  | Some _, _ => Err ErrDuplicateKey
  | None, Some _ =>
      let r' := r <| cr_CreatedAt := trunc_us (cr_CreatedAt r) |> in
      Ok (r', db <| sc_records := <[cr_ID r := r']> (sc_records db) |>)
  | None, None => Err ErrForeignKey
  end.

(** [WHERE start_time >= from AND end_time <= to ... ORDER BY start_time]; the
    bounds are sent with microseconds. *)
Definition slot_within (from to : time) (s : ScheduleSlot) : bool :=
  bool_decide (trunc_us from ≤ sl_StartTime s) && bool_decide (sl_EndTime s ≤ trunc_us to).

Definition slots_where (P : ScheduleSlot → bool) (db : SCDB) : list ScheduleSlot :=
  SliceStable (fun x y => bool_decide (sl_StartTime x < sl_StartTime y))
    (List.filter P (map_to_list (sc_slots db)).*2).

(** [ORDER BY created_at DESC LIMIT limit], 50 if there is no limit. *)
Definition newest {A} (created : A → time) (limit : Z) (rows : list A) : list A :=
  take (Z.to_nat (if bool_decide (limit ≤ 0) then 50 else limit))
    (SliceStable (fun x y => bool_decide (created y < created x)) rows).

(** ** The engine *)

Definition CalendarConnector (X : Type) : Type :=
  ScheduleDecision → SchedulingCandidate → ScheduleSlot → bool → St X (string * string * option error).

Record SchedEngine (X : Type) := mkSchedEngine {
  se_clock : nat → time;
  se_auditor : bool;
  se_capacity : option (nat → float64);                (* GetOwnerLoadScore *)
  se_portfolio : option (nat → string → float64);      (* GetStrategyPriority *)
  se_calendar : option (CalendarConnector X);
  se_familyConfig : SlotGenerationConfig
}.
Arguments mkSchedEngine {X}.
Arguments se_clock {X}.
Arguments se_auditor {X}.
Arguments se_capacity {X}.
Arguments se_portfolio {X}.
Arguments se_calendar {X}.
Arguments se_familyConfig {X}.

(** ** Stores *)

Section stores.
Context {X : Type}.
Abbreviation SC A := (St (Agent SCDB X) A).

(** Stops at the first error. *)
Fixpoint SaveSlots (slots : list ScheduleSlot) : SC (option error) :=
  match slots with
  | [] => retS None
  | slot :: rest =>
      let! err := exec (upsert_slot slot) in
      match err with
      | Some err => retS (Some err)
      | None => SaveSlots rest
      end
  end.

Definition ListSlots (from to : time) : SC (res (list ScheduleSlot)) :=
  statement (fun db => Ok (slots_where (slot_within from to) db, db)).

Definition ListAvailableSlots (from to : time) : SC (res (list ScheduleSlot)) :=
  statement (fun db => Ok (slots_where (fun s => slot_within from to s && offered s) db, db)).

Definition SaveCandidate (c : SchedulingCandidate) : SC (res SchedulingCandidate) := statement (upsert_candidate c).

Definition Store_ListCandidates (limit : Z) : SC (res (list SchedulingCandidate)) :=
  statement (fun db => Ok (newest cd_CreatedAt limit (map_to_list (sc_candidates db)).*2, db)).

(** [QueryRow] of one id. *)
Definition get_row {A} (table : SCDB → gmap string A) (id : string) : SC (res A) :=
  let! r := statement (fun db => Ok (table db !! id, db)) in
  retS match r with
       | Ok (Some a) => Ok a
       | Ok None => Err ErrNoRows
       | Err e => Err e
       end.

Definition GetCandidate (id : string) : SC (res SchedulingCandidate) := get_row sc_candidates id.
Definition SaveDecision (d : ScheduleDecision) : SC (res ScheduleDecision) := statement (insert_decision d).
Definition UpdateDecisionStatus (id status : string) : SC (option error) := exec (update_decision_status id status).
Definition GetDecision (id : string) : SC (res ScheduleDecision) := get_row sc_decisions id.

Definition Store_ListDecisions (limit : Z) : SC (res (list ScheduleDecision)) :=
  statement (fun db => Ok (newest de_CreatedAt limit (map_to_list (sc_decisions db)).*2, db)).

Definition SaveRecord (r : CalendarRecord) : SC (res CalendarRecord) := statement (insert_record r).

Definition GetRecordByDecision (decisionID : string) : SC (res CalendarRecord) :=
  let! r := statement (fun db =>
    Ok (head (newest cr_CreatedAt 1 (List.filter (fun r => bool_decide (cr_DecisionID r = decisionID))
                                       (map_to_list (sc_records db)).*2)), db)) in
  retS match r with
       | Ok (Some a) => Ok a
       | Ok None => Err ErrNoRows
       | Err e => Err e
       end.

Definition ListRecords (limit : Z) : SC (res (list CalendarRecord)) :=
  statement (fun db => Ok (newest cr_CreatedAt limit (map_to_list (sc_records db)).*2, db)).
End stores.

Section engine.
Context {U : UuidPkg} {H : UuidSHA1} {X : Type} (e : SchedEngine X).
Abbreviation SC A := (St (Agent SCDB X) A).

Definition sched_now : SC time := reading (se_clock e).
Definition sched_audit (eventType entity : string) : SC unit := record_audit (se_auditor e) eventType entity.

(** [dflt] without a capacity provider. *)
Definition owner_load (dflt : float64) : SC float64 :=
  match se_capacity e with
  | Some load => reading load
  | None => retS dflt
  end.

Definition RecomputeSlots : SC (list ScheduleSlot) :=
  let cfg := se_familyConfig e in
  let! now := sched_now in
  let cfg := cfg <| cf_Date := now |> in
  let cfg := if bool_decide (cf_DaysAhead cfg ≤ 0) then cfg <| cf_DaysAhead := 1 |> else cfg in
  let! load := owner_load (cf_OwnerLoadScore cfg) in
  let cfg := cfg <| cf_OwnerLoadScore := load |> in
  let! now := sched_now in
  let slots := GenerateSlots cfg now in
  let! _ := dropped (SaveSlots slots) in
  let! _ := sched_audit "schedule.slots_generated" "" in
  retS slots.

Definition GetSlots (from to : time) : SC (res (list ScheduleSlot)) := ListSlots from to.

Definition AddCandidate (c : SchedulingCandidate) : SC (res SchedulingCandidate) :=
  let! id := (if bool_decide (cd_ID c = "") then fresh_uuid else retS (cd_ID c)) in
  let c := c <| cd_ID := id |> in
  let! created := (if bool_decide (cd_CreatedAt c = zero_time) then sched_now else retS (cd_CreatedAt c)) in
  let c := c <| cd_CreatedAt := created |> in
  let! priority :=
    match se_portfolio e with
    | Some ask => if feqb (cd_StrategyPriority c) f0 then reading (fun n => ask n (cd_ItemType c))
                  else retS (cd_StrategyPriority c)
    | None => retS (cd_StrategyPriority c)
    end in
  let c := c <| cd_StrategyPriority := priority |> in
  let! saved := SaveCandidate c in
  match saved with
  | Err err => retS (Err (wrap "save candidate: " err))
  | Ok saved =>
      let! _ := sched_audit "schedule.candidate_scored" (cd_ID saved) in
      retS (Ok saved)
  end.

Definition ListCandidates (limit : Z) : SC (res (list SchedulingCandidate)) := Store_ListCandidates limit.

(** The free slots of the next week; generated when they cannot be read. *)
Definition week_slots (from : time) : SC (list ScheduleSlot) :=
  let! r := ListAvailableSlots from (from + MaxDaysAhead * OneDay) in
  match r with
  | Ok slots => retS slots
  | Err _ =>
      let cfg := (se_familyConfig e) <| cf_Date := from |> <| cf_DaysAhead := MaxDaysAhead |> in
      let! load := owner_load (cf_OwnerLoadScore cfg) in
      let cfg := cfg <| cf_OwnerLoadScore := load |> in
      let! now := sched_now in
      retS (List.filter offered (GenerateSlots cfg now))
  end.

Definition propose (candidate : SchedulingCandidate) (candidateID : string) (best : SlotScore)
    (others : list SlotScore) : SC ScheduleRecommendation :=
  let '(needsReview, reviewReason) := RequiresReview candidate (ss_Slot best) false in
  let! id := fresh_uuid in
  let! now := sched_now in
  let decision := mkDecision id candidateID (sl_ID (ss_Slot best)) (ss_FitScore best) needsReview reviewReason
                    DecisionStatusProposed now in
  let! _ := dropped (SaveDecision decision) in
  let! _ := sched_audit "schedule.decision_proposed" id in
  retS (mkRecommendation candidateID (Some best) (take 3 others) needsReview reviewReason false).

Definition Recommend (candidateID : string) : SC (res ScheduleRecommendation) :=
  let! r := GetCandidate candidateID in
  match r with
  | Err err => retS (Err (wrap "get candidate: " err))
  | Ok candidate =>
      let! now := sched_now in
      let! slots := week_slots (midnight now) in
      let! ownerLoad := owner_load f0 in
      match ScoreSlots candidate slots ownerLoad with
      | [] => retS (Ok (mkRecommendation candidateID None [] false "" true))
      | best :: others =>
          let! rec := propose candidate candidateID best others in
          retS (Ok rec)
      end
  end.

Definition ApproveDecision (decisionID : string) : SC (res ScheduleDecision) :=
  let! r := GetDecision decisionID in
  match r with
  | Err err => retS (Err (wrap "get decision: " err))
  | Ok decision =>
      if negb (IsValidDecisionTransition (de_Status decision) DecisionStatusApproved)
      then retS (Err (Errorf ("invalid transition: " +:+ de_Status decision +:+ " → approved")))
      else
        let! err := UpdateDecisionStatus decisionID DecisionStatusApproved in
        match err with
        | Some err => retS (Err (wrap "update status: " err))
        | None =>
            let! _ := sched_audit "schedule.decision_approved" decisionID in
            retS (Ok (decision <| de_Status := DecisionStatusApproved |>))
        end
  end.

Definition ListDecisions (limit : Z) : SC (res (list ScheduleDecision)) := Store_ListDecisions limit.

(** The record as stored, or as made when storing fails. *)
Definition save_record (r : CalendarRecord) : SC CalendarRecord :=
  let! saved := SaveRecord r in
  retS match saved with Ok saved => saved | Err _ => r end.

(** The checks before a calendar write: the decision, its candidate, its slot. *)
Definition calendar_inputs (decisionID : string)
    : SC (res (ScheduleDecision * SchedulingCandidate * ScheduleSlot)) :=
  let! r := GetDecision decisionID in
  match r with
  | Err err => retS (Err (wrap "get decision: " err))
  | Ok decision =>
      if negb (bool_decide (de_Status decision = DecisionStatusApproved))
         && negb (bool_decide (de_Status decision = DecisionStatusScheduled))
      then retS (Err (Errorf ("decision must be approved before calendar write (current: "
                              +:+ de_Status decision +:+ ")")))
      else
        let! r := GetCandidate (de_CandidateID decision) in
        match r with
        | Err err => retS (Err (wrap "get candidate: " err))
        | Ok candidate =>
            let! now := sched_now in
            let! r := ListSlots (now - OneDay) (now + (MaxDaysAhead + 1) * OneDay) in
            let slots := match r with Ok slots => slots | Err _ => [] end in
            match List.find (fun s => bool_decide (sl_ID s = de_ChosenSlotID decision)) slots with
            | None => retS (Err (Errorf ("chosen slot " +:+ de_ChosenSlotID decision +:+ " not found")))
            | Some slot => retS (Ok (decision, candidate, slot))
            end
        end
  end.

(** The record, and the error of the connector. *)
Definition WriteCalendar (decisionID : string) (dryRun : bool) : SC (CalendarRecord * option error) :=
  let no_record := mkCalendarRecord "" "" "" "" "" "" zero_time in
  let! r := calendar_inputs decisionID in
  match r with
  | Err err => retS (no_record, Some err)
  | Ok (decision, candidate, slot) =>
      let! id := fresh_uuid in
      let! now := sched_now in
      let record := mkCalendarRecord id decisionID "" "" CalendarStatusPending "" now in
      match se_calendar e with
      | None =>
          let record := if dryRun then record <| cr_Status := CalendarStatusDryRun |>
                        else record <| cr_Status := CalendarStatusFailed |>
                                    <| cr_ErrorMessage := "no calendar connector available" |> in
          let! record := save_record record in
          let! _ := sched_audit "schedule.calendar_failed" decisionID in
          retS (record, None)
      | Some create =>
          let! out := provider (create decision candidate slot dryRun) in
          match out with
          | (_, _, Some err) =>
              let! record := save_record (record <| cr_Status := CalendarStatusFailed |>
                                                 <| cr_ErrorMessage := error_text err |>) in
              let! _ := sched_audit "schedule.calendar_failed" decisionID in
              retS (record, Some err)
          | (externalID, eventRef, None) =>
              let! _ := (if dryRun then retS tt
                         else dropped (UpdateDecisionStatus decisionID DecisionStatusScheduled)) in
              let status := if dryRun then CalendarStatusDryRun else CalendarStatusCreated in
              let! record := save_record (record <| cr_Status := status |>
                                                 <| cr_ExternalCalendarID := externalID |>
                                                 <| cr_EventRef := eventRef |>) in
              let! _ := sched_audit "schedule.calendar_written" decisionID in
              retS (record, None)
          end
      end
  end.
End engine.
