(* ===== verification/SchedulingProps.v ===== *)
(** * Properties of scheduling

    Generated slots, the daily cap, scores, recommendations, and the way of a
    decision to the calendar. *)

From stdpp Require Import base gmap strings list tactics numbers fin_maps relations sorting.
From Stdlib Require Import ZArith Lia.
From S2P Require Import Prelude GoFloat GoStrings GoSort Models GoTime AgentWorld Scheduling.

Open Scope Z_scope.

(** ** Slots *)

(** The instants a configuration blocks for the slots of a day. *)
Definition blocked_at (ranges : list BlockedRange) (day t : time) : Prop :=
  ∃ br s e, br ∈ ranges ∧ parse_window (br_Range br) = Some (s, e) ∧
    fst (blocked_window day s e) ≤ t < snd (blocked_window day s e).

Lemma parseBlockedWindows_elem day ranges w :
  w ∈ parseBlockedWindows day ranges ↔
    ∃ br s e, br ∈ ranges ∧ parse_window (br_Range br) = Some (s, e) ∧ w = blocked_window day s e.
Proof.
  unfold parseBlockedWindows. rewrite list_elem_of_omap. split.
  - intros (br & Hbr & Hw). destruct (parse_window (br_Range br)) as [[s e]|] eqn:E; [|done].
    injection Hw as <-. by exists br, s, e.
  - intros (br & s & e & Hbr & E & ->). exists br. by rewrite E.
Qed.

(** A slot is free of the blocked windows exactly when it shares no instant with
    one of them; a window that ends where it starts has no instant, but blocks
    the slot around it. *)
Lemma not_blocked_apart start finish blocked t bw :
  isBlocked start finish blocked = false → bw ∈ blocked → start ≤ t < finish → ¬ fst bw ≤ t < snd bw.
Proof.
  intros Hno Hbw Ht [H1 H2]. assert (Hyes : isBlocked start finish blocked = true); [|congruence].
  apply existsb_elem. exists bw. split; [done|]. apply andb_true_iff. rewrite !bool_decide_eq_true. lia.
Qed.

Section slots.
Context {H : UuidSHA1}.
Implicit Types s : ScheduleSlot.

(** What a slot made for the part [from, to] of a day is. *)
Record slot_made (day : time) (blocked : list (time * time)) (now from to : time) s : Prop := {
  made_in : from ≤ sl_StartTime s ∧ sl_StartTime s < sl_EndTime s ∧ sl_EndTime s ≤ to;
  made_end : sl_EndTime s = Z.min (sl_StartTime s + Hour) to;
  made_minutes : ∃ k, sl_EndTime s = sl_StartTime s + k * Minute;
  made_id : sl_ID s = uuid_NewSHA1 (slot_seed (sl_StartTime s) (sl_EndTime s));
  made_at : sl_CreatedAt s = now ∧ sl_DayOfWeek s = weekday day;
  made_blocked : isBlocked (sl_StartTime s) (sl_EndTime s) blocked = true →
    sl_Available s = false ∧ sl_SlotType s = SlotTypeFamilyBlocked;
  made_free : isBlocked (sl_StartTime s) (sl_EndTime s) blocked = false →
    if sl_Available s then sl_SlotType s = SlotTypeWork else sl_SlotType s = SlotTypeBuffer
}.

Lemma window_slots_made day blocked now room from0 from to :
  from0 ≤ from → (∃ k, to = from + k * Minute) →
  Forall (slot_made day blocked now from0 to) (window_slots day blocked now room from to).
Proof using.
  revert from. induction room as [|room IH]; intros from Hf [k Hk]; cbn [window_slots]; [constructor|].
  case_bool_decide as Hlt; [|constructor]. cbv zeta. assert (Hour = 60 * Minute) as HH by done.
  assert (0 < Minute) as Hpos by done.
  assert (Hend : ∃ i, Z.min (from + Hour) to = from + i * Minute)
    by (exists (Z.min 60 k); rewrite Hk, HH; nia).
  constructor; [|apply IH; [lia|]].
  - unfold new_slot. split; cbn; [lia|done|exact Hend|done|done|by intros ->|by intros ->].
  - destruct Hend as [i Hi]. exists (k - i). lia.
Qed.

Lemma window_slots_room day blocked now room from to :
  (length (window_slots day blocked now room from to) ≤ room)%nat.
Proof using.
  revert from. induction room as [|room IH]; intros from; cbn [window_slots]; [done|].
  case_bool_decide; cbn; [specialize (IH (Z.min (from + Hour) to)); lia|lia].
Qed.

(** Made for one of the windows. *)
Definition made_for_window (day : time) (blocked : list (time * time)) (now : time) (windows : list string) s : Prop :=
  ∃ w a b, w ∈ windows ∧ parse_window w = Some (a, b) ∧
    slot_made day blocked now (day + a * Minute) (day + b * Minute) s.

Lemma windows_slots_made day blocked now windows slots all :
  (∀ w, w ∈ windows → w ∈ all) → Forall (made_for_window day blocked now all) slots →
  Forall (made_for_window day blocked now all) (windows_slots day blocked now windows slots).
Proof using.
  revert slots. induction windows as [|w windows IH]; intros slots Hsub Hall; cbn [windows_slots]; [done|].
  apply IH; [by intros y Hy; apply Hsub; right|]. apply Forall_app. split; [done|].
  destruct (parse_window w) as [[a b]|] eqn:E; [|constructor].
  eapply Forall_impl; [apply window_slots_made; [done|exists (b - a); lia]|]. cbn. intros s Hs. exists w, a, b.
  split_and!; [apply Hsub; by left|done|done].
Qed.

Lemma windows_slots_room day blocked now windows slots :
  (length slots ≤ MaxSlotsPerDay)%nat → (length (windows_slots day blocked now windows slots) ≤ MaxSlotsPerDay)%nat.
Proof using.
  revert slots. induction windows as [|w windows IH]; intros slots Hl; cbn [windows_slots]; [done|].
  apply IH. rewrite length_app. destruct (parse_window w) as [[a b]|]; cbn [length]; [|lia].
  pose proof (window_slots_room day blocked now (MaxSlotsPerDay - length slots) (day + a * Minute) (day + b * Minute)). lia.
Qed.

(** ** The cap *)

Lemma cap_slots_length maxWork acc slots : length (cap_slots maxWork acc slots) = length slots.
Proof using.
  revert acc. induction slots as [|s slots IH]; intros acc; cbn [cap_slots]; [done|].
  destruct (_ && _); [cbv zeta; destruct (fltb _ _)|]; cbn; by rewrite IH.
Qed.

(** The cap takes availability away, nothing else. *)
Lemma cap_slots_made day blocked now windows maxWork acc slots :
  Forall (made_for_window day blocked now windows) slots →
  Forall (made_for_window day blocked now windows) (cap_slots maxWork acc slots).
Proof using.
  intros Hall. revert acc. induction Hall as [|s slots Hs _ IH]; intros acc; cbn [cap_slots]; [constructor|].
  destruct (_ && _) eqn:Ha; [cbv zeta; destruct (fltb _ _)|]; constructor; try done.
  destruct Hs as (w & a & b & Hw & E & [M1 M2 M2' M3 M4 M5 M6]). exists w, a, b. split; [done|]. split; [done|].
  apply andb_true_iff in Ha as [Hav _]. split; cbn; try done.
  intros Hb. destruct (M5 Hb). congruence.
Qed.

(** Hours of work so far. *)
Definition hours_offered (acc : float64) (slots : list ScheduleSlot) : float64 :=
  fold_left (fun acc s => fadd acc (DurationHours s)) (List.filter offered slots) acc.

(** Once something is offered the hours are within the cap. *)
Lemma cap_slots_within maxWork acc slots :
  List.filter offered (cap_slots maxWork acc slots) = [] ∨
  fltb maxWork (hours_offered acc (cap_slots maxWork acc slots)) = false.
Proof using.
  revert acc. induction slots as [|s slots IH]; intros acc; cbn [cap_slots]; [by left|].
  unfold hours_offered in *. fold (offered s). destruct (offered s) eqn:Ho; [cbv zeta; destruct (fltb maxWork _) eqn:Ec|].
  - exact (IH acc).
  - right. cbn [List.filter]. rewrite Ho. cbn [fold_left].
    destruct (IH (fadd acc (DurationHours s))) as [E|E]; [by rewrite E|done].
  - cbn [List.filter]. rewrite Ho. apply IH.
Qed.

(** *** Slots of a whole hour *)

Definition one_hour s : Prop := sl_EndTime s = sl_StartTime s + Hour.

Lemma one_hour_duration s : one_hour s → DurationHours s = f1.
Proof using.
  unfold one_hour, DurationHours, time_Sub. intros ->. replace (sl_StartTime s + Hour - sl_StartTime s) with Hour by lia.
  by vm_compute.
Qed.

Lemma one_more_hour (n : nat) : (n < 16)%nat → fadd (f_of_Z (Z.of_nat n)) f1 = f_of_Z (Z.of_nat (S n)).
Proof using.
  intros Hn. do 16 (destruct n as [|n]; [by vm_compute|]). lia.
Qed.

Definition work_count (slots : list ScheduleSlot) : nat := length (List.filter offered slots).
Definition buffered s : bool := bool_decide (sl_SlotType s = SlotTypeBuffer).

Lemma offered_step s : offered s = true → buffered s = false.
Proof using.
  intros [_ E%bool_decide_eq_true]%andb_true_iff. unfold buffered. by rewrite E.
Qed.

(** With no hour left nothing more is offered. *)
Lemma cap_slots_full maxWork (k : nat) slots :
  Forall one_hour slots → (k < 16)%nat → fltb maxWork (f_of_Z (Z.of_nat (S k))) = true →
  work_count (cap_slots maxWork (f_of_Z (Z.of_nat k)) slots) = 0%nat.
Proof using.
  intros Hall Hk Hfull. unfold work_count. induction Hall as [|s slots Hs Hall IH]; cbn [cap_slots]; [done|].
  fold (offered s). destruct (offered s) eqn:Ho.
  - cbv zeta. by rewrite (one_hour_duration s Hs), (one_more_hour k Hk), Hfull.
  - cbn [List.filter]. by rewrite Ho.
Qed.

Lemma cap_slots_hours maxWork (k : nat) slots :
  Forall one_hour slots → (k + length slots ≤ 16)%nat → existsb buffered slots = false →
  let out := cap_slots maxWork (f_of_Z (Z.of_nat k)) slots in
  let n := (k + work_count out)%nat in
  (work_count out = 0%nat ∨ fltb maxWork (f_of_Z (Z.of_nat n)) = false) ∧
  (existsb buffered out = true → fltb maxWork (f_of_Z (Z.of_nat (S n))) = true).
Proof using.
  intros Hall. revert k. induction Hall as [|s slots Hs Hall IH]; intros k Hk Hb; cbn [cap_slots]; cbv zeta.
  { split; [by left|done]. }
  cbn [existsb length] in Hk, Hb. apply orb_false_iff in Hb as [Hbs Hb]. fold (offered s).
  destruct (offered s) eqn:Ho.
  - rewrite (one_hour_duration s Hs), one_more_hour by lia.
    destruct (fltb maxWork (f_of_Z (Z.of_nat (S k)))) eqn:Hc.
    + change (work_count (_ :: ?l)) with (work_count l).
      rewrite (cap_slots_full maxWork k slots Hall) by (done || lia). rewrite Nat.add_0_r. by split; [left|].
    + unfold work_count. cbn [List.filter existsb]. rewrite Ho, Hbs. cbn [orb length].
      destruct (IH (S k)) as [H1 H2]; [lia|done|]. fold (work_count (cap_slots maxWork (f_of_Z (Z.of_nat (S k))) slots)).
      rewrite Nat.add_succ_r. split; [|exact H2]. right.
      destruct H1 as [H1|H1]; [by rewrite H1, Nat.add_0_r|exact H1].
  - unfold work_count. cbn [List.filter existsb]. rewrite Ho, Hbs. cbn [orb].
    apply IH; [lia|done].
Qed.

Lemma made_unbuffered day blocked now windows s :
  made_for_window day blocked now windows s → sl_SlotType s = SlotTypeBuffer → sl_Available s = false ∧
    isBlocked (sl_StartTime s) (sl_EndTime s) blocked = false.
Proof using.
  intros (w & a & b & _ & _ & [M1 M2 M2' M3 M4 M5 M6]) E.
  destruct (isBlocked _ _ _) eqn:Eb; [destruct (M5 eq_refl) as [_ E']; rewrite E in E'; done|].
  specialize (M6 eq_refl). destruct (sl_Available s); [rewrite E in M6; done|done].
Qed.

Lemma window_slots_unbuffered day blocked now room from to :
  existsb buffered (window_slots day blocked now room from to) = false.
Proof using.
  revert from. induction room as [|room IH]; intros from; cbn [window_slots]; [done|].
  case_bool_decide; [|done]. cbn [existsb]. rewrite IH. unfold buffered, new_slot. cbn.
  by destruct (isBlocked _ _ _).
Qed.

Lemma windows_slots_unbuffered day blocked now windows slots :
  existsb buffered slots = false → existsb buffered (windows_slots day blocked now windows slots) = false.
Proof using.
  revert slots. induction windows as [|w windows IH]; intros slots Hb; cbn [windows_slots]; [done|].
  apply IH. rewrite existsb_app, Hb. cbn [orb]. destruct (parse_window w) as [[a b]|]; [|done].
  apply window_slots_unbuffered.
Qed.

Lemma cap_slots_times maxWork acc slots :
  Forall one_hour (cap_slots maxWork acc slots) → Forall one_hour slots.
Proof using.
  revert acc. induction slots as [|s slots IH]; intros acc; cbn [cap_slots]; [done|].
  destruct (_ && _); [cbv zeta; destruct (fltb _ _)|]; intros [Hs Hr]%Forall_cons;
    (constructor; [exact Hs|by eapply IH]).
Qed.

(** The day's work is capped.  A day has at most 16 slots; the hours it
    offers, added up, are not above what [max_work] allows; and when its slots
    are whole hours it offers as many free ones as fit: if any free slot was
    withheld, one more hour would exceed the cap. *)
Theorem daily_work_capped day windows (cfg : SlotGenerationConfig) now :
  let slots := generateDaySlots day windows cfg now in
  (length slots ≤ MaxSlotsPerDay)%nat ∧
  (work_count slots = 0%nat ∨ fltb (max_work cfg) (hours_offered f0 slots) = false) ∧
  (Forall one_hour slots →
    (work_count slots = 0%nat ∨ fltb (max_work cfg) (f_of_Z (Z.of_nat (work_count slots))) = false) ∧
    (existsb buffered slots = true → fltb (max_work cfg) (f_of_Z (Z.of_nat (S (work_count slots)))) = true)).
Proof using.
  cbv zeta. unfold generateDaySlots. cbv zeta.
  set (made := windows_slots day _ now windows []).
  assert (Hroom : (length made ≤ MaxSlotsPerDay)%nat) by (apply windows_slots_room; cbn; lia).
  split; [by rewrite cap_slots_length|]. split.
  - destruct (cap_slots_within (max_work cfg) f0 made) as [E|E]; [left|by right]. unfold work_count. by rewrite E.
  - intros Hhours%cap_slots_times. apply (cap_slots_hours (max_work cfg) 0 made Hhours Hroom).
    by apply windows_slots_unbuffered.
Qed.

(** The windows in force. *)
Definition windows_of (cfg : SlotGenerationConfig) : list string :=
  match cf_WorkingWindows cfg with [] => [DefaultWindow] | ws => ws end.

Definition first_day (cfg : SlotGenerationConfig) (now : time) : time :=
  midnight (if bool_decide (cf_Date cfg = zero_time) then now else cf_Date cfg).

(** Generated slots are sound.  Every slot lies in a working window of one
    of the days asked for, at most seven, and lasts up to 60 minutes; its id names
    its interval; an available one is work and shares no instant with a range
    blocked on its day, and the others are family time or the buffer beyond the
    day's cap. *)
Theorem generated_slots_sound (cfg : SlotGenerationConfig) now s :
  s ∈ GenerateSlots cfg now →
  ∃ d w a b, 0 ≤ d < slot_days cfg ∧ slot_days cfg ≤ MaxDaysAhead ∧
    w ∈ windows_of cfg ∧ parse_window w = Some (a, b) ∧
    let day := first_day cfg now + d * OneDay in
    day + a * Minute ≤ sl_StartTime s ∧ sl_StartTime s < sl_EndTime s ∧ sl_EndTime s ≤ day + b * Minute ∧
    (∃ k, k ≤ 60 ∧ sl_EndTime s = sl_StartTime s + k * Minute) ∧
    sl_ID s = uuid_NewSHA1 (slot_seed (sl_StartTime s) (sl_EndTime s)) ∧ sl_CreatedAt s = now ∧
    if sl_Available s
    then sl_SlotType s = SlotTypeWork ∧
         ∀ t, sl_StartTime s ≤ t < sl_EndTime s → ¬ blocked_at (cf_BlockedRanges cfg) day t
    else sl_SlotType s = SlotTypeFamilyBlocked ∨ sl_SlotType s = SlotTypeBuffer.
Proof using.
  unfold GenerateSlots. cbv zeta. set (cfg' := if fleb _ _ then _ else cfg).
  assert (Hcfg : cf_WorkingWindows cfg' = cf_WorkingWindows cfg ∧ cf_Date cfg' = cf_Date cfg ∧
    slot_days cfg' = slot_days cfg ∧ cf_BlockedRanges cfg' = cf_BlockedRanges cfg)
    by (unfold cfg'; by destruct (fleb _ _)).
  destruct Hcfg as (-> & -> & -> & Hbr).
  intros (l & (d & <- & Hd)%in_map_iff & Hs%list_elem_of_In)%list_elem_of_In%in_concat.
  apply list_elem_of_In, elem_of_seqZ in Hd.
  fold (windows_of cfg) (first_day cfg now) in Hs. unfold generateDaySlots in Hs. rewrite Hbr in Hs.
  set (day := first_day cfg now + d * OneDay) in *. set (blocked := parseBlockedWindows _ _) in *.
  pose proof (cap_slots_made day blocked now (windows_of cfg) (max_work cfg') f0 _
    (windows_slots_made day blocked now (windows_of cfg) [] (windows_of cfg) ltac:(done) ltac:(constructor))) as Hmade.
  apply (proj1 (list.Forall_forall _ _) Hmade) in Hs as (w & a & b & Hw & E & [M1 M2 M2' M3 M4 M5 M6]).
  exists d, w, a, b. split; [lia|]. split.
  { unfold slot_days. cbv zeta. repeat case_bool_decide; unfold MaxDaysAhead in *; lia. }
  do 2 (split; [done|]). cbv zeta. fold day. do 3 (split; [lia|]).
  assert (Hour = 60 * Minute ∧ 0 < Minute) as [HH Hpos] by done.
  split; [destruct M2' as [k Hk]; exists k; split; [nia|done]|]. split; [done|]. split; [by destruct M4|].
  destruct (isBlocked _ _ _) eqn:Eb.
  - destruct (M5 eq_refl) as [-> ->]. by left.
  - specialize (M6 eq_refl). destruct (sl_Available s); [|by right]. split; [done|].
      intros t Ht (br & bs & be & Hbr' & Ebr & Hin).
      eapply (not_blocked_apart _ _ blocked t (blocked_window day bs be)); [done| |done|done].
      apply parseBlockedWindows_elem. by exists br, bs, be.
Qed.
End slots.

(** ** Scores *)

(** A slot of up to an hour, in whole minutes. *)
Definition minute_slot (s : ScheduleSlot) : Prop :=
  ∃ k, 0 < k ≤ 60 ∧ sl_EndTime s = sl_StartTime s + k * Minute.

Definition minute_hours (k : Z) : float64 := dur_in Hour (time_Sub (k * Minute) 0).

Lemma minute_slot_hours s : minute_slot s → is_finite (DurationHours s) = true ∧ nonneg (DurationHours s).
Proof.
  intros (k & Hk & E). unfold DurationHours. rewrite E.
  replace (time_Sub (sl_StartTime s + k * Minute) (sl_StartTime s)) with (time_Sub (k * Minute) 0)
    by (unfold time_Sub; f_equal; f_equal; lia).
  assert (Hall : forallb (fun k => is_finite (minute_hours k) && fleb f0 (minute_hours k)) (seqZ 0 61) = true)
    by (vm_compute; reflexivity).
  rewrite forallb_forall in Hall. specialize (Hall k). rewrite <- list_elem_of_In, elem_of_seqZ in Hall.
  specialize (Hall ltac:(lia)). apply andb_true_iff in Hall as [H1 H2]. split; [exact H1|by apply nonneg_fleb].
Qed.

Lemma fmax_cases x y : is_finite x = true → is_finite y = true →
  (fmax x y = x ∨ fmax x y = y) ∧ fltb (fmax x y) x = false ∧ fltb (fmax x y) y = false.
Proof.
  intros Hx Hy. unfold fmax. assert (is_pos_inf x = false ∧ is_nan x = false) as [-> ->] by (by destruct x as [|[]| |]).
  assert (is_pos_inf y = false ∧ is_nan y = false) as [-> ->] by (by destruct y as [|[]| |]). cbn [orb].
  assert (Hgen : (if fltb y x then x else y) = x ∨ (if fltb y x then x else y) = y) by (destruct (fltb y x); auto).
  assert (Hord : fltb (if fltb y x then x else y) x = false ∧ fltb (if fltb y x then x else y) y = false).
  { destruct (fltb y x) eqn:E; (split; [|]); try apply fltb_irrefl; [by apply fltb_asym|exact E]. }
  destruct x as [[]| | |], y as [[]| | |]; try done; by split; auto.
Qed.

(** The numbers a decoded request holds are finite; the owner's load is some
    number. *)
Record numeric (c : SchedulingCandidate) : Prop := {
  numeric_effort : is_finite (cd_EstimatedEffortHours c) = true;
  numeric_urgency : is_finite (cd_Urgency c) = true;
  numeric_value : is_finite (cd_ExpectedValue c) = true;
  numeric_strategy : is_nan (cd_StrategyPriority c) = false
}.

Lemma finite_number x : is_finite x = true → is_nan x = false.
Proof. by destruct x. Qed.

Lemma ScoreFit_unit c s load : numeric c → minute_slot s → is_nan load = false → in_unit (ScoreFit c s load).
Proof.
  intros [N1 N2 N3 N4] Hs Hload. destruct (minute_slot_hours s Hs) as [Hh Hn].
  unfold ScoreFit. cbv zeta. apply fclamp01_unit, nonneg_number.
  set (effort := fmax (cd_EstimatedEffortHours c) (lit 50 100)).
  destruct (fmax_cases (cd_EstimatedEffortHours c) (lit 50 100) N1 eq_refl) as (Heff & _ & Hbig).
  fold effort in Heff, Hbig.
  assert (Hefin : is_finite effort = true) by (by destruct Heff as [-> | ->]).
  assert (Hepos : fltb f0 effort = true).
  { assert (fltb f0 (lit 50 100) = true) by done. pose proof (finite_number _ Hefin).
    revert Hbig H H0. generalize (lit 50 100). intros half. float_order. }
  set (slotHours := DurationHours s) in *.
  destruct (fmax_cases effort slotHours Hefin Hh) as (Hdim & Hle & _).
  set (maxDim := fmax effort slotHours) in *.
  assert (Hdfin : is_finite maxDim = true) by (by destruct Hdim as [-> | ->]).
  assert (Hdpos : fltb f0 maxDim = true).
  { pose proof (finite_number _ Hdfin). pose proof (finite_number _ Hefin). revert Hepos Hle H H0. float_order. }
  assert (Hw : ∀ x w, is_nan x = false → is_finite w = true ∧ nonneg w → nonneg (fmul (fclamp01 x) w))
    by (intros x w Hx [H1 H2]; by apply weighted_nonneg).
  repeat apply fadd_nonneg; apply Hw; try (by split); try done.
  - apply nonneg_number, fdiv_nonneg; [|done|done]. destruct (fltb f0 (cd_ExpectedValue c)) eqn:E; [|done].
    apply fdiv_nonneg; [|done|done]. apply nonneg_fleb. revert E. float_order.
  - by apply finite_number.
  - rewrite Hdpos. apply fsub_number; [done|]. apply nonneg_number, fdiv_nonneg; [|done|done].
    apply fabs_nonneg, fsub_number; [done|by apply finite_number].
  - by apply fsub_number.
Qed.

(** ** Ranking *)

Lemma score_before_asym x y : score_before x y = true → score_before y x = false.
Proof.
  unfold score_before. intros [H|[H1 H2%bool_decide_eq_true]%andb_true_iff]%orb_true_iff; apply orb_false_iff.
  - split; [by apply fltb_asym|]. apply andb_false_iff. left. revert H. float_order.
  - split; [revert H1; float_order|]. apply andb_false_iff. right. apply bool_decide_eq_false. lia.
Qed.

Definition numbered (x : SlotScore) : Prop := is_nan (ss_FitScore x) = false.

Lemma score_before_negtrans x y z : numbered x → numbered y → numbered z →
  score_before x y = false → score_before y z = false → score_before x z = false.
Proof.
  unfold score_before, numbered. intros Hx Hy Hz [H1 H2]%orb_false_iff [H3 H4]%orb_false_iff. apply orb_false_iff. split.
  { by eapply (fltb_negtrans _ (ss_FitScore y)). }
  apply andb_false_iff in H2, H4. apply andb_false_iff.
  destruct (feqb (ss_FitScore x) (ss_FitScore z)) eqn:E; [|by left]. right.
  destruct (feqb_between (ss_FitScore z) (ss_FitScore y) (ss_FitScore x)) as [E1 E2]; try done.
  { revert E. float_order. }
  assert (feqb (ss_FitScore x) (ss_FitScore y) = true ∧ feqb (ss_FitScore y) (ss_FitScore z) = true) as [E3 E4]
    by (revert E1 E2; clear; split; float_order).
  destruct H2 as [?|H2%bool_decide_eq_false]; [congruence|]. destruct H4 as [?|H4%bool_decide_eq_false]; [congruence|].
  apply bool_decide_eq_false. lia.
Qed.

(** The first of a sorted listing of numbers is not beaten. *)
Lemma first_not_beaten l best x :
  neighbours_ordered score_before l → Forall numbered l → head l = Some best → x ∈ l → score_before x best = false.
Proof.
  intros Hn Hall Hb [i Hi]%list_elem_of_lookup. destruct l as [|b l]; [done|]. injection Hb as ->.
  revert x Hi. induction i as [|i IH]; intros x Hi.
  { injection Hi as <-. destruct (score_before best best) eqn:E; [|done]. by rewrite (score_before_asym _ _ E) in E. }
  destruct (lookup_lt_is_Some_2 (best :: l) i) as [y Hy]; [apply lookup_lt_Some in Hi; lia|].
  rewrite list.Forall_forall in Hall.
  eapply (score_before_negtrans x y best); [by apply Hall; eapply list_elem_of_lookup_2|
    by apply Hall; eapply list_elem_of_lookup_2|apply Hall; by left|by apply (Hn i)|by apply IH].
Qed.

(** The best slot, [beats x y] reading: a higher score, or an earlier start. *)
Lemma ScoreSlots_best c slots load best others :
  numeric c → is_nan load = false → (∀ s, s ∈ slots → minute_slot s) →
  ScoreSlots c slots load = best :: others →
  ss_Slot best ∈ slots ∧ offered (ss_Slot best) = true ∧ ss_FitScore best = ScoreFit c (ss_Slot best) load ∧
  in_unit (ss_FitScore best) ∧
  ∀ s, s ∈ slots → offered s = true → score_before (mkSlotScore s (ScoreFit c s load)) best = false.
Proof.
  intros Hc Hload Hslots Hl. unfold ScoreSlots, sortSlotScores in Hl.
  set (scores := map _ _) in Hl.
  assert (Hin : ∀ x, x ∈ best :: others ↔ x ∈ scores) by (intros x; rewrite <- Hl; by rewrite insertionSort_perm).
  assert (Hscores : ∀ x, x ∈ scores ↔ ∃ s, s ∈ slots ∧ offered s = true ∧ x = mkSlotScore s (ScoreFit c s load)).
  { intros x. unfold scores. rewrite list_elem_of_In, in_map_iff. split.
    - intros (s & <- & [Hs Ho]%filter_In). exists s. by rewrite list_elem_of_In.
    - intros (s & Hs & Ho & ->). exists s. rewrite filter_In. by rewrite <- list_elem_of_In. }
  destruct (proj1 (Hscores best)) as (s & Hs & Ho & ->); [apply Hin; by left|]. cbn.
  split_and!; [done|done|done|by apply ScoreFit_unit; [|apply Hslots|]|].
  intros s' Hs' Ho'. eapply (first_not_beaten (_ :: others)); [|apply list.Forall_forall|done|].
  - rewrite <- Hl. apply insertionSort_neighbours, score_before_asym.
  - intros x (s1 & Hs1 & _ & ->)%Hin%Hscores. unfold numbered. cbn.
    destruct (ScoreFit_unit c s1 load Hc (Hslots _ Hs1) Hload) as [H1 _].
    apply nonneg_fleb in H1. by apply nonneg_number.
  - apply Hin, Hscores. by exists s'.
Qed.

Lemma ScoreSlots_from c slots load x : x ∈ ScoreSlots c slots load → ss_Slot x ∈ slots.
Proof.
  unfold ScoreSlots, sortSlotScores. rewrite insertionSort_perm, list_elem_of_In, in_map_iff.
  intros (s & <- & [Hs _]%filter_In). by apply list_elem_of_In.
Qed.

Lemma ScoreSlots_none c slots load s : ScoreSlots c slots load = [] → s ∈ slots → offered s = true → False.
Proof.
  intros E Hs Ho. apply (not_elem_of_nil (mkSlotScore s (ScoreFit c s load))). rewrite <- E.
  unfold ScoreSlots, sortSlotScores. rewrite insertionSort_perm, list_elem_of_In, in_map_iff. exists s.
  split; [done|]. apply filter_In. by rewrite <- list_elem_of_In.
Qed.

(** ** Recommendations *)

Lemma midnight_us t : trunc_us (midnight t) = midnight t ∧ trunc_us (midnight t + MaxDaysAhead * OneDay) = midnight t + MaxDaysAhead * OneDay.
Proof.
  assert (Hm : midnight t = t / OneDay * OneDay) by (unfold midnight; pose proof (Z.div_mod t OneDay ltac:(done)); lia).
  assert (E : OneDay = 86400000000 * 1000) by done. unfold trunc_us. rewrite Hm.
  replace (t / OneDay * OneDay + MaxDaysAhead * OneDay) with ((t / OneDay + MaxDaysAhead) * OneDay) by lia.
  rewrite E, !Z.mul_assoc, !Z.mod_mul by lia. lia.
Qed.

(** The rows of a table of slots made by the engine. *)
Definition slots_sound (db : SCDB) : Prop := ∀ id s, sc_slots db !! id = Some s → sl_ID s = id ∧ minute_slot s.

(** A stored slot that is free and lies in the seven days from [from] on. *)
Definition in_week (db : SCDB) (from : time) (s : ScheduleSlot) : Prop :=
  (∃ id, sc_slots db !! id = Some s) ∧ offered s = true ∧
  from ≤ sl_StartTime s ∧ sl_EndTime s ≤ from + MaxDaysAhead * OneDay.

Lemma slots_where_elem P db s : s ∈ slots_where P db ↔ (∃ id, sc_slots db !! id = Some s) ∧ P s = true.
Proof.
  unfold slots_where. rewrite SliceStable_elem, list_elem_of_In, filter_In, <- list_elem_of_In, list_elem_of_fmap.
  split; intros [H HP]; (split; [|done]).
  - destruct H as ([id x] & -> & H%elem_of_map_to_list). by exists id.
  - destruct H as [id H]. exists (id, s). by rewrite elem_of_map_to_list.
Qed.

Lemma week_listed db from s :
  s ∈ slots_where (fun s => slot_within (midnight from) (midnight from + MaxDaysAhead * OneDay) s && offered s) db ↔
  in_week db (midnight from) s.
Proof.
  rewrite slots_where_elem. unfold in_week, slot_within. destruct (midnight_us from) as [-> ->].
  rewrite !andb_true_iff, !bool_decide_eq_true. tauto.
Qed.

(** Not beaten: no free slot of the week scores higher, and none of the same
    score starts earlier. *)
Definition best_in_week (db : SCDB) (from : time) (c : SchedulingCandidate) (load : float64) (best : SlotScore) : Prop :=
  in_week db from (ss_Slot best) ∧ ss_FitScore best = ScoreFit c (ss_Slot best) load ∧ in_unit (ss_FitScore best) ∧
  ∀ s, in_week db from s → let score := ScoreFit c s load in
    fltb (ss_FitScore best) score = false ∧
    (feqb score (ss_FitScore best) = true → sl_StartTime (ss_Slot best) ≤ sl_StartTime s).

Section recommend.
Context {U : UuidPkg} {H : UuidSHA1} {X : Type} (e : SchedEngine X).
Implicit Types s : Agent SCDB X.

Definition number_loads : Prop := ∀ load n, se_capacity e = Some load → is_nan (load n) = false.

(** What is proposed and stored. *)
Definition proposed (cid : string) (c : SchedulingCandidate) (best : SlotScore) (id : string) (now : time) : ScheduleDecision :=
  mkDecision id cid (sl_ID (ss_Slot best)) (ss_FitScore best) (bool_decide (cd_ItemType c = "meeting"))
    (if bool_decide (cd_ItemType c = "meeting") then "meeting scheduling requires review" else "")
    DecisionStatusProposed (trunc_us now).

Lemma read_run {A} (f : SCDB → A) s : ag_faults s = [] → statement (fun db => Ok (f db, db)) s = (Ok (f (ag_db s)), s).
Proof using. intros Hf. rewrite (statement_run _ s Hf). by destruct s. Qed.

Lemma offered_not_meeting c sl : offered sl = true →
  RequiresReview c sl false =
    (bool_decide (cd_ItemType c = "meeting"),
     if bool_decide (cd_ItemType c = "meeting") then "meeting scheduling requires review" else "").
Proof using.
  intros [_ E%bool_decide_eq_true]%andb_true_iff. unfold RequiresReview. rewrite E.
  rewrite bool_decide_eq_false_2 by done. by case_bool_decide.
Qed.

Lemma propose_exact c cid best others db0 x0 :
  sc_candidates db0 !! cid = Some c → is_Some (sc_slots db0 !! sl_ID (ss_Slot best)) → offered (ss_Slot best) = true →
  triple (fun s => calm (fun db x => db = db0 ∧ x = x0) s ∧ sc_decisions db0 !! uuid_String (uuid_New (ag_uuids s)) = None)
    (propose e c cid best others)
    (fun r => calm (fun db x => x = x0 ∧ ∃ id now, sc_decisions db0 !! id = None ∧
       db = db0 <| sc_decisions := <[id := proposed cid c best id now]> (sc_decisions db0) |> ∧
       r = mkRecommendation cid (Some best) (take 3 others) (de_RequiresReview (proposed cid c best id now))
             (de_ReviewReason (proposed cid c best id now)) false)).
Proof using.
  intros Hc [sl Hsl] Ho s [(Hf & Hdb & Hx) Hid]. unfold propose. rewrite offered_not_meeting by done.
  rewrite bindS_run. unfold fresh_uuid. cbn [fst snd]. rewrite bindS_run. unfold sched_now, reading. cbn [fst snd].
  rewrite bindS_run, dropped_run. unfold SaveDecision. rewrite statement_run by exact Hf. cbn [ag_db fst snd set_field].
  set (id := uuid_String (uuid_New (ag_uuids s))) in *. unfold insert_decision. cbn [ag_db fst snd de_ID de_CandidateID de_ChosenSlotID].
  change (ag_db _) with (ag_db s). rewrite Hdb, Hid, Hc, Hsl. cbn [fst snd].
  rewrite bindS_run. unfold sched_audit, record_audit. cbn [fst snd].
  destruct (se_auditor e); cbn; (split; [exact Hf|]); (split; [exact Hx|]);
    exists id, (se_clock e (ag_reads s)); split_and!; done.
Qed.

(** C31: A recommendation, exactly.  Without database faults [Recommend] finds no
    slot exactly when no stored slot of the next seven days is free, and then
    changes nothing; otherwise it proposes a free slot that no other one beats in
    score, or in start at equal scores, lists up to three others, and stores
    just one decision, proposed, with the slot and its score, which lies in
    [0, 1].  Review is asked for exactly when the candidate is a meeting: not for
    a slot next to family time, which the comment of [RequiresReview] names as
    well (see [beside_family_unreviewed]).  The week begins at midnight, so hours
    already past count as free. *)
Theorem recommend_exact (s : Agent SCDB X) cid c :
  ag_faults s = [] → sc_candidates (ag_db s) !! cid = Some c → numeric c → number_loads →
  slots_sound (ag_db s) → sc_decisions (ag_db s) !! uuid_String (uuid_New (ag_uuids s)) = None →
  let from := midnight (se_clock e (ag_reads s)) in
  let '(r, s') := Recommend e cid s in
  ag_ext s' = ag_ext s ∧
  ((∀ sl, ¬ in_week (ag_db s) from sl) ∧ ag_db s' = ag_db s ∧
     r = Ok (mkRecommendation cid None [] false "" true) ∨
   ∃ load best others id now, best_in_week (ag_db s) from c load best ∧
     Forall (fun x => in_week (ag_db s) from (ss_Slot x)) others ∧
     let d := proposed cid c best id now in
     r = Ok (mkRecommendation cid (Some best) (take 3 others) (de_RequiresReview d) (de_ReviewReason d) false) ∧
     sc_decisions (ag_db s) !! id = None ∧
     ag_db s' = (ag_db s) <| sc_decisions := <[id := d]> (sc_decisions (ag_db s)) |>).
Proof using.
  intros Hf Hc Hnum Hloads Hslots Hids. cbv zeta. unfold Recommend. rewrite bindS_run. unfold GetCandidate, get_row.
  rewrite bindS_run, read_run by done. cbn [fst snd retS]. rewrite Hc, bindS_run. unfold sched_now, reading at 1. cbn [fst snd].
  set (from := midnight (se_clock e (ag_reads s))). set (s1 := s <| ag_reads := S (ag_reads s) |>).
  set (week := slots_where (fun sl => slot_within from (from + MaxDaysAhead * OneDay) sl && offered sl) (ag_db s)).
  assert (Hweek : ∀ sl, sl ∈ week ↔ in_week (ag_db s) from sl) by (intros sl; apply week_listed).
  assert (Hread : week_slots e from s1 = (week, s1)).
  { unfold week_slots. rewrite bindS_run. unfold ListAvailableSlots. by rewrite read_run. }
  change (snd (reading (se_clock e) s)) with s1. rewrite bindS_run, Hread. cbn [fst snd]. rewrite bindS_run.
  assert (Hload : ∃ load s2, owner_load e f0 s1 = (load, s2) ∧ is_nan load = false ∧ ag_faults s2 = [] ∧
    ag_db s2 = ag_db s ∧ ag_ext s2 = ag_ext s ∧ ag_uuids s2 = ag_uuids s).
  { unfold owner_load. destruct (se_capacity e) as [ask|] eqn:E.
    - eexists _, _. split; [done|]. by split; [apply (Hloads ask)|].
    - by eexists _, _. }
  destruct Hload as (load & s2 & -> & Hload & Hf2 & Hdb2 & Hx2 & Hu2). cbn [fst snd].
  destruct (ScoreSlots c week load) as [|best others] eqn:Hscores.
  { split; [done|]. left. split; [|done]. intros sl Hsl. eapply ScoreSlots_none; [exact Hscores|by apply Hweek|by destruct Hsl as (_ & ? & _)]. }
  destruct (ScoreSlots_best c week load best others) as (B1 & B2 & B3 & B4 & B5); [done|done| |done|].
  { intros sl [[id Hid] _]%Hweek. by apply Hslots in Hid as [_ ?]. }
  apply Hweek in B1 as HB1. destruct HB1 as ([id0 Hid0] & _). pose proof (Hslots _ _ Hid0) as [Eid _].
  rewrite bindS_run.
  pose proof (propose_exact c cid best others (ag_db s) (ag_ext s) Hc ltac:(by rewrite Eid; eexists) B2 s2) as Hp.
  destruct (propose e c cid best others s2) as [rec s3]. cbn [fst snd retS] in *.
  destruct Hp as (_ & Hx3 & id & now & Hnone & Hdb3 & ->); [by rewrite Hu2|].
  split; [done|]. right. exists load, best, others, id, now. split.
  { split; [by apply Hweek|]. split; [done|]. split; [done|]. intros sl Hsl. cbv zeta.
    specialize (B5 sl (proj2 (Hweek sl) Hsl) ltac:(by destruct Hsl as (_ & Ho & _))). unfold score_before in B5. cbn in B5.
    apply orb_false_iff in B5 as [B5 B6]. split; [done|]. intros E. rewrite E in B6. apply bool_decide_eq_false in B6. lia. }
  split; [|done]. apply list.Forall_forall. intros x Hx. apply Hweek, (ScoreSlots_from c _ load). rewrite Hscores. by right.
Qed.
End recommend.
