(* ===== verification/SchedulingCalendar.v ===== *)
(** * Scheduling: the way of a decision to the calendar

    Whatever fails, decisions follow their state machine, and the calendar
    connector is called only for decisions a person approved.

    The second part runs the engine on a concrete day: witnesses of the theorems
    on scheduling, and behaviours its purpose does not suggest. *)

From stdpp Require Import base gmap strings list tactics numbers fin_maps relations pretty.
From Stdlib Require Import ZArith Lia.
From S2P Require Import Prelude GoFloat Models GoTime AgentWorld Scheduling Fixtures SchedulingProps.

Open Scope Z_scope.

(** ** Calls of the connector *)

Record EventCall := mkEventCall {
  ec_Decision : ScheduleDecision;
  ec_Candidate : SchedulingCandidate;
  ec_Slot : ScheduleSlot;
  ec_DryRun : bool
}.

(** A connector that keeps its calls and answers the [n]-th with [answer n]. *)
Definition calendar_recorder (answer : nat → string * string * option error) : CalendarConnector (list EventCall) :=
  fun d c s dry calls => (answer (length calls), calls ++ [mkEventCall d c s dry]).

(** ** Soundness of the tables *)

Definition decision_fixed (d : ScheduleDecision) :=
  (de_ID d, de_CandidateID d, de_ChosenSlotID d, de_FitScore d, (de_RequiresReview d, de_ReviewReason d, de_CreatedAt d)).

Definition decision_step (a b : string) : Prop := IsValidDecisionTransition a b = true.

(** Approved or beyond. *)
Definition cleared (d : ScheduleDecision) : Prop :=
  de_Status d = DecisionStatusApproved ∨ de_Status d = DecisionStatusScheduled.

(** [approved]: the decisions a person approved. *)
Record sched_sound (approved : string → Prop) (db : SCDB) (calls : list EventCall) : Prop := {
  sound_decision : ∀ id d, sc_decisions db !! id = Some d →
    de_ID d = id ∧ is_Some (sc_candidates db !! de_CandidateID d) ∧ is_Some (sc_slots db !! de_ChosenSlotID d) ∧
    (de_Status d = DecisionStatusProposed ∨ cleared d ∧ approved id);
  sound_candidate : ∀ id c, sc_candidates db !! id = Some c → cd_ID c = id;
  sound_slot : ∀ id s, sc_slots db !! id = Some s → sl_ID s = id;
  sound_record : ∀ id r, sc_records db !! id = Some r → is_Some (sc_decisions db !! cr_DecisionID r);
  sound_calls : ∀ call, call ∈ calls → ∃ d, sc_decisions db !! de_ID (ec_Decision call) = Some d ∧ cleared d ∧
    decision_fixed d = decision_fixed (ec_Decision call) ∧
    cd_ID (ec_Candidate call) = de_CandidateID d ∧ sl_ID (ec_Slot call) = de_ChosenSlotID d
}.

Definition decision_lives (d d' : ScheduleDecision) : Prop :=
  decision_fixed d = decision_fixed d' ∧ rtc decision_step (de_Status d) (de_Status d').

#[export] Instance decision_lives_preorder : PreOrder decision_lives.
Proof.
  split; [by intros d|]. intros x y z [H1 H2] [H3 H4]. split; [congruence|by etrans].
Qed.

(** Decisions stay, and live on. *)
Definition decisions_evolve (db db' : SCDB) : Prop :=
  ∀ id d, sc_decisions db !! id = Some d → ∃ d', sc_decisions db' !! id = Some d' ∧ decision_lives d d'.

#[export] Instance decisions_evolve_preorder : PreOrder decisions_evolve.
Proof.
  split; [by intros db id d H; exists d|]. intros x y z H1 H2 id d H.
  destruct (H1 _ _ H) as (d1 & Hd1 & L1). destruct (H2 _ _ Hd1) as (d2 & Hd2 & L2).
  exists d2. split; [done|by etrans].
Qed.

Lemma decision_fixed_fields d d' : decision_fixed d = decision_fixed d' →
  de_ID d = de_ID d' ∧ de_CandidateID d = de_CandidateID d' ∧ de_ChosenSlotID d = de_ChosenSlotID d'.
Proof. unfold decision_fixed. intros H. injection H. intros. by split_and!. Qed.

(** ** The operations *)

Section operations.
Context {U : UuidPkg} {H : UuidSHA1} (answer : nat → string * string * option error).
Abbreviation X := (list EventCall).
Abbreviation SC A := (St (Agent SCDB X) A).
Context (e : SchedEngine X) (He : ∀ create, se_calendar e = Some create → create = calendar_recorder answer).
Context (approved : string → Prop) (db0 : SCDB).

Definition keeps_sound (db : SCDB) (calls : X) : Prop := sched_sound approved db calls ∧ decisions_evolve db0 db.

Abbreviation keeps c := (triple (tables keeps_sound) c (fun _ => tables keeps_sound)).

(** A statement that keeps the tables sound. *)
Lemma keeps_statement {A} (stmt : SCDB → res (A * SCDB)) :
  (∀ db calls a db', keeps_sound db calls → stmt db = Ok (a, db') → keeps_sound db' calls) →
  keeps (statement stmt).
Proof using.
  intros Hst. apply (triple_statement _ _ (fun _ => keeps_sound)). intros db x Hs. split; [done|].
  intros a db' E. split; [|intros _]; by eapply Hst.
Qed.

Lemma keeps_exec (stmt : SCDB → res (unit * SCDB)) :
  (∀ db calls db', keeps_sound db calls → stmt db = Ok (tt, db') → keeps_sound db' calls) → keeps (exec stmt).
Proof using.
  intros Hst. eapply triple_bind; [apply keeps_statement; intros db x [] db'; apply Hst|].
  intros r. by apply tables_ret.
Qed.

(** Tables other than the decisions may gain rows. *)
Lemma keeps_sound_grow db calls slots candidates records :
  (∀ id, is_Some (sc_slots db !! id) → is_Some (slots !! id)) →
  (∀ id s, slots !! id = Some s → sl_ID s = id) →
  (∀ id, is_Some (sc_candidates db !! id) → is_Some (candidates !! id)) →
  (∀ id c, candidates !! id = Some c → cd_ID c = id) →
  (∀ id r, records !! id = Some r → is_Some (sc_decisions db !! cr_DecisionID r)) →
  keeps_sound db calls → keeps_sound (mkSCDB slots candidates (sc_decisions db) records) calls.
Proof using.
  intros H1 H2 H3 H4 H5 [[S1 S2 S3 S4 S5] He']. split; [|exact He']. split; cbn; try done.
  intros id d Hd. destruct (S1 id d Hd) as (E1 & E2 & E3 & E4). split_and!; auto.
Qed.

Lemma keeps_upsert_slot s : keeps (exec (upsert_slot s)).
Proof using.
  apply keeps_exec. intros db calls db' Hs [= <-]. destruct Hs as [Hs Hev]. pose proof Hs as [S1 S2 S3 S4 S5].
  apply keeps_sound_grow; [| |done|done|done|done].
  - intros id [x Hx]. rewrite lookup_insert. case_decide; [by eexists|by exists x].
  - intros id x. rewrite lookup_insert. case_decide as E; [intros [= <-]; exact E|apply S3].
Qed.

Lemma keeps_SaveSlots slots : keeps (SaveSlots slots).
Proof using.
  induction slots as [|s slots IH]; cbn [SaveSlots]; [by apply tables_ret|].
  eapply triple_bind; [apply keeps_upsert_slot|]. intros [err|]; [by apply tables_ret|apply IH].
Qed.

Lemma keeps_owner_load dflt : keeps (owner_load e dflt).
Proof using. unfold owner_load. destruct (se_capacity e); [apply triple_reading|by apply tables_ret]. Qed.

Lemma keeps_RecomputeSlots : keeps (RecomputeSlots e).
Proof using.
  unfold RecomputeSlots. eapply triple_bind; [apply triple_reading|]. intros now.
  eapply triple_bind; [apply keeps_owner_load|]. intros load. eapply triple_bind; [apply triple_reading|]. intros now'.
  eapply triple_bind; [apply triple_dropped, keeps_SaveSlots|]. intros ?.
  eapply triple_bind; [apply triple_audit|]. intros ?. by apply tables_ret.
Qed.

Lemma keeps_AddCandidate c : keeps (AddCandidate e c).
Proof using.
  unfold AddCandidate. apply (triple_bind _ _ (fun _ => tables keeps_sound)).
  { case_bool_decide; [apply triple_fresh|by apply tables_ret]. }
  intros id. apply (triple_bind _ _ (fun _ => tables keeps_sound)).
  { case_bool_decide; [apply triple_reading|by apply tables_ret]. }
  intros created. apply (triple_bind _ _ (fun _ => tables keeps_sound)).
  { destruct (se_portfolio e); [|by apply tables_ret]. destruct (feqb _ _); [apply triple_reading|by apply tables_ret]. }
  intros priority. eapply triple_bind.
  { apply keeps_statement. intros db calls a db' Hs [= _ <-]. destruct Hs as [Hs Hev]. pose proof Hs as [S1 S2 S3 S4 S5].
    apply keeps_sound_grow; [done|done| | |done|done].
    - intros k [x Hx]. rewrite lookup_insert. case_decide; [by eexists|by exists x].
    - intros k x. rewrite lookup_insert. case_decide as E; [intros [= <-]; exact E|apply S2]. }
  intros [saved|err]; [|by apply tables_ret]. eapply triple_bind; [apply triple_audit|]. intros ?. by apply tables_ret.
Qed.

(** Reading keeps everything; a row read is in the table. *)
Lemma keeps_get_row {A} (table : SCDB → gmap string A) id :
  triple (tables keeps_sound) (get_row table id)
    (fun r => tables (fun db calls => keeps_sound db calls ∧ ∀ a, r = Ok a → table db !! id = Some a)).
Proof using.
  eapply triple_bind.
  - apply (triple_statement _ _ (fun r db calls => keeps_sound db calls ∧ ∀ a, r = Ok (Some a) → table db !! id = Some a)).
    intros db x Hs. split; [by split|]. intros a db' [= <- <-]. split; [split; [done|by intros a [= E]]|by split].
  - intros r. apply tables_ret. intros db x [Hs Hr]. split; [done|]. intros a. destruct r as [[b|]|]; [|done|done].
    intros [= <-]. by apply Hr.
Qed.

Lemma keeps_read {A} (f : SCDB → A) : keeps (statement (fun db => Ok (f db, db))).
Proof using. apply keeps_statement. by intros db calls a db' Hs [= _ <-]. Qed.

Lemma keeps_insert_decision d : de_Status d = DecisionStatusProposed → keeps (SaveDecision d).
Proof using.
  intros Hst. apply keeps_statement. intros db calls a db' [[S1 S2 S3 S4 S5] Hev] Hi. unfold insert_decision in Hi.
  destruct (sc_decisions db !! de_ID d) eqn:E1; [done|].
  destruct (sc_candidates db !! de_CandidateID d) as [c|] eqn:E2; [|done].
  destruct (sc_slots db !! de_ChosenSlotID d) as [sl|] eqn:E3; [|done]. injection Hi as _ <-.
  assert (Hne : ∀ k y, sc_decisions db !! k = Some y → de_ID d ≠ k) by (intros k y Hk E; congruence).
  split; [split; cbn; try done|].
  - intros k y. rewrite lookup_insert. case_decide as E; [intros [= <-]; cbn|apply S1].
    split_and!; [done|by eexists|by eexists|by left].
  - intros k r Hr. destruct (S4 k r Hr) as [y Hy]. rewrite lookup_insert_ne; [by exists y|by eapply Hne].
  - intros call Hcall. destruct (S5 call Hcall) as (y & Hy & ?). exists y. rewrite lookup_insert_ne; [done|by eapply Hne].
  - intros k y Hk. destruct (Hev k y Hk) as (y' & Hy' & Hl). exists y'. cbn. rewrite lookup_insert_ne; [done|by eapply Hne].
Qed.

Lemma keeps_Recommend cid : keeps (Recommend e cid).
Proof using.
  unfold Recommend. eapply triple_bind.
  { eapply triple_weaken; [apply (keeps_get_row sc_candidates cid)|done|]. intros r s [Hs _]. exact Hs. }
  intros [c|err]; [|by apply tables_ret]. eapply triple_bind; [apply triple_reading|]. intros now.
  apply (triple_bind _ _ (fun _ => tables keeps_sound)).
  { unfold week_slots. eapply triple_bind; [apply keeps_read|]. intros [slots|err]; [by apply tables_ret|].
    eapply triple_bind; [apply keeps_owner_load|]. intros load. eapply triple_bind; [apply triple_reading|].
    intros now'. by apply tables_ret. }
  intros slots. eapply triple_bind; [apply keeps_owner_load|]. intros load.
  destruct (ScoreSlots c slots load) as [|best others]; [by apply tables_ret|].
  apply (triple_bind _ _ (fun _ => tables keeps_sound)); [|intros rec; by apply tables_ret].
  unfold propose. destruct (RequiresReview c (ss_Slot best) false) as [review reason].
  eapply triple_bind; [apply triple_fresh|]. intros id. eapply triple_bind; [apply triple_reading|]. intros t.
  eapply triple_bind; [by apply triple_dropped, keeps_insert_decision|]. intros ?.
  eapply triple_bind; [apply triple_audit|]. intros ?. by apply tables_ret.
Qed.

(** ** Approval *)

Lemma set_status_sound db calls id d status :
  keeps_sound db calls → sc_decisions db !! id = Some d → approved id →
  decision_step (de_Status d) status ∨ de_Status d = status →
  status = DecisionStatusApproved ∨ status = DecisionStatusScheduled →
  keeps_sound (db <| sc_decisions := alter (fun d => d <| de_Status := status |>) id (sc_decisions db) |>) calls.
Proof using.
  intros [[S1 S2 S3 S4 S5] Hev] Hd Hok Hstep Hst.
  set (f := fun d : ScheduleDecision => d <| de_Status := status |>).
  assert (Hf : ∀ y, decision_fixed (f y) = decision_fixed y ∧ cleared (f y))
    by (intros y; split; [done|exact Hst]).
  assert (Hrow : alter f id (sc_decisions db) !! id = Some (f d)) by (rewrite lookup_alter_eq, Hd; done).
  split; [split; cbn; try done|].
  - intros k y Hk. destruct (decide (k = id)) as [->|Hne].
    + rewrite Hrow in Hk. injection Hk as <-. destruct (S1 id d Hd) as (E1 & E2 & E3 & _). split_and!; try done.
      right. split; [apply Hf|done].
    + rewrite lookup_alter_ne in Hk by done. by apply S1.
  - intros k r Hr. destruct (S4 k r Hr) as [y Hy]. destruct (decide (cr_DecisionID r = id)) as [->|Hne].
    + rewrite Hrow. by eexists.
    + rewrite lookup_alter_ne by done. by exists y.
  - intros call Hcall. destruct (S5 call Hcall) as (y & Hy & Hc & Hfix & HC & HS).
    destruct (decide (de_ID (ec_Decision call) = id)) as [E|Hne].
    + rewrite E in *. exists (f d). rewrite Hd in Hy. injection Hy as ->. rewrite Hrow. destruct (Hf y) as [F1 F2].
      split; [done|]. split; [done|]. split; [by rewrite F1|]. by split.
    + exists y. by rewrite lookup_alter_ne.
  - intros k y Hk. destruct (Hev k y Hk) as (y' & Hy' & Hl). destruct (decide (k = id)) as [->|Hne].
    + exists (f d). split; [exact Hrow|]. rewrite Hd in Hy'. injection Hy' as <-. etrans; [exact Hl|].
      split; [done|]. destruct Hstep as [Hs|Hs]; [by apply rtc_once|]. unfold f. cbn. by rewrite Hs.
    + exists y'. cbn. by rewrite lookup_alter_ne.
Qed.

Definition has_row (id : string) (d : ScheduleDecision) (db : SCDB) (calls : X) : Prop :=
  keeps_sound db calls ∧ sc_decisions db !! id = Some d.

Lemma keeps_UpdateDecisionStatus id d status :
  approved id → decision_step (de_Status d) status ∨ de_Status d = status →
  status = DecisionStatusApproved ∨ status = DecisionStatusScheduled →
  triple (tables (has_row id d)) (UpdateDecisionStatus id status) (fun _ => tables keeps_sound).
Proof using.
  intros Hok Hstep Hst. eapply triple_bind.
  - apply (triple_statement _ _ (fun _ => keeps_sound)). intros db x [Hs Hd]. split; [done|]. intros [] db' [= <-].
    split; [|intros _]; by eapply set_status_sound.
  - intros r. by apply tables_ret.
Qed.

Lemma keeps_ApproveDecision id : approved id → keeps (ApproveDecision e id).
Proof using.
  intros Hok. unfold ApproveDecision. eapply triple_bind; [apply keeps_get_row|]. intros [d|err].
  2: { apply tables_ret. by intros db x [Hs _]. }
  destruct (negb _) eqn:Hv; [apply tables_ret; by intros db x [Hs _]|]. apply negb_false_iff in Hv.
  apply (triple_bind _ _ (fun _ => tables keeps_sound)).
  { eapply triple_weaken; [apply (keeps_UpdateDecisionStatus id d); [done|by left|by left]| |done].
    intros s [Hs Hrow]. split; [done|]. by apply Hrow. }
  intros [err|]; [by apply tables_ret|]. eapply triple_bind; [apply triple_audit|]. intros ?. by apply tables_ret.
Qed.

(** ** The calendar *)

(** What the checks before a calendar write establish. *)
Definition checked (id : string) (d : ScheduleDecision) (c : SchedulingCandidate) (sl : ScheduleSlot)
    (db : SCDB) (calls : X) : Prop :=
  has_row id d db calls ∧ cleared d ∧ cd_ID c = de_CandidateID d ∧ sl_ID sl = de_ChosenSlotID d.

Lemma calendar_inputs_checked id :
  triple (tables keeps_sound) (calendar_inputs e id)
    (fun r => tables (fun db calls => match r with
       | Ok (d, c, sl) => checked id d c sl db calls
       | Err _ => keeps_sound db calls
       end)).
Proof using.
  unfold calendar_inputs. eapply triple_bind; [apply keeps_get_row|]. intros [d|err].
  2: { apply tables_ret. by intros db x [Hs _]. }
  destruct (_ && _) eqn:Hst; [apply tables_ret; by intros db x [Hs _]|].
  assert (Hcl : cleared d).
  { apply andb_false_iff in Hst as [Hst|Hst]; apply negb_false_iff, bool_decide_eq_true in Hst; [by left|by right]. }
  apply (triple_bind _ _ (fun r => tables (fun db calls => has_row id d db calls ∧
    ∀ c, r = Ok c → cd_ID c = de_CandidateID d))).
  { eapply triple_bind.
    - apply (triple_statement _ _ (fun r db calls => has_row id d db calls ∧
        ∀ c, r = Ok (Some c) → cd_ID c = de_CandidateID d)).
      intros db x [Hs Hrow]. assert (Hr : has_row id d db x) by (split; [done|by apply Hrow]).
      split; [by split|]. intros a db' [= <- <-]. split; [|by split]. split; [done|].
      intros c [= Hc]. by apply (sound_candidate _ _ _ (proj1 Hs)) in Hc.
    - intros r. apply tables_ret. intros db x [Hs Hr]. split; [done|]. intros c. destruct r as [[b|]|]; [|done|done].
      intros [= <-]. by apply Hr. }
  intros [c|err]; [|apply tables_ret; by intros db x [[Hs _] _]].
  eapply triple_bind; [apply triple_reading|]. intros now.
  apply (triple_bind _ _ (fun _ => tables (fun db calls => has_row id d db calls ∧
    ∀ c', Ok c = Ok c' → cd_ID c' = de_CandidateID d))).
  { apply triple_statement. intros db x Hs. split; [done|]. by intros a db' [= _ <-]. }
  intros r. destruct (List.find _ _) as [sl|] eqn:Ef; [|apply tables_ret; by intros db x [[Hs _] _]].
  apply find_some in Ef as [_ Ef%bool_decide_eq_true]. apply tables_ret. intros db x [Hs Hc].
  split; [done|]. split; [done|]. split; [by apply Hc|done].
Qed.

Lemma keeps_save_record r : keeps (save_record r).
Proof using.
  unfold save_record. eapply triple_bind; [|intros saved; by apply tables_ret].
  apply keeps_statement. intros db calls a db' Hs Hi. unfold insert_record in Hi.
  destruct (sc_records db !! cr_ID r); [done|]. destruct (sc_decisions db !! cr_DecisionID r) as [d|] eqn:E; [|done].
  injection Hi as _ <-. pose proof Hs as [[S1 S2 S3 S4 S5] _]. apply keeps_sound_grow; try done.
  intros k y. rewrite lookup_insert. case_decide; [intros [= <-]; cbn; by eexists|apply S4].
Qed.

(** A call for a checked decision is accounted for. *)
Lemma call_sound id d c sl dry db calls :
  checked id d c sl db calls → checked id d c sl db (calls ++ [mkEventCall d c sl dry]).
Proof using.
  intros [[[[S1 S2 S3 S4 S5] Hev] Hd] (Hcl & Hc & Hsl)]. destruct (S1 id d Hd) as (Eid & _).
  split; [|done]. split; [|done]. split; [|exact Hev]. split; try done.
  intros call [Hcall|Hcall%list_elem_of_singleton]%elem_of_app; [by apply S5|subst call].
  exists d. cbn. by rewrite Eid.
Qed.

Lemma keeps_WriteCalendar id dryRun : keeps (WriteCalendar e id dryRun).
Proof using He.
  unfold WriteCalendar. cbv zeta. eapply triple_bind; [apply calendar_inputs_checked|]. intros [[[d c] sl]|err];
    [|by apply tables_ret].
  eapply triple_bind; [apply triple_fresh|]. intros rid. eapply triple_bind; [apply triple_reading|]. intros now.
  assert (Hrec : ∀ r ev (out : option error), triple (tables keeps_sound)
    (let! record := save_record r in let! _ := sched_audit e ev id in retS (record, out))
    (fun _ => tables keeps_sound)).
  { intros r ev out. eapply triple_bind; [apply keeps_save_record|]. intros rec.
    eapply triple_bind; [apply triple_audit|]. intros ?. by apply tables_ret. }
  destruct (se_calendar e) as [create|] eqn:Ecal.
  2: { eapply triple_weaken; [apply Hrec| |done]. by intros s ((? & _) & _). }
  rewrite (He create eq_refl).
  apply (triple_bind _ _ (fun _ => tables (checked id d c sl))).
  { apply triple_provider. intros db calls Hch. cbn. by apply call_sound. }
  intros [[ext ref] [err|]].
  { eapply triple_weaken; [apply Hrec| |done]. by intros s ((? & _) & _). }
  apply (triple_bind _ _ (fun _ => tables keeps_sound)); [|intros ?; apply Hrec].
  destruct dryRun; [apply tables_ret; by intros db x ((? & _) & _)|].
  apply triple_dropped. apply (triple_know (cleared d ∧ approved id)).
  { intros s ([[Hs _] Hd] & Hcl & _). split; [done|]. destruct (sound_decision _ _ _ Hs _ _ Hd) as (_ & _ & _ & [E|[_ Hok]]); [|done].
    destruct Hcl as [Hcl|Hcl]; rewrite E in Hcl; done. }
  intros [Hcl Hok]. eapply triple_weaken; [apply (keeps_UpdateDecisionStatus id d); [done| |by right]| |done].
  - destruct Hcl as [->| ->]; [by left|by right].
  - by intros s (? & _).
Qed.
End operations.

(** ** Runs *)

Inductive SchedOp :=
| OpRecompute
| OpAddCandidate (c : SchedulingCandidate)
| OpRecommend (candidateID : string)
| OpApprove (decisionID : string)
| OpWriteCalendar (decisionID : string) (dryRun : bool).

Section runs.
Context {U : UuidPkg} {H : UuidSHA1} {X : Type} (e : SchedEngine X).
Implicit Types s : Agent SCDB X.

Definition run_sched (op : SchedOp) s : Agent SCDB X :=
  match op with
  | OpRecompute => snd (RecomputeSlots e s)
  | OpAddCandidate c => snd (AddCandidate e c s)
  | OpRecommend cid => snd (Recommend e cid s)
  | OpApprove id => snd (ApproveDecision e id s)
  | OpWriteCalendar id dry => snd (WriteCalendar e id dry s)
  end.

Definition run_scheds (ops : list SchedOp) s : Agent SCDB X := fold_left (fun s op => run_sched op s) ops s.
End runs.

(** C30: Nothing reaches the calendar without approval.  Through any sequence of
    calls, with any capacity, portfolio, connector answers and database faults,
    the calendar connector is called only for stored decisions that a person
    approved ([approved] holding of the ids approved so far), with the decision's
    own candidate and slot; decisions are never removed, keep what was proposed,
    and change their status only along allowed transitions; candidates, slots,
    decisions and calendar records keep referring to existing rows. *)
Theorem calendar_needs_approval {U : UuidPkg} {H : UuidSHA1} answer (e : SchedEngine (list EventCall)) approved ops s :
  se_calendar e = Some (calendar_recorder answer) →
  (∀ id, OpApprove id ∈ ops → approved id) →
  sched_sound approved (ag_db s) (ag_ext s) →
  let s' := run_scheds e ops s in
  sched_sound approved (ag_db s') (ag_ext s') ∧ decisions_evolve (ag_db s) (ag_db s') ∧
  ∀ call, call ∈ ag_ext s' → approved (de_ID (ec_Decision call)).
Proof.
  intros He Hops Hs. cbv zeta.
  assert (He' : ∀ create, se_calendar e = Some create → create = calendar_recorder answer) by congruence.
  assert (Hrun : ∀ s1, tables (keeps_sound approved (ag_db s)) s1 →
    tables (keeps_sound approved (ag_db s)) (run_scheds e ops s1)).
  { unfold run_scheds. clear Hs. induction ops as [|op ops IH]; intros s1 Hs1; cbn [fold_left]; [done|].
    apply IH; [intros id Hin; apply Hops; by right|]. destruct op; cbn [run_sched].
    - by apply keeps_RecomputeSlots.
    - by apply keeps_AddCandidate.
    - by apply keeps_Recommend.
    - apply keeps_ApproveDecision; [|done]. apply Hops. by left.
    - by eapply keeps_WriteCalendar. }
  destruct (Hrun s) as [Hs' Hev]; [by split|]. split; [exact Hs'|]. split; [exact Hev|].
  intros call Hcall. destruct (sound_calls _ _ _ Hs' call Hcall) as (d & Hd & Hcl & _).
  destruct (sound_decision _ _ _ Hs' _ _ Hd) as (_ & _ & _ & [E|[_ Hok]]); [|done].
  destruct Hcl as [Hcl|Hcl]; rewrite E in Hcl; done.
Qed.

Lemma sched_sound_empty approved : sched_sound approved (mkSCDB ∅ ∅ ∅ ∅) [].
Proof.
  split; cbn; try (intros id x Hx; by rewrite lookup_empty in Hx). by intros call ?%elem_of_nil.
Qed.

(** ** Scheduling on a concrete day

    Witnesses that the hypotheses of the theorems hold, and behaviours of the
    engine that its purpose does not suggest. *)

#[local] Existing Instance demo_uuid.
#[local] Instance demo_names : UuidSHA1 := fun seed => seed.

(** 2024-02-29, 15:00 and a minute per reading. *)
Definition leap_day : time := days_of_civil (2024, 2, 29) * OneDay.
Definition demo_afternoon (n : nat) : time := leap_day + 15 * Hour + Z.of_nat n * Minute.

Definition demo_family : SlotGenerationConfig :=
  mkSlotConfig (f_of_Z 4) (f_of_Z 10)
    [mkBlockedRange "lunch" "12:00-13:00"; mkBlockedRange "night" "22:00-07:00"]
    ["06:00-08:00"; "9:00 - 15:30"] f0 zero_time 1.

Definition demo_answers (n : nat) : string * string * option error :=
  ("event-" +:+ pretty n, "https://calendar/" +:+ pretty n, None).

Definition demo_sched : SchedEngine (list EventCall) :=
  mkSchedEngine demo_afternoon true (Some (fun _ => lit 65 100)) None
    (Some (calendar_recorder demo_answers)) demo_family.

Definition demo_empty (faults : list Fault) : Agent SCDB (list EventCall) :=
  mkAgent (mkSCDB ∅ ∅ ∅ ∅) [] 0 0 faults [].

Definition demo_work (id : string) : SchedulingCandidate :=
  mkCandidate id "revenue" "item" f1 (lit 50 100) (f_of_Z 200) "" f0 zero_time.

Definition clock_of (t : time) : Z * Z := ((t - leap_day) / Hour, (t - leap_day) / Minute mod 60).

(** The night range is attached to the evening of its day only, so the hour
    before 07:00 is offered; the slots after the fourth hour are the buffer. *)
Example demo_slots :
  map (fun s => (clock_of (sl_StartTime s), sl_SlotType s)) (GenerateSlots (demo_family <| cf_Date := leap_day |>) 0) =
    [((6, 0), "work"); ((7, 0), "work"); ((9, 0), "work"); ((10, 0), "work"); ((11, 0), "buffer");
     ((12, 0), "family_blocked"); ((13, 0), "buffer"); ((14, 0), "buffer"); ((15, 0), "buffer")].
Proof. by vm_compute. Qed.

Definition demo_day (ops : list SchedOp) (faults : list Fault) : Agent SCDB (list EventCall) :=
  run_scheds demo_sched ops (demo_empty faults).

Definition demo_setup : list SchedOp :=
  [OpRecompute; OpAddCandidate (demo_work "a"); OpAddCandidate (demo_work "b")].

Definition decision_of (candidate : string) (s : Agent SCDB (list EventCall)) : ScheduleDecision :=
  default (mkDecision "" "" "" f0 false "" "" 0)
    (List.find (fun d => bool_decide (de_CandidateID d = candidate)) (map_to_list (sc_decisions (ag_db s))).*2).

Definition demo_id (n : nat) : string := uuid_String (uuid_New n).

(** At three in the afternoon both pieces of work are proposed for the same
    hour, six in the morning of that day; nothing reserves a slot, and both
    events are created. *)
Example double_booking_in_the_past :
  let s := demo_day (demo_setup ++ [OpRecommend "a"; OpRecommend "b"; OpApprove (demo_id 0); OpApprove (demo_id 1);
                                    OpWriteCalendar (demo_id 0) false; OpWriteCalendar (demo_id 1) false]) [] in
  map (fun call => (cd_ID (ec_Candidate call), clock_of (sl_StartTime (ec_Slot call)))) (ag_ext s) =
    [("a", (6, 0)); ("b", (6, 0))].
Proof. by vm_compute. Qed.

(** The hour that begins when family time ends is proposed without review. *)
Example beside_family_unreviewed :
  let cfg := mkSlotConfig (f_of_Z 4) (f_of_Z 10) [mkBlockedRange "breakfast" "06:00-07:00"] ["06:00-08:00"] f0 zero_time 1 in
  let e := mkSchedEngine demo_afternoon true (Some (fun _ => lit 65 100)) None (Some (calendar_recorder demo_answers)) cfg in
  let s := run_scheds e [OpRecompute; OpAddCandidate (demo_work "a"); OpRecommend "a"] (demo_empty []) in
  let d := decision_of "a" s in
  (fun sl => clock_of (sl_StartTime sl)) <$> (sc_slots (ag_db s) !! de_ChosenSlotID d) = Some (7, 0) ∧
  de_RequiresReview d = false.
Proof. by vm_compute. Qed.

(** A scheduled decision is written again on request: a second event. *)
Example calendar_written_twice :
  let s := demo_day (demo_setup ++ [OpRecommend "a"; OpApprove (demo_id 0);
                                    OpWriteCalendar (demo_id 0) false; OpWriteCalendar (demo_id 0) false]) [] in
  length (ag_ext s) = 2%nat ∧ de_Status (decision_of "a" s) = DecisionStatusScheduled.
Proof. by vm_compute. Qed.

(** *** Witnesses *)

Lemma demo_slot_hours : Forall one_hour (generateDaySlots leap_day ["06:00-08:00"; "09:00-15:00"] demo_family 0).
Proof.
  apply list.Forall_forall. intros s Hs. apply (bool_decide_unpack (one_hour s)).
  assert (E : forallb (fun s => bool_decide (sl_EndTime s = sl_StartTime s + Hour))
    (generateDaySlots leap_day ["06:00-08:00"; "09:00-15:00"] demo_family 0) = true) by (vm_compute; reflexivity).
  rewrite forallb_forall in E. apply bool_decide_pack. apply list_elem_of_In, E in Hs. by apply bool_decide_eq_true in Hs.
Qed.

Lemma daily_work_capped_witness :
  let slots := generateDaySlots leap_day ["06:00-08:00"; "09:00-15:00"] demo_family 0 in
  work_count slots = 4%nat ∧ fltb (max_work demo_family) (f_of_Z 5) = true.
Proof.
  cbv zeta. assert (E : work_count (generateDaySlots leap_day ["06:00-08:00"; "09:00-15:00"] demo_family 0) = 4%nat)
    by (vm_compute; reflexivity).
  split; [exact E|].
  destruct (daily_work_capped leap_day ["06:00-08:00"; "09:00-15:00"] demo_family 0) as (_ & _ & H).
  destruct (H demo_slot_hours) as [_ Hb]. rewrite E in Hb. apply Hb. vm_compute. reflexivity.
Defined.

Lemma head_elem {A} (l : list A) x : head l = Some x → x ∈ l.
Proof. destruct l; [done|]. intros [= ->]. by left. Qed.

Lemma generated_slots_sound_witness :
  ∃ s, s ∈ GenerateSlots (demo_family <| cf_Date := leap_day |>) 0 ∧ sl_Available s = true ∧
    ¬ blocked_at (cf_BlockedRanges demo_family) leap_day (sl_StartTime s).
Proof.
  assert (E : ∃ s, head (GenerateSlots (demo_family <| cf_Date := leap_day |>) 0) = Some s ∧ sl_Available s = true)
    by (vm_compute; eexists; split; reflexivity).
  destruct E as (s & Hh & Ha). pose proof (head_elem _ _ Hh) as Hin.
  exists s. split; [exact Hin|]. split; [exact Ha|].
  destruct (generated_slots_sound _ _ _ Hin) as (d & w & a & b & Hd & _ & _ & _ & Hs). clear Hh Hin. cbv zeta in Hs.
  rewrite Ha in Hs. destruct Hs as (H1 & H2 & _ & _ & _ & _ & _ & Hno).
  assert (Hd1 : 0 ≤ d < 1) by exact Hd. assert (E0 : d = 0) by (clear - Hd1; lia).
  rewrite E0 in Hno. exact (Hno (sl_StartTime s) (conj (Z.le_refl _) H2)).
Defined.

Lemma recommend_exact_witness :
  let s := demo_day demo_setup [] in
  ∃ r best, fst (Recommend demo_sched "a" s) = Ok r ∧ rc_BestSlot r = Some best ∧ in_unit (ss_FitScore best).
Proof.
  cbv zeta. set (s := demo_day demo_setup []).
  assert (Hf : ag_faults s = []) by (vm_compute; reflexivity).
  assert (Hc : ∃ c, sc_candidates (ag_db s) !! "a" = Some c ∧ numeric c)
    by (vm_compute; eexists; split; [reflexivity|split; reflexivity]).
  destruct Hc as (c & Hc & Hn).
  assert (Hl : number_loads demo_sched) by (intros load n E; injection E as <-; vm_compute; reflexivity).
  assert (Hs : slots_sound (ag_db s)).
  { assert (E : forallb (fun '(id, sl) => bool_decide (sl_ID sl = id) &&
      existsb (fun k => bool_decide (sl_EndTime sl = sl_StartTime sl + k * Minute)) (seqZ 1 60))
      (map_to_list (sc_slots (ag_db s))) = true) by (vm_compute; reflexivity).
    intros id sl Hsl. rewrite forallb_forall in E. specialize (E (id, sl)). rewrite <- list_elem_of_In, elem_of_map_to_list in E.
    apply E, andb_true_iff in Hsl as [H1 H2]. apply bool_decide_eq_true in H1. split; [exact H1|].
    apply existsb_elem in H2 as (k & Hk & H2). apply elem_of_seqZ in Hk. apply bool_decide_eq_true in H2. exists k. split; [lia|exact H2]. }
  assert (Hid : sc_decisions (ag_db s) !! uuid_String (uuid_New (ag_uuids s)) = None) by (vm_compute; reflexivity).
  pose proof (recommend_exact demo_sched s "a" c Hf Hc Hn Hl Hs Hid) as H. cbv zeta in H.
  assert (Hsome : ∃ r b, fst (Recommend demo_sched "a" s) = Ok r ∧ rc_BestSlot r = Some b)
    by (vm_compute; eexists _, _; split; reflexivity).
  destruct Hsome as (r & b & Hr & Hb). exists r, b. split; [exact Hr|]. split; [exact Hb|].
  destruct (Recommend demo_sched "a" s) as [r' s']. cbn [fst] in Hr. subst r'.
  destruct H as [_ [(_ & _ & E)|(load & best & others & id & now & (_ & _ & Hu & _) & _ & E & _)]].
  - injection E as ->. discriminate Hb.
  - injection E as ->. injection Hb as <-. exact Hu.
Defined.

Lemma calendar_needs_approval_witness :
  let ops := demo_setup ++ [OpRecommend "a"; OpRecommend "b"; OpApprove (demo_id 1);
                            OpWriteCalendar (demo_id 0) false; OpWriteCalendar (demo_id 1) false] in
  ∃ call, ag_ext (run_scheds demo_sched ops (demo_empty [])) = [call] ∧ de_ID (ec_Decision call) = demo_id 1.
Proof.
  cbv zeta. set (ops := _ ++ _).
  assert (H1 : ∃ call, ag_ext (run_scheds demo_sched ops (demo_empty [])) = [call]) by (vm_compute; eexists; reflexivity).
  destruct H1 as (call & H1). exists call. split; [exact H1|].
  destruct (calendar_needs_approval demo_answers demo_sched (fun id => id = demo_id 1) ops (demo_empty []) eq_refl) as (_ & _ & H2).
  - intros id Hin. unfold ops, demo_setup in Hin. cbn [app] in Hin. rewrite !elem_of_cons in Hin.
    destruct Hin as [E|[E|[E|[E|[E|[E|[E|[E|E]]]]]]]]; try discriminate E; [injection E as ->; reflexivity|].
    destruct (not_elem_of_nil _ E).
  - apply sched_sound_empty.
  - apply H2. rewrite H1. left.
Defined.
