(* ===== verification/Actuation.v ===== *)
(** * Corrective actuation ([internal/agent/actuation])

    Reflection signals and the objective's risks become proposals of corrective
    actions, at most one per type; a run stores them as proposed decisions, which
    people approve or reject and routing marks executed.  Modelled: the types
    ([types.go]), the rules ([rules.go]), the PostgreSQL store ([store.go]), the
    engine ([engine.go]) and its nil-safe adapter ([adapter.go]).

    Providers are optional and may answer differently at every call.  The audit
    log pairs an event with the decision's id; its entity id is always nil. *)

From stdpp Require Import base gmap strings list tactics numbers fin_maps.
From Stdlib Require Import ZArith Lia.
From S2P Require Import Prelude GoFloat GoSort Models GoTime AgentWorld.

Open Scope Z_scope.

(** ** Types *)

Definition ActRebalancePortfolio : string := "rebalance_portfolio".
Definition ActAdjustPricing : string := "adjust_pricing".
Definition ActShiftScheduling : string := "shift_scheduling".
Definition ActIncreaseDiscovery : string := "increase_discovery".
Definition ActTriggerAutomation : string := "trigger_automation".
Definition ActReduceLoad : string := "reduce_load".
Definition ActStabilizeIncome : string := "stabilize_income".

Definition ValidActuationTypes : list string :=
  [ActRebalancePortfolio; ActAdjustPricing; ActShiftScheduling; ActIncreaseDiscovery;
   ActTriggerAutomation; ActReduceLoad; ActStabilizeIncome].

Definition StatusProposed : string := "proposed".
Definition StatusApproved : string := "approved".
Definition StatusRejected : string := "rejected".
Definition StatusExecuted : string := "executed".

Definition ValidTransitions : gmap string (list string) := list_to_map
  [(StatusProposed, [StatusApproved; StatusRejected]);
   (StatusApproved, [StatusExecuted])].

Definition RoutingTarget : gmap string string := list_to_map
  [(ActRebalancePortfolio, "portfolio");
   (ActAdjustPricing, "pricing");
   (ActShiftScheduling, "scheduling");
   (ActIncreaseDiscovery, "discovery");
   (ActTriggerAutomation, "self_extension");
   (ActReduceLoad, "scheduling");
   (ActStabilizeIncome, "portfolio+pricing")].

Record ActuationDecision := mkActDecision {
  ad_ID : string;
  ad_Type : string;
  ad_Reason : string;
  ad_SignalSource : string;
  ad_Confidence : float64;
  ad_Priority : float64;
  ad_RequiresReview : bool;
  ad_Status : string;
  ad_Target : string;
  ad_ProposedAt : time;
  ad_ResolvedAt : option time
}.

#[export] Instance ActuationDecision_settable : Settable ActuationDecision := fun r =>
  mkActDecision (ad_ID r) (ad_Type r) (ad_Reason r) (ad_SignalSource r) (ad_Confidence r)
    (ad_Priority r) (ad_RequiresReview r) (ad_Status r) (ad_Target r) (ad_ProposedAt r)
    (ad_ResolvedAt r).

Record ReflectionSignalInput := mkSignalInput { rs_SignalType : string; rs_Strength : float64 }.

Record ActuationInputs := mkActInputs {
  ai_ReflectionSignals : list ReflectionSignalInput;
  ai_NetUtility : float64;
  ai_UtilityScore : float64;
  ai_RiskScore : float64;
  ai_FinancialRisk : float64;
  ai_OverloadRisk : float64
}.

Record ActuationRunResult := mkActRun {
  ar_RunAt : time;
  ar_Decisions : list ActuationDecision;
  ar_InputsUsed : ActuationInputs
}.

Definition LowUtilityThreshold : float64 := lit 40 100.
Definition HighFinancialRiskThreshold : float64 := lit 70 100.
Definition HighOverloadRiskThreshold : float64 := lit 70 100.
Definition PriorityEscalationBoost : float64 := lit 20 100.
Definition MaxDecisionsPerRun : nat := 10.
Definition MinSignalStrength : float64 := lit 10 100.

Definition ReviewRequired (t : string) : bool :=
  bool_decide (t = ActTriggerAutomation) || bool_decide (t = ActAdjustPricing).

(** ** Rules *)

Record proposedAction := mkProposed {
  pa_Type : string;
  pa_Reason : string;
  pa_Source : string;
  pa_Confidence : float64;
  pa_Priority : float64
}.

#[export] Instance proposedAction_settable : Settable proposedAction := fun r =>
  mkProposed (pa_Type r) (pa_Reason r) (pa_Source r) (pa_Confidence r) (pa_Priority r).

(** What one reflection signal proposes. *)
Definition signal_proposals (sig : ReflectionSignalInput) : list proposedAction :=
  let strength := rs_Strength sig in
  let scaled k := fmul strength (lit k 10) in
  let propose t reason confidence priority := mkProposed t reason (rs_SignalType sig) confidence priority in
  if fltb strength MinSignalStrength then []
  else if decide (rs_SignalType sig = "low_efficiency") then
    [propose ActIncreaseDiscovery "low efficiency detected: increase pipeline discovery" strength (scaled 8);
     propose ActTriggerAutomation "low efficiency detected: explore automation opportunities" (scaled 8) (scaled 6)]
  else if decide (rs_SignalType sig = "pricing_misalignment") then
    [propose ActAdjustPricing "pricing misalignment detected: recalibrate price bands" strength (scaled 9)]
  else if decide (rs_SignalType sig = "overload_risk") then
    [propose ActReduceLoad "overload risk detected: defer lower-priority work" strength (scaled 9);
     propose ActShiftScheduling "overload risk detected: redistribute scheduled items" (scaled 8) (scaled 7)]
  else if decide (rs_SignalType sig = "income_instability") then
    [propose ActStabilizeIncome "income instability detected: stabilize revenue streams" strength (scaled 9)]
  else if decide (rs_SignalType sig = "automation_opportunity") then
    [propose ActTriggerAutomation "automation opportunity identified: evaluate automation candidates" strength (scaled 7)]
  else [].

Definition adjust_priority (f : float64 → float64) (p : proposedAction) : proposedAction :=
  p <| pa_Priority := fclamp01 (f (pa_Priority p)) |>.

(** Low net utility raises what the signals propose. *)
Definition escalate (inputs : ActuationInputs) (proposals : list proposedAction) : list proposedAction :=
  if fltb (ai_NetUtility inputs) LowUtilityThreshold
  then map (adjust_priority (fun p => fadd p PriorityEscalationBoost)) proposals
  else proposals.

(** What the objective's risks propose. *)
Definition risk_proposals (inputs : ActuationInputs) : list proposedAction :=
  (if fltb HighFinancialRiskThreshold (ai_FinancialRisk inputs) then
     [mkProposed ActStabilizeIncome "high financial risk: urgent income stabilization needed"
        "objective.financial_risk" (ai_FinancialRisk inputs) (fclamp01 (ai_FinancialRisk inputs))]
   else []) ++
  (if fltb HighOverloadRiskThreshold (ai_OverloadRisk inputs) then
     [mkProposed ActReduceLoad "high overload risk: urgent load reduction needed"
        "objective.overload_risk" (ai_OverloadRisk inputs) (fclamp01 (ai_OverloadRisk inputs))]
   else []).

Definition higher_priority (p q : proposedAction) : bool := fltb (pa_Priority q) (pa_Priority p).
Definition type_before (p q : proposedAction) : bool := String.ltb (pa_Type p) (pa_Type q).

(** The loop that keeps the best proposal of each type. *)
Definition keep_best (best : gmap string proposedAction) (p : proposedAction) : gmap string proposedAction :=
  match best !! pa_Type p with
  | Some existing => if higher_priority p existing then <[pa_Type p := p]> best else best
  | None => <[pa_Type p := p]> best
  end.

(** The map is read in any order; the types differ, so sorting by type leaves
    one order. *)
Definition deduplicateProposals (proposals : list proposedAction) : list proposedAction :=
  let best := fold_left keep_best proposals ∅ in
  take MaxDecisionsPerRun (insertionSort type_before (map_to_list best).*2).

(** The proposals before duplicates are merged. *)
Definition all_proposals (inputs : ActuationInputs) : list proposedAction :=
  escalate inputs (concat (map signal_proposals (ai_ReflectionSignals inputs))) ++ risk_proposals inputs.

Definition EvaluateRules (inputs : ActuationInputs) : list proposedAction :=
  deduplicateProposals (all_proposals inputs).

Definition ValidateTransition (from to : string) : bool :=
  match ValidTransitions !! from with
  | Some allowed => bool_decide (to ∈ allowed)
  | None => false
  end.

Record VectorRulesParams := mkVectorRules {
  vr_HumanReviewStrictness : float64;
  vr_RiskTolerance : float64;
  vr_IncomePriority : float64
}.

Definition VectorBaselineHumanReviewStrictness : float64 := lit 80 100.
Definition VectorBaselineRiskTolerance : float64 := lit 30 100.
Definition VectorBaselineIncomePriority : float64 := lit 70 100.

(** Proposals of the given types get another priority. *)
Definition adjust_types (types : list string) (f : float64 → float64) : list proposedAction → list proposedAction :=
  map (fun p => if decide (pa_Type p ∈ types) then adjust_priority f p else p).

Definition income_boost (v : VectorRulesParams) : list proposedAction → list proposedAction :=
  if fltb VectorBaselineIncomePriority (vr_IncomePriority v) then
    let incomeBoost := fclamp01 (fmul (fsub (vr_IncomePriority v) VectorBaselineIncomePriority) (lit 30 100)) in
    adjust_types [ActStabilizeIncome; ActAdjustPricing] (fun p => fadd p incomeBoost)
  else id.

Definition risk_dampening (v : VectorRulesParams) : list proposedAction → list proposedAction :=
  if fltb VectorBaselineRiskTolerance (vr_RiskTolerance v) then
    let dampenFactor := fclamp01 (fsub f1 (fmul (fsub (vr_RiskTolerance v) VectorBaselineRiskTolerance) (lit 30 100))) in
    adjust_types [ActReduceLoad; ActShiftScheduling] (fun p => fmul p dampenFactor)
  else id.

Definition EvaluateRulesWithVector (inputs : ActuationInputs) (v : VectorRulesParams) : list proposedAction :=
  risk_dampening v (income_boost v (EvaluateRules inputs)).

Definition ReviewRequiredWithVector (t : string) (strictness : float64) : bool :=
  if decide (t = ActTriggerAutomation) then true
  else if fltb (lit 90 100) strictness then
    negb (bool_decide (t = ActShiftScheduling)) && negb (bool_decide (t = ActReduceLoad))
  else if fleb (lit 50 100) strictness then bool_decide (t = ActAdjustPricing)
  else false.

(** ** The store: [agent_actuation_decisions], by id *)

Abbreviation ACDB := (gmap string ActuationDecision).

(** Inserted without [resolved_at]. *)
Definition stored_decision (d : ActuationDecision) : ActuationDecision :=
  d <| ad_ProposedAt := trunc_us (ad_ProposedAt d) |> <| ad_ResolvedAt := None |>.

Definition insert_actuation (d : ActuationDecision) (db : ACDB) : res (unit * ACDB) :=
  match db !! ad_ID d with
  | Some _ => Err ErrDuplicateKey
  | None => Ok (tt, <[ad_ID d := stored_decision d]> db)
  end.

(** Returns the number of rows. *)
Definition update_actuation (id status : string) (resolvedAt : option time) (db : ACDB) : res (Z * ACDB) :=
  match db !! id with
  | Some d => Ok (1, <[id := d <| ad_Status := status |> <| ad_ResolvedAt := trunc_us <$> resolvedAt |>]> db)
  | None => Ok (0, db)
  end.

Section engine.
Context {X : Type}.
Abbreviation AC A := (St (Agent ACDB X) A).

Definition not_found (id : string) : error := Errorf ("actuation decision not found: " +:+ id).

Definition Store_Insert (d : ActuationDecision) : AC (option error) :=
  let! r := statement (insert_actuation d) in
  retS match r with Ok _ => None | Err err => Some (wrap "insert actuation decision: " err) end.

Definition Store_Get (id : string) : AC (res ActuationDecision) :=
  let! r := statement (fun db => Ok (db !! id, db)) in
  retS match r with
       | Ok (Some d) => Ok d
       | Ok None => Err (not_found id)
       | Err err => Err (wrap "get actuation decision: " err)
       end.

Definition Store_UpdateStatus (id status : string) (resolvedAt : option time) : AC (option error) :=
  let! r := statement (update_actuation id status resolvedAt) in
  retS match r with
       | Ok n => if bool_decide (n = 0) then Some (not_found id) else None
       | Err err => Some (wrap "update actuation decision status: " err)
       end.

(** [ORDER BY proposed_at DESC LIMIT limit] *)
Definition Store_List (limit : Z) : AC (res (list ActuationDecision)) :=
  let limit := if bool_decide (limit ≤ 0) || bool_decide (200 < limit) then 50 else limit in
  let! r := statement (fun db : ACDB =>
    Ok (take (Z.to_nat limit)
          (SliceStable (fun x y => bool_decide (ad_ProposedAt y < ad_ProposedAt x)) (map_to_list db).*2), db)) in
  retS match r with
       | Ok ds => Ok ds
       | Err err => Err (wrap "list actuation decisions: " err)
       end.

(** ** The engine *)

Record ObjectiveProvider := mkObjective {
  GetNetUtility : nat → float64;
  GetUtilityScore : nat → float64;
  GetRiskScore : nat → float64;
  GetFinancialRisk : nat → float64;
  GetOverloadRisk : nat → float64
}.

Record VectorProvider := mkVectorProvider {
  GetHumanReviewStrictness : nat → float64;
  GetRiskTolerance : nat → float64;
  GetIncomePriority : nat → float64
}.

Record ActEngine := mkActEngine {
  ac_clock : nat → time;
  ac_auditor : bool;
  ac_reflection : option (nat → res (list ReflectionSignalInput));
  ac_objective : option ObjectiveProvider;
  ac_vector : option VectorProvider
}.

Context {U : UuidPkg} (e : ActEngine).

Definition auditEvent (eventType decision : string) : AC unit := record_audit (ac_auditor e) eventType decision.

(** An error of the reflection provider counts as no signals. *)
Definition gather_signals : AC (list ReflectionSignalInput) :=
  match ac_reflection e with
  | None => retS []
  | Some p => let! r := reading p in retS match r with Ok signals => signals | Err _ => [] end
  end.

Definition gatherInputs : AC ActuationInputs :=
  let! signals := gather_signals in
  match ac_objective e with
  | None => retS (mkActInputs signals f0 f0 f0 f0 f0)
  | Some o =>
      let! net := reading (GetNetUtility o) in
      let! utility := reading (GetUtilityScore o) in
      let! risk := reading (GetRiskScore o) in
      let! financial := reading (GetFinancialRisk o) in
      let! overload := reading (GetOverloadRisk o) in
      retS (mkActInputs signals net utility risk financial overload)
  end.

Definition evaluate (inputs : ActuationInputs) : AC (list proposedAction) :=
  match ac_vector e with
  | None => retS (EvaluateRules inputs)
  | Some v =>
      let! strictness := reading (GetHumanReviewStrictness v) in
      let! tolerance := reading (GetRiskTolerance v) in
      let! income := reading (GetIncomePriority v) in
      retS (EvaluateRulesWithVector inputs (mkVectorRules strictness tolerance income))
  end.

Definition needs_review (t : string) : AC bool :=
  match ac_vector e with
  | None => retS (ReviewRequired t)
  | Some v => let! strictness := reading (GetHumanReviewStrictness v) in
              retS (ReviewRequiredWithVector t strictness)
  end.

Definition decision_of (now : time) (id : string) (needsReview : bool) (p : proposedAction) : ActuationDecision :=
  mkActDecision id (pa_Type p) (pa_Reason p) (pa_Source p) (fclamp01 (pa_Confidence p)) (fclamp01 (pa_Priority p))
    needsReview StatusProposed (default "" (RoutingTarget !! pa_Type p)) now None.

(** Turn a proposal into a stored decision; nothing when it cannot be stored. *)
Definition create_decision (now : time) (p : proposedAction) : AC (option ActuationDecision) :=
  let! needsReview := needs_review (pa_Type p) in
  let! id := fresh_uuid in
  let d := decision_of now id needsReview p in
  let! err := Store_Insert d in
  match err with
  | Some _ => retS None
  | None =>
      let! _ := auditEvent "actuation.decision_created" id in
      retS (Some d)
  end.

Fixpoint create_decisions (now : time) (ps : list proposedAction) : AC (list ActuationDecision) :=
  match ps with
  | [] => retS []
  | p :: ps =>
      let! d := create_decision now p in
      let! ds := create_decisions now ps in
      retS (option_list d ++ ds)
  end.

(** At most seven proposals, which [sort.Slice] sorts by insertion.  No error is
    ever returned. *)
Definition Run : AC ActuationRunResult :=
  let! now := reading (ac_clock e) in
  let! _ := auditEvent "actuation.run_started" "" in
  let! inputs := gatherInputs in
  let! proposals := evaluate inputs in
  let! decisions := create_decisions now (insertionSort higher_priority proposals) in
  retS (mkActRun now decisions inputs).

(** What a request does with the decision it has read. *)
Definition commit_transition (d : ActuationDecision) (id target eventType : string) : AC (res ActuationDecision) :=
  if negb (ValidateTransition (ad_Status d) target)
  then retS (Err (Errorf ("invalid transition: " +:+ ad_Status d +:+ " → " +:+ target)))
  else
    let! now := reading (ac_clock e) in
    let! err := Store_UpdateStatus id target (Some now) in
    match err with
    | Some err => retS (Err err)
    | None =>
        let! _ := auditEvent eventType (ad_ID d) in
        retS (Ok (d <| ad_Status := target |> <| ad_ResolvedAt := Some now |>))
    end.

Definition transitionDecision (id target eventType : string) : AC (res ActuationDecision) :=
  let! r := Store_Get id in
  match r with
  | Err err => retS (Err err)
  | Ok d => commit_transition d id target eventType
  end.

Definition ApproveDecision (id : string) : AC (res ActuationDecision) :=
  transitionDecision id StatusApproved "actuation.decision_approved".
Definition RejectDecision (id : string) : AC (res ActuationDecision) :=
  transitionDecision id StatusRejected "actuation.decision_rejected".
Definition ExecuteDecision (id : string) : AC (res ActuationDecision) :=
  transitionDecision id StatusExecuted "actuation.executed".
Definition ListDecisions (limit : Z) : AC (res (list ActuationDecision)) := Store_List limit.
Definition GetDecision (id : string) : AC (res ActuationDecision) := Store_Get id.
End engine.

(** ** The adapter: without an engine nothing happens *)

Definition zero_decision : ActuationDecision := mkActDecision "" "" "" "" f0 f0 false "" "" zero_time None.
Definition zero_inputs : ActuationInputs := mkActInputs [] f0 f0 f0 f0 f0.

Section adapter.
Context {X : Type} {U : UuidPkg}.
Abbreviation AC A := (St (Agent ACDB X) A).

Definition adapt {A} (zero : A) (f : ActEngine → AC A) (engine : option ActEngine) : AC A :=
  match engine with None => retS zero | Some e => f e end.

Definition Adapter_Run : option ActEngine → AC ActuationRunResult := adapt (mkActRun zero_time [] zero_inputs) Run.
Definition Adapter_ListDecisions (limit : Z) : option ActEngine → AC (res (list ActuationDecision)) :=
  adapt (Ok []) (fun _ => ListDecisions limit).
Definition Adapter_ApproveDecision (id : string) : option ActEngine → AC (res ActuationDecision) :=
  adapt (Ok zero_decision) (fun e => ApproveDecision e id).
Definition Adapter_RejectDecision (id : string) : option ActEngine → AC (res ActuationDecision) :=
  adapt (Ok zero_decision) (fun e => RejectDecision e id).
Definition Adapter_ExecuteDecision (id : string) : option ActEngine → AC (res ActuationDecision) :=
  adapt (Ok zero_decision) (fun e => ExecuteDecision e id).
End adapter.
