(* ===== verification/ActuationProps.v ===== *)
(** * Properties of the actuation rules

    Merging of duplicates, the causes of each action, bounds of priorities and
    confidences, and the review policy. *)

From stdpp Require Import base gmap strings list tactics numbers fin_maps sorting.
From Stdlib Require Import ZArith Lia.
From S2P Require Import Prelude GoFloat GoSort Models GoTime AgentWorld Actuation.

Open Scope Z_scope.

(** ** Merging of duplicates *)

(** The first of the proposals of type [t] that no other of them exceeds. *)
Definition best_of_type (ps : list proposedAction) (t : string) : option proposedAction :=
  select_best higher_priority (List.filter (fun p => bool_decide (pa_Type p = t)) ps).

Lemma keep_best_lookup ps m t :
  fold_left keep_best ps m !! t =
    match m !! t with
    | Some b => Some (best_from higher_priority b (List.filter (fun p => bool_decide (pa_Type p = t)) ps))
    | None => best_of_type ps t
    end.
Proof.
  unfold best_of_type. revert m. induction ps as [|p ps IH]; intros m; cbn; [by destruct (m !! t)|].
  rewrite IH. clear IH. unfold keep_best. case_bool_decide as Ht.
  - subst t. destruct (m !! pa_Type p) as [b|] eqn:Hb; [|by simplify_map_eq].
    cbn. destruct (higher_priority p b); simplify_map_eq; done.
  - destruct (m !! pa_Type p) as [b|] eqn:Hb; [destruct (higher_priority p b)|];
      rewrite ?lookup_insert_ne by done; done.
Qed.

Definition merged (ps : list proposedAction) : gmap string proposedAction := fold_left keep_best ps ∅.

Lemma merged_lookup ps t : merged ps !! t = best_of_type ps t.
Proof. unfold merged. by rewrite keep_best_lookup, lookup_empty. Qed.

(** Priorities that are not numbers compare with nothing, so only transitivity
    can be used. *)
Lemma best_from_stays b ps :
  best_from higher_priority b ps = b ∨ higher_priority (best_from higher_priority b ps) b = true.
Proof.
  revert b. induction ps as [|p ps IH]; intros b; cbn; [by left|].
  destruct (higher_priority p b) eqn:E; [|apply IH].
  right. destruct (IH p) as [->|H]; [done|]. by eapply fltb_trans.
Qed.

Lemma best_from_top b ps q : q ∈ b :: ps → higher_priority q (best_from higher_priority b ps) = false.
Proof.
  revert b q. induction ps as [|p ps IH]; intros b q Hq; cbn.
  { apply list_elem_of_singleton in Hq as ->. apply fltb_irrefl. }
  assert (Htop : ∀ c, higher_priority c (best_from higher_priority c ps) = false) by (intros c; apply IH; by left).
  rewrite !elem_of_cons in Hq. destruct (higher_priority p b) eqn:E.
  - destruct Hq as [->|[->|Hq]]; [|apply Htop|apply IH; by right].
    apply not_true_is_false. intros H. assert (higher_priority p (best_from higher_priority p ps) = true);
      [by eapply fltb_trans|by rewrite Htop in *].
  - destruct Hq as [->|[->|Hq]]; [apply Htop| |apply IH; by right].
    destruct (best_from_stays b ps) as [->|H]; [done|].
    apply not_true_is_false. intros H'. assert (higher_priority p b = true); [by eapply fltb_trans|congruence].
Qed.

Lemma best_of_type_Some ps t p :
  best_of_type ps t = Some p →
  p ∈ ps ∧ pa_Type p = t ∧ ∀ q, q ∈ ps → pa_Type q = t → higher_priority q p = false.
Proof.
  assert (Hin : ∀ q, q ∈ List.filter (fun q => bool_decide (pa_Type q = t)) ps ↔ q ∈ ps ∧ pa_Type q = t).
  { intros q. rewrite list_elem_of_In, filter_In, <- list_elem_of_In, bool_decide_eq_true. done. }
  unfold best_of_type. intros H. destruct (List.filter _ ps) as [|b l]; [done|]. injection H as <-.
  destruct (proj1 (Hin _) (best_from_elem higher_priority b l)) as [H1 H2].
  split_and!; [done|done|]. intros q Hq Ht. apply best_from_top, Hin. done.
Qed.

Lemma best_of_type_None ps t : best_of_type ps t = None ↔ ∀ q, q ∈ ps → pa_Type q ≠ t.
Proof.
  unfold best_of_type. rewrite select_best_None. split.
  - intros H q Hq Ht. assert (Hin : q ∈ List.filter (fun q => bool_decide (pa_Type q = t)) ps).
    { apply list_elem_of_In, filter_In. split; [by apply list_elem_of_In|by apply bool_decide_eq_true]. }
    rewrite H in Hin. by apply elem_of_nil in Hin.
  - intros H. apply filter_false. intros q Hq. apply bool_decide_eq_false. by apply H.
Qed.

Lemma merged_type ps t p : merged ps !! t = Some p → pa_Type p = t.
Proof. rewrite merged_lookup. intros H. by apply best_of_type_Some in H as (_ & ? & _). Qed.

(** Every type of [types] once. *)
Lemma merged_types ps : map pa_Type (map_to_list (merged ps)).*2 = (map_to_list (merged ps)).*1.
Proof.
  rewrite <- list_fmap_compose. apply list_fmap_ext. intros i [t p] Hi. cbn.
  apply (merged_type ps), elem_of_map_to_list. by eapply list_elem_of_lookup_2.
Qed.

Lemma merged_NoDup ps : NoDup (map pa_Type (map_to_list (merged ps)).*2).
Proof. rewrite merged_types. apply NoDup_fst_map_to_list. Qed.

Lemma merged_elem ps p : p ∈ (map_to_list (merged ps)).*2 ↔ best_of_type ps (pa_Type p) = Some p.
Proof.
  rewrite <- merged_lookup, list_elem_of_fmap. split.
  - intros ([t q] & -> & H). apply elem_of_map_to_list in H. cbn. by rewrite (merged_type _ _ _ H).
  - intros H. exists (pa_Type p, p). split; [done|]. by apply elem_of_map_to_list.
Qed.

(** The order the map is read in does not matter. *)
Lemma dedupe_any_order ps values :
  values ≡ₚ (map_to_list (merged ps)).*2 →
  deduplicateProposals ps = take MaxDecisionsPerRun (insertionSort type_before values).
Proof.
  intros Hp. unfold deduplicateProposals. f_equal. symmetry. apply (sort_by_name_unique pa_Type); [|done].
  change (NoDup (pa_Type <$> values)). rewrite Hp. apply merged_NoDup.
Qed.

Lemma merged_length ps (types : list string) :
  (∀ p, p ∈ ps → pa_Type p ∈ types) → (length (map_to_list (merged ps)).*2 ≤ length types)%nat.
Proof.
  intros H. rewrite <- (length_map pa_Type). apply submseteq_length, NoDup_submseteq; [apply merged_NoDup|].
  intros t Ht. apply list_elem_of_fmap in Ht as (p & -> & Hp).
  apply merged_elem, best_of_type_Some in Hp as (Hp & _). by apply H.
Qed.

Section dedupe.
Context (ps : list proposedAction) (types : list string).
Hypothesis known : ∀ p, p ∈ ps → pa_Type p ∈ types.
Hypothesis few : (length types ≤ MaxDecisionsPerRun)%nat.

Lemma dedupe_perm : deduplicateProposals ps ≡ₚ (map_to_list (merged ps)).*2.
Proof using known few.
  unfold deduplicateProposals. rewrite take_ge; [apply insertionSort_perm|].
  rewrite insertionSort_perm. change (fold_left keep_best ps ∅) with (merged ps).
  pose proof (merged_length ps types known). lia.
Qed.

Lemma dedupe_elem p : p ∈ deduplicateProposals ps ↔ best_of_type ps (pa_Type p) = Some p.
Proof using known few. by rewrite dedupe_perm, merged_elem. Qed.

Lemma dedupe_NoDup : NoDup (map pa_Type (deduplicateProposals ps)).
Proof using known few.
  change (NoDup (pa_Type <$> deduplicateProposals ps)). rewrite dedupe_perm. apply merged_NoDup.
Qed.

Lemma dedupe_length : (length (deduplicateProposals ps) ≤ length types)%nat.
Proof using known few. rewrite dedupe_perm. by apply merged_length. Qed.
End dedupe.

(** ** The causes of an action *)

(** The actions that answer a signal. *)
Definition remedies (signal : string) : list string :=
  if decide (signal = "low_efficiency") then [ActIncreaseDiscovery; ActTriggerAutomation]
  else if decide (signal = "pricing_misalignment") then [ActAdjustPricing]
  else if decide (signal = "overload_risk") then [ActReduceLoad; ActShiftScheduling]
  else if decide (signal = "income_instability") then [ActStabilizeIncome]
  else if decide (signal = "automation_opportunity") then [ActTriggerAutomation]
  else [].

Definition caused (inputs : ActuationInputs) (t : string) : Prop :=
  (∃ sig, sig ∈ ai_ReflectionSignals inputs ∧ fltb (rs_Strength sig) MinSignalStrength = false ∧
          t ∈ remedies (rs_SignalType sig)) ∨
  (t = ActStabilizeIncome ∧ fltb HighFinancialRiskThreshold (ai_FinancialRisk inputs) = true) ∨
  (t = ActReduceLoad ∧ fltb HighOverloadRiskThreshold (ai_OverloadRisk inputs) = true).

(** What some rule can propose. *)
Definition rule_types : list string :=
  [ActIncreaseDiscovery; ActTriggerAutomation; ActAdjustPricing; ActReduceLoad; ActShiftScheduling;
   ActStabilizeIncome].

Lemma signal_proposals_types sig :
  map pa_Type (signal_proposals sig) =
    if fltb (rs_Strength sig) MinSignalStrength then [] else remedies (rs_SignalType sig).
Proof. unfold signal_proposals, remedies. cbv zeta. repeat case_decide; by destruct (fltb _ _). Qed.

Lemma escalate_types inputs ps : map pa_Type (escalate inputs ps) = map pa_Type ps.
Proof.
  unfold escalate. destruct (fltb _ _); [|done]. rewrite map_map. by apply map_ext.
Qed.

Lemma all_proposals_types inputs t : t ∈ map pa_Type (all_proposals inputs) ↔ caused inputs t.
Proof.
  unfold all_proposals, caused. rewrite map_app, escalate_types, elem_of_app, concat_map, map_map.
  apply Morphisms_Prop.or_iff_morphism.
  - rewrite !list_elem_of_In, in_concat. split.
    + intros (l & Hl & Ht). apply in_map_iff in Hl as (sig & <- & Hsig).
      rewrite signal_proposals_types in Ht. exists sig. rewrite !list_elem_of_In.
      destruct (fltb _ _); [done|]. done.
    + intros (sig & Hsig & Hs & Ht). exists (map pa_Type (signal_proposals sig)). split.
      * apply in_map_iff. exists sig. split; [done|]. by apply list_elem_of_In.
      * rewrite signal_proposals_types, Hs. by apply list_elem_of_In.
  - unfold risk_proposals. rewrite map_app, elem_of_app.
    apply Morphisms_Prop.or_iff_morphism; destruct (fltb _ _); cbn; rewrite ?list_elem_of_singleton; split; intros H;
      try done; try (by destruct H); by apply elem_of_nil in H.
Qed.

Lemma remedies_known s t : t ∈ remedies s → t ∈ rule_types.
Proof.
  assert (Hall : Forall (fun t => t ∈ rule_types) (remedies s)).
  { unfold remedies. repeat case_decide; repeat constructor; apply (bool_decide_unpack _); vm_compute; done. }
  intros Ht. by eapply Forall_forall in Hall.
Qed.

Lemma caused_known inputs t : caused inputs t → t ∈ rule_types.
Proof.
  intros [(sig & _ & _ & Ht)|[[-> _]|[-> _]]]; [by eapply remedies_known| |];
    apply (bool_decide_unpack _); by vm_compute.
Qed.

Lemma all_proposals_known inputs p : p ∈ all_proposals inputs → pa_Type p ∈ rule_types.
Proof. intros Hp. apply (caused_known inputs), all_proposals_types. by apply (list_elem_of_fmap_2 pa_Type). Qed.

Lemma rule_types_few : (length rule_types ≤ MaxDecisionsPerRun)%nat.
Proof. apply (bool_decide_unpack _). by vm_compute. Qed.

Lemma rules_elem inputs p :
  p ∈ EvaluateRules inputs ↔ best_of_type (all_proposals inputs) (pa_Type p) = Some p.
Proof. exact (dedupe_elem _ _ (all_proposals_known inputs) rule_types_few p). Qed.

Lemma rules_NoDup inputs : NoDup (map pa_Type (EvaluateRules inputs)).
Proof. exact (dedupe_NoDup _ _ (all_proposals_known inputs) rule_types_few). Qed.

Lemma rules_length inputs : (length (EvaluateRules inputs) ≤ 6)%nat.
Proof. exact (dedupe_length _ _ (all_proposals_known inputs) rule_types_few). Qed.

Lemma rules_caused inputs t : t ∈ map pa_Type (EvaluateRules inputs) ↔ caused inputs t.
Proof.
  rewrite <- all_proposals_types. split; intros H; apply list_elem_of_fmap in H as (p & -> & Hp).
  - apply rules_elem, best_of_type_Some in Hp as (Hp & _). by apply (list_elem_of_fmap_2 pa_Type).
  - destruct (best_of_type (all_proposals inputs) (pa_Type p)) as [q|] eqn:Hq.
    + destruct (best_of_type_Some _ _ _ Hq) as (_ & Ht & _). rewrite <- Ht.
      apply (list_elem_of_fmap_2 pa_Type), rules_elem. by rewrite Ht.
    + exfalso. exact (proj1 (best_of_type_None _ _) Hq p Hp eq_refl).
Qed.

(** The proposals of a run: one per type, for exactly the types that a strong
    enough signal or a high risk calls for, each the one of highest priority
    among those its type was proposed with. *)
Theorem rules_exact inputs :
  NoDup (map pa_Type (EvaluateRules inputs)) ∧
  (∀ t, t ∈ map pa_Type (EvaluateRules inputs) ↔ caused inputs t) ∧
  ∀ p, p ∈ EvaluateRules inputs →
    p ∈ all_proposals inputs ∧
    ∀ q, q ∈ all_proposals inputs → pa_Type q = pa_Type p → fltb (pa_Priority p) (pa_Priority q) = false.
Proof.
  split_and!; [apply rules_NoDup|apply rules_caused|].
  intros p Hp. apply rules_elem, best_of_type_Some in Hp as (Hp & _ & Hbest). by split.
Qed.

(** ** Where a proposal comes from *)

(** Alike but for the priority. *)
Definition same_but_priority (p q : proposedAction) : Prop :=
  pa_Type p = pa_Type q ∧ pa_Reason p = pa_Reason q ∧ pa_Source p = pa_Source q ∧ pa_Confidence p = pa_Confidence q.

(** [p] answers a signal that is strong enough, or a high risk: it names it as
    its source, and has the type, reason and confidence of that answer. *)
Definition justified (inputs : ActuationInputs) (p : proposedAction) : Prop :=
  (∃ sig q, sig ∈ ai_ReflectionSignals inputs ∧ fltb (rs_Strength sig) MinSignalStrength = false ∧
     q ∈ signal_proposals sig ∧ same_but_priority p q ∧
     pa_Source p = rs_SignalType sig ∧ pa_Type p ∈ remedies (rs_SignalType sig) ∧
     (pa_Confidence p = rs_Strength sig ∨ pa_Confidence p = fmul (rs_Strength sig) (lit 8 10))) ∨
  (fltb HighFinancialRiskThreshold (ai_FinancialRisk inputs) = true ∧ pa_Type p = ActStabilizeIncome ∧
     pa_Source p = "objective.financial_risk" ∧ pa_Confidence p = ai_FinancialRisk inputs ∧
     pa_Reason p = "high financial risk: urgent income stabilization needed") ∨
  (fltb HighOverloadRiskThreshold (ai_OverloadRisk inputs) = true ∧ pa_Type p = ActReduceLoad ∧
     pa_Source p = "objective.overload_risk" ∧ pa_Confidence p = ai_OverloadRisk inputs ∧
     pa_Reason p = "high overload risk: urgent load reduction needed").

Lemma justified_like inputs p q : same_but_priority p q → justified inputs q → justified inputs p.
Proof.
  intros (E1 & E2 & E3 & E4) [(sig & q' & H1 & H2 & H3 & (F1 & F2 & F3 & F4) & H5 & H6 & H7)|[H|H]].
  - left. exists sig, q'. rewrite E4, E3, E1. split_and!; try done. unfold same_but_priority. by split_and!; etrans.
  - right; left. by rewrite E1, E2, E3, E4.
  - right; right. by rewrite E1, E2, E3, E4.
Qed.

Lemma same_refl p : same_but_priority p p.
Proof. done. Qed.

Lemma signal_justified inputs sig q :
  sig ∈ ai_ReflectionSignals inputs → q ∈ signal_proposals sig → justified inputs q.
Proof.
  intros Hs Hq. left. exists sig, q.
  assert (Ht : pa_Type q ∈ map pa_Type (signal_proposals sig)) by (by apply (list_elem_of_fmap_2 pa_Type)).
  rewrite signal_proposals_types in Ht. destruct (fltb (rs_Strength sig) MinSignalStrength) eqn:E;
    [by apply elem_of_nil in Ht|].
  assert (Hall : Forall (fun q => pa_Source q = rs_SignalType sig ∧
    (pa_Confidence q = rs_Strength sig ∨ pa_Confidence q = fmul (rs_Strength sig) (lit 8 10))) (signal_proposals sig)).
  { unfold signal_proposals. cbv zeta. rewrite E. repeat case_decide;
      repeat (apply list.Forall_cons; split; [by split; cbn; auto|]); by apply list.Forall_nil. }
  rewrite list.Forall_forall in Hall. destruct (Hall q Hq). by split_and!.
Qed.

Lemma all_justified inputs p : p ∈ all_proposals inputs → justified inputs p.
Proof.
  unfold all_proposals. rewrite elem_of_app. intros [Hp|Hp].
  - assert (∃ q, q ∈ concat (map signal_proposals (ai_ReflectionSignals inputs)) ∧ same_but_priority p q) as (q & Hq & Hs).
    { unfold escalate in Hp. destruct (fltb _ _); [|by exists p].
      apply list_elem_of_fmap in Hp as (q & -> & Hq). by exists q. }
    apply (justified_like _ _ q Hs). apply list_elem_of_In, in_concat in Hq as (l & Hl & Hq).
    apply in_map_iff in Hl as (sig & <- & Hsig). by eapply signal_justified; apply list_elem_of_In.
  - right. unfold risk_proposals in Hp. apply elem_of_app in Hp as [Hp|Hp];
      destruct (fltb _ _) eqn:E; try (by apply elem_of_nil in Hp); apply list_elem_of_singleton in Hp as ->.
    + left. by split_and!.
    + right. by split_and!.
Qed.

Lemma rules_justified inputs p : p ∈ EvaluateRules inputs → justified inputs p.
Proof. intros Hp. apply rules_elem, best_of_type_Some in Hp as (Hp & _). by apply all_justified. Qed.

(** ** Numbers *)

Definition unit_or_nan (v : float64) : Prop := in_unit v ∨ is_nan v = true.

Lemma fclamp01_unit_or_nan v : unit_or_nan (fclamp01 v).
Proof.
  destruct (is_nan v) eqn:E; [right|left; by apply fclamp01_unit].
  by destruct v.
Qed.

(** A proposal whose confidence and priority are numbers, not negative. *)
Definition sound_proposal (p : proposedAction) : Prop := nonneg (pa_Confidence p) ∧ nonneg (pa_Priority p).

Lemma tenths_nonneg k : k ∈ [6; 7; 8; 9] → is_finite (lit k 10) = true ∧ nonneg (lit k 10).
Proof.
  intros Hk. assert (Hall : Forall (fun k => is_finite (lit k 10) = true ∧ nonneg (lit k 10)) [6; 7; 8; 9])
    by (repeat constructor; by vm_compute).
  by eapply Forall_forall in Hall.
Qed.

Lemma strong_nonneg x : is_finite x = true → fltb x MinSignalStrength = false → nonneg x.
Proof.
  intros Hx Hs. apply nonneg_fleb.
  assert (H0 : fltb f0 MinSignalStrength = true) by by vm_compute.
  apply fltb_false_fleb in Hs; [|by destruct x|by vm_compute]. float_order.
Qed.

Lemma signal_proposals_sound sig :
  is_finite (rs_Strength sig) = true → Forall sound_proposal (signal_proposals sig).
Proof.
  intros Hf. unfold signal_proposals. cbv zeta.
  destruct (fltb (rs_Strength sig) MinSignalStrength) eqn:Hs; [constructor|].
  pose proof (strong_nonneg _ Hf Hs) as Hn.
  assert (Hk : ∀ k, k ∈ [6; 7; 8; 9] → nonneg (fmul (rs_Strength sig) (lit k 10))).
  { intros k Hk. destruct (tenths_nonneg k Hk). by apply fmul_nonneg. }
  repeat case_decide; repeat constructor; cbn; try exact Hn; apply Hk; set_solver.
Qed.

Lemma adjusted_sound f p :
  sound_proposal p → is_nan (f (pa_Priority p)) = false → sound_proposal (adjust_priority f p).
Proof. intros [H1 H2] Hn. split; [exact H1|]. cbn. by apply fclamp01_finite. Qed.

(** Finite strengths and any risks give sound proposals. *)
Lemma all_proposals_sound inputs :
  (∀ sig, sig ∈ ai_ReflectionSignals inputs → is_finite (rs_Strength sig) = true) →
  Forall sound_proposal (all_proposals inputs).
Proof.
  intros Hf. apply Forall_app. split.
  - assert (Hps : Forall sound_proposal (concat (map signal_proposals (ai_ReflectionSignals inputs)))).
    { apply Forall_concat, List.Forall_forall. intros l Hl. apply in_map_iff in Hl as (sig & <- & Hsig).
      apply signal_proposals_sound, Hf. by apply list_elem_of_In. }
    unfold escalate. destruct (fltb _ _); [|done]. apply Forall_map.
    eapply Forall_impl; [exact Hps|]. intros p Hp. apply adjusted_sound; [done|].
    apply nonneg_number, fadd_nonneg; [apply Hp|by vm_compute].
  - assert (Hrisk : ∀ t x r s, fltb (lit 70 100) x = true →
      sound_proposal (mkProposed t r s x (fclamp01 x))).
    { intros t x r s Hx. assert (Hx0 : nonneg x).
      { apply nonneg_fleb. assert (fltb f0 (lit 70 100) = true) by by vm_compute. float_order. }
      split; [done|]. cbn. apply fclamp01_finite. by apply nonneg_number. }
    unfold risk_proposals. apply Forall_app. split.
    + destruct (fltb HighFinancialRiskThreshold _) eqn:E; repeat constructor; by apply Hrisk.
    + destruct (fltb HighOverloadRiskThreshold _) eqn:E; repeat constructor; by apply Hrisk.
Qed.

(** For finite signal strengths every proposed confidence and priority is a
    number, not negative; so clamped for storage it lies in [0, 1]. *)
Theorem rules_bounded inputs :
  (∀ sig, sig ∈ ai_ReflectionSignals inputs → is_finite (rs_Strength sig) = true) →
  ∀ p, p ∈ EvaluateRules inputs →
    nonneg (pa_Confidence p) ∧ nonneg (pa_Priority p) ∧
    ∀ now id review, let d := decision_of now id review p in in_unit (ad_Confidence d) ∧ in_unit (ad_Priority d).
Proof.
  intros Hf p Hp. apply rules_elem, best_of_type_Some in Hp as (Hp & _).
  pose proof (all_proposals_sound _ Hf) as Hall. rewrite Forall_forall in Hall. destruct (Hall _ Hp) as [H1 H2].
  split_and!; [done|done|]. intros now id review. cbn. split; by apply fclamp01_unit, nonneg_number.
Qed.

(** ** The system vector *)

Lemma adjust_types_types types f ps : map pa_Type (adjust_types types f ps) = map pa_Type ps.
Proof. unfold adjust_types. rewrite map_map. apply map_ext. intros p. by case_decide. Qed.

(** The vector changes priorities only. *)
Lemma vector_types inputs v : map pa_Type (EvaluateRulesWithVector inputs v) = map pa_Type (EvaluateRules inputs).
Proof.
  unfold EvaluateRulesWithVector, risk_dampening, income_boost.
  destruct (fltb VectorBaselineRiskTolerance _), (fltb VectorBaselineIncomePriority _); cbv zeta;
    unfold id; rewrite ?adjust_types_types; reflexivity.
Qed.

Lemma adjusted_same types f ps p : p ∈ adjust_types types f ps → ∃ q, q ∈ ps ∧ same_but_priority p q.
Proof.
  unfold adjust_types. intros Hp. apply list_elem_of_fmap in Hp as (q & -> & Hq). exists q. split; [done|]. by case_decide.
Qed.

Lemma vector_justified inputs v p : p ∈ EvaluateRulesWithVector inputs v → justified inputs p.
Proof.
  unfold EvaluateRulesWithVector, risk_dampening, income_boost. intros Hp.
  assert (H1 : ∀ ps, p ∈ (if fltb VectorBaselineRiskTolerance (vr_RiskTolerance v)
      then adjust_types [ActReduceLoad; ActShiftScheduling] (fun x => fmul x (fclamp01 (fsub f1 (fmul (fsub (vr_RiskTolerance v)
        VectorBaselineRiskTolerance) (lit 30 100))))) else id) ps → ∃ q, q ∈ ps ∧ same_but_priority p q).
  { intros ps. destruct (fltb _ _); [apply adjusted_same|]. intros H. by exists p. }
  apply H1 in Hp as (q & Hq & Hpq). apply (justified_like _ _ _ Hpq).
  destruct (fltb VectorBaselineIncomePriority _); cbv zeta in Hq; [|by apply rules_justified].
  apply adjusted_same in Hq as (r & Hr & Hqr). apply (justified_like _ _ _ Hqr). by apply rules_justified.
Qed.

(** At or below the baselines nothing changes. *)
Lemma vector_baseline inputs v :
  fltb VectorBaselineIncomePriority (vr_IncomePriority v) = false →
  fltb VectorBaselineRiskTolerance (vr_RiskTolerance v) = false →
  EvaluateRulesWithVector inputs v = EvaluateRules inputs.
Proof. intros H1 H2. unfold EvaluateRulesWithVector, risk_dampening, income_boost. by rewrite H1, H2. Qed.

(** ** Review *)

(** With the strictness in [0.5, 0.9] the vector's review policy is the plain
    one; a stricter vector never takes a review away; automation is always
    reviewed. *)
Theorem review_policy t s s' :
  (fleb (lit 50 100) s = true → fleb s (lit 90 100) = true → ReviewRequiredWithVector t s = ReviewRequired t) ∧
  (fleb s s' = true → ReviewRequiredWithVector t s = true → ReviewRequiredWithVector t s' = true) ∧
  ReviewRequiredWithVector ActTriggerAutomation s = true.
Proof.
  split_and!.
  - intros H1 H2. unfold ReviewRequiredWithVector, ReviewRequired.
    assert (fltb (lit 90 100) s = false) as -> by (apply not_true_is_false; intros H; float_order).
    rewrite H1. case_decide; [by rewrite bool_decide_true|]. by rewrite (bool_decide_false (t = ActTriggerAutomation)).
  - intros Hs. unfold ReviewRequiredWithVector. case_decide; [done|].
    assert (H5 : fltb (lit 50 100) (lit 90 100) = true) by by vm_compute.
    destruct (fltb (lit 90 100) s) eqn:E1.
    + assert (fltb (lit 90 100) s' = true) as -> by float_order. done.
    + destruct (fleb (lit 50 100) s) eqn:E2; [|done]. intros Ht. apply bool_decide_eq_true in Ht as ->.
      destruct (fltb (lit 90 100) s'); [by vm_compute|].
      assert (fleb (lit 50 100) s' = true) as -> by float_order. by apply bool_decide_eq_true.
  - done.
Qed.
