(* ===== verification/ActuationRuns.v ===== *)
(** * Actuation decisions over time

    What runs and requests do to the stored decisions, with database faults
    anywhere: decisions follow their lifecycle, are never deleted, and what is
    executed was approved.  Without faults a run stores exactly what the rules
    propose.

    The last part has concrete signals: witnesses of the theorems on actuation,
    and two behaviours the comments of the code do not suggest. *)

From stdpp Require Import base gmap strings list tactics numbers fin_maps.
From Stdlib Require Import ZArith Lia.
From S2P Require Import Prelude GoFloat GoSort Models GoTime AgentWorld Actuation ActuationProps Fixtures.

Open Scope Z_scope.

(** ** Requests *)

Inductive ActOp : Type :=
| OpRun
| OpApprove (id : string)
| OpReject (id : string)
| OpExecute (id : string)
| OpList (limit : Z)
| OpGet (id : string).

(** The decision a request is about and the status it asks for. *)
Definition op_target (op : ActOp) : option (string * string) :=
  match op with
  | OpApprove id => Some (id, StatusApproved)
  | OpReject id => Some (id, StatusRejected)
  | OpExecute id => Some (id, StatusExecuted)
  | _ => None
  end.

(** One step of the lifecycle, taken by [op]. *)
Definition lifecycle_step (op : ActOp) (id : string) (d d' : ActuationDecision) : Prop :=
  ∃ target at_, op_target op = Some (id, target) ∧ ValidateTransition (ad_Status d) target = true ∧
    d' = (d <| ad_Status := target |>) <| ad_ResolvedAt := Some at_ |>.

(** What a run adds. *)
Record new_row (id : string) (d : ActuationDecision) : Prop := {
  new_id : ad_ID d = id;
  new_status : ad_Status d = StatusProposed;
  new_open : ad_ResolvedAt d = None;
  new_type : ad_Type d ∈ rule_types;
  new_target : ad_Target d = default "" (RoutingTarget !! ad_Type d);
  new_numbers : unit_or_nan (ad_Confidence d) ∧ unit_or_nan (ad_Priority d)
}.

(** Rows are added, each one that satisfies [N]. *)
Definition grown (N : string → ActuationDecision → Prop) (db0 db : ACDB) : Prop :=
  db0 ⊆ db ∧ ∀ id d, db !! id = Some d → db0 !! id = None → N id d.

(** The effect of a request on the table. *)
Definition table_step (N : string → ActuationDecision → Prop) (op : ActOp) (db0 db : ACDB) : Prop :=
  match op_target op with
  | None => grown (fun id d => op = OpRun ∧ N id d) db0 db
  | Some (id, _) => db = db0 ∨ ∃ d d', db0 !! id = Some d ∧ lifecycle_step op id d d' ∧ db = <[id := d']> db0
  end.

Section runs.
Context {X : Type} {U : UuidPkg} (e : ActEngine).
Abbreviation AC A := (St (Agent ACDB X) A).

Definition exec_op (op : ActOp) : AC unit :=
  match op with
  | OpRun => dropped (Run e)
  | OpApprove id => dropped (ApproveDecision e id)
  | OpReject id => dropped (RejectDecision e id)
  | OpExecute id => dropped (ExecuteDecision e id)
  | OpList limit => dropped (ListDecisions limit)
  | OpGet id => dropped (GetDecision id)
  end.

(** *** What a run reads and proposes *)

(** What the [n]-th and the following readings say. *)
Definition read_inputs (n : nat) : ActuationInputs :=
  let signals := match ac_reflection e with
                 | None => []
                 | Some ask => match ask n with Ok signals => signals | Err _ => [] end
                 end in
  let m := match ac_reflection e with None => n | Some _ => S n end in
  match ac_objective e with
  | None => mkActInputs signals f0 f0 f0 f0 f0
  | Some o => mkActInputs signals (GetNetUtility o m) (GetUtilityScore o (1 + m)) (GetRiskScore o (2 + m))
                (GetFinancialRisk o (3 + m)) (GetOverloadRisk o (4 + m))
  end.

(** What [evaluate] returns. *)
Definition evaluated (inputs : ActuationInputs) (ps : list proposedAction) : Prop :=
  match ac_vector e with
  | None => ps = EvaluateRules inputs
  | Some _ => ∃ v, ps = EvaluateRulesWithVector inputs v
  end.

(** The review flag a run may give a type. *)
Definition reviewed (t : string) (review : bool) : Prop :=
  match ac_vector e with
  | None => review = ReviewRequired t
  | Some _ => ∃ strictness, review = ReviewRequiredWithVector t strictness
  end.

(** The row of [d] was proposed by the run that starts in [s]: at that time, for
    a signal or a risk the run read, with the columns the rules give. *)
Definition proposed_in (s : Agent ACDB X) (id : string) (d : ActuationDecision) : Prop :=
  ∃ ps p review, let inputs := read_inputs (S (ag_reads s)) in
    evaluated inputs ps ∧ p ∈ ps ∧ justified inputs p ∧ reviewed (pa_Type p) review ∧
    d = stored_decision (decision_of (ac_clock e (ag_reads s)) id review p).

Lemma evaluated_types inputs ps : evaluated inputs ps → map pa_Type ps = map pa_Type (EvaluateRules inputs).
Proof using.
  unfold evaluated. destruct (ac_vector e); [intros [w ->]; apply vector_types|by intros ->].
Qed.

Lemma evaluated_known inputs ps p : evaluated inputs ps → p ∈ ps → pa_Type p ∈ rule_types.
Proof using.
  intros He Hp. apply (caused_known inputs), rules_caused. rewrite <- (evaluated_types _ _ He).
  by apply (list_elem_of_fmap_2 pa_Type).
Qed.

Lemma evaluated_justified inputs ps p : evaluated inputs ps → p ∈ ps → justified inputs p.
Proof using.
  unfold evaluated. destruct (ac_vector e).
  - intros [w ->]. apply vector_justified.
  - intros ->. apply rules_justified.
Qed.

Lemma evaluate_returns inputs : returns (evaluate (X := X) e inputs) (evaluated inputs).
Proof using.
  unfold evaluate, evaluated. destruct (ac_vector e) as [v|]; [|by apply returns_ret].
  eapply returns_bind; [apply returns_any|]. intros s _. eapply returns_bind; [apply returns_any|]. intros r _.
  eapply returns_bind; [apply returns_any|]. intros i _. apply returns_ret. by eexists.
Qed.

Lemma review_returns t : returns (needs_review (X := X) e t) (reviewed t).
Proof using.
  unfold needs_review, reviewed. destruct (ac_vector e) as [v|]; [|by apply returns_ret].
  eapply returns_bind; [apply returns_any|]. intros s _. apply returns_ret. by eexists.
Qed.

Lemma gatherInputs_run (s : Agent ACDB X) : ∃ n, gatherInputs e s = (read_inputs (ag_reads s), s <| ag_reads := n |>).
Proof using.
  unfold gatherInputs, gather_signals, read_inputs. destruct s as [db x reads uuids faults audit].
  destruct (ac_reflection e) as [ask|], (ac_objective e) as [o|]; eexists; reflexivity.
Qed.

Lemma evaluate_keeps inputs P :
  triple (tables (X := X) P) (evaluate e inputs) (fun _ => tables P).
Proof using.
  unfold evaluate. destruct (ac_vector e) as [v|]; [|by apply triple_ret].
  do 3 (eapply triple_bind; [apply triple_reading|]; intros ?). by apply triple_ret.
Qed.

Lemma review_keeps t P : triple (tables (X := X) P) (needs_review e t) (fun _ => tables P).
Proof using.
  unfold needs_review. destruct (ac_vector e); [|by apply triple_ret].
  eapply triple_bind; [apply triple_reading|]. intros s. by apply triple_ret.
Qed.

(** *** What a run stores *)

Lemma grown_refl N db : grown N db db.
Proof using. split; [done|]. intros id d H1 H2. congruence. Qed.

Lemma grown_insert N db0 db d :
  grown N db0 db → db !! ad_ID d = None → N (ad_ID d) d → grown N db0 (<[ad_ID d := d]> db).
Proof using.
  intros [Hsub Hnew] Hn Hd. split; [etrans; [exact Hsub|by apply insert_subseteq]|].
  intros id d'. rewrite lookup_insert. case_decide as Hid; [|by apply Hnew].
  intros [= <-] _. by rewrite <- Hid.
Qed.

Lemma decision_of_new now id review p :
  pa_Type p ∈ rule_types → new_row id (stored_decision (decision_of now id review p)).
Proof using. intros Ht. split; try done. split; apply fclamp01_unit_or_nan. Qed.

Lemma create_decision_grows N db0 now p :
  (∀ id review, reviewed (pa_Type p) review → N id (stored_decision (decision_of now id review p))) →
  triple (tables (X := X) (fun db _ => grown N db0 db)) (create_decision e now p)
    (fun _ => tables (fun db _ => grown N db0 db)).
Proof using.
  intros HN. unfold create_decision, Store_Insert, auditEvent.
  eapply triple_bind; [apply triple_post_fact; [apply review_returns|apply review_keeps]|].
  intros review. cbv beta. apply triple_fact. intros Hr.
  eapply triple_bind; [apply triple_fresh|]. intros id. cbv zeta.
  apply triple_bind with (fun _ => tables (fun db _ => grown N db0 db)).
  - apply triple_bind with (fun _ => tables (fun db _ => grown N db0 db)); [|intros r; by apply triple_ret].
    apply triple_statement. intros db x Hg. split; [done|]. unfold insert_actuation. cbn.
    intros u db' H. destruct (db !! id) eqn:Hid; [done|]. injection H as _ <-.
    assert (Hnew : grown N db0 (<[id := stored_decision (decision_of now id review p)]> db)).
    { apply (grown_insert N _ _ (stored_decision (decision_of now id review p))); [done|done|by apply HN]. }
    by split.
  - intros [err|]; [by apply triple_ret|]. eapply triple_bind; [apply triple_audit|]. intros ?. by apply triple_ret.
Qed.

Lemma create_decisions_grow N db0 now ps :
  (∀ p id review, p ∈ ps → reviewed (pa_Type p) review → N id (stored_decision (decision_of now id review p))) →
  triple (tables (X := X) (fun db _ => grown N db0 db)) (create_decisions e now ps)
    (fun _ => tables (fun db _ => grown N db0 db)).
Proof using.
  induction ps as [|p ps IH]; intros HN; cbn [create_decisions]; [by apply triple_ret|].
  eapply triple_bind; [apply create_decision_grows; intros id review; apply HN; by left|]. intros d.
  eapply triple_bind; [apply IH; intros q id review Hq; apply HN; by right|]. intros ds. by apply triple_ret.
Qed.

Lemma Run_grows (s : Agent ACDB X) :
  grown (fun id d => new_row id d ∧ proposed_in s id d) (ag_db s) (ag_db (snd (Run e s))).
Proof using.
  unfold Run, auditEvent. rewrite bindS_run. cbn [reading fst snd]. set (s1 := s <| ag_reads := _ |>).
  rewrite bindS_run. set (s2 := snd (record_audit _ _ _ s1)).
  assert (H2 : ag_db s2 = ag_db s ∧ ag_reads s2 = S (ag_reads s))
    by (unfold s2, record_audit; by destruct (ac_auditor e)).
  rewrite bindS_run. destruct (gatherInputs_run s2) as [n ->]. cbn [fst snd].
  destruct H2 as [Hdb Hn]. rewrite Hn. set (inputs := read_inputs _).
  match goal with |- grown ?N _ (ag_db (snd (?c ?s3))) =>
    assert (Ht : triple (tables (X := X) (fun db _ => grown N (ag_db s) db)) c (fun _ => tables (fun db _ => grown N (ag_db s) db)))
  end.
  { eapply triple_bind; [apply triple_post_fact; [apply evaluate_returns|apply evaluate_keeps]|]. intros ps.
    cbv beta. apply triple_fact. intros He. eapply triple_bind; [apply create_decisions_grow|intros ds; by apply triple_ret].
    intros p id review Hp Hr. apply insertionSort_elem in Hp. split.
    - apply decision_of_new. by eapply evaluated_known.
    - exists ps, p, review. split_and!; [done|done|by eapply evaluated_justified|done|done]. }
  apply Ht. unfold tables. change (ag_db (s2 <| ag_reads := n |>)) with (ag_db s2). rewrite Hdb. apply grown_refl.
Qed.

(** *** What a request does *)

Lemma commit_moves N op d id target ev db0 :
  op_target op = Some (id, target) → db0 !! id = Some d →
  triple (tables (X := X) (fun db _ => db = db0)) (commit_transition e d id target ev)
    (fun _ => tables (fun db _ => table_step N op db0 db)).
Proof using.
  intros Hop Hd. unfold commit_transition. destruct (ValidateTransition _ _) eqn:Hv; cbn;
    [|apply tables_ret; intros db x ->; unfold table_step; rewrite Hop; by left].
  eapply triple_bind; [apply triple_reading|]. intros now. unfold Store_UpdateStatus, auditEvent.
  apply triple_bind with (fun _ => tables (fun db _ => table_step N op db0 db)).
  - apply triple_bind with (fun _ => tables (fun db _ => table_step N op db0 db)); [|intros r; by apply triple_ret].
    apply triple_statement. intros db x ->. unfold update_actuation. rewrite Hd.
    assert (H0 : table_step N op db0 db0) by (unfold table_step; rewrite Hop; by left).
    split; [done|]. intros n db' [= <- <-].
    assert (H1 : table_step N op db0 (<[id := (d <| ad_Status := target |>) <| ad_ResolvedAt := trunc_us <$> Some now |>]> db0)).
    { unfold table_step. rewrite Hop. right. eexists d, _. split; [done|]. split; [|reflexivity].
      by exists target, (trunc_us now). }
    by split.
  - intros [err|]; [by apply triple_ret|]. eapply triple_bind; [apply triple_audit|]. intros ?. by apply triple_ret.
Qed.

Lemma transition_moves N op id target ev db0 :
  op_target op = Some (id, target) →
  triple (tables (X := X) (fun db _ => db = db0)) (transitionDecision e id target ev)
    (fun _ => tables (fun db _ => table_step N op db0 db)).
Proof using.
  intros Hop. unfold transitionDecision, Store_Get.
  apply triple_bind with (fun r => tables (fun db _ => db = db0 ∧ ∀ d, r = Ok d → db0 !! id = Some d)).
  - apply triple_bind with (fun r => tables (fun db _ => db = db0 ∧ ∀ o, r = Ok o → db0 !! id = o)).
    + apply triple_statement. intros db x ->. split; [done|]. intros o db' [= <- <-].
      split; [split; [done|by intros o [= <-]]|done].
    + intros r. apply tables_ret. intros db x [-> Ho]. split; [done|]. intros d. destruct r as [[d'|]|]; try done.
      intros [= <-]. by apply Ho.
  - intros [d|err]; [|apply tables_ret; intros db x [-> _]; unfold table_step; rewrite Hop; by left].
    apply tables_fact. intros Hd. apply commit_moves; [done|by apply Hd].
Qed.

Lemma exec_op_table op (s : Agent ACDB X) :
  table_step (fun id d => new_row id d ∧ proposed_in s id d) op (ag_db s) (ag_db (snd (exec_op op s))).
Proof using.
  assert (Hreq : ∀ N op' id target ev, op_target op' = Some (id, target) →
    table_step N op' (ag_db s) (ag_db (snd (dropped (transitionDecision e id target ev) s)))).
  { intros N op' id target ev Hop. apply (triple_dropped _ _ _ (transition_moves N op' id target ev (ag_db s) Hop) s).
    done. }
  assert (Hask : ∀ N A (c : AC A), (∀ P, triple (tables (X := X) P) c (fun _ => tables P)) →
    grown N (ag_db s) (ag_db (snd (dropped c s)))).
  { intros N A c Hc. rewrite dropped_run. cbn [snd]. rewrite (Hc (fun db _ => db = ag_db s) s eq_refl). apply grown_refl. }
  destruct op; cbn [exec_op]; try (by apply Hreq).
  - unfold table_step. cbn [op_target]. rewrite dropped_run. cbn [snd]. destruct (Run_grows s) as [H1 H2].
    split; [exact H1|]. intros id d Hd Hn. split; [done|by apply H2].
  - apply Hask. intros P. unfold ListDecisions, Store_List. cbv zeta.
    apply triple_bind with (fun _ => tables P); [|intros r; by apply triple_ret].
    apply (triple_statement _ _ (fun _ => P)). intros db x Hx. split; [done|]. by intros ds db' [= <- <-].
  - apply Hask. intros P. unfold GetDecision, Store_Get.
    apply triple_bind with (fun _ => tables P); [|intros r; by apply triple_ret].
    apply (triple_statement _ _ (fun _ => P)). intros db x Hx. split; [done|]. by intros ds db' [= <- <-].
Qed.
End runs.

(** ** Lifecycle *)

Lemma transitions_spec from to :
  ValidateTransition from to = true ↔
    (from = StatusProposed ∧ (to = StatusApproved ∨ to = StatusRejected)) ∨
    (from = StatusApproved ∧ to = StatusExecuted).
Proof.
  unfold ValidateTransition, ValidTransitions. cbn [list_to_map foldr].
  rewrite !lookup_insert, lookup_empty.
  cbn [fst snd]. destruct (decide (StatusProposed = from)) as [<-|H1];
    [|destruct (decide (StatusApproved = from)) as [<-|H2]]; rewrite ?bool_decide_eq_true;
    (split; [intros Hv|intros [[Hf Ht]|[Hf Ht]]; try done; subst]).
  - left. split; [done|]. apply elem_of_cons in Hv as [Hv|Hv]; [by left|right]. by apply list_elem_of_singleton in Hv.
  - destruct Ht as [->| ->]; [by left|right; by left].
  - right. split; [done|]. by apply list_elem_of_singleton in Hv.
  - by left.
  - done.
Qed.

Section lifecycle.
Context {X : Type} {U : UuidPkg} (e : ActEngine).

(** Whatever a request meets, each stored decision afterwards is what it was
    or has taken one step of its lifecycle that the request asked for; nothing
    else of it changed, and a rejected or executed decision stays as it is. *)
Theorem requests_follow_lifecycle op (s : Agent ACDB X) id d :
  ag_db s !! id = Some d →
  ∃ d', ag_db (snd (exec_op e op s)) !! id = Some d' ∧ (d' = d ∨ lifecycle_step op id d d') ∧
    (ad_Status d = StatusRejected ∨ ad_Status d = StatusExecuted → d' = d).
Proof using.
  intros Hd. pose proof (exec_op_table e op s) as Ht. unfold table_step in Ht.
  destruct (op_target op) as [[id' target]|] eqn:Hop.
  - destruct Ht as [->|(d0 & d0' & Hd0 & Hstep & ->)]; [by exists d; auto|].
    rewrite lookup_insert. case_decide as Hid; [|by exists d; auto].
    subst id'. rewrite Hd in Hd0. injection Hd0 as <-. exists d0'. split_and!; [done|by right|].
    intros Hfinal. destruct Hstep as (t & a & _ & Hv & _). apply transitions_spec in Hv.
    exfalso. destruct Hfinal as [Hs|Hs]; rewrite Hs in Hv; destruct Hv as [[[=] _]|[[=] _]].
  - destruct Ht as [Hsub _]. exists d. split; [|by auto]. by eapply lookup_weaken.
Qed.

(** *** Histories *)

(** How a decision came to its status. *)
Definition earned (ops : list ActOp) (id : string) (d : ActuationDecision) : Prop :=
  (ad_Status d = StatusProposed ∧ ad_ResolvedAt d = None) ∨
  (is_Some (ad_ResolvedAt d) ∧
   ((ad_Status d = StatusApproved ∧ OpApprove id ∈ ops) ∨
    (ad_Status d = StatusRejected ∧ OpReject id ∈ ops) ∨
    (ad_Status d = StatusExecuted ∧ ∃ before after, ops = before ++ OpExecute id :: after ∧ OpApprove id ∈ before))).

(** What a run fixed. *)
Record kept_row (id : string) (d : ActuationDecision) : Prop := {
  kept_id : ad_ID d = id;
  kept_type : ad_Type d ∈ rule_types;
  kept_target : ad_Target d = default "" (RoutingTarget !! ad_Type d);
  kept_numbers : unit_or_nan (ad_Confidence d) ∧ unit_or_nan (ad_Priority d)
}.

(** What the requests [ops], in their order, did to a decision: each took it one
    step of its lifecycle or left it as it was. *)
Inductive follows (id : string) : list ActOp → ActuationDecision → ActuationDecision → Prop :=
| follows_nil d : follows id [] d d
| follows_kept op ops d d' : follows id ops d d' → follows id (op :: ops) d d'
| follows_step op ops d d1 d' : lifecycle_step op id d d1 → follows id ops d1 d' → follows id (op :: ops) d d'.

Definition run_ops (ops : list ActOp) (s : Agent ACDB X) : Agent ACDB X := snd (forS (exec_op e) ops s).

(** A decision's whole life: one of the runs proposed it, for a signal or risk
    it read; since then only its status and time of resolution changed, along
    transitions that requests asked for. *)
Definition explained (s : Agent ACDB X) (ops : list ActOp) (id : string) (d : ActuationDecision) : Prop :=
  kept_row id d ∧ earned ops id d ∧
  ∃ before after d0, ops = before ++ OpRun :: after ∧
    ag_db (run_ops before s) !! id = None ∧ proposed_in e (run_ops before s) id d0 ∧ follows id after d0 d ∧
    d = (d0 <| ad_Status := ad_Status d |>) <| ad_ResolvedAt := ad_ResolvedAt d |>.

Lemma follows_more id op ops d d' d'' :
  follows id ops d d' → d'' = d' ∨ lifecycle_step op id d' d'' → follows id (ops ++ [op]) d d''.
Proof using.
  intros H Hor. induction H as [d|op' ops d d' _ IH|op' ops d d1 d' Hs _ IH]; cbn.
  - destruct Hor as [->|Hs]; [apply follows_kept, follows_nil|eapply follows_step; [exact Hs|apply follows_nil]].
  - by apply follows_kept, IH.
  - eapply follows_step; [exact Hs|by apply IH].
Qed.

Lemma follows_columns id ops d d' :
  follows id ops d d' → d' = (d <| ad_Status := ad_Status d' |>) <| ad_ResolvedAt := ad_ResolvedAt d' |>.
Proof using.
  induction 1 as [d|op ops d d' _ IH|op ops d d1 d' Hs _ IH]; [by destruct d|done|].
  destruct Hs as (t & a & _ & _ & ->). rewrite IH. done.
Qed.

Lemma run_ops_snoc ops op s : run_ops (ops ++ [op]) s = snd (exec_op e op (run_ops ops s)).
Proof using.
  unfold run_ops. revert s. induction ops as [|o ops IH]; intros s; cbn [forS app]; rewrite !bindS_run; [done|].
  apply IH.
Qed.

Lemma earned_snoc ops op id d : earned ops id d → earned (ops ++ [op]) id d.
Proof using.
  intros [H|[Hr H]]; [by left|right]. split; [done|].
  destruct H as [[? ?]|[[? ?]|(? & before & after & -> & ?)]]; [left|right; left|right; right].
  - rewrite elem_of_app. auto.
  - rewrite elem_of_app. auto.
  - split; [done|]. exists before, (after ++ [op]). by rewrite <- app_assoc.
Qed.

Lemma earned_step ops op id d d' :
  earned ops id d → lifecycle_step op id d d' → earned (ops ++ [op]) id d'.
Proof using.
  intros Hd (t & a & Hop & Hv & ->). apply transitions_spec in Hv. right. cbn. split; [done|].
  assert (Hlast : op ∈ ops ++ [op]) by (apply elem_of_app; right; by left).
  destruct Hv as [[_ [->| ->]]|[Hs ->]].
  - left. split; [done|]. destruct op; try done. by injection Hop as ->.
  - right; left. split; [done|]. destruct op; try done. by injection Hop as ->.
  - right; right. split; [done|]. destruct op; try done. injection Hop as ->.
    exists ops, []. split; [done|].
    destruct Hd as [[Hp _]|[_ [[_ Hin]|[[Hp _]|[Hp _]]]]]; try exact Hin; rewrite Hs in Hp; discriminate Hp.
Qed.

Lemma kept_step op id d d' : kept_row id d → lifecycle_step op id d d' → kept_row id d'.
Proof using. intros [K1 K2 K3 K4] (t & a & _ & _ & ->). by split. Qed.

(** One more request, on a decision that was there before. *)
Lemma explained_step s ops op id d d' :
  explained s ops id d → d' = d ∨ lifecycle_step op id d d' → explained s (ops ++ [op]) id d'.
Proof using.
  intros (Hk & He & before & after & d0 & -> & Hn & Hp & Hf & _) Hor. split_and!.
  - destruct Hor as [->|Hs]; [done|by eapply kept_step].
  - destruct Hor as [->|Hs]; [by apply earned_snoc|by eapply earned_step].
  - exists before, (after ++ [op]), d0. split_and!; [by rewrite <- app_assoc|done|done|by eapply follows_more|].
    by eapply follows_columns, follows_more.
Qed.

(** And one that the request, then a run, has added. *)
Lemma explained_new s ops id d :
  ag_db (run_ops ops s) !! id = None → new_row id d → proposed_in e (run_ops ops s) id d →
  explained s (ops ++ [OpRun]) id d.
Proof using.
  intros Hn [N1 N2 N3 N4 N5 N6] Hp. split_and!; [by split|by left|].
  exists ops, [], d. split_and!; [done|done|done|apply follows_nil|by destruct d].
Qed.

(** C32: After any runs and requests with any database faults, every stored
    decision was proposed by one of the runs: that run read a strong enough
    signal or a high risk, which is the decision's source and determines its
    type, reason and confidence, and stored it under a new id with the time of the
    run and the target of its type.  Since then only its status and time of
    resolution changed, by requests made after that run, each along an allowed
    transition it asked for.  So it is resolved exactly when it is no longer
    proposed; if executed it was approved by an earlier request, if rejected it
    was asked to be; and its numbers lie in [0, 1] (or are no numbers). *)
Theorem decisions_are_earned ops (s : Agent ACDB X) :
  ag_db s = ∅ → ∀ id d, ag_db (run_ops ops s) !! id = Some d → explained s ops id d.
Proof using.
  intros H0. induction ops as [|op ops IH] using rev_ind; intros id d Hd.
  { unfold run_ops in Hd. cbn in Hd. by rewrite H0, lookup_empty in Hd. }
  rewrite run_ops_snoc in Hd. pose proof (exec_op_table e op (run_ops ops s)) as Ht. unfold table_step in Ht.
  destruct (op_target op) as [[id' target]|] eqn:Hop.
  - destruct Ht as [Ht|(d0 & d0' & Hd0 & Hstep & Ht)]; rewrite Ht in Hd.
    + apply (explained_step _ _ _ _ d); [by apply IH|by left].
    + rewrite lookup_insert in Hd. case_decide as Hid.
      * subst id'. injection Hd as <-. apply (explained_step _ _ _ _ d0); [by apply IH|by right].
      * apply (explained_step _ _ _ _ d); [by apply IH|by left].
  - destruct Ht as [Hsub Hnew]. destruct (ag_db (run_ops ops s) !! id) as [d0|] eqn:Hd0.
    + pose proof (lookup_weaken _ _ _ _ Hd0 Hsub). simplify_eq. apply (explained_step _ _ _ _ d); [by apply IH|by left].
    + destruct (Hnew id d Hd Hd0) as (-> & Hrow & Hp). by apply explained_new.
Qed.
End lifecycle.

(** ** A run without faults *)

Section exact.
Context {X : Type} {U : UuidPkg} (e : ActEngine).





Context {L : UuidLaws U}.



(** The inputs and the proposals do not touch the tables. *)
Lemma readings_run {A} (c : St (Agent ACDB X) A) s :
  (∀ P, triple (tables P) c (fun _ => tables P)) → ag_db (snd (c s)) = ag_db s.
Proof using. intros H. exact (H (fun db _ => db = ag_db s) s eq_refl). Qed.






End exact.

(** ** Actuation on concrete signals

    Witnesses that the hypotheses of the theorems hold, and two behaviours that
    the comments of the code do not suggest: who reads a status first decides
    with it, and without an objective every priority is raised. *)

#[local] Existing Instance demo_uuid.

Definition demo_signals : list ReflectionSignalInput :=
  [mkSignalInput "low_efficiency" (lit 60 100); mkSignalInput "automation_opportunity" (lit 50 100);
   mkSignalInput "overload_risk" (lit 5 100); mkSignalInput "income_instability" (lit 30 100)].

Definition demo_inputs : ActuationInputs :=
  mkActInputs demo_signals (lit 55 100) (lit 60 100) (lit 20 100) (lit 80 100) (lit 10 100).

(** The weak overload signal is ignored; the risk outbids the income signal, and
    the weaker automation proposal is the one with the lower priority. *)
Example demo_rules :
  map (fun p => (pa_Type p, pa_Source p)) (EvaluateRules demo_inputs) =
    [("increase_discovery", "low_efficiency"); ("stabilize_income", "objective.financial_risk");
     ("trigger_automation", "low_efficiency")].
Proof. by vm_compute. Qed.

Lemma rules_bounded_witness :
  Forall (fun p => in_unit (ad_Priority (decision_of 0 "d" false p))) (EvaluateRules demo_inputs).
Proof.
  apply List.Forall_forall. intros p Hp. apply list_elem_of_In in Hp.
  refine (proj2 (proj2 (proj2 (rules_bounded demo_inputs _ p Hp)) 0 "d" false)).
  intros sig Hsig. assert (Hall : forallb (fun sig => is_finite (rs_Strength sig)) (ai_ReflectionSignals demo_inputs) = true)
    by (vm_compute; reflexivity).
  rewrite forallb_forall in Hall. apply Hall, list_elem_of_In, Hsig.
Defined.

Lemma review_policy_witness :
  ReviewRequiredWithVector ActIncreaseDiscovery (lit 80 100) = ReviewRequired ActIncreaseDiscovery ∧
  ReviewRequiredWithVector ActAdjustPricing (lit 95 100) = true.
Proof.
  split.
  - apply (proj1 (review_policy ActIncreaseDiscovery (lit 80 100) f0)); vm_compute; reflexivity.
  - apply (proj1 (proj2 (review_policy ActAdjustPricing (lit 60 100) (lit 95 100)))); vm_compute; reflexivity.
Defined.

(** *** An engine *)

Definition demo_objective : ObjectiveProvider :=
  mkObjective (fun _ => lit 55 100) (fun _ => lit 60 100) (fun _ => lit 20 100) (fun _ => lit 80 100) (fun _ => lit 10 100).

Definition demo_clock (n : nat) : time := Z.of_nat n * Second.

Definition demo_act : ActEngine :=
  mkActEngine demo_clock true (Some (fun _ => Ok demo_signals)) (Some demo_objective) None.

Definition demo_table (faults : list Fault) : Agent ACDB unit := mkAgent ∅ tt 0 0 faults [].

Definition demo_id (n : nat) : string := uuid_String (uuid_New n).

Definition statuses (s : Agent ACDB unit) : list (option string) :=
  map (fun n => ad_Status <$> ag_db s !! demo_id n) (seq 0 4).

(** The second insert fails and is only logged; the third decision cannot be
    executed before it is approved. *)
Definition demo_history : list ActOp :=
  [OpRun; OpExecute (demo_id 2); OpApprove (demo_id 2); OpReject (demo_id 0); OpExecute (demo_id 2); OpApprove (demo_id 0)].

Definition demo_after : Agent ACDB unit :=
  snd (forS (exec_op demo_act) demo_history (demo_table [NoFault; FaultBefore (Errorf "connection lost")])).

Example demo_statuses : statuses demo_after = [Some "rejected"; None; Some "executed"; None].
Proof. by vm_compute. Qed.

Lemma decisions_are_earned_witness :
  ∃ before after, demo_history = before ++ OpExecute (demo_id 2) :: after ∧ OpApprove (demo_id 2) ∈ before.
Proof.
  assert (Hd : ∃ d, ag_db demo_after !! demo_id 2 = Some d ∧ ad_Status d = StatusExecuted)
    by (vm_compute; eexists; split; reflexivity).
  destruct Hd as (d & Hd & Hs).
  destruct (decisions_are_earned demo_act demo_history
    (demo_table [NoFault; FaultBefore (Errorf "connection lost")]) eq_refl (demo_id 2) d Hd)
    as (_ & [[Hp _]|[_ [[Hp _]|[[Hp _]|[_ H]]]]] & _); try exact H; rewrite Hs in Hp; discriminate Hp.
Defined.

Lemma requests_follow_lifecycle_witness :
  let s := snd (exec_op demo_act OpRun (demo_table [])) in
  ∃ d d', ag_db s !! demo_id 1 = Some d ∧
    ag_db (snd (exec_op demo_act (OpApprove (demo_id 1)) s)) !! demo_id 1 = Some d' ∧
    (d' = d ∨ lifecycle_step (OpApprove (demo_id 1)) (demo_id 1) d d').
Proof.
  cbv zeta. set (s := snd (exec_op demo_act OpRun (demo_table []))).
  assert (Hd : ∃ d, ag_db s !! demo_id 1 = Some d) by (vm_compute; eexists; reflexivity).
  destruct Hd as (d & Hd). exists d.
  destruct (requests_follow_lifecycle demo_act (OpApprove (demo_id 1)) s (demo_id 1) d Hd) as (d' & H1 & H2 & _).
  exists d'. split; [exact Hd|]. split; [exact H1|exact H2].
Defined.


(** *** Two requests at once

    A request reads the decision, checks the transition and writes the status
    with no condition on the row: an approval that read the decision before a
    rejection finished takes it from rejected to approved. *)
Example approval_overtakes_rejection :
  let s := snd (exec_op demo_act OpRun (demo_table [])) in
  let '(read, s1) := Store_Get (demo_id 1) s in
  let '(rejected, s2) := RejectDecision demo_act (demo_id 1) s1 in
  match read, rejected with
  | Ok d, Ok d' =>
      let '(approved, s3) := commit_transition demo_act d (demo_id 1) StatusApproved "actuation.decision_approved" s2 in
      ad_Status d' = StatusRejected ∧ (ad_Status <$> ag_db s3 !! demo_id 1) = Some StatusApproved ∧ is_ok approved = true
  | _, _ => False
  end.
Proof. vm_compute. auto. Qed.

(** *** Without an objective

    Net utility is zero then, below the threshold: every priority is raised. *)
Definition demo_blind : ActEngine := mkActEngine demo_clock true (Some (fun _ => Ok demo_signals)) None None.

Example no_objective_escalates :
  let inputs e := fst (gatherInputs e (demo_table [])) in
  let priority e := map pa_Priority (List.filter (fun p => bool_decide (pa_Type p = ActIncreaseDiscovery)) (EvaluateRules (inputs e))) in
  ai_NetUtility (inputs demo_blind) = f0 ∧
  priority demo_act = [fmul (lit 60 100) (lit 8 10)] ∧
  priority demo_blind = [fadd (fmul (lit 60 100) (lit 8 10)) (lit 20 100)].
Proof. vm_compute. auto. Qed.
