(* ===== verification/AutonomyConfig.v ===== *)
(** * Configuration of the autonomy runtime ([internal/agent/autonomy/config.go])

    The sections of the YAML file that the runtime reads, with all their fields;
    the sections it never reads (learning, objective, portfolio, pricing, external
    actions, actuation priority, runtime, launch) and the flags that only steer
    log lines are left out.  Modelled: validation, the execution window and the
    cycle intervals.  Reading and parsing the file is not modelled. *)

From stdpp Require Import base strings list tactics numbers.
From Stdlib Require Import ZArith Lia.
From S2P Require Import Prelude GoFloat GoStrconv Models GoTime.

Open Scope Z_scope.

Definition ModeFrozen : string := "frozen".
Definition ModeSupervisedAutonomy : string := "supervised_autonomy".
Definition ModeBoundedAutonomy : string := "bounded_autonomy".
Definition ModeAutonomous : string := "autonomous".

Definition validModes : list string :=
  [ModeFrozen; ModeSupervisedAutonomy; ModeBoundedAutonomy; ModeAutonomous].

Record GovernanceCfg := mkGovernanceCfg {
  gv_StartupMode : string;
  gv_RequireHumanReview : bool;
  gv_AllowLearning : bool;
  gv_AllowReflection : bool;
  gv_AllowObjectiveRecompute : bool;
  gv_AllowActuation : bool;
  gv_AllowPortfolioRebalance : bool;
  gv_AllowSchedulingRecompute : bool;
  gv_AllowDiscovery : bool;
  gv_AllowPricingCompute : bool;
  gv_AllowSelfExtension : bool;
  gv_AllowSelfExtAutoDeployLowRisk : bool;
  gv_AllowExternalExecution : bool;
  gv_AllowSafeExternalExecute : bool;
  gv_AllowDraftExternalExecute : bool;
  gv_AllowRealSendWithoutReview : bool;
  gv_GuardedActions : list string;
  gv_BlockedActions : list string
}.

Record CyclesCfg := mkCyclesCfg {
  cy_ReflectionHours : Z;
  cy_ObjectiveHours : Z;
  cy_ActuationHours : Z;
  cy_ActuationPrioHours : Z;
  cy_SchedulingHours : Z;
  cy_PortfolioHours : Z;
  cy_DiscoveryHours : Z;
  cy_PricingPerfHours : Z;
  cy_SelfExtHours : Z;
  cy_TaskRecomputeHours : Z;
  cy_TaskDispatchHours : Z;
  cy_GoalPlanningHours : Z;
  cy_GoalReplanHours : Z;
  cy_ReportingHours : Z
}.

Record BootstrapCfg := mkBootstrapCfg {
  bs_RunReflectionOnce : bool;
  bs_RunObjectiveOnce : bool;
  bs_RunActuationOnce : bool;
  bs_RunReportingOnce : bool
}.

Record SchedulerCfg := mkSchedulerCfg {
  sd_Enabled : bool;
  sd_TickSeconds : Z;
  sd_Cycles : CyclesCfg;
  sd_Bootstrap : BootstrapCfg
}.

Record OutsideWindow := mkOutsideWindow {
  ow_AllowObserve : bool;
  ow_AllowReflection : bool;
  ow_AllowObjective : bool;
  ow_AllowReporting : bool;
  ow_AllowSafeExecution : bool;
  ow_AllowHeavyExecution : bool;
  ow_AllowSelfExtension : bool
}.

Record ExecutionWindow := mkExecutionWindow {
  ew_Enabled : bool;
  ew_Start : string;
  ew_End : string;
  ew_Timezone : string;
  ew_Outside : OutsideWindow
}.

Record DedupeCfg := mkDedupeCfg {
  dc_Actuation : Z;
  dc_SelfExtension : Z;
  dc_ExternalDraft : Z;
  dc_ReportException : Z
}.

Record QueueLimits := mkQueueLimits {
  ql_MaxReviewQueue : Z;
  ql_MaxPendingSafeActions : Z;
  ql_MaxPendingSelfExt : Z
}.

Record LimitsCfg := mkLimitsCfg {
  lm_MaxActionsPerCycle : Z;
  lm_MaxHeavyActionsPerCycle : Z;
  lm_MaxReviewRequiredPerCycle : Z;
  lm_MaxSelfExtPerDay : Z;
  lm_MaxExtActionsPerDay : Z;
  lm_MaxReportsPerDay : Z;
  lm_MaxConsecutiveFailedCycles : Z;
  lm_MaxDuplicateDecisionRepeats : Z;
  lm_Dedupe : DedupeCfg;
  lm_QueueLimits : QueueLimits
}.

Record RiskThresh := mkRiskThresh {
  rt_FailureRate : float64;
  rt_Overload : float64;
  rt_Pressure : float64;
  rt_ReviewQueue : Z;
  rt_ExtFailureSpike : Z;
  rt_ObjNetUtilityFloor : float64
}.

Record BreachPolicy := mkBreachPolicy {
  bp_DisableHeavyActions : bool;
  bp_DisableSelfExtAutodeploy : bool;
  bp_RestrictExtToSafeDraftOnly : bool;
  bp_ForceStableStrategyBias : bool;
  bp_IncreaseReportingFrequency : bool
}.

Record RecoveryCfg := mkRecoveryCfg {
  rv_RequireConsecutiveHealthy : Z;
  rv_AutoRestorePrevMode : bool
}.

Record RiskCfg := mkRiskCfg {
  rk_AutoDowngrade : bool;
  rk_DowngradeMode : string;
  rk_Thresholds : RiskThresh;
  rk_OnBreach : BreachPolicy;
  rk_Recovery : RecoveryCfg
}.

Record SchedulingCfg := mkSchedulingCfg {
  sg_Enabled : bool;
  sg_AllowRecompute : bool;
  sg_AllowAutoProposals : bool;
  sg_AllowCalendarWrite : bool
}.

Record SelfExtCfg := mkSelfExtCfg {
  sx_Enabled : bool;
  sx_AutoDeploy_Enabled : bool;
  sx_AutoDeploy_OnlyLowRisk : bool;
  sx_AutoDeploy_RequireAllTestsPass : bool;
  sx_AutoDeploy_RequireNoExternalEffects : bool;
  sx_AutoDeploy_RequireNoCorePipelineMutation : bool;
  sx_BlockedChangeTypes : list string
}.

Record ActuationCfg := mkActuationCfg {
  au_Enabled : bool;
  au_AllowRun : bool;
  au_AllowRouting : bool;
  au_AllowExecSafe : bool;
  au_Limits_MaxDecisionsPerRun : Z;
  au_Limits_MaxHeavyPerRun : Z;
  au_Limits_MaxReviewRequiredPerRun : Z
}.

(** Of [ReportingCfg] only the switch is read. *)
Record AutonomyConfig := mkAutonomyConfig {
  ca_Mode : string;
  ca_Governance : GovernanceCfg;
  ca_Scheduler : SchedulerCfg;
  ca_ExecWindow : ExecutionWindow;
  ca_Limits : LimitsCfg;
  ca_Risk : RiskCfg;
  ca_Scheduling : SchedulingCfg;
  ca_SelfExt : SelfExtCfg;
  ca_Actuation : ActuationCfg;
  ca_Reporting_Enabled : bool
}.

#[export] Instance AutonomyConfig_settable : Settable AutonomyConfig := fun r =>
  mkAutonomyConfig (ca_Mode r) (ca_Governance r) (ca_Scheduler r) (ca_ExecWindow r) (ca_Limits r)
    (ca_Risk r) (ca_Scheduling r) (ca_SelfExt r) (ca_Actuation r) (ca_Reporting_Enabled r).

(** ** Times of day *)

(** [int(s[i]-'0')]: bytes wrap around; [None] past the end. *)
Definition byte_digit (s : string) (i : nat) : option Z :=
  (fun c => (Z.of_nat (Ascii.nat_of_ascii c) - 48) mod 256) <$> String.get i s.

(** [s[i]] and [s[i+1]] as a number. *)
Definition two_digits (s : string) (i : nat) : option Z :=
  match byte_digit s i, byte_digit s (S i) with
  | Some a, Some b => Some (a * 10 + b)
  | _, _ => None
  end.

Definition isValidTime (s : string) : bool :=
  if negb (bool_decide (String.length s = 5%nat)) || negb (bool_decide (String.get 2 s = Some (Ascii.ascii_of_nat 58))) then false
  else match two_digits s 0, two_digits s 3 with
       | Some h, Some m => bool_decide (0 ≤ h ≤ 23) && bool_decide (0 ≤ m ≤ 59)
       | _, _ => false
       end.

(** [None]: index out of range. *)
Definition parseHHMM (s : string) : option (Z * Z) :=
  match two_digits s 0, two_digits s 3 with
  | Some h, Some m => Some (h, m)
  | _, _ => None
  end.

(** The offset of the process's local time zone at an instant. *)
Class LocalZone := zone_offset : time → Z.

(** [t.Hour()*60 + t.Minute()] *)
Definition minute_of_day {Zn : LocalZone} (t : time) : Z := (t + zone_offset t) / Minute mod 1440.

(** [None]: a panic on a malformed bound. *)
Definition IsInsideWindow {Zn : LocalZone} (c : AutonomyConfig) (t : time) : option bool :=
  if negb (ew_Enabled (ca_ExecWindow c)) then Some true
  else match parseHHMM (ew_Start (ca_ExecWindow c)), parseHHMM (ew_End (ca_ExecWindow c)) with
       | Some (startH, startM), Some (endH, endM) =>
           let nowMin := minute_of_day t in
           let startMin := startH * 60 + startM in
           let endMin := endH * 60 + endM in
           Some (if bool_decide (startMin ≤ endMin)
                 then bool_decide (startMin ≤ nowMin) && bool_decide (nowMin < endMin)
                 else bool_decide (startMin ≤ nowMin) || bool_decide (nowMin < endMin))
       | _, _ => None
       end.

(** ** Intervals *)

Definition cycle_hours (c : CyclesCfg) (cycle : string) : Z :=
  if decide (cycle = "reflection") then cy_ReflectionHours c
  else if decide (cycle = "objective") then cy_ObjectiveHours c
  else if decide (cycle = "actuation") then cy_ActuationHours c
  else if decide (cycle = "actuation_priority") then cy_ActuationPrioHours c
  else if decide (cycle = "scheduling") then cy_SchedulingHours c
  else if decide (cycle = "portfolio") then cy_PortfolioHours c
  else if decide (cycle = "discovery") then cy_DiscoveryHours c
  else if decide (cycle = "pricing_performance") then cy_PricingPerfHours c
  else if decide (cycle = "self_extension") then cy_SelfExtHours c
  else if decide (cycle = "task_recompute") then cy_TaskRecomputeHours c
  else if decide (cycle = "task_dispatch") then cy_TaskDispatchHours c
  else if decide (cycle = "goal_planning") then cy_GoalPlanningHours c
  else if decide (cycle = "goal_replanning") then cy_GoalReplanHours c
  else if decide (cycle = "reporting") then cy_ReportingHours c
  else 0.

(** [time.Duration(hours) * time.Hour] wraps around. *)
Definition hours_duration (hours : Z) : Z := wrap64 (hours * Hour).

Definition CycleDuration (c : AutonomyConfig) (cycle : string) : Z :=
  let hours := cycle_hours (sd_Cycles (ca_Scheduler c)) cycle in
  hours_duration (if bool_decide (hours ≤ 0) then 24 else hours).

(** ** Validation *)

(** A complaint when the test fails. *)
Definition complain (bad : bool) (text : string) : list string := if bad then [text] else [].

(** In (0, 1]; a value that is no number passes. *)
Definition bad_threshold (x : float64) : bool := fleb x f0 || fltb f1 x.

Definition config_errors (c : AutonomyConfig) : list string :=
  let sched := ca_Scheduler c in
  let win := ca_ExecWindow c in
  let thresholds := rk_Thresholds (ca_Risk c) in
  complain (negb (bool_decide (ca_Mode c ∈ validModes)))
    ("mode must be one of frozen, supervised_autonomy, bounded_autonomy, autonomous; got " +:+ quote (ca_Mode c)) ++
  (if sd_Enabled sched then
     complain (bool_decide (sd_TickSeconds sched ≤ 0)) "scheduler.tick_seconds must be > 0" ++
     complain (bool_decide (cy_ReflectionHours (sd_Cycles sched) ≤ 0)) "scheduler.cycles.reflection_hours must be > 0" ++
     complain (bool_decide (cy_ObjectiveHours (sd_Cycles sched) ≤ 0)) "scheduler.cycles.objective_hours must be > 0"
   else []) ++
  (if ew_Enabled win then
     complain (negb (isValidTime (ew_Start win))) ("execution_window.start must be HH:MM; got " +:+ quote (ew_Start win)) ++
     complain (negb (isValidTime (ew_End win))) ("execution_window.end must be HH:MM; got " +:+ quote (ew_End win))
   else []) ++
  complain (bool_decide (lm_MaxActionsPerCycle (ca_Limits c) ≤ 0)) "limits.max_actions_per_cycle must be > 0" ++
  complain (bool_decide (lm_MaxConsecutiveFailedCycles (ca_Limits c) ≤ 0)) "limits.max_consecutive_failed_cycles must be > 0" ++
  complain (bad_threshold (rt_FailureRate thresholds)) "risk.thresholds.failure_rate_threshold must be in (0,1]" ++
  complain (bad_threshold (rt_Overload thresholds)) "risk.thresholds.overload_threshold must be in (0,1]" ++
  complain (bad_threshold (rt_Pressure thresholds)) "risk.thresholds.pressure_threshold must be in (0,1]".

Definition newline_item : string := String (Ascii.ascii_of_nat 10) "  - ".

Definition Validate (c : AutonomyConfig) : option error :=
  match config_errors c with
  | [] => None
  | errs => Some (Errorf ("invalid autonomy config:" +:+ newline_item +:+ String.concat newline_item errs))
  end.

(** ** What validation promises *)

Lemma isValidTime_parses s :
  isValidTime s = true → ∃ h m, parseHHMM s = Some (h, m) ∧ 0 ≤ h ≤ 23 ∧ 0 ≤ m ≤ 59.
Proof.
  unfold isValidTime, parseHHMM. destruct (negb _ || negb _); [done|].
  destruct (two_digits s 0) as [h|]; [|done]. destruct (two_digits s 3) as [m|]; [|done].
  rewrite andb_true_iff, !bool_decide_eq_true. intros [Hh Hm]. by exists h, m.
Qed.

(** A byte that is not a digit can pass for one. *)
Example not_a_time : isValidTime "1=:0;" = true ∧ parseHHMM "1=:0;" = Some (23, 11).
Proof. by vm_compute. Qed.

Lemma complain_nil bad text rest : complain bad text ++ rest = [] ↔ bad = false ∧ rest = [].
Proof. destruct bad; cbn; naive_solver. Qed.

Lemma validated_fields c :
  Validate c = None →
  ca_Mode c ∈ validModes ∧
  (ew_Enabled (ca_ExecWindow c) = true →
     isValidTime (ew_Start (ca_ExecWindow c)) = true ∧ isValidTime (ew_End (ca_ExecWindow c)) = true) ∧
  0 < lm_MaxActionsPerCycle (ca_Limits c) ∧ 0 < lm_MaxConsecutiveFailedCycles (ca_Limits c).
Proof.
  unfold Validate. destruct (config_errors c) eqn:E; [|done]. intros _. unfold config_errors in E. cbv zeta in E.
  apply complain_nil in E as [Hmode E]. apply app_eq_nil in E as [_ E]. apply app_eq_nil in E as [Hwin E].
  apply complain_nil in E as [H1 E]. apply complain_nil in E as [H2 _].
  apply negb_false_iff, bool_decide_eq_true in Hmode. apply bool_decide_eq_false in H1, H2.
  split_and!; [done| |lia|lia]. intros Hen. rewrite Hen in Hwin.
  apply complain_nil in Hwin as [H3 H4]. rewrite <- (app_nil_r (complain _ _)) in H4.
  apply complain_nil in H4 as [H4 _]. by rewrite negb_false_iff in H3, H4.
Qed.

Lemma validated_window {Zn : LocalZone} c t : Validate c = None → is_Some (IsInsideWindow c t).
Proof.
  intros H. apply validated_fields in H as (_ & Hwin & _). unfold IsInsideWindow.
  destruct (ew_Enabled (ca_ExecWindow c)); [|by eexists]. cbn.
  destruct (Hwin eq_refl) as [Hs He].
  apply isValidTime_parses in Hs as (h & m & -> & _). apply isValidTime_parses in He as (h' & m' & -> & _). by eexists.
Qed.

(** Up to two million hours, 228 years, an interval does not wrap around. *)
Lemma CycleDuration_pos c cycle :
  cycle_hours (sd_Cycles (ca_Scheduler c)) cycle ≤ 2000000 → Hour ≤ CycleDuration c cycle.
Proof.
  intros H. unfold CycleDuration, hours_duration. case_bool_decide as Hh.
  - rewrite wrap64_id; [by vm_compute|]. by vm_compute.
  - assert (HH : Hour = 3600000000000) by done. rewrite wrap64_id; [nia|].
    unfold in_int64, int64_min, int64_max. rewrite HH. lia.
Qed.
