(* ===== verification/Autonomy.v ===== *)
(** * The autonomy runtime ([internal/agent/autonomy])

    A loop that, tick by tick, runs the cycles that are due (reflection,
    objective, actuation, ... reporting) through the interfaces of the other
    engines, lowers its mode when a threshold is crossed and restores it later,
    turns actuation decisions into tasks and carries the outcome of executions
    back to the tasks.  Modelled: [orchestrator.go] and [chain_closure.go].

    The runtime's memory (configuration, state, dedupe table, reports) is the
    [ag_db] of the world; everything behind the interfaces is its provider state
    [X].  An operation runs to its end before the next one starts; counters do
    not wrap around.  The audit log pairs an event with the cycle, decision or
    task of its payload. *)

From stdpp Require Import base gmap strings list tactics numbers fin_maps pretty.
From Stdlib Require Import ZArith Lia.
From S2P Require Import Prelude GoFloat GoStrconv Models GoTime AgentWorld AutonomyConfig.

Open Scope Z_scope.

(** ** Results of the providers *)

Record ReflectionResult := mkReflectionResult { rr_SignalCount : Z; rr_RiskFlags : Z }.
Record ObjectiveResult := mkObjectiveResult { ob_NetUtility : float64; ob_RiskScore : float64 }.
Record ActuationResult := mkActuationResult { ac_DecisionCount : Z; ac_ReviewNeeded : Z }.

Record ActuationDecisionInfo := mkDecisionInfo {
  di_ID : string;
  di_Type : string;
  di_Status : string;
  di_RequiresReview : bool;
  di_Priority : float64;
  di_ProposedAt : time
}.

Record DiscoveryResult := mkDiscoveryResult { dr_CandidatesFound : Z }.
Record SelfExtProposalInfo := mkProposalInfo { sp_ID : string; sp_Status : string; sp_Title : string }.

(** The linked tasks are in the order the Go map is read. *)
Record DispatchResultInfo := mkDispatchInfo {
  ds_DispatchedCount : Z;
  ds_SkippedCount : Z;
  ds_BlockedCount : Z;
  ds_DispatchedTaskIDs : list (string * string)
}.

Record RunningTaskInfo := mkRunningTask {
  rg_ID : string;
  rg_ExecutionTaskID : string;
  rg_Goal : string;
  rg_AttemptCount : Z
}.

Record ExecTaskInfo := mkExecInfo {
  ex_ID : string;
  ex_Status : string;
  ex_AbortReason : string;
  ex_IterationCount : Z;
  ex_StepsExecuted : Z;
  ex_StepsFailed : Z;
  ex_HasReviewBlock : bool
}.

Record ExecutionFeedback := mkFeedback {
  fb_ID : string;
  fb_TaskID : string;
  fb_ExecutionTaskID : string;
  fb_OutcomeType : string;
  fb_Success : bool;
  fb_StepsExecuted : Z;
  fb_StepsFailed : Z;
  fb_ErrorSummary : string;
  fb_SemanticSignal : string;
  fb_SourceDecisionType : string;
  fb_CreatedAt : time
}.

(** ** Provider interfaces *)

Section interfaces.
Context (X : Type).

Record ActuationRunner := mkActuationRunner {
  ActuationRun : St X (res ActuationResult);
  ActuationList : Z → St X (res (list ActuationDecisionInfo))
}.

Record GovernanceSetter := mkGovernanceSetter {
  GovernanceGetMode : St X string;
  GovernanceSetMode : string → string → St X (option error)
}.

Record TaskOrchestratorRunner := mkTaskRunner {
  CreateTask (source goal : string) (urgency expectedValue riskLevel : float64) (strategyType : string) : St X (res string);
  RecomputePriorities : St X (option error);
  Dispatch : St X (res DispatchResultInfo);
  FindByActuationDecision (decisionID : string) : St X (string * option error);
  CompleteTask (id : string) : St X (option error);
  FailTask (id reason : string) : St X (option error);
  PauseTask (id : string) : St X (option error);
  SetActuationDecisionID (taskID decisionID : string) : St X (option error);
  SetExecutionTaskID (taskID execTaskID : string) : St X (option error);
  SetOutcome (taskID outcomeType lastError : string) (attemptCount : Z) : St X (option error);
  ListRunningTasks (limit : Z) : St X (res (list RunningTaskInfo))
}.

Record ExecutionFeedbackStore := mkFeedbackStore {
  FeedbackInsert : ExecutionFeedback → St X (option error);
  FeedbackListRecent : Z → St X (res (list ExecutionFeedback));
  CountByOutcome (outcomeType : string) (since : time) : St X (Z * option error);
  CountBySignal (signal : string) (since : time) : St X (Z * option error)
}.

Record Providers := mkProviders {
  pv_clock : nat → time;
  pv_auditor : bool;
  pv_reflection : option (bool → St X (res ReflectionResult));
  pv_objective : option (St X (res ObjectiveResult));
  pv_actuation : option ActuationRunner;
  pv_scheduling : option (St X (option error));
  pv_portfolio : option (St X (option error));
  pv_discovery : option (St X (res DiscoveryResult));
  pv_selfExt : option (Z → St X (res (list SelfExtProposalInfo)));
  pv_pressure : option (St X (float64 * string));
  pv_capacity : option (St X float64);
  pv_governance : option GovernanceSetter;
  pv_taskOrchestrator : option TaskOrchestratorRunner;
  pv_executionLoop : option (string → St X (res ExecTaskInfo));
  pv_feedbackStore : option ExecutionFeedbackStore;
  pv_goalPlanning : option (St X (option error));
  pv_goalReplanning : option (St X (res Z))
}.
End interfaces.
Arguments mkActuationRunner {X}.
Arguments ActuationRun {X}.
Arguments ActuationList {X}.
Arguments mkGovernanceSetter {X}.
Arguments GovernanceGetMode {X}.
Arguments GovernanceSetMode {X}.
Arguments mkTaskRunner {X}.
Arguments CreateTask {X}.
Arguments RecomputePriorities {X}.
Arguments Dispatch {X}.
Arguments FindByActuationDecision {X}.
Arguments CompleteTask {X}.
Arguments FailTask {X}.
Arguments PauseTask {X}.
Arguments SetActuationDecisionID {X}.
Arguments SetExecutionTaskID {X}.
Arguments SetOutcome {X}.
Arguments ListRunningTasks {X}.
Arguments mkFeedbackStore {X}.
Arguments FeedbackInsert {X}.
Arguments FeedbackListRecent {X}.
Arguments CountByOutcome {X}.
Arguments CountBySignal {X}.
Arguments mkProviders {X}.
Arguments pv_clock {X}.
Arguments pv_auditor {X}.
Arguments pv_reflection {X}.
Arguments pv_objective {X}.
Arguments pv_actuation {X}.
Arguments pv_scheduling {X}.
Arguments pv_portfolio {X}.
Arguments pv_discovery {X}.
Arguments pv_selfExt {X}.
Arguments pv_pressure {X}.
Arguments pv_capacity {X}.
Arguments pv_governance {X}.
Arguments pv_taskOrchestrator {X}.
Arguments pv_executionLoop {X}.
Arguments pv_feedbackStore {X}.
Arguments pv_goalPlanning {X}.
Arguments pv_goalReplanning {X}.

(** ** Memory *)

Record RuntimeState := mkRuntimeState {
  st_Mode : string;
  st_OriginalMode : string;
  st_Running : bool;
  st_StartedAt : option time;
  st_LastCycleTimes : gmap string time;
  st_CyclesRun : gmap string Z;
  st_ConsecutiveFailures : Z;
  st_ConsecutiveHealthy : Z;
  st_Downgraded : bool;
  st_DowngradeReason : string;
  st_HeavyActionsDisabled : bool;
  st_SelfExtDisabled : bool;
  st_ReportCount : Z;
  st_ActionsTakenThisCycle : Z;
  st_LastError : string;
  st_SafeActionsRouted : Z;
  st_ReviewActionsQueued : Z;
  st_SelfExtBlocked : Z;
  st_SelfExtDeployed : Z;
  st_SuppressedDecisions : Z;
  st_TasksCreatedFromActuation : Z;
  st_TaskRecomputeCount : Z;
  st_TaskDispatchCount : Z;
  st_ExecutionCompleted : Z;
  st_ExecutionFailed : Z;
  st_ExecutionPaused : Z;
  st_FeedbackRecorded : Z
}.

#[export] Instance RuntimeState_settable : Settable RuntimeState := fun r =>
  mkRuntimeState (st_Mode r) (st_OriginalMode r) (st_Running r) (st_StartedAt r)
    (st_LastCycleTimes r) (st_CyclesRun r) (st_ConsecutiveFailures r) (st_ConsecutiveHealthy r)
    (st_Downgraded r) (st_DowngradeReason r) (st_HeavyActionsDisabled r) (st_SelfExtDisabled r)
    (st_ReportCount r) (st_ActionsTakenThisCycle r) (st_LastError r) (st_SafeActionsRouted r)
    (st_ReviewActionsQueued r) (st_SelfExtBlocked r) (st_SelfExtDeployed r) (st_SuppressedDecisions r)
    (st_TasksCreatedFromActuation r) (st_TaskRecomputeCount r) (st_TaskDispatchCount r)
    (st_ExecutionCompleted r) (st_ExecutionFailed r) (st_ExecutionPaused r) (st_FeedbackRecorded r).

Definition newRuntimeState (mode : string) : RuntimeState :=
  mkRuntimeState mode mode false None ∅ ∅ 0 0 false "" false false 0 0 "" 0 0 0 0 0 0 0 0 0 0 0 0.

(** Reflection and actuation summaries are never filled in. *)
Record AutonomyReport := mkReport {
  rp_ID : string;
  rp_Type : string;
  rp_CreatedAt : time;
  rp_Mode : string;
  rp_CyclesRun : gmap string Z;
  rp_ObjectiveSnapshot : option ObjectiveResult;
  rp_SafeActionsRouted : Z;
  rp_ReviewQueued : Z;
  rp_SuppressedCount : Z;
  rp_SelfExtBlocked : Z;
  rp_SelfExtDeployed : Z;
  rp_Downgraded : bool;
  rp_DowngradeReason : string;
  rp_FailureCount : Z;
  rp_Warnings : list string;
  rp_ExceptionTrigger : string
}.

Record Runtime := mkRuntime {
  rn_cfg : AutonomyConfig;
  rn_state : RuntimeState;
  rn_seen : gmap string time;          (* the dedupe tracker *)
  rn_reports : list AutonomyReport
}.

#[export] Instance Runtime_settable : Settable Runtime := fun r =>
  mkRuntime (rn_cfg r) (rn_state r) (rn_seen r) (rn_reports r).

Definition NewOrchestrator (cfg : AutonomyConfig) : Runtime :=
  mkRuntime cfg (newRuntimeState (ca_Mode cfg)) ∅ [].

(** [now.Format(time.RFC3339)] in the local zone. *)
Definition local_rfc3339 {Zn : LocalZone} (t : time) : string :=
  let off := zone_offset t in
  if bool_decide (off = 0) then rfc3339 t
  else
    let text := rfc3339 (t + off) in
    let minutes := Z.quot off Minute in
    String.substring 0 (String.length text - 1) text +:+
      (if bool_decide (minutes < 0) then "-" else "+") +:+
      digits 2 (Z.abs minutes / 60) +:+ ":" +:+ digits 2 (Z.abs minutes mod 60).

Section runtime.
Context {X : Type} {Zn : LocalZone} {U : UuidPkg} (p : Providers X).
Abbreviation AU A := (St (Agent Runtime X) A).

(** Reading and changing memory. *)
Definition peek {A} (f : Runtime → A) : AU A := fun s => (f (ag_db s), s).
Definition poke (f : Runtime → Runtime) : AU unit := fun s => (tt, s <| ag_db := f (ag_db s) |>).
Definition state_of {A} (f : RuntimeState → A) : AU A := peek (fun m => f (rn_state m)).
Definition update_state (f : RuntimeState → RuntimeState) : AU unit :=
  poke (fun m => m <| rn_state := f (rn_state m) |>).

Definition timeNow : AU time := reading (pv_clock p).
Definition auditEvent (eventType entity : string) : AU unit := record_audit (pv_auditor p) eventType entity.

(** An error behind a prefix; the result is only logged. *)
Definition only_err {A} (prefix : string) (r : res A) : option error := wrap prefix <$> failed r.

(** ** Dedupe tracker *)

Definition IsDuplicate (key : string) (window : Z) : AU bool :=
  let mark : AU bool :=
    let! now := timeNow in
    let! _ := poke (fun m => m <| rn_seen := <[key := now]> (rn_seen m) |>) in
    retS false in
  let! last := peek (fun m => rn_seen m !! key) in
  match last with
  | Some last =>
      let! now := timeNow in
      if bool_decide (time_Sub now last < window) then retS true else mark
  | None => mark
  end.

Definition Cleanup (maxAge : Z) : AU unit :=
  let! now := timeNow in
  poke (fun m => m <| rn_seen := filter (fun '(_, seen) => ¬ seen < now - maxAge) (rn_seen m) |>).

(** ** From decisions to tasks ([chain_closure.go]) *)

Definition actuationTypeToGoal : gmap string string := list_to_map
  [("stabilize_income", "stabilize income by prioritizing safe revenue actions");
   ("reduce_load", "reduce owner overload by deferring low-value work");
   ("rebalance_portfolio", "rebalance revenue strategy allocations");
   ("adjust_pricing", "recompute pricing for active opportunities");
   ("shift_scheduling", "shift scheduling to optimize time allocation");
   ("increase_discovery", "increase opportunity discovery activity");
   ("trigger_automation", "trigger automation workflow for efficiency")].

Definition actuationTypeToStrategy : gmap string string := list_to_map
  [("stabilize_income", "consulting"); ("reduce_load", ""); ("rebalance_portfolio", "");
   ("adjust_pricing", ""); ("shift_scheduling", ""); ("increase_discovery", "");
   ("trigger_automation", "automation_services")].

Definition decision_goal (t : string) : string :=
  let goal := default "" (actuationTypeToGoal !! t) in
  if decide (goal = "") then "execute actuation decision: " +:+ t else goal.

Definition decision_risk (d : ActuationDecisionInfo) : float64 :=
  if di_RequiresReview d then lit 6 10 else lit 3 10.

(** The task id and whether a task was created. *)
Definition MaterializeDecisionAsTask (d : ActuationDecisionInfo) : AU (res (string * bool)) :=
  match pv_taskOrchestrator p with
  | None => retS (Ok ("", false))
  | Some t =>
      let! mode := state_of st_Mode in
      if decide (mode = ModeFrozen) then
        let! _ := auditEvent "actuation.task_blocked_by_governance" (di_ID d) in
        retS (Ok ("", false))
      else if bool_decide (mode = ModeSupervisedAutonomy) && di_RequiresReview d then
        let! _ := auditEvent "actuation.task_skipped_review_required" (di_ID d) in
        retS (Ok ("", false))
      else
        let! found := provider (FindByActuationDecision t (di_ID d)) in
        let existingTaskID := fst found in
        if negb (bool_decide (existingTaskID = "")) then
          let! _ := auditEvent "actuation.task_skipped_duplicate" (di_ID d) in
          retS (Ok (existingTaskID, false))
        else
          let! result := provider (CreateTask t "actuation" (decision_goal (di_Type d)) (fclamp01 (di_Priority d))
                                     (di_Priority d) (decision_risk d) (default "" (actuationTypeToStrategy !! di_Type d))) in
          match result with
          | Err err => retS (Err (wrap "create task from actuation decision: " err))
          | Ok id =>
              let! _ := dropped (provider (SetActuationDecisionID t id (di_ID d))) in
              let! _ := auditEvent "actuation.task_created" (di_ID d) in
              retS (Ok (id, true))
          end
  end.

(** ** From executions to tasks *)

Definition MaxRunningTasks : Z := 4.

Definition generateID : AU string := let! now := timeNow in retS (pretty now).

Definition recordFeedback (task : RunningTaskInfo) (exec : ExecTaskInfo) (outcomeType : string) (success : bool)
    (signal : string) : AU unit :=
  match pv_feedbackStore p with
  | None => retS tt
  | Some store =>
      let! id := generateID in
      let! now := timeNow in
      let! err := provider (FeedbackInsert store (mkFeedback id (rg_ID task) (ex_ID exec) outcomeType success
                              (ex_StepsExecuted exec) (ex_StepsFailed exec) (ex_AbortReason exec) signal "" now)) in
      match err with
      | Some _ => retS tt
      | None =>
          let! _ := update_state (fun st => st <| st_FeedbackRecorded := st_FeedbackRecorded st + 1 |>) in
          auditEvent "execution.feedback_recorded" (rg_ID task)
      end
  end.

(** What happened to one running task. *)
Inductive Propagated : Type := Completed | Failed | Paused | Unchanged.

(** A call that moves the task; on an error the task is left for the next cycle. *)
Definition move_task (call : St X (option error)) (after : AU unit) (moved : Propagated) : AU Propagated :=
  let! err := provider call in
  match err with
  | Some _ => retS Unchanged
  | None => let! _ := after in retS moved
  end.

Definition failure_signal (task : RunningTaskInfo) : string :=
  if bool_decide (2 ≤ rg_AttemptCount task) then "repeated_failure" else "execution_failure".

Definition abort_signal (reason : string) : string :=
  if contains reason "objective penalty" then "objective_penalty_abort"
  else if contains reason "consecutive failures" then "repeated_failure"
  else if contains reason "governance" then "blocked_by_governance"
  else "execution_aborted".

Definition manual_abort (reason : string) : bool :=
  bool_decide (reason = "manual abort") || bool_decide (reason = "").

Definition propagate_task (t : TaskOrchestratorRunner X) (task : RunningTaskInfo) (exec : ExecTaskInfo) : AU Propagated :=
  let id := rg_ID task in
  let outcome kind lastError := dropped (provider (SetOutcome t id kind lastError (rg_AttemptCount task + 1))) in
  let finish kind lastError success signal event : AU unit :=
    let! _ := outcome kind lastError in
    let! _ := recordFeedback task exec kind success signal in
    auditEvent event id in
  if decide (ex_Status exec = "completed") then
    move_task (CompleteTask t id) (finish "completed" "" true "safe_action_succeeded" "task.execution_completed") Completed
  else if decide (ex_Status exec = "failed") then
    move_task (FailTask t id "execution failed")
      (finish "failed" (ex_AbortReason exec) false (failure_signal task) "task.execution_failed") Failed
  else if decide (ex_Status exec = "aborted") then
    if manual_abort (ex_AbortReason exec) then
      move_task (PauseTask t id)
        (finish "aborted" (ex_AbortReason exec) false "execution_aborted" "task.execution_aborted") Paused
    else
      move_task (FailTask t id (ex_AbortReason exec))
        (finish "aborted" (ex_AbortReason exec) false (abort_signal (ex_AbortReason exec)) "task.execution_aborted") Failed
  else if bool_decide (ex_Status exec ∈ ["pending"; "running"]) && ex_HasReviewBlock exec then
    move_task (PauseTask t id)
      (let! _ := recordFeedback task exec "blocked" false "blocked_by_review" in
       auditEvent "task.execution_paused" id) Paused
  else retS Unchanged.

Definition count_in (x : Propagated) (counts : Z * Z * Z) : Z * Z * Z :=
  let '(completed, failed, paused) := counts in
  match x with
  | Completed => (completed + 1, failed, paused)
  | Failed => (completed, failed + 1, paused)
  | Paused => (completed, failed, paused + 1)
  | Unchanged => counts
  end.

Fixpoint propagate_all (t : TaskOrchestratorRunner X) (getTask : string → St X (res ExecTaskInfo))
    (running : list RunningTaskInfo) (counts : Z * Z * Z) : AU (Z * Z * Z) :=
  match running with
  | [] => retS counts
  | task :: running =>
      if decide (rg_ExecutionTaskID task = "") then propagate_all t getTask running counts
      else
        let! info := provider (getTask (rg_ExecutionTaskID task)) in
        match info with
        | Err _ => propagate_all t getTask running counts
        | Ok exec =>
            let! x := propagate_task t task exec in
            propagate_all t getTask running (count_in x counts)
        end
  end.

(** The numbers of tasks completed, failed and paused. *)
Definition PropagateExecutionResults : AU (Z * Z * Z * option error) :=
  match pv_taskOrchestrator p, pv_executionLoop p with
  | Some t, Some getTask =>
      let! r := provider (ListRunningTasks t (MaxRunningTasks * 2)) in
      match r with
      | Err err => retS (0, 0, 0, Some (wrap "list running tasks: " err))
      | Ok running =>
          let! counts := propagate_all t getTask running (0, 0, 0) in
          retS (counts, None)
      end
  | _, _ => retS (0, 0, 0, None)
  end.

(** ** Cycles *)

Definition cycleReflection : AU (option error) :=
  match pv_reflection p with
  | None => retS None
  | Some run => let! r := provider (run false) in retS (only_err "reflection: " r)
  end.

Definition cycleObjective : AU (option error) :=
  match pv_objective p with
  | None => retS None
  | Some run => let! r := provider run in retS (only_err "objective: " r)
  end.

Definition isHeavyAction (actionType : string) : bool :=
  bool_decide (actionType ∈ ["adjust_pricing"; "trigger_automation"; "stabilize_income"; "rebalance_portfolio"]).

Definition proposed (d : ActuationDecisionInfo) : bool := bool_decide (di_Status d = "proposed").

(** Classify the proposed decisions; returns those queued for review and those
    suppressed, beyond the given numbers. *)
Fixpoint route_decisions (heavyDisabled : bool) (ds : list ActuationDecisionInfo) (queued suppressed : Z) : AU (Z * Z) :=
  match ds with
  | [] => retS (queued, suppressed)
  | d :: ds =>
      if negb (proposed d) then route_decisions heavyDisabled ds queued suppressed
      else
        let! window := peek (fun m => hours_duration (dc_Actuation (lm_Dedupe (ca_Limits (rn_cfg m))))) in
        let! seen := IsDuplicate ("actuation:" +:+ di_Type d +:+ ":" +:+ di_ID d) window in
        if seen : bool then route_decisions heavyDisabled ds queued (suppressed + 1)
        else if di_RequiresReview d then
          let! _ := auditEvent "autonomy.review_action_queued" (di_ID d) in
          route_decisions heavyDisabled ds (queued + 1) suppressed
        else if heavyDisabled && isHeavyAction (di_Type d) then route_decisions heavyDisabled ds queued (suppressed + 1)
        else
          let! taken := state_of st_ActionsTakenThisCycle in
          let! limit := peek (fun m => lm_MaxActionsPerCycle (ca_Limits (rn_cfg m))) in
          if bool_decide (limit ≤ taken) then route_decisions heavyDisabled ds queued (suppressed + 1)
          else
            let! _ := update_state (fun st =>
              (st <| st_ActionsTakenThisCycle := st_ActionsTakenThisCycle st + 1 |>)
                  <| st_SafeActionsRouted := st_SafeActionsRouted st + 1 |>) in
            let! _ := auditEvent "autonomy.safe_action_routed" (di_ID d) in
            route_decisions heavyDisabled ds queued suppressed
  end.

(** Turn the proposed decisions that need no review into tasks; returns how many
    were created. *)
Fixpoint materialize_decisions (ds : list ActuationDecisionInfo) (created : Z) : AU Z :=
  match ds with
  | [] => retS created
  | d :: ds =>
      if negb (proposed d) || di_RequiresReview d then materialize_decisions ds created
      else
        let! r := MaterializeDecisionAsTask d in
        materialize_decisions ds (match r with Ok (_, true) => created + 1 | _ => created end)
  end.

Definition cycleActuation : AU (option error) :=
  match pv_actuation p with
  | None => retS None
  | Some a =>
      let! result := provider (ActuationRun a) in
      match result with
      | Err err => retS (Some (wrap "actuation run: " err))
      | Ok _ =>
          let! heavyDisabled := state_of st_HeavyActionsDisabled in
          let! r := provider (ActuationList a 50) in
          let decisions := match r with Ok ds => ds | Err _ => [] end in
          let! counts := route_decisions heavyDisabled decisions 0 0 in
          let! _ := update_state (fun st =>
            (st <| st_ReviewActionsQueued := st_ReviewActionsQueued st + fst counts |>)
                <| st_SuppressedDecisions := st_SuppressedDecisions st + snd counts |>) in
          let! created := materialize_decisions decisions 0 in
          let! _ := (if bool_decide (0 < created)
                     then update_state (fun st => st <| st_TasksCreatedFromActuation := st_TasksCreatedFromActuation st + created |>)
                     else retS tt) in
          retS None
      end
  end.

Definition cycleScheduling : AU (option error) :=
  match pv_scheduling p with
  | None => retS None
  | Some run => let! err := provider run in retS (wrap "scheduling: " <$> err)
  end.

Definition cyclePortfolio : AU (option error) :=
  match pv_portfolio p with
  | None => retS None
  | Some run => let! err := provider run in retS (wrap "portfolio: " <$> err)
  end.

Definition cycleDiscovery : AU (option error) :=
  match pv_discovery p with
  | None => retS None
  | Some run => let! r := provider run in retS (only_err "discovery: " r)
  end.

Definition block_extension (id : string) : AU unit :=
  let! _ := update_state (fun st => st <| st_SelfExtBlocked := st_SelfExtBlocked st + 1 |>) in
  auditEvent "autonomy.self_extension_blocked" id.

(** Deployment itself is only counted and audited. *)
Definition review_extension (selfExtDisabled : bool) (x : SelfExtProposalInfo) : AU unit :=
  if negb (bool_decide (sp_Status x = "validated")) then retS tt
  else
    let! window := peek (fun m => hours_duration (dc_SelfExtension (lm_Dedupe (ca_Limits (rn_cfg m))))) in
    let! seen := IsDuplicate ("selfext:" +:+ sp_ID x) window in
    if seen : bool then retS tt
    else
      let! ext := peek (fun m => ca_SelfExt (rn_cfg m)) in
      if negb (sx_AutoDeploy_Enabled ext) || selfExtDisabled then block_extension (sp_ID x)
      else if sx_AutoDeploy_OnlyLowRisk ext then block_extension (sp_ID x)
      else
        let! _ := update_state (fun st => st <| st_SelfExtDeployed := st_SelfExtDeployed st + 1 |>) in
        auditEvent "autonomy.self_extension_autodeployed" (sp_ID x).

Definition cycleSelfExtension : AU (option error) :=
  match pv_selfExt p with
  | None => retS None
  | Some list_proposals =>
      let! selfExtDisabled := state_of st_SelfExtDisabled in
      let! r := provider (list_proposals 20) in
      match r with
      | Err err => retS (Some (wrap "self_extension list: " err))
      | Ok proposals =>
          let! _ := forS (review_extension selfExtDisabled) proposals in
          retS None
      end
  end.

(** The chain closure cycles do nothing in frozen mode but say so. *)
Definition unless_frozen (name : string) (run : AU (option error)) : AU (option error) :=
  let! mode := state_of st_Mode in
  if decide (mode = ModeFrozen) then
    let! _ := auditEvent ("autonomy." +:+ name +:+ "_skipped") "" in
    retS None
  else
    let! _ := auditEvent ("autonomy." +:+ name +:+ "_started") "" in
    run.

Definition cycleTaskRecompute : AU (option error) :=
  match pv_taskOrchestrator p with
  | None => retS None
  | Some t =>
      unless_frozen "task_recompute" (
        let! propagated := PropagateExecutionResults in
        let '(completed, failed, paused, _) := propagated in
        let! _ := update_state (fun st =>
          ((st <| st_ExecutionCompleted := st_ExecutionCompleted st + completed |>)
               <| st_ExecutionFailed := st_ExecutionFailed st + failed |>)
               <| st_ExecutionPaused := st_ExecutionPaused st + paused |>) in
        let! err := provider (RecomputePriorities t) in
        match err with
        | Some err => retS (Some (wrap "task recompute: " err))
        | None =>
            let! _ := update_state (fun st => st <| st_TaskRecomputeCount := st_TaskRecomputeCount st + 1 |>) in
            let! _ := auditEvent "autonomy.task_recompute_completed" "" in
            retS None
        end)
  end.

Definition link_execution (t : TaskOrchestratorRunner X) (link : string * string) : AU unit :=
  if decide (snd link = "") then retS tt
  else dropped (provider (SetExecutionTaskID t (fst link) (snd link))).

(** An error of the dispatch is audited and is none for the cycle. *)
Definition cycleTaskDispatch : AU (option error) :=
  match pv_taskOrchestrator p with
  | None => retS None
  | Some t =>
      unless_frozen "task_dispatch" (
        let! r := provider (Dispatch t) in
        match r with
        | Err _ =>
            let! _ := auditEvent "autonomy.task_dispatch_completed" "" in
            retS None
        | Ok result =>
            let! _ := forS (link_execution t) (ds_DispatchedTaskIDs result) in
            let! _ := update_state (fun st => st <| st_TaskDispatchCount := st_TaskDispatchCount st + ds_DispatchedCount result |>) in
            let! _ := auditEvent "autonomy.task_dispatch_completed" "" in
            retS None
        end)
  end.

Definition cycleGoalPlanning : AU (option error) :=
  match pv_goalPlanning p with
  | None => retS None
  | Some run =>
      unless_frozen "goal_planning" (
        let! err := provider run in
        match err with
        | Some err =>
            let! _ := auditEvent "autonomy.goal_planning_failed" "" in
            retS (Some err)
        | None =>
            let! _ := auditEvent "autonomy.goal_planning_completed" "" in
            retS None
        end)
  end.

Definition cycleGoalReplanning : AU (option error) :=
  match pv_goalReplanning p with
  | None => retS None
  | Some run =>
      unless_frozen "goal_replanning" (
        let! r := provider run in
        match r with
        | Err err =>
            let! _ := auditEvent "autonomy.goal_replanning_failed" "" in
            retS (Some err)
        | Ok _ =>
            let! _ := auditEvent "autonomy.goal_replanning_completed" "" in
            retS None
        end)
  end.

(** ** Reports *)

Definition maxReports : nat := 200.

(** The last [n] elements. *)
Definition last_n {A} (n : nat) (l : list A) : list A := drop (length l - n) l.

Definition storeReport (r : AutonomyReport) : AU unit :=
  poke (fun m => m <| rn_reports := last_n maxReports (rn_reports m ++ [r]) |>).

Definition report_warnings (st : RuntimeState) : list string :=
  (if st_Downgraded st then ["system is in downgraded mode: " +:+ st_DowngradeReason st] else []) ++
  (if st_HeavyActionsDisabled st then ["heavy actions are disabled"] else []) ++
  (if st_SelfExtDisabled st then ["self-extension auto-deploy is disabled"] else []) ++
  (if bool_decide (0 < st_ConsecutiveFailures st) then [pretty (st_ConsecutiveFailures st) +:+ " consecutive failures"] else []).

(** Asking for the objective recomputes it. *)
Definition objective_snapshot : AU (option ObjectiveResult) :=
  match pv_objective p with
  | None => retS None
  | Some run => let! r := provider run in retS match r with Ok o => Some o | Err _ => None end
  end.

Definition cycleReporting : AU (option error) :=
  let! snap := peek rn_state in
  let! id := fresh_uuid in
  let! now := timeNow in
  let! objective := objective_snapshot in
  let! _ := storeReport (mkReport id "operational" now (st_Mode snap) (st_CyclesRun snap) objective
              (st_SafeActionsRouted snap) (st_ReviewActionsQueued snap) (st_SuppressedDecisions snap)
              (st_SelfExtBlocked snap) (st_SelfExtDeployed snap) (st_Downgraded snap) (st_DowngradeReason snap)
              (st_ConsecutiveFailures snap) (report_warnings snap) "") in
  let! _ := update_state (fun st => st <| st_ReportCount := st_ReportCount st + 1 |>) in
  let! _ := auditEvent "autonomy.report_created" id in
  retS None.

Definition CreateExceptionReport (trigger : string) : AU unit :=
  let! snap := peek rn_state in
  let! id := fresh_uuid in
  let! now := timeNow in
  let! _ := storeReport (mkReport id "exception" now (st_Mode snap) (st_CyclesRun snap) None 0 0 0 0 0
              (st_Downgraded snap) (st_DowngradeReason snap) (st_ConsecutiveFailures snap) [trigger] trigger) in
  auditEvent "autonomy.report_created" id.

Definition GetReports (limit : Z) : AU (list AutonomyReport) :=
  peek (fun m =>
    let total := Z.of_nat (length (rn_reports m)) in
    last_n (Z.to_nat (if bool_decide (limit ≤ 0) || bool_decide (total < limit) then total else limit)) (rn_reports m)).

Definition GetState : AU RuntimeState := peek rn_state.

(** ** Safety kernel *)

Definition downgrade (reason : string) : AU unit :=
  let! downgraded := state_of st_Downgraded in
  if downgraded : bool then retS tt
  else
    let! mode := peek (fun m => rk_DowngradeMode (ca_Risk (rn_cfg m))) in
    let! _ := update_state (fun st =>
      ((((st <| st_Downgraded := true |>) <| st_DowngradeReason := reason |>)
             <| st_HeavyActionsDisabled := true |>) <| st_SelfExtDisabled := true |>)
             <| st_Mode := if decide (mode = "") then ModeSupervisedAutonomy else mode |>) in
    auditEvent "autonomy.downgraded" "".

Definition disableHeavyActions : AU unit :=
  let! disabled := state_of st_HeavyActionsDisabled in
  if disabled : bool then retS tt
  else
    let! _ := update_state (fun st => st <| st_HeavyActionsDisabled := true |>) in
    auditEvent "autonomy.heavy_actions_disabled" "".

Definition pressure_reason (score threshold : float64) : string :=
  "pressure_threshold_exceeded: " +:+ fmt_fixed 2 score +:+ " >= " +:+ fmt_fixed 2 threshold.

Definition check_pressure : AU unit :=
  match pv_pressure p with
  | None => retS tt
  | Some getPressure =>
      let! r := provider getPressure in
      let! threshold := peek (fun m => rt_Pressure (rk_Thresholds (ca_Risk (rn_cfg m)))) in
      if fleb threshold (fst r) then downgrade (pressure_reason (fst r) threshold) else retS tt
  end.

Definition check_overload : AU unit :=
  match pv_capacity p with
  | None => retS tt
  | Some getLoad =>
      let! load := provider getLoad in
      let! threshold := peek (fun m => rt_Overload (rk_Thresholds (ca_Risk (rn_cfg m)))) in
      if fleb threshold load then disableHeavyActions else retS tt
  end.

Definition runSafetyChecks : AU unit :=
  let! auto := peek (fun m => rk_AutoDowngrade (ca_Risk (rn_cfg m))) in
  if auto : bool then let! _ := check_pressure in check_overload else retS tt.

Definition checkRecovery : AU unit :=
  let! recovery := peek (fun m => rk_Recovery (ca_Risk (rn_cfg m))) in
  if negb (rv_AutoRestorePrevMode recovery) then retS tt
  else
    let! st := peek rn_state in
    if st_Downgraded st && bool_decide (rv_RequireConsecutiveHealthy recovery ≤ st_ConsecutiveHealthy st) then
      let! _ := update_state (fun st =>
        (((((st <| st_Mode := st_OriginalMode st |>) <| st_Downgraded := false |>) <| st_DowngradeReason := "" |>)
                <| st_HeavyActionsDisabled := false |>) <| st_SelfExtDisabled := false |>)
                <| st_ConsecutiveHealthy := 0 |>) in
      auditEvent "autonomy.mode_recovered" ""
    else retS tt.

(** ** Ticks *)

(** Name, whether it is enabled, whether it needs the execution window. *)
Definition allCycles (cfg : AutonomyConfig) : list (string * bool * bool) :=
  let g := ca_Governance cfg in
  [("reflection", gv_AllowReflection g, false);
   ("objective", gv_AllowObjectiveRecompute g, false);
   ("actuation", au_Enabled (ca_Actuation cfg) && au_AllowRun (ca_Actuation cfg), true);
   ("scheduling", sg_Enabled (ca_Scheduling cfg) && sg_AllowRecompute (ca_Scheduling cfg), true);
   ("portfolio", gv_AllowPortfolioRebalance g, true);
   ("discovery", gv_AllowDiscovery g, true);
   ("self_extension", sx_Enabled (ca_SelfExt cfg), true);
   ("task_recompute", bool_decide (is_Some (pv_taskOrchestrator p)), true);
   ("task_dispatch", bool_decide (is_Some (pv_taskOrchestrator p)), true);
   ("goal_planning", bool_decide (is_Some (pv_goalPlanning p)), true);
   ("goal_replanning", bool_decide (is_Some (pv_goalReplanning p)), true);
   ("reporting", ca_Reporting_Enabled cfg, false)].

Definition isAllowedOutsideWindow (cfg : AutonomyConfig) (cycle : string) : bool :=
  let ow := ew_Outside (ca_ExecWindow cfg) in
  if decide (cycle = "reflection") then ow_AllowReflection ow
  else if decide (cycle = "objective") then ow_AllowObjective ow
  else if decide (cycle = "reporting") then ow_AllowReporting ow
  else false.

(** The interval of the cycle has passed since it last ran. *)
Definition elapsed (cfg : AutonomyConfig) (last : gmap string time) (now : time) (cycle : string) : bool :=
  match last !! cycle with
  | None => true
  | Some lastRun => bool_decide (CycleDuration cfg cycle ≤ time_Sub now lastRun)
  end.

Definition is_due (m : Runtime) (now : time) (inWindow : bool) (c : string * bool * bool) : bool :=
  let '(name, enabled, inWindowReq) := c in
  enabled && (inWindow || negb inWindowReq || isAllowedOutsideWindow (rn_cfg m) name) &&
  elapsed (rn_cfg m) (st_LastCycleTimes (rn_state m)) now name.

Definition dueCycles (m : Runtime) (now : time) (inWindow : bool) : list string :=
  map (fun c => fst (fst c)) (List.filter (is_due m now inWindow) (allCycles (rn_cfg m))).

Definition run_named (cycle : string) : AU (option error) :=
  if decide (cycle = "reflection") then cycleReflection
  else if decide (cycle = "objective") then cycleObjective
  else if decide (cycle = "actuation") then cycleActuation
  else if decide (cycle = "scheduling") then cycleScheduling
  else if decide (cycle = "portfolio") then cyclePortfolio
  else if decide (cycle = "discovery") then cycleDiscovery
  else if decide (cycle = "self_extension") then cycleSelfExtension
  else if decide (cycle = "task_recompute") then cycleTaskRecompute
  else if decide (cycle = "task_dispatch") then cycleTaskDispatch
  else if decide (cycle = "goal_planning") then cycleGoalPlanning
  else if decide (cycle = "goal_replanning") then cycleGoalReplanning
  else if decide (cycle = "reporting") then cycleReporting
  else retS (Some (Errorf ("unknown cycle: " +:+ cycle))).

(** The bookkeeping of a cycle that ran. *)
Definition mark_run (cycle : string) (now : time) (st : RuntimeState) : RuntimeState :=
  (st <| st_LastCycleTimes := <[cycle := now]> (st_LastCycleTimes st) |>)
      <| st_CyclesRun := <[cycle := default 0 (st_CyclesRun st !! cycle) + 1]> (st_CyclesRun st) |>.

Definition runCycle (cycle : string) (now : time) : AU (option error) :=
  let! _ := auditEvent "autonomy.cycle_started" cycle in
  let! err := run_named cycle in
  let! _ := update_state (mark_run cycle now) in
  let! _ := auditEvent "autonomy.cycle_completed" cycle in
  retS err.

(** Whether all of them succeeded. *)
Fixpoint run_cycles (cycles : list string) (now : time) : AU bool :=
  match cycles with
  | [] => retS true
  | cycle :: cycles =>
      let! err := runCycle cycle now in
      let! ok := run_cycles cycles now in
      retS (match err with None => ok | Some _ => false end)
  end.

Definition count_outcome (cycleOK : bool) (now : time) (st : RuntimeState) : RuntimeState :=
  if cycleOK
  then (st <| st_ConsecutiveFailures := 0 |>) <| st_ConsecutiveHealthy := st_ConsecutiveHealthy st + 1 |>
  else ((st <| st_ConsecutiveFailures := st_ConsecutiveFailures st + 1 |>) <| st_ConsecutiveHealthy := 0 |>)
           <| st_LastError := "cycle failure at " +:+ local_rfc3339 now |>.

(** The part of a tick after the due cycles are known. *)
Definition work (cycles : list string) (now : time) : AU unit :=
  let! _ := update_state (fun st => st <| st_ActionsTakenThisCycle := 0 |>) in
  let! cycleOK := run_cycles cycles now in
  let! _ := update_state (count_outcome cycleOK now) in
  let! failures := state_of st_ConsecutiveFailures in
  let! limit := peek (fun m => lm_MaxConsecutiveFailedCycles (ca_Limits (rn_cfg m))) in
  let! _ := (if bool_decide (limit ≤ failures) then downgrade "max_consecutive_failed_cycles reached" else retS tt) in
  checkRecovery.

(** [false]: the goroutine, and with it the process, panics. *)
Definition tick : AU bool :=
  let! mode := state_of st_Mode in
  if decide (mode = ModeFrozen) then retS true
  else
    let! now := timeNow in
    let! inside := peek (fun m => IsInsideWindow (rn_cfg m) now) in
    match inside with
    | None => retS false
    | Some inWindow =>
        let! _ := Cleanup (72 * Hour) in
        let! _ := runSafetyChecks in
        let! cycles := peek (fun m => dueCycles m now inWindow) in
        match cycles with
        | [] => retS true
        | _ :: _ => let! _ := work cycles now in retS true
        end
    end.

(** The period of [loop]'s ticker. *)
Definition tick_period (cfg : AutonomyConfig) : Z :=
  let period := wrap64 (sd_TickSeconds (ca_Scheduler cfg) * Second) in
  if bool_decide (period ≤ 0) then 60 * Second else period.

(** ** Start and stop, and the operator's calls *)

(** One bootstrap cycle; its error is only logged. *)
Definition bootstrap (on : bool) (cycle : string) (run : AU (option error)) : AU unit :=
  if on then
    let! _ := run in
    let! now := timeNow in
    update_state (mark_run cycle now)
  else retS tt.

Definition runBootstrap : AU unit :=
  let! bs := peek (fun m => sd_Bootstrap (ca_Scheduler (rn_cfg m))) in
  let! _ := bootstrap (bs_RunReflectionOnce bs) "reflection" cycleReflection in
  let! _ := bootstrap (bs_RunObjectiveOnce bs) "objective" cycleObjective in
  let! _ := bootstrap (bs_RunActuationOnce bs) "actuation" cycleActuation in
  bootstrap (bs_RunReportingOnce bs) "reporting" cycleReporting.

Definition set_startup_mode (startup : string) : AU unit :=
  match pv_governance p with
  | Some g =>
      if decide (startup = "") then retS tt
      else dropped (provider (GovernanceSetMode g startup "autonomy orchestrator startup"))
  | None => retS tt
  end.

Definition Start : AU (option error) :=
  let! running := state_of st_Running in
  if running : bool then retS (Some (Errorf "orchestrator already running"))
  else
    let! now := timeNow in
    let! cfg := peek rn_cfg in
    let! _ := update_state (fun st =>
      (((st <| st_Running := true |>) <| st_StartedAt := Some now |>) <| st_Mode := ca_Mode cfg |>)
           <| st_OriginalMode := ca_Mode cfg |>) in
    let! _ := set_startup_mode (gv_StartupMode (ca_Governance cfg)) in
    let! _ := auditEvent "autonomy.started" "" in
    let! _ := runBootstrap in
    retS None.

Definition Stop : AU unit :=
  let! running := state_of st_Running in
  if negb running then retS tt
  else
    let! _ := update_state (fun st => st <| st_Running := false |>) in
    auditEvent "autonomy.stopped" "".

Definition clear_downgrade (mode : string) (st : RuntimeState) : RuntimeState :=
  ((st <| st_Mode := mode |>) <| st_Downgraded := false |>) <| st_DowngradeReason := "" |>.

Definition ReloadConfig (cfg : AutonomyConfig) : AU (option error) :=
  match Validate cfg with
  | Some err => retS (Some err)
  | None =>
      let! _ := poke (fun m => m <| rn_cfg := cfg |>) in
      let! _ := update_state (fun st =>
        (((((clear_downgrade (ca_Mode cfg) st) <| st_OriginalMode := ca_Mode cfg |>)
             <| st_HeavyActionsDisabled := false |>) <| st_SelfExtDisabled := false |>)
             <| st_ConsecutiveFailures := 0 |>) <| st_ConsecutiveHealthy := 0 |>) in
      let! _ := auditEvent "autonomy.config_reloaded" "" in
      retS None
  end.

Definition SetMode (mode : string) : AU (option error) :=
  if negb (bool_decide (mode ∈ validModes)) then retS (Some (Errorf ("invalid mode: " +:+ mode)))
  else
    let! _ := update_state (clear_downgrade mode) in
    let! _ := auditEvent "autonomy.mode_changed" "" in
    retS None.

(** ** Feedback for reflection and objective *)

Record ReflectionFeedbackSignal := mkFeedbackSignal {
  fs_Signal : string;
  fs_Outcome : string;
  fs_Success : bool;
  fs_TaskID : string;
  fs_CreatedAt : time
}.

Record ObjectiveFeedbackMetrics := mkFeedbackMetrics {
  fm_SuccessRate : float64;
  fm_CompletedCount : Z;
  fm_FailedCount : Z;
  fm_AbortedCount : Z;
  fm_BlockedCount : Z;
  fm_RepeatedFailures : Z;
  fm_TotalExecutions : Z;
  fm_MeasuredSince : time
}.

Definition feedback_signal (fb : ExecutionFeedback) : ReflectionFeedbackSignal :=
  mkFeedbackSignal (fb_SemanticSignal fb) (fb_OutcomeType fb) (fb_Success fb) (fb_TaskID fb) (fb_CreatedAt fb).

Definition recent_signals (since : time) (recent : list ExecutionFeedback) : list ReflectionFeedbackSignal :=
  map feedback_signal (List.filter (fun fb => negb (bool_decide (fb_CreatedAt fb < since))) recent).

Definition GetReflectionFeedback : AU (res (list ReflectionFeedbackSignal)) :=
  match pv_feedbackStore p with
  | None => retS (Ok [])
  | Some store =>
      let! now := timeNow in
      let! r := provider (FeedbackListRecent store 50) in
      match r with
      | Err err => retS (Err (wrap "list recent feedback: " err))
      | Ok recent =>
          let signals := recent_signals (now - 24 * Hour) recent in
          let! _ := (match signals with [] => retS tt | _ => auditEvent "execution.feedback_exposed_to_reflection" "" end) in
          retS (Ok signals)
      end
  end.

Definition success_rate (completed total : Z) : float64 :=
  if bool_decide (0 < total) then fdiv (f_of_Z completed) (f_of_Z total) else f0.

(** A count that fails is used as it comes back. *)
Definition GetObjectiveFeedback : AU ObjectiveFeedbackMetrics :=
  match pv_feedbackStore p with
  | None => retS (mkFeedbackMetrics f0 0 0 0 0 0 0 zero_time)
  | Some store =>
      let! now := timeNow in
      let since := now - 24 * Hour in
      let! completed := provider (CountByOutcome store "completed" since) in
      let! failed := provider (CountByOutcome store "failed" since) in
      let! aborted := provider (CountByOutcome store "aborted" since) in
      let! blocked := provider (CountByOutcome store "blocked" since) in
      let! repeated := provider (CountBySignal store "repeated_failure" since) in
      let total := fst completed + fst failed + fst aborted + fst blocked in
      let! _ := auditEvent "execution.feedback_exposed_to_objective" "" in
      retS (mkFeedbackMetrics (success_rate (fst completed) total) (fst completed) (fst failed) (fst aborted)
              (fst blocked) (fst repeated) total since)
  end.
End runtime.
