(* ===== verification/AutonomyProps.v ===== *)
(** * The autonomy runtime's control

    Which cycles a tick runs, and how the mode moves: every operation refines an
    abstract machine over the mode, the flags and the two counters. *)

From stdpp Require Import base gmap strings list tactics numbers fin_maps.
From Stdlib Require Import ZArith Lia.
From S2P Require Import Prelude GoFloat Models GoTime AgentWorld AutonomyConfig Autonomy.

Open Scope Z_scope.

(** ** Computations that keep a part of the memory *)

Create HintDb keeps.

Section keeps.
Context {X B : Type} (f : Runtime → B).
Abbreviation AU A := (St (Agent Runtime X) A).

Definition keeps {A} (c : AU A) : Prop := ∀ s, f (ag_db (snd (c s))) = f (ag_db s).

Lemma keeps_ret {A} (a : A) : keeps (retS a).
Proof using. by intros s. Qed.

Lemma keeps_bind {A C} (c : AU A) (k : A → AU C) : keeps c → (∀ a, keeps (k a)) → keeps (bindS c k).
Proof using. intros Hc Hk s. rewrite bindS_run. by rewrite Hk, Hc. Qed.

Lemma keeps_reading {A} (g : nat → A) : keeps (reading g).
Proof using. by intros s. Qed.

Lemma keeps_fresh {U : UuidPkg} : keeps fresh_uuid.
Proof using. by intros s. Qed.

Lemma keeps_audit on ev id : keeps (record_audit on ev id).
Proof using. intros s. by destruct on. Qed.

Lemma keeps_provider {A} (c : St X A) : keeps (provider c).
Proof using. intros s. unfold provider. by destruct (c (ag_ext s)). Qed.

Lemma keeps_peek {A} (g : Runtime → A) : keeps (peek g).
Proof using. by intros s. Qed.

Lemma keeps_poke g : (∀ m, f (g m) = f m) → keeps (poke g).
Proof using. intros H s. apply H. Qed.

Lemma keeps_dropped {A} (c : AU A) : keeps c → keeps (dropped c).
Proof using. intros H. apply keeps_bind; [done|]. intros a. apply keeps_ret. Qed.

Lemma keeps_forS {A} (k : A → AU unit) l : (∀ a, keeps (k a)) → keeps (forS k l).
Proof using. intros Hk. induction l as [|a l IH]; [apply keeps_ret|]. by apply keeps_bind. Qed.
End keeps.

#[export] Hint Resolve keeps_ret keeps_reading keeps_fresh keeps_audit keeps_provider keeps_peek : keeps.

(** Decompose a computation; updates of memory are left to computation. *)
Ltac keeps_steps :=
  repeat first
    [ progress auto with keeps
    | progress intros
    | apply keeps_bind
    | apply keeps_dropped
    | apply keeps_forS
    | match goal with |- keeps _ (match ?x with _ => _ end) => destruct x end
    | apply keeps_poke; intros; reflexivity ].

(** ** The abstract control *)

Record Control := mkControl {
  ct_Mode : string;
  ct_OriginalMode : string;
  ct_Running : bool;
  ct_Downgraded : bool;
  ct_HeavyDisabled : bool;
  ct_SelfExtDisabled : bool;
  ct_Failures : Z;
  ct_Healthy : Z
}.

#[export] Instance Control_settable : Settable Control := fun r =>
  mkControl (ct_Mode r) (ct_OriginalMode r) (ct_Running r) (ct_Downgraded r) (ct_HeavyDisabled r) (ct_SelfExtDisabled r)
    (ct_Failures r) (ct_Healthy r).

Definition control (st : RuntimeState) : Control :=
  mkControl (st_Mode st) (st_OriginalMode st) (st_Running st) (st_Downgraded st) (st_HeavyActionsDisabled st)
    (st_SelfExtDisabled st) (st_ConsecutiveFailures st) (st_ConsecutiveHealthy st).

Section spec.
Context (cfg : AutonomyConfig).

Definition downgrade_target : string :=
  if decide (rk_DowngradeMode (ca_Risk cfg) = "") then ModeSupervisedAutonomy else rk_DowngradeMode (ca_Risk cfg).

Definition spec_down (c : Control) : Control :=
  if ct_Downgraded c then c
  else mkControl downgrade_target (ct_OriginalMode c) (ct_Running c) true true true (ct_Failures c) (ct_Healthy c).

Definition spec_recover (c : Control) : Control :=
  if rv_AutoRestorePrevMode (rk_Recovery (ca_Risk cfg)) && ct_Downgraded c &&
     bool_decide (rv_RequireConsecutiveHealthy (rk_Recovery (ca_Risk cfg)) ≤ ct_Healthy c)
  then mkControl (ct_OriginalMode c) (ct_OriginalMode c) (ct_Running c) false false false (ct_Failures c) 0
  else c.

(** The safety checks, given what they found. *)
Definition spec_safety (breach overload : bool) (c : Control) : Control :=
  if rk_AutoDowngrade (ca_Risk cfg) then
    let c := if breach then spec_down c else c in
    if overload then c <| ct_HeavyDisabled := true |> else c
  else c.

Definition spec_count (ok : bool) (c : Control) : Control :=
  if ok then (c <| ct_Failures := 0 |>) <| ct_Healthy := ct_Healthy c + 1 |>
  else (c <| ct_Failures := ct_Failures c + 1 |>) <| ct_Healthy := 0 |>.

Definition spec_outcome (ok : bool) (c : Control) : Control :=
  let c := spec_count ok c in
  spec_recover (if bool_decide (lm_MaxConsecutiveFailedCycles (ca_Limits cfg) ≤ ct_Failures c) then spec_down c else c).

(** A tick: [None] when no cycle is due, else whether all due cycles succeeded. *)
Definition spec_tick (breach overload : bool) (outcome : option bool) (c : Control) : Control :=
  if decide (ct_Mode c = ModeFrozen) then c
  else
    let c := spec_safety breach overload c in
    match outcome with None => c | Some ok => spec_outcome ok c end.
End spec.

(** Memory without counters, dedupe table and reports. *)
Definition core (m : Runtime) : AutonomyConfig * Control * gmap string time * gmap string Z :=
  (rn_cfg m, control (rn_state m), st_LastCycleTimes (rn_state m), st_CyclesRun (rn_state m)).

Lemma core_fields m cfg c last runs :
  core m = (cfg, c, last, runs) →
  rn_cfg m = cfg ∧ control (rn_state m) = c ∧ st_LastCycleTimes (rn_state m) = last ∧ st_CyclesRun (rn_state m) = runs.
Proof.
  intros H. split_and!; [exact (f_equal (fun x => fst (fst (fst x))) H)|exact (f_equal (fun x => snd (fst (fst x))) H)|
    exact (f_equal (fun x => snd (fst x)) H)|exact (f_equal snd H)].
Qed.

Section runtime.
Context {X : Type} {Zn : LocalZone} {U : UuidPkg} (p : Providers X).
Abbreviation AU A := (St (Agent Runtime X) A).
Abbreviation still := (keeps (X := X) core).

(** *** Cycles leave the core alone *)

Lemma IsDuplicate_still key window : still (IsDuplicate p key window).
Proof using. unfold IsDuplicate, timeNow. keeps_steps. Qed.

Lemma route_still heavy ds queued suppressed : still (route_decisions p heavy ds queued suppressed).
Proof using.
  revert queued suppressed. induction ds as [|d ds IH]; intros queued suppressed; cbn [route_decisions]; [keeps_steps|].
  destruct (negb (proposed d)); [apply IH|]. unfold state_of, update_state, auditEvent.
  apply keeps_bind; [keeps_steps|]. intros window. apply keeps_bind; [apply IsDuplicate_still|]. intros seen.
  keeps_steps; apply IH.
Qed.

Lemma materialize_still d : still (MaterializeDecisionAsTask p d).
Proof using. unfold MaterializeDecisionAsTask, state_of, auditEvent. cbv zeta. keeps_steps. Qed.

Lemma materialize_all_still ds created : still (materialize_decisions p ds created).
Proof using.
  revert created. induction ds as [|d ds IH]; intros created; cbn [materialize_decisions]; [keeps_steps|].
  destruct (_ || _); [apply IH|]. apply keeps_bind; [apply materialize_still|]. intros r0. apply IH.
Qed.

Lemma recordFeedback_still task exec kind success signal : still (recordFeedback p task exec kind success signal).
Proof using. unfold recordFeedback, generateID, timeNow, update_state, auditEvent. keeps_steps. Qed.

Lemma move_still (call : St X (option error)) after moved : still after → still (move_task call after moved).
Proof using. intros H. unfold move_task. keeps_steps. Qed.

Lemma propagate_task_still t task exec : still (propagate_task p t task exec).
Proof using.
  unfold propagate_task, auditEvent. cbv zeta.
  repeat first [apply move_still | apply recordFeedback_still | progress keeps_steps].
Qed.

Lemma propagate_all_still t getTask running counts : still (propagate_all p t getTask running counts).
Proof using.
  revert counts. induction running as [|task running IH]; intros counts; cbn [propagate_all]; [keeps_steps|].
  case_decide; [apply IH|]. apply keeps_bind; [keeps_steps|]. intros [exec|]; [|apply IH].
  apply keeps_bind; [apply propagate_task_still|]. intros x. apply IH.
Qed.

Lemma Propagate_still : still (PropagateExecutionResults p).
Proof using.
  unfold PropagateExecutionResults. destruct (pv_taskOrchestrator p), (pv_executionLoop p); try apply keeps_ret.
  apply keeps_bind; [keeps_steps|]. intros [running|]; [|keeps_steps].
  apply keeps_bind; [apply propagate_all_still|]. keeps_steps.
Qed.

Lemma review_extension_still disabled x : still (review_extension p disabled x).
Proof using.
  unfold review_extension, block_extension, update_state, auditEvent. destruct (negb _); [keeps_steps|].
  apply keeps_bind; [keeps_steps|]. intros window. apply keeps_bind; [apply IsDuplicate_still|]. keeps_steps.
Qed.

Lemma run_named_still cycle : still (run_named p cycle).
Proof using.
  unfold run_named, cycleReflection, cycleObjective, cycleScheduling, cyclePortfolio, cycleDiscovery,
    cycleTaskDispatch, cycleGoalPlanning, cycleGoalReplanning, cycleReporting,
    unless_frozen, link_execution, objective_snapshot, storeReport,
    timeNow, state_of, update_state, auditEvent.
  repeat case_decide; try (keeps_steps; fail).
  - unfold cycleActuation, state_of, update_state. destruct (pv_actuation p); [|keeps_steps].
    apply keeps_bind; [keeps_steps|]. intros [?|]; [|keeps_steps]. apply keeps_bind; [keeps_steps|]. intros heavy.
    apply keeps_bind; [keeps_steps|]. intros ds. cbv zeta. apply keeps_bind; [apply route_still|]. intros counts.
    apply keeps_bind; [keeps_steps|]. intros _. apply keeps_bind; [apply materialize_all_still|]. keeps_steps.
  - unfold cycleSelfExtension, state_of. destruct (pv_selfExt p); [|keeps_steps].
    apply keeps_bind; [keeps_steps|]. intros disabled. apply keeps_bind; [keeps_steps|]. intros [xs|]; [|keeps_steps].
    apply keeps_bind; [|keeps_steps]. apply keeps_forS. intros x. apply review_extension_still.
  - unfold cycleTaskRecompute, unless_frozen, state_of, update_state, auditEvent.
    destruct (pv_taskOrchestrator p); [|keeps_steps]. apply keeps_bind; [keeps_steps|]. intros mode.
    case_decide; [keeps_steps|]. apply keeps_bind; [keeps_steps|]. intros _.
    apply keeps_bind; [apply Propagate_still|]. keeps_steps.
Qed.

(** *** The safety kernel *)

Definition with_core (m : Runtime) (c : Control) : AutonomyConfig * Control * gmap string time * gmap string Z :=
  (rn_cfg m, c, st_LastCycleTimes (rn_state m), st_CyclesRun (rn_state m)).

(** [c] moves the control as [f] says and leaves the providers alone. *)
Definition moves {A} (f : AutonomyConfig → Control → Control) (c : AU A) : Prop :=
  ∀ s, core (ag_db (snd (c s))) = with_core (ag_db s) (f (rn_cfg (ag_db s)) (control (rn_state (ag_db s)))) ∧
       ag_ext (snd (c s)) = ag_ext s.

Lemma downgrade_moves reason : moves spec_down (downgrade p reason).
Proof using.
  intros s. unfold downgrade, state_of, update_state, auditEvent, spec_down. cbn.
  destruct (st_Downgraded _); [done|]. rewrite !bindS_run. unfold record_audit. by destruct (pv_auditor p).
Qed.

Lemma disableHeavy_moves : moves (fun _ c => c <| ct_HeavyDisabled := true |>) (disableHeavyActions p).
Proof using.
  intros s. unfold disableHeavyActions, state_of, update_state, auditEvent. cbn.
  destruct (st_HeavyActionsDisabled _) eqn:E.
  - split; [|done]. cbn. unfold core, with_core, control. cbn. by rewrite E.
  - rewrite !bindS_run. unfold record_audit. by destruct (pv_auditor p).
Qed.

Lemma checkRecovery_moves : moves spec_recover (checkRecovery p).
Proof using.
  intros s. unfold checkRecovery, update_state, auditEvent, spec_recover. cbn.
  destruct (rv_AutoRestorePrevMode _); [|done]. cbn.
  destruct (st_Downgraded _ && _); [|done]. rewrite !bindS_run. unfold record_audit. by destruct (pv_auditor p).
Qed.

(** What the checks find: the pressure is read first. *)
Definition pressure_breach (s : Agent Runtime X) : bool :=
  match pv_pressure p with
  | None => false
  | Some g => fleb (rt_Pressure (rk_Thresholds (ca_Risk (rn_cfg (ag_db s))))) (fst (fst (g (ag_ext s))))
  end.

Definition after_pressure (x : X) : X := match pv_pressure p with None => x | Some g => snd (g x) end.

Definition overload_breach (s : Agent Runtime X) : bool :=
  match pv_capacity p with
  | None => false
  | Some g => fleb (rt_Overload (rk_Thresholds (ca_Risk (rn_cfg (ag_db s))))) (fst (g (after_pressure (ag_ext s))))
  end.

Lemma moves_core {A} f (c : AU A) (s s0 : Agent Runtime X) :
  moves f c → core (ag_db s) = core (ag_db s0) →
  core (ag_db (snd (c s))) = with_core (ag_db s0) (f (rn_cfg (ag_db s0)) (control (rn_state (ag_db s0)))).
Proof using.
  intros Hm Hs. rewrite (proj1 (Hm s)). apply core_fields in Hs as (H1 & H2 & H3 & H4).
  unfold with_core. by rewrite H1, H2, H3, H4.
Qed.

Lemma provider_run {A} (g : St X A) (s : Agent Runtime X) :
  provider g s = (fst (g (ag_ext s)), s <| ag_ext := snd (g (ag_ext s)) |>).
Proof using. unfold provider. by destruct (g (ag_ext s)). Qed.

Lemma check_pressure_run (s : Agent Runtime X) :
  core (ag_db (snd (check_pressure p s))) =
    with_core (ag_db s) (if pressure_breach s then spec_down (rn_cfg (ag_db s)) (control (rn_state (ag_db s)))
                         else control (rn_state (ag_db s))) ∧
  ag_ext (snd (check_pressure p s)) = after_pressure (ag_ext s).
Proof using.
  unfold check_pressure, pressure_breach, after_pressure. destruct (pv_pressure p) as [g|]; [|done].
  rewrite bindS_run, provider_run. cbn [fst snd]. rewrite bindS_run. cbn [peek fst snd].
  destruct (fleb _ _); [|done]. split.
  - by apply (moves_core _ _ _ s (downgrade_moves _)).
  - by rewrite (proj2 (downgrade_moves _ _)).
Qed.

Lemma check_overload_run (s : Agent Runtime X) (found : bool) :
  found = match pv_capacity p with
          | None => false
          | Some g => fleb (rt_Overload (rk_Thresholds (ca_Risk (rn_cfg (ag_db s))))) (fst (g (ag_ext s)))
          end →
  core (ag_db (snd (check_overload p s))) =
    with_core (ag_db s) (if found then (control (rn_state (ag_db s))) <| ct_HeavyDisabled := true |>
                         else control (rn_state (ag_db s))).
Proof using.
  intros ->. unfold check_overload. destruct (pv_capacity p) as [g|]; [|done].
  rewrite bindS_run, provider_run. cbn [fst snd]. rewrite bindS_run. cbn [peek fst snd].
  destruct (fleb _ _); [|done]. by apply (moves_core _ _ _ s disableHeavy_moves).
Qed.

Lemma safety_run (s : Agent Runtime X) :
  core (ag_db (snd (runSafetyChecks p s))) =
    with_core (ag_db s) (spec_safety (rn_cfg (ag_db s)) (pressure_breach s) (overload_breach s) (control (rn_state (ag_db s)))).
Proof using.
  unfold runSafetyChecks, spec_safety. rewrite bindS_run. cbn [peek fst snd].
  destruct (rk_AutoDowngrade _); [|done]. rewrite bindS_run. destruct (check_pressure_run s) as [H1 H2].
  set (s1 := snd (check_pressure p s)) in *. rewrite (check_overload_run s1 (overload_breach s)).
  - apply core_fields in H1 as (E1 & E2 & E3 & E4). unfold with_core. by rewrite E1, E2, E3, E4.
  - unfold overload_breach. apply core_fields in H1 as (E1 & _). by rewrite E1, H2.
Qed.

(** *** Cycles *)

Definition mark_all (cycles : list string) (now : time) (last : gmap string time) : gmap string time :=
  fold_left (fun m c => <[c := now]> m) cycles last.

Definition count_all (cycles : list string) (runs : gmap string Z) : gmap string Z :=
  fold_left (fun m c => <[c := default 0 (m !! c) + 1]> m) cycles runs.

Lemma runCycle_core cycle now (s : Agent Runtime X) m :
  core (ag_db s) = core m →
  core (ag_db (snd (runCycle p cycle now s))) =
    (rn_cfg m, control (rn_state m), <[cycle := now]> (st_LastCycleTimes (rn_state m)),
     <[cycle := default 0 (st_CyclesRun (rn_state m) !! cycle) + 1]> (st_CyclesRun (rn_state m))).
Proof using.
  intros Hs. unfold runCycle, update_state, auditEvent. rewrite !bindS_run.
  set (s1 := snd (record_audit _ _ _ s)).
  assert (H1 : core (ag_db s1) = core m) by (rewrite <- Hs; apply (keeps_audit core)).
  pose proof (run_named_still cycle s1) as H2. set (s2 := snd (run_named p cycle s1)) in *.
  rewrite H1 in H2. cbn [retS snd]. rewrite (keeps_audit core). cbn [poke snd].
  apply core_fields in H2 as (E1 & E2 & E3 & E4). unfold core. cbn. rewrite E1, E3, E4, <- E2. done.
Qed.

Lemma run_cycles_core cycles now (s : Agent Runtime X) :
  core (ag_db (snd (run_cycles p cycles now s))) =
    (rn_cfg (ag_db s), control (rn_state (ag_db s)), mark_all cycles now (st_LastCycleTimes (rn_state (ag_db s))),
     count_all cycles (st_CyclesRun (rn_state (ag_db s)))).
Proof using.
  revert s. induction cycles as [|cycle cycles IH]; intros s; cbn [run_cycles]; [done|].
  rewrite !bindS_run. cbn [retS snd]. rewrite IH. pose proof (runCycle_core cycle now s (ag_db s) eq_refl) as H.
  apply core_fields in H as (-> & -> & -> & ->). done.
Qed.
End runtime.
