(* ===== verification/AutonomyControl.v ===== *)
(** * Ticks and operator calls refine the abstract control

    What a tick runs and where the mode goes; the pace of each cycle over any
    history; the reports kept. *)

From stdpp Require Import base gmap strings list tactics numbers fin_maps.
From Stdlib Require Import ZArith Lia.
From S2P Require Import Prelude GoFloat Models GoTime AgentWorld AutonomyConfig Autonomy AutonomyProps.

Open Scope Z_scope.

(** ** Operations *)

Inductive AuOp : Type :=
| OpTick
| OpStart
| OpStop
| OpReload (cfg : AutonomyConfig)
| OpSetMode (mode : string)
| OpException (trigger : string)
| OpFeedback.                          (* both feedback readings *)

(** What the operations other than ticks do to configuration and control. *)
Definition spec_call (op : AuOp) (cfg : AutonomyConfig) (c : Control) : AutonomyConfig * Control :=
  match op with
  | OpStart =>
      (cfg, if ct_Running c then c
            else ((c <| ct_Running := true |>) <| ct_Mode := ca_Mode cfg |>) <| ct_OriginalMode := ca_Mode cfg |>)
  | OpStop => (cfg, c <| ct_Running := false |>)
  | OpReload cfg' =>
      match Validate cfg' with
      | Some _ => (cfg, c)
      | None => (cfg', mkControl (ca_Mode cfg') (ca_Mode cfg') (ct_Running c) false false false 0 0)
      end
  | OpSetMode mode =>
      (cfg, if bool_decide (mode ∈ validModes) then (c <| ct_Mode := mode |>) <| ct_Downgraded := false |> else c)
  | _ => (cfg, c)
  end.

Section runtime.
Context {X : Type} {Zn : LocalZone} {U : UuidPkg} (p : Providers X).
Abbreviation AU A := (St (Agent Runtime X) A).

Definition exec_au (op : AuOp) : AU unit :=
  match op with
  | OpTick => dropped (tick p)
  | OpStart => dropped (Start p)
  | OpStop => Stop p
  | OpReload cfg => dropped (ReloadConfig p cfg)
  | OpSetMode mode => dropped (SetMode p mode)
  | OpException trigger => CreateExceptionReport p trigger
  | OpFeedback => let! _ := dropped (GetReflectionFeedback p) in dropped (GetObjectiveFeedback p)
  end.

(** ** Ticks *)

Lemma dueCycles_core m m' now inWindow :
  rn_cfg m = rn_cfg m' → st_LastCycleTimes (rn_state m) = st_LastCycleTimes (rn_state m') →
  dueCycles p m now inWindow = dueCycles p m' now inWindow.
Proof using.
  intros H1 H2. unfold dueCycles. rewrite H1. f_equal. apply filter_ext. intros [[name enabled] req].
  unfold is_due. by rewrite H1, H2.
Qed.

Definition due_now (m : Runtime) (now : time) (inWindow : bool) : list string :=
  if decide (st_Mode (rn_state m) = ModeFrozen) then [] else dueCycles p m now inWindow.

Lemma Cleanup_core maxAge : keeps core (Cleanup p maxAge).
Proof using. unfold Cleanup, timeNow. keeps_steps. Qed.

Lemma Cleanup_ext maxAge (s : Agent Runtime X) : ag_ext (snd (Cleanup p maxAge s)) = ag_ext s.
Proof using. done. Qed.

Lemma fail_check_core (b : bool) reason (s : Agent Runtime X) :
  core (ag_db (snd ((if b then downgrade p reason else retS tt) s))) =
    with_core (ag_db s) (if b then spec_down (rn_cfg (ag_db s)) (control (rn_state (ag_db s))) else control (rn_state (ag_db s))).
Proof using. destruct b; [exact (proj1 (downgrade_moves p reason s))|done]. Qed.

(** The end of a tick, after the cycles have run. *)
Lemma work_core cycles now (s : Agent Runtime X) :
  ∃ s1 ok, ok = fst (run_cycles p cycles now s1) ∧
    core (ag_db (snd (work p cycles now s))) =
      (rn_cfg (ag_db s), spec_outcome (rn_cfg (ag_db s)) ok (control (rn_state (ag_db s))),
       mark_all cycles now (st_LastCycleTimes (rn_state (ag_db s))), count_all cycles (st_CyclesRun (rn_state (ag_db s)))).
Proof using.
  unfold work, update_state, state_of. rewrite bindS_run. set (s1 := snd (poke _ s)). rewrite bindS_run.
  exists s1, (fst (run_cycles p cycles now s1)). split; [done|].
  set (ok := fst (run_cycles p cycles now s1)). pose proof (run_cycles_core p cycles now s1) as H.
  set (s2 := snd (run_cycles p cycles now s1)) in *. clearbody s2 ok.
  apply core_fields in H as (E1 & E2 & E3 & E4). change (rn_cfg (ag_db s2) = rn_cfg (ag_db s)) in E1.
  change (control (rn_state (ag_db s2)) = control (rn_state (ag_db s))) in E2.
  change (st_LastCycleTimes (rn_state (ag_db s2)) = mark_all cycles now (st_LastCycleTimes (rn_state (ag_db s)))) in E3.
  change (st_CyclesRun (rn_state (ag_db s2)) = count_all cycles (st_CyclesRun (rn_state (ag_db s)))) in E4. rewrite bindS_run. set (s3 := snd (poke _ s2)).
  assert (H3 : core (ag_db s3) = (rn_cfg (ag_db s), spec_count ok (control (rn_state (ag_db s))),
      mark_all cycles now (st_LastCycleTimes (rn_state (ag_db s))), count_all cycles (st_CyclesRun (rn_state (ag_db s))))).
  { rewrite <- E1, <- E2, <- E3, <- E4. unfold s3, core, count_outcome. by destruct ok. }
  clearbody s3. apply core_fields in H3 as (F1 & F2 & F3 & F4). do 2 (rewrite bindS_run; cbn [peek fst snd]).
  rewrite bindS_run. set (failed := bool_decide _). pose proof (fail_check_core failed "max_consecutive_failed_cycles reached" s3) as H4.
  set (s4 := snd (_ s3)) in *. apply core_fields in H4 as (G1 & G2 & G3 & G4).
  rewrite (proj1 (checkRecovery_moves p s4)). unfold with_core. rewrite G1, G2, G3, G4, F1, F3, F4.
  unfold failed, spec_outcome. cbv zeta. rewrite <- F2, <- F1. done.
Qed.

(** C34: A tick with a valid configuration does not panic; it runs exactly the due
    cycles (none in frozen mode), once each, stamps and counts them, and moves
    mode, flags and counters as the abstract control says for what the safety
    checks found and for whether every cycle succeeded. *)
Theorem tick_refines_control (s : Agent Runtime X) :
  let m := ag_db s in let now := pv_clock p (ag_reads s) in
  Validate (rn_cfg m) = None →
  ∃ inWindow outcome,
    IsInsideWindow (rn_cfg m) now = Some inWindow ∧ fst (tick p s) = true ∧
    core (ag_db (snd (tick p s))) =
      (rn_cfg m, spec_tick (rn_cfg m) (pressure_breach p s) (overload_breach p s) outcome (control (rn_state m)),
       mark_all (due_now m now inWindow) now (st_LastCycleTimes (rn_state m)),
       count_all (due_now m now inWindow) (st_CyclesRun (rn_state m))) ∧
    match outcome with
    | None => due_now m now inWindow = []
    | Some ok => due_now m now inWindow ≠ [] ∧ ∃ s1, ok = fst (run_cycles p (due_now m now inWindow) now s1)
    end.
Proof using.
  intros m now Hvalid. destruct (validated_window (rn_cfg m) now Hvalid) as [inWindow Hwin].
  exists inWindow. unfold tick, state_of, due_now. rewrite bindS_run. cbn [peek fst snd].
  fold m. unfold spec_tick. cbn [ct_Mode control].
  destruct (decide (st_Mode (rn_state m) = ModeFrozen)) as [Hfrozen|Hlive]; [by exists None|].
  rewrite bindS_run. unfold timeNow. cbn [reading fst snd]. fold now. rewrite bindS_run. cbn [peek fst snd].
  change (rn_cfg (ag_db (s <| ag_reads := S (ag_reads s) |>))) with (rn_cfg m). rewrite Hwin. rewrite bindS_run.
  set (s0 := s <| ag_reads := S (ag_reads s) |>). set (s1 := snd (Cleanup p (72 * Hour) s0)).
  assert (H1 : core (ag_db s1) = core m) by exact (Cleanup_core (72 * Hour) s0).
  assert (X1 : ag_ext s1 = ag_ext s) by done. clearbody s1. rewrite bindS_run.
  apply core_fields in H1 as (E1 & E2 & E3 & E4). pose proof (safety_run p s1) as H2.
  assert (pressure_breach p s1 = pressure_breach p s) as HP by (unfold pressure_breach; by rewrite E1, X1).
  assert (overload_breach p s1 = overload_breach p s) as HO by (unfold overload_breach; by rewrite E1, X1).
  rewrite HP, HO, E1, E2 in H2. unfold with_core in H2. rewrite E1, E3, E4 in H2.
  set (s2 := snd (runSafetyChecks p s1)) in *. clearbody s2. rewrite bindS_run. cbn [peek fst snd].
  pose proof (core_fields _ _ _ _ _ H2) as (F1 & F2 & F3 & F4). rewrite (dueCycles_core _ m) by done.
  destruct (dueCycles p m now inWindow) as [|cycle cycles] eqn:Edue.
  - exists None. split_and!; [done|done| |done]. exact H2.
  - rewrite bindS_run. cbn [fst snd retS]. destruct (work_core (cycle :: cycles) now s2) as (s3 & ok & Hok & H3).
    exists (Some ok). split_and!; [done|done| |done|by exists s3]. by rewrite H3, F1, F2, F3, F4.
Qed.

(** ** Other calls *)

Definition ctl (m : Runtime) : AutonomyConfig * Control := (rn_cfg m, control (rn_state m)).

Lemma keeps_ctl {A} (c : AU A) : keeps core c → keeps ctl c.
Proof using.
  intros H s. specialize (H s). unfold core in H. apply (f_equal fst), (f_equal fst) in H. exact H.
Qed.

Lemma run_named_ctl cycle : keeps ctl (run_named p cycle).
Proof using. apply keeps_ctl, run_named_still. Qed.

Lemma bootstrap_ctl on cycle run : keeps ctl run → keeps ctl (bootstrap p on cycle run).
Proof using.
  intros H. unfold bootstrap, timeNow, update_state. destruct on; [|apply keeps_ret].
  apply keeps_bind; [exact H|]. intros err. keeps_steps.
Qed.

Lemma runBootstrap_ctl : keeps ctl (runBootstrap p).
Proof using.
  unfold runBootstrap. apply keeps_bind; [keeps_steps|]. intros bs.
  apply keeps_bind; [apply bootstrap_ctl, (run_named_ctl "reflection")|]. intros ?.
  apply keeps_bind; [apply bootstrap_ctl, (run_named_ctl "objective")|]. intros ?.
  apply keeps_bind; [apply bootstrap_ctl, (run_named_ctl "actuation")|]. intros ?.
  apply bootstrap_ctl, (run_named_ctl "reporting").
Qed.

Lemma feedback_still : keeps core (exec_au OpFeedback).
Proof using.
  unfold exec_au, GetReflectionFeedback, GetObjectiveFeedback, timeNow, auditEvent. cbv zeta. keeps_steps.
Qed.

Lemma exception_still trigger : keeps core (CreateExceptionReport p trigger).
Proof using. unfold CreateExceptionReport, storeReport, timeNow, auditEvent. keeps_steps. Qed.

(** Every call other than a tick moves configuration and control exactly as
    the abstract machine does: starting takes the configured mode and keeps the
    flags, an operator's mode clears the downgrade mark only, a reload of a valid
    configuration resets everything. *)
Theorem calls_refine_control op (s : Agent Runtime X) :
  op ≠ OpTick →
  ctl (ag_db (snd (exec_au op s))) = spec_call op (rn_cfg (ag_db s)) (control (rn_state (ag_db s))).
Proof using.
  intros Hop. destruct op; cbn [exec_au spec_call]; try done.
  - rewrite dropped_run. cbn [snd]. unfold Start, state_of. rewrite bindS_run. cbn [peek fst snd ct_Running control].
    destruct (st_Running _) eqn:Hrun; [done|]. rewrite bindS_run. cbn [timeNow reading fst snd].
    rewrite bindS_run. cbn [peek fst snd]. rewrite bindS_run.
    set (s1 := snd (update_state _ _)). 
    assert (H1 : ctl (ag_db s1) = (rn_cfg (ag_db s), (((control (rn_state (ag_db s))) <| ct_Running := true |>)
      <| ct_Mode := ca_Mode (rn_cfg (ag_db s)) |>) <| ct_OriginalMode := ca_Mode (rn_cfg (ag_db s)) |>)) by done.
    rewrite <- H1. clearbody s1. change (ag_db (s <| ag_reads := S (ag_reads s) |>)) with (ag_db s).
    assert (Hk : keeps ctl (let! _ := set_startup_mode p (gv_StartupMode (ca_Governance (rn_cfg (ag_db s)))) in
                            let! _ := auditEvent p "autonomy.started" "" in
                            let! _ := runBootstrap p in retS (@None error))).
    { unfold set_startup_mode, auditEvent. apply keeps_bind; [keeps_steps|]. intros ?. apply keeps_bind; [keeps_steps|].
      intros ?. apply keeps_bind; [apply runBootstrap_ctl|]. keeps_steps. }
    apply Hk.
  - unfold Stop, state_of, update_state, auditEvent. rewrite bindS_run. cbn [peek fst snd].
    destruct (st_Running _) eqn:Hrun; cbn [negb].
    + rewrite bindS_run. rewrite (keeps_audit ctl). done.
    + unfold ctl, control. cbn. by rewrite Hrun.
  - rewrite dropped_run. cbn [snd]. unfold ReloadConfig, update_state, auditEvent. destruct (Validate cfg) eqn:Hv; [done|].
    rewrite !bindS_run. cbn [retS snd]. rewrite (keeps_audit ctl). done.
  - rewrite dropped_run. cbn [snd]. unfold SetMode, update_state, auditEvent. destruct (bool_decide _); cbn [negb]; [|done].
    rewrite !bindS_run. cbn [retS snd]. rewrite (keeps_audit ctl). done.
  - exact (keeps_ctl _ (exception_still trigger) s).
  - exact (keeps_ctl _ feedback_still s).
Qed.

(** ** The pace of a cycle *)

Lemma mark_all_lookup cycles now last c :
  mark_all cycles now last !! c = if decide (c ∈ cycles) then Some now else last !! c.
Proof using.
  unfold mark_all. revert last. induction cycles as [|d cycles IH]; intros last; cbn [fold_left].
  { rewrite decide_False; [done|]. by apply not_elem_of_nil. }
  rewrite IH. destruct (decide (c = d)) as [->|Hc].
  - rewrite lookup_insert_eq, (decide_True (P := d ∈ d :: cycles)) by (by left). by case_decide.
  - rewrite lookup_insert_ne by done. repeat case_decide; rewrite ?elem_of_cons in *; tauto.
Qed.

Lemma count_all_lookup cycles runs c :
  NoDup cycles →
  default 0 (count_all cycles runs !! c) = default 0 (runs !! c) + (if decide (c ∈ cycles) then 1 else 0).
Proof using.
  intros Hnd. unfold count_all. revert runs. induction Hnd as [|d cycles Hd Hnd IH]; intros runs; cbn [fold_left].
  { rewrite decide_False; [lia|]. by apply not_elem_of_nil. }
  rewrite IH. destruct (decide (c = d)) as [->|Hc].
  - rewrite lookup_insert_eq, (decide_False (P := d ∈ cycles)), (decide_True (P := d ∈ d :: cycles)) by (done || by left).
    cbn. lia.
  - rewrite lookup_insert_ne by done. f_equal. repeat case_decide; rewrite ?elem_of_cons in *; tauto.
Qed.

Lemma cycle_names cfg : NoDup (map (fun c : string * bool * bool => fst (fst c)) (allCycles p cfg)).
Proof using. cbn. apply (bool_decide_unpack _). by vm_compute. Qed.

Lemma NoDup_map_filter {A B} (f : A → B) (q : A → bool) l : NoDup (map f l) → NoDup (map f (List.filter q l)).
Proof using.
  induction l as [|a l IH]; cbn; [done|]. intros [Ha Hl]%NoDup_cons. destruct (q a); cbn; [|by apply IH].
  apply NoDup_cons. split; [|by apply IH]. intros Hin. apply Ha. apply list_elem_of_In, in_map_iff in Hin as (b & <- & Hb).
  apply filter_In in Hb as [Hb _]. by apply list_elem_of_In, in_map.
Qed.

Lemma due_NoDup m now inWindow : NoDup (due_now m now inWindow).
Proof using.
  unfold due_now. case_decide; [constructor|]. apply NoDup_map_filter, cycle_names.
Qed.

(** When a cycle is due: it is one of the twelve and enabled, the mode is not
    frozen, the execution window is open or the cycle may run outside it, and its
    interval has passed since its last run. *)
Theorem due_exact m now inWindow cycle :
  cycle ∈ due_now m now inWindow ↔
    st_Mode (rn_state m) ≠ ModeFrozen ∧
    ∃ enabled windowed, (cycle, enabled, windowed) ∈ allCycles p (rn_cfg m) ∧ enabled = true ∧
      (inWindow = true ∨ windowed = false ∨ isAllowedOutsideWindow (rn_cfg m) cycle = true) ∧
      ∀ last, st_LastCycleTimes (rn_state m) !! cycle = Some last → CycleDuration (rn_cfg m) cycle ≤ time_Sub now last.
Proof using.
  unfold due_now. case_decide as Hf.
  { split; [intros H; by apply elem_of_nil in H|by intros [? _]]. }
  unfold dueCycles. rewrite list_elem_of_In, in_map_iff. split.
  - intros ([[name enabled] windowed] & <- & Hin). apply filter_In in Hin as [Hin Hdue].
    split; [done|]. exists enabled, windowed. cbn [fst]. split; [by apply list_elem_of_In|].
    unfold is_due, elapsed in Hdue. rewrite !andb_true_iff, !orb_true_iff, negb_true_iff in Hdue.
    destruct Hdue as [[He Hw] Hl]. split; [done|]. split; [tauto|]. intros last Hlast. rewrite Hlast in Hl.
    by apply bool_decide_eq_true in Hl.
  - intros [_ (enabled & windowed & Hin & -> & Hw & Hl)]. exists (cycle, true, windowed). split; [done|].
    apply filter_In. split; [by apply list_elem_of_In|]. unfold is_due, elapsed.
    rewrite !andb_true_iff, !orb_true_iff, negb_true_iff. split; [split; [done|tauto]|].
    destruct (_ !! cycle) as [last|]; [|done]. by apply bool_decide_eq_true, Hl.
Qed.

(** Neither a restart, whose bootstrap ignores the intervals, nor another
    configuration. *)
Definition steady (op : AuOp) : bool :=
  match op with OpStart | OpReload _ => false | _ => true end.

Lemma steady_still op : steady op = true → op ≠ OpTick →
  keeps (fun m => (rn_cfg m, st_LastCycleTimes (rn_state m), st_CyclesRun (rn_state m))) (exec_au op).
Proof using.
  intros Hs Hop. destruct op; try done.
  - cbn [exec_au]. unfold Stop, state_of, update_state, auditEvent. keeps_steps.
  - cbn [exec_au]. unfold SetMode, update_state, auditEvent. keeps_steps.
  - intros s. pose proof (core_fields _ _ _ _ _ (exception_still trigger s)) as (E1 & _ & E3 & E4).
    cbn [exec_au]. by rewrite E1, E3, E4.
  - intros s. pose proof (core_fields _ _ _ _ _ (feedback_still s)) as (E1 & _ & E3 & E4). by rewrite E1, E3, E4.
Qed.

Section pace.
Context (cfg : AutonomyConfig) (cycle : string) (t0 : time) (n0 : Z).
Hypothesis valid : Validate cfg = None.
Hypothesis short : cycle_hours (sd_Cycles (ca_Scheduler cfg)) cycle ≤ 2000000.

(** Since the run at [t0], the [n0]-th, every further run took its interval. *)
Definition paced (s : Agent Runtime X) : Prop :=
  rn_cfg (ag_db s) = cfg ∧
  ∃ t, st_LastCycleTimes (rn_state (ag_db s)) !! cycle = Some t ∧
       (default 0 (st_CyclesRun (rn_state (ag_db s)) !! cycle) - n0) * CycleDuration cfg cycle ≤ t - t0.

Lemma tick_paced s : paced s → paced (snd (dropped (tick p) s)).
Proof using valid short.
  intros (Hcfg & t & Ht & Hpace). rewrite dropped_run. cbn [snd].
  destruct (tick_refines_control s) as (inWindow & outcome & _ & _ & Hcore & _); [by rewrite Hcfg|].
  apply core_fields in Hcore as (E1 & _ & E3 & E4). set (now := pv_clock p (ag_reads s)) in *.
  split; [by rewrite E1|]. rewrite E3, E4, mark_all_lookup, count_all_lookup by apply due_NoDup.
  destruct (decide (cycle ∈ due_now (ag_db s) now inWindow)) as [Hdue|_]; [|exists t; split; [done|lia]].
  exists now. split; [done|]. apply due_exact in Hdue as (_ & en & win & _ & _ & _ & Hlast).
  specialize (Hlast t Ht). rewrite Hcfg in Hlast. pose proof (CycleDuration_pos cfg cycle short) as Hpos.
  assert (0 < Hour) by done. unfold time_Sub in Hlast.
  assert (CycleDuration cfg cycle ≤ now - t) by (unfold int64_min in Hlast; lia). lia.
Qed.

Lemma exec_paced op s : steady op = true → paced s → paced (snd (exec_au op s)).
Proof using valid short.
  intros Hs Hp. assert (op = OpTick ∨ op ≠ OpTick) as [->|Hop] by (destruct op; auto); [by apply tick_paced|].
  pose proof (steady_still op Hs Hop s) as H. unfold paced in *.
  pose proof (f_equal (fun x => fst (fst x)) H) as E1. pose proof (f_equal (fun x => snd (fst x)) H) as E2.
  pose proof (f_equal snd H) as E3. cbn in E1, E2, E3. by rewrite E1, E2, E3.
Qed.
End pace.

(** C35: Over any history of ticks and calls (a restart or a reload apart) each
    further run of a cycle comes at least its interval after the one before: n
    more runs after the one at t0 take n intervals.  The interval is at most two
    million hours, so that it is an [int64] of nanoseconds. *)
Theorem cycles_are_paced ops (s : Agent Runtime X) cycle t0 :
  Validate (rn_cfg (ag_db s)) = None →
  cycle_hours (sd_Cycles (ca_Scheduler (rn_cfg (ag_db s)))) cycle ≤ 2000000 →
  Forall (fun op => steady op = true) ops →
  st_LastCycleTimes (rn_state (ag_db s)) !! cycle = Some t0 →
  let runs s := default 0 (st_CyclesRun (rn_state (ag_db s)) !! cycle) in
  let s' := snd (forS exec_au ops s) in
  ∃ t, st_LastCycleTimes (rn_state (ag_db s')) !! cycle = Some t ∧
       (runs s' - runs s) * CycleDuration (rn_cfg (ag_db s)) cycle ≤ t - t0.
Proof using.
  intros Hv Hh Hops Ht0 runs s'. set (cfg := rn_cfg (ag_db s)) in *.
  assert (H : paced cfg cycle t0 (runs s) s').
  { apply forS_invariant; [|split; [done|]; exists t0; split; [done|unfold runs; lia]].
    intros op w Hin. apply (exec_paced cfg); [done|done|]. by apply (proj1 (list.Forall_forall _ _) Hops). }
  destruct H as (_ & t & Ht & Hp). by exists t.
Qed.
End runtime.

(** ** Consequences of the abstract control *)

Section control.
Context (cfg : AutonomyConfig) (c : Control).

Lemma spec_down_done : ct_Downgraded c = true → spec_down cfg c = c.
Proof using. unfold spec_down. by intros ->. Qed.

Lemma spec_recover_off :
  rv_AutoRestorePrevMode (rk_Recovery (ca_Risk cfg)) = false → spec_recover cfg c = c.
Proof using. unfold spec_recover. by intros ->. Qed.

Lemma spec_recover_now :
  rv_AutoRestorePrevMode (rk_Recovery (ca_Risk cfg)) = true → ct_Downgraded c = true →
  rv_RequireConsecutiveHealthy (rk_Recovery (ca_Risk cfg)) ≤ ct_Healthy c →
  spec_recover cfg c = mkControl (ct_OriginalMode c) (ct_OriginalMode c) (ct_Running c) false false false (ct_Failures c) 0.
Proof using. unfold spec_recover. intros -> -> H. by rewrite bool_decide_true. Qed.

Lemma spec_safety_breach overload :
  rk_AutoDowngrade (ca_Risk cfg) = true →
  spec_safety cfg true overload c =
    if overload then (spec_down cfg c) <| ct_HeavyDisabled := true |> else spec_down cfg c.
Proof using. unfold spec_safety. by intros ->. Qed.
End control.

(** The mode, flags and original mode after a tick that does not recover, when
    the downgrade mark is set before its cycles. *)
Lemma marked_tick cfg c outcome :
  rv_AutoRestorePrevMode (rk_Recovery (ca_Risk cfg)) = false → ct_Downgraded c = true →
  let c' := match outcome with None => c | Some ok => spec_outcome cfg ok c end in
  ct_Mode c' = ct_Mode c ∧ ct_Downgraded c' = true ∧ ct_HeavyDisabled c' = ct_HeavyDisabled c ∧
  ct_SelfExtDisabled c' = ct_SelfExtDisabled c.
Proof.
  intros Hrec Hd. destruct outcome as [ok|]; [|done]. unfold spec_outcome. cbv zeta.
  rewrite spec_recover_off by done. rewrite spec_down_done by (by destruct ok). destruct (bool_decide _), ok; done.
Qed.

Lemma spec_down_fields cfg c :
  ct_Downgraded (spec_down cfg c) = true ∧ ct_OriginalMode (spec_down cfg c) = ct_OriginalMode c ∧
  ct_Healthy (spec_down cfg c) = ct_Healthy c ∧ ct_Failures (spec_down cfg c) = ct_Failures c.
Proof. unfold spec_down. by destruct (ct_Downgraded c) eqn:E; rewrite ?E. Qed.

(** With automatic downgrades and no automatic recovery, a tick that finds the
    pressure at its threshold ends in the lower mode with heavy actions and
    self-extension disabled. *)
Lemma breach_downgrades cfg c overload outcome :
  rk_AutoDowngrade (ca_Risk cfg) = true → ct_Mode c ≠ ModeFrozen → ct_Downgraded c = false →
  rv_AutoRestorePrevMode (rk_Recovery (ca_Risk cfg)) = false →
  let c' := spec_tick cfg true overload outcome c in
  ct_Mode c' = downgrade_target cfg ∧ ct_Downgraded c' = true ∧ ct_HeavyDisabled c' = true ∧ ct_SelfExtDisabled c' = true.
Proof.
  intros Hauto Hmode Hd Hrec. unfold spec_tick. rewrite decide_False by done. rewrite spec_safety_breach by done.
  cbv zeta. set (c1 := if overload then _ else _).
  assert (H1 : ct_Mode c1 = downgrade_target cfg ∧ ct_Downgraded c1 = true ∧ ct_HeavyDisabled c1 = true ∧
               ct_SelfExtDisabled c1 = true) by (unfold c1, spec_down; rewrite Hd; by destruct overload).
  destruct H1 as (H1 & H2 & H3 & H4). destruct (marked_tick cfg c1 outcome Hrec H2) as (-> & -> & -> & ->). done.
Qed.

(** Recovery looks only at the count of healthy ticks, which a downgrade does not
    reset: after enough of them the tick that finds the breach ends in the
    original mode with everything enabled. *)
Lemma breach_undone_at_once cfg c overload :
  rk_AutoDowngrade (ca_Risk cfg) = true → ct_Mode c ≠ ModeFrozen →
  rv_AutoRestorePrevMode (rk_Recovery (ca_Risk cfg)) = true →
  rv_RequireConsecutiveHealthy (rk_Recovery (ca_Risk cfg)) ≤ ct_Healthy c + 1 →
  0 < lm_MaxConsecutiveFailedCycles (ca_Limits cfg) →
  let c' := spec_tick cfg true overload (Some true) c in
  ct_Mode c' = ct_OriginalMode c ∧ ct_Downgraded c' = false ∧ ct_HeavyDisabled c' = false ∧ ct_SelfExtDisabled c' = false.
Proof.
  intros Hauto Hmode Hrec Hn Hmax. unfold spec_tick. rewrite decide_False by done. rewrite spec_safety_breach by done.
  cbv zeta. set (c1 := if overload then _ else _). destruct (spec_down_fields cfg c) as (D & O & Hh & _).
  assert (H1 : ct_Downgraded c1 = true ∧ ct_OriginalMode c1 = ct_OriginalMode c ∧ ct_Healthy c1 = ct_Healthy c)
    by (unfold c1; by destruct overload).
  destruct H1 as (H1 & H2 & H3). unfold spec_outcome. cbv zeta. rewrite bool_decide_false by (cbn; lia).
  rewrite spec_recover_now; [cbn; by rewrite H2|done|done|cbn; lia].
Qed.

(** A restart keeps the downgrade mark but takes the configured mode; marked,
    the runtime is not downgraded again whatever the pressure. *)
Lemma restart_disarms_downgrade cfg c breach overload outcome :
  ct_Running c = false → ct_Downgraded c = true →
  rv_AutoRestorePrevMode (rk_Recovery (ca_Risk cfg)) = false →
  ct_Mode (spec_tick cfg breach overload outcome (snd (spec_call OpStart cfg c))) = ca_Mode cfg.
Proof.
  intros Hrun Hd Hrec. cbn [spec_call snd]. rewrite Hrun. set (c1 := (_ <| ct_OriginalMode := _ |>)).
  assert (H1 : ct_Mode c1 = ca_Mode cfg ∧ ct_Downgraded c1 = true) by done. clearbody c1. destruct H1 as [H1 H2].
  unfold spec_tick. case_decide; [done|]. cbv zeta. set (c2 := spec_safety cfg breach overload c1).
  assert (H3 : ct_Mode c2 = ca_Mode cfg ∧ ct_Downgraded c2 = true).
  { unfold c2, spec_safety. rewrite spec_down_done by done. by destruct (rk_AutoDowngrade _), breach, overload. }
  destruct H3 as [H3 H4]. destruct (marked_tick cfg c2 outcome Hrec H4) as (-> & _). done.
Qed.

(** An operator who lowers the mode is overruled: recovery after the next
    downgrade restores the configured mode. *)
Lemma recovery_overrules_operator cfg c mode :
  mode ∈ validModes → mode ≠ ModeFrozen → rk_AutoDowngrade (ca_Risk cfg) = true →
  rv_AutoRestorePrevMode (rk_Recovery (ca_Risk cfg)) = true →
  rv_RequireConsecutiveHealthy (rk_Recovery (ca_Risk cfg)) ≤ ct_Healthy c + 1 →
  0 < lm_MaxConsecutiveFailedCycles (ca_Limits cfg) →
  ct_Mode (spec_tick cfg true false (Some true) (snd (spec_call (OpSetMode mode) cfg c))) = ct_OriginalMode c.
Proof.
  intros Hm Hf Hauto Hrec Hn Hmax. cbn [spec_call snd]. rewrite bool_decide_true by done.
  by destruct (breach_undone_at_once cfg ((c <| ct_Mode := mode |>) <| ct_Downgraded := false |>) false) as (-> & _).
Qed.
