(* ===== verification/AutonomyCalls.v ===== *)
(** * What the autonomy runtime asks of the other engines

    Providers that behave as given and also log every call with its answer; over
    any history each call that creates, links or moves a task is justified by
    what was answered before it. *)

From stdpp Require Import base gmap strings list tactics numbers fin_maps.
From Stdlib Require Import ZArith Lia.
From S2P Require Import Prelude GoFloat Models GoTime AgentWorld AutonomyConfig Autonomy AutonomyProps AutonomyControl.

Open Scope Z_scope.

(** ** Logging providers *)

Inductive Call : Type :=
| CReflection
| CObjective
| CActuationRun
| CActuationList (answer : res (list ActuationDecisionInfo))
| CScheduling
| CPortfolio
| CDiscovery
| CSelfExtension
| CPressure
| CLoad
| CGovernanceGet
| CGovernanceSet (mode : string)
| CCreate (source goal : string) (urgency expectedValue riskLevel : float64) (strategy : string) (answer : res string)
| CRecompute
| CDispatch (answer : res DispatchResultInfo)
| CFind (decision : string) (answer : string * option error)
| CComplete (id : string) (answer : option error)
| CFail (id reason : string) (answer : option error)
| CPause (id : string) (answer : option error)
| CLinkDecision (task decision : string)
| CLinkExecution (task exec : string)
| COutcome (id kind lastError : string) (attempts : Z)
| CRunning (answer : res (list RunningTaskInfo))
| CExecTask (exec : string) (answer : res ExecTaskInfo)
| CFeedback (fb : ExecutionFeedback)
| CFeedbackRead
| CGoalPlanning
| CGoalReplanning.

Section logging.
Context {X : Type}.

Definition log1 {A} (mk : A → Call) (c : St X A) : St (X * list Call) A := fun w =>
  let '(a, x) := c (fst w) in (a, (x, snd w ++ [mk a])).

Definition log {A} (call : Call) : St X A → St (X * list Call) A := log1 (fun _ => call).

Definition logged_tasks (t : TaskOrchestratorRunner X) : TaskOrchestratorRunner (X * list Call) :=
  mkTaskRunner
    (fun source goal u v r strategy => log1 (CCreate source goal u v r strategy) (CreateTask t source goal u v r strategy))
    (log CRecompute (RecomputePriorities t))
    (log1 CDispatch (Dispatch t))
    (fun decision => log1 (CFind decision) (FindByActuationDecision t decision))
    (fun id => log1 (CComplete id) (CompleteTask t id))
    (fun id reason => log1 (CFail id reason) (FailTask t id reason))
    (fun id => log1 (CPause id) (PauseTask t id))
    (fun task decision => log (CLinkDecision task decision) (SetActuationDecisionID t task decision))
    (fun task exec => log (CLinkExecution task exec) (SetExecutionTaskID t task exec))
    (fun id kind lastError attempts => log (COutcome id kind lastError attempts) (SetOutcome t id kind lastError attempts))
    (fun limit => log1 CRunning (ListRunningTasks t limit)).

Definition logged_feedback (f : ExecutionFeedbackStore X) : ExecutionFeedbackStore (X * list Call) :=
  mkFeedbackStore
    (fun fb => log (CFeedback fb) (FeedbackInsert f fb))
    (fun limit => log CFeedbackRead (FeedbackListRecent f limit))
    (fun outcome since => log CFeedbackRead (CountByOutcome f outcome since))
    (fun signal since => log CFeedbackRead (CountBySignal f signal since)).

Definition logged (p : Providers X) : Providers (X * list Call) :=
  mkProviders (pv_clock p) (pv_auditor p)
    ((fun run force => log CReflection (run force)) <$> pv_reflection p)
    (log CObjective <$> pv_objective p)
    ((fun a => mkActuationRunner (log CActuationRun (ActuationRun a)) (fun limit => log1 CActuationList (ActuationList a limit)))
       <$> pv_actuation p)
    (log CScheduling <$> pv_scheduling p)
    (log CPortfolio <$> pv_portfolio p)
    (log CDiscovery <$> pv_discovery p)
    ((fun run limit => log CSelfExtension (run limit)) <$> pv_selfExt p)
    (log CPressure <$> pv_pressure p)
    (log CLoad <$> pv_capacity p)
    ((fun g => mkGovernanceSetter (log CGovernanceGet (GovernanceGetMode g))
                 (fun mode reason => log (CGovernanceSet mode) (GovernanceSetMode g mode reason))) <$> pv_governance p)
    (logged_tasks <$> pv_taskOrchestrator p)
    ((fun run exec => log1 (CExecTask exec) (run exec)) <$> pv_executionLoop p)
    (logged_feedback <$> pv_feedbackStore p)
    (log CGoalPlanning <$> pv_goalPlanning p)
    (log CGoalReplanning <$> pv_goalReplanning p).
End logging.

(** ** Justified calls *)

(** The last call was the look-up of a linked execution, for a task listed as
    running before. *)
Definition looked_up (before : list Call) (id : string) (task : RunningTaskInfo) (exec : ExecTaskInfo) : Prop :=
  rg_ID task = id ∧ rg_ExecutionTaskID task ≠ "" ∧
  (∃ running, CRunning (Ok running) ∈ before ∧ task ∈ running) ∧
  ∃ earlier, before = earlier ++ [CExecTask (rg_ExecutionTaskID task) (Ok exec)].

(** A listed decision that is proposed and needs no review. *)
Definition safe_decision (before : list Call) (d : ActuationDecisionInfo) : Prop :=
  ∃ ds, CActuationList (Ok ds) ∈ before ∧ d ∈ ds ∧ proposed d = true ∧ di_RequiresReview d = false.

Definition justified (before : list Call) (c : Call) : Prop :=
  match c with
  | CCreate source goal urgency value risk strategy _ =>
      ∃ d earlier err, safe_decision before d ∧ before = earlier ++ [CFind (di_ID d) ("", err)] ∧
        source = "actuation" ∧ goal = decision_goal (di_Type d) ∧ urgency = fclamp01 (di_Priority d) ∧
        value = di_Priority d ∧ risk = lit 3 10 ∧ strategy = default "" (actuationTypeToStrategy !! di_Type d)
  | CLinkDecision task decision =>
      ∃ earlier err source goal urgency value risk strategy,
        before = earlier ++ [CFind decision ("", err); CCreate source goal urgency value risk strategy (Ok task)]
  | CLinkExecution task exec =>
      exec ≠ "" ∧ ∃ r, CDispatch (Ok r) ∈ before ∧ (task, exec) ∈ ds_DispatchedTaskIDs r
  | CComplete id _ => ∃ task exec, looked_up before id task exec ∧ ex_Status exec = "completed"
  | CFail id reason _ =>
      ∃ task exec, looked_up before id task exec ∧
        ((ex_Status exec = "failed" ∧ reason = "execution failed") ∨
         (ex_Status exec = "aborted" ∧ manual_abort reason = false ∧ reason = ex_AbortReason exec))
  | CPause id _ =>
      ∃ task exec, looked_up before id task exec ∧
        ((ex_Status exec = "aborted" ∧ manual_abort (ex_AbortReason exec) = true) ∨
         (ex_Status exec ∈ ["pending"; "running"] ∧ ex_HasReviewBlock exec = true))
  | COutcome id kind _ _ =>
      ∃ earlier, before = earlier ++ [CComplete id None] ∧ kind = "completed" ∨
        (∃ reason, before = earlier ++ [CFail id reason None] ∧ kind ∈ ["failed"; "aborted"]) ∨
        (before = earlier ++ [CPause id None] ∧ kind = "aborted")
  | _ => True
  end.

Definition log_ok (l : list Call) : Prop := ∀ before c after, l = before ++ c :: after → justified before c.

Lemma log_ok_nil : log_ok [].
Proof. intros [|? ?] ? ? H; discriminate H. Qed.

Lemma log_ok_snoc l c : log_ok l → justified l c → log_ok (l ++ [c]).
Proof.
  intros Hl Hc before c' after H. destruct after as [|a after _] using rev_ind.
  - by apply app_inj_tail in H as [<- <-].
  - rewrite app_comm_cons, app_assoc in H. apply app_inj_tail in H as [H _]. by eapply Hl.
Qed.

(** Facts that stay true as the log grows. *)
Definition lasting (F : list Call → Prop) : Prop := ∀ l c, F l → F (l ++ [c]).

Lemma lasting_elem call : lasting (fun l => call ∈ l).
Proof. intros l c H. apply elem_of_app. by left. Qed.

Lemma lasting_true : lasting (fun _ => True).
Proof. done. Qed.

Section calls.
Context {X : Type} {Zn : LocalZone} {U : UuidPkg} (p0 : Providers X).
Abbreviation p := (logged p0).
Abbreviation AU A := (St (Agent Runtime (X * list Call)) A).

(** The log is justified and [F] holds of it. *)
Definition logs (F : list Call → Prop) : Agent Runtime (X * list Call) → Prop :=
  fun s => log_ok (snd (ag_ext s)) ∧ F (snd (ag_ext s)).

Definition safe {A} (F : list Call → Prop) (c : AU A) : Prop := triple (logs F) c (fun _ => logs F).

Lemma logs_call {A} (mk : A → Call) (c : St X A) (P : list Call → Prop) (Q : A → list Call → Prop) :
  (∀ l a, log_ok l → P l → justified l (mk a) ∧ Q a (l ++ [mk a])) →
  triple (logs P) (provider (log1 mk c)) (fun a => logs (Q a)).
Proof using.
  intros H s [Hok HP]. unfold provider, log1, logs. destruct (ag_ext s) as [x l]. cbn [fst snd] in *.
  destruct (c x) as [a x']. cbn. destruct (H l a Hok HP) as [Hj HQ]. split; [by apply log_ok_snoc|done].
Qed.

Lemma safe_ret {A} F (a : A) : safe F (retS a).
Proof using. by apply triple_ret. Qed.

Lemma safe_bind {A B} F (c : AU A) (k : A → AU B) : safe F c → (∀ a, safe F (k a)) → safe F (bindS c k).
Proof using. intros Hc Hk. by eapply triple_bind. Qed.

(** Code that does not call the providers. *)
Lemma quiet_calls {A} F (c : AU A) : keeps_ext c → safe F c.
Proof using. intros Hc s Hs. unfold logs. by rewrite Hc. Qed.

(** A call that needs no justification. *)
Lemma safe_call {A} F (mk : A → Call) (c : St X A) :
  lasting F → (∀ a l, justified l (mk a)) → safe F (provider (log1 mk c)).
Proof using. intros HF Hj. apply logs_call. intros l a _ HP. split; [apply Hj|by apply HF]. Qed.

Lemma safe_dropped {A} F (c : AU A) : safe F c → safe F (dropped c).
Proof using. intros H. apply safe_bind; [done|]. intros a. apply safe_ret. Qed.

Lemma safe_forS {A} F (k : A → AU unit) l : (∀ a, a ∈ l → safe F (k a)) → safe F (forS k l).
Proof using.
  intros Hk. induction l as [|a l IH]; [apply safe_ret|]. apply safe_bind; [apply Hk; by left|].
  intros u. apply IH. intros b Hb. apply Hk. by right.
Qed.

Lemma ext_peek {A} (g : Runtime → A) : keeps_ext (X := X * list Call) (peek g).
Proof using. by intros s. Qed.
Lemma ext_poke g : keeps_ext (X := X * list Call) (poke g).
Proof using. by intros s. Qed.
End calls.

#[export] Hint Resolve ext_peek ext_poke : keeps_ext.

(** Decompose a computation whose provider calls need no justification. *)
Ltac safe_steps :=
  repeat first
    [ apply safe_ret
    | progress intros
    | apply quiet_calls; solve [keeps_ext_steps]
    | apply safe_call; [done|by intros]
    | apply safe_dropped
    | apply safe_bind
    | match goal with |- safe _ (match ?x with _ => _ end) => destruct x end ].

Section cycles.
Context {X : Type} {Zn : LocalZone} {U : UuidPkg} (p0 : Providers X).
Abbreviation p := (logged p0).
Abbreviation AU A := (St (Agent Runtime (X * list Call)) A).

(** From a stronger fact. *)
Lemma safe_from {A} (P F : list Call → Prop) (c : AU A) :
  (∀ l, P l → F l) → safe F c → triple (logs P) c (fun _ => logs F).
Proof using. intros HPF Hc s [Hok HP]. apply Hc. split; [done|by apply HPF]. Qed.

Lemma IsDuplicate_ext key window : keeps_ext (IsDuplicate p key window).
Proof using. unfold IsDuplicate, timeNow. keeps_ext_steps. Qed.

(** *** Decisions become tasks *)

Lemma create_safe F d t err source :
  lasting F → source = "actuation" → (∀ l, F l → safe_decision l d) →
  triple (logs (X := X) (fun l => F l ∧ ∃ earlier, l = earlier ++ [CFind (di_ID d) ("", err)]))
    (let! result := provider (CreateTask (logged_tasks t) source (decision_goal (di_Type d)) (fclamp01 (di_Priority d))
                                (di_Priority d) (lit 3 10) (default "" (actuationTypeToStrategy !! di_Type d))) in
     match result with
     | Err err => retS (Err (wrap "create task from actuation decision: " err))
     | Ok id =>
         let! _ := dropped (provider (SetActuationDecisionID (logged_tasks t) id (di_ID d))) in
         let! _ := auditEvent p "actuation.task_created" (di_ID d) in
         retS (Ok (id, true))
     end)
    (fun _ => logs F).
Proof using.
  intros HF Hsrc Hd. cbn [logged_tasks CreateTask SetActuationDecisionID].
  apply triple_bind with (fun r => logs (fun l => F l ∧ ∃ earlier u v k strategy goal,
    l = earlier ++ [CFind (di_ID d) ("", err); CCreate source goal u v k strategy r])).
  - apply logs_call. intros l r _ [HP (earlier & ->)]. split.
    + cbn [justified]. exists d, earlier, err. split_and!; try done. by apply Hd.
    + split; [by apply HF|]. exists earlier. do 5 eexists. rewrite <- app_assoc. reflexivity.
  - intros [id|e]; [|apply (safe_from _ F); [by intros l []|apply safe_ret]].
    apply triple_bind with (fun _ => logs F); [|intros ?; unfold auditEvent; safe_steps].
    apply triple_dropped. apply logs_call. intros l a _ [HP (earlier & u & v & k & strategy & goal & ->)]. split; [|by apply HF].
    cbn [justified]. by exists earlier, err, source, goal, u, v, k, strategy.
Qed.

Lemma materialize_safe F d :
  lasting F → (∀ l, F l → safe_decision l d) → di_RequiresReview d = false → safe F (MaterializeDecisionAsTask p d).
Proof using.
  intros HF Hd Hr. unfold MaterializeDecisionAsTask, state_of. cbn [logged pv_taskOrchestrator].
  destruct (pv_taskOrchestrator p0) as [t|]; cbn [fmap option_fmap option_map]; [|apply safe_ret].
  unfold decision_risk. rewrite Hr. apply safe_bind; [safe_steps|]. intros mode. unfold auditEvent at 1 2 3.
  case_decide; [safe_steps|]. rewrite andb_false_r. cbv zeta.
  apply triple_bind with (fun found => logs (fun l => F l ∧ ∃ earlier, l = earlier ++ [CFind (di_ID d) found])).
  - cbn [logged_tasks FindByActuationDecision]. apply logs_call. intros l a _ HP. split; [done|].
    split; [by apply HF|by exists l].
  - intros [existing err]. cbn [fst]. case_bool_decide as He; cbn [negb].
    + subst existing. by apply create_safe.
    + apply (safe_from _ F); [by intros l []|]. safe_steps.
Qed.

Lemma materialize_all_safe F ds created :
  lasting F → (∀ d, d ∈ ds → proposed d = true → di_RequiresReview d = false → ∀ l, F l → safe_decision l d) →
  safe F (materialize_decisions p ds created).
Proof using.
  intros HF. revert created. induction ds as [|d ds IH]; intros created Hds; cbn [materialize_decisions]; [apply safe_ret|].
  destruct (negb (proposed d) || di_RequiresReview d) eqn:E.
  - apply IH. intros d' Hd'. apply Hds. by right.
  - apply orb_false_iff in E as [E1 E2]. apply negb_false_iff in E1. apply safe_bind.
    + apply materialize_safe; [done| |done]. apply Hds; [by left|done|done].
    + intros a. apply IH. intros d' Hd'. apply Hds. by right.
Qed.

Lemma route_ext heavy ds queued suppressed : keeps_ext (route_decisions p heavy ds queued suppressed).
Proof using.
  revert queued suppressed. induction ds as [|d ds IH]; intros queued suppressed; cbn [route_decisions]; [keeps_ext_steps|].
  destruct (negb (proposed d)); [apply IH|]. unfold state_of, update_state, auditEvent.
  apply keeps_ext_bind; [keeps_ext_steps|]. intros window. apply keeps_ext_bind; [apply IsDuplicate_ext|]. intros seen.
  keeps_ext_steps; apply IH.
Qed.

Lemma cycleActuation_safe F : lasting F → safe F (cycleActuation p).
Proof using.
  intros HF. unfold cycleActuation, state_of, update_state. cbn [logged pv_actuation].
  destruct (pv_actuation p0) as [a|]; cbn [fmap option_fmap option_map]; [|apply safe_ret]. cbn [ActuationRun ActuationList].
  apply safe_bind; [by apply safe_call|]. intros [result|]; [|apply safe_ret].
  apply safe_bind; [safe_steps|]. intros heavy.
  apply triple_bind with (fun r => logs (fun l => F l ∧ CActuationList r ∈ l)).
  { apply logs_call. intros l r _ HP. split; [done|]. split; [by apply HF|]. apply elem_of_app. right. by left. }
  intros r. cbv zeta. set (F' := fun l => F l ∧ CActuationList r ∈ l).
  assert (HF' : lasting F') by (intros l c [H1 H2]; split; [by apply HF|by apply lasting_elem]).
  apply triple_weaken with (P' := logs F') (Q' := fun _ => logs F'); [|done|intros ? w [Hok [Hw _]]; by split].
  match goal with |- triple (logs ?G) ?c _ => change (safe G c) end.
  apply safe_bind; [apply quiet_calls, route_ext|]. intros counts. apply safe_bind; [safe_steps|]. intros ?.
  apply safe_bind; [|safe_steps]. apply materialize_all_safe; [done|].
  intros d Hd Hp Hr l [_ Hin]. destruct r as [ds|]; [|by apply elem_of_nil in Hd]. by exists ds.
Qed.

(** *** Executions move tasks *)

Lemma recordFeedback_safe F task exec kind success signal :
  lasting F → safe F (recordFeedback p task exec kind success signal).
Proof using.
  intros HF. unfold recordFeedback, generateID, timeNow, update_state, auditEvent. cbn [logged pv_feedbackStore].
  destruct (pv_feedbackStore p0) as [store|]; cbn [fmap option_fmap option_map]; [|apply safe_ret].
  cbn [logged_feedback FeedbackInsert]. apply safe_bind; [safe_steps|]. intros id. apply safe_bind; [safe_steps|]. intros now.
  apply safe_bind; [by apply safe_call|]. safe_steps.
Qed.

Lemma move_safe F P (mk : option error → Call) (c : St X (option error)) (after : AU unit) moved :
  lasting F → (∀ l, P l → F l) → (∀ l a, P l → justified l (mk a)) →
  triple (logs (X := X) (fun l => F l ∧ ∃ earlier, l = earlier ++ [mk None])) after (fun _ => logs F) →
  triple (logs P) (move_task (log1 mk c) after moved) (fun _ => logs F).
Proof using.
  intros HF HPF Hj Hafter. unfold move_task.
  apply triple_bind with (fun a => logs (fun l => F l ∧ ∃ earlier, l = earlier ++ [mk a])).
  - apply logs_call. intros l a _ HP. split; [by apply Hj|]. split; [by apply HF, HPF|by exists l].
  - intros [err|]; [apply (safe_from _ F); [by intros l []|apply safe_ret]|].
    apply triple_bind with (fun _ => logs F); [exact Hafter|]. intros ?. apply safe_ret.
Qed.

Lemma finish_safe F (t : TaskOrchestratorRunner X) task exec id kind lastError n success signal event (moved : Call) :
  lasting F → (∀ earlier, justified (earlier ++ [moved]) (COutcome id kind lastError n)) →
  triple (logs (X := X) (fun l => F l ∧ ∃ earlier, l = earlier ++ [moved]))
    (let! _ := dropped (provider (SetOutcome (logged_tasks t) id kind lastError n)) in
     let! _ := recordFeedback p task exec kind success signal in auditEvent p event id)
    (fun _ => logs F).
Proof using.
  intros HF Hj. cbn [logged_tasks SetOutcome]. apply triple_bind with (fun _ => logs F).
  - apply triple_dropped. apply logs_call. intros l a _ [HP (earlier & ->)]. split; [apply Hj|by apply HF].
  - intros ?. apply safe_bind; [by apply recordFeedback_safe|]. intros ?. unfold auditEvent. safe_steps.
Qed.

Lemma propagate_task_safe F t task exec running :
  lasting F → (∀ l, F l → CRunning (Ok running) ∈ l) → task ∈ running → rg_ExecutionTaskID task ≠ "" →
  triple (logs (X := X) (fun l => F l ∧ ∃ earlier, l = earlier ++ [CExecTask (rg_ExecutionTaskID task) (Ok exec)]))
    (propagate_task p (logged_tasks t) task exec) (fun _ => logs F).
Proof using.
  intros HF Hrun Htask Hid.
  assert (Hlook : ∀ l, (F l ∧ ∃ earlier, l = earlier ++ [CExecTask (rg_ExecutionTaskID task) (Ok exec)]) →
    looked_up l (rg_ID task) task exec).
  { intros l [HP Hl]. split_and!; [done|done| |done]. exists running. split; [by apply Hrun|done]. }
  unfold propagate_task. cbv zeta.
  case_decide; [|case_decide; [|case_decide; [destruct (manual_abort (ex_AbortReason exec)) eqn:Hm|
    case_bool_decide as Hs; [destruct (ex_HasReviewBlock exec) eqn:Hb|]]]]; cbn [andb].
  - apply move_safe; [done|by intros l []|intros l a Hl; cbn; exists task, exec; by auto|].
    apply finish_safe; [done|]. intros earlier. exists earlier. by left.
  - apply move_safe; [done|by intros l []|intros l a Hl; cbn; exists task, exec; by auto|].
    apply finish_safe; [done|]. intros earlier. exists earlier. right; left. eexists. split; [reflexivity|]. by left.
  - apply move_safe; [done|by intros l []|intros l a Hl; cbn; exists task, exec; by auto|].
    apply finish_safe; [done|]. intros earlier. exists earlier. right; right. by split.
  - apply move_safe; [done|by intros l []|intros l a Hl; cbn; exists task, exec; split; [by apply Hlook|]; right; by split_and!|].
    apply finish_safe; [done|]. intros earlier. exists earlier. right; left. eexists. split; [reflexivity|]. by right; left.
  - apply move_safe; [done|by intros l []|intros l a Hl; cbn; exists task, exec; split; [by apply Hlook|]; by right|].
    apply (safe_from _ F); [by intros l []|]. apply safe_bind; [by apply recordFeedback_safe|].
    intros ?. unfold auditEvent. safe_steps.
  - apply (safe_from _ F); [by intros l []|apply safe_ret].
  - apply (safe_from _ F); [by intros l []|apply safe_ret].
Qed.

Lemma propagate_all_safe F t getTask running rest counts :
  lasting F → (∀ l, F l → CRunning (Ok running) ∈ l) → (∀ task, task ∈ rest → task ∈ running) →
  safe F (propagate_all p (logged_tasks t) (fun exec => log1 (CExecTask exec) (getTask exec)) rest counts).
Proof using.
  intros HF Hrun. revert counts. induction rest as [|task rest IH]; intros counts Hsub; cbn [propagate_all]; [apply safe_ret|].
  assert (Hrest : ∀ counts, safe F (propagate_all p (logged_tasks t) (fun exec => log1 (CExecTask exec) (getTask exec)) rest counts)).
  { intros counts'. apply IH. intros task' H. apply Hsub. by right. }
  case_decide as Hid; [apply Hrest|].
  apply triple_bind with (fun a => logs (fun l => F l ∧ ∃ earlier, l = earlier ++ [CExecTask (rg_ExecutionTaskID task) a])).
  - apply logs_call. intros l a _ HP. split; [done|]. split; [by apply HF|by exists l].
  - intros [exec|err]; [|apply (safe_from _ F); [by intros l []|apply Hrest]].
    apply triple_bind with (fun _ => logs F); [|intros x; apply Hrest].
    apply (propagate_task_safe F t task exec running); [done|done| |done]. apply Hsub. by left.
Qed.

Lemma Propagate_safe F : lasting F → safe F (PropagateExecutionResults p).
Proof using.
  intros HF. unfold PropagateExecutionResults. cbn [logged pv_taskOrchestrator pv_executionLoop].
  destruct (pv_taskOrchestrator p0) as [t|]; cbn [fmap option_fmap option_map]; [|apply safe_ret].
  destruct (pv_executionLoop p0) as [getTask|]; cbn [fmap option_fmap option_map]; [|apply safe_ret].
  apply triple_bind with (fun r => logs (fun l => F l ∧ CRunning r ∈ l)).
  { cbn [logged_tasks ListRunningTasks]. apply logs_call. intros l r _ HP. split; [done|]. split; [by apply HF|].
    apply elem_of_app. right. by left. }
  intros r. set (F' := fun l => F l ∧ CRunning r ∈ l).
  assert (HF' : lasting F') by (intros l c [H1 H2]; split; [by apply HF|by apply lasting_elem]).
  apply triple_weaken with (P' := logs F') (Q' := fun _ => logs F'); [|done|intros ? w [Hok [Hw _]]; by split].
  match goal with |- triple (logs ?G) ?c _ => change (safe G c) end.
  destruct r as [running|err]; [|apply safe_ret]. apply safe_bind; [|safe_steps].
  apply (propagate_all_safe F' t getTask running); [done|by intros l []|done].
Qed.

(** *** Cycles, ticks and calls *)

Lemma frozen_safe F name run : safe F run → safe F (unless_frozen p name run).
Proof using. intros H. unfold unless_frozen, state_of, auditEvent. safe_steps; exact H. Qed.

Lemma dispatch_safe F : lasting F → safe F (cycleTaskDispatch p).
Proof using.
  intros HF. unfold cycleTaskDispatch. cbn [logged pv_taskOrchestrator].
  destruct (pv_taskOrchestrator p0) as [t|]; cbn [fmap option_fmap option_map]; [|apply safe_ret].
  apply frozen_safe. unfold auditEvent, update_state. cbn [logged_tasks Dispatch].
  apply triple_bind with (fun r => logs (fun l => F l ∧ CDispatch r ∈ l)).
  { apply logs_call. intros l r _ HP. split; [done|]. split; [by apply HF|]. apply elem_of_app. right. by left. }
  intros [r|err]; [|apply (safe_from _ F); [by intros l []|safe_steps]].
  set (F' := fun l => F l ∧ CDispatch (Ok r) ∈ l).
  assert (HF' : lasting F') by (intros l c [H1 H2]; split; [by apply HF|by apply lasting_elem]).
  apply triple_weaken with (P' := logs F') (Q' := fun _ => logs F'); [|done|intros ? w [Hok [Hw _]]; by split].
  match goal with |- triple (logs ?G) ?c _ => change (safe G c) end.
  apply safe_bind; [|safe_steps]. apply safe_forS. intros [task exec] Hin. unfold link_execution. cbn [fst snd].
  case_decide as He; [apply safe_ret|]. apply safe_dropped. cbn [logged_tasks SetExecutionTaskID].
  apply logs_call. intros l a _ HP. split; [|by apply HF']. cbn. split; [done|]. exists r. split; [apply HP|done].
Qed.

Lemma recompute_safe F : lasting F → safe F (cycleTaskRecompute p).
Proof using.
  intros HF. unfold cycleTaskRecompute. pose proof (Propagate_safe F HF) as HP. cbn [logged pv_taskOrchestrator] in *.
  destruct (pv_taskOrchestrator p0) as [t|] eqn:Et; cbn [fmap option_fmap option_map]; [|apply safe_ret].
  apply frozen_safe. apply safe_bind; [exact HP|]. intros [[[completed failed] paused] err].
  unfold update_state, auditEvent. cbn [logged_tasks RecomputePriorities]. safe_steps.
Qed.

Lemma extension_ext disabled x : keeps_ext (review_extension p disabled x).
Proof using.
  unfold review_extension, block_extension, update_state, auditEvent. destruct (negb _); [keeps_ext_steps|].
  apply keeps_ext_bind; [keeps_ext_steps|]. intros window. apply keeps_ext_bind; [apply IsDuplicate_ext|]. keeps_ext_steps.
Qed.

Lemma extension_safe F : lasting F → safe F (cycleSelfExtension p).
Proof using.
  intros HF. unfold cycleSelfExtension, state_of. cbn [logged pv_selfExt].
  destruct (pv_selfExt p0); cbn [fmap option_fmap option_map]; [|apply safe_ret].
  apply safe_bind; [safe_steps|]. intros disabled. apply safe_bind; [by apply safe_call|]. intros [xs|]; [|apply safe_ret].
  apply safe_bind; [|safe_steps]. apply safe_forS. intros x _. apply quiet_calls, extension_ext.
Qed.

Lemma reporting_safe F : lasting F → safe F (cycleReporting p).
Proof using.
  intros HF. unfold cycleReporting, objective_snapshot, storeReport, update_state, timeNow, auditEvent.
  cbn [logged pv_objective]. destruct (pv_objective p0); cbn [fmap option_fmap option_map]; safe_steps.
Qed.

Lemma run_named_safe F cycle : lasting F → safe F (run_named p cycle).
Proof using.
  intros HF. unfold run_named.
  case_decide; [unfold cycleReflection; cbn [logged pv_reflection]; destruct (pv_reflection p0); safe_steps|].
  case_decide; [unfold cycleObjective; cbn [logged pv_objective]; destruct (pv_objective p0); safe_steps|].
  case_decide; [by apply cycleActuation_safe|].
  case_decide; [unfold cycleScheduling; cbn [logged pv_scheduling]; destruct (pv_scheduling p0); safe_steps|].
  case_decide; [unfold cyclePortfolio; cbn [logged pv_portfolio]; destruct (pv_portfolio p0); safe_steps|].
  case_decide; [unfold cycleDiscovery; cbn [logged pv_discovery]; destruct (pv_discovery p0); safe_steps|].
  case_decide; [by apply extension_safe|]. case_decide; [by apply recompute_safe|]. case_decide; [by apply dispatch_safe|].
  case_decide; [|case_decide; [|case_decide; [by apply reporting_safe|apply safe_ret]]].
  - unfold cycleGoalPlanning. cbn [logged pv_goalPlanning]. destruct (pv_goalPlanning p0); cbn [fmap option_fmap option_map]; [|apply safe_ret].
    apply frozen_safe. unfold auditEvent. safe_steps.
  - unfold cycleGoalReplanning. cbn [logged pv_goalReplanning]. destruct (pv_goalReplanning p0); cbn [fmap option_fmap option_map]; [|apply safe_ret].
    apply frozen_safe. unfold auditEvent. safe_steps.
Qed.

Lemma run_cycles_safe F cycles now : lasting F → safe F (run_cycles p cycles now).
Proof using.
  intros HF. induction cycles as [|cycle cycles IH]; cbn [run_cycles]; [apply safe_ret|].
  apply safe_bind; [|intros err; apply safe_bind; [exact IH|safe_steps]].
  unfold runCycle, update_state, auditEvent. apply safe_bind; [safe_steps|]. intros ?.
  apply safe_bind; [by apply run_named_safe|]. safe_steps.
Qed.

Lemma downgrade_ext reason : keeps_ext (downgrade p reason).
Proof using. intros s. apply downgrade_moves. Qed.
Lemma disableHeavy_ext : keeps_ext (disableHeavyActions p).
Proof using. intros s. apply disableHeavy_moves. Qed.
Lemma checkRecovery_ext : keeps_ext (checkRecovery p).
Proof using. intros s. apply checkRecovery_moves. Qed.

Lemma safety_safe F : lasting F → safe F (runSafetyChecks p).
Proof using.
  intros HF. unfold runSafetyChecks, check_pressure, check_overload. cbn [logged pv_pressure pv_capacity].
  apply safe_bind; [safe_steps|]. intros auto. destruct auto; [|apply safe_ret]. apply safe_bind.
  - destruct (pv_pressure p0); cbn [fmap option_fmap option_map]; [|apply safe_ret].
    apply safe_bind; [by apply safe_call|]. intros r. apply safe_bind; [safe_steps|]. intros threshold.
    destruct (fleb _ _); [apply quiet_calls, downgrade_ext|apply safe_ret].
  - intros ?. destruct (pv_capacity p0); cbn [fmap option_fmap option_map]; [|apply safe_ret].
    apply safe_bind; [by apply safe_call|]. intros r. apply safe_bind; [safe_steps|]. intros threshold.
    destruct (fleb _ _); [apply quiet_calls, disableHeavy_ext|apply safe_ret].
Qed.

Lemma work_safe F cycles now : lasting F → safe F (work p cycles now).
Proof using.
  intros HF. unfold work, update_state, state_of. apply safe_bind; [safe_steps|]. intros ?.
  apply safe_bind; [by apply run_cycles_safe|]. intros ok. apply safe_bind; [safe_steps|]. intros ?.
  apply safe_bind; [safe_steps|]. intros failures. apply safe_bind; [safe_steps|]. intros limit.
  apply safe_bind; [|intros ?; apply quiet_calls, checkRecovery_ext].
  destruct (bool_decide _); [apply quiet_calls, downgrade_ext|apply safe_ret].
Qed.

Lemma tick_safe F : lasting F → safe F (tick p).
Proof using.
  intros HF. unfold tick, state_of, timeNow. apply safe_bind; [safe_steps|]. intros mode. case_decide; [apply safe_ret|].
  apply safe_bind; [safe_steps|]. intros now. apply safe_bind; [safe_steps|]. intros [inWindow|]; [|apply safe_ret].
  apply safe_bind; [unfold Cleanup, timeNow; safe_steps|]. intros ?. apply safe_bind; [by apply safety_safe|]. intros ?.
  apply safe_bind; [safe_steps|]. intros [|cycle cycles]; [apply safe_ret|].
  apply safe_bind; [by apply work_safe|]. intros ?. apply safe_ret.
Qed.

Lemma bootstrap_safe F on cycle : lasting F → safe F (bootstrap p on cycle (run_named p cycle)).
Proof using.
  intros HF. unfold bootstrap, timeNow, update_state. destruct on; [|apply safe_ret].
  apply safe_bind; [by apply run_named_safe|]. safe_steps.
Qed.

Lemma start_safe F : lasting F → safe F (Start p).
Proof using.
  intros HF. unfold Start, state_of, timeNow, update_state, auditEvent. apply safe_bind; [safe_steps|]. intros running.
  destruct running; [apply safe_ret|]. apply safe_bind; [safe_steps|]. intros now. apply safe_bind; [safe_steps|]. intros cfg.
  apply safe_bind; [safe_steps|]. intros ?. apply safe_bind.
  { unfold set_startup_mode. cbn [logged pv_governance]. destruct (pv_governance p0); cbn [fmap option_fmap option_map GovernanceSetMode]; safe_steps. }
  intros ?. apply safe_bind; [safe_steps|]. intros ?. apply safe_bind; [|safe_steps]. unfold runBootstrap.
  apply safe_bind; [safe_steps|]. intros bs.
  apply safe_bind; [exact (bootstrap_safe F _ "reflection" HF)|]. intros ?.
  apply safe_bind; [exact (bootstrap_safe F _ "objective" HF)|]. intros ?.
  apply safe_bind; [exact (bootstrap_safe F _ "actuation" HF)|]. intros ?.
  exact (bootstrap_safe F _ "reporting" HF).
Qed.

Lemma exec_au_safe F op : lasting F → safe F (exec_au p op).
Proof using.
  intros HF. destruct op; cbn [exec_au].
  - by apply safe_dropped, tick_safe.
  - by apply safe_dropped, start_safe.
  - unfold Stop, state_of, update_state, auditEvent. safe_steps.
  - unfold ReloadConfig, update_state, auditEvent. safe_steps.
  - unfold SetMode, update_state, auditEvent. safe_steps.
  - unfold CreateExceptionReport, storeReport, timeNow, auditEvent. safe_steps.
  - unfold GetReflectionFeedback, GetObjectiveFeedback, timeNow, auditEvent. cbn [logged pv_feedbackStore].
    destruct (pv_feedbackStore p0); cbn [fmap option_fmap option_map]; cbv zeta; [|safe_steps].
    cbn [logged_feedback FeedbackListRecent CountByOutcome CountBySignal]. safe_steps.
Qed.

(** C36: Whatever the other engines answer, over any history of ticks and calls the
    runtime creates a task only for a decision that some earlier listing gave as
    proposed and without need of review, and that had no task when asked just
    before, with the decision's parameters; links it to that decision; and
    completes, fails or pauses a task only when it was listed as running and its
    execution, just looked up, is in the state that calls for it. *)
Theorem calls_are_justified ops (s : Agent Runtime (X * list Call)) before c after :
  snd (ag_ext s) = [] →
  snd (ag_ext (snd (forS (exec_au p) ops s))) = before ++ c :: after →
  justified before c.
Proof using.
  intros Hs. assert (H : safe (fun _ => True) (forS (exec_au p) ops)).
  { apply safe_forS. intros op _. apply exec_au_safe, lasting_true. }
  destruct (H s) as [Hok _]; [split; [|done]; rewrite Hs; apply log_ok_nil|]. apply Hok.
Qed.
End cycles.
