(* ===== verification/AutonomyDemo.v ===== *)
(** * The autonomy runtime on a concrete configuration

    Witnesses that the hypotheses of the theorems hold, and behaviours that the
    comments of the code do not suggest. *)

From stdpp Require Import base gmap strings list tactics numbers fin_maps pretty.
From Stdlib Require Import ZArith Lia.
From S2P Require Import Prelude GoFloat Models GoTime AgentWorld Fixtures AutonomyConfig Autonomy AutonomyProps AutonomyControl AutonomyCalls.

Open Scope Z_scope.

#[local] Existing Instance demo_uuid.

Definition demo_zone : LocalZone := fun _ => 0.
#[local] Existing Instance demo_zone.

(** ** A configuration *)

Definition demo_governance : GovernanceCfg :=
  mkGovernanceCfg "autonomous" false true true true true true true true true true false true true true false [] [].

Definition demo_scheduler : SchedulerCfg :=
  mkSchedulerCfg true 60 (mkCyclesCfg 1 2 1 2 4 6 6 6 12 1 1 6 6 24) (mkBootstrapCfg true false true false).

Definition demo_window : ExecutionWindow :=
  mkExecutionWindow true "22:00" "06:30" "Europe/Amsterdam" (mkOutsideWindow true true true true false false false).

Definition demo_limits : LimitsCfg :=
  mkLimitsCfg 1 1 5 1 10 4 3 3 (mkDedupeCfg 24 24 24 24) (mkQueueLimits 20 20 5).

Definition demo_risk (restore : bool) : RiskCfg :=
  mkRiskCfg true "supervised_autonomy"
    (mkRiskThresh (lit 30 100) (lit 80 100) (lit 85 100) 10 5 (lit 20 100))
    (mkBreachPolicy true true true true true) (mkRecoveryCfg 3 restore).

Definition demo_config (mode : string) : AutonomyConfig :=
  mkAutonomyConfig mode demo_governance demo_scheduler demo_window demo_limits (demo_risk true)
    (mkSchedulingCfg true true true false) (mkSelfExtCfg true true true true true true [])
    (mkActuationCfg true true true true 10 2 5) true.

Example demo_config_valid : Validate (demo_config ModeBoundedAutonomy) = None.
Proof. by vm_compute. Qed.

(** ** Providers

    The state of the other engines is the number of tasks created. *)

Definition demo_decisions : list ActuationDecisionInfo :=
  [mkDecisionInfo "d1" "reduce_load" "proposed" false (lit 60 100) 0;
   mkDecisionInfo "d2" "increase_discovery" "proposed" false (lit 50 100) 0;
   mkDecisionInfo "d3" "trigger_automation" "proposed" false (lit 90 100) 0;
   mkDecisionInfo "d4" "adjust_pricing" "proposed" true (lit 70 100) 0;
   mkDecisionInfo "d5" "reduce_load" "approved" false (lit 70 100) 0].

Definition ok_now : St Z (option error) := retS None.

Definition demo_tasks : TaskOrchestratorRunner Z :=
  mkTaskRunner (fun _ _ _ _ _ _ n => (Ok ("t" +:+ pretty n), n + 1))
    ok_now (retS (Ok (mkDispatchInfo 1 0 0 [("t0", "x0")]))) (fun _ => retS ("", None))
    (fun _ => ok_now) (fun _ _ => ok_now) (fun _ => ok_now) (fun _ _ => ok_now) (fun _ _ => ok_now) (fun _ _ _ _ => ok_now)
    (fun _ => retS (Ok [mkRunningTask "t9" "x9" "goal" 2; mkRunningTask "t8" "" "goal" 0])).

Definition demo_exec (id : string) : St Z (res ExecTaskInfo) :=
  retS (Ok (mkExecInfo id "aborted" "objective penalty too high" 4 3 1 false)).

(** A clock of ten minutes per reading, from midnight. *)
Definition demo_now (n : nat) : time := Z.of_nat n * (10 * Minute).

Definition demo_providers (pressure : float64) : Providers Z :=
  mkProviders demo_now true (Some (fun _ => retS (Ok (mkReflectionResult 2 0))))
    (Some (retS (Ok (mkObjectiveResult (lit 60 100) (lit 20 100)))))
    (Some (mkActuationRunner (retS (Ok (mkActuationResult 5 1))) (fun _ => retS (Ok demo_decisions))))
    (Some ok_now) None None None (Some (retS (pressure, "window"))) (Some (retS (lit 10 100))) None
    (Some demo_tasks) (Some demo_exec) None None None.

Definition demo_agent (mode : string) : Agent Runtime Z :=
  mkAgent (NewOrchestrator (demo_config mode)) 0 0 0 [] [].

Definition calm : Providers Z := demo_providers (lit 20 100).
Definition tense : Providers Z := demo_providers (lit 90 100).

(** Decisions beyond the limit of one action per cycle are counted as suppressed,
    and become tasks all the same. *)
Example suppressed_become_tasks :
  let s := snd (tick calm (demo_agent ModeBoundedAutonomy)) in
  (st_SafeActionsRouted (rn_state (ag_db s)), st_SuppressedDecisions (rn_state (ag_db s)),
   st_TasksCreatedFromActuation (rn_state (ag_db s)), ag_ext s) = (1, 2, 3, 3).
Proof. by vm_compute. Qed.

(** The same heavy decision with heavy actions disabled by the pressure. *)
Example heavy_becomes_task :
  let s := snd (tick tense (demo_agent ModeBoundedAutonomy)) in
  st_HeavyActionsDisabled (rn_state (ag_db s)) = true ∧ st_Mode (rn_state (ag_db s)) = ModeSupervisedAutonomy ∧
  st_TasksCreatedFromActuation (rn_state (ag_db s)) = 3.
Proof. vm_compute. repeat split. Qed.

(** Started in frozen mode, the bootstrap still reflects and asks for decisions;
    only the tasks are held back. *)
Example bootstrap_runs_frozen :
  let s := snd (Start calm (demo_agent ModeFrozen)) in
  map_to_list (st_CyclesRun (rn_state (ag_db s))) = [("actuation", 1); ("reflection", 1)] ∧
  st_TasksCreatedFromActuation (rn_state (ag_db s)) = 0 ∧ st_SafeActionsRouted (rn_state (ag_db s)) = 1.
Proof. vm_compute. repeat split. Qed.

(** Reports come back in the order they were made. *)
Example reports_oldest_first :
  let s := snd (forS (fun trigger => CreateExceptionReport calm trigger) ["first"; "second"; "third"] (demo_agent ModeAutonomous)) in
  map rp_ExceptionTrigger (fst (GetReports (X := Z) 2 s)) = ["second"; "third"].
Proof. by vm_compute. Qed.

(** ** Witnesses *)

Lemma tick_refines_control_witness :
  Validate (demo_config ModeBoundedAutonomy) = None ∧ fst (tick tense (demo_agent ModeBoundedAutonomy)) = true.
Proof.
  split; [vm_compute; reflexivity|].
  destruct (tick_refines_control tense (demo_agent ModeBoundedAutonomy)) as (inWindow & outcome & _ & H & _);
    [vm_compute; reflexivity|exact H].
Defined.

Lemma calls_refine_control_witness :
  ctl (ag_db (snd (exec_au tense (OpSetMode ModeFrozen) (demo_agent ModeBoundedAutonomy)))) =
    spec_call (OpSetMode ModeFrozen) (demo_config ModeBoundedAutonomy) (control (newRuntimeState ModeBoundedAutonomy)).
Proof. exact (calls_refine_control tense (OpSetMode ModeFrozen) (demo_agent ModeBoundedAutonomy) ltac:(discriminate)). Defined.

Definition ticked : Agent Runtime Z := snd (tick calm (demo_agent ModeBoundedAutonomy)).

Lemma cycles_are_paced_witness :
  let s' := snd (forS (exec_au calm) [OpTick; OpException "manual"; OpTick] ticked) in
  ∃ t, st_LastCycleTimes (rn_state (ag_db s')) !! "reflection" = Some t ∧
       (default 0 (st_CyclesRun (rn_state (ag_db s')) !! "reflection") -
        default 0 (st_CyclesRun (rn_state (ag_db ticked)) !! "reflection")) * Hour ≤ t.
Proof.
  destruct (cycles_are_paced calm [OpTick; OpException "manual"; OpTick] ticked "reflection" 0) as (t & Ht & Hp).
  - vm_compute; reflexivity.
  - apply (bool_decide_unpack _); vm_compute; exact I.
  - repeat constructor.
  - vm_compute; reflexivity.
  - exists t. split; [exact Ht|]. rewrite Z.sub_0_r in Hp. exact Hp.
Defined.

Definition demo_logged : Agent Runtime (Z * list Call) :=
  mkAgent (NewOrchestrator (demo_config ModeBoundedAutonomy)) (0, []) 0 0 [] [].

Definition demo_log : list Call := snd (ag_ext (snd (forS (exec_au (logged calm)) [OpTick] demo_logged))).

(** The abort of a running task's execution, and the creation of a task. *)
Lemma calls_are_justified_witness :
  justified (take 18 demo_log) (CFail "t9" "objective penalty too high" None) ∧
  justified (take 7 demo_log)
    (CCreate "actuation" (decision_goal "reduce_load") (lit 60 100) (lit 60 100) (lit 3 10) "" (Ok "t0")).
Proof.
  split.
  - apply (calls_are_justified calm [OpTick] demo_logged _ _ (drop 19 demo_log)); vm_compute; reflexivity.
  - apply (calls_are_justified calm [OpTick] demo_logged _ _ (drop 8 demo_log)); vm_compute; reflexivity.
Defined.
