(* ===== verification/Governance.v ===== *)
(** * Governance ([internal/agent/governance])

    One row of operator settings (mode, freeze flags, overrides), an
    append-only log of operator actions, the controller that changes them and
    the adapter through which the engines read them.

    The auditor is the interface [audit.AuditRecorder]: its state [X] is the
    provider's state of the world and its answers are arbitrary.  Replay packs
    ([replay.go]) are not modelled. *)

From stdpp Require Import base gmap strings list tactics numbers fin_maps.
From Stdlib Require Import ZArith Lia.
From S2P Require Import Prelude GoSort Models GoTime AgentWorld ExternalActions.

Open Scope Z_scope.

(** ** Types *)

Definition ModeNormal : string := "normal".
Definition ModeFrozen : string := "frozen".
Definition ModeSafeHold : string := "safe_hold".
Definition ModeRollbackOnly : string := "rollback_only".

Definition ActionFreeze : string := "freeze".
Definition ActionUnfreeze : string := "unfreeze".
Definition ActionSafeHold : string := "safe_hold".
Definition ActionRollback : string := "rollback".
Definition ActionForceMode : string := "force_mode".
Definition ActionRequireReview : string := "require_review".
Definition ActionClearOverride : string := "clear_override".

Definition validReasoningModes (mode : string) : bool :=
  bool_decide (mode ∈ [""; "graph"; "direct"; "conservative"; "exploratory"]).

Record GovernanceState := mkGov {
  gs_Mode : string;
  gs_FreezeLearning : bool;
  gs_FreezePolicyUpdates : bool;
  gs_FreezeExploration : bool;
  gs_ForceReasoningMode : string;
  gs_ForceSafeMode : bool;
  gs_RequireHumanReview : bool;
  gs_LastUpdated : time;
  gs_Reason : string
}.

#[export] Instance GovernanceState_settable : Settable GovernanceState := fun r =>
  mkGov (gs_Mode r) (gs_FreezeLearning r) (gs_FreezePolicyUpdates r) (gs_FreezeExploration r)
    (gs_ForceReasoningMode r) (gs_ForceSafeMode r) (gs_RequireHumanReview r) (gs_LastUpdated r)
    (gs_Reason r).

Definition zero_gov : GovernanceState := mkGov "" false false false "" false false zero_time "".

Definition DefaultState (now : time) : GovernanceState :=
  zero_gov <| gs_Mode := ModeNormal |> <| gs_LastUpdated := now |> <| gs_Reason := "default" |>.

Definition IsFrozen (s : GovernanceState) : bool :=
  bool_decide (gs_Mode s = ModeFrozen) || bool_decide (gs_Mode s = ModeRollbackOnly).

Definition IsLearningBlocked (s : GovernanceState) : bool :=
  gs_FreezeLearning s || bool_decide (gs_Mode s = ModeFrozen)
  || bool_decide (gs_Mode s = ModeRollbackOnly).

Definition IsPolicyBlocked (s : GovernanceState) : bool :=
  gs_FreezePolicyUpdates s || bool_decide (gs_Mode s = ModeFrozen)
  || bool_decide (gs_Mode s = ModeRollbackOnly).

Definition IsExplorationBlocked (s : GovernanceState) : bool :=
  gs_FreezeExploration s || bool_decide (gs_Mode s = ModeFrozen)
  || bool_decide (gs_Mode s = ModeSafeHold) || bool_decide (gs_Mode s = ModeRollbackOnly).

Definition EffectiveReasoningMode (s : GovernanceState) : string :=
  if gs_ForceSafeMode s || bool_decide (gs_Mode s = ModeSafeHold) then "conservative"
  else if bool_decide (gs_ForceReasoningMode s ≠ "") then gs_ForceReasoningMode s
  else "".

(** A [map[string]any] as the controller fills it: string and boolean values,
    and maps of them; entries in the order of the literal. *)
Inductive GoAny : Type :=
| AnyString (s : string)
| AnyBool (b : bool)
| AnyMap (m : list (string * GoAny)).

Abbreviation GoMap := (list (string * GoAny)).

(** [None] is a nil map. *)
Record GovernanceAction := mkGovAction {
  gv_ID : string;
  gv_ActionType : string;
  gv_RequestedBy : string;
  gv_Reason : string;
  gv_Payload : option GoMap;
  gv_CreatedAt : time
}.

#[export] Instance GovernanceAction_settable : Settable GovernanceAction := fun r =>
  mkGovAction (gv_ID r) (gv_ActionType r) (gv_RequestedBy r) (gv_Reason r) (gv_Payload r)
    (gv_CreatedAt r).

(** Requests; a nil [*bool] is [None]. *)
Record FreezeRequest := mkFreeze {
  fr_RequestedBy : string;
  fr_Reason : string;
  fr_FreezeLearning : option bool;
  fr_FreezePolicy : option bool;
  fr_FreezeExploration : option bool
}.

Record ForceModeRequest := mkForceMode {
  fm_RequestedBy : string;
  fm_Reason : string;
  fm_ReasoningMode : string;
  fm_ForceSafeMode : option bool
}.

(** [SafeHoldRequest], [RollbackRequest], [UnfreezeRequest] and
    [ClearOverrideRequest] have the same two fields. *)
Record PlainRequest := mkPlain {
  pr_RequestedBy : string;
  pr_Reason : string
}.

(** ** Stores *)

Record GovDB := mkGovDB {
  gov_state : option GovernanceState;     (* agent_governance_state, the row with id 1 *)
  gov_actions : list GovernanceAction     (* agent_governance_actions, oldest insert first *)
}.

#[export] Instance GovDB_settable : Settable GovDB := fun r => mkGovDB (gov_state r) (gov_actions r).

(** The arguments of [AuditRecorder.RecordEvent]. *)
Record AuditEvent := mkAuditEvent {
  ae_entityType : string;
  ae_entityID : uuid;
  ae_eventType : string;
  ae_actorType : string;
  ae_actorID : string;
  ae_payload : GoMap
}.

Record Controller (X : Type) := mkController {
  ct_clock : nat → time;
  ct_auditor : option (AuditEvent → St X (option error))
}.
Arguments mkController {X}.
Arguments ct_clock {X}.
Arguments ct_auditor {X}.

Definition stateSnapshot (st : GovernanceState) : GoMap :=
  [("mode", AnyString (gs_Mode st));
   ("freeze_learning", AnyBool (gs_FreezeLearning st));
   ("freeze_policy", AnyBool (gs_FreezePolicyUpdates st));
   ("freeze_exploration", AnyBool (gs_FreezeExploration st));
   ("force_reasoning_mode", AnyString (gs_ForceReasoningMode st));
   ("force_safe_mode", AnyBool (gs_ForceSafeMode st));
   ("require_human_review", AnyBool (gs_RequireHumanReview st));
   ("reason", AnyString (gs_Reason st))].

(** What the row keeps of a state. *)
Definition stored_gov (st : GovernanceState) : GovernanceState :=
  st <| gs_LastUpdated := trunc_us (gs_LastUpdated st) |>.

Section governance.
Context {U : UuidPkg} {X : Type} (c : Controller X).

Abbreviation GV := (St (Agent GovDB X)).

Definition gov_now : GV time := reading (ct_clock c).

(** [StateStore.GetState]: on error the default state comes with it. *)
Definition StateStore_GetState : GV (GovernanceState * option error) :=
  let! r := statement (fun db => match gov_state db with
                                 | Some st => Ok (st, db)
                                 | None => Err ErrNoRows
                                 end) in
  match r with
  | Ok st => retS (st, None)
  | Err err => let! now := gov_now in
               retS (DefaultState now, Some (wrap "get governance state: " err))
  end.

Definition SaveState (st : GovernanceState) : GV (option error) :=
  let! r := statement (fun db => Ok (tt, db <| gov_state := Some (stored_gov st) |>)) in
  match r with
  | Ok _ => retS None
  | Err err => retS (Some (wrap "save governance state: " err))
  end.

(** The database assigns the id.  [json.Marshal] of such a map does not fail. *)
Definition RecordAction (action : GovernanceAction) : GV (option error) :=
  let! id := fresh_uuid in
  let! r := statement (fun db =>
    Ok (tt, db <| gov_actions := gov_actions db ++
                    [action <| gv_ID := id |> <| gv_CreatedAt := trunc_us (gv_CreatedAt action) |>] |>)) in
  match r with
  | Ok _ => retS None
  | Err err => retS (Some (wrap "record governance action: " err))
  end.

(** A row read back: a nil payload was stored as [null] and becomes empty. *)
Definition read_action (a : GovernanceAction) : GovernanceAction :=
  a <| gv_Payload := Some (default [] (gv_Payload a)) |>.

Definition ListGovernanceActions (limit offset : Z) : GV (res (list GovernanceAction)) :=
  let! r := statement (fun db =>
    if bool_decide (limit < 0) then Err (Errorf "LIMIT must not be negative")
    else if bool_decide (offset < 0) then Err (Errorf "OFFSET must not be negative")
    else Ok (take (Z.to_nat limit) (drop (Z.to_nat offset)
               (SliceStable (fun x y => bool_decide (gv_CreatedAt y < gv_CreatedAt x))
                  (gov_actions db))), db)) in
  match r with
  | Ok rows => retS (Ok (map read_action rows))
  | Err err => retS (Err (wrap "list governance actions: " err))
  end.

(** ** Controller *)

Definition failsafe_state (now : time) : GovernanceState :=
  zero_gov <| gs_Mode := ModeSafeHold |> <| gs_FreezeLearning := true |>
           <| gs_FreezePolicyUpdates := true |> <| gs_FreezeExploration := true |>
           <| gs_ForceSafeMode := true |> <| gs_LastUpdated := now |>
           <| gs_Reason := "fail-safe: governance state unreadable" |>.

Definition GetState : GV GovernanceState :=
  let! out := StateStore_GetState in
  let '(st, err) := out in
  match err with
  | Some _ => let! now := gov_now in retS (failsafe_state now)
  | None => retS st
  end.

Definition recordAction (actionType requestedBy reason : string) (payload : GoMap) : GV unit :=
  let! now := gov_now in
  dropped (RecordAction (mkGovAction "" actionType requestedBy reason (Some payload) now)).

Definition new_uuid : GV uuid := fun s =>
  (uuid_New (ag_uuids s), s <| ag_uuids := S (ag_uuids s) |>).

Definition gov_audit (eventType : string) (payload : GoMap) : GV unit :=
  match ct_auditor c with
  | None => retS tt
  | Some record =>
      let! id := new_uuid in
      dropped (provider (record (mkAuditEvent "governance" id eventType "operator"
                                   "governance_controller" payload)))
  end.

Definition emitStateChanged (prev next : GovernanceState) (requestedBy : string) : GV unit :=
  gov_audit "governance.state_changed"
    [("requested_by", AnyString requestedBy); ("previous_state", AnyMap (stateSnapshot prev));
     ("new_state", AnyMap (stateSnapshot next)); ("reason", AnyString (gs_Reason next))].

Definition emitOverrideApplied (prev next : GovernanceState) (requestedBy overrideType : string) : GV unit :=
  gov_audit "governance.override_applied"
    [("requested_by", AnyString requestedBy); ("override_type", AnyString overrideType);
     ("previous_state", AnyMap (stateSnapshot prev));
     ("new_state", AnyMap (stateSnapshot next)); ("reason", AnyString (gs_Reason next))].

Definition emitRollbackApplied (prev next : GovernanceState) (requestedBy : string) : GV unit :=
  gov_audit "governance.rollback_applied"
    [("requested_by", AnyString requestedBy); ("previous_state", AnyMap (stateSnapshot prev));
     ("new_state", AnyMap (stateSnapshot next)); ("reason", AnyString (gs_Reason next))].

Definition requested_by_required {A} : res A := Err (Errorf "requested_by is required").

(** The payload most actions are logged with. *)
Definition mode_change (prev st : GovernanceState) : GoMap :=
  [("previous_mode", AnyString (gs_Mode prev)); ("new_mode", AnyString (gs_Mode st))].

Definition Freeze (req : FreezeRequest) : GV (res GovernanceState) :=
  if bool_decide (fr_RequestedBy req = "") then retS requested_by_required
  else
    let! prev := GetState in
    let! now := gov_now in
    let st := prev <| gs_Mode := ModeFrozen |> <| gs_LastUpdated := now |>
                   <| gs_Reason := fr_Reason req |>
                   <| gs_FreezeLearning := default true (fr_FreezeLearning req) |>
                   <| gs_FreezePolicyUpdates := default true (fr_FreezePolicy req) |>
                   <| gs_FreezeExploration := default true (fr_FreezeExploration req) |> in
    let! err := SaveState st in
    match err with
    | Some err => retS (Err (wrap "save frozen state: " err))
    | None =>
        let! _ := recordAction ActionFreeze (fr_RequestedBy req) (fr_Reason req) (mode_change prev st) in
        let! _ := emitStateChanged prev st (fr_RequestedBy req) in
        retS (Ok st)
    end.

Definition Unfreeze (req : PlainRequest) : GV (res GovernanceState) :=
  if bool_decide (pr_RequestedBy req = "") then retS requested_by_required
  else
    let! prev := GetState in
    let! now := gov_now in
    let st := zero_gov <| gs_Mode := ModeNormal |> <| gs_LastUpdated := now |>
                       <| gs_Reason := pr_Reason req |> in
    let! err := SaveState st in
    match err with
    | Some err => retS (Err (wrap "save unfrozen state: " err))
    | None =>
        let! _ := recordAction ActionUnfreeze (pr_RequestedBy req) (pr_Reason req) (mode_change prev st) in
        let! _ := emitStateChanged prev st (pr_RequestedBy req) in
        retS (Ok st)
    end.

Definition ForceMode (req : ForceModeRequest) : GV (res GovernanceState) :=
  if bool_decide (fm_RequestedBy req = "") then retS requested_by_required
  else if bool_decide (fm_ReasoningMode req ≠ "") && negb (validReasoningModes (fm_ReasoningMode req))
  then retS (Err (Errorf ("invalid reasoning mode: " +:+ fm_ReasoningMode req)))
  else
    let! prev := GetState in
    let! now := gov_now in
    let st := prev <| gs_ForceReasoningMode := fm_ReasoningMode req |>
                   <| gs_ForceSafeMode := default (gs_ForceSafeMode prev) (fm_ForceSafeMode req) |>
                   <| gs_LastUpdated := now |> <| gs_Reason := fm_Reason req |> in
    let! err := SaveState st in
    match err with
    | Some err => retS (Err (wrap "save forced mode state: " err))
    | None =>
        let! _ := recordAction ActionForceMode (fm_RequestedBy req) (fm_Reason req)
                    [("previous_mode", AnyString (gs_Mode prev));
                     ("force_reasoning_mode", AnyString (gs_ForceReasoningMode st));
                     ("force_safe_mode", AnyBool (gs_ForceSafeMode st))] in
        let! _ := emitOverrideApplied prev st (fm_RequestedBy req) "force_mode" in
        retS (Ok st)
    end.

Definition SafeHold (req : PlainRequest) : GV (res GovernanceState) :=
  if bool_decide (pr_RequestedBy req = "") then retS requested_by_required
  else
    let! prev := GetState in
    let! now := gov_now in
    let st := prev <| gs_Mode := ModeSafeHold |> <| gs_ForceSafeMode := true |>
                   <| gs_FreezeExploration := true |> <| gs_LastUpdated := now |>
                   <| gs_Reason := pr_Reason req |> in
    let! err := SaveState st in
    match err with
    | Some err => retS (Err (wrap "save safe_hold state: " err))
    | None =>
        let! _ := recordAction ActionSafeHold (pr_RequestedBy req) (pr_Reason req) (mode_change prev st) in
        let! _ := emitStateChanged prev st (pr_RequestedBy req) in
        retS (Ok st)
    end.

Definition Rollback (req : PlainRequest) : GV (res GovernanceState) :=
  if bool_decide (pr_RequestedBy req = "") then retS requested_by_required
  else
    let! prev := GetState in
    let! now := gov_now in
    let st := zero_gov <| gs_Mode := ModeRollbackOnly |> <| gs_FreezeLearning := true |>
                       <| gs_FreezePolicyUpdates := true |> <| gs_FreezeExploration := true |>
                       <| gs_ForceSafeMode := true |> <| gs_LastUpdated := now |>
                       <| gs_Reason := pr_Reason req |> in
    let! err := SaveState st in
    match err with
    | Some err => retS (Err (wrap "save rollback state: " err))
    | None =>
        let! _ := recordAction ActionRollback (pr_RequestedBy req) (pr_Reason req) (mode_change prev st) in
        let! _ := emitRollbackApplied prev st (pr_RequestedBy req) in
        retS (Ok st)
    end.

Definition ClearOverride (req : PlainRequest) : GV (res GovernanceState) :=
  if bool_decide (pr_RequestedBy req = "") then retS requested_by_required
  else
    let! prev := GetState in
    let! now := gov_now in
    let st := zero_gov <| gs_Mode := ModeNormal |> <| gs_LastUpdated := now |>
                       <| gs_Reason := pr_Reason req |> in
    let! err := SaveState st in
    match err with
    | Some err => retS (Err (wrap "save cleared state: " err))
    | None =>
        let! _ := recordAction ActionClearOverride (pr_RequestedBy req) (pr_Reason req) (mode_change prev st) in
        let! _ := emitStateChanged prev st (pr_RequestedBy req) in
        retS (Ok st)
    end.

(** ** [ControllerAdapter]: what the engines ask *)

Definition ga_IsLearningBlocked : GV bool := let! st := GetState in retS (IsLearningBlocked st).
Definition ga_IsPolicyBlocked : GV bool := let! st := GetState in retS (IsPolicyBlocked st).
Definition ga_IsExplorationBlocked : GV bool := let! st := GetState in retS (IsExplorationBlocked st).
Definition ga_EffectiveReasoningMode : GV string :=
  let! st := GetState in retS (EffectiveReasoningMode st).
Definition ga_RequiresHumanReview : GV bool := let! st := GetState in retS (gs_RequireHumanReview st).
Definition ga_GetMode : GV string := let! st := GetState in retS (gs_Mode st).
End governance.
