(* ===== verification/GovernanceProps.v ===== *)
(** * Properties of governance

    The six operator calls are instances of one scheme ([change]); its effect
    on the tables under any faults, and its exact result without faults, carry
    the theorems. *)

From stdpp Require Import base gmap strings list tactics numbers fin_maps.
From Stdlib Require Import ZArith Lia.
From S2P Require Import Prelude GoSort Models AgentWorld ExternalActions Fixtures Governance.

Open Scope Z_scope.

(** ** The operator's calls *)

Inductive GovOp : Type :=
| OpFreeze (req : FreezeRequest)
| OpUnfreeze (req : PlainRequest)
| OpForceMode (req : ForceModeRequest)
| OpSafeHold (req : PlainRequest)
| OpRollback (req : PlainRequest)
| OpClearOverride (req : PlainRequest).

Definition op_requester (op : GovOp) : string :=
  match op with
  | OpFreeze r => fr_RequestedBy r
  | OpForceMode r => fm_RequestedBy r
  | OpUnfreeze r | OpSafeHold r | OpRollback r | OpClearOverride r => pr_RequestedBy r
  end.

Definition op_reason (op : GovOp) : string :=
  match op with
  | OpFreeze r => fr_Reason r
  | OpForceMode r => fm_Reason r
  | OpUnfreeze r | OpSafeHold r | OpRollback r | OpClearOverride r => pr_Reason r
  end.

Definition op_kind (op : GovOp) : string :=
  match op with
  | OpFreeze _ => ActionFreeze
  | OpUnfreeze _ => ActionUnfreeze
  | OpForceMode _ => ActionForceMode
  | OpSafeHold _ => ActionSafeHold
  | OpRollback _ => ActionRollback
  | OpClearOverride _ => ActionClearOverride
  end.

(** Why a request is refused before anything is read. *)
Definition op_refusal (op : GovOp) : option error :=
  if bool_decide (op_requester op = "") then Some (Errorf "requested_by is required")
  else match op with
       | OpForceMode r =>
           if validReasoningModes (fm_ReasoningMode r) then None
           else Some (Errorf ("invalid reasoning mode: " +:+ fm_ReasoningMode r))
       | _ => None
       end.

(** The settings a call asks for, given those it found. *)
Definition op_next (op : GovOp) (prev : GovernanceState) (now : time) : GovernanceState :=
  let st :=
    match op with
    | OpFreeze r =>
        prev <| gs_Mode := ModeFrozen |>
             <| gs_FreezeLearning := default true (fr_FreezeLearning r) |>
             <| gs_FreezePolicyUpdates := default true (fr_FreezePolicy r) |>
             <| gs_FreezeExploration := default true (fr_FreezeExploration r) |>
    | OpForceMode r =>
        prev <| gs_ForceReasoningMode := fm_ReasoningMode r |>
             <| gs_ForceSafeMode := default (gs_ForceSafeMode prev) (fm_ForceSafeMode r) |>
    | OpSafeHold _ =>
        prev <| gs_Mode := ModeSafeHold |> <| gs_ForceSafeMode := true |>
             <| gs_FreezeExploration := true |>
    | OpRollback _ =>
        zero_gov <| gs_Mode := ModeRollbackOnly |> <| gs_FreezeLearning := true |>
                 <| gs_FreezePolicyUpdates := true |> <| gs_FreezeExploration := true |>
                 <| gs_ForceSafeMode := true |>
    | OpUnfreeze _ | OpClearOverride _ => zero_gov <| gs_Mode := ModeNormal |>
    end in
  st <| gs_LastUpdated := now |> <| gs_Reason := op_reason op |>.

Definition op_context (op : GovOp) : string :=
  match op with
  | OpFreeze _ => "save frozen state: "
  | OpUnfreeze _ => "save unfrozen state: "
  | OpForceMode _ => "save forced mode state: "
  | OpSafeHold _ => "save safe_hold state: "
  | OpRollback _ => "save rollback state: "
  | OpClearOverride _ => "save cleared state: "
  end.

Definition op_payload (op : GovOp) (prev st : GovernanceState) : GoMap :=
  match op with
  | OpForceMode _ =>
      [("previous_mode", AnyString (gs_Mode prev));
       ("force_reasoning_mode", AnyString (gs_ForceReasoningMode st));
       ("force_safe_mode", AnyBool (gs_ForceSafeMode st))]
  | _ => mode_change prev st
  end.

(** The audit event: its type and, for a forced mode, one entry more. *)
Definition op_event (op : GovOp) : string :=
  match op with
  | OpForceMode _ => "governance.override_applied"
  | OpRollback _ => "governance.rollback_applied"
  | _ => "governance.state_changed"
  end.

Definition op_audit (op : GovOp) (prev st : GovernanceState) : GoMap :=
  [("requested_by", AnyString (op_requester op))] ++
  match op with OpForceMode _ => [("override_type", AnyString "force_mode")] | _ => [] end ++
  [("previous_state", AnyMap (stateSnapshot prev)); ("new_state", AnyMap (stateSnapshot st));
   ("reason", AnyString (gs_Reason st))].

Section calls.
Context {U : UuidPkg} {X : Type} (c : Controller X).

Abbreviation GV := (St (Agent GovDB X)).

Definition run_op (op : GovOp) : GV (res GovernanceState) :=
  match op with
  | OpFreeze r => Freeze c r
  | OpUnfreeze r => Unfreeze c r
  | OpForceMode r => ForceMode c r
  | OpSafeHold r => SafeHold c r
  | OpRollback r => Rollback c r
  | OpClearOverride r => ClearOverride c r
  end.

(** What follows the reading of the state and of the clock. *)
Definition apply_change (op : GovOp) (prev : GovernanceState) (now : time) : GV (res GovernanceState) :=
  let st := op_next op prev now in
  let! err := SaveState st in
  match err with
  | Some err => retS (Err (wrap (op_context op) err))
  | None =>
      let! _ := recordAction c (op_kind op) (op_requester op) (op_reason op) (op_payload op prev st) in
      let! _ := gov_audit c (op_event op) (op_audit op prev st) in
      retS (Ok st)
  end.

Definition change (op : GovOp) : GV (res GovernanceState) :=
  match op_refusal op with
  | Some err => retS (Err err)
  | None =>
      let! prev := GetState c in
      let! now := gov_now c in
      apply_change op prev now
  end.

Lemma run_op_change op : run_op op = change op.
Proof using.
  destruct op; cbn [run_op]; unfold change, op_refusal; cbn [op_requester];
    [unfold Freeze|unfold Unfreeze|unfold ForceMode|unfold SafeHold|unfold Rollback|unfold ClearOverride];
    (case_bool_decide; [reflexivity|]); try reflexivity.
  assert (E : bool_decide (fm_ReasoningMode req ≠ "") && negb (validReasoningModes (fm_ReasoningMode req))
            = negb (validReasoningModes (fm_ReasoningMode req))).
  { case_bool_decide as H0; [done|]. by destruct (decide (fm_ReasoningMode req = "")) as [->|]. }
  rewrite E. by destruct (validReasoningModes _).
Qed.
End calls.

(** ** The tables under any faults *)

(** The settings a read of [row] may report. *)
Definition reported (row : option GovernanceState) (st : GovernanceState) : Prop :=
  row = Some st ∨ ∃ now, st = failsafe_state now.

(** One call's effect on the tables: the settings change only as the call asks,
    and are logged only when they did. *)
Definition explained (op : GovOp) (db db' : GovDB) : Prop :=
  db' = db ∨
  ∃ prev now, op_refusal op = None ∧ reported (gov_state db) prev ∧
    gov_state db' = Some (stored_gov (op_next op prev now)) ∧
    (gov_actions db' = gov_actions db ∨
     ∃ a, gov_actions db' = gov_actions db ++ [a] ∧ gv_ActionType a = op_kind op ∧
          gv_RequestedBy a = op_requester op ∧ gv_Reason a = op_reason op ∧
          gv_Payload a = Some (op_payload op prev (op_next op prev now))).

(** The settings are kept and at most this action is logged. *)
Definition logged (db0 : GovDB) (kind by_ reason : string) (payload : GoMap) (db : GovDB) : Prop :=
  gov_state db = gov_state db0 ∧
  (gov_actions db = gov_actions db0 ∨
   ∃ a, gov_actions db = gov_actions db0 ++ [a] ∧ gv_ActionType a = kind ∧
        gv_RequestedBy a = by_ ∧ gv_Reason a = reason ∧ gv_Payload a = Some payload).

Section effect.
Context {U : UuidPkg} {X : Type} (c : Controller X).

Lemma triple_new_uuid (P : GovDB → X → Prop) :
  triple (tables P) new_uuid (fun _ => tables P).
Proof using. intros s HP. exact HP. Qed.

Lemma triple_StateStore_GetState db0 :
  triple (tables (fun db (_ : X) => db = db0)) (StateStore_GetState c) (fun out => tables (fun db _ =>
    db = db0 ∧ (snd out = None → gov_state db0 = Some (fst out)))).
Proof using.
  unfold StateStore_GetState. eapply triple_bind.
  { apply (triple_statement _ _ (fun r db _ => db = db0 ∧ ∀ st, r = Ok st → gov_state db0 = Some st)).
    intros db x ->. split; [done|]. intros st db'. destruct (gov_state db0) as [row|]; [|done].
    intros [= <- <-]. split; [split; [done|]; by intros ? [= <-]|done]. }
  intros [st|err].
  - apply tables_ret. intros db x [-> H]. split; [done|]. intros _. by apply H.
  - eapply triple_bind; [apply triple_reading|]. intros now. apply tables_ret.
    intros db x [-> _]. by split.
Qed.

Lemma triple_GetState db0 :
  triple (tables (fun db (_ : X) => db = db0)) (GetState c)
    (fun st => tables (fun db _ => reported (gov_state db0) st ∧ db = db0)).
Proof using.
  unfold GetState. eapply triple_bind; [apply triple_StateStore_GetState|].
  intros [st [err|]]; cbn [fst snd].
  - eapply triple_bind; [apply triple_reading|]. intros now. apply tables_ret.
    intros db x [-> _]. split; [right; by eexists|done].
  - apply tables_ret. intros db x [-> H]. split; [left; by apply H|done].
Qed.

Lemma triple_SaveState db0 st :
  triple (tables (fun db (_ : X) => db = db0)) (SaveState st) (fun err => tables (fun db _ =>
    db = db0 <| gov_state := Some (stored_gov st) |> ∨ (err ≠ None ∧ db = db0))).
Proof using.
  unfold SaveState. eapply triple_bind.
  { apply (triple_statement _ _ (fun r db _ =>
      db = db0 <| gov_state := Some (stored_gov st) |> ∨ ((∃ e, r = Err e) ∧ db = db0))).
    intros db x ->. split; [right; split; [by eexists|done]|]. intros u db' [= <- <-]. split; [by left|].
    intros e. by left. }
  intros [u|err]; apply tables_ret; intros db x [H|[[e He] H]]; try done; [by left..|right; by split].
Qed.

Lemma triple_recordAction db0 kind by_ reason payload :
  triple (tables (fun db (_ : X) => db = db0)) (recordAction c kind by_ reason payload)
    (fun _ => tables (fun db _ => logged db0 kind by_ reason payload db)).
Proof using.
  unfold recordAction, RecordAction. eapply triple_bind; [apply triple_reading|]. intros now.
  apply triple_dropped. eapply triple_bind; [apply triple_fresh|]. intros id.
  apply (triple_bind _ _ (fun _ => tables (fun db _ => logged db0 kind by_ reason payload db)));
    [|by intros [u|err]; apply tables_ret].
  apply (triple_statement _ _ (fun _ db _ => logged db0 kind by_ reason payload db)).
  intros db x ->. split; [intros e; split; [done|by left]|]. intros a db' [= <- <-].
  match goal with |- ?P ∧ _ => cut P; [by intros HP; split|] end.
  split; [done|]. right. by eexists.
Qed.

Lemma triple_gov_audit (P : GovDB → Prop) ev payload :
  triple (tables (fun db (_ : X) => P db)) (gov_audit c ev payload) (fun _ => tables (fun db _ => P db)).
Proof using.
  unfold gov_audit. destruct (ct_auditor c) as [record|]; [|by apply triple_ret].
  eapply triple_bind; [apply triple_new_uuid|]. intros id. apply triple_dropped.
  apply triple_provider. by intros db x H.
Qed.

Lemma triple_apply_change db0 op prev now :
  op_refusal op = None → reported (gov_state db0) prev →
  triple (tables (fun db (_ : X) => db = db0)) (apply_change c op prev now)
    (fun _ => tables (fun db _ => explained op db0 db)).
Proof using.
  intros Hop Hprev. unfold apply_change. cbv zeta. set (st := op_next op prev now).
  eapply triple_bind; [apply triple_SaveState|]. intros [err|].
  - apply tables_ret. intros db x [->|[_ ->]]; [right|by left].
    exists prev, now. split_and!; try done. by left.
  - eapply triple_bind.
    { eapply triple_weaken; [apply (triple_recordAction (db0 <| gov_state := Some (stored_gov st) |>))| |].
      - intros s [H|[[] _]]; [exact H|done].
      - intros u s H. exact H. }
    intros ?. eapply triple_bind.
    { eapply triple_weaken; [apply (triple_gov_audit (explained op db0))| |intros u s H; exact H].
      intros s [Hst Hlog]. right. by exists prev, now. }
    intros ?. by apply triple_ret.
Qed.

Lemma run_op_explained op s : explained op (ag_db s) (ag_db (snd (run_op c op s))).
Proof using.
  rewrite run_op_change. unfold change. destruct (op_refusal op) as [err|] eqn:Hop; [by left|].
  assert (H : triple (tables (fun db (_ : X) => db = ag_db s))
    (let! prev := GetState c in let! now := gov_now c in apply_change c op prev now)
    (fun _ => tables (fun db _ => explained op (ag_db s) db))); [|by apply H].
  eapply triple_bind; [apply triple_GetState|]. intros prev.
  eapply triple_bind; [apply triple_reading|]. intros now.
  intros w [Hprev Hdb]. by eapply triple_apply_change.
Qed.
End effect.

(** ** Reading the settings *)

Section reading.
Context {X : Type} (c : Controller X).
Implicit Types s : Agent GovDB X.

(** The row, when the next statement can read it. *)
Definition readable_row s : option GovernanceState :=
  match ag_faults s with
  | [] | NoFault :: _ => gov_state (ag_db s)
  | _ => None
  end.

Lemma GetState_readable s st : readable_row s = Some st → fst (GetState c s) = st.
Proof using.
  unfold readable_row, GetState, StateStore_GetState, bindS, statement.
  destruct (ag_faults s) as [|[] fs]; cbn; try done; by intros ->.
Qed.

Lemma GetState_unreadable s :
  readable_row s = None → fst (GetState c s) = failsafe_state (ct_clock c (S (ag_reads s))).
Proof using.
  unfold readable_row, GetState, StateStore_GetState, bindS, statement.
  destruct (ag_faults s) as [|[] fs]; cbn; intros H; try rewrite H; try done.
  all: by destruct (gov_state (ag_db s)).
Qed.

Lemma GetState_keeps s : ag_db (snd (GetState c s)) = ag_db s.
Proof using.
  pose proof (triple_GetState c (ag_db s) s eq_refl) as [_ H]. exact H.
Qed.

(** What any question to the adapter is answered from. *)
Lemma GetState_reported s : reported (gov_state (ag_db s)) (fst (GetState c s)).
Proof using.
  pose proof (triple_GetState c (ag_db s) s eq_refl) as [H _]. exact H.
Qed.

Lemma ask_run {A} (f : GovernanceState → A) s :
  (let! st := GetState c in retS (f st)) s = (f (fst (GetState c s)), snd (GetState c s)).
Proof using. by rewrite bindS_run. Qed.
End reading.

(** Governance fails safe.  Whenever its settings cannot be read, because the
    statement fails or the row is missing, the engines are told that the system
    is in safe hold with learning, policy updates and exploration blocked and
    conservative reasoning forced; otherwise they are told what the row says.
    Asking changes no table. *)
Theorem governance_fails_safe {X : Type} (c : Controller X) (s : Agent GovDB X) :
  let answers := (fst (ga_GetMode c s), fst (ga_IsLearningBlocked c s), fst (ga_IsPolicyBlocked c s),
                  fst (ga_IsExplorationBlocked c s), fst (ga_EffectiveReasoningMode c s)) in
  match readable_row s with
  | None => answers = ("safe_hold", true, true, true, "conservative")
  | Some st => answers = (gs_Mode st, IsLearningBlocked st, IsPolicyBlocked st,
                          IsExplorationBlocked st, EffectiveReasoningMode st) ∧
               fst (ga_RequiresHumanReview c s) = gs_RequireHumanReview st
  end ∧
  ag_db (snd (ga_GetMode c s)) = ag_db s ∧ ag_db (snd (ga_IsLearningBlocked c s)) = ag_db s ∧
  ag_db (snd (ga_IsPolicyBlocked c s)) = ag_db s ∧ ag_db (snd (ga_IsExplorationBlocked c s)) = ag_db s ∧
  ag_db (snd (ga_EffectiveReasoningMode c s)) = ag_db s.
Proof.
  unfold ga_GetMode, ga_IsLearningBlocked, ga_IsPolicyBlocked, ga_IsExplorationBlocked,
    ga_EffectiveReasoningMode, ga_RequiresHumanReview.
  rewrite !ask_run. cbn [fst snd]. rewrite GetState_keeps. cbv zeta. split; [|by split_and!].
  destruct (readable_row s) as [st|] eqn:Hrow.
  - by rewrite (GetState_readable c s st Hrow).
  - by rewrite (GetState_unreadable c s Hrow).
Qed.

(** ** Sound settings *)

Definition governance_modes : list string := [ModeNormal; ModeFrozen; ModeSafeHold; ModeRollbackOnly].

(** The mode is one of the four, a forced reasoning mode is a valid one, review
    is not required, safe hold has the exploration flag and rollback all three. *)
Definition gov_sound (st : GovernanceState) : Prop :=
  gs_Mode st ∈ governance_modes ∧
  validReasoningModes (gs_ForceReasoningMode st) = true ∧
  gs_RequireHumanReview st = false ∧
  (gs_Mode st = ModeSafeHold → gs_FreezeExploration st = true) ∧
  (gs_Mode st = ModeRollbackOnly →
     gs_FreezeLearning st = true ∧ gs_FreezePolicyUpdates st = true ∧ gs_FreezeExploration st = true).

Definition gov_wf (db : GovDB) : Prop :=
  (∀ st, gov_state db = Some st → gov_sound st) ∧
  ∀ a, a ∈ gov_actions db → gv_RequestedBy a ≠ "" ∧
    gv_ActionType a ∈ [ActionFreeze; ActionUnfreeze; ActionSafeHold; ActionRollback; ActionForceMode;
                       ActionClearOverride].

Lemma mode_listed m : m ∈ governance_modes ↔
  m = ModeNormal ∨ m = ModeFrozen ∨ m = ModeSafeHold ∨ m = ModeRollbackOnly.
Proof. unfold governance_modes. rewrite !elem_of_cons, elem_of_nil. tauto. Qed.

Lemma failsafe_sound now : gov_sound (failsafe_state now).
Proof. split_and!; try done. rewrite mode_listed. cbn. tauto. Qed.

Lemma reported_sound row st : (∀ st, row = Some st → gov_sound st) → reported row st → gov_sound st.
Proof. intros H [Hst|[now ->]]; [by apply H|apply failsafe_sound]. Qed.

Lemma stored_sound st : gov_sound st → gov_sound (stored_gov st).
Proof. done. Qed.

Lemma op_next_sound op prev now : op_refusal op = None → gov_sound prev → gov_sound (op_next op prev now).
Proof.
  unfold op_refusal. case_bool_decide; [done|]. intros Hop (H1 & H2 & H3 & H4 & H5).
  destruct op; cbn in *; (split_and!; cbn; try done; try (rewrite mode_listed; cbn; tauto)).
  by destruct (validReasoningModes (fm_ReasoningMode req)).
Qed.

Lemma op_kind_listed op : op_kind op ∈
  [ActionFreeze; ActionUnfreeze; ActionSafeHold; ActionRollback; ActionForceMode; ActionClearOverride].
Proof. destruct op; cbn; rewrite !elem_of_cons; tauto. Qed.

Lemma op_requester_named op : op_refusal op = None → op_requester op ≠ "".
Proof. unfold op_refusal. by case_bool_decide. Qed.

Lemma explained_wf op db db' :
  explained op db db' → gov_wf db → gov_wf db' ∧ gov_actions db `prefix_of` gov_actions db'.
Proof.
  intros [->|(prev & now & Hop & Hprev & Hrow & Hlog)] [H1 H2]; [by split|].
  assert (Hst : ∀ st, gov_state db' = Some st → gov_sound st).
  { rewrite Hrow. intros st [= <-]. apply stored_sound, op_next_sound; [done|].
    by eapply reported_sound. }
  destruct Hlog as [Hlog|(a & Hlog & Hk & Hr & _)]; rewrite Hlog.
  - split; [split; [done|]|done]. by rewrite Hlog.
  - split; [split; [done|]|by exists [a]]. rewrite Hlog. intros b [Hb| ->%list_elem_of_singleton]%elem_of_app;
      [by apply H2|]. rewrite Hr, Hk. split; [by apply op_requester_named|apply op_kind_listed].
Qed.

(** ** Reachable worlds *)

Section reachable.
Context {U : UuidPkg} {X : Type}.

(** Any controller of this database may run a call; between calls everything
    but the tables may change. *)
Inductive gov_step : Agent GovDB X → Agent GovDB X → Prop :=
| gov_call c op s : gov_step s (snd (run_op c op s))
| gov_outside s s' : ag_db s' = ag_db s → gov_step s s'.

(** The table as the migration seeds it, or without its row. *)
Definition seeded (db : GovDB) : Prop :=
  gov_actions db = [] ∧
  (gov_state db = None ∨
   ∃ now, gov_state db = Some (zero_gov <| gs_Mode := ModeNormal |> <| gs_LastUpdated := now |>)).

Lemma seeded_wf db : seeded db → gov_wf db.
Proof using.
  intros [Hlog Hrow]. split; [|rewrite Hlog; by intros a ?%elem_of_nil].
  intros st Hst. destruct Hrow as [Hn|[now Hs]]; [congruence|]. rewrite Hs in Hst. injection Hst as <-.
  split_and!; try done. rewrite mode_listed. cbn. tauto.
Qed.

Lemma gov_steps_wf s s' :
  rtc gov_step s s' → gov_wf (ag_db s) →
  gov_wf (ag_db s') ∧ gov_actions (ag_db s) `prefix_of` gov_actions (ag_db s').
Proof using.
  induction 1 as [s|s s1 s2 Hstep _ IH]; intros Hwf; [by split|].
  assert (H : gov_wf (ag_db s1) ∧ gov_actions (ag_db s) `prefix_of` gov_actions (ag_db s1)).
  { destruct Hstep as [c op s|s s1 ->]; [|by split]. by eapply explained_wf; [apply run_op_explained|]. }
  destruct H as [H1 Hp1]. destruct (IH H1) as [H2 Hp2]. split; [done|]. by etrans.
Qed.

(** In every world operator calls can reach from the seeded table, by any
    controllers, under any faults, the stored settings have one of the four
    modes and a valid forced reasoning mode, safe hold keeps the exploration
    flag and rollback all three, the log only grows and names a requester and
    one of six actions; and whoever asks, whether or not the read succeeds, is
    told one of the four modes and never that human review is required: no call
    sets that flag. *)
Theorem governance_settings_sound (c : Controller X) (s0 s1 s2 : Agent GovDB X) :
  seeded (ag_db s0) → rtc gov_step s0 s1 → rtc gov_step s1 s2 →
  (∀ st, gov_state (ag_db s2) = Some st →
     gs_Mode st ∈ ["normal"; "frozen"; "safe_hold"; "rollback_only"] ∧
     validReasoningModes (gs_ForceReasoningMode st) = true ∧
     (gs_Mode st = "safe_hold" → gs_FreezeExploration st = true) ∧
     (gs_Mode st = "rollback_only" →
        gs_FreezeLearning st = true ∧ gs_FreezePolicyUpdates st = true ∧ gs_FreezeExploration st = true)) ∧
  (∀ a, a ∈ gov_actions (ag_db s2) → gv_RequestedBy a ≠ "" ∧ gv_ActionType a ≠ ActionRequireReview) ∧
  gov_actions (ag_db s1) `prefix_of` gov_actions (ag_db s2) ∧
  fst (ga_GetMode c s2) ∈ ["normal"; "frozen"; "safe_hold"; "rollback_only"] ∧
  fst (ga_RequiresHumanReview c s2) = false.
Proof using.
  intros H0 H01 H12. destruct (gov_steps_wf _ _ H01 (seeded_wf _ H0)) as [Hwf1 _].
  destruct (gov_steps_wf _ _ H12 Hwf1) as [[Hst Hlog] Hp].
  unfold ga_GetMode, ga_RequiresHumanReview. rewrite !ask_run. cbn [fst].
  destruct (reported_sound _ _ Hst (GetState_reported c s2)) as (Hm & _ & Hr & _).
  split_and!; try done.
  - intros st Hrow. by destruct (Hst st Hrow) as (? & ? & _ & ? & ?).
  - intros a Ha. destruct (Hlog a Ha) as [Hn Hk]. split; [done|]. intros E. rewrite E in Hk.
    apply (bool_decide_pack _) in Hk. by vm_compute in Hk.
Qed.
End reachable.

(** ** Calls that meet no fault, or one *)

Section exact.
Context {U : UuidPkg} {X : Type} (c : Controller X).
Implicit Types s : Agent GovDB X.

Lemma SaveState_run st s :
  ag_faults s = [] →
  SaveState st s = (None, s <| ag_db := (ag_db s) <| gov_state := Some (stored_gov st) |> |>).
Proof using. intros Hf. unfold SaveState, bindS. by rewrite statement_run. Qed.

(** Logging and auditing leave the row alone; without faults the log gets its
    entry and the auditor its event. *)
Lemma recordAction_run kind by_ reason payload s :
  ag_faults s = [] →
  let s' := snd (recordAction c kind by_ reason payload s) in
  ag_faults s' = [] ∧ ag_ext s' = ag_ext s ∧ gov_state (ag_db s') = gov_state (ag_db s) ∧
  ∃ a, gov_actions (ag_db s') = gov_actions (ag_db s) ++ [a] ∧
       (gv_ActionType a, gv_RequestedBy a, gv_Reason a, gv_Payload a) = (kind, by_, reason, Some payload).
Proof using.
  intros Hf. unfold recordAction, RecordAction, gov_now. rewrite bindS_run, dropped_run. cbn [reading fst snd].
  rewrite bindS_run. cbn [fresh_uuid fst snd]. rewrite bindS_run, statement_run by done. cbn.
  split_and!; try done. by eexists.
Qed.

Lemma gov_audit_run ev payload s :
  let s' := snd (gov_audit c ev payload s) in
  ag_db s' = ag_db s ∧
  match ct_auditor c with
  | None => ag_ext s' = ag_ext s
  | Some record =>
      ag_ext s' = snd (record (mkAuditEvent "governance" (uuid_New (ag_uuids s)) ev "operator"
                                "governance_controller" payload) (ag_ext s))
  end.
Proof using.
  unfold gov_audit. destruct (ct_auditor c) as [record|]; [|done].
  rewrite bindS_run, dropped_run. cbn [new_uuid fst snd]. unfold provider. cbn [ag_ext].
  by destruct (record _ _).
Qed.

(** What a change that is saved comes to. *)
Definition settled (op : GovOp) (prev : GovernanceState) (s : Agent GovDB X)
    (r : res GovernanceState) (s' : Agent GovDB X) : Prop :=
  ∃ st a id, r = Ok st ∧
    gov_state (ag_db s') = Some (stored_gov st) ∧
    gov_actions (ag_db s') = gov_actions (ag_db s) ++ [a] ∧
    (gv_ActionType a, gv_RequestedBy a, gv_Reason a, gv_Payload a)
    = (op_kind op, op_requester op, op_reason op, Some (op_payload op prev st)) ∧
    ag_ext s' = match ct_auditor c with
                | None => ag_ext s
                | Some record =>
                    snd (record (mkAuditEvent "governance" id (op_event op) "operator"
                                   "governance_controller" (op_audit op prev st)) (ag_ext s))
                end ∧
    ∃ now, st = op_next op prev now.

Lemma apply_change_run op prev now s :
  ag_faults s = [] →
  settled op prev s (fst (apply_change c op prev now s)) (snd (apply_change c op prev now s)).
Proof using.
  intros Hf. unfold apply_change. cbv zeta. set (st := op_next op prev now).
  rewrite bindS_run, SaveState_run by done. cbn [fst snd].
  set (s1 := s <| ag_db := _ |>). rewrite bindS_run.
  destruct (recordAction_run (op_kind op) (op_requester op) (op_reason op) (op_payload op prev st) s1 Hf)
    as (_ & Hx & Hrow & a & Hlog & Ha).
  set (s2 := snd (recordAction _ _ _ _ _ s1)) in *. rewrite bindS_run. cbn [fst snd retS].
  destruct (gov_audit_run (op_event op) (op_audit op prev st) s2) as [Hdb Hext].
  set (s3 := snd (gov_audit _ _ _ s2)) in *.
  exists st, a, (uuid_New (ag_uuids s2)). rewrite Hdb. split_and!; try done.
  - destruct (ct_auditor c) as [record|]; rewrite Hext; by rewrite Hx.
  - by eexists.
Qed.

Lemma run_op_refused op s err : op_refusal op = Some err → run_op c op s = (Err err, s).
Proof using. intros H. rewrite run_op_change. unfold change. by rewrite H. Qed.

(** At most the reading of the settings fails. *)
Lemma run_op_settled op s :
  op_refusal op = None → tail (ag_faults s) = [] → 
  settled op (fst (GetState c s)) s (fst (run_op c op s)) (snd (run_op c op s)).
Proof using.
  intros Hop Hf. rewrite run_op_change. unfold change. rewrite Hop. rewrite bindS_run.
  pose proof (GetState_keeps c s) as Hdb.
  assert (Hq : ag_faults (snd (GetState c s)) = [] ∧ ag_ext (snd (GetState c s)) = ag_ext s).
  { unfold GetState, StateStore_GetState, bindS, statement.
    destruct (ag_faults s) as [|f fs] eqn:E; cbn in Hf |- *.
    - destruct (gov_state (ag_db s)); by rewrite ?E.
    - subst fs. by destruct f; cbn; destruct (gov_state (ag_db s)). }
  destruct Hq as [Hf' Hx]. set (prev := fst (GetState c s)). set (s1 := snd (GetState c s)) in *.
  clearbody s1. rewrite bindS_run. unfold gov_now. cbn [reading fst snd].
  set (s2 := s1 <| ag_reads := _ |>). pose proof (apply_change_run op prev (ct_clock c (ag_reads s1)) s2 Hf') as H.
  destruct H as (st & a & id & H1 & H2 & H3 & H4 & H5 & H6). exists st, a, id. split_and!; try done.
  - rewrite H3. cbn. by rewrite Hdb.
  - rewrite H5. cbn. by rewrite Hx.
Qed.
End exact.

Ltac guards :=
  unfold IsFrozen, IsPolicyBlocked, IsLearningBlocked, IsExplorationBlocked; cbn;
  rewrite ?orb_true_r, ?orb_false_r; by split_and!.

Section theorems.
Context {U : UuidPkg} {X : Type} (c : Controller X).

(** What the operator's calls do when the database works.  A call without a
    requester, or with an unknown reasoning mode, is refused and changes
    nothing.  Otherwise the settings are stored, one log entry names the
    action, its requester and reason, and the auditor gets one event with the
    settings before and after.  A freeze blocks learning, policy updates and
    exploration whatever flags it is given; rollback blocks all three and
    forces conservative reasoning; safe hold blocks exploration and forces
    conservative reasoning; unfreezing and clearing lift every block and force
    nothing; forcing a reasoning mode changes no block and yields to safe
    mode. *)
Theorem operator_calls_exact (op : GovOp) (prev : GovernanceState) (s : Agent GovDB X) :
  ag_faults s = [] → gov_state (ag_db s) = Some prev →
  let '(r, s') := run_op c op s in
  if bool_decide (op_requester op = "") ||
     match op with OpForceMode req => negb (validReasoningModes (fm_ReasoningMode req)) | _ => false end
  then is_ok r = false ∧ s' = s
  else
    ∃ st a ev, r = Ok st ∧ gov_state (ag_db s') = Some (stored_gov st) ∧
      gov_actions (ag_db s') = gov_actions (ag_db s) ++ [a] ∧
      gv_ActionType a = op_kind op ∧ gv_RequestedBy a = op_requester op ∧ gv_Reason a = op_reason op ∧
      ag_ext s' = match ct_auditor c with
                  | None => ag_ext s
                  | Some record => snd (record ev (ag_ext s))
                  end ∧
      ae_eventType ev = op_event op ∧
      ("previous_state", AnyMap (stateSnapshot prev)) ∈ ae_payload ev ∧
      ("new_state", AnyMap (stateSnapshot st)) ∈ ae_payload ev ∧
      let blocks st := (IsLearningBlocked st, IsPolicyBlocked st, IsExplorationBlocked st) in
      match op with
      | OpFreeze _ => gs_Mode st = "frozen" ∧ IsFrozen st = true ∧ blocks st = (true, true, true)
      | OpRollback _ => gs_Mode st = "rollback_only" ∧ IsFrozen st = true ∧
                        blocks st = (true, true, true) ∧ EffectiveReasoningMode st = "conservative"
      | OpSafeHold _ => gs_Mode st = "safe_hold" ∧ IsFrozen st = false ∧
                        blocks st = (gs_FreezeLearning prev, gs_FreezePolicyUpdates prev, true) ∧
                        EffectiveReasoningMode st = "conservative"
      | OpUnfreeze _ | OpClearOverride _ =>
          gs_Mode st = "normal" ∧ IsFrozen st = false ∧ blocks st = (false, false, false) ∧
          EffectiveReasoningMode st = ""
      | OpForceMode req =>
          gs_Mode st = gs_Mode prev ∧ blocks st = blocks prev ∧
          EffectiveReasoningMode st =
            if default (gs_ForceSafeMode prev) (fm_ForceSafeMode req)
               || bool_decide (gs_Mode prev = "safe_hold")
            then "conservative" else fm_ReasoningMode req
      end.
Proof using.
  intros Hf Hprev.
  match goal with |- context [if ?b then _ else _] =>
    assert (Hb : b = bool_decide (is_Some (op_refusal op))) end.
  { unfold op_refusal. case_bool_decide; [done|]. destruct op; try done. cbn.
    by destruct (validReasoningModes _). }
  rewrite Hb. clear Hb. destruct (op_refusal op) as [err|] eqn:Hop.
  { rewrite bool_decide_true by by eexists. by rewrite (run_op_refused c op s err Hop). }
  rewrite bool_decide_false by by intros [? ?].
  pose proof (run_op_settled c op s Hop) as H. rewrite Hf in H. specialize (H eq_refl).
  assert (E : fst (GetState c s) = prev).
  { apply GetState_readable. unfold readable_row. by rewrite Hf. }
  rewrite E in H. destruct (run_op c op s) as [r s']. cbn [fst snd] in H.
  destruct H as (st & a & id & Hr & Hrow & Hlog & Ha & Hx & now & Hst).
  injection Ha as Hk Hb Hre _.
  exists st, a, (mkAuditEvent "governance" id (op_event op) "operator" "governance_controller"
                   (op_audit op prev st)).
  do 8 (split; [done|]). split; [|split].
  1,2: unfold op_audit; cbn [ae_payload]; rewrite !elem_of_app, !elem_of_cons; tauto.
  cbv zeta. destruct op; subst st; try done; cbn [op_next].
  - guards.
  - split; [done|]. split; [done|]. unfold EffectiveReasoningMode. cbn.
    destruct (_ || _); [done|]. by case_bool_decide.
  - guards.
Qed.

(** A defect: the fail-safe settings can become the stored ones.  [ForceMode] builds
    on what it reads; when that one read fails and the following write does
    not, a reasoning override given to a frozen or rolled-back system succeeds
    and replaces its mode by safe hold, so that the system is frozen no longer;
    the log entry and the audit event report safe hold as the mode before. *)
Theorem forced_mode_lifts_freeze (req : ForceModeRequest) (prev : GovernanceState) (e : error)
    (f : Fault) (s : Agent GovDB X) :
  gov_state (ag_db s) = Some prev → IsFrozen prev = true →
  ag_faults s = [f] → f = FaultBefore e ∨ f = FaultAfter e →
  fm_RequestedBy req ≠ "" → validReasoningModes (fm_ReasoningMode req) = true →
  let '(r, s') := ForceMode c req s in
  is_ok r = true ∧
  ∃ st a, gov_state (ag_db s') = Some st ∧ gs_Mode st = "safe_hold" ∧ IsFrozen st = false ∧
    gov_actions (ag_db s') = gov_actions (ag_db s) ++ [a] ∧
    ∃ payload, gv_Payload a = Some payload ∧ ("previous_mode", AnyString "safe_hold") ∈ payload.
Proof using.
  intros Hrow Hfr Hf Hfault Hby Hmode.
  assert (Hop : op_refusal (OpForceMode req) = None).
  { unfold op_refusal. rewrite bool_decide_false by done. by rewrite Hmode. }
  pose proof (run_op_settled c (OpForceMode req) s Hop) as H. rewrite Hf in H. specialize (H eq_refl).
  rewrite (GetState_unreadable c s) in H.
  2:{ unfold readable_row. rewrite Hf. by destruct Hfault as [-> | ->]. }
  cbn [run_op] in H. destruct (ForceMode c req s) as [r s']. cbn [fst snd] in H.
  destruct H as (st & a & id & -> & Hst & Hlog & Ha & _ & now & ->). injection Ha as _ _ _ Hp.
  split; [done|]. eexists _, a. split; [exact Hst|]. do 2 (split; [done|]). split; [exact Hlog|].
  eexists. split; [exact Hp|]. cbn. rewrite elem_of_cons. by left.
Qed.
End theorems.

(** ** Witnesses *)

Section demo.
#[local] Existing Instance demo_uuid.

(** The auditor keeps the events. *)
Definition demo_controller : Controller (list AuditEvent) :=
  mkController (fun n => demo_now + Z.of_nat n * Second)
    (Some (fun ev l => (None, l ++ [ev]))).

Definition demo_gov : Agent GovDB (list AuditEvent) :=
  mkAgent (mkGovDB (Some (zero_gov <| gs_Mode := ModeNormal |> <| gs_LastUpdated := demo_now |>)) [])
    [] 0 0 [] [].

Definition demo_freeze : GovOp := OpFreeze (mkFreeze "ana" "incident" (Some false) None None).
Definition demo_frozen : Agent GovDB (list AuditEvent) := snd (run_op demo_controller demo_freeze demo_gov).

Lemma demo_seeded : seeded (ag_db demo_gov).
Proof. split; [done|]. right. by exists demo_now. Qed.

Lemma governance_settings_sound_witness :
  fst (ga_RequiresHumanReview demo_controller demo_frozen) = false.
Proof.
  pose proof (governance_settings_sound demo_controller demo_gov demo_gov demo_frozen demo_seeded
    (rtc_refl _ _)) as H.
  apply H. apply rtc_once. apply gov_call.
Defined.

Lemma operator_calls_exact_witness :
  is_ok (fst (run_op demo_controller demo_freeze demo_gov)) = true ∧
  IsLearningBlocked <$> gov_state (ag_db demo_frozen) = Some true.
Proof.
  pose proof (operator_calls_exact demo_controller demo_freeze
    (zero_gov <| gs_Mode := ModeNormal |> <| gs_LastUpdated := demo_now |>) demo_gov eq_refl eq_refl) as H.
  unfold demo_frozen. destruct (run_op demo_controller demo_freeze demo_gov) as [r s'].
  destruct H as (st & a & ev & -> & Hrow & _ & _ & _ & _ & _ & _ & _ & _ & _ & _ & Hblocks).
  split; [reflexivity|]. cbn [snd]. rewrite Hrow. injection Hblocks as Hl _ _. cbn. by f_equal.
Defined.

Definition demo_override : ForceModeRequest := mkForceMode "bob" "look closer" "graph" None.
Definition demo_shaky : Agent GovDB (list AuditEvent) :=
  demo_frozen <| ag_faults := [FaultBefore DeadlineExceeded] |>.

Lemma forced_mode_lifts_freeze_witness :
  is_ok (fst (ForceMode demo_controller demo_override demo_shaky)) = true ∧
  IsFrozen <$> gov_state (ag_db demo_shaky) = Some true.
Proof.
  split; [|vm_compute; reflexivity].
  destruct (gov_state (ag_db demo_shaky)) as [prev|] eqn:Hprev; [|by vm_compute in Hprev].
  pose proof (forced_mode_lifts_freeze demo_controller demo_override prev DeadlineExceeded
    (FaultBefore DeadlineExceeded) demo_shaky Hprev) as H.
  destruct (ForceMode demo_controller demo_override demo_shaky) as [r s']. apply H; try done.
  - vm_compute in Hprev. by injection Hprev as <-.
  - by left.
Defined.

(** Frozen, then overridden through a failing read: safe hold is what is left. *)
Example override_through_fault :
  gs_Mode <$> gov_state (ag_db (snd (ForceMode demo_controller demo_override demo_shaky)))
  = Some "safe_hold".
Proof. vm_compute. reflexivity. Qed.

(** Every call of a session is logged and audited. *)
Example session_is_logged :
  let s := snd (run_op demo_controller (OpUnfreeze (mkPlain "ana" "done")) demo_frozen) in
  map gv_ActionType (gov_actions (ag_db s)) = ["freeze"; "unfreeze"] ∧
  map ae_eventType (ag_ext s) = ["governance.state_changed"; "governance.state_changed"] ∧
  match fst (ListGovernanceActions 1 0 s) with
  | Ok l => map gv_ActionType l = ["unfreeze"]
  | Err _ => False
  end.
Proof. vm_compute. auto. Qed.
End demo.
