(* ===== verification/ExecutionLoop.v ===== *)
(** * Bounded execution loop ([internal/agent/execution_loop])

    A task is planned, its steps executed through the external actions provider,
    observed and, when a step fails, the plan adapted, for at most five
    iterations.  Modelled: the task state machine, planner, executor, observer,
    PostgreSQL stores and engine.

    The provider's state is [X].  Governance mode and objective signal are read
    afresh each time ([Agent]'s readings).  A row holds its plan as the steps the
    column is read back as: marshalled, kept by [JSONB], unmarshalled. *)

From stdpp Require Import base gmap strings list tactics numbers fin_maps.
From Stdlib Require Import ZArith Lia.
From S2P Require Import Prelude GoStrconv GoFloat GoJSON GoSort Models AgentWorld ExternalActions.

Open Scope Z_scope.

(** ** Types *)

Inductive ExecTaskStatus : Type :=
| ExecPending
| ExecRunning
| ExecCompleted
| ExecFailed
| ExecAborted.

#[export] Instance ExecTaskStatus_eq_dec : EqDecision ExecTaskStatus.
Proof. solve_decision. Defined.

(** The string behind the status. *)
Definition exec_status_string (s : ExecTaskStatus) : string :=
  match s with
  | ExecPending => "pending"
  | ExecRunning => "running"
  | ExecCompleted => "completed"
  | ExecFailed => "failed"
  | ExecAborted => "aborted"
  end.

Definition exec_transitions (s : ExecTaskStatus) : list ExecTaskStatus :=
  match s with
  | ExecPending => [ExecRunning; ExecAborted]
  | ExecRunning => [ExecCompleted; ExecFailed; ExecAborted]
  | _ => []
  end.

Definition ValidateTaskTransition (from to : ExecTaskStatus) : bool :=
  bool_decide (to ∈ exec_transitions from).

Inductive StepStatus : Type :=
| StepPending
| StepExecuted
| StepFailed
| StepSkipped
| StepPendingReview
| StepBlocked.

#[export] Instance StepStatus_eq_dec : EqDecision StepStatus.
Proof. solve_decision. Defined.

(** The string behind the status. *)
Definition step_status_string (s : StepStatus) : string :=
  match s with
  | StepPending => "pending"
  | StepExecuted => "executed"
  | StepFailed => "failed"
  | StepSkipped => "skipped"
  | StepPendingReview => "pending_review"
  | StepBlocked => "blocked"
  end.

Definition step_statuses : list StepStatus :=
  [StepPending; StepExecuted; StepFailed; StepSkipped; StepPendingReview; StepBlocked].

(** The status with that string. *)
Definition step_status_of (text : string) : option StepStatus :=
  List.find (fun s => bool_decide (step_status_string s = text)) step_statuses.

Definition MaxIterations : Z := 5.
Definition MaxStepsPerPlan : Z := 5.
Definition MaxRetriesPerStep : Z := 2.
Definition MaxExecutionTimeSec : Z := 60.
Definition MaxConsecFailures : Z := 3.

Record ExecutionStep := mkStep {
  st_ID : string;
  st_Description : string;
  st_Tool : string;
  st_Payload : option string;
  st_Status : StepStatus;
  st_ResultRef : string;
  st_AttemptCount : Z
}.

#[export] Instance ExecutionStep_settable : Settable ExecutionStep := fun r =>
  mkStep (st_ID r) (st_Description r) (st_Tool r) (st_Payload r) (st_Status r) (st_ResultRef r)
    (st_AttemptCount r).

Record ExecutionTask := mkExecTask {
  et_ID : string;
  et_OpportunityID : string;
  et_Goal : string;
  et_Status : ExecTaskStatus;
  et_Plan : list ExecutionStep;
  et_CurrentStep : Z;
  et_IterationCount : Z;
  et_MaxIterations : Z;
  et_AbortReason : string;
  et_CreatedAt : time;
  et_UpdatedAt : time
}.

#[export] Instance ExecutionTask_settable : Settable ExecutionTask := fun r =>
  mkExecTask (et_ID r) (et_OpportunityID r) (et_Goal r) (et_Status r) (et_Plan r) (et_CurrentStep r)
    (et_IterationCount r) (et_MaxIterations r) (et_AbortReason r) (et_CreatedAt r) (et_UpdatedAt r).

Record ExecutionObservation := mkObs {
  ob_StepID : string;
  ob_TaskID : string;
  ob_Success : bool;
  ob_Output : option string;
  ob_Error : string;
  ob_Timestamp : time
}.

Record PlannerStep := mkPlannerStep {
  ps_Description : string;
  ps_Tool : string;
  ps_Payload : option string
}.

(** The fields of [PlannerInput] the planner reads. *)
Record PlannerInput := mkPlannerInput {
  pi_Goal : string;
  pi_OpportunityID : string;
  pi_MaxSteps : Z
}.

Record ExecutorResult := mkExecutorResult {
  er_Success : bool;
  er_Output : option string;
  er_Error : string;
  er_RequiresReview : bool;
  er_DryRun : bool;
  er_ActionID : string
}.

(** An [ExecutorResult] with only an error set. *)
Definition failed_result (msg : string) : ExecutorResult := mkExecutorResult false None msg false false "".

Definition ErrExecTaskNotFound : error := Errorf "execution task not found".
Definition ErrExecTransition : error := Errorf "invalid task status transition".
Definition ErrEmptyPlan : error := Errorf "planner generated empty plan".
Definition ErrPlanTooLong : error := Errorf "plan exceeds maximum steps".

(** [ExternalActionsProvider.CreateAndExecute]: action type, payload, opportunity. *)
Definition ActionsProvider (X : Type) : Type :=
  string → option string → string → St X (res ExecutorResult).

(** ** Tables *)

Record LoopDB := mkLoopDB {
  exec_tasks : gmap string ExecutionTask;        (* agent_execution_tasks *)
  exec_observations : list ExecutionObservation  (* agent_execution_observations *)
}.

#[export] Instance LoopDB_settable : Settable LoopDB := fun r =>
  mkLoopDB (exec_tasks r) (exec_observations r).

Section stores.
Context {J : PgJsonb} {X : Type}.

Abbreviation EL := (St (Agent LoopDB X)).

(** *** The plan column

    [json.Marshal] writes a step as an object, [JSONB] keeps it, and
    [json.Unmarshal] reads it back.  A column is an array of such objects; a
    member is a string, an integer or an embedded JSON text.  The texts of
    strings and integers themselves are not modelled. *)

Inductive json_member : Type :=
| JStr (s : string)
| JInt (n : Z)
| JRaw (text : string).

Abbreviation json_object := (list (string * json_member)).

(** The tags of [ExecutionStep]; [result_ref] is omitted when empty. *)
Definition marshal_step (s : ExecutionStep) : option json_object :=
  text ← marshal_raw (st_Payload s);
  Some ([("id", JStr (st_ID s)); ("description", JStr (st_Description s)); ("tool", JStr (st_Tool s));
         ("payload", JRaw text); ("status", JStr (step_status_string (st_Status s)))]
        ++ (if bool_decide (st_ResultRef s = "") then [] else [("result_ref", JStr (st_ResultRef s))])
        ++ [("attempt_count", JInt (st_AttemptCount s))]).

(** [JSONB] orders the keys of an object by length, then bytewise. *)
Definition key_before (x y : string * json_member) : bool :=
  bool_decide (String.length x.1 < String.length y.1)%nat
  || bool_decide (String.length x.1 = String.length y.1) && String.ltb x.1 y.1.

Definition jsonb_member (m : string * json_member) : option (string * json_member) :=
  match m with
  | (k, JRaw text) => stored ← jsonb text; Some (k, JRaw stored)
  | _ => Some m
  end.

Definition jsonb_object (o : json_object) : option json_object :=
  o ← mapM jsonb_member o; Some (SliceStable key_before o).

(** A member by its key; a string, integer or text that is missing is zero. *)
Definition member (k : string) (o : json_object) : option json_member :=
  snd <$> List.find (fun m => bool_decide (m.1 = k)) o.
Definition member_string (k : string) (o : json_object) : string :=
  match member k o with Some (JStr s) => s | _ => "" end.
Definition member_int (k : string) (o : json_object) : Z :=
  match member k o with Some (JInt n) => n | _ => 0 end.
Definition member_raw (k : string) (o : json_object) : option string :=
  match member k o with Some (JRaw text) => Some text | _ => None end.

(** [None]: a status that is none of the six. *)
Definition unmarshal_step (o : json_object) : option ExecutionStep :=
  status ← step_status_of (member_string "status" o);
  Some (mkStep (member_string "id" o) (member_string "description" o) (member_string "tool" o)
          (member_raw "payload" o) status (member_string "result_ref" o) (member_int "attempt_count" o)).

(** A step as it is read back; [None] when its payload is refused. *)
Definition stored_step (s : ExecutionStep) : option ExecutionStep :=
  o ← marshal_step s;
  stored ← jsonb_object o;
  unmarshal_step stored.

Definition stored_plan (plan : list ExecutionStep) : option (list ExecutionStep) :=
  mapM stored_step plan.

Definition exec_ints_ok (t : ExecutionTask) : bool :=
  in_int4 (et_CurrentStep t) && in_int4 (et_IterationCount t) && in_int4 (et_MaxIterations t).

Definition insert_exec_task (t : ExecutionTask) (db : LoopDB) : res (unit * LoopDB) :=
  match stored_plan (et_Plan t) with
  | None => no_json
  | Some plan =>
      if negb (exec_ints_ok t) then Err (Errorf "integer out of range")
      else match exec_tasks db !! et_ID t with
      | Some _ => unique_violation
      | None =>
          Ok (tt, db <| exec_tasks := <[et_ID t :=
            t <| et_Plan := plan |> <| et_CreatedAt := trunc_us (et_CreatedAt t) |>
              <| et_UpdatedAt := trunc_us (et_UpdatedAt t) |>]> (exec_tasks db) |>)
      end
  end.

Definition exec_Insert (t : ExecutionTask) : EL (res unit) :=
  let! r := statement (insert_exec_task t) in
  retS match r with Ok a => Ok a | Err e => Err (wrap "insert execution task: " e) end.

Definition exec_Get (id : string) : EL (res ExecutionTask) :=
  let! r := statement (fun db => Ok (exec_tasks db !! id, db)) in
  retS match r with
       | Ok (Some t) => Ok t
       | Ok None => Err ErrExecTaskNotFound
       | Err e => Err (wrap "get execution task: " e)
       end.

(** The columns the [UPDATE] sets. *)
Definition updated_exec_task (t : ExecutionTask) (plan : list ExecutionStep) (row : ExecutionTask)
    : ExecutionTask :=
  row <| et_Status := et_Status t |> <| et_Plan := plan |> <| et_CurrentStep := et_CurrentStep t |>
      <| et_IterationCount := et_IterationCount t |> <| et_AbortReason := et_AbortReason t |>
      <| et_UpdatedAt := trunc_us (et_UpdatedAt t) |>.

Definition update_exec_task (t : ExecutionTask) (db : LoopDB) : res (unit * LoopDB) :=
  match stored_plan (et_Plan t) with
  | None => no_json
  | Some plan =>
      if negb (exec_ints_ok t) then Err (Errorf "integer out of range")
      else Ok (tt, db <| exec_tasks := alter (updated_exec_task t plan) (et_ID t) (exec_tasks db) |>)
  end.

Definition exec_Update (t : ExecutionTask) : EL (res unit) :=
  let! r := statement (update_exec_task t) in
  retS match r with Ok a => Ok a | Err e => Err (wrap "update execution task: " e) end.

(** [ORDER BY created_at DESC LIMIT $1] *)
Definition exec_List (limit : Z) : EL (res (list ExecutionTask)) :=
  let limit := if bool_decide (limit ≤ 0) || bool_decide (200 < limit) then 50 else limit in
  let! r := statement (fun db =>
    Ok (take (Z.to_nat limit)
          (SliceStable (fun x y => bool_decide (et_CreatedAt y < et_CreatedAt x))
             (map_to_list (exec_tasks db)).*2), db)) in
  retS match r with Ok a => Ok a | Err e => Err (wrap "list execution tasks: " e) end.

Definition insert_observation (o : ExecutionObservation) (db : LoopDB) : res (unit * LoopDB) :=
  match jsonb (default "null" (ob_Output o)) with
  | None => no_json
  | Some stored =>
      Ok (tt, db <| exec_observations := exec_observations db ++
                      [mkObs (ob_StepID o) (ob_TaskID o) (ob_Success o) (Some stored) (ob_Error o)
                         (trunc_us (ob_Timestamp o))] |>)
  end.

Definition obs_Insert (o : ExecutionObservation) : EL (res unit) :=
  let! r := statement (insert_observation o) in
  retS match r with Ok a => Ok a | Err e => Err (wrap "insert execution observation: " e) end.

(** [WHERE task_id = $1 ORDER BY timestamp ASC] *)
Definition task_observations (taskID : string) (db : LoopDB) : list ExecutionObservation :=
  SliceStable (fun x y => bool_decide (ob_Timestamp x < ob_Timestamp y))
    (List.filter (fun o => bool_decide (ob_TaskID o = taskID)) (exec_observations db)).

Definition obs_ListByTask (taskID : string) : EL (res (list ExecutionObservation)) :=
  let! r := statement (fun db => Ok (task_observations taskID db, db)) in
  retS match r with Ok a => Ok a | Err e => Err (wrap "list observations: " e) end.

(** Failures at the head of the reversed list. *)
Fixpoint leading_failures (obs : list ExecutionObservation) : Z :=
  match obs with
  | o :: obs' => if ob_Success o then 0 else leading_failures obs' + 1
  | [] => 0
  end.

Definition obs_CountConsecutiveFailures (taskID : string) : EL (res Z) :=
  let! r := obs_ListByTask taskID in
  retS match r with Ok obs => Ok (leading_failures (reverse obs)) | Err e => Err e end.

(** ** Observer *)

Definition ShouldAbort (taskID : string) : EL (bool * string) :=
  let! r := obs_CountConsecutiveFailures taskID in
  retS match r with
       | Ok count =>
           if bool_decide (MaxConsecFailures ≤ count)
           then (true, "consecutive failures exceeded threshold") else (false, "")
       | Err _ => (false, "")
       end.

(** The loop of [IsStepBlocked]: the last error and how often it repeated. *)
Fixpoint repeated_error (stepID : string) (obs : list ExecutionObservation) (lastErr : string)
    (sameCount : Z) : Z :=
  match obs with
  | [] => sameCount
  | ob :: obs' =>
      if negb (bool_decide (ob_StepID ob = stepID)) || ob_Success ob
      then repeated_error stepID obs' lastErr sameCount
      else repeated_error stepID obs' (ob_Error ob)
             (if bool_decide (ob_Error ob = lastErr) && bool_decide (lastErr ≠ "")
              then sameCount + 1 else 1)
  end.

Definition IsStepBlocked (taskID stepID : string) : EL bool :=
  let! r := obs_ListByTask taskID in
  retS match r with
       | Ok obs => bool_decide (2 ≤ repeated_error stepID obs "" 0)
       | Err _ => false
       end.

Definition DetectNoProgress (taskID : string) (window : nat) : EL bool :=
  let! r := obs_ListByTask taskID in
  retS match r with
       | Ok obs => if bool_decide (length obs < window)%nat then false
                   else negb (existsb ob_Success (drop (length obs - window) obs))
       | Err _ => false
       end.
End stores.

(** ** Planner *)

Definition NewPlanner (allowedTools : list string) : list string :=
  match allowedTools with [] => ["external_action"] | _ => allowedTools end.

Definition isToolAllowed (allowedTools : list string) (tool : string) : bool :=
  existsb (fun t => bool_decide (t = tool)) allowedTools.

Section planner.
Context {U : UuidPkg} {D X : Type}.

Definition GeneratePlan (allowedTools : list string) (input : PlannerInput)
    : St (Agent D X) (res (list ExecutionStep)) :=
  if bool_decide (pi_Goal input = "") then retS (Err (Errorf "planner: goal is required"))
  else
    let tool := match allowedTools with t :: _ => t | [] => "external_action" end in
    let payload := marshal_map [("goal", pi_Goal input); ("opportunity_id", pi_OpportunityID input)] in
    let! id := fresh_uuid in
    retS (Ok [mkStep id ("Execute goal: " +:+ pi_Goal input) tool (Some payload) StepPending "" 0]).

Fixpoint convert_steps (allowedTools : list string) (ss : list PlannerStep)
    : St (Agent D X) (res (list ExecutionStep)) :=
  match ss with
  | [] => retS (Ok [])
  | s :: ss' =>
      if negb (isToolAllowed allowedTools (ps_Tool s))
      then retS (Err (Errorf ("planner: tool " +:+ quote (ps_Tool s) +:+ " is not allowed")))
      else
        let! id := fresh_uuid in
        let! rest := convert_steps allowedTools ss' in
        retS match rest with
             | Ok steps => Ok (mkStep id (ps_Description s) (ps_Tool s) (ps_Payload s) StepPending "" 0
                               :: steps)
             | Err e => Err e
             end
  end.

Definition GeneratePlanFromOutput (allowedTools : list string) (steps : list PlannerStep)
    : St (Agent D X) (res (list ExecutionStep)) :=
  if bool_decide (length steps = 0)%nat then retS (Err ErrEmptyPlan)
  else if bool_decide (MaxStepsPerPlan < Z.of_nat (length steps)) then retS (Err ErrPlanTooLong)
  else convert_steps allowedTools steps.
End planner.

Definition AdaptPlan (steps : list ExecutionStep) (failedStepID : string) : list ExecutionStep :=
  map (fun s =>
    if bool_decide (st_ID s = failedStepID) then
      let s := s <| st_AttemptCount := st_AttemptCount s + 1 |> in
      if bool_decide (MaxRetriesPerStep ≤ st_AttemptCount s) then s <| st_Status := StepBlocked |>
      else s <| st_Status := StepPending |>
    else s) steps.

(** ** Engine

    Providers are [None] when nil. *)

Record LoopEngine (X : Type) := mkLoopEngine {
  le_clock : nat → time;
  le_audit : bool;
  le_governance : option (nat → string);
  le_objective : option ((nat → string) * (nat → float64));
  le_strength_text : float64 → string;        (* [fmt.Sprintf("%.2f")] *)
  le_extActions : option (ActionsProvider X)
}.
Arguments mkLoopEngine {X}.
Arguments le_clock {X}.
Arguments le_audit {X}.
Arguments le_governance {X}.
Arguments le_objective {X}.
Arguments le_strength_text {X}.
Arguments le_extActions {X}.

(** The planner [NewEngine] makes. *)
Definition planner_tools : list string := NewPlanner ["external_action"].

Section engine.
Context {U : UuidPkg} {J : PgJsonb} {X : Type} (e : LoopEngine X).

Abbreviation EL := (St (Agent LoopDB X)).

Definition loop_now : EL time := reading (le_clock e).
Definition loop_audit (ev id : string) : EL unit := record_audit (le_audit e) ev id.

Definition ExecuteStep (step : ExecutionStep) (opportunityID : string) : EL ExecutorResult :=
  let execute :=
    if bool_decide (st_Tool step = "") then retS (failed_result "step has no tool specified")
    else match le_extActions e with
    | None => retS (failed_result "external actions provider not available")
    | Some ext =>
        let! r := provider (ext (st_Tool step) (Some (default "{}" (st_Payload step))) opportunityID) in
        retS match r with Ok result => result | Err err => failed_result (error_text err) end
    end in
  match le_governance e with
  | None => execute
  | Some governance =>
      let! mode := reading governance in
      if bool_decide (mode = "frozen") || bool_decide (mode = "rollback_only")
      then retS (failed_result ("execution blocked: governance mode is " +:+ mode))
      else if bool_decide (mode = "safe_hold")
      then retS (mkExecutorResult false None
                   "execution paused: governance mode is safe_hold, requires review" true false "")
      else execute
  end.

Definition CreateExecTask (opportunityID goal : string) : EL (res ExecutionTask) :=
  let! now := loop_now in
  let! id := fresh_uuid in
  let task := mkExecTask id opportunityID goal ExecPending [] 0 0 MaxIterations "" now now in
  let! r := exec_Insert task in
  match r with
  | Err err => retS (Err (wrap "create task: " err))
  | Ok _ =>
      let! _ := loop_audit "execution.task_created" id in
      retS (Ok task)
  end.

Definition AbortTask (id : string) : EL (res ExecutionTask) :=
  let! g := exec_Get id in
  match g with
  | Err err => retS (Err err)
  | Ok task =>
      if negb (ValidateTaskTransition (et_Status task) ExecAborted)
      then retS (Err (Wrapf ("invalid task status transition: cannot abort from " +:+
                             exec_status_string (et_Status task)) ErrExecTransition))
      else
        let! now := loop_now in
        let task := task <| et_Status := ExecAborted |> <| et_AbortReason := "manual abort" |>
                         <| et_UpdatedAt := now |> in
        let! r := exec_Update task in
        match r with
        | Err err => retS (Err (wrap "abort task: " err))
        | Ok _ =>
            let! _ := loop_audit "execution.task_aborted" id in
            retS (Ok task)
        end
  end.

(** [RunLoop] and its helpers return the task together with an error. *)
Abbreviation loop_result := (ExecutionTask * option error)%type.

Definition abortTask (task : ExecutionTask) (reason : string) : EL loop_result :=
  let! now := loop_now in
  let task := task <| et_Status := ExecAborted |> <| et_AbortReason := reason |>
                   <| et_UpdatedAt := now |> in
  let! r := exec_Update task in
  match r with
  | Err err => retS (task, Some (wrap "abort task: " err))
  | Ok _ =>
      let! _ := loop_audit "execution.task_aborted" (et_ID task) in
      retS (task, None)
  end.

Definition completeTask (task : ExecutionTask) : EL loop_result :=
  let! now := loop_now in
  let task := task <| et_Status := ExecCompleted |> <| et_UpdatedAt := now |> in
  let! r := exec_Update task in
  match r with
  | Err err => retS (task, Some (wrap "complete task: " err))
  | Ok _ =>
      let! _ := loop_audit "execution.task_completed" (et_ID task) in
      retS (task, None)
  end.

(** The first pending step and its index. *)
Fixpoint next_pending (plan : list ExecutionStep) (i : nat) : option (ExecutionStep * nat) :=
  match plan with
  | [] => None
  | s :: plan' => if bool_decide (st_Status s = StepPending) then Some (s, i)
                  else next_pending plan' (S i)
  end.

Definition getNextPendingStep (task : ExecutionTask) : option (ExecutionStep * nat) :=
  next_pending (et_Plan task) 0.

Definition allStepsTerminal (steps : list ExecutionStep) : bool :=
  forallb (fun s => negb (bool_decide (st_Status s = StepPending))) steps.

Definition goalSatisfied (task : ExecutionTask) : bool :=
  negb (bool_decide (length (et_Plan task) = 0%nat))
  && forallb (fun s => negb (bool_decide (st_Status s = StepPending)
                             || bool_decide (st_Status s = StepPendingReview))) (et_Plan task)
  && existsb (fun s => bool_decide (st_Status s = StepExecuted)) (et_Plan task).

(** [task.UpdatedAt = nowUTC(); _ = e.tasks.Update(ctx, task)] *)
Definition persist (task : ExecutionTask) : EL ExecutionTask :=
  let! now := loop_now in
  let task := task <| et_UpdatedAt := now |> in
  let! _ := dropped (exec_Update task) in
  retS task.

Definition set_step (task : ExecutionTask) (i : nat) (f : ExecutionStep → ExecutionStep)
    : ExecutionTask := task <| et_Plan := alter f i (et_Plan task) |>.

(** The step's fields after its execution, and the plan adapted when it failed. *)
Definition reflect_step (task : ExecutionTask) (step : ExecutionStep) (i : nat)
    (result : ExecutorResult) : EL ExecutionTask :=
  if er_RequiresReview result then
    let! _ := loop_audit "execution.step_executed" (et_ID task) in
    retS (set_step task i (fun s => s <| st_Status := StepPendingReview |>
                                      <| st_AttemptCount := st_AttemptCount s + 1 |>))
  else if er_Success result then
    let! _ := loop_audit "execution.step_executed" (et_ID task) in
    retS (set_step task i (fun s => s <| st_Status := StepExecuted |>
                                      <| st_ResultRef := er_ActionID result |>))
  else
    let! _ := loop_audit "execution.step_failed" (et_ID task) in
    let task := set_step task i (fun s => s <| st_Status := StepFailed |>
                                            <| st_AttemptCount := st_AttemptCount s + 1 |>) in
    retS (task <| et_Plan := AdaptPlan (et_Plan task) (st_ID step) |>).

(** What one pass through the loop ends with: the result of [RunLoop], or the
    task the next pass starts from. *)
Inductive pass_end : Type :=
| Return (r : loop_result)
| Continue (task : ExecutionTask).

(** EXECUTE, OBSERVE, REFLECT of one pass, from a task with a plan. *)
Definition execute_pass (task : ExecutionTask) : EL pass_end :=
  match getNextPendingStep task with
  | None =>
      if goalSatisfied task then let! r := completeTask task in retS (Return r)
      else
        let! task := persist (task <| et_Plan := [] |>) in
        retS (Continue task)
  | Some (step, i) =>
      let task := task <| et_CurrentStep := Z.of_nat i |> in
      let! blocked := IsStepBlocked (et_ID task) (st_ID step) in
      if blocked : bool then
        let! task := persist (set_step task i (fun s => s <| st_Status := StepBlocked |>)) in
        retS (Continue task)
      else
        let! result := ExecuteStep step (et_OpportunityID task) in
        let! t := loop_now in
        let! _ := dropped (obs_Insert (mkObs (st_ID step) (et_ID task) (er_Success result)
                                        (er_Output result) (er_Error result) t)) in
        let! task := reflect_step task step i result in
        let! task := persist task in
        if goalSatisfied task then let! r := completeTask task in retS (Return r)
        else retS (Continue task)
  end.

(** PLAN: what a pass does before it executes; [None] when planning failed. *)
Definition plan_pass (task : ExecutionTask) : EL (option ExecutionTask) :=
  if bool_decide (length (et_Plan task) = 0%nat) || allStepsTerminal (et_Plan task) then
    let! p := GeneratePlan planner_tools
                (mkPlannerInput (et_Goal task) (et_OpportunityID task) MaxStepsPerPlan) in
    match p with
    | Err _ => retS None
    | Ok plan =>
        let! _ := loop_audit "execution.plan_generated" (et_ID task) in
        retS (Some (task <| et_Plan := plan |> <| et_CurrentStep := 0 |>))
    end
  else retS (Some task).

(** [sigType == "penalty" && sigStrength > 0.05] *)
Definition objective_penalty : EL (option float64) :=
  match le_objective e with
  | None => retS None
  | Some (sig_type, sig_strength) =>
      let! ty := reading sig_type in
      let! strength := reading sig_strength in
      retS (if bool_decide (ty = "penalty") && fltb (lit 5 100) strength then Some strength else None)
  end.

(** One pass through the body of the loop. *)
Definition loop_pass (deadline : time) (task : ExecutionTask) : EL pass_end :=
  let! t := loop_now in
  if bool_decide (deadline < t) then
    let! r := abortTask task "execution time exceeded" in retS (Return r)
  else
    let! pen := objective_penalty in
    match pen with
    | Some strength =>
        let! r := abortTask task ("objective penalty signal: strength=" +:+ le_strength_text e strength) in
        retS (Return r)
    | None =>
        let! abort := ShouldAbort (et_ID task) in
        if fst abort then let! r := abortTask task (snd abort) in retS (Return r)
        else
          let task := task <| et_IterationCount := et_IterationCount task + 1 |> in
          let! planned := plan_pass task in
          match planned with
          | None => let! task := persist task in retS (Continue task)
          | Some task => execute_pass task
          end
    end.

(** [for task.IterationCount < task.MaxIterations]; every pass that continues
    counts one iteration, so the fuel [loop_fuel] is what the loop can use. *)
Fixpoint run_passes (fuel : nat) (deadline : time) (task : ExecutionTask) : EL loop_result :=
  if bool_decide (et_IterationCount task < et_MaxIterations task) then
    match fuel with
    | O => retS (task, Some (Errorf "out of fuel"))
    | S n =>
        let! p := loop_pass deadline task in
        match p with
        | Return r => retS r
        | Continue task' => run_passes n deadline task'
        end
    end
  else abortTask task "maximum iterations reached".

Definition loop_fuel (task : ExecutionTask) : nat :=
  Z.to_nat (et_MaxIterations task - et_IterationCount task).

(** The governance check and the loop of [RunLoop]. *)
Definition governed_loop (task : ExecutionTask) : EL loop_result :=
  let loop :=
    let! start := loop_now in
    run_passes (loop_fuel task) (start + MaxExecutionTimeSec * Second) task in
  match le_governance e with
  | None => loop
  | Some governance =>
      let! mode := reading governance in
      if bool_decide (mode = "frozen") || bool_decide (mode = "rollback_only")
      then abortTask task ("governance mode is " +:+ mode)
      else loop
  end.

(** Go's zero [ExecutionTask]; its status is the empty string, which no
    constructor has, so a result without a task is [None]. *)
Definition RunLoop (taskID : string) : EL (option ExecutionTask * option error) :=
  let! g := exec_Get taskID in
  match g with
  | Err err => retS (None, Some err)
  | Ok task =>
      if bool_decide (et_Status task ≠ ExecPending) && bool_decide (et_Status task ≠ ExecRunning)
      then retS (Some task, Some (Wrapf ("invalid task status transition: task is " +:+
                                         exec_status_string (et_Status task)) ErrExecTransition))
      else
        let run task := let! r := governed_loop task in retS (Some (fst r), snd r) in
        if bool_decide (et_Status task = ExecPending) then
          if negb (ValidateTaskTransition (et_Status task) ExecRunning)
          then retS (Some task, Some ErrExecTransition)
          else
          let! now := loop_now in
          let task := task <| et_Status := ExecRunning |> <| et_UpdatedAt := now |> in
          let! u := exec_Update task in
          match u with
          | Err err => retS (Some task, Some (wrap "transition to running: " err))
          | Ok _ => run task
          end
        else run task
  end.
End engine.
