(* ===== verification/ExecutionLoopProps.v ===== *)
(** * Properties of the execution loop *)

From stdpp Require Import base gmap strings list tactics numbers fin_maps.
From Stdlib Require Import ZArith Lia.
From S2P Require Import Prelude GoFloat GoJSON GoSort Models AgentWorld ExternalActions ExecutionLoop Fixtures.

Open Scope Z_scope.

(** ** Calls of the provider *)

Section calls.
Context {X : Type} (ext : ActionsProvider X).

(** [ext_calls n x x']: [n] calls lead from [x] to [x']. *)
Inductive ext_calls : nat → X → X → Prop :=
| calls_none x : ext_calls 0 x x
| calls_next n x tool payload opp x' :
    ext_calls n x x' → ext_calls (S n) x (snd (ext tool payload opp x')).

Definition at_most (n : nat) (x x' : X) : Prop := ∃ k, (k ≤ n)%nat ∧ ext_calls k x x'.

Lemma at_most_more n m x x' : (n ≤ m)%nat → at_most n x x' → at_most m x x'.
Proof using. intros Hn (k & Hk & H). exists k. split; [lia|done]. Qed.

(** Unsuccessful answers: an error, a failure or a request for review. *)
Definition unsuccessful (r : res ExecutorResult) : Prop :=
  match r with Ok er => er_Success er = false | Err _ => True end.
End calls.

(** ** The plan column *)

Lemma step_status_of_string st : step_status_of (step_status_string st) = Some st.
Proof. by destruct st. Qed.

(** Every field comes back; only the payload's text may change. *)
Lemma stored_step_eq {J : PgJsonb} st :
  stored_step st = text ← marshal_raw (st_Payload st); stored ← jsonb text; Some (st <| st_Payload := Some stored |>).
Proof.
  destruct st as [id d t p status rr n]. unfold stored_step, marshal_step. cbn [st_ID st_Description st_Tool st_Payload
    st_Status st_ResultRef st_AttemptCount].
  destruct (marshal_raw p) as [text|]; [|done]. cbn [mbind option_bind].
  unfold jsonb_object. case_bool_decide as Hr; cbn [app mapM jsonb_member mbind option_bind mret option_ret];
    (destruct (jsonb text) as [stored|]; [|done]).
  - subst rr. destruct status; vm_compute; reflexivity.
  - destruct status; vm_compute; reflexivity.
Qed.

Section loop.
Context {U : UuidPkg} {J : PgJsonb} {X : Type} (e : LoopEngine X).

Abbreviation EL := (St (Agent LoopDB X)).

(** ** What one pass returns *)

Definition ended (t : ExecutionTask) : Prop := et_Status t = ExecCompleted ∨ et_Status t = ExecAborted.

Definition next_task (t t' : ExecutionTask) : Prop :=
  et_ID t' = et_ID t ∧ et_Goal t' = et_Goal t ∧ et_OpportunityID t' = et_OpportunityID t ∧
  et_Status t' = et_Status t ∧ et_MaxIterations t' = et_MaxIterations t ∧
  et_IterationCount t' = et_IterationCount t + 1.

Definition pass_ok (t : ExecutionTask) (p : pass_end) : Prop :=
  match p with Return r => ended (fst r) | Continue t' => next_task t t' end.

Lemma abortTask_ends t reason : returns (abortTask (X := X) e t reason) (fun r => et_Status (fst r) = ExecAborted).
Proof using.
  eapply returns_bind; [apply returns_any|]. intros now _.
  eapply returns_bind; [apply returns_any|]. intros [u|err] _; [|by apply returns_ret].
  eapply returns_bind; [apply returns_any|]. intros ? _. by apply returns_ret.
Qed.

Lemma completeTask_ends t : returns (completeTask (X := X) e t) (fun r => et_Status (fst r) = ExecCompleted).
Proof using.
  eapply returns_bind; [apply returns_any|]. intros now _.
  eapply returns_bind; [apply returns_any|]. intros [u|err] _; [|by apply returns_ret].
  eapply returns_bind; [apply returns_any|]. intros ? _. by apply returns_ret.
Qed.

Lemma return_abort t reason (P : pass_end → Prop) :
  (∀ r, et_Status (fst r) = ExecAborted → P (Return r)) →
  returns (let! r := abortTask (X := X) e t reason in retS (Return r)) P.
Proof using.
  intros HP. eapply returns_bind; [apply abortTask_ends|]. intros r Hr. apply returns_ret. by apply HP.
Qed.

Lemma return_complete t (P : pass_end → Prop) :
  (∀ r, et_Status (fst r) = ExecCompleted → P (Return r)) →
  returns (let! r := completeTask (X := X) e t in retS (Return r)) P.
Proof using.
  intros HP. eapply returns_bind; [apply completeTask_ends|]. intros r Hr. apply returns_ret. by apply HP.
Qed.

Lemma persist_returns t : returns (persist (X := X) e t) (fun t' => ∃ now, t' = t <| et_UpdatedAt := now |>).
Proof using.
  eapply returns_bind; [apply returns_any|]. intros now _.
  eapply returns_bind; [apply returns_any|]. intros ? _. apply returns_ret. eauto.
Qed.

Lemma reflect_returns t step i result :
  returns (reflect_step (X := X) e t step i result) (fun t' => ∃ plan, t' = t <| et_Plan := plan |>).
Proof using.
  unfold reflect_step. destruct (er_RequiresReview result), (er_Success result);
    (eapply returns_bind; [apply returns_any|]; intros ? _; apply returns_ret; eauto).
  all: unfold set_step; eexists; reflexivity.
Qed.

Lemma execute_pass_returns t t0 :
  et_ID t = et_ID t0 → et_Goal t = et_Goal t0 → et_OpportunityID t = et_OpportunityID t0 →
  et_Status t = et_Status t0 → et_MaxIterations t = et_MaxIterations t0 →
  et_IterationCount t = et_IterationCount t0 + 1 →
  returns (execute_pass e t) (pass_ok t0).
Proof using.
  intros H1 H2 H3 H4 H5 H6. unfold execute_pass.
  destruct (getNextPendingStep t) as [[step i]|].
  - eapply returns_bind; [apply returns_any|]. intros [|] _.
    + eapply returns_bind; [apply persist_returns|]. intros ? (now & ->). apply returns_ret.
      by repeat split.
    + eapply returns_bind; [apply returns_any|]. intros result _.
      eapply returns_bind; [apply returns_any|]. intros tm _.
      eapply returns_bind; [apply returns_any|]. intros ? _.
      eapply returns_bind; [apply reflect_returns|]. intros ? (plan & ->).
      eapply returns_bind; [apply persist_returns|]. intros ? (now & ->).
      destruct (goalSatisfied _); [|by apply returns_ret; repeat split].
      apply return_complete. intros r Hr. by left.
  - destruct (goalSatisfied t); [apply return_complete; intros r Hr; by left|].
    eapply returns_bind; [apply persist_returns|]. intros ? (now & ->). apply returns_ret.
    by repeat split.
Qed.

Lemma plan_pass_returns t :
  returns (plan_pass (X := X) e t) (fun r => ∀ t', r = Some t' →
    ∃ plan i, t' = t <| et_Plan := plan |> <| et_CurrentStep := i |>).
Proof using.
  unfold plan_pass. destruct (_ || _).
  - eapply returns_bind; [apply returns_any|]. intros [plan|err] _; [|by apply returns_ret].
    eapply returns_bind; [apply returns_any|]. intros ? _. apply returns_ret. intros t' [= <-]. eauto.
  - apply returns_ret. intros t' [= <-]. exists (et_Plan t), (et_CurrentStep t). by destruct t.
Qed.

Lemma loop_pass_returns d t : returns (loop_pass e d t) (pass_ok t).
Proof using.
  unfold loop_pass. eapply returns_bind; [apply returns_any|]. intros now _.
  destruct (bool_decide _); [apply return_abort; intros r Hr; by right|].
  eapply returns_bind; [apply returns_any|]. intros [strength|] _; [apply return_abort; intros r Hr; by right|].
  eapply returns_bind; [apply returns_any|]. intros [[|] reason] _; [apply return_abort; intros r Hr; by right|].
  eapply returns_bind; [apply plan_pass_returns|]. intros [t'|] Ht'.
  - destruct (Ht' t' eq_refl) as (plan & i & ->). by apply execute_pass_returns.
  - eapply returns_bind; [apply persist_returns|]. intros ? (tm & ->). by apply returns_ret; repeat split.
Qed.

(** The loop does not depend on its fuel: it satisfies its own equation. *)
Lemma run_passes_fuel n : ∀ m d t s,
  (loop_fuel t ≤ n)%nat → (loop_fuel t ≤ m)%nat → run_passes e n d t s = run_passes e m d t s.
Proof using.
  induction n as [|n IH]; intros m d t s Hn Hm; destruct m as [|m]; try done; cbn [run_passes];
    unfold loop_fuel in *.
  - case_bool_decide; [lia|done].
  - case_bool_decide; [lia|done].
  - case_bool_decide as Hlt; [|done]. rewrite !bindS_run.
    pose proof (loop_pass_returns d t s) as Hp. destruct (fst (loop_pass e d t s)) as [r|t']; [done|].
    destruct Hp as (_ & _ & _ & _ & Hmax & Hit). apply IH; rewrite Hmax, Hit; lia.
Qed.

Lemma run_passes_equation d t s :
  run_passes e (loop_fuel t) d t s =
  (if bool_decide (et_IterationCount t < et_MaxIterations t) then
     let! p := loop_pass e d t in
     match p with Return r => retS r | Continue t' => run_passes e (loop_fuel t') d t' end
   else abortTask e t "maximum iterations reached") s.
Proof using.
  destruct (loop_fuel t) as [|n] eqn:Hn; cbn [run_passes].
  - case_bool_decide; [|done]. unfold loop_fuel in Hn. lia.
  - case_bool_decide; [|done]. rewrite !bindS_run.
    pose proof (loop_pass_returns d t s) as Hp. destruct (fst (loop_pass e d t s)) as [r|t']; [done|].
    destruct Hp as (_ & _ & _ & _ & Hmax & Hit). unfold loop_fuel in *.
    apply run_passes_fuel; unfold loop_fuel; rewrite Hmax, Hit; lia.
Qed.

Lemma run_passes_ends n : ∀ d t, (loop_fuel t ≤ n)%nat → returns (run_passes e n d t) (fun r => ended (fst r)).
Proof using.
  assert (Habort : ∀ t reason, returns (abortTask (X := X) e t reason) (fun r => ended (fst r))).
  { intros t reason. eapply returns_weaken; [apply abortTask_ends|]. intros r Hr. by right. }
  induction n as [|n IH]; intros d t Hn; cbn [run_passes]; unfold loop_fuel in *.
  - rewrite bool_decide_false by lia. apply Habort.
  - case_bool_decide; [|apply Habort].
    eapply returns_bind; [apply loop_pass_returns|]. intros [r|t'] Hp; [by apply returns_ret|].
    destruct Hp as (_ & _ & _ & _ & Hmax & Hit). apply IH. rewrite Hmax, Hit. lia.
Qed.

(** ** Calls of the provider *)

Lemma store_keeps_ext :
  (∀ t, keeps_ext (exec_Update (X := X) t)) ∧ (∀ id, keeps_ext (exec_Get (X := X) id)) ∧
  (∀ o, keeps_ext (obs_Insert (X := X) o)) ∧ (∀ id, keeps_ext (ShouldAbort (X := X) id)) ∧
  (∀ id st, keeps_ext (IsStepBlocked (X := X) id st)).
Proof using.
  unfold exec_Update, exec_Get, obs_Insert, ShouldAbort, IsStepBlocked, obs_CountConsecutiveFailures,
    obs_ListByTask.
  split; [|split; [|split; [|split]]]; keeps_ext_steps.
Qed.

Lemma helpers_keep_ext :
  (∀ t reason, keeps_ext (abortTask (X := X) e t reason)) ∧ (∀ t, keeps_ext (completeTask (X := X) e t)) ∧
  (∀ t, keeps_ext (persist (X := X) e t)) ∧
  (∀ t step i r, keeps_ext (reflect_step (X := X) e t step i r)) ∧
  (∀ t, keeps_ext (plan_pass (X := X) e t)) ∧ keeps_ext (objective_penalty (X := X) e).
Proof using.
  destruct store_keeps_ext as (Hu & Hg & Ho & Ha & Hb).
  unfold abortTask, completeTask, persist, reflect_step, plan_pass, objective_penalty, loop_now,
    loop_audit, GeneratePlan.
  split; [|split; [|split; [|split; [|split]]]]; keeps_ext_steps.
Qed.

Section counting.
Variable ext : ActionsProvider X.
Hypothesis Hext : le_extActions e = Some ext.

Definition within (x0 : X) (n : nat) (s : Agent LoopDB X) : Prop := at_most ext n x0 (ag_ext s).

Lemma within_keeps {A} x0 n (c : EL A) : keeps_ext c → triple (within x0 n) c (fun _ => within x0 n).
Proof using. intros H. by apply (triple_keeps_ext (at_most ext n x0)). Qed.

Lemma within_more x0 n m s : (n ≤ m)%nat → within x0 n s → within x0 m s.
Proof using. intros H. by apply at_most_more. Qed.

Lemma ExecuteStep_within x0 n step opp :
  triple (within x0 n) (ExecuteStep e step opp) (fun _ => within x0 (S n)).
Proof using Hext.
  assert (Hmore : ∀ s, within x0 n s → within x0 (S n) s) by (intros s; apply within_more; lia).
  unfold ExecuteStep. rewrite Hext. set (execute := if bool_decide (st_Tool step = "") then _ else _).
  assert (Hx : triple (within x0 n) execute (fun _ => within x0 (S n))).
  { unfold execute. destruct (bool_decide _); [by apply triple_ret|].
    eapply (triple_bind _ _ (fun _ => within x0 (S n))).
    - intros s (k & Hk & Hc). unfold provider.
      pose proof (calls_next ext k x0 (st_Tool step) (Some (default "{}" (st_Payload step))) opp _ Hc) as Hn.
      destruct (ext _ _ _ (ag_ext s)) as [a x]. exists (S k). split; [lia|exact Hn].
    - intros r. by apply triple_ret. }
  clearbody execute. destruct (le_governance e) as [g|]; [|exact Hx].
  eapply triple_bind; [apply within_keeps; auto with keeps_ext|]. intros mode.
  destruct (_ || _); [by apply triple_ret|]. destruct (bool_decide _); [by apply triple_ret|exact Hx].
Qed.

Lemma loop_pass_within x0 n d t :
  triple (within x0 n) (loop_pass e d t) (fun _ => within x0 (S n)).
Proof using Hext.
  destruct store_keeps_ext as (Hu & Hg & Ho & Ha & Hb).
  destruct helpers_keep_ext as (Hab & Hco & Hpe & Hre & Hpl & Hob).
  assert (Hmore : ∀ {A} (c : EL A), keeps_ext c → triple (within x0 n) c (fun _ => within x0 (S n))).
  { intros A c Hc. eapply triple_weaken; [by apply within_keeps|done|].
    intros a s. apply within_more. lia. }
  assert (Hnow : keeps_ext (loop_now e)) by apply keeps_ext_reading.
  unfold loop_pass. eapply triple_bind; [by apply within_keeps|]. intros now.
  destruct (bool_decide _); [apply Hmore; keeps_ext_steps|].
  eapply triple_bind; [by apply within_keeps|]. intros [strength|]; [apply Hmore; keeps_ext_steps|].
  eapply triple_bind; [by apply within_keeps|]. intros abort.
  destruct (fst abort); [apply Hmore; keeps_ext_steps|].
  eapply triple_bind; [by apply within_keeps|]. intros [t'|]; [|apply Hmore; keeps_ext_steps].
  unfold execute_pass. destruct (getNextPendingStep t') as [[step i]|].
  - eapply triple_bind; [by apply within_keeps|]. intros [|]; [apply Hmore; keeps_ext_steps|].
    eapply triple_bind; [apply ExecuteStep_within|]. intros result.
    apply within_keeps. keeps_ext_steps.
  - destruct (goalSatisfied t'); apply Hmore; keeps_ext_steps.
Qed.

Lemma run_passes_within x0 fuel : ∀ n d t,
  triple (within x0 n) (run_passes e fuel d t) (fun _ => within x0 (n + fuel)).
Proof using Hext.
  destruct helpers_keep_ext as (Hab & _).
  induction fuel as [|fuel IH]; intros n d t; cbn [run_passes]; destruct (bool_decide _).
  1,2,4: eapply triple_weaken; [apply within_keeps; auto with keeps_ext|intros s H; exact H|];
    intros r s; apply within_more; lia.
  eapply triple_bind; [apply loop_pass_within|]. intros [r|t'].
  - apply triple_ret. intros s. apply within_more. lia.
  - eapply triple_weaken; [apply (IH (S n))|done|]. intros r s. apply within_more. lia.
Qed.
End counting.

(** ** Loops whose steps never succeed *)

Lemma ExecuteStep_fails step opp :
  (∀ ext, le_extActions e = Some ext →
   ∀ payload, returns (ext (st_Tool step) payload opp) unsuccessful) →
  returns (ExecuteStep e step opp) (fun r => er_Success r = false).
Proof using.
  intros provider_fails. unfold ExecuteStep. set (execute := if bool_decide (st_Tool step = "") then _ else _).
  assert (Hx : returns execute (fun r => er_Success r = false)).
  { unfold execute. destruct (bool_decide _); [by apply returns_ret|].
    destruct (le_extActions e) as [ext|] eqn:He; [|by apply returns_ret].
    eapply returns_bind with (Q := unsuccessful).
    - intros s. unfold provider.
      pose proof (provider_fails ext eq_refl (Some (default "{}" (st_Payload step))) (ag_ext s)) as H.
      by destruct (ext _ _ _ (ag_ext s)).
    - intros [er|err] Hr; by apply returns_ret. }
  clearbody execute. destruct (le_governance e) as [g|]; [|exact Hx].
  eapply returns_bind; [apply returns_any|]. intros mode _.
  destruct (_ || _); [by apply returns_ret|]. destruct (bool_decide _); [by apply returns_ret|exact Hx].
Qed.

(** Modes that block execution. *)
Definition blocking (mode : string) : Prop := mode ∈ ["frozen"; "rollback_only"; "safe_hold"].

Lemma ExecuteStep_blocked g step opp :
  le_governance e = Some g → (∀ n, blocking (g n)) →
  returns (ExecuteStep e step opp) (fun r => er_Success r = false) ∧ keeps_ext (ExecuteStep e step opp).
Proof using.
  intros Hg Hb.
  assert (H : ∀ s, er_Success (fst (ExecuteStep e step opp s)) = false ∧
    ag_ext (snd (ExecuteStep e step opp s)) = ag_ext s).
  { intros s. unfold ExecuteStep. rewrite Hg, bindS_run. cbn [reading fst snd].
    pose proof (Hb (ag_reads s)) as Hm. unfold blocking in Hm. rewrite !elem_of_cons, elem_of_nil in Hm.
    destruct Hm as [-> | [-> | [-> | []]]]; done. }
  split; intros s; apply H.
Qed.

Section failing.
Variable good : string → Prop.
Hypothesis good_default : good "external_action".
Hypothesis step_fails : ∀ step opp, good (st_Tool step) →
  returns (ExecuteStep e step opp) (fun r => er_Success r = false).

Definition step_undone (st : ExecutionStep) : Prop := st_Status st ≠ StepExecuted ∧ good (st_Tool st).
Definition undone (t : ExecutionTask) : Prop := Forall step_undone (et_Plan t).

Lemma goalSatisfied_undone t : undone t → goalSatisfied t = false.
Proof using.
  intros H. unfold goalSatisfied. apply andb_false_iff. right.
  destruct (existsb _ _) eqn:E; [|done]. apply existsb_elem in E as (st & Hst & E%bool_decide_eq_true).
  unfold undone in H. rewrite list.Forall_forall in H. by destruct (H st Hst).
Qed.

Lemma undone_set_step t i f :
  (∀ st, step_undone st → step_undone (f st)) → undone t → undone (set_step t i f).
Proof using. intros Hf H. apply Forall_alter; [exact H|]. intros x _. apply Hf. Qed.

Lemma undone_adapt t id : undone t → undone (t <| et_Plan := AdaptPlan (et_Plan t) id |>).
Proof using.
  intros H. unfold undone, AdaptPlan. cbn [et_Plan set_field]. apply Forall_fmap.
  eapply Forall_impl; [exact H|]. intros st [H1 H2]. cbn.
  destruct (bool_decide _); [|by split]. destruct (bool_decide _); by split.
Qed.

Lemma undone_pick t step i : undone t → getNextPendingStep t = Some (step, i) → step_undone step.
Proof using.
  unfold undone, getNextPendingStep. generalize 0%nat. induction (et_Plan t) as [|st plan IH]; [done|].
  intros k Hall. pose proof (Forall_cons_1 _ _ _ Hall) as [H1 H2]. cbn.
  destruct (bool_decide _); [by intros [= <- _]|by apply IH].
Qed.

Lemma reflect_undone t step i result :
  er_Success result = false → undone t → returns (reflect_step (X := X) e t step i result) undone.
Proof using.
  intros Hr Ht. unfold reflect_step. rewrite Hr. destruct (er_RequiresReview result);
    (eapply returns_bind; [apply returns_any|]); intros ? _; apply returns_ret.
  - apply undone_set_step; [|done]. by intros st [_ Hg].
  - apply undone_adapt, undone_set_step; [|done]. by intros st [_ Hg].
Qed.

Lemma plan_pass_undone t :
  undone t → returns (plan_pass (X := X) e t) (fun r => ∀ t', r = Some t' → undone t').
Proof using good_default.
  intros Ht. unfold plan_pass. destruct (_ || _); [|apply returns_ret; by intros t' [= <-]].
  eapply returns_bind with (Q := fun r => match r with Ok plan => Forall step_undone plan | _ => True end).
  - unfold GeneratePlan. destruct (bool_decide _); [by apply returns_ret|].
    eapply returns_bind; [apply returns_any|]. intros id _. apply returns_ret.
    constructor; [|constructor]. by split.
  - intros [plan|err] Hp; [|by apply returns_ret].
    eapply returns_bind; [apply returns_any|]. intros ? _. apply returns_ret. by intros t' [= <-].
Qed.

Definition stays_undone (p : pass_end) : Prop :=
  match p with Return r => et_Status (fst r) = ExecAborted | Continue t' => undone t' end.

Lemma loop_pass_undone d t : undone t → returns (loop_pass e d t) stays_undone.
Proof using good_default step_fails.
  intros Ht. unfold loop_pass. eapply returns_bind; [apply returns_any|]. intros now _.
  destruct (bool_decide _); [by apply return_abort|].
  eapply returns_bind; [apply returns_any|]. intros [strength|] _; [by apply return_abort|].
  eapply returns_bind; [apply returns_any|]. intros [[|] reason] _; [by apply return_abort|]. cbn [fst].
  assert (Hp : ∀ t1, undone t1 → returns (let! t' := persist (X := X) e t1 in retS (Continue t')) stays_undone).
  { intros t1 H1. eapply returns_bind; [apply persist_returns|]. intros ? (tm & ->). by apply returns_ret. }
  eapply returns_bind; [by apply plan_pass_undone|]. intros [t'|] Ht'; [|by apply Hp].
  specialize (Ht' t' eq_refl). unfold execute_pass.
  destruct (getNextPendingStep t') as [[step i]|] eqn:Hs.
  - destruct (undone_pick t' step i Ht' Hs) as [_ Hg].
    eapply returns_bind; [apply returns_any|]. intros [|] _.
    { apply Hp, undone_set_step; [|done]. by intros st [_ ?]. }
    eapply returns_bind; [by apply step_fails|]. intros result Hr.
    eapply returns_bind; [apply returns_any|]. intros tm _.
    eapply returns_bind; [apply returns_any|]. intros ? _.
    eapply returns_bind; [by apply reflect_undone|]. intros t2 H2.
    eapply returns_bind; [apply persist_returns|]. intros ? (tm2 & ->).
    rewrite goalSatisfied_undone by done. by apply returns_ret.
  - rewrite goalSatisfied_undone by done. apply Hp. constructor.
Qed.

Lemma run_passes_undone n : ∀ d t, (loop_fuel t ≤ n)%nat → undone t →
  returns (run_passes e n d t) (fun r => et_Status (fst r) = ExecAborted).
Proof using good_default step_fails.
  induction n as [|n IH]; intros d t Hn Ht; cbn [run_passes]; unfold loop_fuel in *.
  - rewrite bool_decide_false by lia. apply abortTask_ends.
  - case_bool_decide; [|apply abortTask_ends].
    eapply returns_bind with (Q := fun p => pass_ok t p ∧ stays_undone p).
    { intros s. split; [by apply loop_pass_returns|by apply loop_pass_undone]. }
    intros [r|t'] [Hp Hu]; [by apply returns_ret|].
    destruct Hp as (_ & _ & _ & _ & Hmax & Hit). apply IH; [rewrite Hmax, Hit; lia|done].
Qed.

Lemma exec_Get_row id (s : Agent LoopDB X) t :
  fst (exec_Get id s) = Ok t → exec_tasks (ag_db s) !! id = Some t.
Proof using.
  unfold exec_Get. rewrite bindS_run. cbn [fst retS]. unfold statement.
  destruct (ag_faults s) as [|[]]; cbn; try done; by destruct (exec_tasks (ag_db s) !! id);
    [intros [= ->]|].
Qed.

(** A run of a task whose plan has no executed step does not complete it. *)
Lemma RunLoop_undone id s :
  (∀ t, exec_tasks (ag_db s) !! id = Some t → undone t ∧ et_Status t ≠ ExecCompleted) →
  ∀ t, fst (fst (RunLoop e id s)) = Some t → et_Status t ≠ ExecCompleted.
Proof using good_default step_fails.
  intros Hrow. unfold RunLoop. rewrite bindS_run.
  pose proof (exec_Get_row id s) as Hg.
  destruct (fst (exec_Get id s)) as [t|err]; [|done]. destruct (Hrow t (Hg t eq_refl)) as [Hu Hst].
  destruct (_ && _); [by intros t' [= <-]|].
  assert (Hrun : ∀ t1, undone t1 → returns (let! r := governed_loop e t1 in retS (Some (fst r), snd r))
    (fun out => ∀ t', fst out = Some t' → et_Status t' ≠ ExecCompleted)).
  { intros t1 H1. eapply returns_bind with (Q := fun r => et_Status (fst r) = ExecAborted).
    - unfold governed_loop. assert (Hl : returns (let! start := loop_now e in
        run_passes e (loop_fuel t1) (start + MaxExecutionTimeSec * Second) t1)
        (fun r => et_Status (fst r) = ExecAborted)).
      { eapply returns_bind; [apply returns_any|]. intros now _. by apply run_passes_undone. }
      destruct (le_governance e); [|exact Hl].
      eapply returns_bind; [apply returns_any|]. intros mode _.
      destruct (_ || _); [apply abortTask_ends|exact Hl].
    - intros r Hr. apply returns_ret. intros t' [= <-]. by rewrite Hr. }
  match goal with |- ∀ t', fst (fst (?c ?w)) = _ → _ =>
    cut (returns c (fun out => ∀ t', fst out = Some t' → et_Status t' ≠ ExecCompleted));
    [intros H; exact (H w)|] end.
  destruct (bool_decide _); [|by apply Hrun].
  destruct (negb _); [apply returns_ret; by intros t' [= <-]|].
  eapply returns_bind; [apply returns_any|]. intros now _. cbv zeta.
  eapply returns_bind; [apply returns_any|]. intros [u|err] _; [by apply Hrun|].
  apply returns_ret. by intros t' [= <-].
Qed.

(** Such runs leave the provider alone when their steps do. *)
Section keeps.
Hypothesis step_keeps : ∀ step opp, good (st_Tool step) → keeps_ext (ExecuteStep e step opp).

Lemma loop_pass_keeps d t : undone t → keeps_ext (loop_pass e d t).
Proof using good_default step_keeps.
  intros Ht. destruct store_keeps_ext as (Hu & Hg & Ho & Ha & Hb).
  destruct helpers_keep_ext as (Hab & Hco & Hpe & Hre & Hpl & Hob).
  assert (Hnow : keeps_ext (loop_now (X := X) e)) by apply keeps_ext_reading.
  assert (Hex : ∀ t', undone t' → keeps_ext (execute_pass e t')).
  { intros t' Ht'. unfold execute_pass.
    destruct (getNextPendingStep t') as [[step i]|] eqn:Hs; [|keeps_ext_steps].
    destruct (undone_pick t' step i Ht' Hs) as [_ Hgood].
    pose proof (step_keeps step (et_OpportunityID (t' <| et_CurrentStep := Z.of_nat i |>)) Hgood).
    keeps_ext_steps. }
  unfold loop_pass. apply keeps_ext_bind; [done|]. intros now.
  destruct (bool_decide _); [keeps_ext_steps|]. apply keeps_ext_bind; [done|].
  intros [strength|]; [keeps_ext_steps|]. apply keeps_ext_bind; [done|]. intros abort.
  destruct (fst abort); [keeps_ext_steps|].
  eapply keeps_ext_bind_returns; [apply Hpl|by apply plan_pass_undone|].
  intros [t'|] Ht'; [by apply Hex, Ht'|keeps_ext_steps].
Qed.

Lemma run_passes_keeps n : ∀ d t, undone t → keeps_ext (run_passes e n d t).
Proof using good_default step_fails step_keeps.
  destruct helpers_keep_ext as (Hab & _).
  induction n as [|n IH]; intros d t Ht; cbn [run_passes]; destruct (bool_decide _); try apply Hab.
  { apply keeps_ext_ret. }
  eapply keeps_ext_bind_returns; [by apply loop_pass_keeps|by apply loop_pass_undone|].
  intros [r|t'] Hp; [apply keeps_ext_ret|by apply IH].
Qed.

Lemma RunLoop_undone_keeps id s :
  (∀ t, exec_tasks (ag_db s) !! id = Some t → undone t) →
  ag_ext (snd (RunLoop e id s)) = ag_ext s.
Proof using good_default step_fails step_keeps.
  intros Hrow. destruct store_keeps_ext as (Hu & Hg & _). destruct helpers_keep_ext as (Hab & _).
  assert (Hnow : keeps_ext (loop_now (X := X) e)) by apply keeps_ext_reading.
  assert (Hrun : ∀ t, undone t → keeps_ext (let! r := governed_loop e t in retS (Some (fst r), snd r))).
  { intros t Ht. unfold governed_loop. pose proof (fun n d => run_passes_keeps n d t Ht). keeps_ext_steps. }
  unfold RunLoop. rewrite bindS_run.
  pose proof (exec_Get_row id s) as Hget. pose proof (Hg id s) as Hx.
  destruct (fst (exec_Get id s)) as [t|err]; [|exact Hx]. rewrite <- Hx.
  specialize (Hrow t (Hget t eq_refl)). set (s1 := snd (exec_Get id s)). clearbody s1. clear Hx.
  destruct (_ && _); [done|]. cbv zeta.
  match goal with |- ag_ext (snd (?c s1)) = _ => cut (keeps_ext c); [intros H; apply H|] end.
  destruct (bool_decide _); [|by apply Hrun]. destruct (negb _); [apply keeps_ext_ret|].
  apply keeps_ext_bind; [done|]. intros now. apply keeps_ext_bind; [done|].
  intros [u|err]; [by apply Hrun|apply keeps_ext_ret].
Qed.
End keeps.
End failing.

(** ** Whole runs under any faults *)

Lemma RunLoop_bound ext id s :
  le_extActions e = Some ext →
  at_most ext (match exec_tasks (ag_db s) !! id with Some t => loop_fuel t | None => 0 end)
    (ag_ext s) (ag_ext (snd (RunLoop e id s))).
Proof using.
  intros He. set (n := match exec_tasks (ag_db s) !! id with Some t => loop_fuel t | None => 0%nat end).
  destruct store_keeps_ext as (Hu & Hg & _). destruct helpers_keep_ext as (Hab & _).
  cut (triple (fun s' => s' = s) (RunLoop e id) (fun _ => within ext (ag_ext s) n)); [intros H; by apply (H s)|].
  unfold RunLoop.
  eapply (triple_bind _ _ (fun g s' => (∀ t, g = Ok t → n = loop_fuel t) ∧ within ext (ag_ext s) 0 s')).
  { intros s' ->. split; [|exists 0%nat; split; [done|rewrite Hg; constructor]].
    intros t. unfold exec_Get. rewrite bindS_run. unfold n, statement.
    destruct (ag_faults s) as [|[]]; cbn; try done; by destruct (exec_tasks (ag_db s) !! id);
      [intros [= ->]|]. }
  intros g. apply triple_fact. intros Hn.
  assert (Hret : ∀ r : option ExecutionTask * option error,
    triple (within ext (ag_ext s) 0) (retS r) (fun _ => within ext (ag_ext s) n)).
  { intros r. apply triple_ret. intros s'. apply within_more. lia. }
  destruct g as [t|err]; [|apply Hret]. specialize (Hn t eq_refl). destruct (_ && _); [apply Hret|]. cbv zeta.
  assert (Hrun : ∀ t1, loop_fuel t1 = loop_fuel t → triple (within ext (ag_ext s) 0)
    (let! r := governed_loop e t1 in retS (Some (fst r), snd r)) (fun _ => within ext (ag_ext s) n)).
  { intros t1 H1. eapply (triple_bind _ _ (fun _ => within ext (ag_ext s) n)); [|intros r; by apply triple_ret].
    unfold governed_loop. assert (Hl : triple (within ext (ag_ext s) 0) (let! start := loop_now e in
      run_passes e (loop_fuel t1) (start + MaxExecutionTimeSec * Second) t1) (fun _ => within ext (ag_ext s) n)).
    { eapply triple_bind; [apply within_keeps; apply keeps_ext_reading|]. intros start.
      rewrite Hn, <- H1. by apply (run_passes_within ext He (ag_ext s) (loop_fuel t1) 0). }
    destruct (le_governance e); [|exact Hl].
    eapply triple_bind; [apply within_keeps; auto with keeps_ext|]. intros mode.
    destruct (_ || _); [|exact Hl]. eapply triple_weaken; [by apply within_keeps|intros s' H; exact H|].
    intros ? s'. apply within_more. lia. }
  destruct (bool_decide _); [|by apply Hrun]. destruct (negb _); [apply Hret|].
  eapply triple_bind; [apply within_keeps; apply keeps_ext_reading|]. intros now.
  eapply triple_bind; [by apply within_keeps|]. intros [u|err]; [by apply Hrun|apply Hret].
Qed.

Lemma RunLoop_ends id s :
  let '(t, err) := fst (RunLoop e id s) in err = None → ∃ t', t = Some t' ∧ ended t'.
Proof using.
  assert (H : returns (RunLoop e id) (fun out => snd out = None → ∃ t', fst out = Some t' ∧ ended t')).
  { unfold RunLoop. eapply returns_bind; [apply returns_any|]. intros [t|err] _; [|by apply returns_ret].
    destruct (_ && _); [by apply returns_ret|]. cbv zeta.
    assert (Hrun : ∀ t1, returns (let! r := governed_loop e t1 in retS (Some (fst r), snd r))
      (fun out => snd out = None → ∃ t', fst out = Some t' ∧ ended t')).
    { intros t1. eapply returns_bind with (Q := fun r => ended (fst r)).
      - unfold governed_loop. assert (Hl : returns (let! start := loop_now e in
          run_passes e (loop_fuel t1) (start + MaxExecutionTimeSec * Second) t1) (fun r => ended (fst r))).
        { eapply returns_bind; [apply returns_any|]. intros now _. by apply run_passes_ends. }
        destruct (le_governance e); [|exact Hl]. eapply returns_bind; [apply returns_any|]. intros mode _.
        destruct (_ || _); [|exact Hl]. eapply returns_weaken; [apply abortTask_ends|]. intros r Hr. by right.
      - intros r Hr. apply returns_ret. intros _. by eexists. }
    destruct (bool_decide _); [|by apply Hrun]. destruct (negb _); [by apply returns_ret|].
    eapply returns_bind; [apply returns_any|]. intros now _.
    eapply returns_bind; [apply returns_any|]. intros [u|err] _; [by apply Hrun|by apply returns_ret]. }
  specialize (H s). by destruct (fst (RunLoop e id s)).
Qed.
End loop.
