(* ===== verification/ExecutionLoopTheorems.v ===== *)
(** * Theorems on the execution loop

    First the course of a run whose steps keep failing. *)

From stdpp Require Import base gmap strings list tactics numbers fin_maps.
From Stdlib Require Import ZArith Lia.
From S2P Require Import Prelude GoFloat GoStrconv GoJSON GoSort Models AgentWorld ExternalActions ExecutionLoop ExecutionLoopProps Fixtures.

Open Scope Z_scope.

(** ** The course of a failing run *)

Section loop.
Context {U : UuidPkg} {J : PgJsonb} {X : Type} (e : LoopEngine X).

Abbreviation EL := (St (Agent LoopDB X)).

(** ** The course of a run whose steps keep failing

    Without faults, penalties, blocking governance modes or a clock that runs
    past the deadline. *)

Section course.
Context {UL : UuidLaws U} {JL : PgJsonbLaws J}.
Variable ext : ActionsProvider X.
Variables (id goal opp : string) (x0 : X).

Record failing_setting : Prop := {
  fs_ext : le_extActions e = Some ext;
  fs_fails : ∀ tool payload o x, match fst (ext tool payload o x) with
    | Ok er => er_Success er = false ∧ is_Some (jsonb (default "null" (er_Output er)))
    | Err _ => True
    end;
  fs_governance : ∀ g, le_governance e = Some g → ∀ n, g n ∉ ["frozen"; "rollback_only"; "safe_hold"];
  fs_objective : ∀ ty st, le_objective e = Some (ty, st) → ∀ n, ty n ≠ "penalty";
  fs_clock : ∀ i j, le_clock e j ≤ le_clock e i + 60 * Second;
  fs_goal : goal ≠ "";
  fs_payload : is_Some (jsonb (marshal_map [("goal", goal); ("opportunity_id", opp)]))
}.
Hypothesis setting : failing_setting.

Definition own_obs (db : LoopDB) : list ExecutionObservation :=
  List.filter (fun o => bool_decide (ob_TaskID o = id)) (exec_observations db).

(** An id handed out before. *)
Definition issued (s : Agent LoopDB X) (i : string) : Prop :=
  ∃ k, (k < ag_uuids s)%nat ∧ i = uuid_String (uuid_New k).

(** [n] failed observations of the task and [m] provider calls so far. *)
Definition at_count (n m : nat) (s : Agent LoopDB X) : Prop :=
  ag_faults s = [] ∧ is_Some (exec_tasks (ag_db s) !! id) ∧
  length (own_obs (ag_db s)) = n ∧
  (∀ o, o ∈ own_obs (ag_db s) → ob_Success o = false ∧ issued s (ob_StepID o)) ∧
  ext_calls ext m x0 (ag_ext s).

(** The step the pass works on is new. *)
Definition with_step (a : string) (n m : nat) (s : Agent LoopDB X) : Prop :=
  at_count n m s ∧ issued s a ∧ ∀ o, o ∈ own_obs (ag_db s) → ob_StepID o ≠ a.

Lemma ac_reading {A} (P : Agent LoopDB X → Prop) (f : nat → A) :
  (∀ s, P s → P (s <| ag_reads := S (ag_reads s) |>)) →
  triple P (reading f) (fun a s => (∃ k, a = f k) ∧ P s).
Proof using. intros HP s Hs. split; [by eexists|by apply HP]. Qed.

Lemma ac_audit (P : Agent LoopDB X → Prop) ev i :
  (∀ s l, P s → P (s <| ag_audit := l |>)) →
  triple P (loop_audit (X := X) e ev i) (fun _ => P).
Proof using. intros HP s Hs. unfold loop_audit, record_audit. destruct (le_audit e); [by apply HP|done]. Qed.

Lemma ac_fresh n m : triple (at_count n m) fresh_uuid (fun a => with_step a n m).
Proof using UL.
  intros s (Hf & Hr & Hn & Ho & Hx).
  assert (Hiss : ∀ i, issued s i → issued (snd (fresh_uuid s)) i).
  { intros i (k & Hk & ->). exists k. split; [cbn; lia|done]. }
  split; [|split].
  - split; [done|]. split; [done|]. split; [done|]. split; [|done].
    intros o Hoin. destruct (Ho o Hoin). auto.
  - exists (ag_uuids s). split; [cbn; lia|done].
  - intros o Hoin E. destruct (Ho o Hoin) as [_ (k & Hk & Hid)]. cbn [fst fresh_uuid] in E.
    rewrite Hid in E. apply uuid_String_inj, uuid_New_inj in E. lia.
Qed.

Lemma own_observations n m s : at_count n m s →
  length (task_observations id (ag_db s)) = n ∧
  ∀ o, o ∈ task_observations id (ag_db s) → o ∈ own_obs (ag_db s).
Proof using.
  intros (_ & _ & Hn & _). unfold task_observations. split.
  - rewrite <- Hn. apply Permutation_length, SliceStable_perm.
  - intros o. by rewrite SliceStable_elem.
Qed.

Lemma leading_all l : (∀ o, o ∈ l → ob_Success o = false) → leading_failures l = Z.of_nat (length l).
Proof using.
  induction l as [|o l IH]; intros H; [done|]. cbn. rewrite (H o) by (apply elem_of_cons; by left).
  rewrite IH by (intros o' Ho'; apply H, elem_of_cons; by right). lia.
Qed.

Lemma ShouldAbort_count n m s : at_count n m s →
  ShouldAbort id s = (if bool_decide (3 ≤ n)%nat then (true, "consecutive failures exceeded threshold")
                      else (false, ""), s).
Proof using.
  intros Hs. destruct (own_observations n m s Hs) as [Hlen Hin].
  assert (Hlead : leading_failures (reverse (task_observations id (ag_db s))) = Z.of_nat n).
  { rewrite leading_all, length_reverse, Hlen; [done|].
    intros o Ho. rewrite elem_of_reverse in Ho. destruct Hs as (_ & _ & _ & Hall & _). by apply Hall, Hin. }
  destruct Hs as (Hf & _).
  unfold ShouldAbort, obs_CountConsecutiveFailures, obs_ListByTask, bindS. rewrite statement_run by done.
  cbn [retS]. rewrite Hlead. unfold MaxConsecFailures.
  replace (s <| ag_db := ag_db s |>) with s by (by destruct s).
  repeat case_bool_decide; (done || lia).
Qed.

Lemma repeated_none a l err c : (∀ o, o ∈ l → ob_StepID o ≠ a) → repeated_error a l err c = c.
Proof using.
  induction l as [|o l IH]; intros H; [done|]. cbn.
  rewrite bool_decide_false by (apply H, elem_of_cons; by left). cbn.
  apply IH. intros o' Ho'. apply H, elem_of_cons. by right.
Qed.

Lemma IsStepBlocked_new a n m s : with_step a n m s → IsStepBlocked id a s = (false, s).
Proof using.
  intros (Hs & _ & Hne). destruct (own_observations n m s Hs) as [_ Hin].
  destruct Hs as (Hf & _). unfold IsStepBlocked, obs_ListByTask, bindS. rewrite statement_run by done.
  cbn [retS]. rewrite repeated_none by auto.
  replace (s <| ag_db := ag_db s |>) with s by (by destruct s). done.
Qed.

Lemma IsStepBlocked_course a n m i a' : i = id → a' = a →
  triple (with_step a n m) (IsStepBlocked i a') (fun b s => b = false ∧ with_step a n m s).
Proof using. intros -> -> s Hs. by rewrite (IsStepBlocked_new a n m s Hs). Qed.

Definition storable (o : option string) : Prop := is_Some (jsonb (default "null" o)).

Lemma ExecuteStep_course step a n m :
  st_Tool step ≠ "" →
  triple (with_step a n m) (ExecuteStep e step opp)
    (fun r s => (er_Success r = false ∧ storable (er_Output r)) ∧ with_step a n (S m) s).
Proof using JL setting.
  intros Htool. unfold ExecuteStep. rewrite (fs_ext setting).
  rewrite (bool_decide_false (st_Tool step = "")) by done.
  assert (Hx : triple (with_step a n m)
    (let! r := provider (ext (st_Tool step) (Some (default "{}" (st_Payload step))) opp) in
     retS match r with Ok result => result | Err err => failed_result (error_text err) end)
    (fun r s => (er_Success r = false ∧ storable (er_Output r)) ∧ with_step a n (S m) s)).
  { intros s ((Hf & Hr & Hn & Ho & Hc) & Hi & Hne). rewrite bindS_run. unfold provider.
    pose proof (fs_fails setting (st_Tool step) (Some (default "{}" (st_Payload step))) opp (ag_ext s)) as Hfail.
    pose proof (calls_next ext m x0 (st_Tool step) (Some (default "{}" (st_Payload step))) opp _ Hc) as Hcall.
    destruct (ext _ _ _ (ag_ext s)) as [r x]. cbn [fst snd retS] in *. split.
    - destruct r as [er|err]; [done|]. split; [done|]. apply jsonb_null.
    - split; [by repeat split; try apply Ho|done]. }
  destruct (le_governance e) as [g|] eqn:Hg; [|exact Hx].
  eapply triple_bind; [by apply (ac_reading (with_step a n m))|]. intros mode.
  apply triple_fact. intros [k ->].
  pose proof (fs_governance setting g Hg k) as Hmode. rewrite !elem_of_cons in Hmode.
  rewrite !bool_decide_false by tauto. exact Hx.
Qed.

Lemma obs_Insert_course a n m r t :
  er_Success r = false → storable (er_Output r) →
  triple (with_step a n m) (obs_Insert (mkObs a id (er_Success r) (er_Output r) (er_Error r) t))
    (fun _ => at_count (S n) m).
Proof using.
  intros Hr [text Htext] s ((Hf & Hrow & Hn & Ho & Hx) & Hi & _). unfold obs_Insert. rewrite bindS_run.
  rewrite statement_run by done. unfold insert_observation. cbn [ob_Output]. rewrite Htext.
  cbn [fst snd retS]. split; [done|]. split; [done|]. unfold own_obs in *.
  cbn [ag_db set_field exec_observations]. rewrite List.filter_app. cbn [List.filter ob_TaskID ob_Success].
  rewrite bool_decide_true by done. split; [rewrite length_app; cbn; lia|]. split; [|done].
  intros o [Hin|Hin]%elem_of_app; [by apply Ho|].
  apply list_elem_of_singleton in Hin as ->. cbn. done.
Qed.

Lemma Update_course t n m : et_ID t = id → triple (at_count n m) (exec_Update t) (fun _ => at_count n m).
Proof using.
  intros Hid s (Hf & [row Hrow] & Hn & Ho & Hx). unfold exec_Update. rewrite bindS_run.
  rewrite statement_run by done. unfold update_exec_task.
  destruct (stored_plan _); [|by repeat split; try apply Ho; eauto].
  destruct (negb _); [by repeat split; try apply Ho; eauto|].
  split; [done|]. split; [|by repeat split; try apply Ho].
  cbn. rewrite Hid, lookup_alter_eq, Hrow. by eexists.
Qed.

Lemma persist_course t n m : et_ID t = id → triple (at_count n m) (persist (X := X) e t)
  (fun t' s => (∃ now, t' = t <| et_UpdatedAt := now |>) ∧ at_count n m s).
Proof using.
  intros Hid. apply triple_post_fact; [apply persist_returns|].
  eapply triple_bind; [by apply (ac_reading (at_count n m))|]. intros now. apply triple_fact. intros _.
  cbv zeta. eapply triple_bind; [apply triple_dropped; by apply Update_course|]. intros ?. by apply triple_ret.
Qed.

(** The task between two passes. *)
Definition failing_task (n : nat) (t : ExecutionTask) : Prop :=
  et_ID t = id ∧ et_Goal t = goal ∧ et_OpportunityID t = opp ∧ et_Status t = ExecRunning ∧
  et_IterationCount t = Z.of_nat n ∧ et_MaxIterations t = 5 ∧
  (et_Plan t = [] ∨ allStepsTerminal (et_Plan t) = true) ∧
  is_Some (stored_plan (et_Plan t)) ∧ in_int4 (et_CurrentStep t) = true.

(** The plan of a pass: one pending step with a new id. *)
Definition planned_task (n : nat) (a : string) (t : ExecutionTask) : Prop :=
  et_ID t = id ∧ et_Goal t = goal ∧ et_OpportunityID t = opp ∧ et_Status t = ExecRunning ∧
  et_IterationCount t = Z.of_nat (S n) ∧ et_MaxIterations t = 5 ∧ et_CurrentStep t = 0 ∧
  ∃ text, et_Plan t = [mkStep a ("Execute goal: " +:+ goal) "external_action" (Some text) StepPending "" 0]
          ∧ is_Some (jsonb text) ∧ json_Valid text = true.

Lemma plan_pass_course n m t :
  failing_task n t →
  triple (at_count n m) (plan_pass e (t <| et_IterationCount := et_IterationCount t + 1 |>))
    (fun r s => ∃ a t', r = Some t' ∧ planned_task n a t' ∧ with_step a n m s).
Proof using UL setting.
  intros (H1 & H2 & H3 & H4 & H5 & H6 & H7 & H8 & H9). unfold plan_pass.
  replace (bool_decide _ || _) with true.
  2:{ cbn [et_Plan set_field]. destruct H7 as [-> | ->]; [done|by rewrite orb_true_r]. }
  unfold GeneratePlan. cbn [et_Goal et_OpportunityID set_field pi_Goal pi_OpportunityID].
  rewrite bool_decide_false by (rewrite H2; apply (fs_goal setting)). cbv zeta.
  eapply (triple_bind _ _ (fun r s => ∃ a, r = Ok [mkStep a ("Execute goal: " +:+ et_Goal t) "external_action"
    (Some (marshal_map [("goal", et_Goal t); ("opportunity_id", et_OpportunityID t)])) StepPending "" 0]
    ∧ with_step a n m s)).
  { eapply triple_bind; [apply ac_fresh|]. intros a. apply triple_ret. intros s Hs. by exists a. }
  intros r s (a & -> & Hs). revert s Hs.
  match goal with |- ∀ s, _ s → _ => idtac | _ => idtac end.
  change (triple (with_step a n m) (let! _ := loop_audit e "execution.plan_generated"
      (et_ID (t <| et_IterationCount := et_IterationCount t + 1 |>)) in
    retS (Some (t <| et_IterationCount := et_IterationCount t + 1 |>
      <| et_Plan := [mkStep a ("Execute goal: " +:+ et_Goal t) "external_action"
         (Some (marshal_map [("goal", et_Goal t); ("opportunity_id", et_OpportunityID t)])) StepPending "" 0] |>
      <| et_CurrentStep := 0 |>)))
    (fun r s => ∃ a t', r = Some t' ∧ planned_task n a t' ∧ with_step a n m s)).
  eapply triple_bind; [apply (ac_audit (with_step a n m)); by intros s l Hs|]. intros ?.
  apply triple_ret. intros s Hs. eexists a, _. split; [reflexivity|]. split; [|done].
  repeat split; cbn; try done; [lia|].
  exists (marshal_map [("goal", goal); ("opportunity_id", opp)]). rewrite H2, H3.
  split; [done|]. split; [apply (fs_payload setting)|apply marshal_map_valid].
Qed.

(** The step after a failed or unreviewed execution is terminal. *)
Lemma reflect_course n a t step i r :
  planned_task n a t → getNextPendingStep t = Some (step, i) → er_Success r = false →
  returns (reflect_step (X := X) e t step i r) (failing_task (S n)).
Proof using.
  intros (H1 & H2 & H3 & H4 & H5 & H6 & H7 & text & Hplan & [stored Hst] & Hv) Hnext Hr.
  unfold getNextPendingStep in Hnext. rewrite Hplan in Hnext. cbn in Hnext. injection Hnext as <- <-.
  unfold reflect_step. rewrite Hr. destruct (er_RequiresReview r);
    (eapply returns_bind; [apply returns_any|]); intros ? _; apply returns_ret; unfold failing_task.
  all: cbn [et_ID et_Goal et_OpportunityID et_Status et_IterationCount et_MaxIterations et_CurrentStep
    set_field set_step et_Plan].
  all: rewrite Hplan, H7; unfold set_step; cbn -[stored_plan]; rewrite ?bool_decide_true by done; cbn -[stored_plan].
  all: unfold stored_plan; cbn [mapM]; rewrite !stored_step_eq; cbn; rewrite Hv; cbn; rewrite Hst; cbn.
  all: by repeat split; eauto.
Qed.

(** Nothing executed so far. *)
Definition no_success (t : ExecutionTask) : Prop := undone (fun _ => True) t.

Lemma execute_pass_course n a t :
  planned_task n a t →
  triple (with_step a n n) (execute_pass e t)
    (fun p s => ∃ t', p = Continue t' ∧ failing_task (S n) t' ∧ no_success t' ∧ at_count (S n) (S n) s).
Proof using JL setting.
  intros Ht. pose proof Ht as (Hid & Hgoal & Hopp & _ & _ & _ & _ & text & Hplan & _).
  set (step := mkStep a ("Execute goal: " +:+ goal) "external_action" (Some text) StepPending "" 0).
  assert (Hnext : getNextPendingStep t = Some (step, 0%nat)).
  { unfold getNextPendingStep. rewrite Hplan. cbn. by rewrite bool_decide_true. }
  unfold execute_pass. rewrite Hnext. cbv zeta. set (t1 := t <| et_CurrentStep := Z.of_nat 0 |>).
  assert (Ht1 : planned_task n a t1 ∧ no_success t1).
  { split; [destruct Ht as (? & ? & ? & ? & ? & ? & ? & ?); by repeat split|]. unfold no_success, undone, t1. cbn. rewrite Hplan.
    by constructor; [split|constructor]. }
  destruct Ht1 as [Hp1 Hu1]. change (et_ID t1) with (et_ID t). rewrite Hid.
  eapply triple_bind; [apply (IsStepBlocked_course a n n); [(reflexivity || exact Hid)|reflexivity]|].
  intros b. apply triple_fact. intros ->.
  eapply triple_bind.
  { change (et_OpportunityID t1) with (et_OpportunityID t). rewrite Hopp. by apply ExecuteStep_course. }
  intros r. apply triple_fact. intros [Hr Hsto].
  eapply triple_bind; [by apply (ac_reading (with_step a n (S n)))|]. intros tm. apply triple_fact. intros _.
  eapply triple_bind; [apply triple_dropped; by apply (obs_Insert_course a n (S n))|]. intros ?.
  eapply (triple_bind _ _ (fun t2 s => (failing_task (S n) t2 ∧ no_success t2) ∧ at_count (S n) (S n) s)).
  { apply triple_post_fact.
    - intros s. split.
      + apply (reflect_course n a); [done|exact Hnext|done].
      + by apply reflect_undone.
    - unfold reflect_step. destruct (er_RequiresReview r), (er_Success r);
        (eapply triple_bind; [apply (ac_audit (at_count (S n) (S n))); by intros s l Hs|]);
        intros ?; by apply triple_ret. }
  intros t2. apply triple_fact. intros [Hf2 Hu2].
  eapply triple_bind; [apply persist_course; apply Hf2|]. intros t3. apply triple_fact. intros [now ->].
  rewrite (goalSatisfied_undone (fun _ => True)) by exact Hu2. apply triple_ret.
  intros s Hs. eexists. split; [reflexivity|]. split; [exact Hf2|]. by split.
Qed.

Lemma no_penalty P : (∀ s : Agent LoopDB X, P s → P (s <| ag_reads := S (ag_reads s) |>)) →
  triple P (objective_penalty (X := X) e) (fun r s => r = None ∧ P s).
Proof using setting.
  intros HP. unfold objective_penalty. destruct (le_objective e) as [[ty st]|] eqn:Ho; [|by apply triple_ret].
  eapply triple_bind; [by apply (ac_reading P)|]. intros ?. apply triple_fact. intros [k ->].
  eapply triple_bind; [by apply (ac_reading P)|]. intros strength. apply triple_fact. intros _.
  apply triple_ret. intros s Hs. split; [|done].
  by rewrite bool_decide_false by apply (fs_objective setting ty st Ho).
Qed.

(** The checks at the head of a pass all succeed. *)
Lemma loop_pass_head n d t (Q : pass_end → Agent LoopDB X → Prop) :
  (∃ i, le_clock e i + 60 * Second = d) → et_ID t = id →
  triple (at_count n n)
    (if bool_decide (3 ≤ n)%nat
     then let! r := abortTask e t "consecutive failures exceeded threshold" in retS (Return r)
     else let! planned := plan_pass e (t <| et_IterationCount := et_IterationCount t + 1 |>) in
          match planned with
          | None => let! task := persist e (t <| et_IterationCount := et_IterationCount t + 1 |>) in
                    retS (Continue task)
          | Some task => execute_pass e task
          end) Q →
  triple (at_count n n) (loop_pass e d t) Q.
Proof using setting.
  intros [i Hd] Hid H. unfold loop_pass.
  eapply triple_bind; [by apply (ac_reading (at_count n n))|]. intros now. apply triple_fact. intros [k ->].
  rewrite bool_decide_false by (pose proof (fs_clock setting i k); lia).
  eapply triple_bind; [by apply (no_penalty (at_count n n))|]. intros pen. apply triple_fact. intros ->.
  intros s Hs. rewrite bindS_run, Hid, (ShouldAbort_count n n s Hs).
  specialize (H s Hs). destruct (bool_decide (3 ≤ n)%nat); exact H.
Qed.

Lemma loop_pass_course n d t :
  (n < 3)%nat → (∃ i, le_clock e i + 60 * Second = d) → failing_task n t →
  triple (at_count n n) (loop_pass e d t)
    (fun p s => ∃ t', p = Continue t' ∧ failing_task (S n) t' ∧ no_success t' ∧ at_count (S n) (S n) s).
Proof using UL JL setting.
  intros Hn Hd Ht. apply loop_pass_head; [done|apply Ht|]. rewrite bool_decide_false by lia.
  eapply triple_bind; [by apply plan_pass_course|]. intros r s (a & t' & -> & Hp & Hs).
  by apply (execute_pass_course n a t').
Qed.

(** What the run ends with. *)
Definition gave_up (r : ExecutionTask * option error) (s : Agent LoopDB X) : Prop :=
  snd r = None ∧ et_ID (fst r) = id ∧ et_Status (fst r) = ExecAborted ∧
  et_AbortReason (fst r) = "consecutive failures exceeded threshold" ∧ et_IterationCount (fst r) = 3 ∧
  (∃ row, exec_tasks (ag_db s) !! id = Some row ∧ et_Status row = ExecAborted) ∧
  ext_calls ext 3 x0 (ag_ext s).

Lemma abort_course t :
  failing_task 3 t →
  triple (at_count 3 3) (abortTask e t "consecutive failures exceeded threshold") gave_up.
Proof using.
  intros (H1 & _ & _ & _ & H5 & H6 & _ & [plan H8] & H9).
  eapply triple_bind; [by apply (ac_reading (at_count 3 3))|]. intros now. apply triple_fact. intros _.
  cbv zeta. set (t1 := t <| et_Status := ExecAborted |> <| et_AbortReason := _ |> <| et_UpdatedAt := _ |>).
  set (done_in := fun s : Agent LoopDB X =>
    (∃ row, exec_tasks (ag_db s) !! id = Some row ∧ et_Status row = ExecAborted) ∧
    ext_calls ext 3 x0 (ag_ext s)).
  eapply (triple_bind _ _ (fun u s => u = Ok tt ∧ done_in s)).
  { intros s (Hf & [row Hrow] & _ & _ & Hx). unfold exec_Update. rewrite bindS_run.
    rewrite statement_run by done. unfold update_exec_task.
    change (et_Plan t1) with (et_Plan t). rewrite H8.
    replace (exec_ints_ok t1) with true.
    2:{ unfold exec_ints_ok, t1. cbn [et_CurrentStep et_IterationCount et_MaxIterations set_field].
        by rewrite H9, H5, H6. }
    cbn [negb fst snd retS]. split; [done|]. split; [|exact Hx].
    cbn. rewrite H1, lookup_alter_eq, Hrow. by eexists. }
  intros u. apply triple_fact. intros ->.
  eapply triple_bind; [by apply (ac_audit done_in)|]. intros ?. apply triple_ret.
  intros s [Hrow Hx]. by repeat split.
Qed.

Lemma run_passes_course d t :
  (∃ i, le_clock e i + 60 * Second = d) → failing_task 0 t →
  triple (at_count 0 0) (run_passes e (loop_fuel t) d t) gave_up.
Proof using UL JL setting.
  intros Hd Ht.
  assert (Hstep : ∀ n t, (n ≤ 3)%nat → failing_task n t →
    triple (at_count n n) (loop_pass e d t) (fun p s => match p with
      | Return r => gave_up r s
      | Continue t' => (n < 3)%nat ∧ failing_task (S n) t' ∧ at_count (S n) (S n) s end)).
  { clear t Ht. intros k t Hk Ht. destruct (decide (k = 3%nat)) as [->|Hne].
    - apply loop_pass_head; [done|apply Ht|]. rewrite bool_decide_true by lia.
      eapply triple_bind; [by apply abort_course|]. intros r. by apply triple_ret.
    - eapply triple_weaken; [apply (loop_pass_course k); [lia|done|exact Ht]|done|].
      intros p s (t' & -> & H1 & _ & H2). split; [lia|done]. }
  assert (Hrun : ∀ fuel k t, (fuel + k = 4)%nat → (k ≤ 3)%nat → failing_task k t →
    triple (at_count k k) (run_passes e (loop_fuel t) d t) gave_up).
  { clear t Ht. induction fuel as [|fuel IH]; intros k t Hfuel Hk Ht; [lia|].
    intros s Hs. rewrite run_passes_equation.
    rewrite (bool_decide_true (et_IterationCount t < et_MaxIterations t))
      by (destruct Ht as (_ & _ & _ & _ & Hi & Hm & _); rewrite Hi, Hm; lia).
    rewrite bindS_run. specialize (Hstep k t Hk Ht s Hs).
    destruct (fst (loop_pass e d t s)) as [r|t']; [exact Hstep|].
    destruct Hstep as (Hlt & Ht' & Hs'). apply (IH (S k) t'); [lia|lia|done|done]. }
  apply (Hrun 4%nat 0%nat t); [done|lia|exact Ht].
Qed.

(** A new task, from [RunLoop] to the end. *)
Definition new_task (t : ExecutionTask) : Prop :=
  et_ID t = id ∧ et_Goal t = goal ∧ et_OpportunityID t = opp ∧ et_Status t = ExecPending ∧
  et_Plan t = [] ∧ et_CurrentStep t = 0 ∧ et_IterationCount t = 0 ∧ et_MaxIterations t = 5.

Lemma new_task_course s t :
  ag_faults s = [] → exec_tasks (ag_db s) !! id = Some t → new_task t → own_obs (ag_db s) = [] →
  ag_ext s = x0 →
  ∃ t', fst (RunLoop e id s) = (Some t', None) ∧ gave_up (t', None) (snd (RunLoop e id s)).
Proof using UL JL setting.
  intros Hf Hrow (H1 & H2 & H3 & H4 & H5 & H6 & H7 & H8) Hobs Hx.
  assert (Hac : at_count 0 0 s).
  { split; [done|]. rewrite Hrow. split; [by eexists|]. rewrite Hobs. split; [done|].
    split; [by intros o ?%elem_of_nil|]. rewrite Hx. constructor. }
  cut (triple (fun s' => s' = s) (RunLoop e id)
    (fun out s' => ∃ t', out = (Some t', None) ∧ gave_up (t', None) s')); [intros H; by apply (H s)|].
  unfold RunLoop, exec_Get. eapply (triple_bind _ _ (fun g s' => g = Ok t ∧ at_count 0 0 s')).
  { intros s' ->. rewrite bindS_run, statement_run, Hrow by done. done. }
  intros g. apply triple_fact. intros ->. rewrite H4.
  rewrite (bool_decide_false (ExecPending ≠ ExecPending)) by (by intros []). cbn [andb]. cbv zeta.
  rewrite (bool_decide_true (ExecPending = ExecPending)) by done. cbn [negb].
  change (negb (ValidateTaskTransition ExecPending ExecRunning)) with false. cbv iota.
  eapply triple_bind; [by apply (ac_reading (at_count 0 0))|]. intros now. apply triple_fact. intros _.
  set (t1 := t <| et_Status := ExecRunning |> <| et_UpdatedAt := now |>).
  assert (Ht1 : failing_task 0 t1).
  { unfold failing_task, t1. cbn [et_ID et_Goal et_OpportunityID et_Status et_Plan et_CurrentStep
      et_IterationCount et_MaxIterations set_field]. rewrite H5, H6. repeat split; auto. }
  eapply (triple_bind _ _ (fun u s' => u = Ok tt ∧ at_count 0 0 s')).
  { intros s' Hs'. split; [|by apply (Update_course t1)].
    destruct Hs' as (Hf' & _). unfold exec_Update. rewrite bindS_run, statement_run by done.
    unfold update_exec_task. change (et_Plan t1) with (et_Plan t). rewrite H5. cbn [stored_plan mapM].
    replace (exec_ints_ok t1) with true; [done|].
    unfold exec_ints_ok, t1. cbn [et_CurrentStep et_IterationCount et_MaxIterations set_field].
    by rewrite H6, H7, H8. }
  intros u. apply triple_fact. intros ->.
  eapply (triple_bind _ _ gave_up).
  - unfold governed_loop. assert (Hl : triple (at_count 0 0) (let! start := loop_now e in
      run_passes e (loop_fuel t1) (start + MaxExecutionTimeSec * Second) t1) gave_up).
    { eapply triple_bind; [by apply (ac_reading (at_count 0 0))|]. intros start. apply triple_fact.
      intros [k ->]. apply run_passes_course; [by exists k|done]. }
    destruct (le_governance e) as [g|] eqn:Hg; [|exact Hl].
    eapply triple_bind; [by apply (ac_reading (at_count 0 0))|]. intros mode. apply triple_fact. intros [k ->].
    pose proof (fs_governance setting g Hg k) as Hm. rewrite !elem_of_cons in Hm.
    rewrite !bool_decide_false by tauto. exact Hl.
  - intros [t' err]. apply triple_ret. intros s' Hs'. exists t'. destruct Hs' as [Herr Hs'].
    cbn [snd fst] in *. rewrite Herr. split; [done|]. by split.
Qed.
End course.
End loop.

(** ** Theorems *)

(** ** Plans and their storage *)

Section plans.
Context {U : UuidPkg} {UL : UuidLaws U} {J : PgJsonb} {JL : PgJsonbLaws J} {X : Type}.

(** The steps have the ids [from], [from + 1], ... *)
Fixpoint numbered (from : nat) (steps : list ExecutionStep) : Prop :=
  match steps with
  | [] => True
  | s :: steps' => st_ID s = uuid_String (uuid_New from) ∧ numbered (S from) steps'
  end.

(** What becomes of a step of the output: every field is taken over, the rest
    is as for a step not yet tried. *)
Definition converted (p : PlannerStep) (st : ExecutionStep) : Prop :=
  st_Description st = ps_Description p ∧ st_Tool st = ps_Tool p ∧ st_Payload st = ps_Payload p ∧
  st_Status st = StepPending ∧ st_ResultRef st = "" ∧ st_AttemptCount st = 0.

(** The first step whose tool is not among [tools]. *)
Definition first_refused (tools : list string) (ss : list PlannerStep) (p : PlannerStep) : Prop :=
  ∃ before after, ss = before ++ p :: after ∧ Forall (fun q => ps_Tool q ∈ tools) before ∧ ps_Tool p ∉ tools.

Lemma numbered_NoDup steps : ∀ from,
  numbered from steps → NoDup (map st_ID steps) ∧
  ∀ i, i ∈ map st_ID steps → ∃ k, (from ≤ k)%nat ∧ i = uuid_String (uuid_New k).
Proof using UL.
  induction steps as [|s steps IH]; intros from Hn; [split; [constructor|by intros i ?%elem_of_nil]|].
  destruct Hn as [Hs Hn]. destruct (IH (S from) Hn) as [Hnd Hin]. cbn [map]. split.
  - constructor; [|done]. intros Hi. destruct (Hin _ Hi) as (k & Hk & E). rewrite Hs in E.
    apply uuid_String_inj, uuid_New_inj in E. lia.
  - intros i [-> | Hi]%elem_of_cons; [exists from; split; [lia|done]|].
    destruct (Hin i Hi) as (k & Hk & ->). exists k. split; [lia|done].
Qed.

Lemma convert_steps_spec tools ss : ∀ s : Agent LoopDB X,
  match fst (convert_steps tools ss s) with
  | Ok steps => Forall2 converted ss steps ∧ Forall (fun p => ps_Tool p ∈ tools) ss ∧ numbered (ag_uuids s) steps
  | Err err => ∃ p, first_refused tools ss p ∧
      err = Errorf ("planner: tool " +:+ quote (ps_Tool p) +:+ " is not allowed")
  end.
Proof using.
  assert (Hallow : ∀ t, isToolAllowed tools t = true ↔ t ∈ tools).
  { intros t. unfold isToolAllowed. rewrite existsb_elem. split.
    - intros (x & Hx & ->%bool_decide_eq_true). done.
    - intros Ht. exists t. split; [done|]. by apply bool_decide_eq_true. }
  induction ss as [|p ss IH]; intros s; cbn [convert_steps]; [by repeat split; constructor|].
  destruct (isToolAllowed tools (ps_Tool p)) eqn:Ha; cbn [negb].
  - apply Hallow in Ha. rewrite !bindS_run. cbn [fst snd fresh_uuid retS].
    specialize (IH (s <| ag_uuids := S (ag_uuids s) |>)).
    destruct (fst (convert_steps tools ss _)) as [steps|err].
    + destruct IH as (H1 & H2 & H3). split; [by constructor|]. split; [by constructor|]. by split.
    + destruct IH as (q & (before & after & -> & Hb & Hq) & ->). exists q. split; [|done].
      exists (p :: before), after. split; [done|]. split; [by constructor|done].
  - exists p. split; [|done]. exists [], ss. split; [done|]. split; [constructor|]. by rewrite <- Hallow, Ha.
Qed.

End plans.

(** *** The store, statement by statement *)

Section store_runs.
Context {J : PgJsonb} {X : Type}.
Implicit Types s : Agent LoopDB X.

(** Only the payload's text may change, to what [JSONB] makes of it. *)
Definition kept_step (st st' : ExecutionStep) : Prop :=
  ∃ text stored, marshal_raw (st_Payload st) = Some text ∧ jsonb text = Some stored ∧
    st' = mkStep (st_ID st) (st_Description st) (st_Tool st) (Some stored) (st_Status st) (st_ResultRef st)
            (st_AttemptCount st).

Definition refused_payload (p : option string) : Prop :=
  match marshal_raw p with None => True | Some text => jsonb text = None end.

Lemma kept_plan_stored plan plan' : Forall2 kept_step plan plan' → stored_plan plan = Some plan'.
Proof using.
  intros H. unfold stored_plan. apply mapM_Some. eapply Forall2_impl; [exact H|].
  intros st st' (text & stored & H1 & H2 & ->). rewrite stored_step_eq, H1. cbn. by rewrite H2.
Qed.

Lemma refused_plan plan st : st ∈ plan → refused_payload (st_Payload st) → stored_plan plan = None.
Proof using.
  intros Hin Hbad. apply mapM_None. apply Exists_exists. exists st. split; [done|].
  rewrite stored_step_eq. unfold refused_payload in Hbad. destruct (marshal_raw _) as [text|]; [|done].
  cbn. by rewrite Hbad.
Qed.

Lemma exec_Insert_run t plan s :
  ag_faults s = [] → exec_tasks (ag_db s) !! et_ID t = None → Forall2 kept_step (et_Plan t) plan →
  exec_ints_ok t = true →
  exec_Insert t s = (Ok tt, s <| ag_db := (ag_db s) <| exec_tasks := <[et_ID t :=
    t <| et_Plan := plan |> <| et_CreatedAt := trunc_us (et_CreatedAt t) |>
      <| et_UpdatedAt := trunc_us (et_UpdatedAt t) |>]> (exec_tasks (ag_db s)) |> |>).
Proof using.
  intros Hf Hnone Hplan%kept_plan_stored Hints. unfold exec_Insert, bindS. rewrite statement_run by done.
  unfold insert_exec_task. by rewrite Hplan, Hints, Hnone.
Qed.

Lemma exec_Update_run u plan s :
  ag_faults s = [] → Forall2 kept_step (et_Plan u) plan → exec_ints_ok u = true →
  exec_Update u s = (Ok tt, s <| ag_db := (ag_db s) <| exec_tasks :=
    alter (updated_exec_task u plan) (et_ID u) (exec_tasks (ag_db s)) |> |>).
Proof using.
  intros Hf Hplan%kept_plan_stored Hints. unfold exec_Update, bindS. rewrite statement_run by done.
  unfold update_exec_task. by rewrite Hplan, Hints.
Qed.

Lemma exec_Get_run id s :
  ag_faults s = [] → fst (exec_Get id s) =
    match exec_tasks (ag_db s) !! id with Some t => Ok t | None => Err ErrExecTaskNotFound end.
Proof using.
  intros Hf. unfold exec_Get, bindS. rewrite statement_run by done. cbn. by destruct (exec_tasks (ag_db s) !! id).
Qed.

Lemma exec_Insert_refused t s : ag_faults s = [] → stored_plan (et_Plan t) = None →
  is_ok (fst (exec_Insert t s)) = false ∧ snd (exec_Insert t s) = s.
Proof using.
  intros Hf Hno. unfold exec_Insert, bindS. rewrite statement_run by done. unfold insert_exec_task.
  rewrite Hno. by destruct s.
Qed.

Lemma exec_Update_refused t s : ag_faults s = [] → stored_plan (et_Plan t) = None →
  is_ok (fst (exec_Update t s)) = false ∧ snd (exec_Update t s) = s.
Proof using.
  intros Hf Hno. unfold exec_Update, bindS. rewrite statement_run by done. unfold update_exec_task.
  rewrite Hno. by destruct s.
Qed.
End store_runs.

Section theorems.
Context {U : UuidPkg} {UL : UuidLaws U} {J : PgJsonb} {JL : PgJsonbLaws J} {X : Type}.

(** C18: the execution loop is bounded.  With any provider, clock, governance and
    objective answers and any database faults: the fuelled loop satisfies the
    equation of the source's [for] loop, so its fuel never runs out; a run that
    returns no error leaves the task completed or aborted; and a run calls the
    provider at most as often as the task has iterations left, five times for a
    new task. *)
Theorem run_loop_bounded (e : LoopEngine X) (ext : ActionsProvider X) (id : string)
    (s : Agent LoopDB X) :
  le_extActions e = Some ext →
  (∀ d t s', run_passes e (loop_fuel t) d t s' =
     (if bool_decide (et_IterationCount t < et_MaxIterations t) then
        let! p := loop_pass e d t in
        match p with
        | Return r => retS r
        | Continue t' => run_passes e (loop_fuel t') d t'
        end
      else abortTask e t "maximum iterations reached") s') ∧
  let '(t, err, s') := RunLoop e id s in
  (err = None → ∃ t', t = Some t' ∧ (et_Status t' = ExecCompleted ∨ et_Status t' = ExecAborted)) ∧
  ∃ n, ext_calls ext n (ag_ext s) (ag_ext s') ∧
       (n ≤ match exec_tasks (ag_db s) !! id with
            | Some t => Z.to_nat (et_MaxIterations t - et_IterationCount t)
            | None => 0
            end)%nat.
Proof using.
  intros He. split; [intros d t s'; apply run_passes_equation|].
  pose proof (RunLoop_ends e id s) as Hend. destruct (RunLoop_bound e ext id s He) as (n & Hn & Hc).
  destruct (RunLoop e id s) as [[t err] s']. split; [exact Hend|]. exists n. split; [exact Hc|exact Hn].
Qed.

(** C19: a task completes only through a successful step.  When no step of the
    stored plan has been executed and every answer of the provider is an error,
    a failure or a request for review, a run never completes the task, whatever
    faults strike.  When the governance mode is frozen, rollback-only or
    safe-hold throughout, a run does not complete it either and never calls the
    provider. *)
Theorem no_success_no_completion (e : LoopEngine X) (id : string) (s : Agent LoopDB X) :
  (∀ t, exec_tasks (ag_db s) !! id = Some t →
     et_Status t ≠ ExecCompleted ∧ ∀ st, st ∈ et_Plan t → st_Status st ≠ StepExecuted) →
  let '(t, err, s') := RunLoop e id s in
  ((∀ ext, le_extActions e = Some ext → ∀ tool payload opp x,
      match fst (ext tool payload opp x) with Ok er => er_Success er = false | Err _ => True end) →
   ∀ t', t = Some t' → et_Status t' ≠ ExecCompleted) ∧
  (∀ g, le_governance e = Some g → (∀ n, g n ∈ ["frozen"; "rollback_only"; "safe_hold"]) →
   (∀ t', t = Some t' → et_Status t' ≠ ExecCompleted) ∧ ag_ext s' = ag_ext s).
Proof using.
  intros Hrow.
  assert (Hu : ∀ t, exec_tasks (ag_db s) !! id = Some t →
    undone (fun _ => True) t ∧ et_Status t ≠ ExecCompleted).
  { intros t Ht. destruct (Hrow t Ht) as [H1 H2]. split; [|done]. unfold undone.
    apply list.Forall_forall. intros st Hst. split; [by apply H2|done]. }
  pose proof (fun Hstep => RunLoop_undone e (fun _ => True) I Hstep id s Hu) as Hnot.
  pose proof (fun Hf Hk => RunLoop_undone_keeps e (fun _ => True) I Hf Hk id s
    (fun t Ht => proj1 (Hu t Ht))) as Hkeep.
  destruct (RunLoop e id s) as [[t err] s']. cbn [fst snd] in *. split.
  - intros Hfail. apply Hnot. intros step opp _. apply ExecuteStep_fails.
    intros ext He payload x. exact (Hfail ext He _ payload opp x).
  - intros g Hg Hb. split; [apply Hnot|apply Hkeep]; intros step opp _;
      by apply (ExecuteStep_blocked e g).
Qed.

(** A run whose steps keep failing.  For a new task with no observations
    yet, without faults, penalties, blocking governance modes or a clock passing
    the 60 seconds, and with a provider that never succeeds: the run calls the
    provider exactly three times, never twice for one step, and ends with the
    task aborted, in memory and in its row, for consecutive failures after three
    iterations. *)
Theorem failing_run_gives_up (e : LoopEngine X) (ext : ActionsProvider X) (id goal opp : string)
    (s : Agent LoopDB X) (t : ExecutionTask) :
  failing_setting e ext goal opp →
  ag_faults s = [] →
  exec_tasks (ag_db s) !! id = Some t → new_task id goal opp t →
  (∀ o, o ∈ exec_observations (ag_db s) → ob_TaskID o ≠ id) →
  let '(out, err, s') := RunLoop e id s in
  err = None ∧
  (∃ t', out = Some t' ∧ et_Status t' = ExecAborted ∧
         et_AbortReason t' = "consecutive failures exceeded threshold" ∧ et_IterationCount t' = 3) ∧
  (∃ row, exec_tasks (ag_db s') !! id = Some row ∧ et_Status row = ExecAborted) ∧
  ext_calls ext 3 (ag_ext s) (ag_ext s').
Proof using UL JL.
  intros Hset Hf Hrow Hnew Hobs.
  destruct (new_task_course e ext id goal opp (ag_ext s) Hset s t Hf Hrow Hnew) as (t' & Hout & Hend);
    [|done|].
  { unfold own_obs. apply filter_false. intros o Ho. apply bool_decide_eq_false. by apply Hobs. }
  destruct (RunLoop e id s) as [[out err] s']. cbn [fst snd] in *. injection Hout as -> ->.
  destruct Hend as (_ & _ & H1 & H2 & H3 & H4 & H5). cbn [fst] in *.
  split; [done|]. split; [by exists t'|]. by split.
Qed.

(** C20: plans are well formed.  The planner's own plan is refused exactly for an
    empty goal; otherwise it is one pending step under a new id, for the first
    allowed tool, whose payload is the JSON object of the goal and the
    opportunity and passes the external actions' validation.  A plan from outside
    is refused exactly when it is empty, has more than five steps or names a tool
    that is not allowed (the error is for the first such tool); otherwise the
    result has one step for each of its steps, in order, with its description,
    tool and payload unchanged (the payload is not validated here), pending and
    not yet tried, under new and pairwise different ids. *)
Theorem plans_well_formed (tools : list string) (input : PlannerInput) (ss : list PlannerStep)
    (s : Agent LoopDB X) :
  (match fst (GeneratePlan (NewPlanner tools) input s) with
   | Ok steps => pi_Goal input ≠ "" ∧ ∃ text,
       steps = [mkStep (uuid_String (uuid_New (ag_uuids s))) ("Execute goal: " +:+ pi_Goal input)
                  (default "external_action" (head tools)) (Some text) StepPending "" 0] ∧
       text = marshal_map [("goal", pi_Goal input); ("opportunity_id", pi_OpportunityID input)] ∧
       ValidatePayload (Some text) = None
   | Err err => pi_Goal input = "" ∧ err = Errorf "planner: goal is required"
   end) ∧
  match fst (GeneratePlanFromOutput tools ss s) with
  | Ok steps => (1 ≤ length ss ≤ 5)%nat ∧ Forall (fun p => ps_Tool p ∈ tools) ss ∧
      Forall2 converted ss steps ∧ NoDup (map st_ID steps) ∧
      ∀ i, i ∈ map st_ID steps → ∃ k, (ag_uuids s ≤ k)%nat ∧ i = uuid_String (uuid_New k)
  | Err err =>
      (ss = [] ∧ err = ErrEmptyPlan) ∨ ((5 < length ss)%nat ∧ err = ErrPlanTooLong) ∨
      (1 ≤ length ss ≤ 5)%nat ∧ ∃ p, first_refused tools ss p ∧
        err = Errorf ("planner: tool " +:+ quote (ps_Tool p) +:+ " is not allowed")
  end.
Proof using UL.
  split.
  - unfold GeneratePlan. case_bool_decide as Hg; [done|]. rewrite bindS_run. cbn [fst snd fresh_uuid retS].
    split; [done|]. eexists. split; [by destruct tools|]. split; [done|].
    unfold ValidatePayload. by rewrite marshal_map_valid.
  - unfold GeneratePlanFromOutput. case_bool_decide as H0; [left; by destruct ss|].
    case_bool_decide as H5; unfold MaxStepsPerPlan in H5; [right; left; split; [lia|done]|].
    pose proof (convert_steps_spec tools ss s) as H.
    destruct (fst (convert_steps tools ss s)) as [steps|err]; [|right; right; split; [lia|done]].
    destruct H as (Hall & Htools & Hnum). split; [lia|]. split; [done|]. split; [done|].
    by apply (numbered_NoDup steps (ag_uuids s)).
Qed.

(** C21: what the task store writes is what it reads.  Without faults, a task
    inserted under a new id is read back with every field as it was, the times
    truncated to microseconds and each step's payload as [JSONB] keeps its text.
    Updated with any later value of the task it is read back with the new status,
    plan, current step, iteration count, abort reason and time of update, and
    with the opportunity, goal, bound and time of creation it was inserted with;
    no other task is changed by either.  A task with a payload that is not valid
    JSON, or that JSONB refuses, is refused and changes nothing. *)
Theorem exec_store_roundtrip (t u : ExecutionTask) (plan plan' : list ExecutionStep) (s : Agent LoopDB X) :
  ag_faults s = [] → exec_tasks (ag_db s) !! et_ID t = None →
  Forall2 kept_step (et_Plan t) plan → exec_ints_ok t = true →
  et_ID u = et_ID t → Forall2 kept_step (et_Plan u) plan' → exec_ints_ok u = true →
  let '(r1, s1) := exec_Insert t s in
  let '(r2, s2) := exec_Update u s1 in
  r1 = Ok tt ∧
  fst (exec_Get (et_ID t) s1) = Ok (mkExecTask (et_ID t) (et_OpportunityID t) (et_Goal t) (et_Status t) plan
    (et_CurrentStep t) (et_IterationCount t) (et_MaxIterations t) (et_AbortReason t)
    (trunc_us (et_CreatedAt t)) (trunc_us (et_UpdatedAt t))) ∧
  r2 = Ok tt ∧
  fst (exec_Get (et_ID t) s2) = Ok (mkExecTask (et_ID t) (et_OpportunityID t) (et_Goal t) (et_Status u) plan'
    (et_CurrentStep u) (et_IterationCount u) (et_MaxIterations t) (et_AbortReason u)
    (trunc_us (et_CreatedAt t)) (trunc_us (et_UpdatedAt u))) ∧
  (∀ id, id ≠ et_ID t → fst (exec_Get id s1) = fst (exec_Get id s) ∧ fst (exec_Get id s2) = fst (exec_Get id s)) ∧
  ∀ bad step, step ∈ et_Plan bad → refused_payload (st_Payload step) →
    (is_ok (fst (exec_Insert bad s)) = false ∧ snd (exec_Insert bad s) = s) ∧
    (is_ok (fst (exec_Update bad s1)) = false ∧ snd (exec_Update bad s1) = s1).
Proof using.
  intros Hf Hnone Hplan Hints Hid Hplan' Hints'.
  rewrite (exec_Insert_run t plan s) by done. set (s1 := s <| ag_db := _ |>).
  assert (Hf1 : ag_faults s1 = []) by exact Hf. rewrite (exec_Update_run u plan' s1) by done.
  set (s2 := s1 <| ag_db := _ |>). assert (Hf2 : ag_faults s2 = []) by exact Hf.
  rewrite !exec_Get_run by done. cbn [fst]. split_and!; [done| |done| | |].
  - unfold s1. cbn. by rewrite lookup_insert_eq.
  - unfold s2, s1. cbn. rewrite Hid, lookup_alter_eq, lookup_insert_eq. done.
  - intros id Hne. rewrite !exec_Get_run by done. unfold s2, s1. cbn.
    rewrite Hid, lookup_alter_ne, lookup_insert_ne by done. done.
  - intros bad step Hin Hbad. pose proof (refused_plan _ _ Hin Hbad) as Hno. split.
    + by apply exec_Insert_refused.
    + by apply exec_Update_refused.
Qed.
End theorems.

(** ** Witnesses *)

Section demo.
#[local] Existing Instance demo_uuid.

(** A provider that counts its calls and always answers [ok]. *)
Definition counting_provider (ok review : bool) : ActionsProvider nat := fun _ _ _ n =>
  (Ok (mkExecutorResult ok None (if ok then "" else "refused") review false "a"), S n).

Definition demo_loop (ok review : bool) : LoopEngine nat :=
  mkLoopEngine (fun n => demo_now + Z.of_nat (n mod 60) * Second) true (Some (fun _ => "normal")) None
    (fun _ => "") (Some (counting_provider ok review)).

Definition demo_exec_task : ExecutionTask :=
  mkExecTask "t" "" "ship it" ExecPending [] 0 0 5 "" 0 0.

Definition demo_loop_state : Agent LoopDB nat :=
  mkAgent (mkLoopDB {[ "t" := demo_exec_task ]} []) 0%nat 0 0 [] [].

Lemma run_loop_bounded_witness :
  ∃ n, ext_calls (counting_provider false false) n 0%nat
         (ag_ext (snd (RunLoop (demo_loop false false) "t" demo_loop_state))) ∧ (n ≤ 5)%nat.
Proof.
  pose proof (run_loop_bounded (demo_loop false false) (counting_provider false false) "t"
    demo_loop_state eq_refl) as [_ H].
  destruct (RunLoop (demo_loop false false) "t" demo_loop_state) as [[t err] s']. cbn [snd].
  destruct H as [_ (n & H1 & H2)]. exists n. split; [exact H1|].
  change (match exec_tasks (ag_db demo_loop_state) !! "t" with
    | Some t => Z.to_nat (et_MaxIterations t - et_IterationCount t) | None => 0%nat end) with 5%nat in H2.
  exact H2.
Defined.

Lemma demo_row t : exec_tasks (ag_db demo_loop_state) !! "t" = Some t → t = demo_exec_task.
Proof. cbn [ag_db demo_loop_state exec_tasks]. rewrite lookup_singleton_eq. by intros [= <-]. Qed.

Lemma no_success_no_completion_witness :
  et_Status <$> fst (fst (RunLoop (demo_loop false false) "t" demo_loop_state)) ≠ Some ExecCompleted.
Proof.
  pose proof (no_success_no_completion (demo_loop false false) "t" demo_loop_state) as H.
  destruct (RunLoop (demo_loop false false) "t" demo_loop_state) as [[t err] s']. cbn [fst].
  destruct H as [H _].
  { intros t1 Ht1. apply demo_row in Ht1 as ->. split; [done|]. by intros st ?%elem_of_nil. }
  assert (Hn : ∀ t', t = Some t' → et_Status t' ≠ ExecCompleted).
  { apply H. by intros ext [= <-] tool payload opp x. }
  destruct t as [t|]; [|done]. cbn. intros [= E]. by apply (Hn t eq_refl).
Defined.

Lemma demo_setting review : failing_setting (demo_loop false review) (counting_provider false review) "ship it" "".
Proof.
  split; [done| | |done| |done|].
  - intros tool payload o x. split; [done|]. by eexists.
  - intros g [= <-] n H. rewrite !elem_of_cons, elem_of_nil in H.
    by destruct H as [|[|[|[]]]].
  - intros i j. cbn [le_clock demo_loop]. unfold Second.
    pose proof (Nat.mod_upper_bound i 60). pose proof (Nat.mod_upper_bound j 60). lia.
  - eexists. vm_compute. reflexivity.
Qed.

Lemma failing_run_gives_up_witness :
  ext_calls (counting_provider false true) 3 0%nat
    (ag_ext (snd (RunLoop (demo_loop false true) "t" demo_loop_state))).
Proof.
  pose proof (failing_run_gives_up (demo_loop false true) (counting_provider false true) "t" "ship it" ""
    demo_loop_state demo_exec_task (demo_setting true) eq_refl) as H.
  destruct (RunLoop (demo_loop false true) "t" demo_loop_state) as [[out err] s']. cbn [snd].
  apply H.
  - cbn [ag_db demo_loop_state exec_tasks]. by rewrite lookup_singleton_eq.
  - by repeat split.
  - by intros o ?%elem_of_nil.
Defined.

Lemma plans_well_formed_witness :
  match fst (GeneratePlanFromOutput ["external_action"]
    [mkPlannerStep "a" "external_action" (Some "{}"); mkPlannerStep "b" "external_action" None] demo_loop_state) with
  | Ok steps => map st_Payload steps = [Some "{}"; None] ∧ NoDup (map st_ID steps)
  | Err _ => False
  end.
Proof.
  pose proof (plans_well_formed ["external_action"] (mkPlannerInput "g" "" 5)
    [mkPlannerStep "a" "external_action" (Some "{}"); mkPlannerStep "b" "external_action" None]
    demo_loop_state) as [_ H].
  destruct (fst (GeneratePlanFromOutput _ _ _)) as [steps|err] eqn:E.
  - destruct H as (_ & _ & H1 & H2 & _). split; [|exact H2].
    inversion H1 as [|p st ss' l' Hst Hrest]; subst. inversion Hrest as [|p' st' ss'' l'' Hst' Hnil]; subst.
    inversion Hnil; subst. destruct Hst as (_ & _ & E1 & _), Hst' as (_ & _ & E2 & _). cbn [map]. by rewrite E1, E2.
  - vm_compute in E. discriminate E.
Defined.

Definition demo_stored_task : ExecutionTask :=
  demo_exec_task <| et_ID := "u" |>
    <| et_Plan := [mkStep "s" "d" "external_action" None StepPending "" 0] |> <| et_CreatedAt := 1234567 |>.

Definition demo_updated_task : ExecutionTask :=
  demo_stored_task <| et_Status := ExecRunning |>
    <| et_Plan := [mkStep "s" "d" "external_action" (Some "{}") StepExecuted "a" 1] |> <| et_UpdatedAt := 2345678 |>.

Lemma exec_store_roundtrip_witness :
  fst (exec_Get "u" (snd (exec_Update demo_updated_task (snd (exec_Insert demo_stored_task demo_loop_state)))))
  = Ok (demo_updated_task <| et_CreatedAt := 1234000 |> <| et_UpdatedAt := 2345000 |>).
Proof.
  pose proof (exec_store_roundtrip demo_stored_task demo_updated_task
    [mkStep "s" "d" "external_action" (Some "null") StepPending "" 0]
    [mkStep "s" "d" "external_action" (Some "{}") StepExecuted "a" 1] demo_loop_state eq_refl) as H.
  destruct (exec_Insert demo_stored_task demo_loop_state) as [r1 s1].
  destruct (exec_Update demo_updated_task s1) as [r2 s2] eqn:E. cbn [snd]. rewrite E. cbn [snd].
  destruct H as (_ & _ & _ & H & _); [vm_compute; reflexivity| |reflexivity|reflexivity| |reflexivity|exact H].
  - constructor; [|constructor]. by eexists _, _.
  - constructor; [|constructor]. by eexists _, _.
Defined.

(** The first failure of a step already blocks it: it is counted by the engine
    and again by [AdaptPlan], so [MaxRetriesPerStep] leaves no retry. *)
Example failed_step_is_blocked :
  map (fun t => map st_Status (et_Plan t))
    (map snd (map_to_list (exec_tasks (ag_db (snd (RunLoop (demo_loop false false) "t" demo_loop_state))))))
  = [[StepBlocked]] ∧
  length (exec_observations (ag_db (snd (RunLoop (demo_loop false false) "t" demo_loop_state)))) = 3%nat.
Proof. vm_compute. auto. Qed.

(** A step that needs review is requested three times, then the task is aborted. *)
Example review_is_requested_three_times :
  let '(t, err, s) := RunLoop (demo_loop false true) "t" demo_loop_state in
  et_Status <$> t = Some ExecAborted ∧ ag_ext s = 3%nat.
Proof. vm_compute. auto. Qed.

Example successful_run_completes :
  let '(t, err, s) := RunLoop (demo_loop true false) "t" demo_loop_state in
  et_Status <$> t = Some ExecCompleted ∧ ag_ext s = 1%nat.
Proof. vm_compute. auto. Qed.

(** A manual abort of a running task is undone by the loop's next write: the
    loop keeps its own copy of the task. *)
Example manual_abort_is_overwritten :
  let running := demo_exec_task <| et_Status := ExecRunning |> in
  let s := demo_loop_state <| ag_db := mkLoopDB {[ "t" := running ]} [] |> in
  let '(r, s1) := AbortTask (demo_loop true false) "t" s in
  let s2 := snd (persist (demo_loop true false) running s1) in
  et_Status <$> (exec_tasks (ag_db s1) !! "t") = Some ExecAborted ∧
  et_Status <$> (exec_tasks (ag_db s2) !! "t") = Some ExecRunning.
Proof. vm_compute. auto. Qed.
End demo.
