(* ===== verification/TaskOrchestrator.v ===== *)
(** * Multi-task orchestrator ([internal/agent/task_orchestrator])

    Scored tasks wait in a queue table; a dispatch cycle hands the best to the
    execution loop under governance, risk and concurrency limits.  Modelled:
    the task state machine, the scorer, the PostgreSQL stores and the engine.

    The state is the two tables, the clock, a counter for fresh ids, a script of
    database faults and the audit log.  Providers (objective, governance,
    capacity, portfolio, vector, execution loop) are the engine's optional
    fields; their answers do not change during one call, and the execution loop
    does not write these two tables. *)

From stdpp Require Import base gmap strings list tactics numbers fin_maps.
From Stdlib Require Import ZArith Lia.
From S2P Require Import Prelude GoFloat GoSort Models GoTime GoHeap TaskQueue.

Open Scope Z_scope.

(** ** Tasks *)

Inductive TaskStatus : Type :=
| TaskStatusPending
| TaskStatusQueued
| TaskStatusRunning
| TaskStatusCompleted
| TaskStatusFailed
| TaskStatusPaused.

#[export] Instance TaskStatus_eq_dec : EqDecision TaskStatus.
Proof. solve_decision. Defined.

Definition validTaskTransitions (s : TaskStatus) : list TaskStatus :=
  match s with
  | TaskStatusPending => [TaskStatusQueued; TaskStatusPaused]
  | TaskStatusQueued => [TaskStatusRunning; TaskStatusPaused]
  | TaskStatusRunning => [TaskStatusCompleted; TaskStatusFailed; TaskStatusPaused]
  | TaskStatusCompleted => []
  | TaskStatusFailed => []
  | TaskStatusPaused => [TaskStatusQueued]
  end.

Definition ValidateTransition (from to : TaskStatus) : bool :=
  bool_decide (to ∈ validTaskTransitions from).

Definition IsTerminal (s : TaskStatus) : bool :=
  bool_decide (s = TaskStatusCompleted) || bool_decide (s = TaskStatusFailed).

Definition MaxTasksInQueue : Z := 50.
Definition MaxTasksPerCycle : Z := 3.
Definition MaxRunningTasks : Z := 2.
Definition TaskTTLHours : float64 := f_of_Z 24.
Definition StarvationHours : float64 := f_of_Z 6.
Definition HighRiskThreshold : float64 := lit 70 100.
Definition BlockedRisk : float64 := lit 90 100.
Definition HighRiskMaxPrio : float64 := lit 50 100.
Definition CooldownMinutes : float64 := f_of_Z 5.
Definition OverloadThreshold : float64 := lit 75 100.

Definition WeightObjective : float64 := lit 30 100.
Definition WeightValue : float64 := lit 25 100.
Definition WeightUrgency : float64 := lit 20 100.
Definition WeightRecency : float64 := lit 10 100.
Definition WeightRisk : float64 := lit 15 100.

Record OrchestratedTask := mkTask {
  ot_ID : string;
  ot_Source : string;
  ot_Goal : string;
  ot_PriorityScore : float64;
  ot_Status : TaskStatus;
  ot_Urgency : float64;
  ot_ExpectedValue : float64;
  ot_RiskLevel : float64;
  ot_StrategyType : string;
  ot_ActuationDecisionID : string;
  ot_ExecutionTaskID : string;
  ot_OutcomeType : string;
  ot_LastError : string;
  ot_AttemptCount : Z;
  ot_CompletedAt : option time;
  ot_CreatedAt : time;
  ot_UpdatedAt : time
}.

#[export] Instance OrchestratedTask_settable : Settable OrchestratedTask := fun r =>
  mkTask (ot_ID r) (ot_Source r) (ot_Goal r) (ot_PriorityScore r) (ot_Status r) (ot_Urgency r)
    (ot_ExpectedValue r) (ot_RiskLevel r) (ot_StrategyType r) (ot_ActuationDecisionID r)
    (ot_ExecutionTaskID r) (ot_OutcomeType r) (ot_LastError r) (ot_AttemptCount r)
    (ot_CompletedAt r) (ot_CreatedAt r) (ot_UpdatedAt r).

Record DispatchResult := mkDispatchResult {
  dr_Dispatched : list string;
  dr_Skipped : list string;
  dr_Blocked : list string
}.

#[export] Instance DispatchResult_settable : Settable DispatchResult := fun r =>
  mkDispatchResult (dr_Dispatched r) (dr_Skipped r) (dr_Blocked r).

Record ScoringInput := mkScoringInput {
  si_ObjectiveSignalType : string;
  si_ObjectiveSignalStrength : float64;
  si_CapacityLoad : float64
}.

Record DispatchOutcome := mkDispatchOutcome {
  do_ExecutionID : string;
  do_TerminalStatus : string;
  do_Error : string
}.

Record VectorScoringParams := mkVector {
  v_RiskTolerance : float64;
  v_IncomePriority : float64
}.

Definition ErrTaskNotFound : error := Errorf "orchestrated task not found".
Definition ErrInvalidTransition : error := Errorf "invalid task status transition".
Definition ErrGovernanceFrozen : error := Errorf "dispatch blocked: governance is frozen".
Definition ErrMaxRunning : error := Errorf "max concurrent running tasks reached".

(** ** Scorer *)

Definition ComputeRecencyBoost (createdAt now : time) : float64 :=
  let waitHours := dur_in Hour (time_Sub now createdAt) in
  if fltb waitHours StarvationHours then f0
  else fclamp01 (fdiv (fsub waitHours StarvationHours) StarvationHours).

Definition IsExpired (task : OrchestratedTask) (now : time) : bool :=
  fltb TaskTTLHours (dur_in Hour (time_Sub now (ot_CreatedAt task))).

Definition IsInCooldown (task : OrchestratedTask) (now : time) : bool :=
  fltb (dur_in Minute (time_Sub now (ot_UpdatedAt task))) CooldownMinutes.

Definition objective_score (input : ScoringInput) : float64 :=
  if bool_decide (si_ObjectiveSignalType input = "penalty")
     && fltb f0 (si_ObjectiveSignalStrength input)
  then fclamp01 (fsub f1 (si_ObjectiveSignalStrength input)) else f1.

(** The weighted sum both scorers start from. *)
Definition weighted_sum (task : OrchestratedTask) (input : ScoringInput) (portfolioBoost : float64)
    (now : time) : float64 :=
  let valueScore := fclamp01 (fdiv (ot_ExpectedValue task) (f_of_Z 1000)) in
  let urgency := fclamp01 (ot_Urgency task) in
  let recencyBoost := ComputeRecencyBoost (ot_CreatedAt task) now in
  let riskScore := fclamp01 (ot_RiskLevel task) in
  let stratBoost := fclamp portfolioBoost (lit (-10) 100) (lit 12 100) in
  fadd (fsub (fadd (fadd (fadd (fmul (objective_score input) WeightObjective)
                               (fmul valueScore WeightValue))
                         (fmul urgency WeightUrgency))
                   (fmul recencyBoost WeightRecency))
             (fmul riskScore WeightRisk))
       stratBoost.

Definition ComputePriority (task : OrchestratedTask) (input : ScoringInput)
    (portfolioBoost : float64) (now : time) : float64 :=
  let priority := fclamp01 (weighted_sum task input portfolioBoost now) in
  if fltb HighRiskThreshold (ot_RiskLevel task) then
    if fltb HighRiskMaxPrio priority then HighRiskMaxPrio else priority
  else priority.

Definition VectorBaselineRiskTolerance : float64 := lit 30 100.
Definition VectorBaselineIncomePriority : float64 := lit 70 100.

Definition ComputePriorityWithVector (task : OrchestratedTask) (input : ScoringInput)
    (portfolioBoost : float64) (now : time) (v : VectorScoringParams) : float64 :=
  let incomeBoost :=
    fclamp01 (fmul (fsub (v_IncomePriority v) VectorBaselineIncomePriority) (lit 15 100)) in
  let priority := fclamp01 (fadd (weighted_sum task input portfolioBoost now) incomeBoost) in
  let ratio := fdiv (v_RiskTolerance v) VectorBaselineRiskTolerance in
  let adjHighRisk := fclamp (fmul HighRiskThreshold ratio) (lit 40 100) (lit 95 100) in
  let adjCap := fclamp (fmul HighRiskMaxPrio ratio) (lit 30 100) (lit 80 100) in
  if fltb adjHighRisk (ot_RiskLevel task) then
    if fltb adjCap priority then adjCap else priority
  else priority.

Definition ShouldReduceDispatch (capacityLoad : float64) : bool :=
  fltb OverloadThreshold capacityLoad.

(** ** State *)

Record TODB := mkTODB {
  orch_tasks : gmap string OrchestratedTask;   (* agent_orchestrated_tasks *)
  orch_queue : gmap string TaskQueueEntry      (* agent_task_queue *)
}.

#[export] Instance TODB_settable : Settable TODB := fun r => mkTODB (orch_tasks r) (orch_queue r).

Record TOState := mkTOState {
  to_db : TODB;
  to_now : time;
  to_uuids : nat;
  to_runs : nat;             (* dispatches so far *)
  to_faults : list Fault;
  to_audit : list (string * string)   (* event type and task id *)
}.

#[export] Instance TOState_settable : Settable TOState := fun r =>
  mkTOState (to_db r) (to_now r) (to_uuids r) (to_runs r) (to_faults r) (to_audit r).

Abbreviation TO := (St TOState).

Definition nowUTC : TO time := fun s => (to_now s, s).

(** One statement of a store; a fault strikes before it runs or after. *)
Definition store_call {A} (stmt : TODB → res (A * TODB)) : TO (res A) := fun s =>
  let '(f, s1) := match to_faults s with
                  | [] => (NoFault, s)
                  | f :: fs => (f, s <| to_faults := fs |>)
                  end in
  match f, stmt (to_db s1) with
  | FaultBefore e, _ => (Err e, s1)
  | _, Err e => (Err e, s1)
  | NoFault, Ok (a, db) => (Ok a, s1 <| to_db := db |>)
  | FaultAfter e, Ok (_, db) => (Err e, s1 <| to_db := db |>)
  end.

Definition wrap_err {A} (prefix : string) (r : res A) : res A :=
  match r with Ok a => Ok a | Err e => Err (wrap prefix e) end.

(** ** Task store *)

Definition task_rows (m : gmap string OrchestratedTask) : list OrchestratedTask :=
  (map_to_list m).*2.

(** What a row read back holds: [timestamptz] keeps microseconds. *)
Definition stored_task (t : OrchestratedTask) : OrchestratedTask :=
  t <| ot_CompletedAt := trunc_us <$> ot_CompletedAt t |>
    <| ot_CreatedAt := trunc_us (ot_CreatedAt t) |>
    <| ot_UpdatedAt := trunc_us (ot_UpdatedAt t) |>.

Definition store_Insert (t : OrchestratedTask) : TO (res unit) :=
  let! r := store_call (fun db =>
    if negb (in_int4 (ot_AttemptCount t)) then Err (Errorf "integer out of range")
    else match orch_tasks db !! ot_ID t with
         | Some _ => Err (Errorf "duplicate key value violates unique constraint")
         | None => Ok (tt, db <| orch_tasks := <[ot_ID t := stored_task t]> (orch_tasks db) |>)
         end) in
  retS (wrap_err "insert orchestrated task: " r).

(** [Get]: no row is [ErrTaskNotFound], any other error is wrapped. *)
Definition store_Get (id : string) : TO (res OrchestratedTask) :=
  let! r := store_call (fun db => Ok (orch_tasks db !! id, db)) in
  retS match r with
       | Ok (Some t) => Ok t
       | Ok None => Err ErrTaskNotFound
       | Err e => Err (wrap "get orchestrated task: " e)
       end.

(** The columns the [UPDATE] sets; id, source, goal and creation time stay. *)
Definition updated_row (t row : OrchestratedTask) : OrchestratedTask :=
  mkTask (ot_ID row) (ot_Source row) (ot_Goal row) (ot_PriorityScore t) (ot_Status t)
    (ot_Urgency t) (ot_ExpectedValue t) (ot_RiskLevel t) (ot_StrategyType t)
    (ot_ActuationDecisionID t) (ot_ExecutionTaskID t) (ot_OutcomeType t) (ot_LastError t)
    (ot_AttemptCount t) (trunc_us <$> ot_CompletedAt t) (ot_CreatedAt row)
    (trunc_us (ot_UpdatedAt t)).

(** [UPDATE ... WHERE id = $n]: no row is not an error. *)
Definition update_row (id : string) (f : OrchestratedTask → OrchestratedTask) (db : TODB)
    : res (unit * TODB) :=
  match orch_tasks db !! id with
  | Some row => Ok (tt, db <| orch_tasks := <[id := f row]> (orch_tasks db) |>)
  | None => Ok (tt, db)
  end.

Definition store_Update (t : OrchestratedTask) : TO (res unit) :=
  let! r := store_call (fun db =>
    if negb (in_int4 (ot_AttemptCount t)) then Err (Errorf "integer out of range")
    else update_row (ot_ID t) (updated_row t) db) in
  retS (wrap_err "update orchestrated task: " r).

Definition newer (x y : OrchestratedTask) : bool := bool_decide (ot_CreatedAt y < ot_CreatedAt x).

Definition clamp_limit (limit : Z) : nat :=
  Z.to_nat (if bool_decide (limit ≤ 0) || bool_decide (200 < limit) then 50 else limit).

(** [ORDER BY created_at DESC LIMIT n]; equal times come in key order. *)
Definition store_List (limit : Z) : TO (res (list OrchestratedTask)) :=
  let! r := store_call (fun db =>
    Ok (take (clamp_limit limit) (SliceStable newer (task_rows (orch_tasks db))), db)) in
  retS (wrap_err "list orchestrated tasks: " r).

Definition with_status (s : TaskStatus) (m : gmap string OrchestratedTask)
    : list OrchestratedTask :=
  List.filter (fun t => bool_decide (ot_Status t = s)) (task_rows m).

Definition store_ListByStatus (status : TaskStatus) (limit : Z)
    : TO (res (list OrchestratedTask)) :=
  let! r := store_call (fun db =>
    Ok (take (clamp_limit limit) (SliceStable newer (with_status status (orch_tasks db))), db)) in
  retS (wrap_err "list orchestrated tasks by status: " r).

Definition store_CountByStatus (status : TaskStatus) : TO (res Z) :=
  let! r := store_call (fun db => Ok (Z.of_nat (length (with_status status (orch_tasks db))), db)) in
  retS (wrap_err "count orchestrated tasks: " r).

Definition store_SetActuationDecisionID (taskID decisionID : string) : TO (res unit) :=
  let! now := nowUTC in
  let! r := store_call (update_row taskID (fun t =>
    t <| ot_ActuationDecisionID := decisionID |> <| ot_UpdatedAt := trunc_us now |>)) in
  retS (wrap_err "set actuation decision id: " r).

Definition store_SetExecutionTaskID (taskID execTaskID : string) : TO (res unit) :=
  let! now := nowUTC in
  let! r := store_call (update_row taskID (fun t =>
    t <| ot_ExecutionTaskID := execTaskID |> <| ot_UpdatedAt := trunc_us now |>)) in
  retS (wrap_err "set execution task id: " r).

Definition store_SetOutcome (taskID outcomeType lastError : string) (attemptCount : Z)
    : TO (res unit) :=
  let! now := nowUTC in
  let! r := store_call (fun db =>
    if negb (in_int4 attemptCount) then Err (Errorf "integer out of range")
    else update_row taskID (fun t =>
      t <| ot_OutcomeType := outcomeType |> <| ot_LastError := lastError |>
        <| ot_AttemptCount := attemptCount |> <| ot_CompletedAt := Some (trunc_us now) |>
        <| ot_UpdatedAt := trunc_us now |>) db) in
  retS (wrap_err "set outcome: " r).

(** ** Queue store *)

(** [INSERT ... ON CONFLICT (task_id) DO UPDATE]; the task must exist. *)
Definition queue_Upsert (e : TaskQueueEntry) : TO (res unit) :=
  let! r := store_call (fun db =>
    match orch_tasks db !! qe_TaskID e with
    | None => Err (Errorf "insert or update violates foreign key constraint")
    | Some _ =>
        let inserted := match orch_queue db !! qe_TaskID e with
                        | Some old => qe_InsertedAt old
                        | None => trunc_us (qe_InsertedAt e)
                        end in
        Ok (tt, db <| orch_queue :=
              <[qe_TaskID e := mkEntry (qe_TaskID e) (qe_PriorityScore e) inserted
                                 (trunc_us (qe_LastUpdatedAt e))]> (orch_queue db) |>)
    end) in
  retS (wrap_err "upsert queue entry: " r).

Definition queue_Remove (taskID : string) : TO (res unit) :=
  let! r := store_call (fun db =>
    Ok (tt, db <| orch_queue := delete taskID (orch_queue db) |>)) in
  retS (wrap_err "remove queue entry: " r).

(** [ORDER BY priority_score DESC, inserted_at ASC] *)
Definition queue_before (x y : TaskQueueEntry) : bool :=
  pg_flt (qe_PriorityScore y) (qe_PriorityScore x)
  || negb (pg_flt (qe_PriorityScore x) (qe_PriorityScore y))
     && bool_decide (qe_InsertedAt x < qe_InsertedAt y).

Definition queue_rows (m : gmap string TaskQueueEntry) : list TaskQueueEntry :=
  (map_to_list m).*2.

Definition queue_List (limit : Z) : TO (res (list TaskQueueEntry)) :=
  let! r := store_call (fun db =>
    Ok (take (clamp_limit limit) (SliceStable queue_before (queue_rows (orch_queue db))), db)) in
  retS (wrap_err "list queue entries: " r).

Definition queue_Count : TO (res Z) :=
  let! r := store_call (fun db => Ok (Z.of_nat (length (queue_rows (orch_queue db))), db)) in
  retS (wrap_err "count queue entries: " r).

(** ** Engine *)

(** Providers are [None] when nil.  [executionLoop k goal] is what the [k]-th
    dispatch returns. *)
Record Engine := mkEng {
  eg_audit : bool;
  eg_objective : option (string * float64);
  eg_governance : option string;
  eg_capacity : option float64;
  eg_portfolio : option (string → float64);
  eg_vector : option VectorScoringParams;
  eg_executionLoop : option (nat → string → res DispatchOutcome)
}.

(** The audit event, with the task it is about; its error is dropped. *)
Definition auditEvent (e : Engine) (eventType taskID : string) : TO unit := fun s =>
  (tt, if eg_audit e then s <| to_audit := to_audit s ++ [(eventType, taskID)] |> else s).

(** [_ = c] *)
Definition ignore {A} (c : TO A) : TO unit := let! _ := c in retS tt.

Section engine.
Context {U : UuidPkg}.

Definition fresh_id : TO string := fun s =>
  (uuid_String (uuid_New (to_uuids s)), s <| to_uuids := S (to_uuids s) |>).

Definition CreateTask (e : Engine) (source goal : string)
    (urgency expectedValue riskLevel : float64) (strategyType : string)
    : TO (res OrchestratedTask) :=
  let! now := nowUTC in
  let! id := fresh_id in
  let task := mkTask id source goal f0 TaskStatusPending (fclamp01 urgency) expectedValue
                (fclamp01 riskLevel) strategyType "" "" "" "" 0 None now now in
  let! r := store_Insert task in
  match r with
  | Err err => retS (Err (wrap "create task: " err))
  | Ok _ =>
      let! _ := auditEvent e "task.created" id in
      retS (Ok task)
  end.

Definition gatherScoringInput (e : Engine) : ScoringInput :=
  let '(ty, st) := default ("", f0) (eg_objective e) in
  mkScoringInput ty st (default f0 (eg_capacity e)).

Definition getGovernanceMode (e : Engine) : string := default "autonomous" (eg_governance e).

(** The score of one task. *)
Definition score_task (e : Engine) (input : ScoringInput) (now : time) (task : OrchestratedTask)
    : float64 :=
  let portfolioBoost :=
    match eg_portfolio e with
    | Some boost => if bool_decide (ot_StrategyType task = "") then f0
                    else boost (ot_StrategyType task)
    | None => f0
    end in
  match eg_vector e with
  | Some v => ComputePriorityWithVector task input portfolioBoost now v
  | None => ComputePriority task input portfolioBoost now
  end.

(** The loop body of [RecomputePriorities]; its counters only feed the log. *)
Definition recompute_task (e : Engine) (input : ScoringInput) (now : time)
    (task : OrchestratedTask) : TO unit :=
  if IsExpired task now then
    let! _ := ignore (store_Update (task <| ot_Status := TaskStatusFailed |>
                                         <| ot_UpdatedAt := now |>)) in
    ignore (queue_Remove (ot_ID task))
  else if bool_decide (ot_Status task = TaskStatusRunning) then retS tt
  else if bool_decide (ot_Status task ≠ TaskStatusPending) && IsInCooldown task now then retS tt
  else
    let priority := score_task e input now task in
    let task1 := task <| ot_PriorityScore := priority |> <| ot_UpdatedAt := now |> in
    let task2 := if bool_decide (ot_Status task1 = TaskStatusPending)
                 then task1 <| ot_Status := TaskStatusQueued |> else task1 in
    let! r := store_Update task2 in
    match r with
    | Err _ => retS tt
    | Ok _ =>
        let! r2 := queue_Upsert (mkEntry (ot_ID task2) priority (ot_CreatedAt task2) now) in
        match r2 with
        | Err _ => retS tt
        | Ok _ => auditEvent e "task.scored" (ot_ID task2)
        end
    end.

Definition RecomputePriorities (e : Engine) : TO (res unit) :=
  let! now := nowUTC in
  let input := gatherScoringInput e in
  let! pending := store_ListByStatus TaskStatusPending MaxTasksInQueue in
  match pending with
  | Err err => retS (Err (wrap "list pending tasks: " err))
  | Ok pending =>
      let! queued := store_ListByStatus TaskStatusQueued MaxTasksInQueue in
      match queued with
      | Err err => retS (Err (wrap "list queued tasks: " err))
      | Ok queued =>
          let! paused := store_ListByStatus TaskStatusPaused MaxTasksInQueue in
          match paused with
          | Err err => retS (Err (wrap "list paused tasks: " err))
          | Ok paused =>
              let! _ := forS (recompute_task e input now) (pending ++ queued ++ paused) in
              let! _ := auditEvent e "task.recompute_completed" "" in
              let! _ := ignore queue_Count in
              retS (Ok tt)
          end
      end
  end.

(** [applyExecutionOutcome] *)
Definition applyExecutionOutcome (e : Engine) (task : OrchestratedTask)
    (outcome : DispatchOutcome) (now : time) : TO unit :=
  let finish task' event :=
    let! _ := ignore (store_Update task') in
    let! _ := ignore (queue_Remove (ot_ID task)) in
    auditEvent e event (ot_ID task) in
  let ended st otype :=
    task <| ot_Status := st |> <| ot_OutcomeType := otype |> <| ot_CompletedAt := Some now |>
         <| ot_UpdatedAt := now |> in
  let ts := do_TerminalStatus outcome in
  if bool_decide (ts = "running") || bool_decide (ts = "") then retS tt
  else if bool_decide (ts = "completed") then
    finish (ended TaskStatusCompleted "success") "task.completed"
  else if bool_decide (ts = "failed") || bool_decide (ts = "aborted") then
    finish ((ended TaskStatusFailed ts) <| ot_LastError := do_Error outcome |>) "task.failed"
  else
    finish ((ended TaskStatusFailed "unknown_terminal_status")
              <| ot_LastError := "unknown terminal status: " +:+ ts |>) "task.failed".

(** One call of the execution loop. *)
Definition CreateAndRun (run : nat → string → res DispatchOutcome) (goal : string)
    : TO (res DispatchOutcome) := fun s =>
  (run (to_runs s) goal, s <| to_runs := S (to_runs s) |>).

(** The gate that pauses a task: out of the queue until resumed. *)
Definition pause_task (e : Engine) (now : time) (task : OrchestratedTask) : TO unit :=
  let! _ := ignore (store_Update (task <| ot_Status := TaskStatusPaused |>
                                       <| ot_UpdatedAt := now |>)) in
  let! _ := ignore (queue_Remove (ot_ID task)) in
  auditEvent e "task.paused" (ot_ID task).

(** The loop body of [Dispatch] for one entry; the result so far is threaded, and
    whether the entry was dispatched is returned. *)
Definition dispatch_entry (e : Engine) (govMode : string) (now : time) (entry : TaskQueueEntry)
    (result : DispatchResult) : TO (DispatchResult * bool) :=
  let! g := store_Get (qe_TaskID entry) in
  match g with
  | Err _ =>
      let! _ := ignore (queue_Remove (qe_TaskID entry)) in
      retS (result, false)
  | Ok task =>
      let id := ot_ID task in
      let skipped := result <| dr_Skipped := dr_Skipped result ++ [id] |> in
      if IsTerminal (ot_Status task) || bool_decide (ot_Status task = TaskStatusRunning) then
        let! _ := ignore (queue_Remove id) in
        retS (result, false)
      else if fleb BlockedRisk (ot_RiskLevel task) then
        let! _ := pause_task e now task in
        retS (result <| dr_Blocked := dr_Blocked result ++ [id] |>, false)
      else if fltb HighRiskThreshold (ot_RiskLevel task) && bool_decide (govMode = "supervised")
      then
        let! _ := pause_task e now task in
        retS (skipped, false)
      else match eg_executionLoop e with
      | None => retS (skipped, false)
      | Some run =>
          let! out := CreateAndRun run (ot_Goal task) in
          match out with
          | Err execErr =>
              let! _ := ignore (store_Update
                (task <| ot_Status := TaskStatusFailed |> <| ot_LastError := error_text execErr |>
                      <| ot_AttemptCount := wrap64 (ot_AttemptCount task + 1) |>
                      <| ot_CompletedAt := Some now |> <| ot_UpdatedAt := now |>)) in
              let! _ := ignore (queue_Remove id) in
              let! _ := auditEvent e "task.failed" id in
              retS (skipped, false)
          | Ok outcome =>
              let task' := task <| ot_Status := TaskStatusRunning |>
                                <| ot_ExecutionTaskID := do_ExecutionID outcome |>
                                <| ot_AttemptCount := wrap64 (ot_AttemptCount task + 1) |>
                                <| ot_UpdatedAt := now |> in
              let! _ := ignore (store_Update task') in
              let! _ := ignore (queue_Remove id) in
              let! _ := auditEvent e "task.dispatched" id in
              let! _ := applyExecutionOutcome e task' outcome now in
              retS (result <| dr_Dispatched := dr_Dispatched result ++ [id] |>, true)
          end
      end
  end.

(** The loop of [Dispatch]; [left] is [maxDispatch - dispatched]. *)
Fixpoint dispatch_loop (e : Engine) (govMode : string) (now : time)
    (entries : list TaskQueueEntry) (left : nat) (result : DispatchResult) : TO DispatchResult :=
  match entries, left with
  | [], _ | _, O => retS result
  | entry :: rest, S left' =>
      let! out := dispatch_entry e govMode now entry result in
      let '(result', dispatched) := out in
      dispatch_loop e govMode now rest (if dispatched then left' else left) result'
  end.

Definition Dispatch (e : Engine) : TO (DispatchResult * option error) :=
  let empty := mkDispatchResult [] [] [] in
  let govMode := getGovernanceMode e in
  if bool_decide (govMode = "frozen") then retS (empty, Some ErrGovernanceFrozen)
  else
    let capacityLoad := default f0 (eg_capacity e) in
    let maxDispatch := if ShouldReduceDispatch capacityLoad then 1 else MaxTasksPerCycle in
    let! c := store_CountByStatus TaskStatusRunning in
    match c with
    | Err err => retS (empty, Some (wrap "count running tasks: " err))
    | Ok runningCount =>
        let availableSlots := MaxRunningTasks - runningCount in
        if bool_decide (availableSlots ≤ 0) then retS (empty, Some ErrMaxRunning)
        else
          let maxDispatch := if bool_decide (availableSlots < maxDispatch) then availableSlots
                             else maxDispatch in
          let! l := queue_List (maxDispatch * 2) in
          match l with
          | Err err => retS (empty, Some (wrap "list queue: " err))
          | Ok entries =>
              let! now := nowUTC in
              let! result := dispatch_loop e govMode now entries (Z.to_nat maxDispatch) empty in
              retS (result, None)
          end
    end.

(** [transitionTask] *)
Definition transitionTask (e : Engine) (id : string) (to : TaskStatus) (event : string)
    : TO (res OrchestratedTask) :=
  let! g := store_Get id in
  match g with
  | Err err => retS (Err err)
  | Ok task =>
      if negb (ValidateTransition (ot_Status task) to) then retS (Err ErrInvalidTransition)
      else
        let! now := nowUTC in
        let task' := task <| ot_Status := to |> <| ot_UpdatedAt := now |> in
        let! r := store_Update task' in
        match r with
        | Err err => retS (Err (wrap "update task: " err))
        | Ok _ =>
            let! _ := if IsTerminal to || bool_decide (to = TaskStatusPaused)
                      then ignore (queue_Remove id) else retS tt in
            let! _ := auditEvent e event id in
            retS (Ok task')
        end
  end.

Definition CompleteTask (e : Engine) (id : string) : TO (res OrchestratedTask) :=
  transitionTask e id TaskStatusCompleted "task.completed".
Definition FailTask (e : Engine) (id : string) : TO (res OrchestratedTask) :=
  transitionTask e id TaskStatusFailed "task.failed".
Definition PauseTask (e : Engine) (id : string) : TO (res OrchestratedTask) :=
  transitionTask e id TaskStatusPaused "task.paused".

Definition FailTaskWithReason (e : Engine) (id reason : string) : TO (res OrchestratedTask) :=
  let! g := store_Get id in
  match g with
  | Err err => retS (Err err)
  | Ok task =>
      if negb (ValidateTransition (ot_Status task) TaskStatusFailed)
      then retS (Err ErrInvalidTransition)
      else
        let! now := nowUTC in
        let task' := task <| ot_Status := TaskStatusFailed |> <| ot_LastError := reason |>
                          <| ot_UpdatedAt := now |> in
        let! r := store_Update task' in
        match r with
        | Err err => retS (Err (wrap "update task: " err))
        | Ok _ =>
            let! _ := ignore (queue_Remove id) in
            let! _ := auditEvent e "task.failed" id in
            retS (Ok task')
        end
  end.

Definition GetQueue (limit : Z) : TO (res (list TaskQueueEntry)) :=
  queue_List (if bool_decide (limit ≤ 0) then MaxTasksInQueue else limit).

End engine.
