(* ===== verification/TaskOrchestratorProps.v ===== *)
(** * Properties of the multi-task orchestrator

    A small program logic over the two tables ([ensures]) carries the proofs:
    whatever faults strike, a statement either changes nothing or has its
    effect.  The last part is about the task scorer. *)

From stdpp Require Import base gmap strings list tactics numbers fin_maps.
From Stdlib Require Import ZArith Lia Floats.SpecFloat.
From S2P Require Import Prelude GoFloat GoSort Models GoHeap TaskQueue TaskOrchestrator Fixtures.

Open Scope Z_scope.

(** ** Program logic *)

Definition ensures {A} (P : TODB → Prop) (c : TO A) (Q : A → TODB → Prop) : Prop :=
  ∀ s, P (to_db s) → Q (fst (c s)) (to_db (snd (c s))).

Lemma ensures_ret {A} (P : TODB → Prop) (a : A) Q :
  (∀ db, P db → Q a db) → ensures P (retS a) Q.
Proof. intros H s. apply H. Qed.

Lemma ensures_bind {A B} (P : TODB → Prop) (c : TO A) (Q : A → TODB → Prop) (k : A → TO B) R :
  ensures P c Q → (∀ a, ensures (Q a) (k a) R) → ensures P (bindS c k) R.
Proof. intros Hc Hk s HP. rewrite bindS_run. apply Hk, Hc, HP. Qed.

Lemma ensures_weaken {A} (P P' : TODB → Prop) (c : TO A) (Q Q' : A → TODB → Prop) :
  ensures P' c Q' → (∀ db, P db → P' db) → (∀ a db, Q' a db → Q a db) → ensures P c Q.
Proof. intros H HP HQ s Hs. apply HQ, H, HP, Hs. Qed.

Lemma ensures_store {A} (P : TODB → Prop) (stmt : TODB → res (A * TODB)) Q :
  (∀ db, P db → (∀ e, Q (Err e) db) ∧
     ∀ a db', stmt db = Ok (a, db') → Q (Ok a) db' ∧ ∀ e, Q (Err e) db') →
  ensures P (store_call stmt) Q.
Proof.
  intros H s HP. unfold store_call.
  destruct (to_faults s) as [|f fs]; cbn; destruct (H _ HP) as [H1 H2].
  - destruct (stmt (to_db s)) as [[a db']|e]; cbn; [by apply H2|apply H1].
  - destruct f; cbn; destruct (stmt (to_db s)) as [[a db']|e']; cbn; try apply H1;
      destruct (H2 a db' eq_refl); auto.
Qed.

Lemma ensures_fact {A} (phi : Prop) (P : TODB → Prop) (c : TO A) Q :
  (phi → ensures P c Q) → ensures (fun db => phi ∧ P db) c Q.
Proof. intros H s [Hphi HP]. by apply H. Qed.

(** Steps that do not touch the tables. *)
Lemma ensures_pure {A} (P : TODB → Prop) (c : TO A) :
  (∀ s, to_db (snd (c s)) = to_db s) → ensures P c (fun _ => P).
Proof. intros H s HP. by rewrite H. Qed.

Lemma ensures_ignore {A} (P : TODB → Prop) (c : TO A) (Q : TODB → Prop) :
  ensures P c (fun _ => Q) → ensures P (ignore c) (fun _ => Q).
Proof. intros H. eapply ensures_bind; [exact H|]. intros a. by apply ensures_ret. Qed.

Lemma ensures_now (P : TODB → Prop) : ensures P nowUTC (fun _ => P).
Proof. by apply ensures_pure. Qed.

Lemma ensures_audit P e ev id : ensures P (auditEvent e ev id) (fun _ => P).
Proof. apply ensures_pure. intros s. unfold auditEvent. by destruct (eg_audit e). Qed.

(** ** Invariant of the tables *)

Record todb_wf (db : TODB) : Prop := {
  to_ids : ∀ i t, orch_tasks db !! i = Some t → ot_ID t = i;
  to_keys : ∀ i e, orch_queue db !! i = Some e → qe_TaskID e = i
}.

Definition running (db : TODB) : nat := length (with_status TaskStatusRunning (orch_tasks db)).

(** The row of [id], if any, is not terminal. *)
Definition open_at (id : string) (db : TODB) : Prop :=
  ∀ t, orch_tasks db !! id = Some t → IsTerminal (ot_Status t) = false.

(** Terminal tasks keep their status. *)
Definition keeps_terminal (db db' : TODB) : Prop :=
  ∀ i t, orch_tasks db !! i = Some t → IsTerminal (ot_Status t) = true →
  ∃ t', orch_tasks db' !! i = Some t' ∧ ot_Status t' = ot_Status t.

Definition sound (db0 : TODB) (n : nat) (db : TODB) : Prop :=
  todb_wf db ∧ keeps_terminal db0 db ∧ (running db ≤ n)%nat.

Definition is_running (s : TaskStatus) : nat := if bool_decide (s = TaskStatusRunning) then 1 else 0.

Lemma rows_insert (m : gmap string OrchestratedTask) i t :
  task_rows (<[i := t]> m) ≡ₚ t :: task_rows (delete i m).
Proof.
  unfold task_rows. rewrite <- insert_delete_eq.
  rewrite map_to_list_insert by apply lookup_delete_eq. done.
Qed.

Lemma rows_lookup (m : gmap string OrchestratedTask) i t :
  m !! i = Some t → task_rows m ≡ₚ t :: task_rows (delete i m).
Proof. intros H. rewrite <- (insert_id m i t H) at 1. apply rows_insert. Qed.

Lemma running_insert db i t :
  (running (db <| orch_tasks := <[i := t]> (orch_tasks db) |>)
   ≤ running db + is_running (ot_Status t))%nat.
Proof.
  unfold running, with_status, is_running. cbn [orch_tasks set_field].
  rewrite (filter_perm _ _ _ (rows_insert (orch_tasks db) i t)).
  assert (H : (length (List.filter (fun t => bool_decide (ot_Status t = TaskStatusRunning))
      (task_rows (delete i (orch_tasks db)))) ≤
    length (List.filter (fun t => bool_decide (ot_Status t = TaskStatusRunning))
      (task_rows (orch_tasks db))))%nat).
  { destruct (orch_tasks db !! i) as [t0|] eqn:Hi.
    - rewrite (filter_perm _ _ _ (rows_lookup _ _ _ Hi)). cbn.
      destruct (bool_decide _); cbn; lia.
    - by rewrite delete_id. }
  cbn. destruct (bool_decide _); cbn; lia.
Qed.

Lemma elem_rows (m : gmap string OrchestratedTask) t :
  t ∈ task_rows m ↔ ∃ i, m !! i = Some t.
Proof.
  unfold task_rows. rewrite list_elem_of_fmap. split.
  - intros ([i t'] & -> & H%elem_of_map_to_list). eauto.
  - intros [i H%elem_of_map_to_list]. by exists (i, t).
Qed.

Lemma rows_forallb (p : OrchestratedTask → bool) (m : gmap string OrchestratedTask) :
  forallb p (task_rows m) = true → ∀ i t, m !! i = Some t → p t = true.
Proof.
  rewrite forallb_forall. intros H i t Ht. apply H, list_elem_of_In, elem_rows. eauto.
Qed.

(** ** Working on one task *)

Section work.
Context (db0 db1 : TODB).

(** Only the rows of [id] differ from [db1]. *)
Definition local_to (id : string) (db : TODB) : Prop :=
  ∀ j, j ≠ id → orch_tasks db !! j = orch_tasks db1 !! j ∧ orch_queue db !! j = orch_queue db1 !! j.

Definition work (id : string) (k : nat) (X : gmap string OrchestratedTask → Prop) (db : TODB)
    : Prop :=
  sound db0 k db ∧ local_to id db ∧ X (orch_tasks db).

Definition any (m : gmap string OrchestratedTask) : Prop := True.

Definition open_in (id : string) (m : gmap string OrchestratedTask) : Prop :=
  ∀ t, m !! id = Some t → IsTerminal (ot_Status t) = false.

Lemma work_any id k X db : work id k X db → work id k any db.
Proof using. intros (H1 & H2 & _). done. Qed.

Lemma work_more id k k' X db : (k ≤ k')%nat → work id k X db → work id k' X db.
Proof using. intros Hk ((Hw & Ht & Hr) & H2 & H3). split; [split; [done|split; [done|lia]]|done]. Qed.

(** Writing the row of a task that is open. *)
Lemma sound_write id k t db :
  ot_ID t = id → work id k (open_in id) db →
  work id (k + is_running (ot_Status t))
    (fun m => IsTerminal (ot_Status t) = false → open_in id m)
    (db <| orch_tasks := <[id := t]> (orch_tasks db) |>).
Proof using.
  intros Hid ((Hwf & Hkt & Hr) & Hloc & Ho). split; [split; [|split]|split].
  - split; cbn; [|apply Hwf]. intros j r. rewrite lookup_insert.
    case_decide as Hj; [intros [= <-]; congruence|apply Hwf].
  - intros j r Hj Ht. destruct (Hkt j r Hj Ht) as (r' & Hj' & Hs).
    cbn. rewrite lookup_insert. case_decide as E; [|eauto]. subst j.
    exfalso. apply Ho in Hj'. rewrite Hs in Hj'. congruence.
  - pose proof (running_insert db id t). lia.
  - intros j Hj. cbn. rewrite lookup_insert_ne by done. by apply Hloc.
  - intros Hnt r. cbn. rewrite lookup_insert_eq. by intros [= <-].
Qed.

Lemma ensures_Update id k t :
  ot_ID t = id →
  ensures (work id k (open_in id)) (store_Update t)
    (fun _ => work id (k + is_running (ot_Status t))
                (fun m => IsTerminal (ot_Status t) = false → open_in id m)).
Proof using.
  intros Hid. assert (Hsame : ∀ db, work id k (open_in id) db →
    work id (k + is_running (ot_Status t)) (fun m => IsTerminal (ot_Status t) = false → open_in id m) db).
  { intros db Hw. apply (work_more id k); [lia|].
    destruct Hw as (H1 & H2 & H3). split; [done|]. split; [done|]. auto. }
  eapply ensures_bind; [|intros r; apply ensures_ret; intros db Hdb; exact Hdb].
  apply (ensures_store _ _ (fun _ => _)). intros db Hw. split; [intros _; by apply Hsame|].
  intros a db'. destruct (negb _); [done|]. unfold update_row. rewrite Hid.
  destruct (orch_tasks db !! id) as [row|] eqn:Hrow; intros [= <- <-].
  - assert (work id (k + is_running (ot_Status t))
      (fun m => IsTerminal (ot_Status t) = false → open_in id m)
      (db <| orch_tasks := <[id := updated_row t row]> (orch_tasks db) |>)); [|done].
    apply (sound_write id k (updated_row t row)); [|done]. cbn. by apply Hw.
  - split; [|intros _]; by apply Hsame.
Qed.

Lemma ensures_Update_any id k t :
  ot_ID t = id → ot_Status t ≠ TaskStatusRunning →
  ensures (work id k (open_in id)) (store_Update t) (fun _ => work id k any).
Proof using.
  intros Hid Hs. eapply ensures_weaken; [by apply (ensures_Update id k)|done|].
  intros a db Hw. unfold is_running in Hw. rewrite bool_decide_false in Hw by done.
  rewrite Nat.add_0_r in Hw. by eapply work_any.
Qed.

Lemma ensures_Remove id k X : ensures (work id k X) (queue_Remove id) (fun _ => work id k X).
Proof using.
  eapply ensures_bind; [|intros r; apply ensures_ret; intros db Hdb; exact Hdb].
  apply (ensures_store _ _ (fun _ => _)). intros db Hw. split; [done|].
  intros a db' [= <- <-].
  assert (work id k X (db <| orch_queue := delete id (orch_queue db) |>)); [|done].
  destruct Hw as ((Hwf & Hkt & Hr) & Hloc & HX). split; [|split; [|done]].
  - split; [|split; [done|done]]. split; [apply Hwf|]. cbn. intros j en.
    rewrite lookup_delete. case_decide; [done|]. apply Hwf.
  - intros j Hj. cbn. rewrite lookup_delete_ne by done. by apply Hloc.
Qed.

Lemma ensures_Upsert id k X en :
  qe_TaskID en = id → ensures (work id k X) (queue_Upsert en) (fun _ => work id k X).
Proof using.
  intros Hid. eapply ensures_bind; [|intros r; apply ensures_ret; intros db Hdb; exact Hdb].
  apply (ensures_store _ _ (fun _ => _)). intros db Hw. split; [done|].
  intros a db'. rewrite Hid. destruct (orch_tasks db !! id) as [row|]; [|done]. intros [= <- <-].
  match goal with |- work _ _ _ ?d ∧ _ => assert (work id k X d) end; [|done].
  destruct Hw as ((Hwf & Hkt & Hr) & Hloc & HX). split; [|split; [|done]].
  - split; [|split; [done|done]]. split; [apply Hwf|]. cbn. intros j e'.
    rewrite lookup_insert. case_decide as E; [intros [= <-]; done|]. apply Hwf.
  - intros j Hj. cbn. rewrite lookup_insert_ne by done. by apply Hloc.
Qed.

Lemma ensures_recompute_task e input now k task :
  ot_Status task ≠ TaskStatusRunning →
  ensures (work (ot_ID task) k (open_in (ot_ID task))) (recompute_task e input now task)
    (fun _ => work (ot_ID task) k any).
Proof using.
  intros Hs. unfold recompute_task. destruct (IsExpired task now).
  { eapply ensures_bind; [apply ensures_ignore, (ensures_Update_any (ot_ID task)); done|].
    intros x. apply ensures_ignore, ensures_Remove. }
  rewrite bool_decide_false by done.
  destruct (_ && IsInCooldown task now); [apply ensures_ret; intros db; apply work_any|].
  set (task2 := if bool_decide _ then _ else _).
  assert (Hid : ot_ID task2 = ot_ID task) by (unfold task2; by case_bool_decide).
  assert (Hst : ot_Status task2 ≠ TaskStatusRunning) by (unfold task2; by case_bool_decide).
  eapply ensures_bind; [by apply (ensures_Update_any (ot_ID task))|]. intros [?|?]; [|by apply ensures_ret].
  eapply ensures_bind; [by apply (ensures_Upsert (ot_ID task))|].
  intros [?|?]; [apply ensures_audit|by apply ensures_ret].
Qed.

(** ** Dispatching one entry *)

(** What a dispatched task must have been. *)
Definition dispatchable (govMode : string) (t : OrchestratedTask) : Prop :=
  IsTerminal (ot_Status t) = false ∧ ot_Status t ≠ TaskStatusRunning ∧
  fleb BlockedRisk (ot_RiskLevel t) = false ∧
  (govMode = "supervised" → fltb HighRiskThreshold (ot_RiskLevel t) = false).

Definition same_row (id : string) (m : gmap string OrchestratedTask) : Prop :=
  m !! id = orch_tasks db1 !! id.

Lemma ensures_Get id k :
  ensures (work id k (same_row id)) (store_Get id)
    (fun r db => (∀ t, r = Ok t → orch_tasks db1 !! id = Some t ∧ ot_ID t = id) ∧
                 work id k (same_row id) db).
Proof using.
  eapply ensures_bind.
  - apply (ensures_store _ _ (fun r db =>
      (∀ t, r = Ok (Some t) → orch_tasks db1 !! id = Some t ∧ ot_ID t = id) ∧
      work id k (same_row id) db)).
    intros db Hw. split; [by intros e|]. intros a db' [= <- <-]. split; [|by intros e].
    split; [|done]. intros t [= Ht]. split; [|by eapply to_ids; [apply Hw|exact Ht]].
    destruct Hw as (_ & _ & HX). unfold same_row in HX. congruence.
  - intros r. apply ensures_ret. intros db [Hr Hw]. split; [|done].
    destruct r as [[t|]|e]; try done. intros t' [= <-]. by apply Hr.
Qed.

(** Finishing after the execution loop answered. *)
Lemma ensures_outcome e task outcome now id k :
  ot_ID task = id →
  ensures (work id k (open_in id)) (applyExecutionOutcome e task outcome now)
    (fun _ => work id k any).
Proof using.
  intros Hid. unfold applyExecutionOutcome.
  assert (Hfin : ∀ t ev, ot_ID t = id → ot_Status t ≠ TaskStatusRunning →
    ensures (work id k (open_in id))
      (let! _ := ignore (store_Update t) in
       let! _ := ignore (queue_Remove (ot_ID task)) in auditEvent e ev (ot_ID task))
      (fun _ => work id k any)).
  { intros t ev Ht Hs. rewrite Hid.
    eapply ensures_bind; [apply ensures_ignore; by apply ensures_Update_any|]. intros ?.
    eapply ensures_bind; [apply ensures_ignore, ensures_Remove|]. intros ?. apply ensures_audit. }
  destruct (_ || _); [apply ensures_ret; intros db; apply work_any|].
  destruct (bool_decide _); [by apply Hfin|]. destruct (_ || _); by apply Hfin.
Qed.

Lemma ensures_pause e now task id k :
  ot_ID task = id → ensures (work id k (open_in id)) (pause_task e now task) (fun _ => work id k any).
Proof using.
  intros Hid. unfold pause_task. rewrite Hid.
  eapply ensures_bind; [apply ensures_ignore; by apply (ensures_Update_any id)|]. intros ?.
  eapply ensures_bind; [apply ensures_ignore, ensures_Remove|]. intros ?. apply ensures_audit.
Qed.

Definition dispatch_post (govMode id : string) (k : nat) (result : DispatchResult)
    (out : DispatchResult * bool) (db : TODB) : Prop :=
  work id (k + if snd out then 1 else 0) any db ∧
  dr_Dispatched (fst out) = dr_Dispatched result ++ (if snd out then [id] else []) ∧
  (snd out = true → ∃ t, orch_tasks db1 !! id = Some t ∧ dispatchable govMode t).

Lemma post_skip govMode id k result result' X :
  dr_Dispatched result' = dr_Dispatched result →
  ensures (work id k X) (retS (result', false)) (dispatch_post govMode id k result).
Proof using.
  intros Hr. apply ensures_ret. intros db Hw. split; [|split; [|done]]; cbn.
  - rewrite Nat.add_0_r. by eapply work_any.
  - by rewrite app_nil_r.
Qed.

Lemma open_same id task m :
  orch_tasks db1 !! id = Some task → IsTerminal (ot_Status task) = false → same_row id m →
  open_in id m.
Proof using. unfold same_row. intros H1 Ht Hs t Hm. rewrite Hs, H1 in Hm. by injection Hm as <-. Qed.

Lemma work_open id k task db :
  orch_tasks db1 !! id = Some task → IsTerminal (ot_Status task) = false →
  work id k (same_row id) db → work id k (open_in id) db.
Proof using. intros H1 Ht (Hs & Hl & HX). split; [done|]. split; [done|]. by eapply open_same. Qed.

Lemma ensures_dispatch_run e govMode now task run result id k :
  eg_executionLoop e = Some run → orch_tasks db1 !! id = Some task → ot_ID task = id →
  dispatchable govMode task →
  ensures (work id k (open_in id))
    (let! out := CreateAndRun run (ot_Goal task) in
     match out with
     | Err execErr =>
         let! _ := ignore (store_Update
           (task <| ot_Status := TaskStatusFailed |> <| ot_LastError := error_text execErr |>
                 <| ot_AttemptCount := wrap64 (ot_AttemptCount task + 1) |>
                 <| ot_CompletedAt := Some now |> <| ot_UpdatedAt := now |>)) in
         let! _ := ignore (queue_Remove (ot_ID task)) in
         let! _ := auditEvent e "task.failed" (ot_ID task) in
         retS (result <| dr_Skipped := dr_Skipped result ++ [ot_ID task] |>, false)
     | Ok outcome =>
         let task' := task <| ot_Status := TaskStatusRunning |>
                           <| ot_ExecutionTaskID := do_ExecutionID outcome |>
                           <| ot_AttemptCount := wrap64 (ot_AttemptCount task + 1) |>
                           <| ot_UpdatedAt := now |> in
         let! _ := ignore (store_Update task') in
         let! _ := ignore (queue_Remove (ot_ID task)) in
         let! _ := auditEvent e "task.dispatched" (ot_ID task) in
         let! _ := applyExecutionOutcome e task' outcome now in
         retS (result <| dr_Dispatched := dr_Dispatched result ++ [ot_ID task] |>, true)
     end) (dispatch_post govMode id k result).
Proof using.
  intros He Hrow Hid Hd. eapply ensures_bind; [by apply ensures_pure|]. intros [outcome|err].
  - cbn zeta. eapply ensures_bind; [apply ensures_ignore, (ensures_Update id k); done|]. intros ?.
    rewrite Hid. eapply ensures_bind; [apply ensures_ignore, ensures_Remove|]. intros ?.
    eapply ensures_bind; [apply ensures_audit|]. intros ?.
    eapply ensures_bind.
    { eapply ensures_weaken; [by apply (ensures_outcome _ _ _ _ id (k + 1))| |intros ? ? H; exact H].
      intros db (Hs & Hl & HX). split; [done|]. split; [done|]. by apply HX. }
    intros ?. apply ensures_ret. intros db Hw. split; [done|]. split; [done|]. eauto.
  - eapply ensures_bind; [apply ensures_ignore; by apply (ensures_Update_any id k)|]. intros ?.
    rewrite Hid. eapply ensures_bind; [apply ensures_ignore, ensures_Remove|]. intros ?.
    eapply ensures_bind; [apply ensures_audit|]. intros ?. by apply post_skip.
Qed.

Lemma ensures_dispatch_entry e govMode now entry result k :
  let id := qe_TaskID entry in
  ensures (work id k (same_row id)) (dispatch_entry e govMode now entry result)
    (dispatch_post govMode id k result).
Proof using.
  intros id. unfold dispatch_entry. eapply ensures_bind; [apply ensures_Get|].
  intros [task|err]; apply ensures_fact; intros Hrow.
  2:{ eapply ensures_bind; [apply ensures_ignore, ensures_Remove|]. intros ?. by apply post_skip. }
  destruct (Hrow task eq_refl) as [Hdb1 Hid]. fold id in Hdb1, Hid.
  destruct (IsTerminal (ot_Status task) || _) eqn:E1.
  { rewrite Hid. eapply ensures_bind; [apply ensures_ignore, ensures_Remove|]. intros ?. by apply post_skip. }
  apply orb_false_iff in E1 as [Ht Hr]. apply bool_decide_eq_false in Hr.
  eapply ensures_weaken with (P' := work id k (open_in id));
    [|intros db; by apply (work_open id k task)|intros ? ? H; exact H].
  destruct (fleb BlockedRisk (ot_RiskLevel task)) eqn:E2.
  { eapply ensures_bind; [by apply (ensures_pause _ _ _ id)|]. intros ?. by apply post_skip. }
  destruct (fltb HighRiskThreshold (ot_RiskLevel task) && _) eqn:E3.
  { eapply ensures_bind; [by apply (ensures_pause _ _ _ id)|]. intros ?. by apply post_skip. }
  destruct (eg_executionLoop e) as [run|] eqn:He; [|by apply post_skip].
  apply ensures_dispatch_run; [done..|]. repeat split; try done.
  intros ->. by rewrite bool_decide_true, andb_true_r in E3.
Qed.
End work.

(** ** The lists a call works through *)

Definition listed (st : TaskStatus) (db : TODB) : list OrchestratedTask :=
  take (clamp_limit MaxTasksInQueue) (SliceStable newer (with_status st (orch_tasks db))).

Lemma elem_with_status st m t :
  t ∈ with_status st m ↔ ot_Status t = st ∧ ∃ i, m !! i = Some t.
Proof.
  unfold with_status. rewrite list_elem_of_In, filter_In, <- list_elem_of_In, elem_rows,
    bool_decide_eq_true. tauto.
Qed.

Lemma take_elem {A} n (l : list A) x : x ∈ take n l → x ∈ l.
Proof. intros H. rewrite <- (take_drop n l). apply elem_of_app. by left. Qed.

Lemma listed_elem st db t :
  todb_wf db → t ∈ listed st db → ot_Status t = st ∧ orch_tasks db !! ot_ID t = Some t.
Proof.
  intros Hwf Ht%take_elem. rewrite SliceStable_perm in Ht. apply elem_with_status in Ht as [Hs [i Hi]].
  split; [done|]. by rewrite (to_ids _ Hwf i t Hi).
Qed.

Lemma NoDup_ids db l :
  todb_wf db → NoDup l → (∀ t, t ∈ l → orch_tasks db !! ot_ID t = Some t) → NoDup (ot_ID <$> l).
Proof.
  intros Hwf Hnd Hl. apply NoDup_fmap_2_strong; [|done].
  intros x y Hx%Hl Hy%Hl Hxy. rewrite Hxy in Hx. congruence.
Qed.

Lemma NoDup_rows db : todb_wf db → NoDup (task_rows (orch_tasks db)).
Proof.
  intros Hwf. unfold task_rows. apply NoDup_fmap_2_strong; [|apply NoDup_map_to_list].
  intros [i t] [j t'] Hi%elem_of_map_to_list Hj%elem_of_map_to_list; cbn. intros ->.
  apply (to_ids _ Hwf) in Hi, Hj. congruence.
Qed.

Lemma NoDup_filter_bool {A} (p : A → bool) l : NoDup l → NoDup (List.filter p l).
Proof. rewrite !NoDup_ListNoDup. apply List.NoDup_filter. Qed.

Lemma NoDup_take {A} n (l : list A) : NoDup l → NoDup (take n l).
Proof. intros H. rewrite <- (take_drop n l) in H. by apply NoDup_app in H as [H _]. Qed.

Lemma NoDup_listed st db : todb_wf db → NoDup (listed st db).
Proof.
  intros Hwf. apply NoDup_take. rewrite SliceStable_perm.
  by apply NoDup_filter_bool, NoDup_rows.
Qed.

(** The tasks [RecomputePriorities] goes through. *)
Definition recomputed (db : TODB) : list OrchestratedTask :=
  listed TaskStatusPending db ++ listed TaskStatusQueued db ++ listed TaskStatusPaused db.

Lemma recomputed_elem db t :
  todb_wf db → t ∈ recomputed db →
  ot_Status t ∈ [TaskStatusPending; TaskStatusQueued; TaskStatusPaused] ∧
  orch_tasks db !! ot_ID t = Some t.
Proof.
  intros Hwf. unfold recomputed. rewrite !elem_of_app.
  intros [H|[H|H]]; apply (listed_elem _ _ _ Hwf) in H as [-> H]; split; try done;
    by apply (bool_decide_unpack _).
Qed.

Lemma NoDup_recomputed db : todb_wf db → NoDup (ot_ID <$> recomputed db).
Proof.
  intros Hwf. apply (NoDup_ids db); [done| |intros t Ht; by apply recomputed_elem in Ht as [_ Ht]].
  assert (Hdis : ∀ st st' t, st ≠ st' → t ∈ listed st db → t ∉ listed st' db).
  { intros st st' t Hne H1 H2. apply (listed_elem _ _ _ Hwf) in H1 as [H1 _], H2 as [H2 _]. congruence. }
  apply NoDup_app. split; [by apply NoDup_listed|]. split.
  { intros t Ht. rewrite elem_of_app. intros [H|H]; refine (Hdis _ _ t _ Ht H); done. }
  apply NoDup_app. split; [by apply NoDup_listed|]. split; [|by apply NoDup_listed].
  intros t Ht H. refine (Hdis _ _ t _ Ht H); done.
Qed.

Lemma store_read {A} (f : TODB → A) s :
  let out := store_call (fun db => Ok (f db, db)) s in
  to_db (snd out) = to_db s ∧ ∀ a, fst out = Ok a → a = f (to_db s).
Proof.
  unfold store_call. destruct s as [db ? ? ? [|[] fs] ?]; cbn; split; try done; by intros a [= <-].
Qed.

Lemma ListByStatus_spec st s :
  let out := store_ListByStatus st MaxTasksInQueue s in
  to_db (snd out) = to_db s ∧ ∀ l, fst out = Ok l → l = listed st (to_db s).
Proof.
  unfold store_ListByStatus. cbn zeta. rewrite bindS_run. cbn [retS fst snd].
  destruct (store_read (fun db => take (clamp_limit MaxTasksInQueue)
    (SliceStable newer (with_status st (orch_tasks db)))) s) as [H1 H2].
  split; [done|]. intros l. destruct (fst (store_call _ s)) as [a|]; cbn; [|done].
  intros [= <-]. by apply H2.
Qed.

(** ** Whole calls *)

Lemma sound_refl db : todb_wf db → sound db (running db) db.
Proof. intros H. split; [done|]. split; [|done]. intros i t Hi _. eauto. Qed.

Lemma nonterminal_listed t :
  ot_Status t ∈ [TaskStatusPending; TaskStatusQueued; TaskStatusPaused] →
  IsTerminal (ot_Status t) = false ∧ ot_Status t ≠ TaskStatusRunning.
Proof.
  rewrite !elem_of_cons. intros [-> |[-> |[-> |[]%elem_of_nil]]]; done.
Qed.

Lemma recompute_loop_sound db0 e input now l k s :
  NoDup (ot_ID <$> l) → (∀ t, t ∈ l → ot_Status t ≠ TaskStatusRunning) →
  sound db0 k (to_db s) → (∀ t, t ∈ l → open_in (ot_ID t) (orch_tasks (to_db s))) →
  sound db0 k (to_db (snd (forS (recompute_task e input now) l s))).
Proof.
  revert s. induction l as [|t l IH]; intros s Hnd Hst Hs Ho; [done|].
  cbn [forS]. rewrite bindS_run. cbn in Hnd. apply NoDup_cons in Hnd as [Hnin Hnd].
  destruct (ensures_recompute_task db0 (to_db s) e input now k t
    (Hst t ltac:(apply elem_of_cons; by left)) s) as (Hs1 & Hl1 & _).
  { split; [done|]. split; [done|]. apply Ho, elem_of_cons. by left. }
  apply IH; [done| |done|].
  - intros t' Ht'. apply Hst, elem_of_cons. by right.
  - intros t' Ht' r Hr. destruct (Hl1 (ot_ID t')) as [E _].
    + intros E. apply Hnin. rewrite <- E. by apply list_elem_of_fmap_2.
    + rewrite E in Hr. eapply Ho; [apply elem_of_cons; right; exact Ht'|exact Hr].
Qed.

Lemma RecomputePriorities_sound e s :
  todb_wf (to_db s) →
  sound (to_db s) (running (to_db s)) (to_db (snd (RecomputePriorities e s))).
Proof.
  intros Hwf. pose proof (sound_refl _ Hwf) as Hs. unfold RecomputePriorities.
  rewrite (bindS_run nowUTC). cbn [nowUTC fst snd]. rewrite bindS_run.
  destruct (ListByStatus_spec TaskStatusPending s) as [E1 R1].
  destruct (store_ListByStatus TaskStatusPending _ s) as [[l1|] s1]; cbn [fst snd] in *;
    [|cbn; by rewrite E1].
  rewrite bindS_run. destruct (ListByStatus_spec TaskStatusQueued s1) as [E2 R2].
  destruct (store_ListByStatus TaskStatusQueued _ s1) as [[l2|] s2]; cbn [fst snd] in *;
    [|cbn; by rewrite E2, E1].
  rewrite bindS_run. destruct (ListByStatus_spec TaskStatusPaused s2) as [E3 R3].
  destruct (store_ListByStatus TaskStatusPaused _ s2) as [[l3|] s3]; cbn [fst snd] in *;
    [|cbn; by rewrite E3, E2, E1].
  rewrite (R1 _ eq_refl), (R2 _ eq_refl), (R3 _ eq_refl), E2, E1.
  fold (recomputed (to_db s)). rewrite bindS_run.
  match goal with |- sound ?d ?k (to_db (snd (?c ?x))) =>
    assert (Hx : sound d k (to_db x)) end.
  { apply recompute_loop_sound; rewrite ?E3, ?E2, ?E1; [by apply NoDup_recomputed| |done|].
    - intros t Ht. apply (recomputed_elem _ _ Hwf) in Ht as [Ht _]. by apply nonterminal_listed.
    - intros t Ht r Hr. apply (recomputed_elem _ _ Hwf) in Ht as [Ht Hdb].
      rewrite Hdb in Hr. injection Hr as <-. by apply nonterminal_listed. }
  revert Hx. generalize (snd (forS (recompute_task e (gatherScoringInput e) (to_now s))
    (recomputed (to_db s)) s3)). intros x Hx.
  refine ((_ : ensures (sound (to_db s) (running (to_db s))) _ (fun _ => sound _ _)) x Hx).
  eapply ensures_bind; [apply ensures_audit|]. intros ?.
  eapply ensures_bind; [apply ensures_pure|intros ?; apply ensures_ret; intros db Hdb; exact Hdb].
  intros y. unfold ignore, queue_Count. rewrite !bindS_run. cbn [retS snd]. apply store_read.
Qed.

Lemma sound_more db0 k k' db : (k ≤ k')%nat → sound db0 k db → sound db0 k' db.
Proof. intros Hk (H1 & H2 & H3). split; [done|]. split; [done|lia]. Qed.

Lemma dispatch_loop_sound db0 db1 e govMode now entries left result k s :
  NoDup (qe_TaskID <$> entries) → sound db0 k (to_db s) →
  (∀ en, en ∈ entries → same_row db1 (qe_TaskID en) (orch_tasks (to_db s))) →
  let out := dispatch_loop e govMode now entries left result s in
  sound db0 (k + left) (to_db (snd out)) ∧
  ∃ new, dr_Dispatched (fst out) = dr_Dispatched result ++ new ∧ (length new ≤ left)%nat ∧
         ∀ id, id ∈ new → ∃ t, orch_tasks db1 !! id = Some t ∧ dispatchable govMode t.
Proof.
  revert left result k s. induction entries as [|en entries IH]; intros left result k s Hnd Hs Hrow.
  { cbn. split; [apply (sound_more _ k); [lia|done]|]. exists []. rewrite app_nil_r.
    split; [done|]. split; [cbn; lia|]. by intros id ?%elem_of_nil. }
  destruct left as [|left].
  { cbn. split; [apply (sound_more _ k); [lia|done]|]. exists []. rewrite app_nil_r.
    split; [done|]. split; [cbn; lia|]. by intros id ?%elem_of_nil. }
  cbn [dispatch_loop]. cbn in Hnd. apply NoDup_cons in Hnd as [Hnin Hnd].
  pose proof (Hrow en ltac:(apply elem_of_cons; by left)) as Hen. unfold same_row in Hen.
  destruct (ensures_dispatch_entry db0 (to_db s) e govMode now en result k s)
    as ((Hs1 & Hloc & _) & Hres & Hok); [split; [done|split; [by intros j|done]]|].
  cbn zeta. rewrite bindS_run.
  destruct (dispatch_entry e govMode now en result s) as [[result' dispatched] s'].
  cbn [fst snd] in *.
  assert (Hrow' : ∀ en', en' ∈ entries → same_row db1 (qe_TaskID en') (orch_tasks (to_db s'))).
  { intros en' Hin. unfold same_row. destruct (Hloc (qe_TaskID en')) as [-> _].
    - intros E. apply Hnin. rewrite <- E. by apply list_elem_of_fmap_2.
    - apply Hrow, elem_of_cons. by right. }
  destruct (IH (if dispatched then left else S left) result'
    (k + (if dispatched then 1 else 0))%nat s' Hnd Hs1 Hrow') as (Hs2 & new & Hd & Hlen & Hnew).
  split; [eapply sound_more; [|exact Hs2]; destruct dispatched; lia|].
  exists ((if dispatched then [qe_TaskID en] else []) ++ new).
  rewrite Hd, Hres, <- app_assoc. split; [done|].
  split; [rewrite length_app; destruct dispatched; cbn; lia|].
  intros id [Hid|Hid]%elem_of_app; [|by apply Hnew].
  destruct dispatched; [|by apply elem_of_nil in Hid].
  apply list_elem_of_singleton in Hid as ->. rewrite <- Hen. by apply Hok.
Qed.

(** How many tasks [Dispatch] may start. *)
Definition dispatch_limit (e : Engine) (db : TODB) : nat :=
  Nat.min (if ShouldReduceDispatch (default f0 (eg_capacity e)) then 1 else 3) (2 - running db).

Lemma NoDup_entries db n :
  todb_wf db →
  NoDup (qe_TaskID <$> take n (SliceStable queue_before (queue_rows (orch_queue db)))).
Proof.
  intros Hwf. apply NoDup_fmap_2_strong.
  - intros x y Hx%take_elem Hy%take_elem. rewrite SliceStable_perm in Hx, Hy.
    unfold queue_rows in *. apply list_elem_of_fmap in Hx as ([i ?] & -> & Hx%elem_of_map_to_list).
    apply list_elem_of_fmap in Hy as ([j ?] & -> & Hy%elem_of_map_to_list). cbn in *.
    rewrite (to_keys _ Hwf _ _ Hx), (to_keys _ Hwf _ _ Hy). intros ->. congruence.
  - apply NoDup_take. rewrite SliceStable_perm. unfold queue_rows.
    apply NoDup_fmap_2_strong; [|apply NoDup_map_to_list].
    intros [i ?] [j ?] Hi%elem_of_map_to_list Hj%elem_of_map_to_list; cbn. intros ->.
    f_equal. by rewrite <- (to_keys _ Hwf _ _ Hi), <- (to_keys _ Hwf _ _ Hj).
Qed.

Lemma Dispatch_spec e s :
  todb_wf (to_db s) →
  let out := Dispatch e s in
  let db := to_db s in
  sound db (Nat.max 2 (running db)) (to_db (snd out)) ∧
  (length (dr_Dispatched (fst (fst out))) ≤ dispatch_limit e db)%nat ∧
  ∀ id, id ∈ dr_Dispatched (fst (fst out)) →
    ∃ t, orch_tasks db !! id = Some t ∧ dispatchable (getGovernanceMode e) t.
Proof.
  intros Hwf out db. pose proof (sound_refl _ Hwf) as Hs0. fold db in Hs0.
  assert (Hs : sound db (Nat.max 2 (running db)) db) by (eapply sound_more; [|exact Hs0]; lia).
  assert (Hstop : ∀ s' err, to_db s' = db →
    let out := (mkDispatchResult [] [] [], Some err : option error, s') in
    sound db (Nat.max 2 (running db)) (to_db (snd out)) ∧
    (length (dr_Dispatched (fst (fst out))) ≤ dispatch_limit e db)%nat ∧
    ∀ id, id ∈ dr_Dispatched (fst (fst out)) →
      ∃ t, orch_tasks db !! id = Some t ∧ dispatchable (getGovernanceMode e) t).
  { intros s' err E. cbn. rewrite E. split; [done|]. split; [lia|]. by intros id ?%elem_of_nil. }
  unfold out, Dispatch. case_bool_decide as Hfr; [by apply Hstop|]. rewrite bindS_run.
  unfold store_CountByStatus. rewrite bindS_run.
  destruct (store_read (fun db => Z.of_nat (length (with_status TaskStatusRunning (orch_tasks db)))) s)
    as [E1 R1].
  destruct (store_call _ s) as [[c|err] s1]; cbn [retS wrap_err fst snd] in *; [|by apply Hstop].
  rewrite (R1 c eq_refl). fold (running (to_db s)). fold db.
  case_bool_decide as Hslots; [exact (Hstop s1 ErrMaxRunning E1)|]. rewrite bindS_run.
  set (m := if bool_decide (_ < _) then _ else _).
  assert (Hm : Z.to_nat m = dispatch_limit e db ∧ 0 < m).
  { unfold m, dispatch_limit, MaxRunningTasks, MaxTasksPerCycle in *.
    destruct (ShouldReduceDispatch _); case_bool_decide; lia. }
  unfold queue_List. rewrite bindS_run.
  destruct (store_read (fun db => take (clamp_limit (m * 2))
    (SliceStable queue_before (queue_rows (orch_queue db)))) s1) as [E2 R2].
  destruct (store_call _ s1) as [[l|err] s2]; cbn [retS wrap_err fst snd] in *;
    [|exact (Hstop s2 err (eq_trans E2 E1))].
  rewrite (bindS_run nowUTC). cbn [nowUTC fst snd]. rewrite bindS_run. cbn [retS fst snd].
  pose proof (R2 l eq_refl) as Hl. rewrite E1 in Hl.
  assert (E : to_db s2 = db) by (by rewrite E2, E1).
  destruct (dispatch_loop_sound db db e (getGovernanceMode e) (to_now s2) l (Z.to_nat m)
    (mkDispatchResult [] [] []) (running db) s2) as (Hs2 & new & Hd & Hlen & Hnew).
  - rewrite Hl. by apply NoDup_entries.
  - by rewrite E.
  - intros en _. unfold same_row. by rewrite E.
  - split; [eapply sound_more; [|exact Hs2]; destruct Hm as [-> _]; unfold dispatch_limit; lia|].
    rewrite Hd. cbn. split; [lia|done].
Qed.

Lemma work_start db0 db id k :
  sound db0 k db → work db0 db id k (same_row db id) db.
Proof. intros Hs. split; [done|]. split; [by intros j|done]. Qed.

(** A change of status to something the table allows. *)
Lemma ensures_transition db0 db1 e id k to event :
  to ≠ TaskStatusRunning →
  ensures (work db0 db1 id k (same_row db1 id)) (transitionTask e id to event)
    (fun _ => work db0 db1 id k any).
Proof.
  intros Hto. unfold transitionTask. eapply ensures_bind; [apply ensures_Get|].
  intros [task|err]; apply ensures_fact; intros Hrow; [|apply ensures_ret; intros db; apply work_any].
  destruct (Hrow task eq_refl) as [Hdb1 Hid].
  destruct (ValidateTransition (ot_Status task) to) eqn:Hv; cbn [negb];
    [|apply ensures_ret; intros db; apply work_any].
  assert (Ht : IsTerminal (ot_Status task) = false) by (by destruct (ot_Status task)).
  eapply ensures_bind; [apply ensures_now|]. intros now.
  eapply ensures_bind.
  { eapply ensures_weaken; [by apply (ensures_Update_any db0 db1 id k)| |intros ? ? H; exact H].
    intros db. by apply (work_open db0 db1 id k task). }
  intros [?|err]; [|by apply ensures_ret].
  eapply ensures_bind with (Q := fun _ => work db0 db1 id k any).
  { destruct (_ || _); [apply ensures_ignore, ensures_Remove|by apply ensures_ret]. }
  intros ?. eapply ensures_bind; [apply ensures_audit|]. intros ?. by apply ensures_ret.
Qed.

Lemma ensures_FailTaskWithReason db0 db1 e id k reason :
  ensures (work db0 db1 id k (same_row db1 id)) (FailTaskWithReason e id reason)
    (fun _ => work db0 db1 id k any).
Proof.
  unfold FailTaskWithReason. eapply ensures_bind; [apply ensures_Get|].
  intros [task|err]; apply ensures_fact; intros Hrow; [|apply ensures_ret; intros db; apply work_any].
  destruct (Hrow task eq_refl) as [Hdb1 Hid].
  destruct (ValidateTransition (ot_Status task) _) eqn:Hv; cbn [negb];
    [|apply ensures_ret; intros db; apply work_any].
  assert (Ht : IsTerminal (ot_Status task) = false) by (by destruct (ot_Status task)).
  eapply ensures_bind; [apply ensures_now|]. intros now.
  eapply ensures_bind.
  { eapply ensures_weaken; [by apply (ensures_Update_any db0 db1 id k)| |intros ? ? H; exact H].
    intros db. by apply (work_open db0 db1 id k task). }
  intros [?|err]; [|by apply ensures_ret].
  eapply ensures_bind; [apply ensures_ignore, ensures_Remove|]. intros ?.
  eapply ensures_bind; [apply ensures_audit|]. intros ?. by apply ensures_ret.
Qed.

(** A write that keeps the status of a row. *)
Lemma running_same db i t0 t :
  orch_tasks db !! i = Some t0 → ot_Status t = ot_Status t0 →
  running (db <| orch_tasks := <[i := t]> (orch_tasks db) |>) = running db.
Proof.
  intros Hi Hs. unfold running, with_status. cbn [orch_tasks set_field].
  rewrite (filter_perm _ _ _ (rows_insert (orch_tasks db) i t)),
    (filter_perm _ _ _ (rows_lookup _ _ _ Hi)).
  cbn [List.filter]. rewrite Hs. by destruct (bool_decide _).
Qed.

Lemma sound_touch db0 k id t0 t db :
  sound db0 k db → orch_tasks db !! id = Some t0 → ot_ID t = ot_ID t0 → ot_Status t = ot_Status t0 →
  sound db0 k (db <| orch_tasks := <[id := t]> (orch_tasks db) |>).
Proof.
  intros (Hwf & Hkt & Hr) Hrow Hid Hs. split; [|split].
  - split; cbn; [|apply Hwf]. intros j r. rewrite lookup_insert.
    case_decide as Hj; [|apply Hwf]. subst j. intros [= <-]. rewrite Hid. by apply Hwf.
  - intros j r Hj Ht. destruct (Hkt j r Hj Ht) as (r' & Hj' & Hs').
    cbn. rewrite lookup_insert. case_decide as E; [|eauto]. subst j. exists t. split; [done|]. congruence.
  - by erewrite running_same.
Qed.

Lemma ensures_touch {B} db0 k id f (g : res unit → res B) (ok : bool) :
  (∀ t, ot_ID (f t) = ot_ID t ∧ ot_Status (f t) = ot_Status t) →
  ensures (sound db0 k)
    (let! r := store_call (fun db => if ok then update_row id f db
                                     else Err (Errorf "integer out of range")) in
     retS (g r)) (fun _ => sound db0 k).
Proof.
  intros Hf. eapply ensures_bind; [|intros r; apply ensures_ret; intros db Hdb; exact Hdb].
  apply (ensures_store _ _ (fun _ => _)). intros db Hs. split; [done|].
  intros a db'. destruct ok; [|done]. unfold update_row.
  destruct (orch_tasks db !! id) as [t|] eqn:Hrow; intros [= <- <-]; [|done].
  match goal with |- sound _ _ ?d ∧ _ => assert (sound db0 k d) end; [|done].
  destruct (Hf t). by eapply sound_touch.
Qed.

Section calls.
Context {U : UuidPkg}.

Lemma ensures_CreateTask db0 k e source goal u v r st :
  ensures (sound db0 k) (CreateTask e source goal u v r st) (fun _ => sound db0 k).
Proof using.
  unfold CreateTask. eapply ensures_bind; [apply ensures_now|]. intros now.
  eapply ensures_bind; [by apply ensures_pure|]. intros id.
  eapply ensures_bind with (Q := fun _ => sound db0 k).
  - eapply ensures_bind; [|intros x; apply ensures_ret; intros db Hdb; exact Hdb].
    apply (ensures_store _ _ (fun _ => _)). intros db Hs. split; [intros ?; exact Hs|].
    intros a db'. cbn. destruct (orch_tasks db !! id) as [t|] eqn:Hrow; intros [= <- <-].
    match goal with |- sound _ _ ?d ∧ _ => assert (sound db0 k d) end; [|done].
    match goal with |- context [<[_ := ?t]> (orch_tasks db)] =>
      destruct (sound_write db0 db id k t db) as (H & _ & _) end; [done| |].
    + split; [done|]. split; [by intros j|]. intros t Ht. congruence.
    + refine (sound_more _ _ _ _ _ H). unfold is_running. rewrite bool_decide_false by done. lia.
  - intros [?|?]; [|by apply ensures_ret].
    eapply ensures_bind; [apply ensures_audit|]. intros ?. by apply ensures_ret.
Qed.

(** ** Sequences of calls *)

Inductive TOOp : Type :=
| OpCreateTask (e : Engine) (source goal : string) (urgency value risk : float64) (strategy : string)
| OpRecompute (e : Engine)
| OpDispatch (e : Engine)
| OpCompleteTask (e : Engine) (id : string)
| OpFailTask (e : Engine) (id : string)
| OpFailTaskWithReason (e : Engine) (id reason : string)
| OpPauseTask (e : Engine) (id : string)
| OpSetActuation (id decision : string)
| OpSetExecution (id task : string)
| OpSetOutcome (id otype lastError : string) (attempts : Z).

Definition run_to (op : TOOp) (s : TOState) : TOState :=
  match op with
  | OpCreateTask e src goal u v r st => snd (CreateTask e src goal u v r st s)
  | OpRecompute e => snd (RecomputePriorities e s)
  | OpDispatch e => snd (Dispatch e s)
  | OpCompleteTask e id => snd (CompleteTask e id s)
  | OpFailTask e id => snd (FailTask e id s)
  | OpFailTaskWithReason e id reason => snd (FailTaskWithReason e id reason s)
  | OpPauseTask e id => snd (PauseTask e id s)
  | OpSetActuation id d => snd (store_SetActuationDecisionID id d s)
  | OpSetExecution id t => snd (store_SetExecutionTaskID id t s)
  | OpSetOutcome id ty err n => snd (store_SetOutcome id ty err n s)
  end.

(** A call, or the clock and the faults to come changing. *)
Inductive to_step : TOState → TOState → Prop :=
| to_call op s : to_step s (run_to op s)
| to_outside s s' : to_db s' = to_db s → to_step s s'.

Lemma to_step_sound s s' :
  to_step s s' → todb_wf (to_db s) → (running (to_db s) ≤ 2)%nat → sound (to_db s) 2 (to_db s').
Proof using.
  intros Hstep Hwf Hr.
  assert (Hs : sound (to_db s) 2 (to_db s)) by (eapply sound_more; [exact Hr|by apply sound_refl]).
  destruct Hstep as [op s|s s' ->]; [|done].
  assert (Htr : ∀ e id to ev, to ≠ TaskStatusRunning →
    sound (to_db s) 2 (to_db (snd (transitionTask e id to ev s)))).
  { intros e id to ev Hto.
    by apply (ensures_transition (to_db s) (to_db s) e id 2 to ev Hto s), work_start. }
  destruct op; cbn [run_to]; try by apply Htr.
  - by apply (ensures_CreateTask (to_db s) 2).
  - eapply sound_more; [exact Hr|by apply RecomputePriorities_sound].
  - eapply sound_more; [|by apply Dispatch_spec]. lia.
  - by apply (ensures_FailTaskWithReason (to_db s) (to_db s) e id 2 reason s), work_start.
  - unfold store_SetActuationDecisionID. rewrite (bindS_run nowUTC).
    by apply (ensures_touch (to_db s) 2 _ _ _ true).
  - unfold store_SetExecutionTaskID. rewrite (bindS_run nowUTC).
    by apply (ensures_touch (to_db s) 2 _ _ _ true).
  - unfold store_SetOutcome. rewrite (bindS_run nowUTC). destruct (in_int4 attempts); cbn [negb].
    + by apply (ensures_touch (to_db s) 2 _ _ _ true).
    + by apply (ensures_touch (to_db s) 2 id (fun t => t) _ false).
Qed.

Lemma keeps_terminal_trans db1 db2 db3 :
  keeps_terminal db1 db2 → keeps_terminal db2 db3 → keeps_terminal db1 db3.
Proof using.
  intros H12 H23 i t Hi Ht. destruct (H12 i t Hi Ht) as (t' & Hi' & Hs').
  destruct (H23 i t' Hi') as (t'' & Hi'' & Hs''); [by rewrite Hs'|]. exists t''. split; [done|congruence].
Qed.

Lemma to_steps_sound s s' :
  rtc to_step s s' → todb_wf (to_db s) → (running (to_db s) ≤ 2)%nat → sound (to_db s) 2 (to_db s').
Proof using.
  induction 1 as [s|s s1 s2 H1 _ IH]; intros Hwf Hr.
  - eapply sound_more; [exact Hr|by apply sound_refl].
  - destruct (to_step_sound s s1 H1 Hwf Hr) as (Hwf1 & Hk1 & Hr1).
    destruct (IH Hwf1 Hr1) as (Hwf2 & Hk2 & Hr2).
    split; [done|]. split; [by eapply keeps_terminal_trans|done].
Qed.

(** C12: the orchestrator's tables stay sound.  Starting from empty tables,
    through any sequence of engine and store calls, with any providers, clock
    and database faults: never more than [MaxRunningTasks] = 2 tasks are
    running, every row is stored under its own id, and a task that has
    completed or failed keeps that status for good. *)
Theorem task_orchestrator_invariant (s0 s1 s2 : TOState) :
  to_db s0 = mkTODB ∅ ∅ → rtc to_step s0 s1 → rtc to_step s1 s2 →
  todb_wf (to_db s2) ∧
  (length (List.filter (fun t => bool_decide (ot_Status t = TaskStatusRunning))
             (map snd (map_to_list (orch_tasks (to_db s2))))) ≤ 2)%nat ∧
  ∀ i t, orch_tasks (to_db s1) !! i = Some t →
         ot_Status t = TaskStatusCompleted ∨ ot_Status t = TaskStatusFailed →
         ∃ t', orch_tasks (to_db s2) !! i = Some t' ∧ ot_Status t' = ot_Status t.
Proof using.
  intros H0 H01 H12.
  destruct (to_steps_sound s0 s1 H01) as (Hwf1 & _ & Hr1).
  { rewrite H0. split; intros i x; cbn; by rewrite lookup_empty. }
  { rewrite H0. unfold running, with_status, task_rows. cbn. by rewrite map_to_list_empty; cbn; lia. }
  destruct (to_steps_sound s1 s2 H12 Hwf1 Hr1) as (Hwf2 & Hk & Hr2).
  split; [done|]. split; [exact Hr2|]. intros i t Hi Ht. apply (Hk i t Hi).
  by destruct Ht as [-> | ->].
Qed.
End calls.

(** C13: what [Dispatch] lets through, whatever faults strike.  A frozen
    governance mode stops it before anything is read or written.  Otherwise it
    starts at most 3 tasks, at most 1 when the capacity load is above 0.75, and
    never more than the free slots of the 2 running tasks allowed; and every
    task it starts was neither finished nor running, had a risk not of 0.90 or
    more, and in supervised mode a risk not above 0.70. *)
Theorem dispatch_gates (e : Engine) (s : TOState) :
  todb_wf (to_db s) →
  let '(result, err, s') := Dispatch e s in
  let n := length (dr_Dispatched result) in
  (eg_governance e = Some "frozen" → err = Some ErrGovernanceFrozen ∧ n = 0%nat ∧ s' = s) ∧
  (n ≤ (if fltb (lit 75 100) (default f0 (eg_capacity e)) then 1 else 3))%nat ∧
  (n ≤ 2 - running (to_db s))%nat ∧
  ∀ id, id ∈ dr_Dispatched result →
    ∃ t, orch_tasks (to_db s) !! id = Some t ∧
         (ot_Status t ∉ [TaskStatusRunning; TaskStatusCompleted; TaskStatusFailed]) ∧
         fleb (lit 90 100) (ot_RiskLevel t) = false ∧
         (eg_governance e = Some "supervised" → fltb (lit 70 100) (ot_RiskLevel t) = false).
Proof.
  intros Hwf. destruct (Dispatch_spec e s Hwf) as (_ & Hlen & Hok).
  assert (Hfr : eg_governance e = Some "frozen" →
    Dispatch e s = (mkDispatchResult [] [] [], Some ErrGovernanceFrozen, s)).
  { intros Hg. unfold Dispatch, getGovernanceMode. rewrite Hg. cbn [default].
    by rewrite bool_decide_true. }
  destruct (Dispatch e s) as [[result err] s']. cbn [fst snd] in *. unfold dispatch_limit in Hlen.
  split; [intros Hg; by injection (Hfr Hg) as -> -> ->|]. split; [|split; [lia|]].
  { unfold ShouldReduceDispatch in Hlen. change OverloadThreshold with (lit 75 100) in Hlen.
    destruct (fltb _ _); lia. }
  intros id Hid. destruct (Hok id Hid) as (t & Ht & H1 & H2 & H3 & H4). exists t.
  split; [done|]. split; [|split; [exact H3|]].
  - intros Hin. rewrite !elem_of_cons in Hin.
    destruct Hin as [E|[E|[E|[]%elem_of_nil]]]; [done|by rewrite E in H1..].
  - intros Hg. apply H4. unfold getGovernanceMode. by rewrite Hg.
Qed.

(** ** Recomputing without faults *)

Lemma store_call_nofault {A} (stmt : TODB → res (A * TODB)) s :
  to_faults s = [] →
  store_call stmt s = match stmt (to_db s) with
                      | Ok (a, db) => (Ok a, s <| to_db := db |>)
                      | Err e => (Err e, s)
                      end.
Proof. intros Hf. unfold store_call. rewrite Hf. by destruct (stmt (to_db s)) as [[a db]|e]. Qed.

(** What becomes of a pending, queued or paused task. *)
Definition recompute_effect (e : Engine) (now : time) (t : OrchestratedTask) (db : TODB) : Prop :=
  if IsExpired t now then
    (∃ t', orch_tasks db !! ot_ID t = Some t' ∧ ot_Status t' = TaskStatusFailed) ∧
    orch_queue db !! ot_ID t = None
  else if bool_decide (ot_Status t ≠ TaskStatusPending) && IsInCooldown t now then
    orch_tasks db !! ot_ID t = Some t
  else
    ∃ t' en, orch_tasks db !! ot_ID t = Some t' ∧ orch_queue db !! ot_ID t = Some en ∧
      ot_Status t' = (if bool_decide (ot_Status t = TaskStatusPending) then TaskStatusQueued
                      else ot_Status t) ∧
      ot_PriorityScore t' = score_task e (gatherScoringInput e) now t ∧
      qe_PriorityScore en = ot_PriorityScore t'.

Lemma recompute_task_effect e now t s :
  to_faults s = [] → orch_tasks (to_db s) !! ot_ID t = Some t →
  in_int4 (ot_AttemptCount t) = true → ot_Status t ≠ TaskStatusRunning →
  let s' := snd (recompute_task e (gatherScoringInput e) now t s) in
  to_faults s' = [] ∧ local_to (to_db s) (ot_ID t) (to_db s') ∧
  recompute_effect e now t (to_db s').
Proof.
  intros Hf Hrow Hatt Hst. cbn zeta. unfold recompute_task, recompute_effect.
  assert (Hup : ∀ t1, ot_ID t1 = ot_ID t → ot_AttemptCount t1 = ot_AttemptCount t →
    store_Update t1 s = (Ok tt, s <| to_db := (to_db s) <| orch_tasks :=
      <[ot_ID t := updated_row t1 t]> (orch_tasks (to_db s)) |> |>)).
  { intros t1 Hid Hat. unfold store_Update. rewrite bindS_run, store_call_nofault by done.
    rewrite Hat, Hatt, Hid. cbn [negb]. unfold update_row. by rewrite Hrow. }
  destruct (IsExpired t now).
  - unfold ignore. rewrite !bindS_run, Hup by done. cbn [retS fst snd].
    unfold queue_Remove. rewrite !bindS_run, store_call_nofault by done.
    cbn. split; [done|]. split; [split; cbn|split].
    + by rewrite lookup_insert_ne.
    + by rewrite lookup_delete_ne.
    + eexists. by rewrite lookup_insert_eq.
    + apply lookup_delete_eq.
  - rewrite bool_decide_false by done.
    destruct (bool_decide (ot_Status t ≠ TaskStatusPending) && IsInCooldown t now).
    { cbn. split; [done|]. by split. }
    cbn zeta. set (t2 := if bool_decide (ot_Status (_ <| ot_UpdatedAt := now |>) = _) then _ else _).
    assert (Ht2 : ot_ID t2 = ot_ID t ∧ ot_AttemptCount t2 = ot_AttemptCount t ∧
      ot_PriorityScore t2 = score_task e (gatherScoringInput e) now t ∧
      ot_Status t2 = (if bool_decide (ot_Status t = TaskStatusPending) then TaskStatusQueued
                      else ot_Status t)).
    { unfold t2. cbn [ot_Status set_field]. by case_bool_decide. }
    destruct Ht2 as (Hid & Hat & Hp & Hs). rewrite bindS_run, Hup by done. cbn [fst snd].
    unfold queue_Upsert. rewrite !bindS_run, store_call_nofault by done.
    cbn [qe_TaskID to_db orch_tasks orch_queue set_field]. rewrite Hid, lookup_insert_eq.
    cbn [fst snd wrap_err retS].
    match goal with |- context [auditEvent e ?ev ?i ?x] =>
      assert (Haud : to_db (snd (auditEvent e ev i x)) = to_db x ∧
                     to_faults (snd (auditEvent e ev i x)) = to_faults x)
        by (unfold auditEvent; by destruct (eg_audit e)) end.
    destruct Haud as [-> ->]. cbn. split; [done|]. split; [split; cbn|].
    + by rewrite lookup_insert_ne.
    + by rewrite lookup_insert_ne.
    + eexists _, _. rewrite !lookup_insert_eq. repeat split; cbn; by rewrite ?Hs, ?Hp.
Qed.

Lemma recompute_effect_local e now t db db' :
  orch_tasks db' !! ot_ID t = orch_tasks db !! ot_ID t →
  orch_queue db' !! ot_ID t = orch_queue db !! ot_ID t →
  recompute_effect e now t db → recompute_effect e now t db'.
Proof. unfold recompute_effect. by intros -> ->. Qed.

Lemma recompute_loop_effect e now l s :
  to_faults s = [] → NoDup (ot_ID <$> l) →
  (∀ t, t ∈ l → orch_tasks (to_db s) !! ot_ID t = Some t ∧ in_int4 (ot_AttemptCount t) = true ∧
                ot_Status t ≠ TaskStatusRunning) →
  let s' := snd (forS (recompute_task e (gatherScoringInput e) now) l s) in
  to_faults s' = [] ∧
  (∀ j, j ∉ ot_ID <$> l → orch_tasks (to_db s') !! j = orch_tasks (to_db s) !! j ∧
                         orch_queue (to_db s') !! j = orch_queue (to_db s) !! j) ∧
  ∀ t, t ∈ l → recompute_effect e now t (to_db s').
Proof.
  revert s. induction l as [|t l IH]; intros s Hf Hnd Hl; cbn zeta.
  { split; [done|]. split; [done|]. by intros t ?%elem_of_nil. }
  cbn [forS]. rewrite bindS_run. rewrite fmap_cons in *. apply NoDup_cons in Hnd as [Hnin Hnd].
  destruct (Hl t ltac:(apply elem_of_cons; by left)) as (H1 & H2 & H3).
  destruct (recompute_task_effect e now t s Hf H1 H2 H3) as (Hf1 & Hloc & Heff).
  set (s1 := snd (recompute_task _ _ _ t s)) in *.
  destruct (IH s1 Hf1 Hnd) as (Hf2 & Hother & Heffs).
  { intros t' Ht'. destruct (Hl t' ltac:(apply elem_of_cons; by right)) as (G1 & G2 & G3).
    split; [|done]. destruct (Hloc (ot_ID t')) as [-> _]; [|done].
    intros E. apply Hnin. rewrite <- E. by apply list_elem_of_fmap_2. }
  split; [done|]. split.
  - intros j [Hj1 Hj2]%not_elem_of_cons. destruct (Hother j Hj2) as [-> ->]. by apply Hloc.
  - intros t' [-> |Ht']%elem_of_cons; [|by apply Heffs].
    destruct (Hother (ot_ID t) Hnin). by eapply recompute_effect_local.
Qed.

(** Every task of a status is listed when the table has at most 50 of them. *)
Lemma listed_all st db t :
  (length (with_status st (orch_tasks db)) ≤ 50)%nat →
  orch_tasks db !! ot_ID t = Some t → ot_Status t = st → t ∈ listed st db.
Proof.
  intros Hlen Ht Hs. unfold listed. rewrite take_ge.
  - rewrite SliceStable_perm. apply elem_with_status. eauto.
  - rewrite (Permutation_length (SliceStable_perm newer _)).
    change (clamp_limit MaxTasksInQueue) with 50%nat. lia.
Qed.

(** Recomputing priorities, without faults and with at most 50 tasks of each
    waiting status.  An expired waiting task is failed and leaves the queue;
    every other pending task becomes queued with a queue entry of its score; a
    queued or paused task in its cooldown is left alone.  But a paused task
    past the cooldown gets a queue entry like a queued one while it is still
    paused, so the next [Dispatch] may start what an operator or the risk gate
    has paused.  Tasks that are not waiting keep their rows. *)
Theorem recompute_settles_tasks (e : Engine) (s : TOState) :
  to_faults s = [] → todb_wf (to_db s) →
  (∀ st, length (with_status st (orch_tasks (to_db s))) ≤ 50)%nat →
  (∀ i t, orch_tasks (to_db s) !! i = Some t → in_int4 (ot_AttemptCount t) = true) →
  let now := to_now s in
  let db' := to_db (snd (RecomputePriorities e s)) in
  let waiting := [TaskStatusPending; TaskStatusQueued; TaskStatusPaused] in
  let entry_with_score t t' := ∃ en, orch_queue db' !! ot_ID t = Some en ∧
    qe_PriorityScore en = score_task e (gatherScoringInput e) now t ∧
    qe_PriorityScore en = ot_PriorityScore t' in
  ∀ i t, orch_tasks (to_db s) !! i = Some t →
  ∃ t', orch_tasks db' !! i = Some t' ∧
  (ot_Status t ∈ waiting → IsExpired t now = true →
     ot_Status t' = TaskStatusFailed ∧ orch_queue db' !! i = None) ∧
  (ot_Status t = TaskStatusPending → IsExpired t now = false →
     ot_Status t' = TaskStatusQueued ∧ entry_with_score t t') ∧
  (ot_Status t ∈ [TaskStatusQueued; TaskStatusPaused] → IsExpired t now = false →
     if IsInCooldown t now then t' = t
     else ot_Status t' = ot_Status t ∧ entry_with_score t t') ∧
  (ot_Status t ∉ waiting → t' = t).
Proof.
  intros Hf Hwf Hlen Hatt now db' waiting entry.
  assert (Hread : ∀ st, store_ListByStatus st MaxTasksInQueue s = (Ok (listed st (to_db s)), s)).
  { intros st. unfold store_ListByStatus. rewrite bindS_run, store_call_nofault by done.
    cbn. by destruct s. }
  assert (Hdb : db' = to_db (snd (forS (recompute_task e (gatherScoringInput e) now)
                                    (recomputed (to_db s)) s))).
  { unfold db', RecomputePriorities. rewrite (bindS_run nowUTC). cbn [nowUTC fst snd].
    do 3 (rewrite bindS_run, Hread; cbn [fst snd]). rewrite !bindS_run.
    unfold ignore, queue_Count. rewrite !bindS_run. cbn [retS snd].
    rewrite (proj1 (store_read (fun db => Z.of_nat (length (queue_rows (orch_queue db)))) _)).
    unfold auditEvent. by destruct (eg_audit e). }
  destruct (recompute_loop_effect e now (recomputed (to_db s)) s Hf (NoDup_recomputed _ Hwf))
    as (_ & Hother & Heff).
  { intros t Ht. apply (recomputed_elem _ _ Hwf) in Ht as [Hst Ht]. split; [done|].
    split; [by eapply Hatt|]. by apply nonterminal_listed. }
  rewrite <- Hdb in Hother, Heff. clear Hdb.
  intros i t Hi. pose proof (to_ids _ Hwf i t Hi) as Hid. subst i.
  destruct (decide (ot_Status t ∈ waiting)) as [Hw|Hw].
  - assert (Hin : t ∈ recomputed (to_db s)).
    { unfold recomputed. rewrite !elem_of_app. unfold waiting in Hw. rewrite !elem_of_cons in Hw.
      destruct Hw as [Hw|[Hw|[Hw|[]%elem_of_nil]]]; [left|right; left|right; right];
        by apply listed_all. }
    specialize (Heff t Hin). unfold recompute_effect in Heff.
    destruct (IsExpired t now).
    + destruct Heff as ((t' & Ht' & Hs') & Hq). exists t'. split; [done|]. by repeat split.
    + destruct (bool_decide (ot_Status t ≠ TaskStatusPending) && IsInCooldown t now) eqn:E.
      * apply andb_true_iff in E as [E1 E2]. apply bool_decide_eq_true in E1.
        exists t. split; [done|]. split; [done|]. rewrite E2. by repeat split.
      * destruct Heff as (t' & en & Ht' & Hen & Hs & Hp & Hq). exists t'. split; [done|].
        assert (Hentry : entry t t') by (exists en; rewrite Hq; by repeat split).
        split; [done|]. split; [|split; [|done]].
        -- intros Hpend _. by rewrite bool_decide_true in Hs.
        -- intros Hst _. assert (Hnp : ot_Status t ≠ TaskStatusPending).
           { intros Hp'. rewrite Hp', !elem_of_cons in Hst.
             by destruct Hst as [|[|?%elem_of_nil]]. }
           rewrite bool_decide_true in E by done. cbn [andb] in E. rewrite E.
           by rewrite bool_decide_false in Hs.
  - exists t. assert (Hnin : ot_ID t ∉ ot_ID <$> recomputed (to_db s)).
    { intros (t0 & E & Ht0)%list_elem_of_fmap. apply (recomputed_elem _ _ Hwf) in Ht0 as [Hst Ht0].
      rewrite <- E, Hi in Ht0. injection Ht0 as <-. done. }
    destruct (Hother _ Hnin) as [-> _]. split; [done|]. split; [done|].
    split; [intros Hp; destruct Hw; rewrite Hp; by apply (bool_decide_unpack _)|].
    split; [|done]. intros Hst. destruct Hw. unfold waiting. apply elem_of_cons. by right.
Qed.

(** ** The theorems at work *)

Section witnesses.
#[local] Existing Instance demo_uuid.

Definition demo_engine : Engine :=
  mkEng true None None None None None
    (Some (fun _ _ => Ok (mkDispatchOutcome "x1" "running" ""))).
Definition empty_state : TOState := mkTOState (mkTODB ∅ ∅) demo_now 0 0 [] [].
Definition demo_to_created : TOState :=
  run_to (OpCreateTask demo_engine "manual" "goal" (lit 1 2) f0 (lit 1 10) "") empty_state.
Definition demo_to_queued : TOState := run_to (OpRecompute demo_engine) demo_to_created.
Definition demo_to_running : TOState := run_to (OpDispatch demo_engine) demo_to_queued.

Lemma task_orchestrator_invariant_witness : todb_wf (to_db demo_to_running).
Proof.
  apply (task_orchestrator_invariant empty_state empty_state demo_to_running).
  - reflexivity.
  - apply rtc_refl.
  - eapply rtc_l; [apply (to_call (OpCreateTask demo_engine "manual" "goal" (lit 1 2) f0 (lit 1 10) ""))|].
    eapply rtc_l; [apply (to_call (OpRecompute demo_engine))|].
    apply rtc_once. apply (to_call (OpDispatch demo_engine)).
Defined.

Lemma demo_to_wf : todb_wf (to_db demo_to_queued).
Proof.
  assert (H : rtc to_step empty_state demo_to_queued).
  { eapply rtc_l; [apply (to_call (OpCreateTask demo_engine "manual" "goal" (lit 1 2) f0 (lit 1 10) ""))|].
    apply rtc_once. apply (to_call (OpRecompute demo_engine)). }
  apply (to_steps_sound _ _ H); cbn.
  - split; intros i x; cbn; by rewrite lookup_empty.
  - unfold running, with_status, task_rows. cbn. by rewrite map_to_list_empty; cbn; lia.
Qed.

Lemma dispatch_gates_witness :
  length (dr_Dispatched (fst (fst (Dispatch demo_engine demo_to_queued)))) = 1%nat ∧
  (length (dr_Dispatched (fst (fst (Dispatch demo_engine demo_to_queued)))) ≤ 3)%nat.
Proof.
  split; [vm_compute; reflexivity|].
  pose proof (dispatch_gates demo_engine demo_to_queued demo_to_wf) as H.
  destruct (Dispatch demo_engine demo_to_queued) as [[result err] s'].
  destruct H as (_ & H & _). exact H.
Defined.

(** A task its operator has paused; six minutes later it is dispatched. *)
Definition demo_to_paused : TOState :=
  (run_to (OpPauseTask demo_engine (demo_uuid_String 100)) demo_to_queued)
    <| to_now := demo_now + 6 * Minute |>.

Example paused_task_is_dispatched :
  let s := run_to (OpRecompute demo_engine) demo_to_paused in
  (ot_Status <$> orch_tasks (to_db s) !! demo_uuid_String 100) = Some TaskStatusPaused ∧
  dr_Dispatched (fst (fst (Dispatch demo_engine s))) = [demo_uuid_String 100].
Proof. vm_compute. done. Qed.

Lemma demo_paused_wf : todb_wf (to_db demo_to_paused).
Proof.
  assert (H : rtc to_step demo_to_queued demo_to_paused).
  { eapply rtc_l; [apply (to_call (OpPauseTask demo_engine (demo_uuid_String 100)))|].
    apply rtc_once. apply to_outside. vm_compute. reflexivity. }
  apply (to_steps_sound _ _ H); [apply demo_to_wf|].
  apply Nat.leb_le. vm_compute. reflexivity.
Qed.

Lemma recompute_settles_tasks_witness :
  ∃ en, orch_queue (to_db (run_to (OpRecompute demo_engine) demo_to_paused)) !! demo_uuid_String 100
        = Some en.
Proof.
  assert (Ht : ∃ t, orch_tasks (to_db demo_to_paused) !! demo_uuid_String 100 = Some t ∧
    ot_Status t = TaskStatusPaused ∧ IsExpired t (to_now demo_to_paused) = false ∧
    IsInCooldown t (to_now demo_to_paused) = false).
  { eexists. split; [vm_compute; reflexivity|]. repeat split; vm_compute; reflexivity. }
  destruct Ht as (t & Ht & Hs & He & Hc).
  destruct (recompute_settles_tasks demo_engine demo_to_paused) with (i := demo_uuid_String 100) (t := t)
    as (t' & _ & _ & _ & H & _).
  - vm_compute. reflexivity.
  - apply demo_paused_wf.
  - intros st. apply Nat.leb_le. destruct st; vm_compute; reflexivity.
  - apply (rows_forallb (fun t => in_int4 (ot_AttemptCount t))). vm_compute. reflexivity.
  - exact Ht.
  - pose proof (to_ids _ demo_paused_wf _ _ Ht) as Hid.
    rewrite Hs, He, Hc in H. destruct H as [_ (en & Hen & _)]; [|done|].
    + apply elem_of_cons. right. by apply list_elem_of_singleton.
    + rewrite Hid in Hen. exists en. exact Hen.
Defined.
End witnesses.

(** ** The task scorer *)

(** A clamped value is in its interval, or is not a number. *)
Lemma fclamp_cases v lo hi :
  fleb lo hi = true →
  is_nan (fclamp v lo hi) = true ∨
  (fleb lo (fclamp v lo hi) = true ∧ fleb (fclamp v lo hi) hi = true).
Proof.
  intros H. destruct (is_nan v) eqn:E; [left; destruct v; try done; by rewrite fclamp_nan|].
  right. by apply fclamp_bounds.
Qed.

(** A value above a cap is replaced by the cap. *)
Lemma capped_not_above cap p : fltb cap (if fltb cap p then cap else p) = false.
Proof. destruct (fltb cap p) eqn:E; [apply fltb_irrefl|exact E]. Qed.

Definition unit_or_nan (p : float64) : Prop :=
  is_nan p = true ∨ (fleb f0 p = true ∧ fleb p f1 = true).

Lemma capped_unit cap p :
  fleb f0 cap = true → fleb cap f1 = true → unit_or_nan p →
  unit_or_nan (if fltb cap p then cap else p).
Proof. intros H0 H1 Hp. destruct (fltb cap p); [by right|done]. Qed.

(** Task scores are bounded.  For any task, signals, boost, time and vector,
    with and without the vector, the score lies between 0 and 1 or is not a
    number; and a task whose risk is above 0.70 (with the vector: above 0.95)
    never scores above 0.50 (0.80), provided the vector's risk ratio is a
    number. *)
Theorem task_score_bounds (task : OrchestratedTask) (input : ScoringInput) (boost : float64)
    (now : time) (v : VectorScoringParams) :
  unit_or_nan (ComputePriority task input boost now) ∧
  unit_or_nan (ComputePriorityWithVector task input boost now v) ∧
  (fltb (lit 70 100) (ot_RiskLevel task) = true →
   fltb (lit 50 100) (ComputePriority task input boost now) = false) ∧
  (let ratio := fdiv (v_RiskTolerance v) (lit 30 100) in
   is_nan (fmul (lit 70 100) ratio) = false → is_nan (fmul (lit 50 100) ratio) = false →
   fltb (lit 95 100) (ot_RiskLevel task) = true →
   fltb (lit 80 100) (ComputePriorityWithVector task input boost now v) = false).
Proof.
  assert (Hclamp : ∀ x, unit_or_nan (fclamp01 x)) by (intros x; by apply fclamp_cases).
  split; [|split; [|split]].
  - unfold ComputePriority. destruct (fltb HighRiskThreshold _); [|done].
    by apply capped_unit.
  - unfold ComputePriorityWithVector. cbn zeta. destruct (fltb (fclamp _ _ _) _); [|done].
    pose proof (fclamp_cases
      (fmul HighRiskMaxPrio (fdiv (v_RiskTolerance v) VectorBaselineRiskTolerance))
      (lit 30 100) (lit 80 100) ltac:(vm_compute; reflexivity)) as Hc.
    revert Hc. generalize (fclamp (fmul HighRiskMaxPrio
      (fdiv (v_RiskTolerance v) VectorBaselineRiskTolerance)) (lit 30 100) (lit 80 100)) as cap.
    intros cap [Hc|[H1 H2]].
    + assert (∀ q, fltb cap q = false) as -> by (intros q; float_order). done.
    + apply capped_unit; [| |done].
      * eapply fleb_trans; [|exact H1]. vm_compute. reflexivity.
      * eapply fleb_trans; [exact H2|]. vm_compute. reflexivity.
  - intros Hr. unfold ComputePriority. change HighRiskThreshold with (lit 70 100). rewrite Hr.
    apply capped_not_above.
  - intros ratio H1 H2 Hr. unfold ComputePriorityWithVector. cbn zeta.
    change VectorBaselineRiskTolerance with (lit 30 100). fold ratio.
    change HighRiskThreshold with (lit 70 100). change HighRiskMaxPrio with (lit 50 100).
    destruct (fclamp_bounds (fmul (lit 70 100) ratio) (lit 40 100) (lit 95 100) H1) as [_ Hb1];
      [done|].
    destruct (fclamp_bounds (fmul (lit 50 100) ratio) (lit 30 100) (lit 80 100) H2) as [_ Hb2];
      [done|].
    set (thr := fclamp _ (lit 40 100) _) in *. set (cap := fclamp _ (lit 30 100) _) in *.
    assert (fltb thr (ot_RiskLevel task) = true) as -> by float_order.
    match goal with |- context [fltb cap ?p] =>
      pose proof (capped_not_above cap p) as Hcap; set (q := if fltb cap p then cap else p) in * end.
    destruct (is_nan q) eqn:Hq; [|float_order]. by destruct q.
Qed.

(** Adding a positive zero changes nothing but the sign of a zero. *)
Lemma fadd_f0 x : fadd x f0 = x ∨ (x = S754_zero true ∧ fadd x f0 = f0).
Proof. destruct x as [[]|[]| |[] m e]; auto. Qed.

(** With the default vector the score is the plain one.  At the baseline risk
    tolerance 0.30 and income priority 0.70 both scorers return the same float,
    except that a negative zero may come back as zero. *)
Theorem default_vector_agrees (task : OrchestratedTask) (input : ScoringInput) (boost : float64)
    (now : time) :
  let plain := ComputePriority task input boost now in
  let withVector := ComputePriorityWithVector task input boost now (mkVector (lit 30 100) (lit 70 100)) in
  withVector = plain ∨ (plain = S754_zero true ∧ withVector = S754_zero false).
Proof.
  cbn zeta. unfold ComputePriorityWithVector, ComputePriority. cbn zeta.
  cbn [v_RiskTolerance v_IncomePriority].
  assert (fclamp01 (fmul (fsub (lit 70 100) VectorBaselineIncomePriority) (lit 15 100)) = f0) as ->
    by (vm_compute; reflexivity).
  assert (fclamp (fmul HighRiskThreshold (fdiv (lit 30 100) VectorBaselineRiskTolerance))
            (lit 40 100) (lit 95 100) = HighRiskThreshold) as -> by (vm_compute; reflexivity).
  assert (fclamp (fmul HighRiskMaxPrio (fdiv (lit 30 100) VectorBaselineRiskTolerance))
            (lit 30 100) (lit 80 100) = HighRiskMaxPrio) as -> by (vm_compute; reflexivity).
  destruct (fadd_f0 (weighted_sum task input boost now)) as [-> |[-> ->]]; [by left|right].
  by destruct (fltb HighRiskThreshold (ot_RiskLevel task)).
Qed.
