(* ===== verification/Deployment.v ===== *)
(** * The deployed wiring ([cmd/api-gateway/main.go])

    The API gateway connects the task orchestrator to the execution loop and the
    execution loop to the external actions engine through small bridges; here
    they are composed, and the theorems are about the engines as connected. *)

From stdpp Require Import base gmap strings list tactics numbers fin_maps.
From Stdlib Require Import ZArith Lia.
From S2P Require Import Prelude GoFloat GoJSON Models AgentWorld ExternalActions ExternalActionsProps ExecutionLoop ExecutionLoopProps TaskQueue TaskOrchestrator TaskOrchestratorProps Fixtures.

Open Scope Z_scope.

Section bridges.
Context {U : UuidPkg} {J : PgJsonb} {X : Type}.

(** [execLoopExtActBridge.CreateAndExecute]; [None] is a nil adapter. *)
Definition bridge_CreateAndExecute (ea : option (XEngine X)) : ActionsProvider (Agent XDB X) :=
  fun actionType payload opportunityID =>
  match ea with
  | None => retS (Ok (failed_result "external actions not available"))
  | Some xe =>
      let! created := CreateAction xe (zero_action <| xa_OpportunityID := opportunityID |>
                                         <| xa_ActionType := actionType |>
                                         <| xa_Payload := payload |>) in
      match created with
      | Err err => retS (Ok (failed_result (error_text err)))
      | Ok action =>
          if bool_decide (xa_Status action = StatusReviewRequired) then
            retS (Ok (mkExecutorResult false None
                        ("action requires review: " +:+ xa_ReviewReason action) true false
                        (xa_ID action)))
          else
            let! out := ExecuteAction xe (xa_ID action) in
            let '(result, err) := out in
            retS (Ok match err with
                     | Some err => mkExecutorResult false None (error_text err) false false (xa_ID action)
                     | None => mkExecutorResult (xr_Success result) (xr_ResponsePayload result)
                                 (xr_ErrorMessage result) false false (xa_ID action)
                     end)
      end
  end.

(** The terminal status the orchestrator sees: the run's, or [failed] when an
    error left no task. *)
Definition outcome_of (taskID : string) (final : option ExecutionTask) (runErr : option error)
    : DispatchOutcome :=
  let status := match final with Some t => exec_status_string (et_Status t) | None => "" end in
  match runErr with
  | Some err => mkDispatchOutcome taskID (if bool_decide (status = "") then "failed" else status)
                  (error_text err)
  | None => mkDispatchOutcome taskID status ""
  end.

(** [taskOrchExecLoopBridge.CreateAndRun] *)
Definition bridge_CreateAndRun {P : Type} (el : option (LoopEngine P)) (goal : string)
    : St (Agent LoopDB P) (res DispatchOutcome) :=
  match el with
  | None => retS (Err (Errorf "execution loop not available"))
  | Some e =>
      let! created := CreateExecTask e "" goal in
      match created with
      | Err err => retS (Err err)
      | Ok task =>
          let! out := RunLoop e (et_ID task) in
          retS (Ok (outcome_of (et_ID task) (fst out) (snd out)))
      end
  end.

(** The gateway's loop engine: its provider is the bridge. *)
Definition wired (e : LoopEngine (Agent XDB X)) (ea : option (XEngine X)) : Prop :=
  le_extActions e = Some (bridge_CreateAndExecute ea).
End bridges.

(** ** The planner's tool is no action type *)

Section deployed.
Context {U : UuidPkg} {J : PgJsonb} {X : Type}.

Lemma bridge_refuses_tool (ea : option (XEngine X)) payload opp (x : Agent XDB X) :
  ∃ msg, bridge_CreateAndExecute ea "external_action" payload opp x = (Ok (failed_result msg), x).
Proof using. destruct ea as [xe|]; by eexists. Qed.

Lemma wired_step_fails (e : LoopEngine (Agent XDB X)) ea step opp :
  wired e ea → st_Tool step = "external_action" →
  returns (ExecuteStep e step opp) (fun r => er_Success r = false).
Proof using.
  intros He Ht. apply ExecuteStep_fails. intros ext. rewrite He. intros [= <-] payload x. rewrite Ht.
  by destruct (bridge_refuses_tool ea payload opp x) as [msg ->].
Qed.

Lemma wired_step_keeps (e : LoopEngine (Agent XDB X)) ea step opp :
  wired e ea → st_Tool step = "external_action" → keeps_ext (ExecuteStep e step opp).
Proof using.
  intros He Ht. unfold ExecuteStep. rewrite He, Ht.
  assert (Hp : ∀ payload, keeps_ext (D := LoopDB) (provider (bridge_CreateAndExecute ea "external_action" payload opp))).
  { intros payload s. unfold provider. by destruct (bridge_refuses_tool ea payload opp (ag_ext s)) as [msg ->]. }
  keeps_ext_steps.
Qed.

(** A task just created has no plan. *)
Lemma CreateExecTask_row (e : LoopEngine (Agent XDB X)) opp goal (s : Agent LoopDB (Agent XDB X)) task :
  fst (CreateExecTask e opp goal s) = Ok task →
  ∃ row, exec_tasks (ag_db (snd (CreateExecTask e opp goal s))) !! et_ID task = Some row ∧
         et_Plan row = [] ∧ et_Status row = ExecPending.
Proof using.
  unfold CreateExecTask. rewrite (bindS_run (loop_now e)). cbn [loop_now reading fst snd].
  rewrite (bindS_run fresh_uuid). cbn [fresh_uuid fst snd]. cbv zeta.
  set (t := mkExecTask _ _ _ _ _ _ _ _ _ _ _). set (s1 := s <| ag_reads := _ |> <| ag_uuids := _ |>).
  assert (H : ∀ u, fst (exec_Insert t s1) = Ok u →
    ∃ row, exec_tasks (ag_db (snd (exec_Insert t s1))) !! et_ID t = Some row ∧
           et_Plan row = [] ∧ et_Status row = ExecPending).
  { intros u. unfold exec_Insert. rewrite bindS_run. cbn [fst snd retS]. unfold statement, insert_exec_task.
    change (stored_plan (et_Plan t)) with (Some (@nil ExecutionStep)).
    destruct (ag_faults s1) as [|[] fs]; cbn [fst snd]; try done.
    all: destruct (negb (exec_ints_ok t)); [done|].
    all: destruct (exec_tasks (ag_db _) !! et_ID t); [done|]; try done.
    all: intros _; eexists; cbn; rewrite lookup_insert_eq; by split. }
  rewrite bindS_run. destruct (fst (exec_Insert t s1)) as [u|err]; [|done].
  rewrite bindS_run. cbn [fst snd retS]. intros [= <-]. unfold loop_audit, record_audit.
  destruct (H u eq_refl) as (row & Hrow & Hr). exists row.
  by destruct (le_audit e).
Qed.

Lemma CreateExecTask_keeps (e : LoopEngine (Agent XDB X)) opp goal : keeps_ext (CreateExecTask e opp goal).
Proof using. unfold CreateExecTask, loop_now, exec_Insert, loop_audit. cbv zeta. keeps_ext_steps. Qed.

Lemma wired_run (e : LoopEngine (Agent XDB X)) ea goal (s : Agent LoopDB (Agent XDB X)) :
  wired e ea →
  (∀ o, fst (bridge_CreateAndRun (Some e) goal s) = Ok o → do_TerminalStatus o ≠ "completed") ∧
  ag_ext (snd (bridge_CreateAndRun (Some e) goal s)) = ag_ext s.
Proof using.
  intros He. unfold bridge_CreateAndRun. rewrite bindS_run.
  pose proof (CreateExecTask_row e "" goal s) as Hrow. pose proof (CreateExecTask_keeps e "" goal s) as Hx.
  destruct (fst (CreateExecTask e "" goal s)) as [task|err]; [|by split].
  destruct (Hrow task eq_refl) as (row & Hr & Hplan & Hst). rewrite <- Hx.
  set (s1 := snd (CreateExecTask e "" goal s)) in *. clearbody s1. clear Hrow Hx. rewrite bindS_run. cbn [retS fst snd].
  assert (Hund : ∀ t, exec_tasks (ag_db s1) !! et_ID task = Some t →
    undone (fun tool => tool = "external_action") t ∧ et_Status t ≠ ExecCompleted).
  { intros t Ht. rewrite Hr in Ht. injection Ht as <-. split; [|by rewrite Hst].
    unfold undone. rewrite Hplan. constructor. }
  pose proof (RunLoop_undone e (fun tool => tool = "external_action") eq_refl
    (fun step opp => wired_step_fails e ea step opp He) (et_ID task) s1 Hund) as Hnot.
  pose proof (RunLoop_undone_keeps e (fun tool => tool = "external_action") eq_refl
    (fun step opp => wired_step_fails e ea step opp He) (fun step opp => wired_step_keeps e ea step opp He)
    (et_ID task) s1 (fun t Ht => proj1 (Hund t Ht))) as Hkeep.
  split; [|exact Hkeep]. intros o [= <-].
  destruct (fst (RunLoop e (et_ID task) s1)) as [[t|] err]; cbn [fst snd] in *; unfold outcome_of.
  - specialize (Hnot t eq_refl). destruct err; cbn; destruct (et_Status t); done.
  - destruct err; cbn; done.
Qed.
End deployed.

(** ** The orchestrator above such a loop *)

Section dispatch.
Variable db0 : TODB.

(** Completed tasks were completed before. *)
Definition no_new_completed (db : TODB) : Prop :=
  ∀ id t, orch_tasks db !! id = Some t → ot_Status t = TaskStatusCompleted →
  ∃ t0, orch_tasks db0 !! id = Some t0 ∧ ot_Status t0 = TaskStatusCompleted.

Abbreviation keeps c := (ensures no_new_completed c (fun _ => no_new_completed)).

Lemma nc_ret {A} (a : A) : keeps (retS a).
Proof using. by apply ensures_ret. Qed.

Lemma nc_bind {A B} (c : TO A) (k : A → TO B) : keeps c → (∀ a, keeps (k a)) → keeps (bindS c k).
Proof using. intros Hc Hk. by eapply ensures_bind. Qed.

Lemma nc_Update t : ot_Status t ≠ TaskStatusCompleted → keeps (store_Update t).
Proof using.
  intros Ht. apply nc_bind; [|intros r; apply nc_ret].
  apply (ensures_store _ _ (fun _ => no_new_completed)). intros db Hdb. split; [done|].
  intros a db'. destruct (negb _); [done|]. unfold update_row.
  destruct (orch_tasks db !! ot_ID t) as [row|] eqn:Hrow; [|by intros [= <- <-]].
  intros [= <- <-]. match goal with |- ?P ∧ _ => cut P; [by intros H; split|] end.
  intros i r. cbn. rewrite lookup_insert. case_decide; [|apply Hdb]. intros [= <-] Hc. by cbn in Hc.
Qed.

Lemma nc_Remove id : keeps (queue_Remove id).
Proof using.
  apply nc_bind; [|intros r; apply nc_ret].
  apply (ensures_store _ _ (fun _ => no_new_completed)). intros db Hdb. split; [done|].
  by intros a db' [= <- <-].
Qed.

Lemma nc_read {A} (stmt : TODB → A) : keeps (store_call (fun db => Ok (stmt db, db))).
Proof using.
  apply (ensures_store _ _ (fun _ => no_new_completed)). intros db Hdb. split; [done|].
  by intros a db' [= <- <-].
Qed.

Lemma nc_audit e ev id : keeps (auditEvent e ev id).
Proof using. apply ensures_audit. Qed.

Lemma nc_ignore {A} (c : TO A) : keeps c → keeps (ignore c).
Proof using. apply ensures_ignore. Qed.

Lemma nc_pause e now t : keeps (pause_task e now t).
Proof using.
  unfold pause_task. apply nc_bind; [by apply nc_ignore, nc_Update|]. intros ?.
  apply nc_bind; [apply nc_ignore, nc_Remove|]. intros ?. apply nc_audit.
Qed.

Lemma nc_outcome e t outcome now :
  do_TerminalStatus outcome ≠ "completed" → keeps (applyExecutionOutcome e t outcome now).
Proof using.
  intros Ho. unfold applyExecutionOutcome. cbv zeta. destruct (_ || _); [apply nc_ret|].
  rewrite bool_decide_false by done. destruct (_ || _);
    (apply nc_bind; [by apply nc_ignore, nc_Update|]; intros ?;
     apply nc_bind; [apply nc_ignore, nc_Remove|]; intros ?; apply nc_audit).
Qed.

Lemma nc_dispatch_entry e govMode now entry result :
  (∀ run, eg_executionLoop e = Some run → ∀ k goal o, run k goal = Ok o → do_TerminalStatus o ≠ "completed") →
  keeps (dispatch_entry e govMode now entry result).
Proof using.
  intros Hrun. unfold dispatch_entry. apply nc_bind.
  { apply nc_bind; [apply (nc_read (fun db => orch_tasks db !! qe_TaskID entry))|]. intros r. apply nc_ret. }
  intros [task|err].
  2:{ apply nc_bind; [apply nc_ignore, nc_Remove|]. intros ?. apply nc_ret. }
  cbv zeta. destruct (_ || _); [apply nc_bind; [apply nc_ignore, nc_Remove|]; intros ?; apply nc_ret|].
  destruct (fleb _ _); [apply nc_bind; [apply nc_pause|]; intros ?; apply nc_ret|].
  destruct (_ && _); [apply nc_bind; [apply nc_pause|]; intros ?; apply nc_ret|].
  destruct (eg_executionLoop e) as [run|]; [|apply nc_ret]. specialize (Hrun run eq_refl).
  eapply (ensures_bind _ _ (fun out db => (∀ o, out = Ok o → do_TerminalStatus o ≠ "completed") ∧
    no_new_completed db)).
  { intros s Hs. split; [|exact Hs]. intros o Ho. exact (Hrun _ _ o Ho). }
  intros out. apply ensures_fact. intros Ho. destruct out as [outcome|execErr].
  - specialize (Ho outcome eq_refl).
    apply nc_bind; [by apply nc_ignore, nc_Update|]. intros ?.
    apply nc_bind; [apply nc_ignore, nc_Remove|]. intros ?.
    apply nc_bind; [apply nc_audit|]. intros ?.
    apply nc_bind; [by apply nc_outcome|]. intros ?. apply nc_ret.
  - apply nc_bind; [by apply nc_ignore, nc_Update|]. intros ?.
    apply nc_bind; [apply nc_ignore, nc_Remove|]. intros ?.
    apply nc_bind; [apply nc_audit|]. intros ?. apply nc_ret.
Qed.

Lemma nc_Dispatch e :
  (∀ run, eg_executionLoop e = Some run → ∀ k goal o, run k goal = Ok o → do_TerminalStatus o ≠ "completed") →
  keeps (Dispatch e).
Proof using.
  intros Hrun. unfold Dispatch. cbv zeta. destruct (bool_decide _); [apply nc_ret|].
  apply nc_bind.
  { apply nc_bind; [apply (nc_read (fun db => Z.of_nat (length (with_status TaskStatusRunning (orch_tasks db)))))|].
    intros r. apply nc_ret. }
  intros [n|err]; [|apply nc_ret]. destruct (bool_decide _); [apply nc_ret|].
  apply nc_bind; [apply nc_bind; [apply nc_read|]; intros r; apply nc_ret|].
  intros [entries|err]; [|apply nc_ret]. apply nc_bind; [apply ensures_now|]. intros now.
  apply nc_bind; [|intros r; apply nc_ret].
  match goal with |- keeps (dispatch_loop _ _ _ _ ?n ?r) => generalize n, r end.
  induction entries as [|en entries IH]; intros left r; [apply nc_ret|].
  destruct left as [|left]; [apply nc_ret|]. cbn [dispatch_loop].
  apply nc_bind; [by apply nc_dispatch_entry|]. intros [r' d]. apply IH.
Qed.
End dispatch.

Section theorems.
Context {U : UuidPkg} {J : PgJsonb} {X : Type}.

(** C15: as deployed, the execution loop never gets anything done.  The planner
    names every step's tool [external_action], which is not an action type, so
    the external actions engine refuses it.  Hence, with the provider wired as in
    the API gateway and under any faults, clocks and modes: running a goal never
    reports completion and leaves the external actions' tables, connectors
    included, untouched; and no dispatch of the task orchestrator over such a
    loop ever completes a task. *)
Theorem deployed_loop_never_completes (e : LoopEngine (Agent XDB X)) (ea : option (XEngine X))
    (eg : Engine) (states : nat → Agent LoopDB (Agent XDB X)) (s : TOState) :
  wired e ea →
  eg_executionLoop eg = Some (fun k goal => fst (bridge_CreateAndRun (Some e) goal (states k))) →
  (∀ k goal,
     match fst (bridge_CreateAndRun (Some e) goal (states k)) with
     | Ok o => do_TerminalStatus o ≠ "completed"
     | Err _ => True
     end ∧ ag_ext (snd (bridge_CreateAndRun (Some e) goal (states k))) = ag_ext (states k)) ∧
  ∀ id t, orch_tasks (to_db (snd (Dispatch eg s))) !! id = Some t →
    ot_Status t = TaskStatusCompleted →
    ∃ t0, orch_tasks (to_db s) !! id = Some t0 ∧ ot_Status t0 = TaskStatusCompleted.
Proof using.
  intros He Heg. split.
  - intros k goal. destruct (wired_run e ea goal (states k) He) as [H1 H2].
    split; [|exact H2]. destruct (fst _) as [o|err]; [by apply H1|done].
  - refine (nc_Dispatch (to_db s) eg _ s _).
    + rewrite Heg. intros run [= <-] k goal o Ho. by apply (wired_run e ea goal (states k) He).
    + intros id t Ht Hc. by exists t.
Qed.
End theorems.

(** ** Witnesses *)

Section demo.
#[local] Existing Instance demo_uuid.

Definition demo_wired : LoopEngine (Agent XDB nat) :=
  mkLoopEngine (fun n => demo_now + Z.of_nat (n mod 60) * Second) true (Some (fun _ => "normal")) None
    (fun _ => "") (Some (bridge_CreateAndExecute (Some demo_xengine))).

Definition demo_gateway : Agent LoopDB (Agent XDB nat) :=
  mkAgent (mkLoopDB ∅ []) demo_xstate 0 0 [] [].

Definition demo_deployment : Engine :=
  mkEng true None None None None None
    (Some (fun k goal => fst (bridge_CreateAndRun (Some demo_wired) goal demo_gateway))).

(** One queued task. *)
Definition demo_waiting : TOState :=
  mkTOState (mkTODB
    {[ "o" := mkTask "o" "api" "ship it" (lit 50 100) TaskStatusQueued f0 f0 f0 "" "" "" "" "" 0 None 0 0 ]}
    {[ "o" := mkEntry "o" (lit 50 100) 0 0 ]}) demo_now 0 0 [] [].

Lemma deployed_loop_never_completes_witness :
  ag_ext (snd (bridge_CreateAndRun (Some demo_wired) "ship it" demo_gateway)) = ag_ext demo_gateway.
Proof.
  pose proof (deployed_loop_never_completes demo_wired (Some demo_xengine) demo_deployment
    (fun _ => demo_gateway) demo_waiting eq_refl eq_refl) as [H _].
  destruct (H 0%nat "ship it") as [_ H2]. cbv beta in H2. exact H2.
Defined.

(** The dispatched task fails, its run aborted. *)
Example deployed_dispatch :
  let '(r, err, s) := Dispatch demo_deployment demo_waiting in
  dr_Dispatched r = ["o"] ∧ err = None ∧
  (fun t => (ot_Status t, ot_OutcomeType t)) <$> (orch_tasks (to_db s) !! "o")
  = Some (TaskStatusFailed, "aborted").
Proof. vm_compute. auto. Qed.

(** With a tool that is an action type the bridge does execute. *)
Example bridge_executes_drafts :
  let '(r, x) := bridge_CreateAndExecute (Some demo_xengine) "draft_message" (Some "{}") "" demo_xstate in
  (match r with Ok er => er_Success er | Err _ => false end) = true ∧ ag_ext x = 1%nat.
Proof. vm_compute. auto. Qed.
End demo.
