(* ===== verification/DeployedGovernance.v ===== *)
(** * Governance as deployed ([cmd/api-gateway/main.go])

    The bridges through which the autonomy orchestrator, the execution loop and
    the task orchestrator reach the governance controller, and what its modes
    do to those engines. *)

From stdpp Require Import base gmap strings list tactics numbers fin_maps.
From Stdlib Require Import ZArith Lia.
From S2P Require Import Prelude GoFloat Models AgentWorld ExternalActions ExecutionLoop ExecutionLoopProps ExecutionLoopTheorems TaskQueue TaskOrchestrator Governance GovernanceProps Deployment Fixtures.

Open Scope Z_scope.

(** ** The bridges; [None] is a nil controller or adapter *)

Section bridges.
Context {U : UuidPkg} {X : Type}.

Abbreviation GV := (St (Agent GovDB X)).

Definition taskOrch_GetMode (ga : option (Controller X)) : GV string :=
  match ga with
  | None => retS "autonomous"
  | Some c => ga_GetMode c
  end.

(** Its context is always a [context.Context]. *)
Definition execLoop_GetMode (ga : option (Controller X)) : GV string :=
  match ga with
  | None => retS "normal"
  | Some c => ga_GetMode c
  end.

Definition autonomy_GetMode (gc : option (Controller X)) : GV string :=
  match gc with
  | None => retS "normal"
  | Some c => let! state := GetState c in retS (gs_Mode state)
  end.

(** All cases but the first unfreeze. *)
Definition autonomy_SetMode (gc : option (Controller X)) (mode reason : string) : GV (option error) :=
  match gc with
  | None => retS None
  | Some c =>
      let! r := if bool_decide (mode = "frozen")
                then Freeze c (mkFreeze "autonomy_orchestrator" reason (Some true) (Some true) (Some true))
                else Unfreeze c (mkPlain "autonomy_orchestrator" reason) in
      retS (match r with Ok _ => None | Err err => Some err end)
  end.

(** Starting the autonomy orchestrator in any mode but [frozen] lifts whatever
    an operator had imposed. *)
Lemma SetMode_lifts (c : Controller X) mode reason (s : Agent GovDB X) :
  mode ≠ "frozen" → ag_faults s = [] →
  let '(err, s') := autonomy_SetMode (Some c) mode reason s in
  err = None ∧ ∃ st, gov_state (ag_db s') = Some st ∧ gs_Mode st = "normal" ∧
    (IsLearningBlocked st, IsPolicyBlocked st, IsExplorationBlocked st) = (false, false, false).
Proof using.
  intros Hm Hf. unfold autonomy_SetMode. rewrite bool_decide_false by done.
  set (op := OpUnfreeze (mkPlain "autonomy_orchestrator" reason)).
  pose proof (run_op_settled c op s eq_refl) as H. rewrite Hf in H. specialize (H eq_refl).
  rewrite bindS_run. unfold op in H at 2 3. cbn [run_op] in H.
  destruct H as (st & a & id & -> & Hrow & _ & _ & _ & now & ->).
  split; [done|]. by eexists.
Qed.
End bridges.

(** ** The task orchestrator *)

(** The engine with its governance provider answering [m]. *)
Definition governed (m : option string) (e : Engine) : Engine :=
  mkEng (eg_audit e) (eg_objective e) m (eg_capacity e) (eg_portfolio e) (eg_vector e)
    (eg_executionLoop e).

(** Outside supervised mode the entries are handled as without governance. *)
Lemma dispatch_entry_governed m e govMode now en r s :
  govMode ≠ "supervised" →
  dispatch_entry (governed m e) govMode now en r s = dispatch_entry (governed None e) "autonomous" now en r s.
Proof.
  intros Hm. unfold dispatch_entry. rewrite (bool_decide_eq_false_2 (govMode = "supervised")) by done.
  reflexivity.
Qed.

Lemma dispatch_loop_governed m e govMode now ens n : govMode ≠ "supervised" → ∀ r s,
  dispatch_loop (governed m e) govMode now ens n r s
  = dispatch_loop (governed None e) "autonomous" now ens n r s.
Proof.
  intros Hm. revert n. induction ens as [|en ens IH]; intros n r s; [done|]. destruct n as [|n]; [done|].
  cbn [dispatch_loop]. rewrite !bindS_run, dispatch_entry_governed by done.
  destruct (fst _) as [r' d]. apply IH.
Qed.

Lemma Dispatch_governed govMode e ts :
  govMode ≠ "supervised" → govMode ≠ "frozen" →
  Dispatch (governed (Some govMode) e) ts = Dispatch (governed None e) ts.
Proof.
  intros Hs Hf. unfold Dispatch, getGovernanceMode. cbn [eg_governance governed default].
  rewrite (bool_decide_eq_false_2 (govMode = "frozen")) by done. cbv zeta.
  change (bool_decide ("autonomous" = "frozen")) with false. cbn [eg_capacity governed].
  rewrite !bindS_run. destruct (fst (store_CountByStatus _ _)) as [n|err]; [|done].
  destruct (bool_decide _); [done|].
  match goal with |- context [queue_List ?k] => set (limit := k); clearbody limit end.
  match goal with |- context [Z.to_nat ?k] => set (left := Z.to_nat k); clearbody left end.
  rewrite !bindS_run. destruct (fst (queue_List _ _)) as [ens|err]; [|done].
  rewrite !bindS_run, dispatch_loop_governed by done. reflexivity.
Qed.

(** ** The engines under a governed gateway *)

Section theorems.
Context {U : UuidPkg} {J : PgJsonb} {X Y : Type} (c : Controller X).

Lemma taskOrch_GetMode_frozen (gw : Agent GovDB X) :
  fst (taskOrch_GetMode (Some c) gw) = "frozen" ↔
  ∃ st, readable_row gw = Some st ∧ gs_Mode st = "frozen".
Proof using.
  cbn [taskOrch_GetMode]. unfold ga_GetMode. rewrite ask_run. cbn [fst].
  destruct (readable_row gw) as [st|] eqn:Hrow.
  - rewrite (GetState_readable c gw st Hrow). split; [by eexists|]. by intros (? & [= <-] & ?).
  - rewrite (GetState_unreadable c gw Hrow). split; [done|]. by intros (? & ? & _).
Qed.

Lemma execLoop_GetMode_blocking (gw : Agent GovDB X) :
  (∀ st, readable_row gw = Some st → IsFrozen st = true ∨ gs_Mode st = "safe_hold") →
  blocking (fst (execLoop_GetMode (Some c) gw)).
Proof using.
  intros H. cbn [execLoop_GetMode]. unfold ga_GetMode, blocking. rewrite ask_run. cbn [fst].
  destruct (readable_row gw) as [st|] eqn:Hrow.
  - rewrite (GetState_readable c gw st Hrow). rewrite !elem_of_cons.
    destruct (H st eq_refl) as [Hf|Hf]; [|tauto]. unfold IsFrozen in Hf.
    apply orb_true_iff in Hf as [Hf%bool_decide_eq_true|Hf%bool_decide_eq_true]; tauto.
  - rewrite (GetState_unreadable c gw Hrow). cbn. rewrite !elem_of_cons. tauto.
Qed.

(** C22: what governance does to the engines, as the gateway connects them, from
    any world operator calls can reach.  The task orchestrator asks once per
    dispatch: it refuses exactly when the row is readable and frozen, and in
    every other mode, rollback and an unreadable row included, dispatches as if
    there were no governance; the review gate for risky tasks in supervised mode
    is never reached.  The execution loop asks before every run and every step:
    while each reading finds the system frozen, rolled back, in safe hold or its
    settings unreadable, a run touches no provider and completes no task. *)
Theorem deployed_governance (gw0 gw : Agent GovDB X) (eg : Engine) (ts : TOState)
    (e : LoopEngine Y) (gws : nat → Agent GovDB X) (id : string) (s : Agent LoopDB Y) :
  seeded (ag_db gw0) → rtc gov_step gw0 gw →
  le_governance e = Some (fun n => fst (execLoop_GetMode (Some c) (gws n))) →
  (∀ n st, readable_row (gws n) = Some st → IsFrozen st = true ∨ gs_Mode st = "safe_hold") →
  (∀ t, exec_tasks (ag_db s) !! id = Some t →
     et_Status t ≠ ExecCompleted ∧ ∀ st, st ∈ et_Plan t → st_Status st ≠ StepExecuted) →
  let dispatched := Dispatch (governed (Some (fst (taskOrch_GetMode (Some c) gw))) eg) ts in
  let '(t, _, s') := RunLoop e id s in
  ((∃ st, readable_row gw = Some st ∧ gs_Mode st = "frozen") →
     dispatched = (mkDispatchResult [] [] [], Some ErrGovernanceFrozen, ts)) ∧
  (¬ (∃ st, readable_row gw = Some st ∧ gs_Mode st = "frozen") →
     dispatched = Dispatch (governed None eg) ts) ∧
  ag_ext s' = ag_ext s ∧ ∀ t', t = Some t' → et_Status t' ≠ ExecCompleted.
Proof using.
  intros Hseed Hgw He Hblock Hrow. cbv zeta.
  assert (Hmode : fst (taskOrch_GetMode (Some c) gw) ∈ governance_modes).
  { destruct (gov_steps_wf _ _ Hgw (seeded_wf _ Hseed)) as [[Hst _] _].
    cbn [taskOrch_GetMode]. unfold ga_GetMode. rewrite ask_run. cbn [fst].
    by destruct (reported_sound _ _ Hst (GetState_reported c gw)) as (Hm & _). }
  assert (Hb : ∀ n, blocking (fst (execLoop_GetMode (Some c) (gws n)))).
  { intros n. apply execLoop_GetMode_blocking, Hblock. }
  assert (Hu : ∀ t, exec_tasks (ag_db s) !! id = Some t →
    undone (fun _ => True) t ∧ et_Status t ≠ ExecCompleted).
  { intros t Ht. destruct (Hrow t Ht) as [H1 H2]. split; [|done]. unfold undone.
    apply list.Forall_forall. intros st Hst. split; [by apply H2|done]. }
  pose proof (RunLoop_undone e (fun _ => True) I
    (fun step opp _ => proj1 (ExecuteStep_blocked e _ step opp He Hb)) id s Hu) as Hnot.
  pose proof (RunLoop_undone_keeps e (fun _ => True) I
    (fun step opp _ => proj1 (ExecuteStep_blocked e _ step opp He Hb))
    (fun step opp _ => proj2 (ExecuteStep_blocked e _ step opp He Hb)) id s
    (fun t Ht => proj1 (Hu t Ht))) as Hkeep.
  destruct (RunLoop e id s) as [[t err] s']. cbn [fst snd] in *. rewrite <- taskOrch_GetMode_frozen.
  split_and!; [| |exact Hkeep|exact Hnot].
  - intros ->. reflexivity.
  - intros Hf. apply Dispatch_governed; [|done]. intros E. rewrite E, mode_listed in Hmode.
    by destruct Hmode as [|[|[|]]].
Qed.
End theorems.

(** ** Witnesses *)

Section demo.
#[local] Existing Instance demo_uuid.

(** An operator has rolled the system back. *)
Definition demo_rolled : Agent GovDB (list AuditEvent) :=
  snd (run_op demo_controller (OpRollback (mkPlain "ana" "bad release")) demo_gov).

Definition demo_rolled_mode : nat → string := fun _ => fst (execLoop_GetMode (Some demo_controller) demo_rolled).

Definition demo_governed_loop : LoopEngine nat :=
  mkLoopEngine (fun n => demo_now + Z.of_nat (n mod 60) * Second) true (Some demo_rolled_mode) None
    (fun _ => "") (Some (counting_provider true false)).

Lemma demo_rolled_row st : readable_row demo_rolled = Some st → IsFrozen st = true.
Proof. intros H. vm_compute in H. by injection H as <-. Qed.

Lemma deployed_governance_witness :
  Dispatch (governed (Some (fst (taskOrch_GetMode (Some demo_controller) demo_rolled))) demo_deployment)
    demo_waiting
  = Dispatch (governed None demo_deployment) demo_waiting ∧
  ag_ext (snd (RunLoop demo_governed_loop "t" demo_loop_state)) = 0%nat.
Proof.
  pose proof (deployed_governance demo_controller demo_gov demo_rolled demo_deployment demo_waiting
    demo_governed_loop (fun _ => demo_rolled) "t" demo_loop_state demo_seeded
    (rtc_once _ _ (gov_call _ _ _)) eq_refl) as H.
  destruct (RunLoop demo_governed_loop "t" demo_loop_state) as [[t err] s'].
  destruct H as (_ & H1 & H2 & _).
  - intros n st Hst. left. by apply demo_rolled_row.
  - intros t1 Ht1. apply ExecutionLoopTheorems.demo_row in Ht1 as ->. split; [done|]. by intros st ?%elem_of_nil.
  - split; [|exact H2]. apply H1. intros (st & Hst & Hm). vm_compute in Hst. injection Hst as <-.
    by vm_compute in Hm.
Defined.

(** A rolled-back system still dispatches, and the run it starts aborts: the
    task is lost as failed. *)
Definition demo_rolled_loop : LoopEngine (Agent XDB nat) :=
  mkLoopEngine (le_clock demo_wired) true (Some demo_rolled_mode) None (fun _ => "")
    (le_extActions demo_wired).

Definition demo_rolled_engine : Engine :=
  mkEng true None (Some (fst (taskOrch_GetMode (Some demo_controller) demo_rolled))) None None None
    (Some (fun k goal => fst (bridge_CreateAndRun (Some demo_rolled_loop) goal demo_gateway))).

Example rollback_fails_waiting_tasks :
  let '(r, err, s) := Dispatch demo_rolled_engine demo_waiting in
  dr_Dispatched r = ["o"] ∧ err = None ∧
  (fun t => (ot_Status t, ot_OutcomeType t)) <$> (orch_tasks (to_db s) !! "o")
  = Some (TaskStatusFailed, "aborted").
Proof. vm_compute. auto. Qed.

(** Restarting the autonomy orchestrator lifts the rollback. *)
Example startup_lifts_rollback :
  gs_Mode <$> gov_state (ag_db (snd (autonomy_SetMode (Some demo_controller) "bounded_autonomy" "startup"
                                      demo_rolled))) = Some "normal".
Proof. vm_compute. reflexivity. Qed.
End demo.
