(* ===== verification/TaskAdapter.v ===== *)
(** * The task orchestrator's interface ([internal/agent/task_orchestrator])

    The engine's calls that pass straight to its store ([engine.go]), the lookup
    by actuation decision ([store.go]) and the nil-safe adapter ([adapter.go])
    through which the other subsystems reach the engine.

    The second part is about where tasks come from: source, goal and linked
    decision of a task are its origin, and without faults no call but the creation
    of a task and the link to a decision changes any origin. *)

From stdpp Require Import base gmap strings list tactics numbers fin_maps.
From Stdlib Require Import ZArith Lia.
From S2P Require Import Prelude GoFloat Models GoTime TaskQueue TaskOrchestrator GoSort AgentWorld TaskOrchestratorProps.

Open Scope Z_scope.

(** ** Calls that pass to the store *)

(** A row is linked to a decision; the column of a row without a link is null
    and equals nothing. *)
Definition linked_to (decisionID : string) (t : OrchestratedTask) : bool :=
  negb (bool_decide (ot_ActuationDecisionID t = "")) && bool_decide (ot_ActuationDecisionID t = decisionID).

(** [LIMIT 1] without an order: the first in the table's listing. *)
Definition store_FindByActuationDecision (decisionID : string) : TO (res string) :=
  let! r := store_call (fun db => Ok (List.find (linked_to decisionID) (task_rows (orch_tasks db)), db)) in
  retS match r with
       | Ok (Some t) => Ok (ot_ID t)
       | Ok None => Ok ""
       | Err err => Err (wrap "find by actuation decision: " err)
       end.

Definition GetTask (id : string) : TO (res OrchestratedTask) := store_Get id.
Definition ListTasks (limit : Z) : TO (res (list OrchestratedTask)) := store_List limit.
Definition ListRunningTasks (limit : Z) : TO (res (list OrchestratedTask)) := store_ListByStatus TaskStatusRunning limit.
Definition SetActuationDecisionID (taskID decisionID : string) : TO (res unit) :=
  store_SetActuationDecisionID taskID decisionID.
Definition SetExecutionTaskID (taskID execTaskID : string) : TO (res unit) := store_SetExecutionTaskID taskID execTaskID.
Definition SetOutcome (taskID outcomeType lastError : string) (attemptCount : Z) : TO (res unit) :=
  store_SetOutcome taskID outcomeType lastError attemptCount.
Definition FindByActuationDecision (decisionID : string) : TO (res string) :=
  store_FindByActuationDecision decisionID.

(** ** The adapter; [None] is a nil adapter or engine *)

Definition zero_task : OrchestratedTask :=
  mkTask "" "" "" f0 TaskStatusPending f0 f0 f0 "" "" "" "" "" 0 None zero_time zero_time.

Definition via {A} (zero : A) (call : Engine → TO A) (engine : option Engine) : TO A :=
  match engine with None => retS zero | Some e => call e end.

Section adapter.
Context {U : UuidPkg}.

Definition TA_CreateTask (source goal : string) (urgency expectedValue riskLevel : float64) (strategyType : string)
    : option Engine → TO (res OrchestratedTask) :=
  via (Ok zero_task) (fun e => CreateTask e source goal urgency expectedValue riskLevel strategyType).
Definition TA_GetTask (id : string) : option Engine → TO (res OrchestratedTask) := via (Ok zero_task) (fun _ => GetTask id).
Definition TA_ListTasks (limit : Z) : option Engine → TO (res (list OrchestratedTask)) :=
  via (Ok []) (fun _ => ListTasks limit).
Definition TA_RecomputePriorities : option Engine → TO (res unit) := via (Ok tt) RecomputePriorities.
Definition TA_Dispatch : option Engine → TO (DispatchResult * option error) :=
  via (mkDispatchResult [] [] [], None) Dispatch.
Definition TA_GetQueue (limit : Z) : option Engine → TO (res (list TaskQueueEntry)) :=
  via (Ok []) (fun _ => GetQueue limit).
Definition TA_CompleteTask (id : string) : option Engine → TO (res OrchestratedTask) :=
  via (Ok zero_task) (fun e => CompleteTask e id).
Definition TA_FailTask (id : string) : option Engine → TO (res OrchestratedTask) :=
  via (Ok zero_task) (fun e => FailTask e id).
Definition TA_FailTaskWithReason (id reason : string) : option Engine → TO (res OrchestratedTask) :=
  via (Ok zero_task) (fun e => FailTaskWithReason e id reason).
Definition TA_PauseTask (id : string) : option Engine → TO (res OrchestratedTask) :=
  via (Ok zero_task) (fun e => PauseTask e id).
Definition TA_ListRunningTasks (limit : Z) : option Engine → TO (res (list OrchestratedTask)) :=
  via (Ok []) (fun _ => ListRunningTasks limit).
Definition TA_FindByActuationDecision (decisionID : string) : option Engine → TO (res string) :=
  via (Ok "") (fun _ => FindByActuationDecision decisionID).
Definition TA_SetActuationDecisionID (taskID decisionID : string) : option Engine → TO (res unit) :=
  via (Ok tt) (fun _ => SetActuationDecisionID taskID decisionID).
Definition TA_SetExecutionTaskID (taskID execTaskID : string) : option Engine → TO (res unit) :=
  via (Ok tt) (fun _ => SetExecutionTaskID taskID execTaskID).
Definition TA_SetOutcome (taskID outcomeType lastError : string) (attemptCount : Z) : option Engine → TO (res unit) :=
  via (Ok tt) (fun _ => SetOutcome taskID outcomeType lastError attemptCount).
End adapter.

(** ** The origin of tasks *)

Record Origin := mkOrigin { og_source : string; og_goal : string; og_decision : string }.

Definition origin (t : OrchestratedTask) : Origin := mkOrigin (ot_Source t) (ot_Goal t) (ot_ActuationDecisionID t).

Definition origins (db : TODB) : gmap string Origin := origin <$> orch_tasks db.

(** No faults, tasks under their ids, and the origins [L]. *)
Definition settled (L : gmap string Origin) (s : TOState) : Prop :=
  to_faults s = [] ∧ (∀ i t, orch_tasks (to_db s) !! i = Some t → ot_ID t = i) ∧ origins (to_db s) = L.

Section settled.
Context (L : gmap string Origin).

Definition stays {A} (c : TO A) : Prop := triple (settled L) c (fun _ => settled L).

(** The origin of a task the code holds is that of its row. *)
Definition known (t : OrchestratedTask) : Prop := L !! ot_ID t = Some (origin t).

Lemma stays_ret {A} (a : A) : stays (retS a).
Proof using. by apply triple_ret. Qed.

Lemma stays_bind {A B} (c : TO A) (k : A → TO B) : stays c → (∀ a, stays (k a)) → stays (bindS c k).
Proof using. intros Hc Hk. by eapply triple_bind. Qed.

(** The continuation may rely on what the first computation returns. *)
Lemma stays_bind_with {A B} (F : A → Prop) (c : TO A) (k : A → TO B) :
  triple (settled L) c (fun a s => F a ∧ settled L s) → (∀ a, F a → stays (k a)) → stays (bindS c k).
Proof using.
  intros Hc Hk. eapply triple_bind; [exact Hc|]. intros a. apply triple_fact. apply Hk.
Qed.

Lemma stays_now : stays nowUTC.
Proof using. by intros s. Qed.

Lemma stays_audit e ev id : stays (auditEvent e ev id).
Proof using. intros s Hs. unfold auditEvent. by destruct (eg_audit e). Qed.

Lemma stays_ignore {A} (c : TO A) : stays c → stays (ignore c).
Proof using. intros H. apply stays_bind; [done|]. intros a. apply stays_ret. Qed.

Lemma stays_forS {A} (f : A → TO unit) l : (∀ a, a ∈ l → stays (f a)) → stays (forS f l).
Proof using.
  intros Hf. induction l as [|a l IH]; [apply stays_ret|]. apply stays_bind; [apply Hf; by left|].
  intros u. apply IH. intros b Hb. apply Hf. by right.
Qed.

(** A statement that leaves the tasks alone. *)
Lemma stays_store {A} (stmt : TODB → res (A * TODB)) :
  (∀ db a db', stmt db = Ok (a, db') → orch_tasks db' = orch_tasks db) → stays (store_call stmt).
Proof using.
  intros H s (Hf & Hi & HL). rewrite store_call_nofault by done.
  destruct (stmt (to_db s)) as [[a db']|err] eqn:E; cbn [fst snd]; [|done].
  specialize (H _ _ _ E). split_and!; [done| |]; unfold origins in *; cbn; by rewrite H.
Qed.

Lemma stays_read {A} (f : TODB → A) (F : A → Prop) :
  (∀ s, settled L s → F (f (to_db s))) →
  triple (settled L) (store_call (fun db => Ok (f db, db))) (fun r s => (∀ a, r = Ok a → F a) ∧ settled L s).
Proof using.
  intros H s Hs. pose proof Hs as (Hf & _). rewrite store_call_nofault by done. cbn [fst snd].
  split; [intros a [= <-]; by apply H|]. destruct s; done.
Qed.

(** Changing a row without changing its origin. *)
Lemma stays_row {A} (id : string) (f : OrchestratedTask → OrchestratedTask) (a : A) :
  (∀ row, L !! id = Some (origin row) → ot_ID (f row) = ot_ID row ∧ origin (f row) = origin row) →
  stays (store_call (fun db => match orch_tasks db !! id with
                               | Some row => Ok (a, db <| orch_tasks := <[id := f row]> (orch_tasks db) |>)
                               | None => Ok (a, db)
                               end)).
Proof using.
  intros H s (Hf & Hi & HL). rewrite store_call_nofault by done.
  destruct (orch_tasks (to_db s) !! id) as [row|] eqn:Hrow; cbn [fst snd]; [|by destruct s].
  assert (HLid : L !! id = Some (origin row)) by (by rewrite <- HL; unfold origins; rewrite lookup_fmap, Hrow).
  destruct (H row HLid) as [H1 H2]. split_and!; [done| |].
  - intros j t. cbn. rewrite lookup_insert. case_decide as Hj; [|apply Hi]. intros [= <-]. subst j.
    rewrite H1. by apply Hi.
  - unfold origins in *. cbn. rewrite fmap_insert, H2, <- HL. apply insert_id. by rewrite lookup_fmap, Hrow.
Qed.

Lemma stays_guard {A} (b : bool) (err : error) (stmt : TODB → res (A * TODB)) :
  stays (store_call stmt) → stays (store_call (fun db => if b then Err err else stmt db)).
Proof using.
  intros H. destruct b; [|exact H]. by apply stays_store.
Qed.

Lemma stays_Update t : known t → stays (store_Update t).
Proof using.
  intros Ht. unfold store_Update. apply stays_bind; [|intros r; apply stays_ret].
  apply stays_guard. unfold update_row. apply stays_row. intros row Hrow. unfold known in Ht.
  rewrite Ht in Hrow. injection Hrow as _ _ Hd. split; [done|]. unfold origin, updated_row. cbn. by rewrite Hd.
Qed.

Lemma stays_Remove id : stays (queue_Remove id).
Proof using.
  apply stays_bind; [|intros r; apply stays_ret]. apply stays_store. by intros db x db' [= <- <-].
Qed.

Lemma stays_Upsert e : stays (queue_Upsert e).
Proof using.
  apply stays_bind; [|intros r; apply stays_ret]. apply stays_store. intros db a db'.
  by destruct (orch_tasks db !! _); intros [= <- <-].
Qed.

Lemma Get_known id :
  triple (settled L) (store_Get id) (fun r s => (∀ t, r = Ok t → known t ∧ ot_ID t = id) ∧ settled L s).
Proof using.
  eapply triple_bind.
  - apply (stays_read (fun db => orch_tasks db !! id) (fun o => ∀ t, o = Some t → known t ∧ ot_ID t = id)).
    intros s (_ & Hi & HL) t Ht. pose proof (Hi _ _ Ht) as <-. split; [|done]. unfold known. rewrite <- HL.
    unfold origins. by rewrite lookup_fmap, Ht.
  - intros r. apply triple_ret. intros s [Hr Hs]. split; [|done].
    destruct r as [[t|]|err]; [|done..]. intros t' [= <-]. by eapply Hr.
Qed.

Lemma List_known st limit :
  triple (settled L) (store_ListByStatus st limit)
    (fun r s => (∀ ts, r = Ok ts → ∀ t, t ∈ ts → known t) ∧ settled L s).
Proof using.
  eapply triple_bind.
  - apply (stays_read _ (fun ts => ∀ t, t ∈ ts → known t)). intros s (_ & Hi & HL) t Ht.
    apply take_elem in Ht. rewrite SliceStable_perm in Ht. apply elem_with_status in Ht as [_ [i Hit]].
    pose proof (Hi _ _ Hit) as Hid. unfold known. rewrite <- HL, Hid. unfold origins. by rewrite lookup_fmap, Hit.
  - intros r. apply triple_ret. intros s [Hr Hs]. split; [|done]. by destruct r.
Qed.
End settled.

(** ** The engine's calls *)

Lemma known_status L t (f : OrchestratedTask → OrchestratedTask) :
  known L t → ot_ID (f t) = ot_ID t → origin (f t) = origin t → known L (f t).
Proof. unfold known. by intros H -> ->. Qed.

Section calls.
Context (L : gmap string Origin) (e : Engine).
Abbreviation stays := (stays L).

Lemma recompute_stays input now task : known L task → stays (recompute_task e input now task).
Proof using.
  intros Ht. unfold recompute_task. destruct (IsExpired task now).
  { apply stays_bind; [by apply stays_ignore, stays_Update|]. intros ?. apply stays_ignore, stays_Remove. }
  destruct (bool_decide _); [apply stays_ret|]. destruct (_ && _); [apply stays_ret|]. cbv zeta.
  apply stays_bind; [apply stays_Update; by case_bool_decide|]. intros [?|?]; [|apply stays_ret].
  apply stays_bind; [apply stays_Upsert|]. intros [?|?]; [apply stays_audit|apply stays_ret].
Qed.

Lemma Recompute_stays : stays (RecomputePriorities e).
Proof using.
  unfold RecomputePriorities. apply stays_bind; [apply stays_now|]. intros now. cbv zeta.
  eapply stays_bind_with; [apply List_known|]. cbv beta. intros [pending|err] H1; [|apply stays_ret].
  eapply stays_bind_with; [apply List_known|]. cbv beta. intros [queued|err] H2; [|apply stays_ret].
  eapply stays_bind_with; [apply List_known|]. cbv beta. intros [paused|err] H3; [|apply stays_ret].
  apply stays_bind.
  { apply stays_forS. intros t Ht. apply recompute_stays. rewrite !elem_of_app in Ht.
    destruct Ht as [Ht|[Ht|Ht]]; [by eapply H1|by eapply H2|by eapply H3]. }
  intros ?. apply stays_bind; [apply stays_audit|]. intros ?.
  apply stays_bind; [|intros ?; apply stays_ret]. apply stays_ignore.
  apply stays_bind; [|intros ?; apply stays_ret]. apply stays_store. by intros db x db' [= <- <-].
Qed.

(** The end shared by all ways out of [Dispatch]: a write and a removal. *)
Lemma stays_write t id (k : TO unit) :
  known L t → stays k → stays (let! _ := ignore (store_Update t) in let! _ := ignore (queue_Remove id) in k).
Proof using.
  intros Ht Hk. apply stays_bind; [by apply stays_ignore, stays_Update|]. intros ?.
  apply stays_bind; [apply stays_ignore, stays_Remove|]. by intros ?.
Qed.

Lemma outcome_stays task outcome now : known L task → stays (applyExecutionOutcome e task outcome now).
Proof using.
  intros Ht. unfold applyExecutionOutcome. cbv zeta. destruct (_ || _); [apply stays_ret|].
  destruct (bool_decide _); [|destruct (_ || _)]; apply stays_write; try exact Ht; apply stays_audit.
Qed.

Lemma pause_stays now task : known L task → stays (pause_task e now task).
Proof using. intros Ht. apply stays_write; [exact Ht|apply stays_audit]. Qed.

Lemma entry_stays govMode now entry result : stays (dispatch_entry e govMode now entry result).
Proof using.
  unfold dispatch_entry. eapply stays_bind_with; [apply Get_known|]. cbv beta. intros [task|err] Hget.
  2:{ apply stays_bind; [apply stays_ignore, stays_Remove|]. intros ?. apply stays_ret. }
  destruct (Hget task eq_refl) as [Ht _]. cbv zeta.
  destruct (_ || _); [apply stays_bind; [apply stays_ignore, stays_Remove|]; intros ?; apply stays_ret|].
  destruct (fleb _ _); [apply stays_bind; [by apply pause_stays|]; intros ?; apply stays_ret|].
  destruct (_ && _); [apply stays_bind; [by apply pause_stays|]; intros ?; apply stays_ret|].
  destruct (eg_executionLoop e) as [run|]; [|apply stays_ret].
  apply stays_bind; [by intros s|]. intros [outcome|execErr].
  - apply stays_bind; [by apply stays_ignore, stays_Update|]. intros ?.
    apply stays_bind; [apply stays_ignore, stays_Remove|]. intros ?. apply stays_bind; [apply stays_audit|]. intros ?.
    apply stays_bind; [by apply outcome_stays|]. intros ?. apply stays_ret.
  - apply stays_bind; [by apply stays_ignore, stays_Update|]. intros ?.
    apply stays_bind; [apply stays_ignore, stays_Remove|]. intros ?. apply stays_bind; [apply stays_audit|]. intros ?.
    apply stays_ret.
Qed.

Lemma loop_stays govMode now entries left result : stays (dispatch_loop e govMode now entries left result).
Proof using.
  revert left result. induction entries as [|entry entries IH]; intros [|left] result; try apply stays_ret.
  cbn [dispatch_loop]. apply stays_bind; [apply entry_stays|]. intros [result' dispatched]. apply IH.
Qed.

Lemma stays_listing {A} (prefix : string) (f : TODB → A) :
  stays (let! r := store_call (fun db => Ok (f db, db)) in retS (wrap_err prefix r)).
Proof using.
  apply stays_bind; [|intros r; apply stays_ret]. apply stays_store. by intros db x db' [= <- <-].
Qed.

Lemma Dispatch_stays : stays (Dispatch e).
Proof using.
  unfold Dispatch. cbv zeta. destruct (bool_decide _); [apply stays_ret|].
  apply stays_bind; [apply stays_listing|]. intros [n|err]; [|apply stays_ret].
  destruct (bool_decide _); [apply stays_ret|]. apply stays_bind; [apply stays_listing|].
  intros [entries|err]; [|apply stays_ret]. apply stays_bind; [apply stays_now|]. intros now.
  apply stays_bind; [apply loop_stays|]. intros result. apply stays_ret.
Qed.

Lemma transition_stays id to event : stays (transitionTask e id to event).
Proof using.
  unfold transitionTask. eapply stays_bind_with; [apply Get_known|]. cbv beta. intros [task|err] Hget; [|apply stays_ret].
  destruct (Hget task eq_refl) as [Ht _]. destruct (negb _); [apply stays_ret|]. apply stays_bind; [apply stays_now|].
  intros now. cbv zeta. apply stays_bind; [by apply stays_Update|]. intros [?|err]; [|apply stays_ret].
  apply stays_bind; [destruct (_ || _); [apply stays_ignore, stays_Remove|apply stays_ret]|]. intros ?.
  apply stays_bind; [apply stays_audit|]. intros ?. apply stays_ret.
Qed.

Lemma Fail_stays id reason : stays (FailTaskWithReason e id reason).
Proof using.
  unfold FailTaskWithReason. eapply stays_bind_with; [apply Get_known|]. cbv beta.
  intros [task|err] Hget; [|apply stays_ret]. destruct (Hget task eq_refl) as [Ht _].
  destruct (negb _); [apply stays_ret|]. apply stays_bind; [apply stays_now|].
  intros now. cbv zeta. apply stays_bind; [by apply stays_Update|]. intros [?|err]; [|apply stays_ret].
  apply stays_bind; [apply stays_ignore, stays_Remove|]. intros ?.
  apply stays_bind; [apply stays_audit|]. intros ?. apply stays_ret.
Qed.

Lemma SetExecutionTaskID_stays task exec : stays (SetExecutionTaskID task exec).
Proof using.
  apply stays_bind; [apply stays_now|]. intros now. apply stays_bind; [|intros r; apply stays_ret].
  unfold update_row. by apply stays_row.
Qed.

Lemma SetOutcome_stays task kind lastError attempts : stays (SetOutcome task kind lastError attempts).
Proof using.
  apply stays_bind; [apply stays_now|]. intros now. apply stays_bind; [|intros r; apply stays_ret].
  apply stays_guard. unfold update_row. by apply stays_row.
Qed.
End calls.

(** ** Creating and linking *)

Section create.
Context {U : UuidPkg} (e : Engine) (L : gmap string Origin).

(** A new task has no decision yet. *)
Lemma Create_settles source goal u v risk strategy :
  triple (settled L) (CreateTask e source goal u v risk strategy)
    (fun r s => match r with
                | Ok t => L !! ot_ID t = None ∧ settled (<[ot_ID t := mkOrigin source goal ""]> L) s ∧
                          ∃ n, ot_ID t = uuid_String (uuid_New n)
                | Err _ => settled L s
                end).
Proof using.
  intros s (Hf & Hi & HL). unfold CreateTask. rewrite bindS_run. cbn [nowUTC fst snd]. rewrite bindS_run.
  cbn [fresh_id fst snd]. cbv zeta. set (id := uuid_String _). set (s1 := s <| to_uuids := _ |>).
  set (t := mkTask id _ _ _ _ _ _ _ _ _ _ _ _ _ _ _ _).
  assert (Hins : store_Insert t s1 =
    match orch_tasks (to_db s) !! id with
    | Some _ => (Err (wrap "insert orchestrated task: " (Errorf "duplicate key value violates unique constraint")), s1)
    | None => (Ok tt, s1 <| to_db := (to_db s) <| orch_tasks := <[id := stored_task t]> (orch_tasks (to_db s)) |> |>)
    end).
  { unfold store_Insert. rewrite bindS_run, store_call_nofault by done. change (to_db s1) with (to_db s).
    change (negb (in_int4 (ot_AttemptCount t))) with false. change (ot_ID t) with id. cbv iota.
    by destruct (orch_tasks (to_db s) !! id). }
  rewrite bindS_run, Hins. destruct (orch_tasks (to_db s) !! id) as [row|] eqn:Hrow; [done|]. cbn [fst snd].
  rewrite bindS_run. cbn [retS fst snd].
  match goal with |- context [auditEvent e _ _ ?s] => set (s2 := s) end.
  assert (Hs : settled (<[ot_ID t := mkOrigin source goal ""]> L) s2).
  { split_and!; [done| |].
    - intros j t'. unfold s2. cbn. rewrite lookup_insert. case_decide as Hj; [|apply Hi]. by intros [= <-].
    - unfold origins, s2. cbn. rewrite fmap_insert. by rewrite <- HL. }
  clearbody s2. split; [|split].
  - rewrite <- HL. unfold origins. rewrite lookup_fmap. change (ot_ID t) with id. by rewrite Hrow.
  - by apply (stays_audit _ e "task.created" id s2).
  - by exists (to_uuids s).
Qed.

(** Linking a task that exists. *)
Lemma Link_settles id o decision :
  L !! id = Some o →
  triple (settled L) (SetActuationDecisionID id decision)
    (fun _ => settled (<[id := mkOrigin (og_source o) (og_goal o) decision]> L)).
Proof using.
  intros Ho s (Hf & Hi & HL). unfold SetActuationDecisionID, store_SetActuationDecisionID. rewrite bindS_run.
  cbn [nowUTC fst snd]. rewrite bindS_run. cbn [retS fst snd]. rewrite store_call_nofault by done.
  unfold update_row. destruct (orch_tasks (to_db s) !! id) as [row|] eqn:Hrow.
  - cbn [fst snd]. assert (Horow : o = origin row).
    { rewrite <- HL in Ho. unfold origins in Ho. rewrite lookup_fmap, Hrow in Ho. by injection Ho. }
    split_and!; [done| |].
    + intros j t. cbn. rewrite lookup_insert. case_decide as Hj; [|apply Hi]. intros [= <-]. cbn. subst j. by apply Hi.
    + unfold origins. cbn. rewrite fmap_insert, Horow. by rewrite <- HL.
  - exfalso. rewrite <- HL in Ho. unfold origins in Ho. by rewrite lookup_fmap, Hrow in Ho.
Qed.

(** No task is linked to a decision that is not found. *)
Lemma Find_settles decision :
  L !! "" = None →
  triple (settled L) (FindByActuationDecision decision)
    (fun r s => (match r with
                 | Ok id => id = "" → decision ≠ "" → ∀ i o, L !! i = Some o → og_decision o ≠ decision
                 | Err _ => False
                 end) ∧ settled L s).
Proof using.
  intros Hempty s Hs. pose proof Hs as (Hf & Hi & HL). unfold FindByActuationDecision, store_FindByActuationDecision.
  rewrite bindS_run. cbn [retS fst snd]. rewrite store_call_nofault by done. cbn [fst snd].
  assert (H : settled L (s <| to_db := to_db s |>)) by exact Hs.
  assert (Hrows : ∀ i o, L !! i = Some o → ∃ t, orch_tasks (to_db s) !! i = Some t ∧ o = origin t).
  { intros i o Ho. rewrite <- HL in Ho. unfold origins in Ho. rewrite lookup_fmap in Ho.
    destruct (orch_tasks (to_db s) !! i) as [t|]; [|done]. exists t. split; [done|]. by injection Ho as <-. }
  destruct (List.find _ _) as [t|] eqn:Hfind; (split; [|exact H]).
  - intros Hid. exfalso. apply find_some in Hfind as [Hin _]. apply list_elem_of_In, elem_rows in Hin as [j Hj].
    pose proof (Hi _ _ Hj) as Hjid. rewrite Hid in Hjid. subst j. rewrite <- HL in Hempty. unfold origins in Hempty.
    by rewrite lookup_fmap, Hj in Hempty.
  - intros _ Hd i o Ho Hod. destruct (Hrows i o Ho) as (t & Ht & ->).
    assert (Hin : In t (task_rows (orch_tasks (to_db s)))) by (apply list_elem_of_In, elem_rows; eauto).
    pose proof (find_none _ _ Hfind t Hin) as Hlink. unfold linked_to in Hlink. cbn in Hod.
    rewrite Hod, bool_decide_false, bool_decide_true in Hlink by done. done.
Qed.
End create.
