(* ===== verification/AutonomyInvariant.v ===== *)
(** * Invariants of the engines behind the autonomy runtime

    An interface for clients that connect the runtime to real engines: when every
    call the runtime makes keeps a condition on their state, and turning a listed
    decision into a task keeps it too, it holds over any history of ticks and
    operator calls. *)

From stdpp Require Import base gmap strings list tactics numbers fin_maps.
From Stdlib Require Import ZArith Lia.
From S2P Require Import Prelude GoFloat Models GoTime AgentWorld AutonomyConfig Autonomy AutonomyProps AutonomyControl.

Open Scope Z_scope.

Create HintDb holds.

Section holds.
Context {X : Type}.
Abbreviation AU A := (St (Agent Runtime X) A).

Definition kept {A} (J : X → Prop) (c : St X A) : Prop := triple J c (fun _ => J).

(** [J] holds of the engines' state before and after. *)
Definition holds {A} (J : X → Prop) (c : AU A) : Prop :=
  triple (fun s => J (ag_ext s)) c (fun _ s => J (ag_ext s)).

Context (J : X → Prop).

Lemma holds_ret {A} (a : A) : holds J (retS a).
Proof using. by apply triple_ret. Qed.

Lemma holds_bind {A B} (c : AU A) (k : A → AU B) : holds J c → (∀ a, holds J (k a)) → holds J (bindS c k).
Proof using. intros Hc Hk. by eapply triple_bind. Qed.

Lemma holds_quiet {A} (c : AU A) : keeps_ext c → holds J c.
Proof using. intros Hc s Hs. by rewrite Hc. Qed.

Lemma holds_provider {A} (c : St X A) : kept J c → holds J (provider c).
Proof using. intros Hc s Hs. unfold provider. specialize (Hc (ag_ext s) Hs). by destruct (c (ag_ext s)). Qed.

Lemma holds_dropped {A} (c : AU A) : holds J c → holds J (dropped c).
Proof using. intros H. apply holds_bind; [done|]. intros a. apply holds_ret. Qed.

Lemma holds_forS {A} (k : A → AU unit) l : (∀ a, holds J (k a)) → holds J (forS k l).
Proof using. intros Hk. induction l as [|a l IH]; [apply holds_ret|]. by apply holds_bind. Qed.

Lemma mem_peek {A} (g : Runtime → A) : keeps_ext (X := X) (peek g).
Proof using. by intros s. Qed.
Lemma mem_poke g : keeps_ext (X := X) (poke g).
Proof using. by intros s. Qed.
End holds.

#[export] Hint Resolve mem_peek mem_poke : keeps_ext.

(** Decompose a computation down to calls the hypotheses speak of. *)
Ltac holds_steps :=
  repeat first
    [ apply holds_ret
    | progress intros
    | solve [auto with holds]
    | apply holds_quiet; solve [keeps_ext_steps]
    | apply holds_provider; solve [eauto with holds]
    | apply holds_dropped
    | apply holds_bind
    | apply holds_forS
    | match goal with |- holds _ (match ?x with _ => _ end) => destruct x eqn:? end ].

(** What the engines promise: every call but the creation of a task and its link
    keeps [J]; listed decisions are [good]; and so does turning a good decision
    into a task. *)
Class Promise {X : Type} {Zn : LocalZone} (p : Providers X) (J : X → Prop) (good : ActuationDecisionInfo → X → Prop) : Prop := {
  pm_reflection : ∀ run force, pv_reflection p = Some run → kept J (run force);
  pm_objective : ∀ run, pv_objective p = Some run → kept J run;
  pm_run : ∀ a, pv_actuation p = Some a → kept J (ActuationRun a);
  pm_list : ∀ a limit, pv_actuation p = Some a →
    triple J (ActuationList a limit) (fun r x => J x ∧ ∀ ds d, r = Ok ds → d ∈ ds → good d x);
  pm_scheduling : ∀ run, pv_scheduling p = Some run → kept J run;
  pm_portfolio : ∀ run, pv_portfolio p = Some run → kept J run;
  pm_discovery : ∀ run, pv_discovery p = Some run → kept J run;
  pm_selfExt : ∀ run limit, pv_selfExt p = Some run → kept J (run limit);
  pm_pressure : ∀ run, pv_pressure p = Some run → kept J run;
  pm_capacity : ∀ run, pv_capacity p = Some run → kept J run;
  pm_governance : ∀ g mode reason, pv_governance p = Some g → kept J (GovernanceSetMode g mode reason);
  pm_recompute : ∀ t, pv_taskOrchestrator p = Some t → kept J (RecomputePriorities t);
  pm_dispatch : ∀ t, pv_taskOrchestrator p = Some t → kept J (Dispatch t);
  pm_complete : ∀ t id, pv_taskOrchestrator p = Some t → kept J (CompleteTask t id);
  pm_fail : ∀ t id reason, pv_taskOrchestrator p = Some t → kept J (FailTask t id reason);
  pm_pause : ∀ t id, pv_taskOrchestrator p = Some t → kept J (PauseTask t id);
  pm_link : ∀ t id exec, pv_taskOrchestrator p = Some t → kept J (SetExecutionTaskID t id exec);
  pm_outcome : ∀ t id kind err n, pv_taskOrchestrator p = Some t → kept J (SetOutcome t id kind err n);
  pm_running : ∀ t limit, pv_taskOrchestrator p = Some t → kept J (ListRunningTasks t limit);
  pm_exec : ∀ run id, pv_executionLoop p = Some run → kept J (run id);
  pm_insert : ∀ f fb, pv_feedbackStore p = Some f → kept J (FeedbackInsert f fb);
  pm_recent : ∀ f limit, pv_feedbackStore p = Some f → kept J (FeedbackListRecent f limit);
  pm_byOutcome : ∀ f outcome since, pv_feedbackStore p = Some f → kept J (CountByOutcome f outcome since);
  pm_bySignal : ∀ f signal since, pv_feedbackStore p = Some f → kept J (CountBySignal f signal since);
  pm_planning : ∀ run, pv_goalPlanning p = Some run → kept J run;
  pm_replanning : ∀ run, pv_goalReplanning p = Some run → kept J run;
  pm_materialize : ∀ (ds : list ActuationDecisionInfo) d, d ∈ ds → proposed d = true → di_RequiresReview d = false →
    holds (fun x => J x ∧ ∀ d, d ∈ ds → good d x) (MaterializeDecisionAsTask p d)
}.

#[export] Hint Resolve pm_reflection pm_objective pm_run pm_scheduling pm_portfolio pm_discovery pm_selfExt pm_pressure
  pm_capacity pm_governance pm_recompute pm_dispatch pm_complete pm_fail pm_pause pm_link pm_outcome pm_running
  pm_exec pm_insert pm_recent pm_byOutcome pm_bySignal pm_planning pm_replanning : holds.

Section runtime.
Context {X : Type} {Zn : LocalZone} {U : UuidPkg} (p : Providers X) (J : X → Prop) (good : ActuationDecisionInfo → X → Prop).
Context {HP : Promise p J good}.
Abbreviation AU A := (St (Agent Runtime X) A).
Abbreviation inv := (holds J).

Lemma IsDuplicate_mem key window : keeps_ext (IsDuplicate p key window).
Proof using. unfold IsDuplicate, timeNow. keeps_ext_steps. Qed.

Lemma route_mem heavy ds queued suppressed : keeps_ext (route_decisions p heavy ds queued suppressed).
Proof using.
  revert queued suppressed. induction ds as [|d ds IH]; intros queued suppressed; cbn [route_decisions]; [keeps_ext_steps|].
  destruct (negb (proposed d)); [apply IH|]. unfold state_of, update_state, auditEvent.
  apply keeps_ext_bind; [keeps_ext_steps|]. intros window. apply keeps_ext_bind; [apply IsDuplicate_mem|]. intros seen.
  keeps_ext_steps; apply IH.
Qed.

Lemma materialize_all_holds (all ds : list ActuationDecisionInfo) created :
  (∀ d, d ∈ ds → d ∈ all) →
  holds (fun x => J x ∧ ∀ d, d ∈ all → good d x) (materialize_decisions p ds created).
Proof using HP.
  revert created. induction ds as [|d ds IH]; intros created Hsub; cbn [materialize_decisions]; [apply holds_ret|].
  assert (Hrest : ∀ d', d' ∈ ds → d' ∈ all) by (intros d' Hd'; apply Hsub; by right).
  destruct (negb (proposed d) || di_RequiresReview d) eqn:E; [by apply IH|].
  apply orb_false_iff in E as [E1%negb_false_iff E2].
  apply holds_bind; [|intros r; by apply IH]. apply pm_materialize; [|done|done]. apply Hsub. by left.
Qed.

Lemma actuation_holds : inv (cycleActuation p).
Proof using HP.
  unfold cycleActuation, state_of, update_state. destruct (pv_actuation p) as [a|] eqn:Ha; [|apply holds_ret].
  apply holds_bind; [holds_steps|]. intros [result|err]; [|apply holds_ret]. apply holds_bind; [holds_steps|]. intros heavy.
  apply triple_bind with (fun (r : res (list ActuationDecisionInfo)) s =>
    J (ag_ext s) ∧ ∀ ds d, r = Ok ds → d ∈ ds → good d (ag_ext s)).
  { intros s Hs. unfold provider. pose proof (pm_list a 50 Ha (ag_ext s) Hs) as H.
    by destruct (ActuationList a 50 (ag_ext s)) as [r x]. }
  intros r. cbv zeta. set (ds := match r with Ok ds => ds | Err _ => [] end).
  apply triple_weaken with (P' := fun s => (fun x => J x ∧ ∀ d, d ∈ ds → good d x) (ag_ext s))
    (Q' := fun _ s => (fun x => J x ∧ ∀ d, d ∈ ds → good d x) (ag_ext s)); [| |by intros ? w []].
  2:{ intros w [Hw Hg]. split; [done|]. intros d Hd. unfold ds in Hd. destruct r as [ds'|]; [|by apply elem_of_nil in Hd].
      by apply (Hg ds'). }
  match goal with |- triple _ ?c _ => change (holds (fun x => J x ∧ ∀ d, d ∈ ds → good d x) c) end.
  apply holds_bind; [apply holds_quiet, route_mem|]. intros counts. apply holds_bind; [holds_steps|]. intros ?.
  apply holds_bind; [by apply materialize_all_holds|]. holds_steps.
Qed.

Lemma feedback_holds task exec kind success signal : inv (recordFeedback p task exec kind success signal).
Proof using HP. unfold recordFeedback, generateID, timeNow, update_state, auditEvent. holds_steps. Qed.

Lemma move_holds (call : St X (option error)) (after : AU unit) moved :
  kept J call → inv after → inv (move_task call after moved).
Proof using. intros Hc Ha. unfold move_task. apply holds_bind; [by apply holds_provider|]. holds_steps; exact Ha. Qed.

Lemma task_holds t task exec : pv_taskOrchestrator p = Some t → inv (propagate_task p t task exec).
Proof using HP.
  intros Ht. unfold propagate_task. cbv zeta.
  assert (Hfin : ∀ kind lastError success signal event,
    inv (let! _ := dropped (provider (SetOutcome t (rg_ID task) kind lastError (rg_AttemptCount task + 1))) in
         let! _ := recordFeedback p task exec kind success signal in auditEvent p event (rg_ID task))).
  { intros. apply holds_bind; [holds_steps|]. intros ?. apply holds_bind; [apply feedback_holds|].
    intros ?. unfold auditEvent. holds_steps. }
  case_decide; [apply move_holds; eauto with holds|]. case_decide; [apply move_holds; eauto with holds|].
  case_decide; [destruct (manual_abort _); apply move_holds; eauto with holds|].
  destruct (_ && _); [|apply holds_ret]. apply move_holds; [eauto with holds|].
  apply holds_bind; [apply feedback_holds|]. intros ?. unfold auditEvent. holds_steps.
Qed.

Lemma propagate_holds : inv (PropagateExecutionResults p).
Proof using HP.
  unfold PropagateExecutionResults. destruct (pv_taskOrchestrator p) as [t|] eqn:Ht; [|apply holds_ret].
  destruct (pv_executionLoop p) as [getTask|] eqn:Hg; [|apply holds_ret].
  apply holds_bind; [holds_steps|]. intros [running|err]; [|apply holds_ret]. apply holds_bind; [|holds_steps].
  generalize (0, 0, 0) at 1. induction running as [|task running IH]; intros counts; cbn [propagate_all]; [apply holds_ret|].
  case_decide; [apply IH|]. apply holds_bind; [holds_steps|]. intros [exec|err]; [|apply IH].
  apply holds_bind; [by apply task_holds|]. intros x. apply IH.
Qed.

Lemma frozen_holds name run : inv run → inv (unless_frozen p name run).
Proof using. intros H. unfold unless_frozen, state_of, auditEvent. holds_steps; exact H. Qed.

Lemma recompute_holds : inv (cycleTaskRecompute p).
Proof using HP.
  unfold cycleTaskRecompute. destruct (pv_taskOrchestrator p) as [t|] eqn:Ht; [|apply holds_ret]. apply frozen_holds.
  apply holds_bind; [apply propagate_holds|]. intros [[[completed failed] paused] err]. unfold update_state, auditEvent.
  holds_steps.
Qed.

Lemma extension_holds : inv (cycleSelfExtension p).
Proof using HP.
  unfold cycleSelfExtension, state_of. destruct (pv_selfExt p) eqn:He; [|apply holds_ret].
  apply holds_bind; [holds_steps|]. intros disabled. apply holds_bind; [holds_steps|]. intros [xs|]; [|apply holds_ret].
  apply holds_bind; [|holds_steps]. apply holds_forS. intros x. apply holds_quiet.
  unfold review_extension, block_extension, update_state, auditEvent. destruct (negb _); [keeps_ext_steps|].
  apply keeps_ext_bind; [keeps_ext_steps|]. intros window. apply keeps_ext_bind; [apply IsDuplicate_mem|]. keeps_ext_steps.
Qed.

Lemma run_named_holds cycle : inv (run_named p cycle).
Proof using HP.
  unfold run_named, cycleReflection, cycleObjective, cycleScheduling, cyclePortfolio, cycleDiscovery,
    cycleTaskDispatch, cycleGoalPlanning, cycleGoalReplanning, cycleReporting, objective_snapshot, storeReport,
    timeNow, update_state, auditEvent.
  repeat case_decide; try (apply actuation_holds); try (apply extension_holds); try (apply recompute_holds);
    try (holds_steps; fail).
  - destruct (pv_taskOrchestrator p) as [t|] eqn:Ht; [|apply holds_ret]. apply frozen_holds. unfold link_execution. holds_steps.
  - destruct (pv_goalPlanning p) eqn:Hg; [|apply holds_ret]. apply frozen_holds. holds_steps.
  - destruct (pv_goalReplanning p) eqn:Hg; [|apply holds_ret]. apply frozen_holds. holds_steps.
Qed.

Lemma runCycles_holds cycles now : inv (run_cycles p cycles now).
Proof using HP.
  induction cycles as [|cycle cycles IH]; cbn [run_cycles]; [apply holds_ret|].
  apply holds_bind; [|intros err; apply holds_bind; [exact IH|holds_steps]]. unfold runCycle, update_state, auditEvent.
  apply holds_bind; [holds_steps|]. intros ?. apply holds_bind; [apply run_named_holds|]. holds_steps.
Qed.

Lemma downgrade_mem reason : keeps_ext (downgrade p reason).
Proof using. intros s. apply downgrade_moves. Qed.
Lemma disableHeavy_mem : keeps_ext (disableHeavyActions p).
Proof using. intros s. apply disableHeavy_moves. Qed.
Lemma checkRecovery_mem : keeps_ext (checkRecovery p).
Proof using. intros s. apply checkRecovery_moves. Qed.

Lemma tick_holds : inv (tick p).
Proof using HP.
  unfold tick, state_of, timeNow. apply holds_bind; [holds_steps|]. intros mode. case_decide; [apply holds_ret|].
  apply holds_bind; [holds_steps|]. intros now. apply holds_bind; [holds_steps|]. intros [inWindow|]; [|apply holds_ret].
  apply holds_bind; [unfold Cleanup, timeNow; holds_steps|]. intros ?. apply holds_bind.
  { unfold runSafetyChecks, check_pressure, check_overload. pose proof downgrade_mem. pose proof disableHeavy_mem.
    holds_steps; apply holds_quiet; auto. }
  intros ?. apply holds_bind; [holds_steps|]. intros [|cycle cycles]; [apply holds_ret|].
  apply holds_bind; [|holds_steps]. unfold work, update_state, state_of. apply holds_bind; [holds_steps|]. intros ?.
  apply holds_bind; [apply runCycles_holds|]. intros ok. apply holds_bind; [holds_steps|]. intros ?.
  apply holds_bind; [holds_steps|]. intros failures. apply holds_bind; [holds_steps|]. intros limit.
  apply holds_bind; [|intros ?; apply holds_quiet, checkRecovery_mem].
  destruct (bool_decide _); [apply holds_quiet, downgrade_mem|apply holds_ret].
Qed.

Lemma bootstrap_holds on cycle : inv (bootstrap p on cycle (run_named p cycle)).
Proof using HP.
  unfold bootstrap, timeNow, update_state. destruct on; [|apply holds_ret].
  apply holds_bind; [apply run_named_holds|]. holds_steps.
Qed.

(** An invariant the engines promise to keep holds over every call. *)
Lemma exec_au_holds op : inv (exec_au p op).
Proof using HP.
  destruct op; cbn [exec_au].
  - apply holds_dropped, tick_holds.
  - apply holds_dropped. unfold Start, state_of, timeNow, update_state, auditEvent, set_startup_mode.
    apply holds_bind; [holds_steps|]. intros [|]; [apply holds_ret|]. apply holds_bind; [holds_steps|]. intros now.
    apply holds_bind; [holds_steps|]. intros cfg. apply holds_bind; [holds_steps|]. intros ?.
    apply holds_bind; [holds_steps|]. intros ?. apply holds_bind; [holds_steps|]. intros ?.
    apply holds_bind; [|holds_steps]. unfold runBootstrap. apply holds_bind; [holds_steps|]. intros bs.
    apply holds_bind; [exact (bootstrap_holds _ "reflection")|]. intros ?.
    apply holds_bind; [exact (bootstrap_holds _ "objective")|]. intros ?.
    apply holds_bind; [exact (bootstrap_holds _ "actuation")|]. intros ?. exact (bootstrap_holds _ "reporting").
  - unfold Stop, state_of, update_state, auditEvent. holds_steps.
  - unfold ReloadConfig, update_state, auditEvent. holds_steps.
  - unfold SetMode, update_state, auditEvent. holds_steps.
  - unfold CreateExceptionReport, storeReport, timeNow, auditEvent. holds_steps.
  - unfold GetReflectionFeedback, GetObjectiveFeedback, timeNow, auditEvent. cbv zeta. holds_steps.
Qed.
End runtime.
