(* ===== verification/FeedbackStore.v ===== *)
(** * Execution feedback in PostgreSQL ([internal/agent/autonomy/feedback_store.go])

    The store behind the runtime's feedback, and what reflection and objective
    read through it.  The in-memory store is for tests. *)

From stdpp Require Import base gmap strings list tactics numbers fin_maps sorting.
From Stdlib Require Import ZArith Lia Sorted.
From S2P Require Import Prelude GoFloat GoSort Models GoTime AgentWorld AutonomyConfig Autonomy.

Open Scope Z_scope.

Abbreviation FBDB := (gmap string ExecutionFeedback).

#[export] Instance ExecutionFeedback_settable : Settable ExecutionFeedback := fun r =>
  mkFeedback (fb_ID r) (fb_TaskID r) (fb_ExecutionTaskID r) (fb_OutcomeType r) (fb_Success r) (fb_StepsExecuted r)
    (fb_StepsFailed r) (fb_ErrorSummary r) (fb_SemanticSignal r) (fb_SourceDecisionType r) (fb_CreatedAt r).

Definition insert_feedback (f : ExecutionFeedback) (db : FBDB) : res (unit * FBDB) :=
  if negb (in_int4 (fb_StepsExecuted f) && in_int4 (fb_StepsFailed f)) then Err ErrOutOfRange
  else match db !! fb_ID f with
       | Some _ => Err ErrDuplicateKey
       | None => Ok (tt, <[fb_ID f := f <| fb_CreatedAt := trunc_us (fb_CreatedAt f) |>]> db)
       end.

Definition feedback_rows (db : FBDB) : list ExecutionFeedback := (map_to_list db).*2.

(** [created_at >= $2]: the instant is sent with microseconds. *)
Definition not_before (since : time) (f : ExecutionFeedback) : bool := bool_decide (trunc_us since ≤ fb_CreatedAt f).

Definition later (x y : ExecutionFeedback) : bool := bool_decide (fb_CreatedAt y < fb_CreatedAt x).

Definition recent_rows (n : nat) (db : FBDB) : list ExecutionFeedback := take n (SliceStable later (feedback_rows db)).

Definition count_rows (p : ExecutionFeedback → bool) (since : time) (db : FBDB) : Z :=
  Z.of_nat (length (List.filter (fun f => p f && not_before since f) (feedback_rows db))).

Definition has_outcome (outcome : string) (f : ExecutionFeedback) : bool := bool_decide (fb_OutcomeType f = outcome).
Definition has_signal (signal : string) (f : ExecutionFeedback) : bool := bool_decide (fb_SemanticSignal f = signal).

Section store.
Context {X : Type}.
Abbreviation FB A := (St (Agent FBDB X) A).

Definition Feedback_Insert (f : ExecutionFeedback) : FB (option error) :=
  let! r := statement (insert_feedback f) in retS (wrap "insert execution feedback: " <$> failed r).

Definition Feedback_ListRecent (limit : Z) : FB (res (list ExecutionFeedback)) :=
  let limit := if bool_decide (limit ≤ 0) || bool_decide (200 < limit) then 50 else limit in
  let! r := statement (fun db => Ok (recent_rows (Z.to_nat limit) db, db)) in
  retS match r with Ok rows => Ok rows | Err err => Err (wrap "list execution feedback: " err) end.

Definition count_feedback (prefix : string) (p : ExecutionFeedback → bool) (since : time) : FB (Z * option error) :=
  let! r := statement (fun db => Ok (count_rows p since db, db)) in
  retS match r with Ok n => (n, None) | Err err => (0, Some (wrap prefix err)) end.

Definition Feedback_CountByOutcome (outcome : string) (since : time) : FB (Z * option error) :=
  count_feedback "count feedback by outcome: " (has_outcome outcome) since.
Definition Feedback_CountBySignal (signal : string) (since : time) : FB (Z * option error) :=
  count_feedback "count feedback by signal: " (has_signal signal) since.

Definition feedback_pg : ExecutionFeedbackStore (Agent FBDB X) :=
  mkFeedbackStore Feedback_Insert Feedback_ListRecent Feedback_CountByOutcome Feedback_CountBySignal.

(** ** Without faults *)

Lemma count_run prefix p since (s : Agent FBDB X) :
  ag_faults s = [] → count_feedback prefix p since s = ((count_rows p since (ag_db s), None), s).
Proof using.
  intros Hf. unfold count_feedback. rewrite bindS_run, statement_run by done. cbn. f_equal. by destruct s.
Qed.

Lemma list_run limit (s : Agent FBDB X) :
  ag_faults s = [] → 0 < limit ≤ 200 →
  Feedback_ListRecent limit s = (Ok (recent_rows (Z.to_nat limit) (ag_db s)), s).
Proof using.
  intros Hf Hl. unfold Feedback_ListRecent. rewrite !bool_decide_false by lia. cbn [orb].
  rewrite bindS_run, statement_run by done. cbn. f_equal. by destruct s.
Qed.
End store.

Section feedback.
Context {X : Type} {Zn : LocalZone} (p : Providers (Agent FBDB X)).
Hypothesis store : pv_feedbackStore p = Some feedback_pg.

(** What the objective is told counts the rows of the last day. *)
Lemma objective_feedback_exact (s : Agent Runtime (Agent FBDB X)) :
  ag_faults (ag_ext s) = [] →
  let since := pv_clock p (ag_reads s) - 24 * Hour in
  let db := ag_db (ag_ext s) in
  let count outcome := count_rows (has_outcome outcome) since db in
  let m := fst (GetObjectiveFeedback p s) in
  fm_CompletedCount m = count "completed" ∧ fm_FailedCount m = count "failed" ∧ fm_AbortedCount m = count "aborted" ∧
  fm_BlockedCount m = count "blocked" ∧ fm_RepeatedFailures m = count_rows (has_signal "repeated_failure") since db ∧
  fm_TotalExecutions m = count "completed" + count "failed" + count "aborted" + count "blocked" ∧
  fm_SuccessRate m = success_rate (count "completed") (fm_TotalExecutions m) ∧ fm_MeasuredSince m = since.
Proof using store.
  intros Hf. cbv zeta. unfold GetObjectiveFeedback. rewrite store. cbn [feedback_pg CountByOutcome CountBySignal].
  unfold Feedback_CountByOutcome, Feedback_CountBySignal.
  assert (Hp : ∀ A (c : St (Agent FBDB X) A) a (w : Agent Runtime (Agent FBDB X)),
    c (ag_ext w) = (a, ag_ext w) → provider c w = (a, w)).
  { intros A c a w H. unfold provider. rewrite H. by destruct w. }
  rewrite bindS_run. cbn [timeNow reading fst snd]. set (w := s <| ag_reads := _ |>).
  assert (Hw : ag_faults (ag_ext w) = []) by exact Hf. change (ag_db (ag_ext s)) with (ag_db (ag_ext w)).
  do 5 (rewrite bindS_run; erewrite Hp by (by apply count_run); cbn [fst snd]).
  rewrite bindS_run. cbn. by split_and!.
Qed.

Lemma filter_take_ordered (ok : ExecutionFeedback → bool) n l :
  StronglySorted (fun x y => ok y = true → ok x = true) l → (length (List.filter ok l) ≤ n)%nat →
  List.filter ok (take n l) = List.filter ok l.
Proof using.
  intros Hl. revert n. induction Hl as [|x l Hl IH Hx]; intros n Hn; [by rewrite take_nil|].
  cbn in *. destruct (ok x) eqn:E.
  - destruct n as [|n]; [cbn in Hn; lia|]. cbn. rewrite E. f_equal. apply IH. cbn in Hn. lia.
  - assert (Hnone : ∀ l', Forall (fun y => ok y = true → false = true) l' → List.filter ok l' = []).
    { induction l' as [|y l' IHl']; [done|]. intros [Hy Hl']%Forall_cons. cbn. destruct (ok y); [|by apply IHl'].
      by discriminate Hy. }
    destruct n as [|n]; cbn; [by rewrite (Hnone l Hx)|]. rewrite E, (Hnone l Hx). apply Hnone. by apply Forall_take.
Qed.

(** What reflection is told is the feedback of the last day, if there are at most
    fifty rows of it; of more, the newest fifty. *)
Lemma reflection_feedback_exact (s : Agent Runtime (Agent FBDB X)) :
  ag_faults (ag_ext s) = [] →
  let since := pv_clock p (ag_reads s) - 24 * Hour in
  let fresh := List.filter (fun fb => negb (bool_decide (fb_CreatedAt fb < since))) (feedback_rows (ag_db (ag_ext s))) in
  ∃ signals, fst (GetReflectionFeedback p s) = Ok signals ∧
    signals = recent_signals since (recent_rows 50 (ag_db (ag_ext s))) ∧
    ((length fresh ≤ 50)%nat → signals ≡ₚ map feedback_signal fresh).
Proof using store.
  intros Hf. cbv zeta. unfold GetReflectionFeedback. rewrite store. cbn [feedback_pg FeedbackListRecent].
  rewrite bindS_run. cbn [timeNow reading fst snd]. set (w := s <| ag_reads := _ |>).
  assert (Hw : ag_faults (ag_ext w) = []) by exact Hf. change (ag_db (ag_ext s)) with (ag_db (ag_ext w)).
  rewrite bindS_run. unfold provider at 1 2. rewrite list_run by (done || lia). cbn [fst snd].
  rewrite bindS_run. cbn [retS fst]. eexists. split; [reflexivity|]. split; [reflexivity|]. intros Hn.
  unfold recent_signals. apply Permutation_map. unfold recent_rows. rewrite filter_take_ordered.
  - apply filter_perm, SliceStable_perm.
  - set (rows := feedback_rows _).
    assert (Hs : ordered later (SliceStable later rows)).
    { apply SliceStable_ordered; unfold later; intros; rewrite ?bool_decide_eq_true, ?bool_decide_eq_false in *; lia. }
    unfold ordered in Hs. induction Hs as [|x l Hl IH Hx]; constructor; [done|].
    eapply Forall_impl; [exact Hx|]. cbn. intros y Hy. unfold later in Hy. apply bool_decide_eq_false in Hy.
    rewrite !negb_true_iff, !bool_decide_eq_false. lia.
  - etrans; [|exact Hn]. apply Nat.eq_le_incl, Permutation_length, filter_perm, SliceStable_perm.
Qed.
End feedback.
