(* ===== verification/Chain.v ===== *)
(** * The autonomy runtime as deployed ([cmd/api-gateway/main.go])

    The bridges by which the runtime reaches the actuation engine, the task
    orchestrator and the execution loop, and the whole as one system: decisions
    proposed by one engine become tasks of another.  The other engines the
    runtime drives stay arbitrary, on a state of their own. *)

From stdpp Require Import base gmap strings list tactics numbers fin_maps.
From Stdlib Require Import ZArith Lia.
From S2P Require Import Prelude GoFloat GoJSON Models GoTime AgentWorld TaskQueue TaskOrchestrator TaskAdapter ExecutionLoop Actuation ActuationProps ActuationRuns AutonomyConfig Autonomy AutonomyProps AutonomyControl.

Open Scope Z_scope.

(** ** The task orchestrator's bridge; [None] is a nil adapter *)

Section task_bridge.
Context {U : UuidPkg} (ta : option Engine).

Definition tb_CreateTask (source goal : string) (urgency expectedValue riskLevel : float64) (strategyType : string)
    : TO (res string) :=
  let! r := TA_CreateTask source goal urgency expectedValue riskLevel strategyType ta in
  retS match r with Ok task => Ok (ot_ID task) | Err err => Err err end.

Definition tb_RecomputePriorities : TO (option error) := let! r := TA_RecomputePriorities ta in retS (failed r).

(** The ids of the dispatched tasks are not passed on. *)
Definition tb_Dispatch : TO (res DispatchResultInfo) :=
  let! r := TA_Dispatch ta in
  retS match r with
       | (_, Some err) => Err err
       | (result, None) =>
           Ok (mkDispatchInfo (Z.of_nat (length (dr_Dispatched result))) (Z.of_nat (length (dr_Skipped result)))
                 (Z.of_nat (length (dr_Blocked result))) [])
       end.

Definition tb_FindByActuationDecision (decisionID : string) : TO (string * option error) :=
  let! r := TA_FindByActuationDecision decisionID ta in
  retS match r with Ok id => (id, None) | Err err => ("", Some err) end.

Definition tb_CompleteTask (id : string) : TO (option error) := let! r := TA_CompleteTask id ta in retS (failed r).
Definition tb_FailTask (id reason : string) : TO (option error) :=
  let! r := TA_FailTaskWithReason id reason ta in retS (failed r).
Definition tb_PauseTask (id : string) : TO (option error) := let! r := TA_PauseTask id ta in retS (failed r).
Definition tb_SetActuationDecisionID (taskID decisionID : string) : TO (option error) :=
  let! r := TA_SetActuationDecisionID taskID decisionID ta in retS (failed r).
Definition tb_SetExecutionTaskID (taskID execTaskID : string) : TO (option error) :=
  let! r := TA_SetExecutionTaskID taskID execTaskID ta in retS (failed r).
Definition tb_SetOutcome (taskID outcomeType lastError : string) (attemptCount : Z) : TO (option error) :=
  let! r := TA_SetOutcome taskID outcomeType lastError attemptCount ta in retS (failed r).

Definition running_info (t : OrchestratedTask) : RunningTaskInfo :=
  mkRunningTask (ot_ID t) (ot_ExecutionTaskID t) (ot_Goal t) (ot_AttemptCount t).

Definition tb_ListRunningTasks (limit : Z) : TO (res (list RunningTaskInfo)) :=
  let! r := TA_ListRunningTasks limit ta in
  retS match r with Ok tasks => Ok (map running_info tasks) | Err err => Err err end.

(** [goalPlanEmitterBridge.EmitTask], how goal planning creates tasks. *)
Definition EmitTask (subgoalID goalID actionType : string) (urgency expectedValue riskLevel : float64)
    (strategyType : string) : TO (option error) :=
  let! r := TA_CreateTask ("goal_planning:" +:+ subgoalID) (actionType +:+ " (goal:" +:+ goalID +:+ ")")
              urgency expectedValue riskLevel strategyType ta in
  retS (failed r).
End task_bridge.

(** ** The actuation engine's bridge *)

Section act_bridge.
Context {X : Type} {U : UuidPkg} (ae : option ActEngine).
Abbreviation AC A := (St (Agent ACDB X) A).

Definition ab_Run : AC (res ActuationResult) :=
  match ae with
  | None => retS (Ok (mkActuationResult 0 0))
  | Some e =>
      let! result := Run e in
      let decisions := ar_Decisions result in
      retS (Ok (mkActuationResult (Z.of_nat (length decisions))
                  (Z.of_nat (length (List.filter ad_RequiresReview decisions)))))
  end.

Definition decision_info (d : ActuationDecision) : ActuationDecisionInfo :=
  mkDecisionInfo (ad_ID d) (ad_Type d) (ad_Status d) (ad_RequiresReview d) (ad_Priority d) (ad_ProposedAt d).

Definition ab_ListDecisions (limit : Z) : AC (res (list ActuationDecisionInfo)) :=
  match ae with
  | None => retS (Ok [])
  | Some _ =>
      let! r := ListDecisions limit in
      retS match r with Ok ds => Ok (map decision_info ds) | Err err => Err err end
  end.

Definition bridge_actuation : ActuationRunner (Agent ACDB X) := mkActuationRunner ab_Run ab_ListDecisions.
End act_bridge.

(** ** The execution loop's bridge *)

Definition steps_in (status : StepStatus) (t : ExecutionTask) : list ExecutionStep :=
  List.filter (fun step => bool_decide (st_Status step = status)) (et_Plan t).

Definition exec_info (t : ExecutionTask) : ExecTaskInfo :=
  mkExecInfo (et_ID t) (exec_status_string (et_Status t)) (et_AbortReason t) (et_IterationCount t)
    (Z.of_nat (length (steps_in StepExecuted t))) (Z.of_nat (length (steps_in StepFailed t)))
    (negb (bool_decide (steps_in StepPendingReview t = []))).

(** [None] is a nil adapter. *)
Definition bridge_GetTask {J : PgJsonb} {P X : Type} (el : option (LoopEngine P)) (id : string)
    : St (Agent LoopDB X) (res ExecTaskInfo) :=
  match el with
  | None => retS (Err (Errorf "execution loop not available"))
  | Some _ =>
      let! r := exec_Get id in
      retS match r with Ok t => Ok (exec_info t) | Err err => Err err end
  end.

(** ** The system *)

(** The task orchestrator's and the actuation engine's state, the calls of the
    former so far, and the state of everything else. *)
Record ChainWorld (Y : Type) := mkChain {
  ch_tasks : TOState;
  ch_calls : nat;
  ch_act : Agent ACDB unit;
  ch_rest : Y
}.
Arguments mkChain {Y}.
Arguments ch_tasks {Y}.
Arguments ch_calls {Y}.
Arguments ch_act {Y}.
Arguments ch_rest {Y}.

#[export] Instance ChainWorld_settable {Y} : Settable (ChainWorld Y) := fun r =>
  mkChain (ch_tasks r) (ch_calls r) (ch_act r) (ch_rest r).

(** Requests to the task orchestrator from elsewhere: the API, goal planning. *)
Inductive TaskCall : Type :=
| TCCreate (source goal : string) (urgency expectedValue riskLevel : float64) (strategyType : string)
| TCEmit (subgoalID goalID actionType : string) (urgency expectedValue riskLevel : float64) (strategyType : string)
| TCRecompute
| TCDispatch
| TCComplete (id : string)
| TCFail (id reason : string)
| TCPause (id : string).

Inductive ChainOp : Type :=
| ChRuntime (op : AuOp)
| ChDecision (op : ActOp)
| ChTask (call : TaskCall).

Section system.
Context {Y : Type} {Zn : LocalZone} {U : UuidPkg}.
Context (te : Engine) (ae : ActEngine) (clock : nat → time) (q : Providers Y).
Abbreviation World := (ChainWorld Y).

(** A call of the task orchestrator, at the time the clock shows. *)
Definition on_tasks {A} (c : TO A) : St World A := fun w =>
  let '(a, s) := c ((ch_tasks w) <| to_now := clock (ch_calls w) |>) in
  (a, (w <| ch_tasks := s |>) <| ch_calls := S (ch_calls w) |>).

Definition on_act {A} (c : St (Agent ACDB unit) A) : St World A := fun w =>
  let '(a, s) := c (ch_act w) in (a, w <| ch_act := s |>).

Definition on_rest {A} (c : St Y A) : St World A := fun w =>
  let '(a, y) := c (ch_rest w) in (a, w <| ch_rest := y |>).

Definition bridge_tasks : TaskOrchestratorRunner World :=
  let ta := Some te in
  mkTaskRunner (fun source goal u v r strategy => on_tasks (tb_CreateTask ta source goal u v r strategy))
    (on_tasks (tb_RecomputePriorities ta)) (on_tasks (tb_Dispatch ta))
    (fun decision => on_tasks (tb_FindByActuationDecision ta decision))
    (fun id => on_tasks (tb_CompleteTask ta id)) (fun id reason => on_tasks (tb_FailTask ta id reason))
    (fun id => on_tasks (tb_PauseTask ta id)) (fun id decision => on_tasks (tb_SetActuationDecisionID ta id decision))
    (fun id exec => on_tasks (tb_SetExecutionTaskID ta id exec))
    (fun id kind lastError attempts => on_tasks (tb_SetOutcome ta id kind lastError attempts))
    (fun limit => on_tasks (tb_ListRunningTasks ta limit)).

Definition bridge_decisions : ActuationRunner World :=
  mkActuationRunner (on_act (ab_Run (Some ae))) (fun limit => on_act (ab_ListDecisions (Some ae) limit)).

Definition rest_governance (g : GovernanceSetter Y) : GovernanceSetter World :=
  mkGovernanceSetter (on_rest (GovernanceGetMode g)) (fun mode reason => on_rest (GovernanceSetMode g mode reason)).

Definition rest_feedback (f : ExecutionFeedbackStore Y) : ExecutionFeedbackStore World :=
  mkFeedbackStore (fun fb => on_rest (FeedbackInsert f fb)) (fun limit => on_rest (FeedbackListRecent f limit))
    (fun outcome since => on_rest (CountByOutcome f outcome since)) (fun signal since => on_rest (CountBySignal f signal since)).

(** The runtime's providers: the two engines behind their bridges, and [q]. *)
Definition deployed : Providers World :=
  mkProviders (pv_clock q) (pv_auditor q)
    ((fun run force => on_rest (run force)) <$> pv_reflection q)
    (on_rest <$> pv_objective q) (Some bridge_decisions)
    (on_rest <$> pv_scheduling q) (on_rest <$> pv_portfolio q) (on_rest <$> pv_discovery q)
    ((fun run limit => on_rest (run limit)) <$> pv_selfExt q) (on_rest <$> pv_pressure q)
    (on_rest <$> pv_capacity q) (rest_governance <$> pv_governance q) (Some bridge_tasks)
    ((fun run exec => on_rest (run exec)) <$> pv_executionLoop q) (rest_feedback <$> pv_feedbackStore q)
    (on_rest <$> pv_goalPlanning q) (on_rest <$> pv_goalReplanning q).

Definition exec_task_call (call : TaskCall) : TO unit :=
  match call with
  | TCCreate source goal u v r strategy => ignore (TaskOrchestrator.CreateTask te source goal u v r strategy)
  | TCEmit subgoal goal action u v r strategy => ignore (EmitTask (Some te) subgoal goal action u v r strategy)
  | TCRecompute => ignore (TaskOrchestrator.RecomputePriorities te)
  | TCDispatch => ignore (TaskOrchestrator.Dispatch te)
  | TCComplete id => ignore (TaskOrchestrator.CompleteTask te id)
  | TCFail id reason => ignore (FailTaskWithReason te id reason)
  | TCPause id => ignore (TaskOrchestrator.PauseTask te id)
  end.

Definition exec_chain (op : ChainOp) : St (Agent Runtime World) unit :=
  match op with
  | ChRuntime op => exec_au deployed op
  | ChDecision op => provider (on_act (exec_op ae op))
  | ChTask call => provider (on_tasks (exec_task_call call))
  end.
End system.
