(* ===== verification/ChainProps.v ===== *)
(** * From decisions to tasks, as deployed

    The runtime over the real actuation engine and task orchestrator: each
    decision becomes at most one task, and only decisions that need no review do.

    The last part is a concrete run: a witness, and what a fault between two
    statements does. *)

From stdpp Require Import base gmap strings list tactics numbers fin_maps.
From Stdlib Require Import ZArith Lia.
From S2P Require Import Prelude GoFloat GoSort Models GoTime AgentWorld TaskQueue TaskOrchestrator TaskOrchestratorProps TaskAdapter Actuation ActuationProps ActuationRuns AutonomyConfig Autonomy AutonomyProps AutonomyControl AutonomyInvariant Chain Fixtures AutonomyCalls AutonomyDemo.

Open Scope Z_scope.

(** ** The decisions' table *)

(** What a decision never loses. *)
Definition same_decision (d d' : ActuationDecision) : Prop :=
  ad_ID d' = ad_ID d ∧ ad_Type d' = ad_Type d ∧ ad_RequiresReview d' = ad_RequiresReview d.

Lemma same_decision_refl d : same_decision d d.
Proof. by split_and!. Qed.
#[local] Hint Resolve same_decision_refl : core.

Definition keyed (db : ACDB) : Prop := ∀ id d, db !! id = Some d → ad_ID d = id.

Definition lasts (db db' : ACDB) : Prop :=
  ∀ id d, db !! id = Some d → ∃ d', db' !! id = Some d' ∧ same_decision d d'.

Lemma table_step_lasts (N : string → ActuationDecision → Prop) op db db' :
  (∀ id d, N id d → new_row id d) → keyed db → table_step N op db db' → keyed db' ∧ lasts db db'.
Proof.
  intros HN Hk H. unfold table_step in H. destruct (op_target op) as [[id target]|].
  - destruct H as [->|(d & d' & Hd & (t & a & _ & _ & ->) & ->)].
    + split; [done|]. intros i d Hd. exists d. by auto.
    + split.
      * intros i x. rewrite lookup_insert. case_decide as Hi; [|by apply Hk]. intros [= <-]. subst i. exact (Hk _ _ Hd).
      * intros i x Hx. rewrite lookup_insert. case_decide as Hi; [|exists x; by auto]. subst i. simplify_eq.
        eexists. split; [done|]. by split_and!.
  - destruct H as [Hsub Hnew]. split.
    + intros i d Hd. destruct (db !! i) as [d0|] eqn:E; [|by apply (new_id i d), HN, Hnew].
      pose proof (lookup_weaken _ _ _ _ E Hsub). simplify_eq. by apply Hk.
    + intros i d Hd. exists d. split; [by eapply lookup_weaken|]. by auto.
Qed.

(** ** The invariant *)

(** A task for a decision that needs no review. *)
Definition explains (db : ACDB) (o : Origin) : Prop :=
  ∃ d, db !! og_decision o = Some d ∧ ad_RequiresReview d = false ∧ og_source o = "actuation" ∧
       og_goal o = decision_goal (ad_Type d).

Lemma explains_lasts db db' o : lasts db db' → explains db o → explains db' o.
Proof.
  intros H (d & Hd & Hr & Hs & Hg). destruct (H _ _ Hd) as (d' & Hd' & _ & Ht & Hr').
  exists d'. rewrite Hr', Ht. by split_and!.
Qed.

(** No task of [L] belongs to the decision. *)
Definition unlinked (L : gmap string Origin) (decision : string) : Prop :=
  decision ≠ "" → ∀ i o, L !! i = Some o → og_decision o ≠ decision.

Record well_linked (L0 : gmap string Origin) (db : ACDB) (L : gmap string Origin) : Prop := {
  wl_ids : L !! "" = None;
  wl_old : L0 ⊆ L;
  wl_new : ∀ i o, L !! i = Some o → L0 !! i = None → og_decision o ≠ "" → explains db o;
  wl_once : ∀ i j o o', L !! i = Some o → L !! j = Some o' → og_decision o ≠ "" → og_decision o = og_decision o' → i = j
}.

Section links.
Context (L0 : gmap string Origin) (db : ACDB).

Lemma well_linked_lasts L db' : lasts db db' → well_linked L0 db L → well_linked L0 db' L.
Proof using.
  intros H [W1 W2 W3 W4]. split; [done|done| |done]. intros i o Hi H0 Hd. eapply explains_lasts; [exact H|]. by eapply W3.
Qed.

(** A task without a decision may always be added. *)
Lemma well_linked_create L id source goal :
  id ≠ "" → L !! id = None → well_linked L0 db L → well_linked L0 db (<[id := mkOrigin source goal ""]> L).
Proof using.
  intros Hid Hn [W1 W2 W3 W4]. split.
  - by rewrite lookup_insert_ne.
  - etrans; [exact W2|]. by apply insert_subseteq.
  - intros i o. rewrite lookup_insert. case_decide; [|by apply W3]. by intros [= <-] _.
  - intros i j o o'. rewrite !lookup_insert. case_decide; [by intros [= <-] _|]. intros Hi.
    case_decide; [intros [= <-] Hd E; by rewrite E in Hd|]. intros Hj. by eapply W4.
Qed.

(** And linked to a decision without a task. *)
Lemma well_linked_link L id o decision :
  L !! id = Some o → L0 !! id = None → unlinked L decision →
  (decision ≠ "" → explains db (mkOrigin (og_source o) (og_goal o) decision)) →
  well_linked L0 db L → well_linked L0 db (<[id := mkOrigin (og_source o) (og_goal o) decision]> L).
Proof using.
  intros Hid H0 Hun Hex [W1 W2 W3 W4]. split.
  - rewrite lookup_insert_ne; [done|]. intros ->. congruence.
  - apply insert_subseteq_r; [done|exact W2].
  - intros i x. rewrite lookup_insert. case_decide; [|by apply W3]. intros [= <-] _ Hd. by apply Hex.
  - intros i j x x'. rewrite !lookup_insert. case_decide as Hi.
    + intros [= <-]. case_decide as Hj; [by intros _ _ _; rewrite <- Hi|]. intros Hx' Hd E. exfalso.
      exact (Hun Hd j x' Hx' (eq_sym E)).
    + intros Hx. case_decide as Hj; [|intros Hx'; by eapply W4]. intros [= <-] Hd E. exfalso. cbn in E.
      rewrite E in Hd. exact (Hun Hd i x Hx E).
Qed.
End links.

Section system.
Context {Y : Type} {Zn : LocalZone} {U : UuidPkg}.
Context (te : Engine) (ae : ActEngine) (clock : nat → time) (q : Providers Y) (L0 : gmap string Origin).
Hypothesis ids_nonempty : ∀ n, uuid_String (uuid_New n) ≠ "".
Abbreviation World := (ChainWorld Y).
Abbreviation p := (deployed te ae clock q).

Definition chain_ok (w : World) : Prop :=
  keyed (ag_db (ch_act w)) ∧ ∃ L, settled L (ch_tasks w) ∧ well_linked L0 (ag_db (ch_act w)) L.

(** The decision is stored, as listed. *)
Definition stored (d : ActuationDecisionInfo) (w : World) : Prop :=
  ∃ row, ag_db (ch_act w) !! di_ID d = Some row ∧ ad_Type row = di_Type d ∧ ad_RequiresReview row = di_RequiresReview d.

(** The task orchestrator has the origins [L], the decisions are those of [a]. *)
Definition at_state (L : gmap string Origin) (a : Agent ACDB unit) (w : World) : Prop :=
  settled L (ch_tasks w) ∧ ch_act w = a.

Lemma on_tasks_at {A} L a (c : TO A) (Q : A → TOState → Prop) :
  triple (settled L) c Q → triple (at_state L a) (on_tasks clock c) (fun r w => Q r (ch_tasks w) ∧ ch_act w = a).
Proof using.
  intros H w [Hs Ha]. unfold on_tasks.
  assert (Hs' : settled L ((ch_tasks w) <| to_now := clock (ch_calls w) |>)) by (destruct Hs as (? & ? & ?); by split_and!).
  specialize (H _ Hs'). by destruct (c _) as [r s].
Qed.

Lemma tasks_kept {A} (c : TO A) : (∀ L, stays L c) → kept chain_ok (on_tasks (Y := Y) clock c).
Proof using.
  intros H w (Hk & L & Hs & Hw). pose proof (on_tasks_at L (ch_act w) c _ (H L) w (conj Hs eq_refl)) as [H1 H2].
  split; rewrite H2; [done|]. by exists L.
Qed.

Lemma rest_kept {A} (c : St Y A) : kept chain_ok (on_rest c).
Proof using. intros w Hw. unfold on_rest. by destruct (c (ch_rest w)). Qed.

Lemma act_kept {A} (c : St (Agent ACDB unit) A) :
  (∀ s, keyed (ag_db s) → keyed (ag_db (snd (c s))) ∧ lasts (ag_db s) (ag_db (snd (c s)))) →
  kept chain_ok (on_act (Y := Y) c).
Proof using.
  intros H w (Hk & L & Hs & Hw). specialize (H (ch_act w) Hk) as [H1 H2]. unfold on_act, chain_ok.
  destruct (c (ch_act w)) as [r s]. cbn in *. split; [done|]. exists L. split; [done|]. by eapply well_linked_lasts.
Qed.

Lemma ops_kept op : kept chain_ok (on_act (Y := Y) (exec_op ae op)).
Proof using.
  apply act_kept. intros s Hk. eapply table_step_lasts; [|exact Hk|apply exec_op_table]. by intros id d [].
Qed.

Lemma run_kept : kept chain_ok (on_act (Y := Y) (ab_Run (Some ae))).
Proof using.
  apply act_kept. intros s Hk. cbn [ab_Run]. rewrite bindS_run. cbn [retS snd].
  pose proof (exec_op_table ae OpRun s) as H. cbn [exec_op] in H. rewrite dropped_run in H. cbn [snd] in H.
  eapply table_step_lasts; [|exact Hk|exact H]. by intros id d [].
Qed.

(** *** A decision becomes a task *)

Definition well (d : ActuationDecisionInfo) (a : Agent ACDB unit) (w : World) : Prop :=
  ch_act w = a ∧ ∃ L, settled L (ch_tasks w) ∧ well_linked L0 (ag_db a) L.

Lemma tb_Find_at L a decision :
  well_linked L0 (ag_db a) L →
  triple (at_state L a) (on_tasks (Y := Y) clock (tb_FindByActuationDecision (Some te) decision))
    (fun r w => (fst r = "" → unlinked L decision) ∧ at_state L a w).
Proof using.
  intros Hw. eapply triple_weaken; [apply (on_tasks_at L a _ (fun r s => (fst r = "" → unlinked L decision) ∧ settled L s))|done|].
  - eapply triple_bind; [apply Find_settles, (wl_ids _ _ _ Hw)|]. cbv beta. intros r. apply triple_ret. intros s [Hr Hs].
    split; [|done]. destruct r as [id|err]; [|done]. intros Hid Hd. cbn in Hid. by apply Hr.
  - intros r w [[H1 H2] H3]. by split.
Qed.

Lemma tb_Create_at L a source goal u v r strategy :
  well_linked L0 (ag_db a) L →
  triple (at_state L a) (on_tasks (Y := Y) clock (tb_CreateTask (Some te) source goal u v r strategy))
    (fun r w => match r with
                | Ok id => (id ≠ "" ∧ L !! id = None) ∧ at_state (<[id := mkOrigin source goal ""]> L) a w
                | Err _ => at_state L a w
                end).
Proof using ids_nonempty.
  intros Hw. eapply triple_weaken; [apply (on_tasks_at L a _ (fun (r : res string) s =>
    match r with
    | Ok id => (id ≠ "" ∧ L !! id = None) ∧ settled (<[id := mkOrigin source goal ""]> L) s
    | Err _ => settled L s
    end))|done|].
  - eapply triple_bind; [apply Create_settles|]. cbv beta. intros [t|err]; apply triple_ret; [|done].
    intros s (Hn & Hs & n & Hid). split; [|done]. split; [|done]. rewrite Hid. apply ids_nonempty.
  - intros [id|err] w; [|by intros []]. intros [[H1 H2] H3]. by split.
Qed.

Lemma tb_Link_at L a id o decision :
  L !! id = Some o →
  triple (at_state L a) (on_tasks (Y := Y) clock (tb_SetActuationDecisionID (Some te) id decision))
    (fun _ => at_state (<[id := mkOrigin (og_source o) (og_goal o) decision]> L) a).
Proof using.
  intros Ho. eapply triple_weaken; [apply (on_tasks_at L a _ (fun _ => settled (<[id := mkOrigin (og_source o) (og_goal o) decision]> L)))|done|].
  - eapply triple_bind; [by apply Link_settles|]. cbv beta. intros r. by apply triple_ret.
  - done.
Qed.

Lemma provider_at {A} (P : World → Prop) (c : St World A) (Q : A → World → Prop) :
  triple P c Q → triple (fun s : Agent Runtime World => P (ag_ext s)) (provider c) (fun r s => Q r (ag_ext s)).
Proof using. intros H s Hs. unfold provider. specialize (H (ag_ext s) Hs). by destruct (c (ag_ext s)). Qed.

Lemma materialize_at L a d :
  well_linked L0 (ag_db a) L → di_RequiresReview d = false →
  (∃ row, ag_db a !! di_ID d = Some row ∧ ad_Type row = di_Type d ∧ ad_RequiresReview row = di_RequiresReview d) →
  triple (fun s : Agent Runtime World => at_state L a (ag_ext s)) (MaterializeDecisionAsTask p d)
    (fun _ s => ∃ L', at_state L' a (ag_ext s) ∧ well_linked L0 (ag_db a) L').
Proof using ids_nonempty.
  intros Hw Hrev (row & Hrow & Htype & Hrowrev). rewrite Hrev in Hrowrev.
  assert (Hsame : ∀ {B} (c : St (Agent Runtime World) B), keeps_ext c →
    triple (fun s => at_state L a (ag_ext s)) c (fun _ s => ∃ L', at_state L' a (ag_ext s) ∧ well_linked L0 (ag_db a) L')).
  { intros B c Hc s Hs. exists L. by rewrite Hc. }
  unfold MaterializeDecisionAsTask, state_of. cbn [deployed pv_taskOrchestrator].
  eapply triple_bind with (fun _ s => at_state L a (ag_ext s)); [by intros s|]. intros mode.
  unfold auditEvent at 1 2 3. case_decide; [apply Hsame; keeps_ext_steps|]. rewrite Hrev, andb_false_r.
  eapply triple_bind; [apply provider_at, (tb_Find_at L a (di_ID d) Hw)|]. cbv beta. intros [existing err]. cbn [fst].
  cbv zeta. apply triple_fact. intros Hun. case_bool_decide as He; cbn [negb]; [|apply Hsame; keeps_ext_steps].
  specialize (Hun He). eapply triple_bind; [apply provider_at, (tb_Create_at L a); exact Hw|]. cbv beta.
  intros [id|e]; [|apply Hsame; keeps_ext_steps]. apply triple_fact. intros [Hid Hn].
  set (o := mkOrigin "actuation" (decision_goal (di_Type d)) ""). set (L1 := <[id := o]> L).
  assert (Ho : L1 !! id = Some o) by apply lookup_insert_eq.
  eapply triple_bind with (fun _ s => at_state (<[id := mkOrigin (og_source o) (og_goal o) (di_ID d)]> L1) a (ag_ext s)).
  { apply triple_dropped. exact (provider_at _ _ _ (tb_Link_at L1 a id o (di_ID d) Ho)). }
  intros ?. intros s Hs. exists (<[id := mkOrigin (og_source o) (og_goal o) (di_ID d)]> L1). split.
  - rewrite bindS_run. cbn [retS snd]. unfold auditEvent, record_audit. by destruct (pv_auditor _).
  - apply well_linked_link; [done| | | |by apply well_linked_create].
    + destruct (L0 !! id) as [x|] eqn:E; [|done]. pose proof (lookup_weaken _ _ _ _ E (wl_old _ _ _ Hw)). congruence.
    + intros Hd i x. unfold L1. rewrite lookup_insert. case_decide; [intros [= <-]; cbn; congruence|]. by apply Hun.
    + intros _. exists row. rewrite Htype. by split_and!.
Qed.

Lemma materialize_kept (ds : list ActuationDecisionInfo) d :
  d ∈ ds → di_RequiresReview d = false →
  holds (fun w => chain_ok w ∧ ∀ d, d ∈ ds → stored d w) (MaterializeDecisionAsTask p d).
Proof using ids_nonempty.
  intros Hd Hrev s [(Hk & L & Hs & Hw) Hall].
  destruct (materialize_at L (ch_act (ag_ext s)) d Hw Hrev (Hall d Hd) s (conj Hs eq_refl)) as (L' & [Hs' Ha] & Hw').
  set (w := ag_ext _) in *. clearbody w. split.
  - split; rewrite Ha; [done|]. by exists L'.
  - intros d' Hd'. unfold stored. rewrite Ha. by apply Hall.
Qed.

(** *** Every call *)

Lemma Store_List_rows limit (s : Agent ACDB unit) :
  ag_db (snd (Store_List limit s)) = ag_db s ∧
  ∀ ds d, fst (Store_List limit s) = Ok ds → d ∈ ds → ∃ i, ag_db s !! i = Some d.
Proof using.
  unfold Store_List. rewrite bindS_run. cbn [retS fst snd]. unfold statement.
  assert (Hrows : ∀ n before d, d ∈ take n (SliceStable before (map_to_list (ag_db s)).*2) → ∃ i, ag_db s !! i = Some d).
  { intros n before d Hd%take_elem. rewrite SliceStable_elem, list_elem_of_fmap in Hd.
    destruct Hd as ([i d'] & -> & Hi%elem_of_map_to_list). by exists i. }
  destruct (ag_faults s) as [|[] fs]; cbn; (split; [done|]); intros ds d; try done; intros [= <-]; apply Hrows.
Qed.

Lemma list_kept limit :
  triple chain_ok (on_act (Y := Y) (ab_ListDecisions (Some ae) limit))
    (fun r w => chain_ok w ∧ ∀ ds d, r = Ok ds → d ∈ ds → stored d w).
Proof using.
  intros w Hok. pose proof Hok as (Hk & L & Hs & Hw). unfold on_act. cbn [ab_ListDecisions]. rewrite bindS_run.
  cbn [retS fst snd]. change (ListDecisions limit) with (Store_List (X := unit) limit).
  destruct (Store_List_rows limit (ch_act w)) as [Hdb Hrows]. set (r := Store_List limit (ch_act w)) in *.
  assert (Hok' : chain_ok (w <| ch_act := snd r |>)).
  { unfold chain_ok. cbn. rewrite Hdb. split; [done|]. by exists L. }
  cbn [fst snd]. split; [exact Hok'|]. intros ds d Hr Hd. destruct (fst r) as [rows|err]; [|done].
  injection Hr as <-. apply list_elem_of_In, in_map_iff in Hd as (row & <- & Hrow%list_elem_of_In).
  destruct (Hrows rows row eq_refl Hrow) as [i Hi]. exists row. cbn. rewrite Hdb. by rewrite (Hk _ _ Hi).
Qed.

Lemma tasks_call_kept {A B} (c : TO A) (f : A → B) :
  (∀ L, stays L c) → kept chain_ok (on_tasks (Y := Y) clock (let! r := c in retS (f r))).
Proof using.
  intros Hc. apply tasks_kept. intros L. apply stays_bind; [apply Hc|]. intros r. apply stays_ret.
Qed.

#[export] Instance deployed_promise : Promise p chain_ok stored.
Proof using ids_nonempty.
  split; cbn [deployed pv_reflection pv_objective pv_actuation pv_scheduling pv_portfolio pv_discovery pv_selfExt
    pv_pressure pv_capacity pv_governance pv_taskOrchestrator pv_executionLoop pv_feedbackStore pv_goalPlanning
    pv_goalReplanning].
  - intros run force. destruct (pv_reflection q); intros [= <-]. apply rest_kept.
  - intros run. destruct (pv_objective q); intros [= <-]. apply rest_kept.
  - intros a [= <-]. apply run_kept.
  - intros a limit [= <-]. apply list_kept.
  - intros run. destruct (pv_scheduling q); intros [= <-]. apply rest_kept.
  - intros run. destruct (pv_portfolio q); intros [= <-]. apply rest_kept.
  - intros run. destruct (pv_discovery q); intros [= <-]. apply rest_kept.
  - intros run limit. destruct (pv_selfExt q); intros [= <-]. apply rest_kept.
  - intros run. destruct (pv_pressure q); intros [= <-]. apply rest_kept.
  - intros run. destruct (pv_capacity q); intros [= <-]. apply rest_kept.
  - intros g mode reason. destruct (pv_governance q); intros [= <-]. apply rest_kept.
  - intros t [= <-]. apply tasks_call_kept. intros L. apply Recompute_stays.
  - intros t [= <-]. apply tasks_call_kept. intros L. apply Dispatch_stays.
  - intros t id [= <-]. apply tasks_call_kept. intros L. apply transition_stays.
  - intros t id reason [= <-]. apply tasks_call_kept. intros L. apply Fail_stays.
  - intros t id [= <-]. apply tasks_call_kept. intros L. apply transition_stays.
  - intros t id exec [= <-]. apply tasks_call_kept. intros L. apply SetExecutionTaskID_stays.
  - intros t id kind err n [= <-]. apply tasks_call_kept. intros L. apply SetOutcome_stays.
  - intros t limit [= <-]. apply tasks_call_kept. intros L. apply stays_listing.
  - intros run id. destruct (pv_executionLoop q); intros [= <-]. apply rest_kept.
  - intros f fb. destruct (pv_feedbackStore q); intros [= <-]. apply rest_kept.
  - intros f limit. destruct (pv_feedbackStore q); intros [= <-]. apply rest_kept.
  - intros f outcome since. destruct (pv_feedbackStore q); intros [= <-]. apply rest_kept.
  - intros f signal since. destruct (pv_feedbackStore q); intros [= <-]. apply rest_kept.
  - intros run. destruct (pv_goalPlanning q); intros [= <-]. apply rest_kept.
  - intros run. destruct (pv_goalReplanning q); intros [= <-]. apply rest_kept.
  - intros ds d Hd _ Hrev. by apply materialize_kept.
Qed.

Lemma create_kept source goal u v r strategy :
  kept chain_ok (on_tasks (Y := Y) clock (ignore (TaskOrchestrator.CreateTask te source goal u v r strategy))).
Proof using ids_nonempty.
  intros w (Hk & L & Hs & Hw).
  destruct (on_tasks_at L (ch_act w) (ignore (TaskOrchestrator.CreateTask te source goal u v r strategy))
    (fun _ s => settled L s ∨ ∃ id, id ≠ "" ∧ L !! id = None ∧ settled (<[id := mkOrigin source goal ""]> L) s))
    with w as [H Ha]; [|done|].
  - eapply triple_bind; [apply Create_settles|]. cbv beta. intros [t|err]; apply triple_ret; [|by left].
    intros s (Hn & Hs' & n & Hid). right. exists (ot_ID t). split_and!; [|done|done]. rewrite Hid. apply ids_nonempty.
  - split; rewrite Ha; [done|]. destruct H as [H|(id & Hid & Hn & H)]; [by exists L|].
    eexists. split; [exact H|]. by apply well_linked_create.
Qed.

Lemma task_call_kept call : kept chain_ok (on_tasks (Y := Y) clock (exec_task_call te call)).
Proof using ids_nonempty.
  destruct call; cbn [exec_task_call].
  - apply create_kept.
  - pose proof (create_kept ("goal_planning:" +:+ subgoalID) (actionType +:+ " (goal:" +:+ goalID +:+ ")")
      urgency expectedValue riskLevel strategyType) as H.
    intros w Hw. specialize (H w Hw). unfold on_tasks, ignore, EmitTask, TA_CreateTask, via in *.
    rewrite !bindS_run in *. exact H.
  - apply tasks_kept. intros L. apply stays_ignore, Recompute_stays.
  - apply tasks_kept. intros L. apply stays_ignore, Dispatch_stays.
  - apply tasks_kept. intros L. apply stays_ignore, transition_stays.
  - apply tasks_kept. intros L. apply stays_ignore, Fail_stays.
  - apply tasks_kept. intros L. apply stays_ignore, transition_stays.
Qed.

Lemma exec_chain_holds op : holds chain_ok (exec_chain te ae clock q op).
Proof using ids_nonempty.
  destruct op; cbn [exec_chain].
  - apply (exec_au_holds p chain_ok stored).
  - apply holds_provider, ops_kept.
  - apply holds_provider, task_call_kept.
Qed.
End system.

(** C37: The deployed runtime, actuation engine and task orchestrator together:
    without faults in the task store, over any history of ticks, operator calls,
    requests about decisions and calls of the task orchestrator, tasks keep source,
    goal and decision; no two tasks belong to the same decision; and a new task
    that belongs to one was made for a stored decision that needs no review, with
    that decision's goal. *)
Theorem decisions_become_tasks_once {Y : Type} {Zn : LocalZone} {U : UuidPkg}
    (te : Engine) (ae : ActEngine) (clock : nat → time) (q : Providers Y) ops (s : Agent Runtime (ChainWorld Y)) :
  let before := origins (to_db (ch_tasks (ag_ext s))) in
  (∀ n, uuid_String (uuid_New n) ≠ "") →
  keyed (ag_db (ch_act (ag_ext s))) →
  settled before (ch_tasks (ag_ext s)) →
  well_linked before (ag_db (ch_act (ag_ext s))) before →
  let w := ag_ext (snd (forS (exec_chain te ae clock q) ops s)) in
  let after := origins (to_db (ch_tasks w)) in
  before ⊆ after ∧
  (∀ i j t t', after !! i = Some t → after !! j = Some t' → og_decision t ≠ "" → og_decision t = og_decision t' → i = j) ∧
  ∀ i t, after !! i = Some t → before !! i = None → og_decision t ≠ "" →
    ∃ d, ag_db (ch_act w) !! og_decision t = Some d ∧ ad_RequiresReview d = false ∧ og_source t = "actuation" ∧
         og_goal t = decision_goal (ad_Type d).
Proof.
  intros before Hids Hk Hs Hw w after.
  assert (H : chain_ok before w).
  { apply (holds_forS (chain_ok before) (exec_chain te ae clock q) ops); [intros op; by apply exec_chain_holds|].
    split; [done|]. by exists before. }
  destruct H as (_ & L & (_ & _ & HL) & [W1 W2 W3 W4]). subst after. rewrite HL. split_and!; [done|done|].
  intros i t Ht H0 Hd. by apply (W3 i t).
Qed.

(** ** The deployed chain on concrete signals

    A witness, and what a database fault between two statements does. *)

#[local] Existing Instance demo_uuid.
#[local] Existing Instance demo_zone.

Definition chain_engine : Engine := mkEng true None None None None None None.

(** No other engines. *)
Definition chain_rest : Providers unit :=
  mkProviders demo_now true None None None None None None None None None None None None None None None.

Definition chain_clock (n : nat) : time := Z.of_nat n * Second.

Definition chain_world (faults : list Fault) : ChainWorld unit :=
  mkChain (mkTOState (mkTODB ∅ ∅) 0 0 0 faults []) 0 (demo_table []) tt.

Definition chain_start (faults : list Fault) : Agent Runtime (ChainWorld unit) :=
  mkAgent (NewOrchestrator (demo_config ModeBoundedAutonomy)) (chain_world faults) 0 0 [] [].

Definition chain_run (faults : list Fault) (ops : list ChainOp) : ChainWorld unit :=
  ag_ext (snd (forS (exec_chain chain_engine demo_act chain_clock chain_rest) ops (chain_start faults))).

Definition demo_ops : list ChainOp :=
  [ChRuntime OpStart; ChTask (TCEmit "sg" "goal" "write" f0 f0 f0 ""); ChRuntime OpTick; ChTask TCRecompute; ChRuntime OpTick].

(** Goals and decisions of the tasks. *)
Definition task_list (w : ChainWorld unit) : list (string * string) :=
  map (fun t => (og_goal t, og_decision t)) (map_to_list (origins (to_db (ch_tasks w)))).*2.

(** A run proposes afresh what the run before proposed: each becomes a task of
    its own. *)
Example proposals_repeat :
  let w := chain_run [] [ChRuntime OpTick; ChRuntime OpTick] in
  length (List.filter (fun d => bool_decide (ad_Type d = "stabilize_income")) (map_to_list (ag_db (ch_act w))).*2) = 2%nat ∧
  length (List.filter (fun t => bool_decide (fst t = "stabilize income by prioritizing safe revenue actions")) (task_list w)) = 2%nat.
Proof. vm_compute. split; reflexivity. Qed.

(** When the link to the decision is lost, the next tick makes a second task for
    it: five tasks for four decisions. *)
Example lost_link_duplicates :
  let w := chain_run [NoFault; NoFault; FaultBefore (Errorf "connection lost")] [ChRuntime OpTick; ChRuntime OpTick] in
  length (List.filter (fun d => negb (ad_RequiresReview d)) (map_to_list (ag_db (ch_act w))).*2) = 4%nat ∧
  length (task_list w) = 5%nat.
Proof. vm_compute. split; reflexivity. Qed.

Lemma demo_ids_nonempty n : uuid_String (uuid_New n) ≠ "".
Proof. cbn. destruct (Z.of_nat n + 100); discriminate. Qed.

Lemma decisions_become_tasks_once_witness :
  let w := chain_run [] demo_ops in
  (∃ i t d, origins (to_db (ch_tasks w)) !! i = Some t ∧ og_decision t ≠ "" ∧
     ag_db (ch_act w) !! og_decision t = Some d ∧ ad_RequiresReview d = false) ∧
  ∅ ⊆ origins (to_db (ch_tasks w)).
Proof.
  pose proof (decisions_become_tasks_once chain_engine demo_act chain_clock chain_rest demo_ops (chain_start [])) as H.
  cbv zeta in H |- *. unfold chain_run.
  destruct H as (H1 & _ & H3).
  - exact demo_ids_nonempty.
  - intros id d Hd. change ((∅ : ACDB) !! id = Some d) in Hd. rewrite lookup_empty in Hd. discriminate Hd.
  - split; [reflexivity|split; [|reflexivity]]. intros i t Ht.
    change ((∅ : gmap string OrchestratedTask) !! i = Some t) in Ht. rewrite lookup_empty in Ht. discriminate Ht.
  - change (well_linked ∅ ∅ ∅). split.
    + apply lookup_empty.
    + apply map_empty_subseteq.
    + intros i o Hi. rewrite lookup_empty in Hi. discriminate Hi.
    + intros i j o o' Hi. rewrite lookup_empty in Hi. discriminate Hi.
  - split; [|apply map_empty_subseteq].
    assert (Ht : ∃ i t, origins (to_db (ch_tasks (ag_ext (snd (forS (exec_chain chain_engine demo_act chain_clock chain_rest) demo_ops (chain_start [])))))) !! i = Some t ∧
      og_decision t = "p0010011")
      by (eexists "p1010011", _; split; vm_compute; reflexivity).
    destruct Ht as (i & t & Ht & Hd). assert (Hn : og_decision t ≠ "") by (rewrite Hd; discriminate).
    destruct (H3 i t Ht) as (d & Hd' & Hr & _).
    + change ((∅ : gmap string Origin) !! i = None). apply lookup_empty.
    + exact Hn.
    + exists i, t, d. split; [exact Ht|]. split; [exact Hn|]. split; [exact Hd'|exact Hr].
Defined.
