(* ===== verification/ActionMemory.v ===== *)
(** * Action memory ([internal/agent/actionmemory])

    What the agent remembers of its actions: four tables that count outcomes,
    for an action and target type, for one target, for a context (goal and load
    of the system) and for a provider in that context; and the signals drawn
    from the counts.  A record is its key and its counts, so that one upsert
    serves the four tables.  Each upsert uses two parameters at two types, which
    PostgreSQL refuses when it prepares the statement: the theorem at the end says
    that nothing is ever remembered, and [upsert_tallies] before it what the
    statement would do if it were accepted.  What the server says when a statement
    is prepared is a parameter, [PgPrepare]. *)

From stdpp Require Import base gmap strings list tactics numbers fin_maps pretty.
From Stdlib Require Import ZArith Lia SpecFloat.
From S2P Require Import Prelude GoFloat GoStrconv GoSort Models GoTime AgentWorld.

Open Scope Z_scope.

(** [uuid.Nil] *)
Class UuidNil := uuid_Nil : uuid.

(** ** Parts of a state

    A store works on its tables within the database, an engine on its fields
    within the process. *)

Class Part (T S : Type) := { part : S → T; put_part : T → S → S }.

Class PartLaws {T S} (P : Part T S) : Prop := {
  part_put : ∀ t s, part (put_part t s) = t;
  put_part_same : ∀ s, put_part (part s) s = s;
  put_part_twice : ∀ t u s, put_part t (put_part u s) = put_part t s
}.

#[export] Instance part_self {T} : Part T T := { part := fun t => t; put_part := fun t _ => t }.
#[export] Instance part_self_laws {T} : PartLaws (@part_self T).
Proof. by split. Qed.

(** A statement and a call on a part. *)
Definition stmt_on {T S A} `{Part T S} (stmt : T → res (A * T)) (s : S) : res (A * S) :=
  match stmt (part s) with
  | Ok (a, t) => Ok (a, put_part t s)
  | Err e => Err e
  end.

Definition call_on {T S A} `{Part T S} (c : St T A) : St S A := fun s =>
  let '(a, t) := c (part s) in (a, put_part t s).

(** A query leaves the part as it is. *)
Definition asks {T A} (q : T → A) (t : T) : res (A * T) := Ok (q t, t).

(** ** Preparing a statement

    A statement needs its parameters at certain types: what the server says when
    it is prepared, an error if any. *)

Inductive pg_type : Type := PgUUID | PgText | PgInt4 | PgFloat8 | PgTimestamptz.

#[export] Instance pg_type_eq_dec : EqDecision pg_type.
Proof. solve_decision. Defined.

Class PgPrepare := prepare : list (nat * pg_type) → option error.

(** PostgreSQL deduces one type for each parameter, and refuses a statement that
    needs a parameter at two (error 42P08, ambiguous parameter). *)
Class PgPrepareLaws (P : PgPrepare) : Prop := prepare_one_type :
  ∀ uses n t t', (n, t) ∈ uses → (n, t') ∈ uses → t ≠ t' → is_Some (prepare uses).

(** An instance: the first use of a parameter gives it its type. *)
Fixpoint deduce (known : gmap nat pg_type) (uses : list (nat * pg_type)) : option error :=
  match uses with
  | [] => None
  | (n, t) :: uses =>
      match known !! n with
      | None => deduce (<[n := t]> known) uses
      | Some t' => if decide (t = t') then deduce known uses
                   else Some (Errorf ("inconsistent types deduced for parameter $" +:+ pretty n))
      end
  end.

Lemma deduce_consistent uses : ∀ known, deduce known uses = None →
  ∃ types, known ⊆ types ∧ ∀ n t, (n, t) ∈ uses → types !! n = Some t.
Proof.
  induction uses as [|[n t] uses IH]; intros known H; cbn [deduce] in H.
  { exists known. split; [done|]. by intros n t ?%elem_of_nil. }
  destruct (known !! n) as [t'|] eqn:E.
  - destruct (decide (t = t')) as [<-|]; [|done]. destruct (IH _ H) as (types & Hsub & Hin). exists types.
    split; [done|]. intros m u [[= -> ->]|Hm]%elem_of_cons; [by eapply lookup_weaken|by apply Hin].
  - destruct (IH _ H) as (types & Hsub & Hin). exists types. split.
    + etrans; [by apply insert_subseteq|exact Hsub].
    + intros m u [[= -> ->]|Hm]%elem_of_cons; [|by apply Hin].
      eapply lookup_weaken; [|exact Hsub]. apply lookup_insert_eq.
Qed.

Definition postgres : PgPrepare := deduce ∅.

#[export] Instance postgres_laws : PgPrepareLaws postgres.
Proof.
  intros uses n t t' H H' Hne. unfold prepare, postgres. destruct (deduce ∅ uses) eqn:E; [by eexists|].
  destruct (deduce_consistent _ _ E) as (types & _ & Hin). apply Hin in H, H'. congruence.
Qed.

(** ** Records *)

Record RunStats := mkStats {
  rs_TotalRuns : Z;
  rs_SuccessRuns : Z;
  rs_FailureRuns : Z;
  rs_NeutralRuns : Z;
  rs_SuccessRate : float64;
  rs_FailureRate : float64;
  rs_LastUpdated : time
}.

Record MemoryRow (K : Type) := mkRow { mr_ID : string; mr_Key : K; mr_Stats : RunStats }.
Arguments mkRow {K}.
Arguments mr_ID {K}.
Arguments mr_Key {K}.
Arguments mr_Stats {K}.

Record ActionKey := mkActionKey { ak_ActionType : string; ak_TargetType : string }.

Record TargetKey := mkTargetKey { tk_ActionType : string; tk_TargetType : string; tk_TargetID : uuid }.

Record ContextKey := mkContextKey {
  ck_ActionType : string;
  ck_GoalType : string;
  ck_JobType : string;
  ck_FailureBucket : string;
  ck_BacklogBucket : string
}.

Record ProviderKey := mkProviderKey {
  pk_ActionType : string;
  pk_GoalType : string;
  pk_JobType : string;
  pk_ProviderName : string;
  pk_ModelRole : string;
  pk_FailureBucket : string;
  pk_BacklogBucket : string
}.

#[export] Instance ActionKey_eq_dec : EqDecision ActionKey.
Proof. solve_decision. Defined.
#[export] Instance TargetKey_eq_dec : EqDecision TargetKey.
Proof. solve_decision. Defined.
#[export] Instance ContextKey_eq_dec : EqDecision ContextKey.
Proof. solve_decision. Defined.
#[export] Instance ProviderKey_eq_dec : EqDecision ProviderKey.
Proof. solve_decision. Defined.

Abbreviation ActionMemoryRecord := (MemoryRow ActionKey).
Abbreviation TargetMemoryRecord := (MemoryRow TargetKey).
Abbreviation ContextMemoryRecord := (MemoryRow ContextKey).
Abbreviation ProviderContextMemoryRecord := (MemoryRow ProviderKey).

Record ActionFeedback := mkActionFeedback {
  af_ActionType : string;
  af_SuccessRate : float64;
  af_FailureRate : float64;
  af_SampleSize : Z;
  af_Recommendation : string;
  af_LastUpdated : time
}.

(** ** Feedback ([feedback.go]) *)

Definition minSampleSize : Z := 5.
Definition avoidFailureThreshold : float64 := lit 5 10.
Definition preferSuccessThreshold : float64 := lit 7 10.

Definition RecommendInsufficientData : string := "insufficient_data".
Definition RecommendAvoidAction : string := "avoid_action".
Definition RecommendPreferAction : string := "prefer_action".
Definition RecommendNeutral : string := "neutral".

Definition recommendation (st : RunStats) : string :=
  if bool_decide (rs_TotalRuns st < minSampleSize) then RecommendInsufficientData
  else if fleb avoidFailureThreshold (rs_FailureRate st) then RecommendAvoidAction
  else if fleb preferSuccessThreshold (rs_SuccessRate st) then RecommendPreferAction
  else RecommendNeutral.

(** [GenerateFeedback] of a record with this action type and these counts. *)
Definition GenerateFeedback (actionType : string) (st : RunStats) : ActionFeedback :=
  mkActionFeedback actionType (rs_SuccessRate st) (rs_FailureRate st) (rs_TotalRuns st) (recommendation st)
    (rs_LastUpdated st).

(** [GenerateFeedback(nil)] *)
Definition no_feedback : ActionFeedback := mkActionFeedback "" f0 f0 0 RecommendInsufficientData zero_time.

Definition actionable (rec : string) : bool :=
  negb (bool_decide (rec = RecommendInsufficientData)) && negb (bool_decide (rec = RecommendNeutral)).

(** ** Buckets ([context.go]) *)

Definition BucketFailureRate (rate : float64) : string :=
  if fltb rate (lit 1 10) then "low" else if fltb rate (lit 3 10) then "medium" else "high".

Definition BucketBacklog (count : Z) : string :=
  if bool_decide (count < 20) then "low" else if bool_decide (count < 50) then "medium" else "high".

(** ** Tables ([memory.go], [context_store.go], [provider_context_store.go]) *)

Record MemoryTables := mkMemory {
  mt_actions : list ActionMemoryRecord;
  mt_targets : list TargetMemoryRecord;
  mt_contexts : list ContextMemoryRecord;
  mt_providers : list ProviderContextMemoryRecord
}.

#[export] Instance MemoryTables_settable : Settable MemoryTables := fun r =>
  mkMemory (mt_actions r) (mt_targets r) (mt_contexts r) (mt_providers r).

Definition empty_memory : MemoryTables := mkMemory [] [] [] [].

(** Successes, failures and neutral runs to add. *)
Definition outcomeIncrements (status : string) : Z * Z * Z :=
  if bool_decide (status = "success") then (1, 0, 0)
  else if bool_decide (status = "failure") then (0, 1, 0)
  else (0, 0, 1).

(** The row of a first outcome, and the row after one more. *)
Definition first_stats (inc : Z * Z * Z) (now : time) : RunStats :=
  let '(succ, fail, neutral) := inc in
  mkStats 1 succ fail neutral (f_of_Z succ) (f_of_Z fail) (trunc_us now).

Definition add_stats (inc : Z * Z * Z) (now : time) (st : RunStats) : RunStats :=
  let '(succ, fail, neutral) := inc in
  let total := rs_TotalRuns st + 1 in
  mkStats total (rs_SuccessRuns st + succ) (rs_FailureRuns st + fail) (rs_NeutralRuns st + neutral)
    (fdiv (f_of_Z (rs_SuccessRuns st + succ)) (f_of_Z total))
    (fdiv (f_of_Z (rs_FailureRuns st + fail)) (f_of_Z total)) (trunc_us now).

(** The counters are [INT] columns. *)
Definition in_range (st : RunStats) : bool :=
  in_int4 (rs_TotalRuns st) && in_int4 (rs_SuccessRuns st) && in_int4 (rs_FailureRuns st)
  && in_int4 (rs_NeutralRuns st).

(** [INSERT ... ON CONFLICT (key) DO UPDATE]; [id] is the new row's. *)
Fixpoint upsert {K} `{EqDecision K} (id : string) (k : K) (inc : Z * Z * Z) (now : time)
    (t : list (MemoryRow K)) : res (list (MemoryRow K)) :=
  match t with
  | [] => Ok [mkRow id k (first_stats inc now)]
  | row :: t =>
      if decide (mr_Key row = k) then
        let st := add_stats inc now (mr_Stats row) in
        if in_range st then Ok (mkRow (mr_ID row) k st :: t) else Err ErrOutOfRange
      else match upsert id k inc now t with
           | Ok t => Ok (row :: t)
           | Err e => Err e
           end
  end.

(** The types of the columns of a key. *)
Class KeyColumns (K : Type) := key_columns : list pg_type.
#[export] Instance action_columns : KeyColumns ActionKey := [PgText; PgText].
#[export] Instance target_columns : KeyColumns TargetKey := [PgText; PgText; PgUUID].
#[export] Instance context_columns : KeyColumns ContextKey := [PgText; PgText; PgText; PgText; PgText].
#[export] Instance provider_columns : KeyColumns ProviderKey :=
  [PgText; PgText; PgText; PgText; PgText; PgText; PgText].

(** What an upsert writes into a column: the number 1, a parameter [$n], or
    [$n::float]. *)
Inductive value_expr : Type := One | Par (n : nat) | ParFloat (n : nat).

(** [VALUES ($1, keys, 1, succ, fail, neutral, succ::float, fail::float, now)],
    with [k] keys. *)
Definition upsert_values (k : nat) : list value_expr :=
  map Par (seq 1 (k + 1)) ++ [One; Par (k + 2); Par (k + 3); Par (k + 4); ParFloat (k + 2); ParFloat (k + 3); Par (k + 5)].

Definition upsert_columns (keys : list pg_type) : list pg_type :=
  PgUUID :: keys ++ [PgInt4; PgInt4; PgInt4; PgInt4; PgFloat8; PgFloat8; PgTimestamptz].

Definition value_use (v : value_expr) (column : pg_type) : list (nat * pg_type) :=
  match v with
  | One => []
  | Par n => [(n, column)]
  | ParFloat n => [(n, PgFloat8)]
  end.

(** The uses in [VALUES], and those in [DO UPDATE SET], where the parameters are
    added to the counters. *)
Definition upsert_uses (keys : list pg_type) : list (nat * pg_type) :=
  let k := length keys in
  concat (zip_with value_use (upsert_values k) (upsert_columns keys))
  ++ [((k + 2)%nat, PgInt4); ((k + 3)%nat, PgInt4); ((k + 4)%nat, PgInt4); ((k + 5)%nat, PgTimestamptz)].

(** [ORDER BY total_runs DESC] *)
Definition more_runs {K} (x y : MemoryRow K) : bool :=
  bool_decide (rs_TotalRuns (mr_Stats y) < rs_TotalRuns (mr_Stats x)).
Definition by_runs {K} (t : list (MemoryRow K)) : list (MemoryRow K) := SliceStable more_runs t.

(** [LIMIT 1] of rows in no particular order: the [n]-th, for any [n]. *)
Definition any_row {A} (n : nat) (t : list A) : option A := t !! (n mod length t)%nat.

Definition statsZero : RunStats := mkStats 0 0 0 0 f0 f0 zero_time.

(** Counts over several records, as [SUM] and the loops compute them. *)
Definition sum_runs {K} (f : RunStats → Z) (t : list (MemoryRow K)) : Z :=
  fold_left (fun n row => n + f (mr_Stats row)) t 0.

Definition rates (total succ fail neutral : Z) (updated : time) : RunStats :=
  mkStats total succ fail neutral (fdiv (f_of_Z succ) (f_of_Z total)) (fdiv (f_of_Z fail) (f_of_Z total)) updated.

Definition aggregate_rows {K} (updated : time) (t : list (MemoryRow K)) : option RunStats :=
  let total := sum_runs rs_TotalRuns t in
  if bool_decide (0 < total)
  then Some (rates total (sum_runs rs_SuccessRuns t) (sum_runs rs_FailureRuns t) (sum_runs rs_NeutralRuns t) updated)
  else None.

(** ** Store *)

Record OutcomeInput := mkOutcomeInput {
  oi_ActionType : string;
  oi_TargetType : string;
  oi_TargetID : uuid;
  oi_OutcomeStatus : string
}.

Record ContextOutcomeInput := mkContextInput { ci_Key : ContextKey; ci_OutcomeStatus : string }.
Record ProviderContextOutcomeInput := mkProviderInput { pi_Key : ProviderKey; pi_OutcomeStatus : string }.

Definition action_row_key (o : OutcomeInput) : ActionKey := mkActionKey (oi_ActionType o) (oi_TargetType o).
Definition target_row_key (o : OutcomeInput) : TargetKey :=
  mkTargetKey (oi_ActionType o) (oi_TargetType o) (oi_TargetID o).

(** Each table as a part of the memory. *)
#[export] Instance actions_part : Part (list ActionMemoryRecord) MemoryTables :=
  { part := mt_actions; put_part := fun t m => m <| mt_actions := t |> }.
#[export] Instance targets_part : Part (list TargetMemoryRecord) MemoryTables :=
  { part := mt_targets; put_part := fun t m => m <| mt_targets := t |> }.
#[export] Instance contexts_part : Part (list ContextMemoryRecord) MemoryTables :=
  { part := mt_contexts; put_part := fun t m => m <| mt_contexts := t |> }.
#[export] Instance providers_part : Part (list ProviderContextMemoryRecord) MemoryTables :=
  { part := mt_providers; put_part := fun t m => m <| mt_providers := t |> }.

Definition upsert_row {K} `{EqDecision K} (id : string) (k : K) (status : string) (now : time)
    (t : list (MemoryRow K)) : res (unit * list (MemoryRow K)) :=
  match upsert id k (outcomeIncrements status) now t with
  | Ok t => Ok (tt, t)
  | Err e => Err e
  end.

Definition of_action (actionType : string) (t : list ActionMemoryRecord) : list ActionMemoryRecord :=
  List.filter (fun row => bool_decide (ak_ActionType (mr_Key row) = actionType)) t.

Definition matches_provider (provider action : string) (row : ProviderContextMemoryRecord) : bool :=
  (bool_decide (provider = "") || bool_decide (pk_ProviderName (mr_Key row) = provider))
  && (bool_decide (action = "") || bool_decide (pk_ActionType (mr_Key row) = action)).

(** [ORDER BY total_runs DESC LIMIT 10000] *)
Definition list_contexts (m : MemoryTables) : list ContextMemoryRecord := take (Z.to_nat 10000) (by_runs (mt_contexts m)).
Definition list_providers (provider action : string) (m : MemoryTables) : list ProviderContextMemoryRecord :=
  take (Z.to_nat 10000) (by_runs (List.filter (matches_provider provider action) (mt_providers m))).

Section store.
Context {D X : Type} {MP : Part MemoryTables D} {U : UuidPkg} {NU : UuidNil} {PP : PgPrepare}.
(** The clock, and which row comes first where a query asks for no order. *)
Context (clock : nat → time) (row_order : nat → nat).
Abbreviation AM A := (St (Agent D X) A).

(** The statement, once it is prepared. *)
Definition exec_upsert {K} `{EqDecision K} {KC : KeyColumns K} {P : Part (list (MemoryRow K)) MemoryTables}
    (k : K) (status : string) (now : time) : AM (option error) :=
  let! id := fresh_uuid in
  exec (fun db => match prepare (upsert_uses key_columns) with
                  | Some e => Err e
                  | None => stmt_on (stmt_on (upsert_row id k status now)) db
                  end).

Definition upsertAggregate (o : OutcomeInput) : time → AM (option error) :=
  exec_upsert (action_row_key o) (oi_OutcomeStatus o).
Definition upsertTarget (o : OutcomeInput) : time → AM (option error) :=
  exec_upsert (target_row_key o) (oi_OutcomeStatus o).

Definition Memory_Update (o : OutcomeInput) : AM (option error) :=
  let! now := reading clock in
  let! err := upsertAggregate o now in
  match err with
  | Some e => retS (Some (wrap "upsert aggregate: " e))
  | None =>
      if bool_decide (oi_TargetID o = uuid_Nil) then retS None
      else let! err := upsertTarget o now in retS (wrap "upsert target: " <$> err)
  end.

Definition UpdateContext (o : ContextOutcomeInput) : AM (option error) :=
  let! now := reading clock in
  let! err := exec_upsert (ci_Key o) (ci_OutcomeStatus o) now in
  retS (wrap "upsert context memory: " <$> err).

Definition UpdateProviderContext (o : ProviderContextOutcomeInput) : AM (option error) :=
  let! now := reading clock in
  let! err := exec_upsert (pi_Key o) (pi_OutcomeStatus o) now in
  retS (wrap "upsert provider context memory: " <$> err).

Definition ask_memory {A} (what : string) (q : MemoryTables → A) : AM (res A) :=
  let! r := statement (stmt_on (asks q)) in
  retS match r with Ok a => Ok a | Err e => Err (wrap what e) end.

Definition Memory_List : AM (res (list ActionMemoryRecord)) :=
  ask_memory "query action memory: " (fun m => by_runs (mt_actions m)).

Definition ListContextRecords : AM (res (list ContextMemoryRecord)) :=
  ask_memory "query context memory: " list_contexts.

Definition ListProviderContextRecords (provider action : string) : AM (res (list ProviderContextMemoryRecord)) :=
  ask_memory "query provider context memory: " (list_providers provider action).

(** Every error counts as no record. *)
Definition row_found {A} (r : res (option A)) : option A := match r with Ok a => a | Err _ => None end.

Definition ask_row {A} (q : nat → MemoryTables → option A) : AM (option A) :=
  let! n := reading row_order in
  let! r := statement (stmt_on (asks (q n))) in retS (row_found r).

Definition GetByActionType (actionType : string) : AM (option ActionMemoryRecord) :=
  ask_row (fun n m => any_row n (of_action actionType (mt_actions m))).

Definition GetContextRecord (k : ContextKey) : AM (option ContextMemoryRecord) :=
  ask_row (fun n m => any_row n (List.filter (fun row => bool_decide (mr_Key row = k)) (mt_contexts m))).

(** The key's job type is not asked for. *)
Definition GetProviderContextRecord (k : ProviderKey) : AM (option ProviderContextMemoryRecord) :=
  ask_row (fun n m => any_row n (List.filter (fun row =>
    bool_decide (pk_ActionType (mr_Key row) = pk_ActionType k) && bool_decide (pk_GoalType (mr_Key row) = pk_GoalType k)
    && bool_decide (pk_ProviderName (mr_Key row) = pk_ProviderName k)
    && bool_decide (pk_ModelRole (mr_Key row) = pk_ModelRole k)
    && bool_decide (pk_FailureBucket (mr_Key row) = pk_FailureBucket k)
    && bool_decide (pk_BacklogBucket (mr_Key row) = pk_BacklogBucket k)) (mt_providers m))).

Definition context_goal (action goal : string) (row : ContextMemoryRecord) : bool :=
  bool_decide (ck_ActionType (mr_Key row) = action) && bool_decide (ck_GoalType (mr_Key row) = goal).

Definition provider_goal (action goal : string) (row : ProviderContextMemoryRecord) : bool :=
  bool_decide (pk_ActionType (mr_Key row) = action) && bool_decide (pk_GoalType (mr_Key row) = goal).

Definition provider_named (provider : string) (row : ProviderContextMemoryRecord) : bool :=
  bool_decide (pk_ProviderName (mr_Key row) = provider).

(** The sums of a group, which has a row only where they are positive. *)
Definition GetPartialContextRecord (action goal : string) : AM (option RunStats) :=
  let! r := statement (stmt_on (asks (fun m =>
    aggregate_rows zero_time (List.filter (context_goal action goal) (mt_contexts m))))) in
  retS (row_found r).

Definition GetPartialProviderContextRecord (action goal provider : string) : AM (option RunStats) :=
  let! r := statement (stmt_on (asks (fun m =>
    aggregate_rows zero_time (List.filter (fun row => provider_goal action goal row && provider_named provider row)
                           (mt_providers m))))) in
  retS (row_found r).

(** [FeedbackAdapter.ShouldAvoid]: whether to reject, and why. *)
Definition ShouldAvoid (actionType : string) : AM (option string) :=
  let! record := GetByActionType actionType in
  retS match record with
       | None => None
       | Some record =>
           let fb := GenerateFeedback (ak_ActionType (mr_Key record)) (mr_Stats record) in
           if bool_decide (af_Recommendation fb = RecommendAvoidAction)
           then Some ("low historical success rate for " +:+ actionType +:+ " (success="
                      +:+ fmt_fixed 2 (af_SuccessRate fb) +:+ ", failure=" +:+ fmt_fixed 2 (af_FailureRate fb)
                      +:+ ", n=" +:+ pretty (af_SampleSize fb) +:+ ")")
           else None
       end.
End store.

(** ** Feedback in context ([context_feedback.go], [provider_context_feedback.go]) *)

Definition contextWeightMax : float64 := lit 70 100.
Definition providerContextWeightMax : float64 := lit 60 100.

Record ContextualFeedback := mkContextual { cf_Feedback : ActionFeedback; cf_ContextMatch : string }.

Definition context_exact (action goal failure backlog : string) (row : ContextMemoryRecord) : bool :=
  context_goal action goal row && bool_decide (ck_FailureBucket (mr_Key row) = failure)
  && bool_decide (ck_BacklogBucket (mr_Key row) = backlog).

Definition provider_exact (action goal provider role failure backlog : string)
    (row : ProviderContextMemoryRecord) : bool :=
  provider_goal action goal row && provider_named provider row && bool_decide (pk_ModelRole (mr_Key row) = role)
  && bool_decide (pk_FailureBucket (mr_Key row) = failure) && bool_decide (pk_BacklogBucket (mr_Key row) = backlog).

(** The first exact match, or else the sum of the partial ones. *)
Definition resolve {K} (action : string) (exact partial : MemoryRow K → bool) (exactName partialName : string)
    (records : list (MemoryRow K)) : option ContextualFeedback :=
  match List.find exact records with
  | Some row => Some (mkContextual (GenerateFeedback action (mr_Stats row)) exactName)
  | None =>
      (fun agg => mkContextual (GenerateFeedback action agg) partialName) <$>
        aggregate_rows zero_time (List.filter partial records)
  end.

Definition ResolveContextualFeedback (records : list ContextMemoryRecord) (action goal failure backlog : string)
    : option ContextualFeedback :=
  resolve action (context_exact action goal failure backlog) (context_goal action goal) "exact" "partial" records.

Definition ResolveProviderContextFeedback (records : list ProviderContextMemoryRecord)
    (action goal provider role failure backlog : string) : option ContextualFeedback :=
  if bool_decide (provider = "") then None
  else resolve action (provider_exact action goal provider role failure backlog)
         (fun row => provider_goal action goal row && provider_named provider row)
         "provider_exact" "provider_partial" records.

Definition fneg (x : float64) : float64 := SFopp x.

Definition FeedbackAdjustmentValue (rec : string) (avoidPenalty preferBoost : float64) : float64 :=
  if bool_decide (rec = RecommendAvoidAction) then fneg avoidPenalty
  else if bool_decide (rec = RecommendPreferAction) then preferBoost
  else f0.

Definition f2 (x : float64) : string := fmt_fixed 2 x.

(** An adjustment and its reason, empty where there is none. *)
Definition BlendFeedbackAdjustment (contextual : option ContextualFeedback) (global : option ActionFeedback)
    (avoidPenalty preferBoost : float64) : float64 * string :=
  let ctx := match contextual with
             | Some c => if actionable (af_Recommendation (cf_Feedback c)) then Some c else None
             | None => None
             end in
  let glob := match global with
              | Some g => if actionable (af_Recommendation g) then Some g else None
              | None => None
              end in
  let adj rec := FeedbackAdjustmentValue rec avoidPenalty preferBoost in
  match ctx, glob with
  | Some c, Some g =>
      let crec := af_Recommendation (cf_Feedback c) in
      let grec := af_Recommendation g in
      let blended := fadd (fmul contextWeightMax (adj crec)) (fmul (lit 3 10) (adj grec)) in
      (blended, "blended ctx=" +:+ crec +:+ "(" +:+ f2 (adj crec) +:+ ") + global=" +:+ grec +:+ "(" +:+ f2 (adj grec)
                +:+ ") → " +:+ f2 blended +:+ " (match=" +:+ cf_ContextMatch c +:+ ")")
  | Some c, None =>
      let crec := af_Recommendation (cf_Feedback c) in
      let capped := fmul contextWeightMax (adj crec) in
      (capped, "contextual " +:+ crec +:+ " capped 70%: " +:+ f2 capped +:+ " (match=" +:+ cf_ContextMatch c
               +:+ ", n=" +:+ pretty (af_SampleSize (cf_Feedback c)) +:+ ")")
  | None, Some g =>
      let grec := af_Recommendation g in
      (adj grec, "global " +:+ grec +:+ ": " +:+ f2 (adj grec) +:+ " (n=" +:+ pretty (af_SampleSize g) +:+ ")")
  | None, None => (f0, "")
  end.

Definition BlendProviderFeedbackAdjustment (providerFb : option ContextualFeedback) (fallbackAdj : float64)
    (fallbackReason : string) (avoidPenalty preferBoost : float64) : float64 * string :=
  match providerFb with
  | None => (fallbackAdj, fallbackReason)
  | Some p =>
      let rec := af_Recommendation (cf_Feedback p) in
      if negb (actionable rec) then (fallbackAdj, fallbackReason)
      else
        let provAdj := FeedbackAdjustmentValue rec avoidPenalty preferBoost in
        if feqb fallbackAdj f0 && bool_decide (fallbackReason = "") then
          let capped := fmul providerContextWeightMax provAdj in
          (capped, "provider-context " +:+ rec +:+ " capped 60%: " +:+ f2 capped +:+ " (match="
                   +:+ cf_ContextMatch p +:+ ", n=" +:+ pretty (af_SampleSize (cf_Feedback p)) +:+ ")")
        else
          let blended := fadd (fmul providerContextWeightMax provAdj) (fmul (lit 4 10) fallbackAdj) in
          (blended, "blended provider=" +:+ rec +:+ "(" +:+ f2 provAdj +:+ ") + fallback(" +:+ f2 fallbackAdj
                    +:+ ") → " +:+ f2 blended +:+ " (match=" +:+ cf_ContextMatch p +:+ ")")
  end.

(** ** Weights ([weighted.go], [weighted_resolution.go]) *)

Definition decayWeightFresh : float64 := f1.
Definition decayWeightRecent : float64 := lit 80 100.
Definition decayWeightModerate : float64 := lit 60 100.
Definition decayWeightStale : float64 := lit 40 100.

Definition RecencyWeight (lastUpdated now : time) : float64 :=
  if bool_decide (lastUpdated = zero_time) then decayWeightStale
  else
    let age := time_Sub now lastUpdated in
    if bool_decide (age ≤ Hour) then decayWeightFresh
    else if bool_decide (age ≤ 24 * Hour) then decayWeightRecent
    else if bool_decide (age ≤ 24 * 7 * Hour) then decayWeightModerate
    else decayWeightStale.

Definition SampleWeight (n : Z) : float64 :=
  if bool_decide (n < 3) then lit 30 100
  else if bool_decide (n < 5) then
    let frac := fdiv (f_of_Z (n - 3)) (f_of_Z (5 - 3)) in
    fadd (lit 30 100) (fmul frac (lit 30 100))
  else if bool_decide (n < 10) then
    let frac := fdiv (f_of_Z (n - 5)) (f_of_Z (10 - 5)) in
    fadd (lit 60 100) (fmul frac (lit 40 100))
  else f1.

Definition EvidenceConfidence (recencyWeight sampleWeight : float64) : float64 :=
  SFsqrt 53 1024 (fmul recencyWeight sampleWeight).

Definition specificityBonus (level : string) : float64 :=
  if bool_decide (level = "provider_exact") then lit 4 100
  else if bool_decide (level = "provider_partial") then lit 3 100
  else if bool_decide (level = "context_exact") then lit 2 100
  else if bool_decide (level = "context_partial") then lit 1 100
  else f0.

Record WeightedFeedback := mkWeighted {
  wf_Recommendation : string;
  wf_SourceLevel : string;
  wf_Confidence : float64;
  wf_RecencyWeight : float64;
  wf_SampleWeight : float64;
  wf_FinalWeight : float64;
  wf_SampleSize : Z;
  wf_SuccessRate : float64;
  wf_FailureRate : float64;
  wf_ActionType : string
}.

Definition BuildWeightedFeedback (fb : ActionFeedback) (level : string) (lastUpdated now : time) : WeightedFeedback :=
  let rw := RecencyWeight lastUpdated now in
  let sw := SampleWeight (af_SampleSize fb) in
  let conf := EvidenceConfidence rw sw in
  mkWeighted (af_Recommendation fb) level conf rw sw (fadd conf (specificityBonus level)) (af_SampleSize fb)
    (af_SuccessRate fb) (af_FailureRate fb) (af_ActionType fb).

(** The first of the candidates that no later one beats. *)
Definition ResolveWeightedFeedback (candidates : list WeightedFeedback) : option WeightedFeedback :=
  select_best (fun c best => fltb (wf_FinalWeight best) (wf_FinalWeight c))
    (List.filter (fun c => actionable (wf_Recommendation c)) candidates).

Definition WeightedScoreAdjustment (wf : option WeightedFeedback) (avoidPenalty preferBoost : float64) : float64 :=
  match wf with
  | None => f0
  | Some wf => fmul (FeedbackAdjustmentValue (wf_Recommendation wf) avoidPenalty preferBoost) (wf_Confidence wf)
  end.

(** The latest update, from the zero instant. *)
Definition latest_update {K} (from : time) (t : list (MemoryRow K)) : time :=
  fold_left (fun now row => if bool_decide (now < rs_LastUpdated (mr_Stats row))
                            then rs_LastUpdated (mr_Stats row) else now) t from.

Definition weigh_exact {K} (action level : string) (exact : MemoryRow K → bool) (t : list (MemoryRow K)) (now : time)
    : list WeightedFeedback :=
  match List.find exact t with
  | Some row => [BuildWeightedFeedback (GenerateFeedback action (mr_Stats row)) level (rs_LastUpdated (mr_Stats row)) now]
  | None => []
  end.

Definition weigh_partial {K} (action level : string) (partial : MemoryRow K → bool) (t : list (MemoryRow K))
    (now : time) : list WeightedFeedback :=
  let t := List.filter partial t in
  let updated := latest_update zero_time t in
  match aggregate_rows updated t with
  | Some agg => [BuildWeightedFeedback (GenerateFeedback action agg) level updated now]
  | None => []
  end.

Definition GatherWeightedCandidates (providers : list ProviderContextMemoryRecord)
    (contexts : list ContextMemoryRecord) (global : gmap string ActionFeedback)
    (action goal provider role failure backlog : string) (now : time) : list WeightedFeedback :=
  (if bool_decide (provider = "") then []
   else weigh_exact action "provider_exact" (provider_exact action goal provider role failure backlog) providers now
        ++ weigh_partial action "provider_partial"
             (fun row => provider_goal action goal row && provider_named provider row) providers now)
  ++ weigh_exact action "context_exact" (context_exact action goal failure backlog) contexts now
  ++ weigh_partial action "context_partial" (context_goal action goal) contexts now
  ++ match global !! action with
     | Some fb => [BuildWeightedFeedback fb "global" (af_LastUpdated fb) now]
     | None => []
     end.

(** ** Hierarchy ([hierarchy.go]) *)

Inductive HierarchyLevel : Type :=
| HierarchyExact | HierarchyReduced | HierarchyGeneralized | HierarchyGlobal.

Definition level_number (l : HierarchyLevel) : Z :=
  match l with HierarchyExact => 0 | HierarchyReduced => 1 | HierarchyGeneralized => 2 | HierarchyGlobal => 3 end.

Definition level_String (l : HierarchyLevel) : string :=
  match l with
  | HierarchyExact => "L0_exact"
  | HierarchyReduced => "L1_reduced"
  | HierarchyGeneralized => "L2_generalized"
  | HierarchyGlobal => "L3_global"
  end.

Definition hierSimilarityThreshold : float64 := lit 5 100.

Definition hierarchySpecificityBonus (l : HierarchyLevel) : float64 :=
  match l with
  | HierarchyExact => lit 3 100
  | HierarchyReduced => lit 2 100
  | HierarchyGeneralized => lit 1 100
  | HierarchyGlobal => f0
  end.

Record HierarchicalCandidate := mkHierarchical {
  hc_Level : HierarchyLevel;
  hc_Recommendation : string;
  hc_Confidence : float64;
  hc_RecencyWeight : float64;
  hc_SampleWeight : float64;
  hc_SpecificityBias : float64;
  hc_FinalScore : float64;
  hc_SampleSize : Z;
  hc_SuccessRate : float64;
  hc_FailureRate : float64;
  hc_ActionType : string;
  hc_MatchDimensions : list string
}.

(** [recordAggregator]: the counts it has added up. *)
Record recordAggregator := mkAggregator {
  ra_totalRuns : Z;
  ra_successRuns : Z;
  ra_failureRuns : Z;
  ra_neutralRuns : Z;
  ra_latest : time
}.

Definition no_records : recordAggregator := mkAggregator 0 0 0 0 zero_time.

(** [addProvider] and [addContext] *)
Definition agg_add (a : recordAggregator) (st : RunStats) : recordAggregator :=
  mkAggregator (ra_totalRuns a + rs_TotalRuns st) (ra_successRuns a + rs_SuccessRuns st)
    (ra_failureRuns a + rs_FailureRuns st) (ra_neutralRuns a + rs_NeutralRuns st)
    (if bool_decide (ra_latest a < rs_LastUpdated st) then rs_LastUpdated st else ra_latest a).

Definition candidate (l : HierarchyLevel) (action rec : string) (n : Z) (succ fail : float64) (updated : time)
    (dims : list string) (now : time) : HierarchicalCandidate :=
  let rw := RecencyWeight updated now in
  let sw := SampleWeight n in
  let conf := EvidenceConfidence rw sw in
  let bias := hierarchySpecificityBonus l in
  mkHierarchical l rec conf rw sw bias (fadd conf bias) n succ fail action dims.

Definition agg_build (a : recordAggregator) (l : HierarchyLevel) (action : string) (dims : list string) (now : time)
    : option HierarchicalCandidate :=
  if bool_decide (ra_totalRuns a = 0) then None
  else
    let st := rates (ra_totalRuns a) (ra_successRuns a) (ra_failureRuns a) (ra_neutralRuns a) (ra_latest a) in
    Some (candidate l action (recommendation st) (ra_totalRuns a) (rs_SuccessRate st) (rs_FailureRate st)
            (ra_latest a) dims now).

Definition agg_rows {K} (a : recordAggregator) (t : list (MemoryRow K)) : recordAggregator :=
  fold_left (fun a row => agg_add a (mr_Stats row)) t a.

Section gather.
Context (providers : list ProviderContextMemoryRecord) (contexts : list ContextMemoryRecord).
Context (global : gmap string ActionFeedback) (action goal : string) (now : time).

Definition gatherL0 (provider role failure backlog : string) : option HierarchicalCandidate :=
  let in_context :=
    match List.find (context_exact action goal failure backlog) contexts with
    | Some row => agg_build (agg_add no_records (mr_Stats row)) HierarchyExact action
                    ["action_type"; "goal_type"; "failure_bucket"; "backlog_bucket"] now
    | None => None
    end in
  if bool_decide (provider = "") then in_context
  else match List.find (provider_exact action goal provider role failure backlog) providers with
       | Some row => agg_build (agg_add no_records (mr_Stats row)) HierarchyExact action
                       ["action_type"; "goal_type"; "provider_name"; "model_role"; "failure_bucket"; "backlog_bucket"] now
       | None => in_context
       end.

Definition gatherL1 (failure : string) : option HierarchicalCandidate :=
  let a := agg_rows no_records (List.filter (fun row => provider_goal action goal row
             && bool_decide (pk_FailureBucket (mr_Key row) = failure)) providers) in
  let a := agg_rows a (List.filter (fun row => context_goal action goal row
             && bool_decide (ck_FailureBucket (mr_Key row) = failure)) contexts) in
  agg_build a HierarchyReduced action ["action_type"; "goal_type"; "failure_bucket"] now.

Definition gatherL2 : option HierarchicalCandidate :=
  let a := agg_rows no_records (List.filter (provider_goal action goal) providers) in
  let a := agg_rows a (List.filter (context_goal action goal) contexts) in
  agg_build a HierarchyGeneralized action ["action_type"; "goal_type"] now.

Definition gatherL3 : option HierarchicalCandidate :=
  (fun fb => candidate HierarchyGlobal action (af_Recommendation fb) (af_SampleSize fb) (af_SuccessRate fb)
               (af_FailureRate fb) (af_LastUpdated fb) ["action_type"] now) <$> global !! action.

Definition GatherHierarchicalCandidates (provider role failure backlog : string) : list HierarchicalCandidate :=
  omap id [gatherL0 provider role failure backlog; gatherL1 failure; gatherL2; gatherL3].
End gather.

Definition fabs (x : float64) : float64 := SFabs x.

Definition hierShouldPrefer (c best : HierarchicalCandidate) : bool :=
  let confDiff := fabs (fsub (hc_Confidence c) (hc_Confidence best)) in
  if fleb confDiff hierSimilarityThreshold && bool_decide (hc_Recommendation c = hc_Recommendation best) then
    if bool_decide (level_number (hc_Level best) < level_number (hc_Level c)) then true
    else if bool_decide (level_number (hc_Level c) < level_number (hc_Level best)) then false
    else fltb (hc_FinalScore best) (hc_FinalScore c)
  else fltb (hc_FinalScore best) (hc_FinalScore c).

Definition ResolveHierarchicalFeedback (candidates : list HierarchicalCandidate) : option HierarchicalCandidate :=
  select_best hierShouldPrefer (List.filter (fun c => actionable (hc_Recommendation c)) candidates).

Definition HierarchicalScoreAdjustment (hc : HierarchicalCandidate) (avoidPenalty preferBoost : float64)
    : float64 * string :=
  let rawAdj := FeedbackAdjustmentValue (hc_Recommendation hc) avoidPenalty preferBoost in
  let adj := fmul rawAdj (hc_Confidence hc) in
  let name := level_String (hc_Level hc) in
  (adj, "hierarchical " +:+ name +:+ " " +:+ hc_Recommendation hc +:+ ": raw=" +:+ f2 rawAdj +:+ " × confidence="
        +:+ f2 (hc_Confidence hc) +:+ " → " +:+ f2 adj +:+ " (level=" +:+ name +:+ ", samples="
        +:+ pretty (hc_SampleSize hc) +:+ ", score=" +:+ f2 (hc_FinalScore hc) +:+ ")").

(** ** A table is the tally of its outcomes *)

(** One outcome as a statement took it in: key, status, time. *)
Record Entry (K : Type) := mkEntry { en_Key : K; en_Status : string; en_Time : time }.
Arguments mkEntry {K}.
Arguments en_Key {K}.
Arguments en_Status {K}.
Arguments en_Time {K}.

Definition is_success (s : string) : bool := bool_decide (s = "success").
Definition is_failure (s : string) : bool := bool_decide (s = "failure").
Definition is_neutral (s : string) : bool := negb (is_success s) && negb (is_failure s).

Section tally.
Context {K : Type} `{EqDecision K}.
Implicit Types (t : list (MemoryRow K)) (h : list (Entry K)) (k : K).

Definition entries_of k h : list (Entry K) := List.filter (fun e => bool_decide (en_Key e = k)) h.

Definition count_entries (p : string → bool) h : Z := Z.of_nat (length (List.filter (fun e => p (en_Status e)) h)).

(** The counts of a key that are due after the entries [h]: every one counted
    once, by its status, the rates being the quotients of the counts. *)
Definition tally k h : option RunStats :=
  let h := entries_of k h in
  (fun e => rates (Z.of_nat (length h)) (count_entries is_success h) (count_entries is_failure h)
              (count_entries is_neutral h) (trunc_us (en_Time e))) <$> last h.

Definition stats_of k t : option RunStats :=
  mr_Stats <$> List.find (fun row => bool_decide (mr_Key row = k)) t.

Definition tallies h t : Prop := NoDup (mr_Key <$> t) ∧ ∀ k, stats_of k t = tally k h.

Lemma entries_of_snoc k h e :
  entries_of k (h ++ [e]) = entries_of k h ++ (if bool_decide (en_Key e = k) then [e] else []).
Proof using. unfold entries_of. rewrite List.filter_app. cbn. by case_bool_decide. Qed.

Lemma count_snoc p h e :
  count_entries p (h ++ [e]) = count_entries p h + (if p (en_Status e) then 1 else 0).
Proof using. unfold count_entries. rewrite List.filter_app, length_app, Nat2Z.inj_add. f_equal. cbn. by destruct (p (en_Status e)). Qed.

Lemma count_le p h : 0 ≤ count_entries p h ≤ Z.of_nat (length h).
Proof using. unfold count_entries. pose proof (List.filter_length_le (fun e => p (en_Status e)) h). lia. Qed.

Lemma count_nil p : count_entries p [] = 0.
Proof using. done. Qed.

Lemma increments_flags s :
  outcomeIncrements s = (if is_success s then 1 else 0, if is_failure s then 1 else 0, if is_neutral s then 1 else 0).
Proof using.
  unfold outcomeIncrements, is_neutral, is_success, is_failure.
  destruct (decide (s = "success")) as [->|E]; [done|]. rewrite (bool_decide_false _ E).
  by destruct (bool_decide (s = "failure")).
Qed.

(** One more outcome. *)
Lemma tally_other k h e : en_Key e ≠ k → tally k (h ++ [e]) = tally k h.
Proof using. intros H. unfold tally. by rewrite entries_of_snoc, bool_decide_false, app_nil_r. Qed.

Lemma tally_more k s now h :
  tally k (h ++ [mkEntry k s now]) =
  Some match tally k h with
       | None => first_stats (outcomeIncrements s) now
       | Some st => add_stats (outcomeIncrements s) now st
       end.
Proof using.
  unfold tally. rewrite entries_of_snoc. cbn. rewrite bool_decide_true by done.
  set (g := entries_of k h). rewrite last_snoc. cbn.
  rewrite increments_flags, length_app, !count_snoc. cbn [en_Status].
  destruct (last g) as [e|] eqn:E; cbn [fmap option_fmap option_map].
  - unfold add_stats, rates. cbn. repeat f_equal; lia.
  - apply last_None in E as ->. rewrite !count_nil. unfold first_stats, rates. cbn.
    by destruct (is_success s), (is_failure s), (is_neutral s).
Qed.

Lemma tally_range k h st : tally k h = Some st → Z.of_nat (length h) < 2 ^ 31 → in_range st = true.
Proof using.
  unfold tally. intros H Hh. destruct (last (entries_of k h)); [|done]. cbn in H. injection H as <-.
  assert (length (entries_of k h) ≤ length h)%nat by apply List.filter_length_le.
  unfold in_range, in_int4. cbn.
  pose proof (count_le is_success (entries_of k h)). pose proof (count_le is_failure (entries_of k h)).
  pose proof (count_le is_neutral (entries_of k h)).
  rewrite !bool_decide_true; [done|lia..].
Qed.

Lemma tallies_nil : tallies [] [].
Proof using. split; [constructor|done]. Qed.

Lemma stats_of_cons k row t :
  stats_of k (row :: t) = if bool_decide (mr_Key row = k) then Some (mr_Stats row) else stats_of k t.
Proof using. unfold stats_of. cbn. by case_bool_decide. Qed.

Ltac key_cases k1 k2 :=
  let E := fresh in
  destruct (decide (k1 = k2)) as [E|E];
  [subst k1; rewrite !(bool_decide_true (k2 = k2)) by done
  |rewrite ?(bool_decide_false (k1 = k2)), ?(bool_decide_false (k2 = k1)) by congruence].

(** What an upsert does to the counts of each key. *)
Lemma upsert_counts id k inc now t t' :
  upsert id k inc now t = Ok t' →
  (∀ k', k' ∈ mr_Key <$> t' ↔ k' = k ∨ k' ∈ mr_Key <$> t) ∧
  (NoDup (mr_Key <$> t) → NoDup (mr_Key <$> t')) ∧
  (∀ k', stats_of k' t' =
     if bool_decide (k' = k)
     then Some match stats_of k t with None => first_stats inc now | Some st => add_stats inc now st end
     else stats_of k' t).
Proof using.
  revert t'. induction t as [|row t IH]; intros t'; cbn [upsert].
  - intros [= <-]. split_and!.
    + intros k'. cbn. rewrite list_elem_of_singleton. set_solver.
    + intros _. cbn. apply NoDup_singleton.
    + intros k'. rewrite !stats_of_cons. cbn. by key_cases k' k.
  - destruct (decide (mr_Key row = k)) as [<-|E].
    + destruct (in_range _); [|done]. intros [= <-]. split_and!; [cbn; set_solver|done|].
      intros k'. rewrite !stats_of_cons. cbn. by key_cases k' (mr_Key row).
    + destruct (upsert id k inc now t) as [t1|] eqn:H; [|done]. intros [= <-].
      destruct (IH t1 eq_refl) as (HK & HN & HS). split_and!.
      * intros k'. cbn. rewrite !elem_of_cons, HK. tauto.
      * cbn. intros [Hr Ht]%NoDup_cons. apply NoDup_cons. rewrite HK. naive_solver.
      * intros k'. rewrite !stats_of_cons, HS, (bool_decide_false (mr_Key row = k)) by done.
        key_cases k' (mr_Key row); [|done]. by rewrite bool_decide_false.
Qed.

Lemma upsert_succeeds id k inc now t :
  (∀ st, stats_of k t = Some st → in_range (add_stats inc now st) = true) → is_Some (match upsert id k inc now t with Ok t' => Some t' | Err _ => None end).
Proof using.
  induction t as [|row t IH]; intros H; cbn [upsert]; [by eexists|]. rewrite stats_of_cons in H.
  destruct (decide (mr_Key row = k)) as [E|E].
  - rewrite bool_decide_true in H by done. rewrite (H _ eq_refl). by eexists.
  - rewrite bool_decide_false in H by done. destruct (upsert id k inc now t); [by eexists|].
    destruct (IH H) as [? ?]. done.
Qed.

Lemma upsert_tallies id k s now h t t' :
  tallies h t → upsert_row id k s now t = Ok (tt, t') → tallies (h ++ [mkEntry k s now]) t'.
Proof using.
  intros [HN HS]. unfold upsert_row. destruct (upsert _ _ _ _ _) as [t1|] eqn:H; [|done]. intros [= <-].
  destruct (upsert_counts _ _ _ _ _ _ H) as (_ & HN' & HS'). split; [auto|]. intros k'. rewrite HS'.
  case_bool_decide as E.
  - subst k'. by rewrite tally_more, HS.
  - rewrite tally_other by (cbn; congruence). apply HS.
Qed.

Lemma upsert_row_ok id k s now h t :
  tallies h t → Z.of_nat (length h) + 1 < 2 ^ 31 → ∃ t', upsert_row id k s now t = Ok (tt, t').
Proof using.
  intros [HN HS] Hh. unfold upsert_row.
  destruct (upsert_succeeds id k (outcomeIncrements s) now t) as [t' Ht'].
  - intros st Hst. eapply (tally_range k (h ++ [mkEntry k s now])).
    + by rewrite tally_more, <- HS, Hst.
    + rewrite length_app. cbn. lia.
  - destruct (upsert _ _ _ _ _); [|done]. by eexists.
Qed.
End tally.

(** ** Nothing is remembered *)

Inductive Recording : Type :=
| RecOutcome (o : OutcomeInput)
| RecContext (o : ContextOutcomeInput)
| RecProvider (o : ProviderContextOutcomeInput).

Section recording.
Context {D X : Type} {MP : Part MemoryTables D} {U : UuidPkg} {NU : UuidNil} {PP : PgPrepare} {PL : PgPrepareLaws PP}.
Context (clock : nat → time).
Abbreviation AM A := (St (Agent D X) A).

Definition record_outcome (r : Recording) : AM (option error) :=
  match r with
  | RecOutcome o => Memory_Update clock o
  | RecContext o => UpdateContext clock o
  | RecProvider o => UpdateProviderContext clock o
  end.

(** A call that fails and leaves the database alone. *)
Definition refused (c : AM (option error)) : Prop := ∀ s, is_Some (fst (c s)) ∧ ag_db (snd (c s)) = ag_db s.

(** The first counter is needed as a float and as an integer. *)
Lemma upsert_refused (keys : list pg_type) : is_Some (prepare (upsert_uses keys)).
Proof using PL.
  set (n := (length keys + 2)%nat). apply (prepare_one_type _ n PgInt4 PgFloat8); [| |done]; unfold upsert_uses.
  - apply elem_of_app. right. by left.
  - apply elem_of_app. left. unfold upsert_values, upsert_columns. rewrite app_comm_cons, zip_with_app.
    + rewrite concat_app. apply elem_of_app. right. cbn. fold n. rewrite !elem_of_cons. auto 10.
    + cbn. rewrite length_map, length_seq. lia.
Qed.

Lemma exec_refused (stmt : D → res (unit * D)) : (∀ db, ∃ e, stmt db = Err e) → refused (exec stmt).
Proof using.
  intros H s. unfold exec. rewrite bindS_run. unfold statement.
  destruct (ag_faults s) as [|[|e|e] faults]; cbn [fst snd];
    match goal with |- context [stmt ?db] => destruct (H db) as [e' ->] | _ => idtac end; by split; [eexists|].
Qed.

Lemma exec_upsert_refused {K} `{EqDecision K} {KC : KeyColumns K} {P : Part (list (MemoryRow K)) MemoryTables}
    (k : K) status now :
  refused (exec_upsert k status now).
Proof using PL.
  destruct (upsert_refused key_columns) as [e He]. intros s. unfold exec_upsert. rewrite bindS_run.
  match goal with |- context [exec ?stmt ?s'] =>
    destruct (exec_refused stmt ltac:(intros db; rewrite He; by eexists) s') as [H1 H2] end.
  split; [exact H1|exact H2].
Qed.

Lemma record_refused r : refused (record_outcome r).
Proof using PL.
  intros s. destruct r as [o|o|o]; cbn [record_outcome]; unfold Memory_Update, upsertAggregate, UpdateContext,
    UpdateProviderContext; rewrite !bindS_run; cbn [reading fst snd];
    match goal with |- context [exec_upsert ?k ?st ?now ?s'] =>
      destruct (exec_upsert_refused k st now s') as [[e He] Hdb] end.
  - destruct (exec_upsert _ _ _ _) as [err s1]. cbn [fst snd] in *. rewrite He. by split; [eexists|].
  - destruct (exec_upsert _ _ _ _) as [err s1]. cbn [fst snd retS] in *. rewrite He. by split; [eexists|].
  - destruct (exec_upsert _ _ _ _) as [err s1]. cbn [fst snd retS] in *. rewrite He. by split; [eexists|].
Qed.

(** Queries of an empty memory. *)
Lemma ask_row_empty {A} rows (q : nat → MemoryTables → option A) (s : Agent D X) :
  part (ag_db s) = empty_memory → (∀ n, q n empty_memory = None) → fst (ask_row rows q s) = None.
Proof using.
  intros H0 Hq. unfold ask_row. rewrite !bindS_run. cbn [reading fst snd]. unfold statement, stmt_on, asks. cbn.
  destruct (ag_faults s) as [|[|e|e] faults]; cbn; rewrite ?H0; cbn; done || apply Hq.
Qed.

Lemma ask_memory_empty {A} what (q : MemoryTables → list A) (s : Agent D X) l :
  part (ag_db s) = empty_memory → q empty_memory = [] → fst (ask_memory what q s) = Ok l → l = [].
Proof using.
  intros H0 Hq. unfold ask_memory. rewrite !bindS_run. unfold statement, stmt_on, asks. cbn.
  destruct (ag_faults s) as [|[|e|e] faults]; cbn; rewrite ?H0, ?Hq; cbn; congruence.
Qed.

(** C28: Action memory remembers nothing.  Every upsert of its four tables uses a
    counter both for an integer column and under [::float]; PostgreSQL deduces one
    type per parameter, so it refuses the statement.  Whatever outcomes are
    recorded, and whatever faults strike, every call to record one returns an
    error and the database stays as it is.  From empty tables, as the migrations
    leave them, the listings stay empty, no record is ever found and the guard
    of the action engine never tells to avoid an action. *)
Theorem memory_stays_empty (rs : list Recording) (s : Agent D X) :
  let s' := snd (forS (fun r => dropped (record_outcome r)) rs s) in
  (∀ r s, is_Some (fst (record_outcome r s))) ∧ ag_db s' = ag_db s ∧
  (part (ag_db s) = empty_memory → ∀ rows actionType ck pk provider,
   fst (ShouldAvoid rows actionType s') = None ∧ fst (GetByActionType rows actionType s') = None ∧
   fst (GetContextRecord rows ck s') = None ∧ fst (GetProviderContextRecord rows pk s') = None ∧
   (∀ l, fst (Memory_List s') = Ok l → l = []) ∧ (∀ l, fst (ListContextRecords s') = Ok l → l = []) ∧
   ∀ l, fst (ListProviderContextRecords provider actionType s') = Ok l → l = []).
Proof using PL.
  intros s'. assert (Hdb : ag_db s' = ag_db s).
  { unfold s'. clear s'. revert s. induction rs as [|r rs IH]; intros s; cbn [forS]; [done|].
    rewrite bindS_run, dropped_run. cbn [fst snd]. rewrite IH. apply record_refused. }
  split; [intros r s0; apply record_refused|]. split; [exact Hdb|]. intros H0. rewrite <- Hdb in H0.
  generalize dependent s'. intros s' _ H0 rows actionType ck pk provider.
  assert (Hg : fst (GetByActionType rows actionType s') = None) by (by apply ask_row_empty).
  split_and!; try (by apply ask_row_empty); try done.
  - unfold ShouldAvoid. rewrite bindS_run. cbn [fst retS]. by rewrite Hg.
  - intros l. by apply ask_memory_empty.
  - intros l. by apply ask_memory_empty.
  - intros l. by apply ask_memory_empty.
Qed.
End recording.
