(* ===== verification/ActionEngine.v ===== *)
(** * Goals and actions ([internal/agent/goals], [internal/agent/actions])

    The action cycle: goals are derived from the state of the pipeline, a planner
    turns them into actions, guardrails reject the unsafe ones, and the executor
    asks the API for the rest.  The pipeline's tables belong to other services and
    may change between any two queries: each query reads them anew.  The planner,
    the two guards of other packages, the HTTP client and the outcome handler are
    computations on the process's state. *)

From stdpp Require Import base gmap strings list tactics numbers fin_maps pretty.
From Stdlib Require Import ZArith Lia.
From S2P Require Import Prelude GoFloat GoStrconv GoSort Models JobQueue GoTime AgentWorld ActionMemory.

Open Scope Z_scope.

(** ** What the agent reads *)

(** A row of [audit_events]. *)
Record AuditRow := mkAuditRow { au_EntityID : uuid; au_EventType : string; au_OccurredAt : time }.

Record Pipeline := mkPipeline { pl_db : DB; pl_audit : list AuditRow }.

(** The clock, the pipeline's tables and the order of unordered rows, at each
    reading; [pg_avg] is [AVG] of an integer column as a [float64], which
    PostgreSQL computes in decimal; [float_text] is the shortest text of a
    [float64], which is not the target of any action the planners make. *)
Record Surroundings := mkSurroundings {
  en_clock : nat → time;
  en_pipeline : nat → Pipeline;
  en_rows : nat → nat;
  en_pg_avg : list Z → float64;
  en_float_text : float64 → string
}.

(** ** Goals ([goals/types.go], [goals/evaluator.go]) *)

Definition GoalReduceRetryRate : string := "reduce_retry_rate".
Definition GoalInvestigateFailures : string := "investigate_failed_jobs".
Definition GoalImproveModelQuality : string := "increase_model_quality".
Definition GoalReduceLatency : string := "reduce_latency".
Definition GoalResolveBacklog : string := "resolve_queue_backlog".
Definition GoalIncreaseReliability : string := "increase_reliability".

(** Less the evidence, which is only displayed. *)
Record Goal := mkGoal {
  go_ID : string;
  go_Type : string;
  go_Priority : float64;
  go_Confidence : float64;
  go_Description : string;
  go_CreatedAt : time
}.

Record SystemSnapshot := mkSystemSnapshot {
  ss_QueueStats : gmap string Z;
  ss_TotalJobsRecent : Z;
  ss_FailedJobsRecent : Z;
  ss_DeadLetterRecent : Z;
  ss_SucceededJobsRecent : Z;
  ss_AcceptedProposals : Z;
  ss_RejectedProposals : Z;
  ss_TotalProposals : Z;
  ss_AvgLatencyMS : float64
}.

Definition thresholdFailureRate : float64 := lit 20 100.
Definition thresholdRetryBacklog : Z := 10.
Definition thresholdLowAcceptance : float64 := lit 40 100.
Definition thresholdQueueBacklog : Z := 50.
Definition thresholdHighLatencyMS : float64 := f_of_Z 30000.
Definition thresholdDeadLetterRate : float64 := lit 10 100.

Definition Unix (t : time) : Z := t / Second.

Definition goal_id (type : string) (now : time) : string := "goal-" +:+ type +:+ "-" +:+ pretty (Unix now).

(** [confidence]: by the size of the sample. *)
Definition sample_confidence (n : Z) : float64 :=
  if bool_decide (n ≤ 0) then f0
  else if bool_decide (100 ≤ n) then lit 95 100
  else if bool_decide (50 ≤ n) then lit 85 100
  else if bool_decide (20 ≤ n) then lit 70 100
  else if bool_decide (5 ≤ n) then lit 50 100
  else lit 30 100.

Definition percent (rate : float64) : string := fmt_fixed 1 (fmul rate (f_of_Z 100)) +:+ "%".

Definition queue_stat (snap : SystemSnapshot) (status : string) : Z := default 0 (ss_QueueStats snap !! status).

Section evaluator.
Context (snap : SystemSnapshot) (now : time).

Definition new_goal (type : string) (priority confidence : float64) (description : string) : list Goal :=
  [mkGoal (goal_id type now) type (fclamp01 priority) confidence description now].

Definition evalFailureRate : list Goal :=
  if bool_decide (ss_TotalJobsRecent snap = 0) then []
  else
    let rate := fdiv (f_of_Z (ss_FailedJobsRecent snap)) (f_of_Z (ss_TotalJobsRecent snap)) in
    if fleb rate thresholdFailureRate then []
    else new_goal GoalIncreaseReliability (fmul rate (f_of_Z 2)) (sample_confidence (ss_TotalJobsRecent snap))
           ("Failure rate " +:+ percent rate +:+ " exceeds threshold 20%. "
            +:+ "Investigate failing jobs and consider model or provider changes.").

Definition evalRetryBacklog : list Goal :=
  let retryCount := queue_stat snap "retry_scheduled" in
  if bool_decide (retryCount ≤ thresholdRetryBacklog) then []
  else new_goal GoalReduceRetryRate
         (fdiv (fdiv (f_of_Z retryCount) (f_of_Z thresholdRetryBacklog)) (f_of_Z 5)) (lit 90 100)
         ("Retry backlog " +:+ pretty retryCount +:+ " exceeds threshold " +:+ pretty thresholdRetryBacklog
          +:+ ". Reduce retry pressure by investigating root cause of failures.").

Definition evalAcceptanceRate : list Goal :=
  if bool_decide (ss_TotalProposals snap = 0) then []
  else
    let rate := fdiv (f_of_Z (ss_AcceptedProposals snap)) (f_of_Z (ss_TotalProposals snap)) in
    if fleb thresholdLowAcceptance rate then []
    else new_goal GoalImproveModelQuality (fmul (fsub f1 rate) (lit 15 10))
           (sample_confidence (ss_TotalProposals snap))
           ("Proposal acceptance rate " +:+ percent rate +:+ " is below threshold 40%. "
            +:+ "Consider escalating to a stronger model or adjusting prompts.").

Definition evalQueueBacklog : list Goal :=
  let queued := queue_stat snap "queued" in
  if bool_decide (queued ≤ thresholdQueueBacklog) then []
  else new_goal GoalResolveBacklog
         (fdiv (fdiv (f_of_Z queued) (f_of_Z thresholdQueueBacklog)) (f_of_Z 3)) (lit 95 100)
         ("Queue backlog " +:+ pretty queued +:+ " exceeds threshold " +:+ pretty thresholdQueueBacklog
          +:+ ". System may need more workers or throughput optimization.").

Definition evalLatency : list Goal :=
  let avg := ss_AvgLatencyMS snap in
  if fleb avg f0 || fleb avg thresholdHighLatencyMS then []
  else new_goal GoalReduceLatency (fdiv (fdiv avg thresholdHighLatencyMS) (f_of_Z 3))
         (sample_confidence (ss_TotalJobsRecent snap))
         ("Average processing latency " +:+ fmt_fixed 0 avg +:+ "ms exceeds threshold 30000ms. "
          +:+ "Consider using faster models or reducing prompt complexity.").

Definition evalDeadLetters : list Goal :=
  if bool_decide (ss_TotalJobsRecent snap = 0) then []
  else
    let rate := fdiv (f_of_Z (ss_DeadLetterRecent snap)) (f_of_Z (ss_TotalJobsRecent snap)) in
    if fleb rate thresholdDeadLetterRate then []
    else new_goal GoalInvestigateFailures (fmul rate (f_of_Z 3)) (sample_confidence (ss_TotalJobsRecent snap))
           ("Dead letter rate " +:+ percent rate +:+ " exceeds threshold 10%. "
            +:+ "Jobs are exhausting retries. Investigate root cause.").

Definition EvaluateSystem : list Goal :=
  evalFailureRate ++ evalRetryBacklog ++ evalAcceptanceRate ++ evalQueueBacklog ++ evalLatency ++ evalDeadLetters.
End evaluator.

(** ** Queries of the pipeline *)

Definition jobs_of (p : Pipeline) : list ProcessingJob := JobsTable.rows (processing_jobs (pl_db p)).

Definition count_jobs (f : ProcessingJob → bool) (p : Pipeline) : Z :=
  Z.of_nat (length (List.filter f (jobs_of p))).

Definition has_status (ss : list JobStatus) (j : ProcessingJob) : bool := bool_decide (job_Status j ∈ ss).

(** [updated_at >= $1]: the instant is sent with microseconds. *)
Definition updated_since (since : time) (j : ProcessingJob) : bool := bool_decide (trunc_us since ≤ job_UpdatedAt j).

Definition count_recent (ss : list JobStatus) (since : time) (p : Pipeline) : Z :=
  count_jobs (fun j => has_status ss j && updated_since since j) p.

Definition count_proposals (ss : list ApprovalStatus) (since : time) (p : Pipeline) : Z :=
  Z.of_nat (length (List.filter (fun q => bool_decide (pr_ApprovalStatus q ∈ ss)
                                          && bool_decide (trunc_us since ≤ pr_UpdatedAt q))
                      (map_to_list (suggestion_proposals (pl_db p))).*2)).

Definition finished_statuses : list JobStatus := [JobStatusSucceeded; JobStatusFailed; JobStatusDeadLetter].

Definition queue_stats (p : Pipeline) : gmap string Z :=
  list_to_map (map (fun s => (job_status_string s, count_jobs (has_status [s]) p))
    [JobStatusQueued; JobStatusLeased; JobStatusRetryScheduled; JobStatusFailed; JobStatusDeadLetter]).

(** [duration_ms > 0] of the runs started since. *)
Definition recent_durations (since : time) (p : Pipeline) : list Z :=
  omap (fun run => match run_DurationMs run with
                   | Some d => if bool_decide (trunc_us since ≤ run_StartedAt run) && bool_decide (0 < d)
                               then Some d else None
                   | None => None
                   end) (map_to_list (processing_runs (pl_db p))).*2.

(** [COALESCE(AVG(duration_ms), 0)] *)
Definition avg_latency (avg : list Z → float64) (since : time) (p : Pipeline) : float64 :=
  match recent_durations since p with [] => f0 | ds => avg ds end.

Definition lookbackWindow : Z := 24 * Hour.

(** ** Actions ([actions/types.go]) *)

(** A value of [map[string]any] in an action's parameters. *)
Inductive pval : Type :=
| PStr (s : string)
| PInt (n : Z)
| PFloat (x : float64)
| PBool (b : bool)
| PStrs (l : list string).

(** [m[k].(string)], whose failure gives the empty string. *)
Definition param_string (k : string) (m : gmap string pval) : string :=
  match m !! k with Some (PStr s) => s | _ => "" end.

Definition ActionRetryJob : string := "retry_job".
Definition ActionTriggerResync : string := "trigger_resync".
Definition ActionLogRecommendation : string := "log_recommendation".

(** A nil map of parameters reads as an empty one. *)
Record Action := mkAction {
  act_ID : string;
  act_Type : string;
  act_Priority : float64;
  act_Confidence : float64;
  act_GoalID : string;
  act_Description : string;
  act_Params : gmap string pval;
  act_Safe : bool;
  act_CreatedAt : time
}.

#[export] Instance Action_settable : Settable Action := fun r =>
  mkAction (act_ID r) (act_Type r) (act_Priority r) (act_Confidence r) (act_GoalID r) (act_Description r)
    (act_Params r) (act_Safe r) (act_CreatedAt r).

Definition StatusRejected : string := "rejected".
Definition StatusExecuted : string := "executed".
Definition StatusFailed : string := "failed".

Record ActionResult := mkResult {
  ar_ActionID : string;
  ar_Status : string;
  ar_Reason : string;
  ar_Error : string;
  ar_Duration : Z
}.

Record CycleReport := mkReport {
  cr_CycleID : string;
  cr_Planned : list Action;
  cr_Rejected : list ActionResult;
  cr_Executed : list ActionResult;
  cr_Failed : list ActionResult;
  cr_Timestamp : time
}.

(** ** Guardrails' data ([actions/guardrails.go]) *)

Definition dedupeWindow : Z := 2 * Minute.
Definition backlogThreshold : Z := 100.
Definition maxRecentRetries : Z := 3.

(** [recentExecs], by action key. *)
Abbreviation Guard := (gmap string time).

(** [fmt.Sprint] of a parameter, given the one of a [float64]. *)
Definition sprint (float_text : float64 → string) (p : option pval) : string :=
  match p with
  | Some (PStr s) => s
  | Some (PInt n) => pretty n
  | Some (PBool true) => "true"
  | Some (PBool false) => "false"
  | Some (PFloat x) => float_text x
  | Some (PStrs l) => "[" +:+ String.concat " " l +:+ "]"
  | None => "<nil>"
  end.

Definition actionDedupeKey (float_text : float64 → string) (a : Action) : string :=
  if bool_decide (act_Type a = ActionRetryJob) then "retry:" +:+ sprint float_text (act_Params a !! "job_id")
  else if bool_decide (act_Type a = ActionTriggerResync) then "resync:" +:+ sprint float_text (act_Params a !! "source_task_id")
  else act_Type a +:+ ":" +:+ act_ID a.

(** Entries older than the window go; the key is a duplicate within it. *)
Definition prune_execs (now : time) (g : Guard) : Guard :=
  filter (fun e => time_Sub now e.2 ≤ dedupeWindow) g.

Definition recent_duplicate (now : time) (key : string) (g : Guard) : bool * Guard :=
  let g := prune_execs now g in
  (match g !! key with Some t => bool_decide (time_Sub now t < dedupeWindow) | None => false end, g).

Definition count_retried (job : uuid) (since : time) (p : Pipeline) : Z :=
  Z.of_nat (length (List.filter (fun ev => bool_decide (au_EntityID ev = job)
                                           && bool_decide (au_EventType ev = "job.retried")
                                           && bool_decide (trunc_us since < au_OccurredAt ev)) (pl_audit p))).

(** ** Targets ([actions/planner.go]) *)

(** [ORDER BY priority DESC, created_at ASC] *)
Definition retry_before (x y : ProcessingJob) : bool :=
  if bool_decide (job_Priority x = job_Priority y) then bool_decide (job_CreatedAt x < job_CreatedAt y)
  else bool_decide (job_Priority y < job_Priority x).

Definition retryable (j : ProcessingJob) : bool :=
  has_status [JobStatusRetryScheduled; JobStatusDeadLetter] j
  && bool_decide (job_AttemptCount j < job_MaxAttempts j).

Definition retry_ids (p : Pipeline) : list uuid :=
  map job_ID (take 10 (SliceStable retry_before (List.filter retryable (jobs_of p)))).

(** A task joins a row for each of its jobs; [DISTINCT] keeps one. *)
Definition has_backlog (p : Pipeline) (task : uuid) : bool :=
  existsb (fun j => bool_decide (job_SourceTaskID j = task)
                    && has_status [JobStatusQueued; JobStatusRetryScheduled] j) (jobs_of p).

Definition resync_ids (p : Pipeline) : list uuid :=
  take 5 (SliceStable Z.ltb (List.filter (has_backlog p) (map_to_list (source_tasks (pl_db p))).*1)).

(** ** The executor's requests ([actions/executor.go]) *)

(** The URL posted to, or why there is none. *)
Definition action_url (base : string) (a : Action) : res string :=
  if bool_decide (act_Type a = ActionRetryJob) then
    match param_string "job_id" (act_Params a) with
    | "" => Err (Errorf "missing job_id param")
    | id => Ok (base +:+ "/api/v1/jobs/" +:+ id +:+ "/retry")
    end
  else
    match param_string "source_task_id" (act_Params a) with
    | "" => Err (Errorf "missing source_task_id param")
    | id => Ok (base +:+ "/api/v1/source-tasks/" +:+ id +:+ "/resync")
    end.

Section engine.
Context {D X : Type} {MP : Part MemoryTables D} {GP : Part Guard X} {U : UuidPkg} (env : Surroundings).
Abbreviation AE A := (St (Agent D X) A).

(** A query of the pipeline. *)
Definition query {A} (q : Pipeline → A) : AE (res A) :=
  let! p := reading (en_pipeline env) in statement (asks (fun _ => q p)).

Definition now : AE time := reading (en_clock env).

Definition then_ok {A B} (c : AE (res A)) (k : A → AE (res B)) : AE (res B) :=
  let! r := c in match r with Ok a => k a | Err e => retS (Err e) end.

Definition wrapped {A} (what : string) (c : AE (res A)) : AE (res A) :=
  let! r := c in retS match r with Ok a => Ok a | Err e => Err (wrap what e) end.

(** *** Goal engine ([goals/engine.go]) *)

Definition since_window : AE time := let! t := now in retS (t - lookbackWindow).

Definition collectSnapshot : AE (res SystemSnapshot) :=
  then_ok (wrapped "queue stats: " (query queue_stats)) (fun stats =>
  let! since := since_window in
  then_ok (query (fun p => (count_recent finished_statuses since p, count_recent [JobStatusFailed] since p,
                            count_recent [JobStatusDeadLetter] since p, count_recent [JobStatusSucceeded] since p)))
  (fun '(total, failed, dead, succeeded) =>
  let! since := since_window in
  then_ok (query (fun p => (count_proposals [ApprovalStatusApproved] since p,
                            count_proposals [ApprovalStatusRejected] since p,
                            count_proposals [ApprovalStatusApproved; ApprovalStatusRejected] since p)))
  (fun '(accepted, rejected, terminal) =>
  let! since := since_window in
  then_ok (query (avg_latency (en_pg_avg env) since)) (fun avg =>
  retS (Ok (mkSystemSnapshot stats total failed dead succeeded accepted rejected terminal avg)))))).

(** [sort.Slice] of at most 12 elements is an insertion sort. *)
Definition by_priority (goals : list Goal) : list Goal :=
  insertionSort (fun x y => fltb (go_Priority y) (go_Priority x)) goals.

Definition Goals_Evaluate : AE (res (list Goal)) :=
  then_ok (wrapped "goal engine: collect snapshot: " collectSnapshot) (fun snap =>
  let! t := now in retS (Ok (by_priority (EvaluateSystem snap t)))).

(** *** Targets and the static planner *)

(** One action per row. *)
Fixpoint actions_for (mk : uuid → string → time → Action) (ids : list uuid) : AE (list Action) :=
  match ids with
  | [] => retS []
  | id :: ids =>
      let! aid := fresh_uuid in
      let! t := now in
      let! rest := actions_for mk ids in
      retS (mk id aid t :: rest)
  end.

Definition retry_action (g : Goal) (job : uuid) (id : string) (t : time) : Action :=
  mkAction id ActionRetryJob (go_Priority g) (go_Confidence g) (go_ID g)
    ("Retry job " +:+ uuid_String job +:+ " (goal: " +:+ go_Type g +:+ ")") {["job_id" := PStr (uuid_String job)]} true t.

Definition resync_action (g : Goal) (task : uuid) (id : string) (t : time) : Action :=
  mkAction id ActionTriggerResync (go_Priority g) (go_Confidence g) (go_ID g)
    ("Trigger resync for task " +:+ uuid_String task +:+ " (goal: " +:+ go_Type g +:+ ")")
    {["source_task_id" := PStr (uuid_String task)]} true t.

(** The rows of a query as they are read one by one: an error may come after any
    number of them ([rows.Err()]), or instead of the first; it is only logged, so
    the words it is wrapped in are left out. *)
Definition query_rows {A} (q : Pipeline → list A) : AE (list A * option error) :=
  let! p := reading (en_pipeline env) in
  let! n := reading (en_rows env) in
  let! r := statement (fun db => Ok (q p, db)) in
  retS match r with Ok rows => (rows, None) | Err e => (take n (q p), Some e) end.

(** [FindRetryTargets] and [FindResyncTargets]: the targets read, with the error. *)
Definition planRetryActions (g : Goal) : AE (list Action * option error) :=
  let! found := query_rows retry_ids in
  let! acts := actions_for (retry_action g) (fst found) in retS (acts, snd found).

Definition planResyncActions (g : Goal) : AE (list Action * option error) :=
  let! found := query_rows resync_ids in
  let! acts := actions_for (resync_action g) (fst found) in retS (acts, snd found).

Definition logRecommendation (g : Goal) : AE Action :=
  let! id := fresh_uuid in
  let! t := now in
  retS (mkAction id ActionLogRecommendation (go_Priority g) (go_Confidence g) (go_ID g)
          ("Recommendation: " +:+ go_Description g +:+ " (goal: " +:+ go_Type g +:+ ")")
          (<["description" := PStr (go_Description g)]> {["goal_type" := PStr (go_Type g)]}) true t).

Definition static_planForGoal (g : Goal) : AE (list Action * option error) :=
  if bool_decide (go_Type g = GoalReduceRetryRate) || bool_decide (go_Type g = GoalInvestigateFailures)
  then planRetryActions g
  else if bool_decide (go_Type g = GoalResolveBacklog) then planResyncActions g
  else let! a := logRecommendation g in retS ([a], None).

(** A goal whose targets cannot all be read gets no actions. *)
Fixpoint static_PlanActions (goals : list Goal) : AE (list Action) :=
  match goals with
  | [] => retS []
  | g :: goals =>
      let! r := static_planForGoal g in
      let! rest := static_PlanActions goals in
      retS (match snd r with None => fst r | Some _ => [] end ++ rest)
  end.

(** *** Guardrails *)

(** The providers: why an action type is to be rejected, if it is. *)
Context (feedback : option (string → AE (option string))) (stability : option (string → AE (option string))).

Definition ask_guard (p : option (string → AE (option string))) (actionType : string) : AE (option string) :=
  match p with
  | Some p => if bool_decide (actionType = ActionLogRecommendation) then retS None else p actionType
  | None => retS None
  end.

Definition isRecentDuplicate (key : string) : AE bool :=
  let! t := now in provider (call_on (recent_duplicate t key)).

Definition isSystemOverloaded : AE (res bool) :=
  then_ok (wrapped "check queue backlog: " (query (count_jobs (has_status [JobStatusQueued])))) (fun count =>
  retS (Ok (bool_decide (backlogThreshold < count)))).

(** The text is bound to a [UUID] column. *)
Definition tooManyRecentRetries (jobID : string) : AE (res bool) :=
  let! t := now in
  then_ok (wrapped "check recent retries: "
    (match uuid_Parse jobID with
     | Ok job => query (count_retried job (t - dedupeWindow))
     | Err e => retS (Err e)
     end)) (fun count =>
  retS (Ok (bool_decide (maxRecentRetries ≤ count)))).

(** Checks in order, up to the first reason to reject. *)
Definition or_else (c k : AE (option string)) : AE (option string) :=
  let! r := c in match r with Some reason => retS (Some reason) | None => k end.

Definition duplicate_reason (a : Action) : AE (option string) :=
  let! dup := isRecentDuplicate (actionDedupeKey (en_float_text env) a) in
  retS (if dup then Some ("action " +:+ act_Type a +:+ " on target already executed within 2m0s") else None).

Definition load_reason (a : Action) : AE (option string) :=
  if bool_decide (act_Type a = ActionLogRecommendation) then retS None
  else
    let! r := isSystemOverloaded in
    retS match r with
         | Err _ => Some "failed to check system load"
         | Ok true => Some ("system backlog exceeds threshold (" +:+ pretty backlogThreshold +:+ ")")
         | Ok false => None
         end.

Definition retries_reason (a : Action) : AE (option string) :=
  let jobID := param_string "job_id" (act_Params a) in
  if bool_decide (act_Type a = ActionRetryJob) && negb (bool_decide (jobID = "")) then
    let! r := tooManyRecentRetries jobID in
    retS match r with
         | Err _ => Some "failed to check retry count"
         | Ok true => Some ("job " +:+ jobID +:+ " already retried " +:+ pretty maxRecentRetries +:+ "+ times recently")
         | Ok false => None
         end
  else retS None.

(** [None] is safe, a reason is not. *)
Definition EvaluateSafety (a : Action) : AE (option string) :=
  or_else (ask_guard stability (act_Type a))
    (or_else (ask_guard feedback (act_Type a))
       (or_else (duplicate_reason a) (or_else (load_reason a) (retries_reason a)))).

Definition RecordExecution (a : Action) : AE unit :=
  let! t := now in provider (call_on (fun g => (tt, <[actionDedupeKey (en_float_text env) a := t]> g))).

(** *** Executor *)

(** [http.Client.Do] of a POST: the status code, or a transport error.  The URLs
    the planners' parameters give are well formed, so that making the request
    does not fail. *)
Context (base : string) (client_Do : string → St X (res Z)).

Definition doPost (url : string) : AE (option error) :=
  let! r := provider (client_Do url) in
  retS match r with
       | Err e => Some (wrap "execute request: " e)
       | Ok code => if bool_decide (300 ≤ code) then Some (Errorf ("api returned status " +:+ pretty code)) else None
       end.

(** [retryJob] and [triggerResync]. *)
Definition post_action (a : Action) : AE (option error) :=
  match action_url base a with Ok url => doPost url | Err e => retS (Some e) end.

Definition finish (a : Action) (start : time) (status err : string) : AE ActionResult :=
  let! t := now in retS (mkResult (act_ID a) status "" err (time_Sub t start)).

Definition ExecuteAction (a : Action) : AE ActionResult :=
  let! start := now in
  if bool_decide (act_Type a = ActionRetryJob) || bool_decide (act_Type a = ActionTriggerResync) then
    let! err := post_action a in
    match err with
    | Some e => finish a start StatusFailed (error_text e)
    | None => finish a start StatusExecuted ""
    end
  else if bool_decide (act_Type a = ActionLogRecommendation) then finish a start StatusExecuted ""
  else finish a start StatusFailed ("unknown action type: " +:+ act_Type a).

(** *** Engine ([actions/engine.go]) *)

Context (auditor : bool) (planner : list Goal → AE (res (list Action))).
Context (outcomeHandler : option (Action → ActionResult → AE (option error))).

(** The event's entity is the action, or a fresh id where its id is no UUID. *)
Definition auditAction (a : Action) (eventType : string) : AE unit :=
  if auditor then
    let! entity := match uuid_Parse (act_ID a) with Ok id => retS (uuid_String id) | Err _ => fresh_uuid end in
    record_audit true eventType entity
  else retS tt.

(** The guardrails' verdict on every planned action, in order. *)
Fixpoint filter_safe (planned : list Action) : AE (list (Action * option string)) :=
  match planned with
  | [] => retS []
  | a :: planned =>
      let! verdict := EvaluateSafety a in
      let! _ := match verdict with Some _ => auditAction a "action.rejected" | None => retS tt end in
      let! rest := filter_safe planned in
      retS ((a, verdict) :: rest)
  end.

Definition rejections (vs : list (Action * option string)) : list ActionResult :=
  omap (fun '(a, v) => (fun reason => mkResult (act_ID a) StatusRejected reason "" 0) <$> v) vs.
Definition safe_actions (vs : list (Action * option string)) : list Action :=
  omap (fun '(a, v) => match v with None => Some a | Some _ => None end) vs.

Definition evaluateOutcome (a : Action) (result : ActionResult) : AE unit :=
  match outcomeHandler with Some h => dropped (h a result) | None => retS tt end.

Definition settle (a : Action) (result : ActionResult) : AE unit :=
  if bool_decide (ar_Status result = StatusExecuted) then
    let! _ := auditAction a "action.executed" in evaluateOutcome a result
  else if bool_decide (ar_Status result = StatusFailed) then auditAction a "action.failed"
  else retS tt.

Fixpoint execute_all (safe : list Action) : AE (list ActionResult) :=
  match safe with
  | [] => retS []
  | a :: safe =>
      let! result := ExecuteAction a in
      let! _ := RecordExecution a in
      let! _ := settle a result in
      let! rest := execute_all safe in
      retS (result :: rest)
  end.

Definition results_with (status : string) (rs : list ActionResult) : list ActionResult :=
  List.filter (fun r => bool_decide (ar_Status r = status)) rs.

Definition run_planned (cycleID : string) (planned : list Action) : AE CycleReport :=
  let! t := now in
  let! _ := forS (fun a => auditAction a "action.planned") planned in
  let! vs := filter_safe planned in
  let! rs := execute_all (safe_actions vs) in
  retS (mkReport cycleID planned (rejections vs) (results_with StatusExecuted rs) (results_with StatusFailed rs) t).

Definition RunCycle : AE (res CycleReport) :=
  let! cycleID := fresh_uuid in
  then_ok (wrapped "evaluate goals: " Goals_Evaluate) (fun goals =>
  match goals with
  | [] => let! t := now in retS (Ok (mkReport cycleID [] [] [] [] t))
  | _ =>
      then_ok (wrapped "plan actions: " (planner goals)) (fun planned =>
      let! report := run_planned cycleID planned in retS (Ok report))
  end).
End engine.
