(* ===== verification/ActionEngineProps.v ===== *)
(** * One action cycle ([internal/agent/actions/engine.go])

    Every planned action is rejected, executed or failed, and the ones acted on
    had passed the guardrails in this cycle, against the executions of earlier
    ones. *)

From stdpp Require Import base gmap strings list tactics numbers fin_maps.
From Stdlib Require Import ZArith Lia.
From S2P Require Import Prelude GoFloat GoSort Models GoTime AgentWorld ActionMemory ActionEngine.

Open Scope Z_scope.

Create HintDb inert.

Section cycle.
Context {D X : Type} {MP : Part MemoryTables D} {GP : Part Guard X} {U : UuidPkg} (env : Surroundings).
Context {GL : PartLaws GP}.
Abbreviation AE A := (St (Agent D X) A).
Implicit Types s : Agent D X.

Definition guard s : Guard := part (ag_ext s).
Definition key_of (a : Action) : string := actionDedupeKey (en_float_text env) a.

(** ** Code that leaves the guard alone *)

Definition inert {A} (c : AE A) : Prop :=
  ∀ s, guard (snd (c s)) = guard s ∧ (ag_reads s ≤ ag_reads (snd (c s)))%nat.

Lemma inert_ret {A} (a : A) : inert (retS a).
Proof using. by intros s. Qed.

Lemma inert_bind {A B} (c : AE A) (k : A → AE B) : inert c → (∀ a, inert (k a)) → inert (bindS c k).
Proof using.
  intros Hc Hk s. rewrite bindS_run. destruct (Hc s), (Hk (fst (c s)) (snd (c s))). split; [congruence|lia].
Qed.

Lemma inert_reading {A} (f : nat → A) : inert (reading f).
Proof using. intros s. split; [done|cbn; lia]. Qed.

Lemma inert_fresh : inert fresh_uuid.
Proof using. by intros s. Qed.

Lemma inert_audit on ev id : inert (record_audit on ev id).
Proof using. intros s. by destruct on. Qed.

Lemma inert_statement {A} (stmt : D → res (A * D)) : inert (statement stmt).
Proof using.
  intros s. unfold statement, guard. destruct (ag_faults s) as [|f fs]; cbn.
  - by destruct (stmt (ag_db s)) as [[]|].
  - destruct f; cbn; by destruct (stmt (ag_db s)) as [[]|].
Qed.

Lemma inert_provider {A} (c : St X A) : (∀ x, part (T := Guard) (snd (c x)) = part x) → inert (provider c).
Proof using. intros H s. unfold provider, guard. specialize (H (ag_ext s)). by destruct (c (ag_ext s)). Qed.

Lemma inert_dropped {A} (c : AE A) : inert c → inert (dropped c).
Proof using. intros H. apply inert_bind; [done|]. intros a. apply inert_ret. Qed.

Lemma inert_forS {A} (f : A → AE unit) l : (∀ a, inert (f a)) → inert (forS f l).
Proof using. intros Hf. induction l as [|a l IH]; [apply inert_ret|]. apply inert_bind; auto. Qed.

Lemma inert_then_ok {A B} (c : AE (res A)) (k : A → AE (res B)) : inert c → (∀ a, inert (k a)) → inert (then_ok c k).
Proof using. intros Hc Hk. apply inert_bind; [done|]. intros [a|e]; [apply Hk|apply inert_ret]. Qed.

Lemma inert_wrapped {A} what (c : AE (res A)) : inert c → inert (wrapped what c).
Proof using. intros Hc. apply inert_bind; [done|]. intros r. apply inert_ret. Qed.

Lemma inert_now : inert (now env).
Proof using. apply inert_reading. Qed.

Lemma inert_query {A} (q : Pipeline → A) : inert (query env q).
Proof using. apply inert_bind; [apply inert_reading|]. intros p. apply inert_statement. Qed.

#[local] Hint Resolve inert_ret inert_reading inert_fresh inert_audit inert_statement inert_dropped inert_forS
  inert_then_ok inert_wrapped inert_now inert_query : inert.

Ltac inert_steps :=
  repeat first
    [ progress auto with inert
    | progress intros
    | apply inert_bind
    | match goal with |- inert (match ?x with _ => _ end) => destruct x end ].

Lemma inert_goals : inert (Goals_Evaluate env).
Proof using U. unfold Goals_Evaluate, collectSnapshot, since_window. inert_steps. Qed.

Lemma inert_actions_for mk ids : inert (actions_for env mk ids).
Proof using. induction ids as [|u ids IH]; cbn [actions_for]; inert_steps. Qed.

Lemma inert_query_rows {A} (q : Pipeline → list A) : inert (query_rows env q).
Proof using U. unfold query_rows. inert_steps. Qed.

(** The static planner, which the engine is built with where there is no other. *)
Lemma inert_static goals : inert (let! l := static_PlanActions env goals in retS (Ok l)).
Proof using.
  apply inert_bind; [|auto with inert]. induction goals as [|g goals IH]; cbn [static_PlanActions]; [apply inert_ret|].
  apply inert_bind; [|inert_steps]. unfold static_planForGoal, planRetryActions, planResyncActions, logRecommendation.
  inert_steps; first [apply inert_actions_for|apply inert_query_rows].
Qed.

(** ** Guardrails *)

Context (feedback stability : option (string → AE (option string))).
Hypothesis feedback_inert : ∀ p actionType, feedback = Some p → inert (p actionType).
Hypothesis stability_inert : ∀ p actionType, stability = Some p → inert (p actionType).

(** Reading [n] took place between the two states. *)
Definition during s s' (n : nat) : Prop := (ag_reads s ≤ n < ag_reads s')%nat.

Definition queued_at (n : nat) : Z := count_jobs (has_status [JobStatusQueued]) (en_pipeline env n).

(** What the guardrails found out about a safe action between two states: its
    target was not acted on within the window, the queue was not overloaded, and
    the job to retry had not been retried too often. *)
Definition vetted s s' (a : Action) : Prop :=
  (∀ t, guard s !! key_of a = Some t → ∃ n, during s s' n ∧ dedupeWindow ≤ time_Sub (en_clock env n) t) ∧
  (act_Type a ≠ ActionLogRecommendation → ∃ n, during s s' n ∧ queued_at n ≤ backlogThreshold) ∧
  (act_Type a = ActionRetryJob → param_string "job_id" (act_Params a) ≠ "" →
   ∃ job n m, uuid_Parse (param_string "job_id" (act_Params a)) = Ok job ∧ during s s' n ∧ during s s' m ∧
     count_retried job (en_clock env n - dedupeWindow) (en_pipeline env m) < maxRecentRetries).

(** Since [s] the guard has only lost entries that had left the window. *)
Definition pruned s s' : Prop :=
  (ag_reads s ≤ ag_reads s')%nat ∧
  ∀ k, guard s' !! k = guard s !! k ∨
       guard s' !! k = None ∧ ∀ t, guard s !! k = Some t → ∃ n, during s s' n ∧ dedupeWindow ≤ time_Sub (en_clock env n) t.

Lemma during_weaken s1 s2 s3 s4 n :
  (ag_reads s1 ≤ ag_reads s2)%nat → (ag_reads s3 ≤ ag_reads s4)%nat → during s2 s3 n → during s1 s4 n.
Proof using. unfold during. lia. Qed.

Lemma pruned_inert {A} (c : AE A) s : inert c → pruned s (snd (c s)).
Proof using. intros H. destruct (H s) as [Hg Hr]. split; [done|]. intros k. left. by rewrite Hg. Qed.

Lemma pruned_trans s s1 s2 : pruned s s1 → pruned s1 s2 → pruned s s2.
Proof using.
  intros [Hr1 H1] [Hr2 H2]. split; [lia|]. intros k.
  destruct (H2 k) as [E2|[E2 G2]]; rewrite E2.
  - destruct (H1 k) as [E1|[E1 G1]]; [by left|right; split; [done|]].
    intros t Ht. destruct (G1 t Ht) as (n & Hn & Hw). exists n. split; [|done]. eapply during_weaken, Hn; lia.
  - right. split; [done|]. intros t Ht.
    destruct (H1 k) as [E1|[E1 G1]].
    + destruct (G2 t) as (n & Hn & Hw); [congruence|]. exists n. split; [|done]. eapply during_weaken, Hn; lia.
    + destruct (G1 t Ht) as (n & Hn & Hw). exists n. split; [|done]. eapply during_weaken, Hn; lia.
Qed.

Lemma vetted_weaken s s1 s2 s3 a :
  pruned s s1 → vetted s1 s2 a → (ag_reads s1 ≤ ag_reads s2)%nat → (ag_reads s2 ≤ ag_reads s3)%nat → vetted s s3 a.
Proof using.
  intros [Hr Hp] (H1 & H2 & H3) H12 Hs.
  assert (HW : ∀ n, during s1 s2 n → during s s3 n) by (intros n; apply during_weaken; lia).
  split_and!.
  - intros t Ht. destruct (Hp (key_of a)) as [E|[E G]].
    + rewrite <- E in Ht. destruct (H1 t Ht) as (n & ? & ?); eauto.
    + destruct (G t Ht) as (n & Hn & ?). exists n. split; [|done]. unfold during in *. lia.
  - intros T. destruct (H2 T) as (n & ? & ?); eauto.
  - intros T N. destruct (H3 T N) as (job & n & m & ? & ? & ? & ?). exists job, n, m. auto.
Qed.


Lemma ask_guard_inert p actionType :
  (∀ q, p = Some q → inert (q actionType)) → inert (ask_guard p actionType).
Proof using. intros H. unfold ask_guard. destruct p; [|apply inert_ret]. case_bool_decide; [apply inert_ret|auto]. Qed.

Lemma or_else_run (c k : AE (option string)) s :
  or_else c k s = match fst (c s) with Some why => (Some why, snd (c s)) | None => k (snd (c s)) end.
Proof using. unfold or_else. rewrite bindS_run. by destruct (fst (c s)). Qed.

Lemma then_ok_run {A B} (c : AE (res A)) (k : A → AE (res B)) s :
  then_ok c k s = match fst (c s) with Ok a => k a (snd (c s)) | Err e => (Err e, snd (c s)) end.
Proof using. unfold then_ok. rewrite bindS_run. by destruct (fst (c s)). Qed.

(** A query that succeeds reads the pipeline once. *)
Lemma query_run {A} (q : Pipeline → A) s a :
  fst (query env q s) = Ok a → a = q (en_pipeline env (ag_reads s)) ∧ during s (snd (query env q s)) (ag_reads s).
Proof using.
  unfold query. rewrite bindS_run. cbn. unfold statement, asks, during. cbn.
  destruct (ag_faults s) as [|[|e|e] fs]; cbn; [intros [= <-]..| |]; try done; (split; [done|lia]).
Qed.

Lemma wrapped_ok {A} what (c : AE (res A)) s a :
  fst (wrapped what c s) = Ok a → fst (c s) = Ok a ∧ snd (wrapped what c s) = snd (c s).
Proof using. unfold wrapped. rewrite bindS_run. destruct (fst (c s)); [|done]. cbn. by intros [= ->]. Qed.

Lemma duplicate_step a s :
  let '(v, s') := duplicate_reason env a s in
  pruned s s' ∧ (v = None → ∀ t, guard s !! key_of a = Some t →
    ∃ n, during s s' n ∧ dedupeWindow ≤ time_Sub (en_clock env n) t).
Proof using GL.
  destruct (duplicate_reason env a s) as [v s'] eqn:E. unfold duplicate_reason in E.
  rewrite bindS_run in E. unfold isRecentDuplicate, now in E. rewrite bindS_run in E.
  unfold reading, provider, call_on, recent_duplicate in E. cbn in E. injection E as Ev Es.
  set (t0 := en_clock env (ag_reads s)) in *.
  assert (Hg : guard s' = prune_execs t0 (guard s)).
  { subst s'. unfold guard. cbn. by rewrite part_put. }
  assert (Hd : during s s' (ag_reads s)) by (subst s'; unfold during; cbn; lia).
  assert (Hk : ∀ k t, guard s !! k = Some t → guard s' !! k = None → dedupeWindow ≤ time_Sub t0 t).
  { intros k t Hk Hn. rewrite Hg in Hn. unfold prune_execs in Hn. apply map_lookup_filter_None in Hn as [?|Hn]; [congruence|].
    specialize (Hn t Hk). cbn in Hn. lia. }
  split.
  - split; [subst s'; cbn; lia|]. intros k. destruct (guard s' !! k) as [t|] eqn:Ek.
    + left. rewrite Hg in Ek. unfold prune_execs in Ek. by apply map_lookup_filter_Some in Ek as [-> _].
    + destruct (guard s !! k) as [t|] eqn:E0; [right|by left]. split; [done|]. intros ? [= <-].
      exists (ag_reads s). split; [done|]. by apply (Hk k).
  - intros Hv t Ht. exists (ag_reads s). split; [done|]. fold t0.
    destruct (guard s' !! key_of a) as [t'|] eqn:Ek; [|by apply (Hk (key_of a))].
    rewrite Hg in Ek. unfold guard, key_of in Ek. rewrite Ek in Ev.
    assert (t' = t) as ->.
    { unfold prune_execs in Ek. apply map_lookup_filter_Some in Ek as [Ek _]. unfold guard, key_of in Ht. congruence. }
    subst v. case_bool_decide; [done|lia].
Qed.

Lemma load_step a s :
  inert (load_reason env a) ∧
  (fst (load_reason env a s) = None → act_Type a ≠ ActionLogRecommendation →
   ∃ n, during s (snd (load_reason env a s)) n ∧ queued_at n ≤ backlogThreshold).
Proof using U.
  split.
  - unfold load_reason, isSystemOverloaded. inert_steps.
  - unfold load_reason. intros Hv T. rewrite bool_decide_false in * by done.
    rewrite bindS_run in *. unfold isSystemOverloaded in *. rewrite then_ok_run in *.
    destruct (fst (wrapped _ _ s)) as [n|e] eqn:E; [|done].
    apply wrapped_ok in E as [E Es]. rewrite Es in *. apply query_run in E as [-> Hd].
    cbn in *. case_bool_decide; [done|]. exists (ag_reads s). split; [done|]. unfold queued_at. lia.
Qed.

Lemma retries_step a s :
  inert (retries_reason env a) ∧
  (fst (retries_reason env a s) = None → act_Type a = ActionRetryJob → param_string "job_id" (act_Params a) ≠ "" →
   ∃ job n m, uuid_Parse (param_string "job_id" (act_Params a)) = Ok job ∧
     during s (snd (retries_reason env a s)) n ∧ during s (snd (retries_reason env a s)) m ∧
     count_retried job (en_clock env n - dedupeWindow) (en_pipeline env m) < maxRecentRetries).
Proof using U.
  split.
  - unfold retries_reason, tooManyRecentRetries. inert_steps.
  - unfold retries_reason. intros Hv T N. rewrite !bool_decide_true, !(bool_decide_false (_ = "")) in * by done.
    cbn [andb negb] in *. rewrite bindS_run in *. unfold tooManyRecentRetries in *.
    rewrite bindS_run in *. cbn [now reading fst snd] in *. rewrite then_ok_run in *.
    set (s1 := s <| ag_reads := S (ag_reads s) |>) in *.
    destruct (uuid_Parse _) as [job|e]; [|done].
    destruct (fst (wrapped _ _ s1)) as [k|e] eqn:E; [|done].
    apply wrapped_ok in E as [E Es]. rewrite Es in *. apply query_run in E as [-> Hd].
    cbn in *. case_bool_decide; [done|]. exists job, (ag_reads s), (S (ag_reads s)).
    unfold during in *. cbn in *. split_and!; [done|lia..].
Qed.

Lemma pruned_reads s s' : pruned s s' → (ag_reads s ≤ ag_reads s')%nat.
Proof using. by intros []. Qed.

(** A verdict, and what a safe one means. *)
Lemma EvaluateSafety_step a s :
  let '(v, s') := EvaluateSafety env feedback stability a s in
  pruned s s' ∧ (v = None → vetted s s' a).
Proof using GL U feedback_inert stability_inert.
  unfold EvaluateSafety. rewrite !or_else_run.
  set (c1 := ask_guard stability (act_Type a) s). set (c2 := ask_guard feedback (act_Type a) (snd c1)).
  assert (P1 : pruned s (snd c1)) by (apply pruned_inert, ask_guard_inert; intros q Hq; by apply stability_inert).
  assert (P2 : pruned s (snd c2)).
  { eapply pruned_trans; [exact P1|]. apply pruned_inert, ask_guard_inert. intros q Hq. by apply feedback_inert. }
  destruct (fst c1); [by split|]. destruct (fst c2); [by split|].
  pose proof (duplicate_step a (snd c2)) as Hd. destruct (duplicate_reason env a (snd c2)) as [v3 s3].
  destruct Hd as [P3 V3]. cbn [fst snd]. assert (P03 : pruned s s3) by by eapply pruned_trans.
  destruct v3; [by split|].
  destruct (load_step a s3) as [I4 V4]. pose proof (pruned_inert _ s3 I4) as P4.
  destruct (load_reason env a s3) as [v4 s4]. cbn [fst snd] in *.
  assert (P04 : pruned s s4) by by eapply pruned_trans.
  destruct v4; [by split|].
  destruct (retries_step a s4) as [I5 V5]. pose proof (pruned_inert _ s4 I5) as P5.
  destruct (retries_reason env a s4) as [v5 s5]. cbn [fst snd] in *.
  assert (P05 : pruned s s5) by by eapply pruned_trans.
  split; [done|]. intros ->. pose proof (pruned_reads _ _ P2). pose proof (pruned_reads _ _ P03).
  pose proof (pruned_reads _ _ P04). pose proof (pruned_reads _ _ P4). pose proof (pruned_reads _ _ P5).
  pose proof (pruned_reads _ _ P3).
  eapply (vetted_weaken s (snd c2) s5); [exact P2| |lia|done]. split_and!.
  - intros t Ht. destruct (V3 eq_refl t Ht) as (n & Hn & ?). exists n. split; [|done]. unfold during in *. lia.
  - intros T. destruct (V4 eq_refl T) as (n & Hn & ?). exists n. split; [|done]. unfold during in *. lia.
  - intros T N. destruct (V5 eq_refl T N) as (job & n & m & ? & Hn & Hm & ?). exists job, n, m.
    unfold during in *. split_and!; [done|lia..].
Qed.

(** ** The two passes *)

Context (base : string) (client_Do : string → St X (res Z)) (auditor : bool).
Context (planner : list Goal → AE (res (list Action))).
Context (outcomeHandler : option (Action → ActionResult → AE (option error))).
Hypothesis client_keeps : ∀ url x, part (T := Guard) (snd (client_Do url x)) = part x.
Hypothesis planner_inert : ∀ goals, inert (planner goals).
Hypothesis outcome_inert : ∀ h a r, outcomeHandler = Some h → inert (h a r).

Lemma auditAction_inert a ev : inert (auditAction auditor a ev).
Proof using. unfold auditAction. inert_steps. Qed.

Lemma filter_safe_step planned s :
  let '(vs, s') := filter_safe env feedback stability auditor planned s in
  pruned s s' ∧ map fst vs = planned ∧ (∀ a, a ∈ safe_actions vs → vetted s s' a).
Proof using GL U feedback_inert stability_inert.
  revert s. induction planned as [|a planned IH]; intros s; cbn [filter_safe].
  { split_and!; [split; [done|by left]|done|]. intros a Ha. by apply elem_of_nil in Ha. }
  rewrite bindS_run. pose proof (EvaluateSafety_step a s) as H1.
  destruct (EvaluateSafety _ _ _ a s) as [v s1]. destruct H1 as [P1 V1]. cbn [fst snd].
  rewrite bindS_run.
  set (c2 := match v with Some _ => auditAction auditor a "action.rejected" | None => retS tt end).
  assert (P2 : pruned s1 (snd (c2 s1))).
  { apply pruned_inert. unfold c2. destruct v; [apply auditAction_inert|apply inert_ret]. }
  set (s2 := snd (c2 s1)) in *. rewrite bindS_run. specialize (IH s2).
  destruct (filter_safe _ _ _ _ planned s2) as [vs s3]. destruct IH as (P3 & M3 & V3). cbn [fst snd retS].
  assert (P02 : pruned s s2) by by eapply pruned_trans.
  pose proof (pruned_reads _ _ P1). pose proof (pruned_reads _ _ P2). pose proof (pruned_reads _ _ P3).
  split_and!; [by eapply pruned_trans|cbn; by rewrite M3|].
  intros b Hb. destruct v as [why|]; cbn in Hb.
  - eapply vetted_weaken; [exact P02|by apply V3|done|done].
  - apply elem_of_cons in Hb as [->|Hb].
    + eapply (vetted_weaken s s s1); [|by apply V1|lia|lia]. split; [done|by left].
    + eapply vetted_weaken; [exact P02|by apply V3|done|done].
Qed.

Lemma ExecuteAction_step a s :
  inert (ExecuteAction env base client_Do a) ∧
  ar_ActionID (fst (ExecuteAction env base client_Do a s)) = act_ID a ∧
  (ar_Status (fst (ExecuteAction env base client_Do a s)) = StatusExecuted ∨
   ar_Status (fst (ExecuteAction env base client_Do a s)) = StatusFailed).
Proof using U client_keeps.
  assert (HF : ∀ t status err s, fst (finish (D := D) (X := X) env a t status err s) =
                 mkResult (act_ID a) status "" err (time_Sub (en_clock env (ag_reads s)) t)) by done.
  split.
  - unfold ExecuteAction, post_action, doPost, finish. inert_steps.
    apply inert_provider. intros x. apply client_keeps.
  - unfold ExecuteAction. rewrite bindS_run. cbn [now reading fst snd].
    repeat case_bool_decide; cbn [orb]; rewrite ?bindS_run, ?HF; try (split; [done|auto]; fail);
      destruct (fst (post_action _ _ _ _)); rewrite HF; auto.
Qed.

Lemma settle_inert a r : inert (settle auditor outcomeHandler a r).
Proof using U outcome_inert.
  unfold settle, evaluateOutcome. repeat case_bool_decide; try apply auditAction_inert; try apply inert_ret.
  apply inert_bind; [apply auditAction_inert|]. intros [].
  destruct outcomeHandler as [h|] eqn:E; [|apply inert_ret]. by apply inert_dropped, outcome_inert.
Qed.

Lemma RecordExecution_run a s :
  let s' := snd (RecordExecution env a s) in
  guard s' = <[key_of a := en_clock env (ag_reads s)]> (guard s) ∧ ag_reads s' = S (ag_reads s).
Proof using GL.
  unfold RecordExecution, now. rewrite bindS_run. unfold reading, provider, call_on, guard. cbn.
  by rewrite part_put.
Qed.

(** Later executions may only refresh the entry of an action already executed. *)
Definition refreshed s0 s (k : string) : Prop :=
  ∃ n, during s0 s n ∧ guard s !! k = Some (en_clock env n).

Lemma execute_all_step safe s :
  let '(rs, s') := execute_all env base client_Do auditor outcomeHandler safe s in
  (ag_reads s ≤ ag_reads s')%nat ∧ map ar_ActionID rs = map act_ID safe ∧
  Forall (fun r => ar_Status r = StatusExecuted ∨ ar_Status r = StatusFailed) rs ∧
  (∀ k, k ∈ map key_of safe → refreshed s s' k) ∧
  (∀ k, k ∉ map key_of safe → guard s' !! k = guard s !! k).
Proof using GL U client_keeps outcome_inert.
  revert s. induction safe as [|a safe IH]; intros s; cbn [execute_all].
  { split_and!; [done|done|constructor| |done]. intros k Hk. by apply elem_of_nil in Hk. }
  rewrite bindS_run. destruct (ExecuteAction_step a s) as (I1 & ID1 & ST1).
  destruct (I1 s) as [G1 R1]. destruct (ExecuteAction _ _ _ a s) as [r s1]. cbn [fst snd] in *.
  rewrite bindS_run. destruct (RecordExecution_run a s1) as [G2 R2].
  set (s2 := snd (RecordExecution env a s1)) in *. rewrite bindS_run.
  destruct (settle_inert a r s2) as [G3 R3]. set (s3 := snd (settle auditor outcomeHandler a r s2)) in *.
  rewrite bindS_run. specialize (IH s3).
  destruct (execute_all _ _ _ _ _ safe s3) as [rs s4]. destruct IH as (R4 & M4 & F4 & A4 & B4).
  cbn [fst snd retS map]. split_and!; [lia|by rewrite ID1, M4|by constructor| |].
  - intros k Hk. destruct (decide (k ∈ map key_of safe)) as [Hs|Hs].
    + destruct (A4 k Hs) as (n & Hn & E). exists n. split; [|done]. unfold during in *. lia.
    + apply elem_of_cons in Hk as [->|Hk]; [|done]. exists (ag_reads s1). split; [unfold during; lia|].
      by rewrite B4, G3, G2, lookup_insert_eq.
  - intros k Hk. rewrite not_elem_of_cons in Hk. destruct Hk as [Hk Hs].
    rewrite B4 by done. by rewrite G3, G2, lookup_insert_ne, G1.
Qed.

(** ** The whole cycle *)

Lemma rejections_safe vs : (length (rejections vs) + length (safe_actions vs) = length vs)%nat.
Proof using. induction vs as [|[a [why|]] vs IH]; [done|..]; cbn in *; unfold rejections, safe_actions in *; lia. Qed.

Lemma with_status_split rs :
  Forall (fun r => ar_Status r = StatusExecuted ∨ ar_Status r = StatusFailed) rs →
  (length (results_with StatusExecuted rs) + length (results_with StatusFailed rs) = length rs)%nat.
Proof using.
  induction 1 as [|r rs H _ IH]; [done|]. unfold results_with in *. cbn.
  destruct H as [E|E]; rewrite E.
  - rewrite (bool_decide_true (StatusExecuted = StatusExecuted)), (bool_decide_false (StatusExecuted = StatusFailed)) by done.
    cbn. lia.
  - rewrite (bool_decide_true (StatusFailed = StatusFailed)), (bool_decide_false (StatusFailed = StatusExecuted)) by done.
    cbn. lia.
Qed.

Definition RunCycle_ : AE (res CycleReport) :=
  RunCycle env feedback stability base client_Do auditor planner outcomeHandler.

(** C26: One action cycle accounts for every action planned: each is rejected,
    executed or failed, exactly once and in the planned order.  An action is acted
    on only when, within this very cycle, its target had not been acted on by an
    earlier cycle in the last two minutes, the queue held at most 100 jobs, and a
    job to be retried had been retried less than three times in two minutes; and
    every action acted on leaves its time with the guard, for the cycles to come.
    A cycle that fails has acted on nothing. *)
Theorem cycle_accounts s :
  let '(r, s') := RunCycle_ s in
  match r with
  | Err _ => guard s' = guard s
  | Ok report =>
      ∃ vs rs,
        map fst vs = cr_Planned report ∧
        cr_Rejected report = rejections vs ∧
        map ar_ActionID rs = map act_ID (safe_actions vs) ∧
        cr_Executed report = results_with StatusExecuted rs ∧
        cr_Failed report = results_with StatusFailed rs ∧
        (length (cr_Rejected report) + length (cr_Executed report) + length (cr_Failed report)
         = length (cr_Planned report))%nat ∧
        (∀ a, a ∈ safe_actions vs → vetted s s' a ∧ refreshed s s' (key_of a))
  end.
Proof using GL U feedback_inert stability_inert client_keeps planner_inert outcome_inert.
  unfold RunCycle_, RunCycle. rewrite bindS_run. cbn [fresh_uuid fst snd].
  set (s1 := s <| ag_uuids := S (ag_uuids s) |>). rewrite then_ok_run.
  pose proof (inert_wrapped "evaluate goals: " _ inert_goals s1) as [G2 R2].
  destruct (wrapped "evaluate goals: " (Goals_Evaluate env) s1) as [[goals|e] s2]; cbn [fst snd] in *;
    [|by rewrite G2].
  destruct goals as [|g goals].
  { cbn. exists [], []. split_and!; try done. intros a Ha. by apply elem_of_nil in Ha. }
  rewrite then_ok_run.
  pose proof (inert_wrapped "plan actions: " _ (planner_inert (g :: goals)) s2) as [G3 R3].
  destruct (wrapped "plan actions: " (planner (g :: goals)) s2) as [[planned|e] s3]; cbn [fst snd] in *;
    [|by rewrite G3, G2].
  rewrite bindS_run. cbn [retS]. unfold run_planned. rewrite bindS_run. cbn [now reading fst snd].
  set (s4 := s3 <| ag_reads := S (ag_reads s3) |>). rewrite bindS_run.
  set (c5 := forS _ planned). assert (I5 : inert c5) by (apply inert_forS; intros a; apply auditAction_inert).
  destruct (I5 s4) as [G5 R5]. set (s5 := snd (c5 s4)) in *. rewrite bindS_run.
  pose proof (filter_safe_step planned s5) as H6.
  destruct (filter_safe _ _ _ _ planned s5) as [vs s6]. destruct H6 as (P6 & M6 & V6). cbn [fst snd].
  rewrite bindS_run. pose proof (execute_all_step (safe_actions vs) s6) as H7.
  destruct (execute_all _ _ _ _ _ _ s6) as [rs s7]. destruct H7 as (R7 & M7 & F7 & A7 & _). cbn [fst snd retS].
  exists vs, rs. pose proof (pruned_reads _ _ P6) as R6. cbn in R5, R2.
  assert (P5 : pruned s s5) by (split; [cbn in *; lia|]; intros k; left; by rewrite G5; change (guard s4) with (guard s3); rewrite G3, G2).
  split_and!; cbn; try done.
  - rewrite <- Nat.add_assoc, (with_status_split rs F7).
    rewrite <- (length_map ar_ActionID rs), M7, length_map, rejections_safe, <- M6. by rewrite length_map.
  - intros a Ha. split; [by eapply vetted_weaken; [exact P5|apply V6|..]|].
    destruct (A7 (key_of a)) as (n & Hn & E); [|exists n; split; [unfold during in *; pose proof (pruned_reads _ _ P5); lia|done]].
    apply list_elem_of_fmap. by exists a.
Qed.
End cycle.
