(* ===== verification/TacticalPlanner.v ===== *)
(** * The tactical planner ([internal/agent/planning])

    For every goal the planner scores a fixed set of candidate actions with what
    action memory and the state of the queue suggest, picks the best, lets a
    strategy provider and then an exploration provider replace it, and turns the
    choice into actions.  Its data is what the decision graph reads and answers;
    its providers are computations on the process's state. *)

From stdpp Require Import base gmap strings list tactics numbers fin_maps pretty.
From Stdlib Require Import ZArith Lia.
From S2P Require Import Prelude GoFloat GoStrconv GoSort Models JobQueue GoTime AgentWorld ActionMemory ActionEngine.

Open Scope Z_scope.

(** ** Data ([types.go], [planner.go]) *)

Record PlanningContext := mkPlanningContext {
  px_QueueBacklog : Z;
  px_RetryScheduledCount : Z;
  px_LeasedCount : Z;
  px_FailureRate : float64;
  px_AcceptanceRate : float64;
  px_RecentActionFeedback : gmap string ActionFeedback;
  px_Timestamp : time;
  px_ContextRecords : list ContextMemoryRecord;
  px_FailureBucket : string;
  px_BacklogBucket : string;
  px_ProviderContextRecords : list ProviderContextMemoryRecord;
  px_ProviderName : string;
  px_ModelRole : string
}.

#[export] Instance PlanningContext_settable : Settable PlanningContext := fun r =>
  mkPlanningContext (px_QueueBacklog r) (px_RetryScheduledCount r) (px_LeasedCount r) (px_FailureRate r)
    (px_AcceptanceRate r) (px_RecentActionFeedback r) (px_Timestamp r) (px_ContextRecords r) (px_FailureBucket r)
    (px_BacklogBucket r) (px_ProviderContextRecords r) (px_ProviderName r) (px_ModelRole r).

Definition empty_context (timestamp : time) : PlanningContext :=
  mkPlanningContext 0 0 0 f0 f0 ∅ timestamp [] "" "" [] "" "".

(** Less its parameters, which no planner sets. *)
Record PlannedActionCandidate := mkCandidate {
  pc_ActionType : string;
  pc_GoalType : string;
  pc_Score : float64;
  pc_Confidence : float64;
  pc_Reasoning : list string;
  pc_Rejected : bool;
  pc_RejectReason : string
}.

#[export] Instance PlannedActionCandidate_settable : Settable PlannedActionCandidate := fun r =>
  mkCandidate (pc_ActionType r) (pc_GoalType r) (pc_Score r) (pc_Confidence r) (pc_Reasoning r) (pc_Rejected r)
    (pc_RejectReason r).

Record PlanningDecision := mkDecision {
  pd_GoalID : string;
  pd_GoalType : string;
  pd_Candidates : list PlannedActionCandidate;
  pd_SelectedActionType : string;
  pd_Explanation : string;
  pd_PlannedAt : time
}.

#[export] Instance PlanningDecision_settable : Settable PlanningDecision := fun r =>
  mkDecision (pd_GoalID r) (pd_GoalType r) (pd_Candidates r) (pd_SelectedActionType r) (pd_Explanation r)
    (pd_PlannedAt r).

Record StrategyLearningFeedback := mkStrategyFeedback {
  sl_StrategyType : string;
  sl_SuccessRate : float64;
  sl_FailureRate : float64;
  sl_SampleSize : Z;
  sl_Recommendation : string;
  sl_PreferContinuation : bool;
  sl_AvoidContinuation : bool
}.

Record StrategyOverride := mkOverride {
  so_Applied : bool;
  so_ActionType : string;
  so_StrategyID : string;
  so_StrategyType : string;
  so_Reason : string;
  so_PathSignature : string;
  so_PathActionTypes : list string;
  so_PathLength : Z;
  so_DecisionID : string;
  so_MetaMode : string;
  so_PredictedConfidence : float64;
  so_SelectedProvider : string;
  so_SelectedModel : string
}.

#[export] Instance StrategyOverride_settable : Settable StrategyOverride := fun r =>
  mkOverride (so_Applied r) (so_ActionType r) (so_StrategyID r) (so_StrategyType r) (so_Reason r)
    (so_PathSignature r) (so_PathActionTypes r) (so_PathLength r) (so_DecisionID r) (so_MetaMode r)
    (so_PredictedConfidence r) (so_SelectedProvider r) (so_SelectedModel r).

Definition no_override : StrategyOverride := mkOverride false "" "" "" "" "" [] 0 "" "" f0 "" "".

Record ExplorationDecision := mkExploration {
  ed_Chosen : bool;
  ed_ChosenActionType : string;
  ed_DecisionReason : string
}.

(** [goalCandidateMap] *)
Definition CandidatesForGoal (goalType : string) : list string :=
  if bool_decide (goalType = "reduce_retry_rate") || bool_decide (goalType = "investigate_failed_jobs")
  then ["retry_job"; "log_recommendation"; "noop"]
  else if bool_decide (goalType = "resolve_queue_backlog") then ["trigger_resync"; "log_recommendation"; "noop"]
  else if bool_decide (goalType = "increase_reliability") || bool_decide (goalType = "increase_model_quality")
          || bool_decide (goalType = "reduce_latency")
  then ["log_recommendation"; "noop"]
  else ["noop"].

(** ** Scoring ([scorer.go]) *)

Definition baseScoreDefault : float64 := lit 5 10.
Definition highBacklogRetryPenalty : float64 := lit 10 100.
Definition highFailureRateBadHistoryPenalty : float64 := lit 20 100.
Definition highFailureRateRecommendBoost : float64 := lit 15 100.
Definition lowAcceptanceAdvisoryBoost : float64 := lit 10 100.
Definition lowAcceptanceDestructivePenalty : float64 := lit 10 100.
Definition queueBacklogHighThreshold : Z := 50.
Definition retryScheduledHighThreshold : Z := 10.
Definition failureRateHighThreshold : float64 := lit 20 100.
Definition acceptanceRateLowThreshold : float64 := lit 40 100.

Record ScoringParams := mkScoringParams {
  sp_FeedbackAvoidPenalty : float64;
  sp_FeedbackPreferBoost : float64;
  sp_HighBacklogResyncPenalty : float64;
  sp_HighRetryBoost : float64;
  sp_SafetyPreferenceBoost : float64;
  sp_NoopBasePenalty : float64
}.

Definition DefaultScoringParams : ScoringParams :=
  mkScoringParams (lit 40 100) (lit 25 100) (lit 30 100) (lit 15 100) (lit 5 100) (lit 20 100).

(** [c.Score += d; c.Reasoning = append(c.Reasoning, why)] *)
Definition plus (d : float64) (why : string) (c : PlannedActionCandidate) : PlannedActionCandidate :=
  (c <| pc_Score := fadd (pc_Score c) d |>) <| pc_Reasoning := pc_Reasoning c ++ [why] |>.
Definition minus (d : float64) (why : string) (c : PlannedActionCandidate) : PlannedActionCandidate :=
  (c <| pc_Score := fsub (pc_Score c) d |>) <| pc_Reasoning := pc_Reasoning c ++ [why] |>.
Definition remark (why : string) (c : PlannedActionCandidate) : PlannedActionCandidate :=
  c <| pc_Reasoning := pc_Reasoning c ++ [why] |>.

(** An adjustment that is left out when it is zero, and its reason or another. *)
Definition adjust (adj : float64 * string) (otherwise : string) (c : PlannedActionCandidate) : PlannedActionCandidate :=
  let '(d, why) := adj in
  let c := if feqb d f0 then c else c <| pc_Score := fadd (pc_Score c) d |> in
  remark (if bool_decide (why = "") then otherwise else why) c.

Definition hasTemporalData (px : PlanningContext) : bool :=
  existsb (fun row => negb (bool_decide (rs_LastUpdated (mr_Stats row) = zero_time))) (px_ProviderContextRecords px)
  || existsb (fun row => negb (bool_decide (rs_LastUpdated (mr_Stats row) = zero_time))) (px_ContextRecords px)
  || existsb (fun e => negb (bool_decide (af_LastUpdated (snd e) = zero_time)))
       (map_to_list (px_RecentActionFeedback px)).

Section scoring.
Context (px : PlanningContext) (params : ScoringParams).

Definition global_reason (fb : ActionFeedback) : string :=
  "(success=" +:+ f2 (af_SuccessRate fb) +:+ ", failure=" +:+ f2 (af_FailureRate fb) +:+ ", n="
  +:+ pretty (af_SampleSize fb) +:+ ")".

(** An unknown recommendation is passed over in silence. *)
Definition global_feedback (fb : ActionFeedback) (c : PlannedActionCandidate) : PlannedActionCandidate :=
  let rec := af_Recommendation fb in
  if bool_decide (rec = RecommendAvoidAction) then
    minus (sp_FeedbackAvoidPenalty params)
      ("feedback avoid_action: -" +:+ f2 (sp_FeedbackAvoidPenalty params) +:+ " " +:+ global_reason fb) c
  else if bool_decide (rec = RecommendPreferAction) then
    plus (sp_FeedbackPreferBoost params)
      ("feedback prefer_action: +" +:+ f2 (sp_FeedbackPreferBoost params) +:+ " " +:+ global_reason fb) c
  else if bool_decide (rec = RecommendInsufficientData) then
    remark ("feedback insufficient_data (n=" +:+ pretty (af_SampleSize fb) +:+ "): no bias applied") c
  else if bool_decide (rec = RecommendNeutral) then
    remark ("feedback neutral (success=" +:+ f2 (af_SuccessRate fb) +:+ ", failure=" +:+ f2 (af_FailureRate fb)
            +:+ ", n=" +:+ pretty (af_SampleSize fb) +:+ "): no bias applied") c
  else c.

Definition applyFeedbackRulesCategorical (c : PlannedActionCandidate) : PlannedActionCandidate :=
  let avoid := sp_FeedbackAvoidPenalty params in
  let prefer := sp_FeedbackPreferBoost params in
  let action := pc_ActionType c in
  let goal := pc_GoalType c in
  let provFb :=
    match px_ProviderContextRecords px with
    | [] => None
    | records => if bool_decide (px_ProviderName px = "") then None
                 else ResolveProviderContextFeedback records action goal (px_ProviderName px) (px_ModelRole px)
                        (px_FailureBucket px) (px_BacklogBucket px)
    end in
  let ctxFb :=
    match px_ContextRecords px with
    | [] => None
    | records => ResolveContextualFeedback records action goal (px_FailureBucket px) (px_BacklogBucket px)
    end in
  let global := px_RecentActionFeedback px !! action in
  match provFb, ctxFb with
  | Some _, _ =>
      let '(fallbackAdj, fallbackReason) :=
        match ctxFb, global with
        | Some _, _ => BlendFeedbackAdjustment ctxFb global avoid prefer
        | None, Some fb =>
            let adj := FeedbackAdjustmentValue (af_Recommendation fb) avoid prefer in
            (adj, "global " +:+ af_Recommendation fb +:+ ": " +:+ f2 adj)
        | None, None => (f0, "")
        end in
      adjust (BlendProviderFeedbackAdjustment provFb fallbackAdj fallbackReason avoid prefer)
        "provider-context + fallback feedback: no bias applied" c
  | None, Some _ =>
      adjust (BlendFeedbackAdjustment ctxFb global avoid prefer) "contextual + global feedback: no bias applied" c
  | None, None =>
      match global with
      | None => remark "no historical feedback available" c
      | Some fb => global_feedback fb c
      end
  end.

Definition applyFeedbackRulesP (c : PlannedActionCandidate) : PlannedActionCandidate :=
  if negb (bool_decide (px_Timestamp px = zero_time)) && hasTemporalData px then
    let candidates :=
      GatherHierarchicalCandidates (px_ProviderContextRecords px) (px_ContextRecords px)
        (px_RecentActionFeedback px) (pc_ActionType c) (pc_GoalType c) (px_Timestamp px)
        (px_ProviderName px) (px_ModelRole px) (px_FailureBucket px) (px_BacklogBucket px) in
    match ResolveHierarchicalFeedback candidates with
    | Some best =>
        adjust (HierarchicalScoreAdjustment best (sp_FeedbackAvoidPenalty params) (sp_FeedbackPreferBoost params))
          "hierarchical feedback: no bias applied" c
    | None => remark "no actionable hierarchical feedback available" c
    end
  else applyFeedbackRulesCategorical c.

Definition is_type (t : string) (c : PlannedActionCandidate) : bool := bool_decide (pc_ActionType c = t).

Definition avoided (action : string) : bool :=
  match px_RecentActionFeedback px !! action with
  | Some fb => bool_decide (af_Recommendation fb = RecommendAvoidAction)
  | None => false
  end.

(** The four rules, each on the candidate the one before leaves. *)
Definition backlog_rule (c : PlannedActionCandidate) : PlannedActionCandidate :=
  let above := "high backlog (" +:+ pretty (px_QueueBacklog px) +:+ " > " +:+ pretty queueBacklogHighThreshold +:+ "): " in
  if bool_decide (px_QueueBacklog px ≤ queueBacklogHighThreshold) then c
  else if is_type "trigger_resync" c then
    minus (sp_HighBacklogResyncPenalty params)
      (above +:+ "trigger_resync penalty -" +:+ f2 (sp_HighBacklogResyncPenalty params)) c
  else if is_type "retry_job" c then
    minus highBacklogRetryPenalty (above +:+ "retry_job minor penalty -" +:+ f2 highBacklogRetryPenalty) c
  else c.

Definition retry_rule (c : PlannedActionCandidate) : PlannedActionCandidate :=
  if bool_decide (px_RetryScheduledCount px ≤ retryScheduledHighThreshold) || negb (is_type "retry_job" c)
     || avoided (pc_ActionType c)
  then c
  else plus (sp_HighRetryBoost params)
         ("high retry_scheduled (" +:+ pretty (px_RetryScheduledCount px) +:+ " > "
          +:+ pretty retryScheduledHighThreshold +:+ ") with healthy feedback: retry_job boost +"
          +:+ f2 (sp_HighRetryBoost params)) c.

Definition failure_rule (c : PlannedActionCandidate) : PlannedActionCandidate :=
  let above := "high failure_rate (" +:+ f2 (px_FailureRate px) +:+ " > " +:+ f2 failureRateHighThreshold +:+ ")" in
  if negb (fltb failureRateHighThreshold (px_FailureRate px)) then c
  else
    let c := if avoided (pc_ActionType c)
             then minus highFailureRateBadHistoryPenalty
                    (above +:+ " with bad history: penalty -" +:+ f2 highFailureRateBadHistoryPenalty) c
             else c in
    if is_type "log_recommendation" c
    then plus highFailureRateRecommendBoost
           (above +:+ ": log_recommendation boost +" +:+ f2 highFailureRateRecommendBoost) c
    else c.

Definition acceptance_rule (c : PlannedActionCandidate) : PlannedActionCandidate :=
  let below := "low acceptance (" +:+ f2 (px_AcceptanceRate px) +:+ " < " +:+ f2 acceptanceRateLowThreshold +:+ "): " in
  if negb (fltb f0 (px_AcceptanceRate px) && fltb (px_AcceptanceRate px) acceptanceRateLowThreshold) then c
  else if is_type "log_recommendation" c || is_type "noop" c then
    plus lowAcceptanceAdvisoryBoost (below +:+ "advisory boost +" +:+ f2 lowAcceptanceAdvisoryBoost) c
  else if is_type "retry_job" c || is_type "trigger_resync" c then
    minus lowAcceptanceDestructivePenalty
      (below +:+ "destructive action penalty -" +:+ f2 lowAcceptanceDestructivePenalty) c
  else c.

Definition applyContextRulesP (c : PlannedActionCandidate) : PlannedActionCandidate :=
  acceptance_rule (failure_rule (retry_rule (backlog_rule c))).

(** The score every candidate starts from. *)
Definition base_score (goalPriority : float64) : float64 := fadd baseScoreDefault (fmul goalPriority (lit 3 10)).

Definition ScoreCandidateWithParams (c : PlannedActionCandidate) (goalPriority goalConfidence : float64)
    : PlannedActionCandidate :=
  let base := base_score goalPriority in
  let c := ((c <| pc_Score := base |>) <| pc_Confidence := goalConfidence |>)
    <| pc_Reasoning := ["base=" +:+ f2 base +:+ " (default " +:+ f2 baseScoreDefault +:+ " + goal_priority "
                        +:+ f2 goalPriority +:+ " * 0.3)"] |> in
  if is_type "noop" c then
    minus (sp_NoopBasePenalty params) ("noop penalty: -" +:+ f2 (sp_NoopBasePenalty params)) c
  else
    let c := applyContextRulesP (applyFeedbackRulesP c) in
    if is_type "log_recommendation" c then
      plus (sp_SafetyPreferenceBoost params)
        ("safety preference (advisory): +" +:+ f2 (sp_SafetyPreferenceBoost params)) c
    else c.
End scoring.

(** ** Choice ([planner.go]) *)

(** [for i := range candidates]: candidates scored at most 0 are marked until
    one is selected, at which the loop ends. *)
Fixpoint select_candidate (cs : list PlannedActionCandidate) : list PlannedActionCandidate * string :=
  match cs with
  | [] => ([], "noop")
  | c :: rest =>
      if fleb (pc_Score c) f0 && negb (is_type "noop" c) then
        let c := (c <| pc_Rejected := true |>) <| pc_RejectReason := "score " +:+ f2 (pc_Score c) +:+ " <= 0" |> in
        let '(rest, selected) := select_candidate rest in (c :: rest, selected)
      else if negb (pc_Rejected c) then (c :: rest, pc_ActionType c)
      else let '(rest, selected) := select_candidate rest in (c :: rest, selected)
  end.

Definition higher_score (x y : PlannedActionCandidate) : bool := fltb (pc_Score y) (pc_Score x).

(** Why the first candidate of the selected type was selected. *)
Definition selected_parts (selected : string) (cs : list PlannedActionCandidate) : list string :=
  match List.find (is_type selected) cs with
  | Some c => ("selected " +:+ pc_ActionType c +:+ " (score=" +:+ f2 (pc_Score c) +:+ ")") :: pc_Reasoning c
  | None => []
  end.

Definition other_parts (selected : string) (c : PlannedActionCandidate) : list string :=
  if is_type selected c then []
  else if pc_Rejected c then ["rejected " +:+ pc_ActionType c +:+ ": " +:+ pc_RejectReason c]
  else if fltb (pc_Score c) (lit 5 10) then
    map (fun why => pc_ActionType c +:+ ": " +:+ why)
      (List.filter (fun why => contains why "penalty" || contains why "avoid") (pc_Reasoning c))
  else [].

Definition buildExplanation (selected : string) (cs : list PlannedActionCandidate) (px : PlanningContext) : string :=
  String.concat "; "
    (selected_parts selected cs ++ flat_map (other_parts selected) cs
     ++ (if bool_decide (queueBacklogHighThreshold < px_QueueBacklog px)
         then ["context: high backlog (" +:+ pretty (px_QueueBacklog px) +:+ ")"] else [])
     ++ (if fltb failureRateHighThreshold (px_FailureRate px)
         then ["context: high failure rate (" +:+ f2 (px_FailureRate px) +:+ ")"] else [])
     ++ (if fltb f0 (px_AcceptanceRate px) && fltb (px_AcceptanceRate px) acceptanceRateLowThreshold
         then ["context: low acceptance rate (" +:+ f2 (px_AcceptanceRate px) +:+ ")"] else [])).

Definition score_candidates (g : Goal) (px : PlanningContext) (params : ScoringParams) : list PlannedActionCandidate :=
  map (fun at_ => ScoreCandidateWithParams px params (mkCandidate at_ (go_Type g) f0 f0 [] false "")
                    (go_Priority g) (go_Confidence g)) (CandidatesForGoal (go_Type g)).

Definition decide_goal (g : Goal) (px : PlanningContext) (params : ScoringParams) (now : time) : PlanningDecision :=
  let '(cs, selected) := select_candidate (stable_sort higher_score (score_candidates g px params)) in
  mkDecision (go_ID g) (go_Type g) cs selected (buildExplanation selected cs px) now.

(** ** Parameters of actions *)

Definition set_params (kvs : list (string * pval)) (a : Action) : Action :=
  a <| act_Params := fold_left (fun m '(k, v) => <[k := v]> m) kvs (act_Params a) |>.

Definition unless_empty (k v : string) : list (string * pval) :=
  if bool_decide (v = "") then [] else [(k, PStr v)].

Definition embedContextDimensions (g : Goal) (px : PlanningContext) : Action → Action :=
  set_params ([("_ctx_goal_type", PStr (go_Type g)); ("_ctx_failure_bucket", PStr (px_FailureBucket px));
               ("_ctx_backlog_bucket", PStr (px_BacklogBucket px))]
              ++ unless_empty "_ctx_provider_name" (px_ProviderName px)
              ++ unless_empty "_ctx_model_role" (px_ModelRole px)).

Definition tag_exploration (reason : string) : Action → Action :=
  set_params [("_ctx_is_exploration", PBool true); ("_ctx_exploration_reason", PStr reason)].

Definition tag_strategy (so : StrategyOverride) : Action → Action :=
  set_params
    ([("_ctx_strategy_id", PStr (so_StrategyID so)); ("_ctx_strategy_type", PStr (so_StrategyType so));
      ("_ctx_strategy_step", PInt 1)]
     ++ (if bool_decide (so_PathSignature so = "") then []
         else [("_ctx_path_signature", PStr (so_PathSignature so));
               ("_ctx_path_action_types", PStrs (so_PathActionTypes so));
               ("_ctx_path_length", PInt (so_PathLength so))])
     ++ unless_empty "_ctx_decision_id" (so_DecisionID so)
     ++ unless_empty "_ctx_meta_mode" (so_MetaMode so)
     ++ (if fltb f0 (so_PredictedConfidence so)
         then [("_ctx_predicted_confidence", PFloat (so_PredictedConfidence so))] else [])
     ++ unless_empty "_ctx_provider" (so_SelectedProvider so)
     ++ unless_empty "_ctx_model" (so_SelectedModel so)).

(** ** Journal ([journal.go]) *)

(** A row of [agent_planning_decisions]; the column of candidates holds their
    JSON, from which they are read back. *)
Record StoredDecision := mkStored {
  sd_ID : string;
  sd_CycleID : string;
  sd_GoalID : string;
  sd_GoalType : string;
  sd_SelectedAction : string;
  sd_Explanation : string;
  sd_Candidates : list PlannedActionCandidate;
  sd_PlannedAt : time;
  sd_CreatedAt : time
}.

Abbreviation Journal := (list StoredDecision).

(** [json.Marshal] refuses infinities and NaN. *)
Definition marshals (c : PlannedActionCandidate) : bool := is_finite (pc_Score c) && is_finite (pc_Confidence c).

Definition insert_planned (id cycleID : string) (created : time) (d : PlanningDecision) (j : Journal)
    : res (unit * Journal) :=
  if existsb (fun row => bool_decide (sd_ID row = id)) j then Err ErrDuplicateKey
  else Ok (tt, j ++ [mkStored id cycleID (pd_GoalID d) (pd_GoalType d) (pd_SelectedActionType d) (pd_Explanation d)
                       (pd_Candidates d) (trunc_us (pd_PlannedAt d)) (trunc_us created)]).

Definition planned_later (x y : StoredDecision) : bool := bool_decide (sd_PlannedAt y < sd_PlannedAt x).

Definition journal_limit (limit : Z) : nat :=
  Z.to_nat (if bool_decide (limit ≤ 0) || bool_decide (200 < limit) then 50 else limit).

Definition recent_decisions (keep : StoredDecision → bool) (limit : Z) (j : Journal) : list StoredDecision :=
  take (journal_limit limit) (SliceStable planned_later (List.filter keep j)).

(** ** The planner *)

Section planner.
Context {D X : Type} {MP : Part MemoryTables D} {JP : Part Journal D} {LP : Part (list PlanningDecision) X}.
Context {U : UuidPkg} (env : Surroundings).
Abbreviation TP A := (St (Agent D X) A).

(** *** Context collection ([context.go]) *)

Definition count_in_status (s : JobStatus) (p : Pipeline) : Z := count_jobs (has_status [s]) p.

Definition loadQueueState (px : PlanningContext) : TP (res PlanningContext) :=
  then_ok (wrapped "queue state: " (query env (fun p =>
    (count_in_status JobStatusQueued p, count_in_status JobStatusRetryScheduled p, count_in_status JobStatusLeased p))))
  (fun '(queued, retry, leased) =>
  retS (Ok (((px <| px_QueueBacklog := queued |>) <| px_RetryScheduledCount := retry |>) <| px_LeasedCount := leased |>))).

(** The quotient of two counts, or the value there was. *)
Definition rate_or (old : float64) (n total : Z) : float64 :=
  if bool_decide (0 < total) then fdiv (f_of_Z n) (f_of_Z total) else old.

Definition loadRates (px : PlanningContext) : TP (res PlanningContext) :=
  let! t := now env in
  let since := t - 24 * Hour in
  then_ok (wrapped "failure rate: " (query env (fun p =>
    (count_recent finished_statuses since p, count_recent [JobStatusFailed; JobStatusDeadLetter] since p))))
  (fun '(total, failed) =>
  let px := px <| px_FailureRate := rate_or (px_FailureRate px) failed total |> in
  then_ok (wrapped "acceptance rate: " (query env (fun p =>
    (count_proposals [ApprovalStatusApproved; ApprovalStatusRejected] since p,
     count_proposals [ApprovalStatusApproved] since p))))
  (fun '(total, accepted) =>
  retS (Ok (px <| px_AcceptanceRate := rate_or (px_AcceptanceRate px) accepted total |>)))).

(** By action type: of two records with one action type, the later one stays. *)
Definition feedback_map (records : list ActionMemoryRecord) : gmap string ActionFeedback :=
  fold_left (fun m row =>
    let action := ak_ActionType (mr_Key row) in <[action := GenerateFeedback action (mr_Stats row)]> m) records ∅.

Definition loadActionFeedback (px : PlanningContext) : TP (res PlanningContext) :=
  then_ok (wrapped "list action memory: " Memory_List) (fun records =>
  retS (Ok (px <| px_RecentActionFeedback := feedback_map records |>))).

(** The two lists that may be missing. *)
Definition loadContextualFeedback (px : PlanningContext) : TP PlanningContext :=
  let px := (px <| px_FailureBucket := BucketFailureRate (px_FailureRate px) |>)
              <| px_BacklogBucket := BucketBacklog (px_QueueBacklog px) |> in
  let! r := ListContextRecords in
  retS match r with Ok records => px <| px_ContextRecords := records |> | Err _ => px end.

Definition loadProviderContextFeedback (px : PlanningContext) : TP PlanningContext :=
  let! r := ListProviderContextRecords "" "" in
  retS match r with Ok records => px <| px_ProviderContextRecords := records |> | Err _ => px end.

Definition Collect : TP (res PlanningContext) :=
  let! t := now env in
  then_ok (wrapped "collect queue state: " (loadQueueState (empty_context t))) (fun px =>
  then_ok (wrapped "collect rates: " (loadRates px)) (fun px =>
  then_ok (wrapped "collect action feedback: " (loadActionFeedback px)) (fun px =>
  let! px := loadContextualFeedback px in
  let! px := loadProviderContextFeedback px in
  retS (Ok px)))).

(** *** Planning *)

(** [FindRetryTargets] and [FindResyncTargets]: the targets found, and an error
    that may have cut them short. *)
Record TargetResolver := mkResolver {
  FindRetryTargets : Goal → TP (list Action * option error);
  FindResyncTargets : Goal → TP (list Action * option error)
}.

Record AdaptivePlanner := mkPlanner {
  ap_targetResolver : option TargetResolver;
  ap_auditor : bool;
  ap_journal : bool;
  ap_policy : option (nat → ScoringParams);
  ap_exploration : option (PlanningDecision → gmap string ActionFeedback → TP ExplorationDecision);
  ap_strategy : option (PlanningDecision → gmap string ActionFeedback → gmap string StrategyLearningFeedback →
                        TP StrategyOverride);
  ap_strategyLearning : option (string → TP (gmap string StrategyLearningFeedback))
}.

Context (ap : AdaptivePlanner).

Definition scoringParams : TP ScoringParams :=
  match ap_policy ap with Some p => reading p | None => retS DefaultScoringParams end.

Definition planForGoal (g : Goal) (px : PlanningContext) : TP PlanningDecision :=
  let! t := now env in
  let! params := scoringParams in
  retS (decide_goal g px params t).

Definition makeLogRecommendation (g : Goal) (d : PlanningDecision) : TP Action :=
  let! id := fresh_uuid in
  let! t := now env in
  retS (mkAction id ActionLogRecommendation (go_Priority g) (go_Confidence g) (go_ID g)
          ("[adaptive] Recommendation for " +:+ go_Type g +:+ ": " +:+ pd_Explanation d)
          (list_to_map [("goal_type", PStr (go_Type g)); ("description", PStr (go_Description g));
                        ("selected_action_type", PStr (pd_SelectedActionType d));
                        ("explanation", PStr (pd_Explanation d))]) true t).

(** The targets found, each described and given its context, or a recommendation
    in their place.  An error is only logged: what was found before it counts. *)
Definition adapt_target (g : Goal) (px : PlanningContext) (a : Action) : Action :=
  embedContextDimensions g px (a <| act_Description := "[adaptive] " +:+ act_Description a |>).

Definition targets_or_log (find : TargetResolver → Goal → TP (list Action * option error)) (g : Goal) (d : PlanningDecision)
    (px : PlanningContext) : TP (list Action) :=
  let! targets := match ap_targetResolver ap with
                  | Some r => let! found := find r g in retS (fst found)
                  | None => retS []
                  end in
  match targets with
  | [] => let! a := makeLogRecommendation g d in retS [a]
  | _ => retS (map (adapt_target g px) targets)
  end.

Definition resolveActions (g : Goal) (d : PlanningDecision) (px : PlanningContext) : TP (list Action) :=
  if bool_decide (pd_SelectedActionType d = "retry_job") then targets_or_log FindRetryTargets g d px
  else if bool_decide (pd_SelectedActionType d = "trigger_resync") then targets_or_log FindResyncTargets g d px
  else let! a := makeLogRecommendation g d in retS [a].

Definition strategy_override (d : PlanningDecision) (px : PlanningContext) (g : Goal) : TP StrategyOverride :=
  match ap_strategy ap with
  | None => retS no_override
  | Some strategy =>
      let! learning := match ap_strategyLearning ap with
                       | Some p => p (go_Type g)
                       | None => retS ∅
                       end in
      strategy d (px_RecentActionFeedback px) learning
  end.

(** The decision after the strategy, and after exploration. *)
Definition overridden (so : StrategyOverride) (d : PlanningDecision) : PlanningDecision :=
  if so_Applied so && negb (bool_decide (so_ActionType so = "")) then
    (d <| pd_SelectedActionType := so_ActionType so |>)
      <| pd_Explanation := pd_Explanation d +:+ " [strategy override: " +:+ so_Reason so +:+ " strategy="
                           +:+ so_StrategyType so +:+ "]" |>
  else d.

Definition explores (ed : ExplorationDecision) : bool :=
  ed_Chosen ed && negb (bool_decide (ed_ChosenActionType ed = "")).

Definition explored (ed : ExplorationDecision) (d : PlanningDecision) : PlanningDecision :=
  if explores ed then
    (d <| pd_SelectedActionType := ed_ChosenActionType ed |>)
      <| pd_Explanation := pd_Explanation d +:+ " [exploration override: " +:+ ed_DecisionReason ed +:+ "]" |>
  else d.

Definition exploration_decision (d : PlanningDecision) (px : PlanningContext) : TP ExplorationDecision :=
  match ap_exploration ap with
  | Some p => p d (px_RecentActionFeedback px)
  | None => retS (mkExploration false "" "")
  end.

Definition audit_planning (eventType : string) : TP unit :=
  if ap_auditor ap then let! id := fresh_uuid in record_audit true eventType id else retS tt.

Definition tag (so : StrategyOverride) (ed : ExplorationDecision) (a : Action) : Action :=
  let a := if explores ed then tag_exploration (ed_DecisionReason ed) a else a in
  if so_Applied so then tag_strategy so a else a.

(** One iteration: the decision and the actions it leads to. *)
Definition plan_goal (px : PlanningContext) (g : Goal) : TP (PlanningDecision * list Action) :=
  let! d := planForGoal g px in
  let! so := strategy_override d px g in
  let d := overridden so d in
  let! ed := exploration_decision d px in
  let d := explored ed d in
  let! _ := audit_planning "planning.evaluated" in
  if bool_decide (pd_SelectedActionType d = "noop") then retS (d, [])
  else
    let! _ := audit_planning "planning.action_selected" in
    let! acts := resolveActions g d px in
    retS (d, map (tag so ed) acts).

Fixpoint plan_goals (px : PlanningContext) (goals : list Goal) : TP (list PlanningDecision * list Action) :=
  match goals with
  | [] => retS ([], [])
  | g :: goals =>
      let! first := plan_goal px g in
      let! rest := plan_goals px goals in
      retS (fst first :: fst rest, snd first ++ snd rest)
  end.

(** Rows in order, up to the first that fails; [created_at] is the server's. *)
Fixpoint Journal_Save (cycleID : string) (ds : list PlanningDecision) : TP (option error) :=
  match ds with
  | [] => retS None
  | d :: ds =>
      if negb (forallb marshals (pd_Candidates d)) then
        retS (Some (Errorf "marshal candidates: json: unsupported value"))
      else
        let! id := fresh_uuid in
        let! created := now env in
        let! r := exec (stmt_on (insert_planned id cycleID created d)) in
        match r with
        | Some e => retS (Some (wrap "insert decision: " e))
        | None => Journal_Save cycleID ds
        end
  end.

Definition ask_journal (what : string) (q : Journal → list StoredDecision) : TP (res (list StoredDecision)) :=
  wrapped what (statement (stmt_on (asks q))).

Definition ListRecent (limit : Z) : TP (res (list StoredDecision)) :=
  ask_journal "query decisions: " (recent_decisions (fun _ => true) limit).
Definition ListRecentByActionType (actionType : string) (limit : Z) : TP (res (list StoredDecision)) :=
  ask_journal "query decisions by action: "
    (recent_decisions (fun row => bool_decide (sd_SelectedAction row = actionType)) limit).

Definition planning_context : TP PlanningContext :=
  let! r := Collect in
  match r with
  | Ok px => retS px
  | Err _ => let! t := now env in retS (empty_context t)
  end.

Definition PlanActions (goals : list Goal) : TP (res (list Action)) :=
  let! px := planning_context in
  let! planned := plan_goals px goals in
  let '(ds, acts) := planned in
  let! _ := provider (call_on (fun _ : list PlanningDecision => (tt, ds))) in
  let! _ := match ds with
            | [] => retS tt
            | _ => if ap_journal ap
                   then let! cycleID := fresh_uuid in dropped (Journal_Save cycleID ds)
                   else retS tt
            end in
  retS (Ok acts).

Definition LastDecisions : TP (list PlanningDecision) := provider (call_on (fun ds : list PlanningDecision => (ds, ds))).
End planner.
