(* ===== verification/TacticalProps.v ===== *)
(** * What the tactical planner chooses and emits

    The choice for one goal, the actions of one planning cycle, and what the
    parameters of those actions can and cannot carry. *)

From stdpp Require Import base gmap strings list tactics numbers fin_maps sorting.
From Stdlib Require Import ZArith Lia Sorted.
From S2P Require Import Prelude GoFloat GoSort Models GoTime AgentWorld ActionMemory ActionEngine TacticalPlanner.

Open Scope Z_scope.

(** ** Sorting numbers *)

Lemma StronglySorted_on {A} (R : A → A → Prop) l :
  (∀ x y z, x ∈ l → y ∈ l → z ∈ l → R x y → R y z → R x z) → Sorted R l → StronglySorted R l.
Proof.
  intros HT. induction 1 as [|x l Hl IH Hx]; constructor.
  - apply IH. intros a b c Ha Hb Hc. apply HT; by apply elem_of_cons; right.
  - assert (HL : StronglySorted R l).
    { apply IH. intros a b c Ha Hb Hc. apply HT; by apply elem_of_cons; right. }
    destruct Hx as [|y l Hy]; constructor; [done|]. apply StronglySorted_inv in HL as [_ HL].
    apply list.Forall_forall. intros z Hz. apply (HT x y z); [set_solver..|].
    by apply (proj1 (list.Forall_forall _ _) HL).
Qed.

Section by_number.
Context {A : Type} (score : A → float64).
Definition above (x y : A) : bool := fltb (score y) (score x).

Lemma neighbours_sorted l : neighbours_ordered above l → Sorted (fun x y => above y x = false) l.
Proof using.
  induction l as [|x l IH]; intros H; constructor; [apply IH; intros i; exact (H (S i))|].
  destruct l as [|y l]; constructor. exact (H 0%nat x y eq_refl eq_refl).
Qed.

Lemma above_asym x y : above x y = true → above y x = false.
Proof using. apply fltb_asym. Qed.

(** Sorted by numbers, no element is above an earlier one. *)
Lemma sorted_by_numbers l :
  (length l ≤ blockSize)%nat → (∀ x, x ∈ l → is_nan (score x) = false) → ordered above (stable_sort above l).
Proof using.
  intros Hl Hn. apply StronglySorted_on.
  - intros x y z Hx Hy Hz. rewrite stable_sort_elem in Hx, Hy, Hz. unfold above.
    intros H1 H2. apply (fltb_negtrans _ (score y)); auto.
  - apply neighbours_sorted, stable_sort_neighbours; [exact above_asym|done].
Qed.
End by_number.

(** ** The choice for one goal *)

(** A candidate the loop may select. *)
Definition eligible (c : PlannedActionCandidate) : bool := negb (fleb (pc_Score c) f0) || is_type "noop" c.

Definition reject (c : PlannedActionCandidate) : PlannedActionCandidate :=
  (c <| pc_Rejected := true |>) <| pc_RejectReason := "score " +:+ f2 (pc_Score c) +:+ " <= 0" |>.

Lemma select_candidate_split cs :
  (∀ c, c ∈ cs → pc_Rejected c = false) →
  (∃ pre c post, cs = pre ++ c :: post ∧ forallb (fun c => negb (eligible c)) pre = true ∧ eligible c = true ∧
     select_candidate cs = (map reject pre ++ c :: post, pc_ActionType c)) ∨
  (forallb (fun c => negb (eligible c)) cs = true ∧ select_candidate cs = (map reject cs, "noop")).
Proof.
  induction cs as [|c cs IH]; intros Hr; [by right|]. cbn [select_candidate forallb].
  assert (Ht : negb (eligible c) = fleb (pc_Score c) f0 && negb (is_type "noop" c)).
  { unfold eligible. by rewrite negb_orb, negb_involutive. }
  rewrite <- Ht. destruct (eligible c) eqn:E; cbn [negb andb].
  - rewrite (Hr c) by set_solver. left. exists [], c, cs. by rewrite E.
  - destruct IH as [(pre & d & post & -> & Hp & Hd & ->)|[Hp ->]]; [set_solver|left|by right].
    exists (c :: pre), d, post. cbn. rewrite E. auto.
Qed.

Lemma reject_type c : pc_ActionType (reject c) = pc_ActionType c. Proof. done. Qed.
Lemma reject_score c : pc_Score (reject c) = pc_Score c. Proof. done. Qed.

(** Scoring leaves a candidate's types and marks alone. *)
Definition same_marks (c d : PlannedActionCandidate) : Prop :=
  pc_ActionType d = pc_ActionType c ∧ pc_GoalType d = pc_GoalType c ∧ pc_Rejected d = pc_Rejected c.

Lemma same_marks_trans c d e : same_marks c d → same_marks d e → same_marks c e.
Proof. unfold same_marks. intuition congruence. Qed.

Lemma adjust_marks adj other c : same_marks c (adjust adj other c).
Proof. destruct adj as [d why]. unfold adjust. by destruct (feqb d f0). Qed.

Ltac marks :=
  repeat first [progress case_match | apply adjust_marks | done
               | progress unfold plus, minus, remark, same_marks].

Lemma feedback_marks px params c : same_marks c (applyFeedbackRulesP px params c).
Proof. unfold applyFeedbackRulesP, applyFeedbackRulesCategorical, global_feedback. marks. Qed.

Lemma context_marks px params c : same_marks c (applyContextRulesP px params c).
Proof.
  unfold applyContextRulesP.
  assert (H1 : ∀ c, same_marks c (backlog_rule px params c)) by (intros d; unfold backlog_rule; marks).
  assert (H2 : ∀ c, same_marks c (retry_rule px params c)) by (intros d; unfold retry_rule; marks).
  assert (H3 : ∀ c, same_marks c (failure_rule px c)) by (intros d; unfold failure_rule; marks).
  assert (H4 : ∀ c, same_marks c (acceptance_rule px c)) by (intros d; unfold acceptance_rule; marks).
  eauto using same_marks_trans.
Qed.

Lemma score_marks px params c p q : same_marks c (ScoreCandidateWithParams px params c p q).
Proof.
  unfold ScoreCandidateWithParams. cbv zeta.
  match goal with |- context [is_type "noop" ?x] => set (d := x) end.
  assert (Hd : same_marks c d) by done. destruct (is_type "noop" d); [done|].
  assert (He : same_marks c (applyContextRulesP px params (applyFeedbackRulesP px params d)))
    by (eapply same_marks_trans, context_marks; eapply same_marks_trans, feedback_marks; done).
  by destruct (is_type "log_recommendation" _).
Qed.

Lemma score_candidates_types g px params :
  map pc_ActionType (score_candidates g px params) = CandidatesForGoal (go_Type g) ∧
  (∀ c, c ∈ score_candidates g px params → pc_Rejected c = false).
Proof.
  unfold score_candidates. split.
  - rewrite map_map. rewrite <- (map_id (CandidatesForGoal _)) at 2. apply map_ext. intros t.
    apply (score_marks px params (mkCandidate t (go_Type g) f0 f0 [] false "")).
  - intros c Hc. apply list_elem_of_fmap in Hc as (t & -> & _).
    apply (score_marks px params (mkCandidate t (go_Type g) f0 f0 [] false "")).
Qed.

Lemma candidates_noop goalType : "noop" ∈ CandidatesForGoal goalType.
Proof. unfold CandidatesForGoal. repeat case_match; set_solver. Qed.

Lemma candidates_short goalType : (length (CandidatesForGoal goalType) ≤ 3)%nat.
Proof. unfold CandidatesForGoal. repeat case_match; cbn; lia. Qed.

(** The selected candidate of a decision: no eligible one scores higher, and only
    ineligible ones are marked as rejected. *)
Definition best_choice (d : PlanningDecision) : Prop :=
  ∃ c, c ∈ pd_Candidates d ∧ pc_ActionType c = pd_SelectedActionType d ∧ eligible c = true ∧ pc_Rejected c = false ∧
    (∀ c', c' ∈ pd_Candidates d → eligible c' = true → fltb (pc_Score c) (pc_Score c') = false) ∧
    (∀ c', c' ∈ pd_Candidates d → pc_Rejected c' = true → eligible c' = false).

Definition scores_are_numbers (d : PlanningDecision) : Prop :=
  ∀ c, c ∈ pd_Candidates d → is_nan (pc_Score c) = false.

Lemma split_best cs pre c post :
  (∀ x, x ∈ cs → is_nan (pc_Score x) = false) → (∀ x, x ∈ cs → pc_Rejected x = false) → ordered higher_score cs →
  cs = pre ++ c :: post → forallb (fun c => negb (eligible c)) pre = true → eligible c = true →
  ∀ d, pd_Candidates d = map reject pre ++ c :: post → pd_SelectedActionType d = pc_ActionType c → best_choice d.
Proof.
  intros Hn Hr Ho -> Hp Hc d Hd Hs. rewrite forallb_forall in Hp.
  assert (Hpre : ∀ x, x ∈ map reject pre → eligible x = false).
  { intros x (y & -> & Hy)%list_elem_of_fmap. change (eligible (reject y)) with (eligible y).
    apply list_elem_of_In in Hy. apply Hp, negb_true_iff in Hy. done. }
  assert (Hpost : ∀ x, x ∈ post → fltb (pc_Score c) (pc_Score x) = false).
  { intros x Hx. apply StronglySorted_app_1_r, StronglySorted_inv in Ho as [_ Ho].
    exact (proj1 (list.Forall_forall _ _) Ho x Hx). }
  exists c. rewrite Hd, Hs. split_and!; [set_solver|done|done|apply Hr; set_solver| |].
  - intros x Hx E. apply elem_of_app in Hx as [Hx|[->|Hx]%elem_of_cons].
    + rewrite Hpre in E; done.
    + apply fltb_irrefl.
    + by apply Hpost.
  - intros x Hx E. apply elem_of_app in Hx as [Hx|Hx]; [by apply Hpre|]. rewrite Hr in E; [done|set_solver].
Qed.

Lemma decide_goal_best g px params t :
  let d := decide_goal g px params t in
  map pc_ActionType (pd_Candidates d) ≡ₚ CandidatesForGoal (go_Type g) ∧ (scores_are_numbers d → best_choice d).
Proof.
  cbv zeta. unfold decide_goal. destruct (score_candidates_types g px params) as [HT HR].
  set (cs0 := score_candidates g px params) in *. set (cs := stable_sort higher_score cs0).
  assert (HP : cs ≡ₚ cs0) by apply stable_sort_perm.
  assert (Hr : ∀ c, c ∈ cs → pc_Rejected c = false) by (intros c; rewrite HP; apply HR).
  assert (Htypes : map pc_ActionType cs ≡ₚ CandidatesForGoal (go_Type g)) by by rewrite <- HT, HP.
  assert (Hlen : (length cs0 ≤ blockSize)%nat).
  { pose proof (candidates_short (go_Type g)) as H. rewrite <- HT in H. rewrite length_map in H. unfold blockSize. lia. }
  assert (Hmap : ∀ l, map pc_ActionType (map reject l) = map pc_ActionType l) by (intros l; rewrite map_map; done).
  destruct (select_candidate_split cs Hr) as [(pre & c & post & E & Hp & Hc & Hs)|[Hp Hs]]; rewrite Hs; cbn.
  - split; [by rewrite map_app, Hmap, <- map_app; cbn; rewrite <- Htypes, E|].
    intros Hn. eapply (split_best cs pre c post); try done.
    + intros x Hx. rewrite E in Hx. apply elem_of_app in Hx as [Hx|Hx].
      * change (pc_Score x) with (pc_Score (reject x)). apply Hn. cbn. apply elem_of_app. left.
        by apply list_elem_of_fmap_2.
      * apply Hn. cbn. apply elem_of_app. by right.
    + apply sorted_by_numbers; [done|]. intros x Hx.
      assert (x ∈ cs) as Hx' by by rewrite HP. rewrite E in Hx'. apply elem_of_app in Hx' as [Hx'|Hx'].
      * change (pc_Score x) with (pc_Score (reject x)). apply Hn. cbn. apply elem_of_app. left.
        by apply list_elem_of_fmap_2.
      * apply Hn. cbn. apply elem_of_app. by right.
  - exfalso. assert ("noop" ∈ map pc_ActionType cs) as Hin by (rewrite Htypes; apply candidates_noop).
    apply list_elem_of_fmap in Hin as (c & Et & Hin). rewrite forallb_forall in Hp.
    apply list_elem_of_In in Hin. apply Hp in Hin. unfold eligible, is_type in Hin.
    by rewrite (bool_decide_true (pc_ActionType c = "noop")), orb_true_r in Hin.
Qed.

(** ** Parameters *)

Lemma set_params_other k kvs a :
  Forall (fun kv => fst kv ≠ k) kvs → act_Params (set_params kvs a) !! k = act_Params a !! k.
Proof.
  unfold set_params. cbn. generalize (act_Params a). clear a.
  induction kvs as [|[k' v] kvs IH]; intros m H; [done|]. apply Forall_cons in H as [H1 H2]. cbn in *.
  by rewrite IH, lookup_insert_ne.
Qed.

Lemma unless_empty_keys k k' v : k' ≠ k → Forall (fun kv => fst kv ≠ k) (unless_empty k' v).
Proof. intros H. unfold unless_empty. case_bool_decide; by repeat constructor. Qed.

(** The two tags give an action neither a goal type nor a provider name. *)
Lemma tag_other k so ed a :
  k ∈ ["_ctx_provider_name"; "_ctx_goal_type"] → act_Params (tag so ed a) !! k = act_Params a !! k.
Proof.
  intros Hk. unfold tag. assert (HK : k = "_ctx_provider_name" ∨ k = "_ctx_goal_type") by set_solver.
  transitivity (act_Params (if explores ed then tag_exploration (ed_DecisionReason ed) a else a) !! k).
  - destruct (so_Applied so); [|done]. apply set_params_other.
    repeat apply Forall_app_2; try (apply unless_empty_keys; by destruct HK as [-> | ->]);
      repeat case_match; repeat constructor; cbn; by destruct HK as [-> | ->].
  - destruct (explores ed); [|done]. apply set_params_other. repeat constructor; cbn; by destruct HK as [-> | ->].
Qed.

Lemma tag_same so ed a : act_GoalID (tag so ed a) = act_GoalID a ∧ act_Type (tag so ed a) = act_Type a.
Proof. unfold tag. by destruct (explores ed), (so_Applied so). Qed.

Lemma embed_goal_type g px a : act_Params (embedContextDimensions g px a) !! "_ctx_goal_type" = Some (PStr (go_Type g)).
Proof.
  unfold embedContextDimensions, set_params. cbn -[unless_empty]. rewrite fold_left_app.
  assert (HO : ∀ kvs (m : gmap string pval), Forall (fun kv : string * pval => fst kv ≠ "_ctx_goal_type") kvs →
     fold_left (fun m '(k, v) => <[k := v]> m) kvs m !! "_ctx_goal_type" = m !! "_ctx_goal_type").
  { intros kvs m H. pose proof (set_params_other "_ctx_goal_type" kvs
      (mkAction "" "" f0 f0 "" "" m true 0) H) as E. exact E. }
  rewrite !HO by by apply unless_empty_keys. by simplify_map_eq.
Qed.

Lemma embed_provider_name g px a :
  px_ProviderName px = "" →
  act_Params (embedContextDimensions g px a) !! "_ctx_provider_name" = act_Params a !! "_ctx_provider_name".
Proof.
  intros H. apply set_params_other. rewrite H. repeat apply Forall_app_2.
  - by repeat (constructor; [done|]).
  - unfold unless_empty. rewrite bool_decide_true by done. constructor.
  - by apply unless_empty_keys.
Qed.

(** ** One planning cycle *)

Section cycle.
Context {D X : Type} {MP : Part MemoryTables D} {JP : Part Journal D} {LP : Part (list PlanningDecision) X}.
Context {LL : PartLaws LP} {U : UuidPkg} (env : Surroundings) (ap : AdaptivePlanner (D := D) (X := X)).
Abbreviation TP A := (St (Agent D X) A).

(** A goal's decision: the best candidate, unless a strategy and then exploration
    replace its action. *)
Definition decided (px : PlanningContext) (g : Goal) (d : PlanningDecision) : Prop :=
  ∃ params t so ed, let b := decide_goal g px params t in
    d = explored ed (overridden so b) ∧
    (ap_strategy ap = None → so = no_override) ∧ (ap_exploration ap = None → explores ed = false) ∧
    map pc_ActionType (pd_Candidates b) ≡ₚ CandidatesForGoal (go_Type g) ∧ (scores_are_numbers b → best_choice b).

(** A decision for nothing leads to nothing, any other to some action. *)
Definition follows (d : PlanningDecision) (acts : list Action) : Prop :=
  acts = [] ↔ pd_SelectedActionType d = "noop".

Lemma returns_and {A} (c : TP A) (P Q : A → Prop) : returns c P → returns c Q → returns c (fun a => P a ∧ Q a).
Proof using. intros HP HQ w. split; [apply HP|apply HQ]. Qed.

Lemma targets_or_log_some find g d px : returns (targets_or_log env ap find g d px) (fun acts => acts ≠ []).
Proof using.
  eapply returns_bind; [apply returns_any|]. intros [|a l] _; [|by apply returns_ret].
  eapply returns_bind; [apply returns_any|]. intros a _. by apply returns_ret.
Qed.

Lemma resolveActions_some g d px : returns (resolveActions env ap g d px) (fun acts => acts ≠ []).
Proof using.
  unfold resolveActions. repeat case_bool_decide; try apply targets_or_log_some.
  eapply returns_bind; [apply returns_any|]. intros a _. by apply returns_ret.
Qed.

Lemma plan_goal_decided px g :
  returns (plan_goal env ap px g) (fun r => decided px g (fst r) ∧ follows (fst r) (snd r)).
Proof using.
  unfold plan_goal. eapply (returns_bind _ _ (fun b => ∃ params t, b = decide_goal g px params t)).
  { unfold planForGoal. eapply returns_bind; [apply returns_any|]. intros t _.
    eapply returns_bind; [apply returns_any|]. intros params _. apply returns_ret. by exists params, t. }
  intros b (params & t & ->).
  eapply (returns_bind _ _ (fun so => ap_strategy ap = None → so = no_override)).
  { unfold strategy_override. destruct (ap_strategy ap); [intros w; done|by apply returns_ret]. }
  intros so Hso. cbv zeta.
  eapply (returns_bind _ _ (fun ed => ap_exploration ap = None → explores ed = false)).
  { unfold exploration_decision. destruct (ap_exploration ap); [intros w; done|by apply returns_ret]. }
  intros ed Hed.
  assert (Hd : decided px g (explored ed (overridden so (decide_goal g px params t)))).
  { exists params, t, so, ed. cbv zeta. split_and!; [done..| |]; apply decide_goal_best. }
  eapply returns_bind; [apply returns_any|]. intros _ _.
  case_bool_decide as E; [by apply returns_ret|].
  eapply returns_bind; [apply returns_any|]. intros _ _.
  eapply returns_bind; [apply resolveActions_some|]. intros acts Hacts. apply returns_ret. cbn. split; [done|].
  unfold follows. split; [|done]. intros Hm%map_eq_nil. done.
Qed.

Lemma plan_goals_decided px goals :
  returns (plan_goals env ap px goals) (fun r =>
    ∃ accs, snd r = concat accs ∧ Forall2 (decided px) goals (fst r) ∧ Forall2 follows (fst r) accs).
Proof using.
  induction goals as [|g goals IH]; cbn [plan_goals].
  { apply returns_ret. exists []. auto. }
  eapply returns_bind; [apply plan_goal_decided|]. intros [d acts] [Hd Hf].
  eapply returns_bind; [exact IH|]. intros [ds rest] (accs & E & H1 & H2). apply returns_ret.
  cbn in *. exists (acts :: accs). cbn. rewrite E. auto.
Qed.

Lemma Journal_Save_ext cycleID ds : keeps_ext (Journal_Save env cycleID ds : TP (option error)).
Proof using.
  induction ds as [|d ds IH]; cbn [Journal_Save]; [apply keeps_ext_ret|].
  destruct (negb _); [apply keeps_ext_ret|].
  unfold now, exec. keeps_ext_steps.
Qed.

(** C27: The planner decides every goal it is given: among the candidates of the
    goal's type it selects one that no eligible candidate outscores (when the
    scores are numbers), and rejects only candidates scored at most zero; only a
    strategy, and after it exploration, may replace the action selected.  The
    decisions are kept for the API, and each emits actions, except the decision
    to do nothing. *)
Theorem planner_chooses_best (goals : list Goal) (s : Agent D X) :
  let '(r, s') := PlanActions env ap goals s in
  ∃ px ds accs, r = Ok (concat accs) ∧ part (ag_ext s') = ds ∧
    Forall2 (decided px) goals ds ∧ Forall2 follows ds accs.
Proof using LL.
  unfold PlanActions. rewrite bindS_run. set (px := fst (planning_context env s)).
  set (s1 := snd (planning_context env s)). rewrite bindS_run.
  destruct (plan_goals_decided px goals s1) as (accs & E & H1 & H2).
  destruct (plan_goals env ap px goals s1) as [[ds acts] s2]. cbn [fst snd] in *.
  rewrite bindS_run. unfold provider, call_on. cbn [fst snd]. rewrite bindS_run.
  set (s3 := s2 <| ag_ext := put_part ds (ag_ext s2) |>).
  assert (H3 : part (ag_ext s3) = ds) by apply part_put.
  match goal with |- context [snd (?c s3)] => set (c3 := c) end.
  assert (HK : keeps_ext c3).
  { unfold c3. destruct ds; [apply keeps_ext_ret|]. destruct (ap_journal ap); [|apply keeps_ext_ret].
    apply keeps_ext_bind; [apply keeps_ext_fresh|]. intros id. apply keeps_ext_dropped, Journal_Save_ext. }
  cbn. exists px, ds, accs. split_and!; [by rewrite E| |done|done]. by rewrite HK.
Qed.

(** ** What an emitted action can carry *)

(** An action for a goal: it names no provider, and no goal type but the goal's. *)
Definition plain_for (g : Goal) (a : Action) : Prop :=
  act_Params a !! "_ctx_provider_name" = None ∧
  (act_Params a !! "_ctx_goal_type" = None ∨ act_Params a !! "_ctx_goal_type" = Some (PStr (go_Type g))) ∧
  act_GoalID a = go_ID g.

(** Targets as the static planner finds them. *)
Definition bare_targets (g : Goal) (r : list Action * option error) : Prop :=
  Forall (fun a => act_Params a !! "_ctx_provider_name" = None ∧ act_GoalID a = go_ID g) (fst r).

Definition resolver_bare (r : TargetResolver (D := D) (X := X)) : Prop :=
  ∀ g, returns (FindRetryTargets r g) (bare_targets g) ∧ returns (FindResyncTargets r g) (bare_targets g).

Lemma Collect_no_provider :
  returns (Collect env : TP (res PlanningContext)) (fun r => ∀ px, r = Ok px → px_ProviderName px = "").
Proof using.
  set (P := fun r : res PlanningContext => ∀ px, r = Ok px → px_ProviderName px = "").
  assert (HW : ∀ what (c : TP (res PlanningContext)), returns c P → returns (wrapped what c) P).
  { intros what c Hc. eapply returns_bind; [exact Hc|]. intros [px|e] H; apply returns_ret; [exact H|done]. }
  assert (HB : ∀ A (c : TP (res A)) k, (∀ a, returns (k a) P) → returns (then_ok c k) P).
  { intros A c k Hk. eapply returns_bind; [apply returns_any|]. intros [a|e] _; [apply Hk|by apply returns_ret]. }
  assert (HC : ∀ (c : TP (res PlanningContext)) k, returns c P → (∀ px, px_ProviderName px = "" → returns (k px) P) →
     returns (then_ok c k) P).
  { intros c k Hc Hk. eapply returns_bind; [exact Hc|]. intros [px|e] H; [by apply Hk, H|by apply returns_ret]. }
  unfold Collect. eapply returns_bind; [apply returns_any|]. intros t _.
  apply HC; [apply HW|intros px1 H1].
  { apply HB. intros [[n1 n2] n3]. apply returns_ret. by intros px [= <-]. }
  apply HC; [apply HW|intros px2 H2].
  { unfold loadRates. eapply returns_bind; [apply returns_any|]. intros since _.
    apply HB. intros [n1 n2]. apply HB. intros [n3 n4]. apply returns_ret. by intros px [= <-]. }
  apply HC; [apply HW|intros px3 H3].
  { apply HB. intros records. apply returns_ret. by intros px [= <-]. }
  eapply (returns_bind _ _ (fun px => px_ProviderName px = "")).
  { unfold loadContextualFeedback. eapply returns_bind; [apply returns_any|]. intros [l|e] _; by apply returns_ret. }
  intros px4 H4. eapply (returns_bind _ _ (fun px => px_ProviderName px = "")).
  { unfold loadProviderContextFeedback. eapply returns_bind; [apply returns_any|]. intros [l|e] _; by apply returns_ret. }
  intros px5 H5. apply returns_ret. by intros px [= <-].
Qed.

Lemma planning_context_no_provider :
  returns (planning_context env : TP PlanningContext) (fun px => px_ProviderName px = "").
Proof using.
  eapply returns_bind; [apply Collect_no_provider|]. intros [px|e] H; [by apply returns_ret, H|].
  eapply returns_bind; [apply returns_any|]. intros t _. by apply returns_ret.
Qed.

Hypothesis bare : ∀ r, ap_targetResolver ap = Some r → resolver_bare r.

Lemma recommendation_plain g d : returns (makeLogRecommendation env g d : TP Action) (plain_for g).
Proof using.
  unfold makeLogRecommendation. eapply returns_bind; [apply returns_any|]. intros id _.
  eapply returns_bind; [apply returns_any|]. intros t _. apply returns_ret.
  clear bare. split_and!; cbn; [|left|done]; by rewrite !lookup_insert_ne by done.
Qed.

Lemma targets_plain (find : TargetResolver → Goal → TP (list Action * option error)) g d px :
  (∀ r, ap_targetResolver ap = Some r → returns (find r g) (bare_targets g)) → px_ProviderName px = "" →
  returns (targets_or_log env ap find g d px) (Forall (plain_for g)).
Proof using.
  clear bare. intros Hf Hpx. unfold targets_or_log.
  eapply (returns_bind _ _ (Forall (fun a => act_Params a !! "_ctx_provider_name" = None ∧ act_GoalID a = go_ID g))).
  { destruct (ap_targetResolver ap) as [r|]; [|by apply returns_ret].
    eapply returns_bind; [by apply Hf|]. intros found H. by apply returns_ret. }
  intros [|a l] H.
  { eapply returns_bind; [apply recommendation_plain|]. intros a Ha. apply returns_ret. by constructor. }
  apply returns_ret. apply Forall_fmap. eapply Forall_impl; [exact H|]. intros b [H1 H2]. cbn.
  unfold adapt_target. split_and!; [by rewrite embed_provider_name|right; apply embed_goal_type|done].
Qed.

Lemma plan_goal_plain px g :
  px_ProviderName px = "" → returns (plan_goal env ap px g) (fun r => Forall (plain_for g) (snd r)).
Proof using bare.
  intros Hpx. unfold plan_goal. eapply returns_bind; [apply returns_any|]. intros d _.
  eapply returns_bind; [apply returns_any|]. intros so _. cbv zeta.
  eapply returns_bind; [apply returns_any|]. intros ed _.
  eapply returns_bind; [apply returns_any|]. intros _ _.
  case_bool_decide; [by apply returns_ret|].
  eapply returns_bind; [apply returns_any|]. intros _ _.
  eapply (returns_bind _ _ (Forall (plain_for g))).
  - unfold resolveActions. repeat case_bool_decide.
    + apply targets_plain; [|done]. intros r Hr. by apply bare.
    + apply targets_plain; [|done]. intros r Hr. by apply bare.
    + eapply returns_bind; [apply recommendation_plain|]. intros a Ha. apply returns_ret. by constructor.
  - intros acts Hacts. apply returns_ret. cbn. apply Forall_fmap. eapply Forall_impl; [exact Hacts|].
    intros a (H1 & H2 & H3). cbn. split_and!.
    + rewrite tag_other; [done|by left].
    + rewrite tag_other; [done|right; by left].
    + rewrite <- H3. apply tag_same.
Qed.

Lemma PlanActions_plain goals :
  returns (PlanActions env ap goals) (fun r => ∀ acts, r = Ok acts → Forall (fun a => ∃ g, g ∈ goals ∧ plain_for g a) acts).
Proof using bare.
  unfold PlanActions. eapply returns_bind; [apply planning_context_no_provider|]. intros px Hpx.
  eapply (returns_bind _ _ (fun r => Forall (fun a => ∃ g, g ∈ goals ∧ plain_for g a) (snd r))).
  - induction goals as [|g goals IH]; cbn [plan_goals]; [apply returns_ret; constructor|].
    eapply returns_bind; [by apply plan_goal_plain|]. intros [d acts] Hd.
    eapply returns_bind; [exact IH|]. intros [ds rest] Hr. apply returns_ret. cbn in *.
    apply Forall_app_2; (eapply Forall_impl; [eassumption|]); cbn.
    + intros a Ha. exists g. split; [by left|done].
    + intros a (g' & Hg' & Ha). exists g'. split; [by right|done].
  - intros [ds acts] H. eapply returns_bind; [apply returns_any|]. intros _ _.
    eapply returns_bind; [apply returns_any|]. intros _ _. apply returns_ret. by intros ? [= <-].
Qed.
End cycle.

(** The resolver the program is built with. *)
Section static_resolver.
Context {D X : Type} {U : UuidPkg} (env : Surroundings).

Definition static_resolver : TargetResolver (D := D) (X := X) :=
  mkResolver (planRetryActions env) (planResyncActions env).

Lemma actions_for_bare (mk : uuid → string → time → Action) (P : Action → Prop) ids :
  (∀ u id t, P (mk u id t)) → returns (actions_for env mk ids : St (Agent D X) _) (Forall P).
Proof using.
  intros H. induction ids as [|u ids IH]; cbn [actions_for]; [apply returns_ret; constructor|].
  eapply returns_bind; [apply returns_any|]. intros id _.
  eapply returns_bind; [apply returns_any|]. intros t _.
  eapply returns_bind; [exact IH|]. intros l Hl. apply returns_ret. by constructor.
Qed.

Lemma static_resolver_bare : resolver_bare static_resolver.
Proof using.
  intros g. split; (eapply returns_bind; [apply returns_any|]); intros found _;
    (eapply returns_bind; [apply actions_for_bare|intros l Hl; by apply returns_ret]);
    intros u id t; (split; [by apply lookup_singleton_ne|done]).
Qed.
End static_resolver.
