(* ===== verification/Outcome.v ===== *)
(** * Outcomes of actions ([internal/agent/outcome])

    After an executed action the evaluator reads what became of its target, the
    store keeps the outcome, and the handler passes it on: to action memory, and
    to the recorders of other packages, which are computations on the process's
    state.  What an action stood for is read from the parameters the planner gave
    it. *)

From stdpp Require Import base gmap strings list tactics numbers fin_maps.
From Stdlib Require Import ZArith Lia.
From S2P Require Import Prelude GoFloat GoSort Models JobQueue GoTime AgentWorld ActionMemory ActionEngine.

Open Scope Z_scope.

(** ** Types ([types.go]) *)

Definition OutcomeSuccess : string := "success".
Definition OutcomeNeutral : string := "neutral".
Definition OutcomeFailure : string := "failure".

Record ActionOutcome := mkOutcome {
  ao_ID : uuid;
  ao_ActionID : uuid;
  ao_GoalID : string;
  ao_ActionType : string;
  ao_TargetType : string;
  ao_TargetID : uuid;
  ao_OutcomeStatus : string;
  ao_BeforeState : gmap string pval;
  ao_AfterState : gmap string pval;
  ao_EffectDetected : bool;
  ao_Improvement : bool;
  ao_EvaluatedAt : time;
  ao_IncomeValue : float64;
  ao_FamilyValue : float64;
  ao_OwnerReliefValue : float64;
  ao_RiskCost : float64;
  ao_UtilityScore : float64
}.

#[export] Instance ActionOutcome_settable : Settable ActionOutcome := fun r =>
  mkOutcome (ao_ID r) (ao_ActionID r) (ao_GoalID r) (ao_ActionType r) (ao_TargetType r) (ao_TargetID r)
    (ao_OutcomeStatus r) (ao_BeforeState r) (ao_AfterState r) (ao_EffectDetected r) (ao_Improvement r)
    (ao_EvaluatedAt r) (ao_IncomeValue r) (ao_FamilyValue r) (ao_OwnerReliefValue r) (ao_RiskCost r)
    (ao_UtilityScore r).

(** What an evaluation finds: status, effect, improvement. *)
Definition retry_verdict (status : JobStatus) : string * bool * bool :=
  match status with
  | JobStatusSucceeded => (OutcomeSuccess, true, true)
  | JobStatusDeadLetter => (OutcomeFailure, true, false)
  | JobStatusRetryScheduled => (OutcomeNeutral, true, false)
  | _ => (OutcomeNeutral, false, false)
  end.

Definition resync_verdict (jobCount : Z) : string * bool * bool :=
  if bool_decide (0 < jobCount) then (OutcomeSuccess, true, true) else (OutcomeNeutral, false, false).

Definition new_outcome (id actionID : uuid) (a : Action) (targetType : string) (target : uuid)
    (verdict : string * bool * bool) (before after : gmap string pval) (evaluated : time) : ActionOutcome :=
  let '(status, effect, improvement) := verdict in
  mkOutcome id actionID (act_GoalID a) (act_Type a) targetType target status before after effect improvement evaluated
    f0 f0 f0 f0 f0.

(** ** Utility ([handler.go]) *)

(** Income, family and owner's relief, by the kind of goal. *)
Definition utilities (goalType : string) (m : float64) : float64 * float64 * float64 :=
  let one_of l := bool_decide (goalType ∈ (l : list string)) in
  if one_of ["income"; "monthly_income_growth"] then (fmul f1 m, f0, f0)
  else if one_of ["safety"; "family_stability"] then (f0, fmul f1 m, f0)
  else if one_of ["efficiency"; "owner_load_reduction"] then (f0, f0, fmul f1 m)
  else if one_of ["operational"; "system_reliability"] then (fmul (lit 3 10) m, fmul (lit 5 10) m, f0)
  else if one_of ["learning"; "system_learning"] then (f0, f0, fmul (lit 3 10) m)
  else if one_of ["evolution"; "system_improvement"] then (f0, f0, fmul (lit 5 10) m)
  else (f0, f0, f0).

Definition utility_goal (a : Action) (o : ActionOutcome) : string :=
  match param_string "_ctx_goal_type" (act_Params a) with "" => ao_GoalID o | goalType => goalType end.

Definition computeUtilityValues (a : Action) (o : ActionOutcome) : ActionOutcome :=
  let m := if bool_decide (ao_OutcomeStatus o = OutcomeSuccess) then f1
           else if bool_decide (ao_OutcomeStatus o = OutcomeNeutral) then lit 3 10 else f0 in
  let risk := if bool_decide (ao_OutcomeStatus o = OutcomeFailure) then lit 5 10 else ao_RiskCost o in
  let '(income, family, owner) := utilities (utility_goal a o) m in
  ((((o <| ao_IncomeValue := income |>) <| ao_FamilyValue := family |>) <| ao_OwnerReliefValue := owner |>)
     <| ao_RiskCost := risk |>)
     <| ao_UtilityScore := fsub (fadd (fadd income family) owner) risk |>.

(** ** Store ([store.go]) *)

(** A row of [agent_action_outcomes]; its two states are kept as JSON. *)
Abbreviation Outcomes := (list ActionOutcome).

Definition insert_outcome (o : ActionOutcome) (t : Outcomes) : res (unit * Outcomes) :=
  if existsb (fun row => bool_decide (ao_ID row = ao_ID o)) t then Err ErrDuplicateKey
  else Ok (tt, t ++ [o <| ao_EvaluatedAt := trunc_us (ao_EvaluatedAt o) |>]).

Record ListFilter := mkListFilter {
  lf_ActionID : option uuid;
  lf_TargetID : option uuid;
  lf_Limit : Z;
  lf_Offset : Z
}.

Definition matches_id (id : option uuid) (x : uuid) : bool :=
  match id with Some y => bool_decide (x = y) | None => true end.

Definition later_outcome (x y : ActionOutcome) : bool := bool_decide (ao_EvaluatedAt y < ao_EvaluatedAt x).

(** PostgreSQL refuses a negative offset. *)
Definition list_outcomes (f : ListFilter) (t : Outcomes) : res (list ActionOutcome * Outcomes) :=
  if bool_decide (lf_Offset f < 0) then Err (Errorf "OFFSET must not be negative")
  else
    let limit := if bool_decide (lf_Limit f ≤ 0) || bool_decide (100 < lf_Limit f) then 20 else lf_Limit f in
    Ok (take (Z.to_nat limit) (drop (Z.to_nat (lf_Offset f))
          (SliceStable later_outcome
             (List.filter (fun o => matches_id (lf_ActionID f) (ao_ActionID o)
                                    && matches_id (lf_TargetID f) (ao_TargetID o)) t))), t).

(** ** Recorders *)

Record PathOutcome := mkPathOutcome {
  po_PathID : string;
  po_GoalType : string;
  po_PathActionTypes : list string;
  po_FirstStepStatus : string;
  po_ContinuationUsed : bool;
  po_Step2Status : string;
  po_FinalStatus : string;
  po_Improvement : bool;
  po_ExecutedTransitions : Z
}.

Record ResourceOutcome := mkResourceOutcome {
  ro_Mode : string;
  ro_GoalType : string;
  ro_LatencyMs : float64;
  ro_ReasoningDepth : float64;
  ro_PathLength : float64;
  ro_TokenCost : float64;
  ro_ExecutionCost : float64
}.

Section outcome.
Context {D X : Type} {MP : Part MemoryTables D} {OP : Part Outcomes D} {U : UuidPkg} {NU : UuidNil} {PP : PgPrepare} (env : Surroundings).
Abbreviation OC A := (St (Agent D X) A).

Definition fresh_outcome_id : OC uuid := fun s => (uuid_New (ag_uuids s), s <| ag_uuids := S (ag_uuids s) |>).

Definition mustParseUUID (text : string) : OC uuid :=
  match uuid_Parse text with Ok id => retS id | Err _ => fresh_outcome_id end.

(** *** Evaluator ([evaluator.go]) *)

(** [ID: uuid.New(), ActionID: mustParseUUID(action.ID), EvaluatedAt: time.Now()] *)
Definition evaluated_outcome (a : Action) (targetType : string) (target : uuid) (verdict : string * bool * bool)
    (before after : gmap string pval) : OC ActionOutcome :=
  let! id := fresh_outcome_id in
  let! actionID := mustParseUUID (act_ID a) in
  let! t := now env in
  retS (new_outcome id actionID a targetType target verdict before after t).

(** A query for one row. *)
Definition query_row {A} (q : Pipeline → option A) : OC (res A) :=
  then_ok (query env q) (fun row => retS match row with Some x => Ok x | None => Err ErrNoRows end).

Definition evaluateRetryJob (a : Action) : OC (res ActionOutcome) :=
  match uuid_Parse (param_string "job_id" (act_Params a)) with
  | Err e => retS (Err (wrap "parse job_id param: " e))
  | Ok jobID =>
      then_ok (wrapped ("query job " +:+ uuid_String jobID +:+ ": ")
                 (query_row (fun p => processing_jobs (pl_db p) !! jobID))) (fun job =>
      let! o := evaluated_outcome a "job" jobID (retry_verdict (job_Status job)) {["action_triggered" := PStr "retry"]}
                  (<["attempt_count" := PInt (job_AttemptCount job)]>
                     {["status" := PStr (job_status_string (job_Status job))]}) in
      retS (Ok o))
  end.

Definition new_jobs (task : uuid) (since : time) (p : Pipeline) : Z :=
  count_jobs (fun j => bool_decide (job_SourceTaskID j = task) && bool_decide (trunc_us since ≤ job_CreatedAt j)) p.

Definition evaluateResync (a : Action) : OC (res ActionOutcome) :=
  match uuid_Parse (param_string "source_task_id" (act_Params a)) with
  | Err e => retS (Err (wrap "parse source_task_id param: " e))
  | Ok taskID =>
      then_ok (wrapped ("count new jobs for task " +:+ uuid_String taskID +:+ ": ")
                 (query env (new_jobs taskID (act_CreatedAt a)))) (fun jobCount =>
      let! o := evaluated_outcome a "task" taskID (resync_verdict jobCount) {["action_triggered" := PStr "resync"]}
                  {["new_jobs_created" := PInt jobCount]} in
      retS (Ok o))
  end.

Definition evaluateRecommendation (a : Action) : OC ActionOutcome :=
  evaluated_outcome a "recommendation" uuid_Nil (OutcomeNeutral, false, false) ∅ ∅.

Definition Outcome_Evaluate (a : Action) : OC (res ActionOutcome) :=
  if bool_decide (act_Type a = ActionRetryJob) then evaluateRetryJob a
  else if bool_decide (act_Type a = ActionTriggerResync) then evaluateResync a
  else let! o := evaluateRecommendation a in retS (Ok o).

(** *** Store *)

Definition Outcome_Save (o : ActionOutcome) : OC (option error) :=
  let! r := exec (stmt_on (insert_outcome o)) in retS (wrap "insert outcome: " <$> r).

Definition Outcome_List (f : ListFilter) : OC (res (list ActionOutcome)) :=
  wrapped "query outcomes: " (statement (stmt_on (list_outcomes f))).

(** *** Handler ([handler.go]) *)

Record Handler := mkHandler {
  hd_memoryStore : bool;
  hd_auditor : bool;
  hd_pathOutcomeEval : option (PathOutcome → OC (option error));
  hd_comparativeEvaluator : option (string → string → OC (option error));
  hd_counterfactualEvaluator : option (string → string → string → string → OC (option error));
  hd_metaOutcomeEval : option (string → string → bool → OC unit);
  hd_calibrationRecorder : option (string → float64 → string → OC (option error));
  hd_contextCalibrationRecorder : option (string → string → string → float64 → string → OC (option error));
  hd_modeCalibrationRecorder : option (string → string → string → float64 → string → OC (option error));
  hd_resourceOutcomeRecorder : option (ResourceOutcome → OC unit);
  hd_governanceLearningGuard : option (OC bool)
}.

Context (h : Handler).

(** Where the recorder is there and the parameter is not empty. *)
Definition with_recorder {P} (p : option P) (k : P → OC unit) : OC unit :=
  match p with Some p => k p | None => retS tt end.
Definition with_text (text : string) (k : OC unit) : OC unit := if bool_decide (text = "") then retS tt else k.
Definition with_confidence (a : Action) (k : float64 → OC unit) : OC unit :=
  match act_Params a !! "_ctx_predicted_confidence" with Some (PFloat x) => k x | _ => retS tt end.

Definition audit_outcome (a : Action) (eventType : string) : OC unit :=
  if hd_auditor h then
    let! entity := match uuid_Parse (act_ID a) with Ok id => retS (uuid_String id) | Err _ => fresh_uuid end in
    record_audit true eventType entity
  else retS tt.

Section one.
Context (a : Action) (o : ActionOutcome).
Definition text_param (k : string) : string := param_string k (act_Params a).

Definition updateContextualMemory : OC unit :=
  let goalType := text_param "_ctx_goal_type" in
  let failure := text_param "_ctx_failure_bucket" in
  let backlog := text_param "_ctx_backlog_bucket" in
  if bool_decide (goalType = "") || bool_decide (failure = "") || bool_decide (backlog = "") then retS tt
  else dropped (UpdateContext (en_clock env)
         (mkContextInput (mkContextKey (ao_ActionType o) goalType "" failure backlog) (ao_OutcomeStatus o))).

Definition updateProviderContextMemory : OC unit :=
  let providerName := text_param "_ctx_provider_name" in
  with_text providerName
    (dropped (UpdateProviderContext (en_clock env)
       (mkProviderInput
          (mkProviderKey (ao_ActionType o) (text_param "_ctx_goal_type") "" providerName (text_param "_ctx_model_role")
             (text_param "_ctx_failure_bucket") (text_param "_ctx_backlog_bucket")) (ao_OutcomeStatus o)))).

(** The feedback goes into the audit record. *)
Definition update_memory : OC unit :=
  let! err := Memory_Update (en_clock env)
                (mkOutcomeInput (ao_ActionType o) (ao_TargetType o) (ao_TargetID o) (ao_OutcomeStatus o)) in
  let! _ := match err with
            | Some _ => retS tt
            | None => let! _ := GetByActionType (en_rows env) (ao_ActionType o) in
                      audit_outcome a "action.feedback_generated"
            end in
  let! _ := updateContextualMemory in
  updateProviderContextMemory.

(** Only the first step is ever executed. *)
Definition evaluatePathOutcome : OC unit :=
  with_recorder (hd_pathOutcomeEval h) (fun eval =>
  with_text (text_param "_ctx_path_signature")
    match act_Params a !! "_ctx_path_action_types" with
    | Some (PStrs ((_ :: _) as types)) =>
        dropped (eval (mkPathOutcome (text_param "_ctx_strategy_id") (text_param "_ctx_goal_type") types
                         (ao_OutcomeStatus o) false "" (ao_OutcomeStatus o) (ao_Improvement o) 0))
    | _ => retS tt
    end).

Definition evaluateComparativeOutcome : OC unit :=
  with_recorder (hd_comparativeEvaluator h) (fun eval =>
  with_text (text_param "_ctx_decision_id") (dropped (eval (text_param "_ctx_decision_id") (ao_OutcomeStatus o)))).

Definition evaluateCounterfactualPrediction : OC unit :=
  with_recorder (hd_counterfactualEvaluator h) (fun eval =>
  with_text (text_param "_ctx_decision_id")
    (with_text (text_param "_ctx_path_signature")
       (dropped (eval (text_param "_ctx_decision_id") (text_param "_ctx_path_signature") (text_param "_ctx_goal_type")
                   (ao_OutcomeStatus o))))).

Definition evaluateMetaReasoningOutcome : OC unit :=
  with_recorder (hd_metaOutcomeEval h) (fun recordOutcome =>
  with_text (text_param "_ctx_meta_mode")
    (recordOutcome (text_param "_ctx_meta_mode") (text_param "_ctx_goal_type")
       (bool_decide (ao_OutcomeStatus o = OutcomeSuccess)))).

Definition recordCalibration : OC unit :=
  with_recorder (hd_calibrationRecorder h) (fun recorder =>
  with_text (text_param "_ctx_decision_id")
    (with_confidence a (fun x => dropped (recorder (text_param "_ctx_decision_id") x (ao_OutcomeStatus o))))).

Definition recordContextCalibration : OC unit :=
  with_recorder (hd_contextCalibrationRecorder h) (fun recorder =>
  with_confidence a (fun x =>
    dropped (recorder (text_param "_ctx_goal_type") (text_param "_ctx_provider_name") (text_param "_ctx_strategy_type")
               x (ao_OutcomeStatus o)))).

Definition recordModeCalibration : OC unit :=
  with_recorder (hd_modeCalibrationRecorder h) (fun recorder =>
  with_text (text_param "_ctx_decision_id")
    (with_text (text_param "_ctx_meta_mode")
       (with_confidence a (fun x =>
          dropped (recorder (text_param "_ctx_decision_id") (text_param "_ctx_goal_type") (text_param "_ctx_meta_mode")
                     x (ao_OutcomeStatus o)))))).

Definition path_length_param : float64 :=
  match act_Params a !! "_ctx_path_length" with
  | Some (PFloat x) => x
  | Some (PInt n) => f_of_Z n
  | _ => f1
  end.

Definition recordResourceOutcome : OC unit :=
  with_recorder (hd_resourceOutcomeRecorder h) (fun recorder =>
  with_text (text_param "_ctx_meta_mode")
    (recorder (mkResourceOutcome (text_param "_ctx_meta_mode") (text_param "_ctx_goal_type") f0 f1 path_length_param
                 f0 f0))).

Definition emitUtilityLearningSignal : OC unit :=
  if feqb (ao_UtilityScore o) f0 then retS tt else audit_outcome a "utility.signal_recorded".

(** The recorders, which governance may switch off. *)
Definition learn : OC unit :=
  let! blocked := match hd_governanceLearningGuard h with Some guard => guard | None => retS false end in
  if blocked then retS tt
  else
    let! _ := evaluatePathOutcome in
    let! _ := evaluateComparativeOutcome in
    let! _ := evaluateCounterfactualPrediction in
    let! _ := evaluateMetaReasoningOutcome in
    let! _ := recordCalibration in
    let! _ := recordContextCalibration in
    let! _ := recordModeCalibration in
    let! _ := recordResourceOutcome in
    emitUtilityLearningSignal.
End one.

Definition HandleOutcome (a : Action) (result : ActionResult) : OC (option error) :=
  let! r := Outcome_Evaluate a in
  match r with
  | Err e => retS (Some (wrap "evaluate outcome: " e))
  | Ok o =>
      let o := computeUtilityValues a o in
      let! err := Outcome_Save o in
      match err with
      | Some e => retS (Some (wrap "persist outcome: " e))
      | None =>
          let! _ := audit_outcome a "action.outcome_evaluated" in
          let! _ := if hd_memoryStore h then update_memory a o else retS tt in
          let! _ := learn a o in
          retS None
      end
  end.
End outcome.
