(* ===== verification/LearningLoop.v ===== *)
(** * The learning loop of an action cycle

    Planner, action engine and outcome handler as the gateway composes them: what
    a cycle learns from its actions.  The planner writes what an action stood for
    into its parameters, the outcome handler reads them; the theorem states what
    is lost between the two. *)

From stdpp Require Import base gmap strings list tactics numbers fin_maps pretty.
From Stdlib Require Import ZArith Lia.
From S2P Require Import Prelude GoFloat GoSort Models GoTime AgentWorld ActionMemory ActionEngine TacticalPlanner TacticalProps Outcome.

Open Scope Z_scope.

(** Changing one part leaves another alone. *)
Class Apart {T V S} (P : Part T S) (Q : Part V S) : Prop :=
  apart : ∀ t s, part (Part := Q) (put_part (Part := P) t s) = part (Part := Q) s.

(** ** Utility *)

(** The kinds of goals that have a utility. *)
Definition valued : list string :=
  ["income"; "monthly_income_growth"; "safety"; "family_stability"; "efficiency"; "owner_load_reduction"; "operational";
   "system_reliability"; "learning"; "system_learning"; "evolution"; "system_improvement"].

(** An outcome that counts for nothing, or as a loss. *)
Definition worthless (o : ActionOutcome) : Prop :=
  ao_IncomeValue o = f0 ∧ ao_FamilyValue o = f0 ∧ ao_OwnerReliefValue o = f0 ∧
  (ao_UtilityScore o = f0 ∨ ao_UtilityScore o = fneg (lit 5 10)).

Lemma utilities_unvalued goalType m : goalType ∉ valued → utilities goalType m = (f0, f0, f0).
Proof. intros H. unfold utilities. unfold valued in H. rewrite !bool_decide_false by set_solver. done. Qed.

Lemma computeUtility_worthless a o :
  utility_goal a o ∉ valued → ao_RiskCost o = f0 → worthless (computeUtilityValues a o).
Proof.
  intros Hg Hr. unfold computeUtilityValues. rewrite utilities_unvalued, Hr by done. unfold worthless. cbn.
  split_and!; try done. case_bool_decide; [right|left]; by vm_compute.
Qed.

(** ** Goals of the engine *)

Definition goal_types : list string :=
  [GoalReduceRetryRate; GoalInvestigateFailures; GoalImproveModelQuality; GoalReduceLatency; GoalResolveBacklog;
   GoalIncreaseReliability].

Definition engine_goal (g : Goal) : Prop := go_Type g ∈ goal_types ∧ ∃ t, go_ID g = goal_id (go_Type g) t.

Lemma EvaluateSystem_engine snap t : Forall engine_goal (EvaluateSystem snap t).
Proof.
  unfold EvaluateSystem.
  assert (HN : ∀ type p c d, type ∈ goal_types → Forall engine_goal (new_goal t type p c d)).
  { intros type p c d H. constructor; [|constructor]. split; [done|]. by exists t. }
  repeat apply Forall_app_2;
    unfold evalFailureRate, evalRetryBacklog, evalAcceptanceRate, evalQueueBacklog, evalLatency, evalDeadLetters; cbv zeta;
    repeat case_match; first [apply HN; unfold goal_types; set_solver | by apply Forall_nil].
Qed.

(** The kind of an action's goal, as its outcome sees it, has no utility. *)
Lemma plain_unvalued g a o :
  engine_goal g → plain_for g a → ao_GoalID o = act_GoalID a → utility_goal a o ∉ valued.
Proof.
  intros [HT [t HI]] (_ & HG & HA) Ho. unfold utility_goal, param_string.
  assert (HGid : go_ID g ∉ valued).
  { rewrite HI. unfold goal_id, valued. rewrite !not_elem_of_cons. cbn. split_and!; try discriminate. apply not_elem_of_nil. }
  destruct HG as [-> | ->]; [by rewrite Ho, HA|].
  assert (HTv : (go_Type g ∉ valued) ∧ go_Type g ≠ "").
  { unfold goal_types in HT. rewrite !elem_of_cons, elem_of_nil in HT.
    destruct HT as [-> |[-> |[-> |[-> |[-> |[-> |[]]]]]]]; split; first [compute_done|done]. }
  destruct (go_Type g); [by destruct HTv|]. apply HTv.
Qed.

(** ** What one cycle leaves behind *)

Section loop.
Context {D X : Type} {MP : Part MemoryTables D} {OP : Part Outcomes D} {JP : Part Journal D}.
Context {GP : Part Guard X} {LP : Part (list PlanningDecision) X}.
Context {ML : PartLaws MP} {OL : PartLaws OP} {MO : Apart MP OP} {OM : Apart OP MP} {JM : Apart JP MP} {JO : Apart JP OP}.
Context {U : UuidPkg} {NU : UuidNil} {PP : PgPrepare} (env : Surroundings).
Abbreviation W A := (St (Agent D X) A).
Implicit Types s : Agent D X.

(** The provider table is as it was, and so are the outcomes, but for worthless ones. *)
Definition unlearned (P0 : list ProviderContextMemoryRecord) (O0 : Outcomes) (db : D) : Prop :=
  mt_providers (part db) = P0 ∧ ∀ o, o ∈ (part db : Outcomes) → o ∈ O0 ∨ worthless o.

Definition spares {A} (c : W A) : Prop :=
  ∀ P0 O0, triple (fun s => unlearned P0 O0 (ag_db s)) c (fun _ s => unlearned P0 O0 (ag_db s)).

Lemma spares_ret {A} (a : A) : spares (retS a).
Proof using. by intros P0 O0 s. Qed.
Lemma spares_bind {A B} (c : W A) (k : A → W B) : spares c → (∀ a, spares (k a)) → spares (bindS c k).
Proof using. intros Hc Hk P0 O0. eapply triple_bind; [apply Hc|intros a; apply Hk]. Qed.
Lemma spares_bind_returns {A B} (F : A → Prop) (c : W A) (k : A → W B) :
  spares c → returns c F → (∀ a, F a → spares (k a)) → spares (bindS c k).
Proof using.
  intros Hc HF Hk P0 O0 s Hs. rewrite bindS_run. apply (Hk _ (HF s)). by apply Hc.
Qed.
Lemma spares_reading {A} (f : nat → A) : spares (reading f).
Proof using. by intros P0 O0 s. Qed.
Lemma spares_fresh : spares fresh_uuid.
Proof using. by intros P0 O0 s. Qed.
Lemma spares_fresh_outcome_id : spares fresh_outcome_id.
Proof using. by intros P0 O0 s. Qed.
Lemma spares_audit on ev id : spares (record_audit on ev id).
Proof using. intros P0 O0 s. by destruct on. Qed.
Lemma spares_provider {A} (c : St X A) : spares (provider c).
Proof using. intros P0 O0 s. unfold provider. by destruct (c (ag_ext s)). Qed.
Lemma spares_dropped {A} (c : W A) : spares c → spares (dropped c).
Proof using. intros H. apply spares_bind; [done|]. intros a. apply spares_ret. Qed.
Lemma spares_forS {A} (f : A → W unit) l : (∀ a, spares (f a)) → spares (forS f l).
Proof using. intros Hf. induction l as [|a l IH]; [apply spares_ret|]. apply spares_bind; auto. Qed.
Lemma spares_then_ok {A B} (c : W (res A)) (k : A → W (res B)) : spares c → (∀ a, spares (k a)) → spares (then_ok c k).
Proof using. intros Hc Hk. apply spares_bind; [done|]. intros [a|e]; [apply Hk|apply spares_ret]. Qed.
Lemma spares_wrapped {A} what (c : W (res A)) : spares c → spares (wrapped what c).
Proof using. intros Hc. apply spares_bind; [done|]. intros r. apply spares_ret. Qed.

(** A statement, by what it does to the tables. *)
Lemma spares_statement {A} (stmt : D → res (A * D)) :
  (∀ P0 O0 db a db', stmt db = Ok (a, db') → unlearned P0 O0 db → unlearned P0 O0 db') → spares (statement stmt).
Proof using.
  intros H P0 O0. apply (triple_statement (fun db _ => unlearned P0 O0 db) stmt (fun _ db _ => unlearned P0 O0 db)).
  intros db x Hdb. split; [done|]. intros a db' E. by split; [|intros _]; eapply H.
Qed.

Lemma spares_asks {T} `{PT : Part T D, !PartLaws PT} {A} (q : T → A) : spares (statement (stmt_on (asks q))).
Proof using.
  apply spares_statement. intros P0 O0 db a db'. unfold stmt_on, asks. intros [= <- <-]. by rewrite put_part_same.
Qed.

Lemma spares_query {A} (q : Pipeline → A) : spares (query env q).
Proof using.
  apply spares_bind; [apply spares_reading|]. intros p. apply spares_statement. intros P0 O0 db a db'. by intros [= <- <-].
Qed.

Lemma spares_query_rows {A} (q : Pipeline → list A) : spares (query_rows env q).
Proof using.
  apply spares_bind; [apply spares_reading|]. intros p. apply spares_bind; [apply spares_reading|]. intros n.
  apply spares_bind; [|intros r; apply spares_ret]. apply spares_statement. intros P0 O0 db a db'. by intros [= <- <-].
Qed.

Create HintDb spares.
#[local] Hint Resolve spares_ret spares_reading spares_fresh spares_fresh_outcome_id spares_audit spares_provider spares_dropped
  spares_forS spares_then_ok spares_wrapped spares_query spares_query_rows : spares.

Ltac spares_steps :=
  repeat first
    [ progress auto with spares
    | match goal with |- ∀ _, spares _ => intro end
    | apply spares_bind
    | match goal with |- spares (match ?x with _ => _ end) => destruct x end ].

(** *** Action memory, but for its provider table *)

Lemma spares_upsert {K} `{EqDecision K} {KC : KeyColumns K} (P : Part (list (MemoryRow K)) MemoryTables) (k : K) status t :
  (∀ l m, mt_providers (put_part (Part := P) l m) = mt_providers m) →
  spares (exec_upsert (X := X) (P := P) k status t).
Proof using ML MO.
  intros HP. apply spares_bind; [apply spares_fresh|]. intros id.
  apply spares_bind; [|intros r; apply spares_ret]. apply spares_statement. intros P0 O0 db a db'.
  destruct (prepare _); [done|]. unfold stmt_on. destruct (upsert_row _ _ _ _ _) as [[u l]|e]; [|done]. intros [= <- <-] [H1 H2]. split.
  - by rewrite part_put, HP.
  - rewrite (apart (P := MP) (Q := OP)). exact H2.
Qed.

Lemma spares_Memory_Update o : spares (Memory_Update (X := X) (en_clock env) o).
Proof using ML MO.
  unfold Memory_Update, upsertAggregate, upsertTarget. apply spares_bind; [apply spares_reading|]. intros t.
  apply spares_bind; [by apply spares_upsert|]. intros [e|]; [apply spares_ret|].
  case_bool_decide; [apply spares_ret|]. apply spares_bind; [by apply spares_upsert|]. intros r. apply spares_ret.
Qed.

Lemma spares_UpdateContext o : spares (UpdateContext (X := X) (en_clock env) o).
Proof using ML MO.
  unfold UpdateContext. apply spares_bind; [apply spares_reading|]. intros t.
  apply spares_bind; [by apply spares_upsert|]. intros r. apply spares_ret.
Qed.

Lemma spares_ask_row {A} rows (q : nat → MemoryTables → option A) : spares (ask_row (X := X) rows q).
Proof using ML.
  apply spares_bind; [apply spares_reading|]. intros n. apply spares_bind; [apply spares_asks|]. intros r. apply spares_ret.
Qed.

Lemma spares_ask_memory {A} what (q : MemoryTables → A) : spares (ask_memory (X := X) what q).
Proof using ML. apply spares_bind; [apply spares_asks|]. intros r. apply spares_ret. Qed.

(** The guard of action memory only reads. *)
Lemma spares_ShouldAvoid rows actionType : spares (ShouldAvoid (X := X) rows actionType).
Proof using ML. apply spares_bind; [apply spares_ask_row|]. intros r. apply spares_ret. Qed.

(** *** The outcome handler *)

Context (h : Handler (D := D) (X := X)).

(** The recorders of other packages. *)
Record recorders_keep : Prop := {
  rk_path : ∀ f, hd_pathOutcomeEval h = Some f → ∀ p, spares (f p);
  rk_comparative : ∀ f, hd_comparativeEvaluator h = Some f → ∀ a b, spares (f a b);
  rk_counterfactual : ∀ f, hd_counterfactualEvaluator h = Some f → ∀ a b c d, spares (f a b c d);
  rk_meta : ∀ f, hd_metaOutcomeEval h = Some f → ∀ a b c, spares (f a b c);
  rk_calibration : ∀ f, hd_calibrationRecorder h = Some f → ∀ a b c, spares (f a b c);
  rk_context : ∀ f, hd_contextCalibrationRecorder h = Some f → ∀ a b c d e, spares (f a b c d e);
  rk_mode : ∀ f, hd_modeCalibrationRecorder h = Some f → ∀ a b c d e, spares (f a b c d e);
  rk_resource : ∀ f, hd_resourceOutcomeRecorder h = Some f → ∀ p, spares (f p);
  rk_guard : ∀ f, hd_governanceLearningGuard h = Some f → spares f
}.
Hypothesis recorders : recorders_keep.

Lemma spares_with_recorder {P} (p : option P) (k : P → W unit) :
  (∀ f, p = Some f → spares (k f)) → spares (with_recorder p k).
Proof using. intros H. destruct p; [by apply H|apply spares_ret]. Qed.

Lemma spares_with_text text (k : W unit) : spares k → spares (with_text text k).
Proof using. intros H. unfold with_text. case_bool_decide; [apply spares_ret|done]. Qed.

Lemma spares_with_confidence a (k : float64 → W unit) : (∀ x, spares (k x)) → spares (with_confidence a k).
Proof using. intros H. unfold with_confidence. repeat case_match; auto using spares_ret. Qed.

Lemma spares_audit_outcome a ev : spares (audit_outcome h a ev).
Proof using. unfold audit_outcome. spares_steps. Qed.

Lemma spares_learn a o : spares (learn h a o).
Proof using recorders.
  destruct recorders. unfold learn. apply spares_bind.
  { destruct (hd_governanceLearningGuard h); [by eauto|apply spares_ret]. }
  intros []; [apply spares_ret|].
  unfold evaluatePathOutcome, evaluateComparativeOutcome, evaluateCounterfactualPrediction, evaluateMetaReasoningOutcome,
    recordCalibration, recordContextCalibration, recordModeCalibration, recordResourceOutcome, emitUtilityLearningSignal.
  repeat (apply spares_bind; [apply spares_with_recorder; intros f Hf; repeat first
    [apply spares_with_text | apply spares_with_confidence; intros x | apply spares_dropped | solve [eauto] | case_match | apply spares_ret]
    |intros _]).
  case_match; [apply spares_ret|apply spares_audit_outcome].
Qed.

Lemma Outcome_Evaluate_plain a :
  returns (Outcome_Evaluate env a : W (res ActionOutcome)) (fun r => ∀ o, r = Ok o → ao_GoalID o = act_GoalID a ∧ ao_RiskCost o = f0).
Proof using.
  assert (HO : ∀ ty tg v b c, returns (evaluated_outcome env a ty tg v b c : W ActionOutcome)
                 (fun o => ao_GoalID o = act_GoalID a ∧ ao_RiskCost o = f0)).
  { intros ty tg [[st ef] im] b c. unfold evaluated_outcome. eapply returns_bind; [apply returns_any|]. intros id _.
    eapply returns_bind; [apply returns_any|]. intros aid _. eapply returns_bind; [apply returns_any|]. intros t _.
    by apply returns_ret. }
  assert (HK : ∀ ty tg v b c, returns (let! o := evaluated_outcome env a ty tg v b c in retS (Ok o) : W (res ActionOutcome))
                 (fun r => ∀ o, r = Ok o → ao_GoalID o = act_GoalID a ∧ ao_RiskCost o = f0)).
  { intros. eapply returns_bind; [apply HO|]. intros o Ho. apply returns_ret. by intros ? [= <-]. }
  assert (HT : ∀ A (c : W (res A)) k, (∀ x, returns (k x : W (res ActionOutcome))
                 (fun r => ∀ o, r = Ok o → ao_GoalID o = act_GoalID a ∧ ao_RiskCost o = f0)) →
                 returns (then_ok c k) (fun r => ∀ o, r = Ok o → ao_GoalID o = act_GoalID a ∧ ao_RiskCost o = f0)).
  { intros A c k Hk. eapply returns_bind; [apply returns_any|]. intros [x|e] _; [apply Hk|by apply returns_ret]. }
  unfold Outcome_Evaluate, evaluateRetryJob, evaluateResync, evaluateRecommendation. repeat case_bool_decide; [| |apply HK].
  - destruct (uuid_Parse _); [apply HT; intros job; apply HK|by apply returns_ret].
  - destruct (uuid_Parse _); [apply HT; intros n; apply HK|by apply returns_ret].
Qed.

Lemma spares_Outcome_Evaluate a : spares (Outcome_Evaluate env a).
Proof using.
  assert (HO : ∀ ty tg v b c, spares (evaluated_outcome env a ty tg v b c)).
  { intros. unfold evaluated_outcome, mustParseUUID, now. spares_steps. }
  unfold Outcome_Evaluate, evaluateRetryJob, evaluateResync, evaluateRecommendation, query_row.
  repeat case_match; spares_steps.
Qed.

Lemma spares_Outcome_Save o : worthless o → spares (Outcome_Save (X := X) o).
Proof using OL OM.
  intros Ho. unfold Outcome_Save, exec. apply spares_bind; [|intros r; apply spares_ret].
  apply spares_bind; [|intros r; apply spares_ret]. apply spares_statement. intros P0 O0 db a db'. unfold stmt_on, insert_outcome.
  destruct (existsb _ _); [done|]. intros [= <- <-] [H1 H2]. split.
  - by rewrite (apart (P := OP) (Q := MP)).
  - intros x. rewrite part_put. intros [Hx| ->%list_elem_of_singleton]%elem_of_app; [by apply H2|by right].
Qed.

Lemma spares_HandleOutcome g a r : engine_goal g → plain_for g a → spares (HandleOutcome env h a r).
Proof using ML MO OL OM recorders.
  intros Hg Ha. unfold HandleOutcome.
  eapply spares_bind_returns; [apply spares_Outcome_Evaluate|apply Outcome_Evaluate_plain|]. intros [o|e] Ho; [|apply spares_ret].
  destruct (Ho o eq_refl) as [HG HR].
  assert (HW : worthless (computeUtilityValues a o)) by (apply computeUtility_worthless; [by eapply plain_unvalued|done]).
  cbv zeta. apply spares_bind; [by apply spares_Outcome_Save|]. intros [e|]; [apply spares_ret|].
  apply spares_bind; [apply spares_audit_outcome|]. intros _. apply spares_bind.
  - destruct (hd_memoryStore h); [|apply spares_ret]. unfold update_memory.
    apply spares_bind; [apply spares_Memory_Update|]. intros err. apply spares_bind.
    { destruct err; [apply spares_ret|]. apply spares_bind; [apply spares_ask_row|]. intros _. apply spares_audit_outcome. }
    intros _. apply spares_bind.
    { unfold updateContextualMemory. case_match; [apply spares_ret|]. apply spares_dropped, spares_UpdateContext. }
    intros _. unfold updateProviderContextMemory, text_param, param_string.
    destruct Ha as (-> & _ & _). cbn. apply spares_ret.
  - intros _. apply spares_bind; [apply spares_learn|]. intros _. apply spares_ret.
Qed.

(** *** The planner and the engine *)

Context (feedback stability : option (string → W (option string))) (base : string) (client_Do : string → St X (res Z)).
Context (auditor : bool) (ap : AdaptivePlanner (D := D) (X := X)).

(** The other packages the planner and the guardrails ask. *)
Record providers_keep : Prop := {
  vk_feedback : ∀ p, feedback = Some p → ∀ t, spares (p t);
  vk_stability : ∀ p, stability = Some p → ∀ t, spares (p t);
  vk_strategy : ∀ p, ap_strategy ap = Some p → ∀ d fb l, spares (p d fb l);
  vk_learning : ∀ p, ap_strategyLearning ap = Some p → ∀ t, spares (p t);
  vk_exploration : ∀ p, ap_exploration ap = Some p → ∀ d fb, spares (p d fb)
}.
Hypothesis providers : providers_keep.
Hypothesis deployed : ap_targetResolver ap = Some (static_resolver env).

Lemma spares_Goals_Evaluate : spares (Goals_Evaluate env).
Proof using U. unfold Goals_Evaluate, collectSnapshot, since_window, now. spares_steps. Qed.

Lemma spares_actions_for mk ids : spares (actions_for env mk ids).
Proof using. induction ids; cbn [actions_for]; unfold now; spares_steps. Qed.

Lemma spares_Collect : spares (Collect (X := X) env).
Proof using ML U.
  unfold Collect, now. apply spares_bind; [auto with spares|]. intros t.
  apply spares_then_ok; [apply spares_wrapped; unfold loadQueueState; spares_steps|]. intros px.
  apply spares_then_ok; [apply spares_wrapped; unfold loadRates, now; spares_steps|]. intros px'.
  apply spares_then_ok; [apply spares_wrapped, spares_then_ok; [apply spares_wrapped, spares_ask_memory|auto with spares]|].
  intros px''. apply spares_bind; [apply spares_bind; [apply spares_ask_memory|auto with spares]|]. intros px3.
  apply spares_bind; [apply spares_bind; [apply spares_ask_memory|auto with spares]|auto with spares].
Qed.

Lemma spares_planning_context : spares (planning_context (X := X) env).
Proof using ML U. apply spares_bind; [apply spares_Collect|]. unfold now. spares_steps. Qed.

Lemma spares_targets (find : TargetResolver → Goal → W (list Action * option error)) g d px :
  (∀ r, ap_targetResolver ap = Some r → spares (find r g)) → spares (targets_or_log env ap find g d px).
Proof using.
  clear deployed. intros Hf. unfold targets_or_log. apply spares_bind.
  - destruct (ap_targetResolver ap) as [r|]; [|apply spares_ret]. apply spares_bind; [by apply Hf|]. intros x. apply spares_ret.
  - intros [|a l]; [|apply spares_ret]. unfold makeLogRecommendation, now. spares_steps.
Qed.

Lemma spares_resolveActions g d px : spares (resolveActions env ap g d px).
Proof using deployed.
  unfold resolveActions. repeat case_bool_decide.
  - apply spares_targets. rewrite deployed. intros r [= <-]. apply spares_bind; [auto with spares|]. intros found.
    apply spares_bind; [apply spares_actions_for|]. intros l. apply spares_ret.
  - apply spares_targets. rewrite deployed. intros r [= <-]. apply spares_bind; [auto with spares|]. intros found.
    apply spares_bind; [apply spares_actions_for|]. intros l. apply spares_ret.
  - unfold makeLogRecommendation, now. spares_steps.
Qed.

Lemma spares_plan_goals px goals : spares (plan_goals env ap px goals).
Proof using providers deployed.
  destruct providers. induction goals as [|g goals IH]; cbn [plan_goals]; [apply spares_ret|].
  apply spares_bind; [|intros first; apply spares_bind; [done|intros rest; apply spares_ret]].
  unfold plan_goal, audit_planning. apply spares_bind.
  { unfold planForGoal, scoringParams, now. spares_steps. }
  intros d. apply spares_bind.
  { unfold strategy_override. destruct (ap_strategy ap); [|apply spares_ret]. apply spares_bind.
    - destruct (ap_strategyLearning ap); [by eauto|apply spares_ret].
    - intros l. by eauto. }
  intros so. cbv zeta. apply spares_bind.
  { unfold exploration_decision. destruct (ap_exploration ap); [by eauto|apply spares_ret]. }
  intros ed. apply spares_bind; [spares_steps|]. intros _. case_bool_decide; [apply spares_ret|].
  apply spares_bind; [spares_steps|]. intros _. apply spares_bind; [apply spares_resolveActions|]. intros acts. apply spares_ret.
Qed.

Lemma spares_Journal_Save cycleID ds : spares (Journal_Save (X := X) env cycleID ds).
Proof using JM JO.
  induction ds as [|d ds IH]; cbn [Journal_Save]; [apply spares_ret|]. destruct (negb _); [apply spares_ret|].
  apply spares_bind; [apply spares_fresh|]. intros id. apply spares_bind; [apply spares_reading|]. intros t.
  apply spares_bind; [|intros [e|]; [apply spares_ret|done]].
  apply spares_bind; [|intros r; apply spares_ret]. apply spares_statement. intros P0 O0 db a db'. unfold stmt_on, insert_planned.
  destruct (existsb _ _); [done|]. intros [= <- <-] [H1 H2]. split.
  - by rewrite (apart (P := JP) (Q := MP)).
  - rewrite (apart (P := JP) (Q := OP)). exact H2.
Qed.

Lemma spares_PlanActions goals : spares (PlanActions env ap goals).
Proof using ML JM JO providers deployed.
  unfold PlanActions. apply spares_bind; [apply spares_planning_context|]. intros px.
  apply spares_bind; [apply spares_plan_goals|]. intros [ds acts]. apply spares_bind; [apply spares_provider|]. intros _.
  apply spares_bind; [|intros _; apply spares_ret]. destruct ds; [apply spares_ret|].
  destruct (ap_journal ap); [|apply spares_ret]. apply spares_bind; [apply spares_fresh|]. intros id.
  apply spares_dropped, spares_Journal_Save.
Qed.

Lemma spares_filter_safe planned : spares (filter_safe env feedback stability auditor planned).
Proof using providers.
  destruct providers. induction planned as [|a planned IH]; cbn [filter_safe]; [apply spares_ret|].
  apply spares_bind; [|intros v; apply spares_bind; [unfold auditAction; spares_steps|intros _; apply spares_bind; [done|intros l; apply spares_ret]]].
  unfold EvaluateSafety, or_else, ask_guard. apply spares_bind; [repeat case_match; by eauto with spares|].
  intros [|]; [apply spares_ret|]. apply spares_bind; [repeat case_match; by eauto with spares|].
  unfold duplicate_reason, isRecentDuplicate, load_reason, isSystemOverloaded, retries_reason, tooManyRecentRetries, now.
  spares_steps.
Qed.

Lemma spares_execute_all safe :
  Forall (fun a => ∃ g, engine_goal g ∧ plain_for g a) safe →
  spares (execute_all env base client_Do auditor (Some (HandleOutcome env h)) safe).
Proof using ML MO OL OM recorders.
  induction 1 as [|a safe (g & Hg & Ha) _ IH]; cbn [execute_all]; [apply spares_ret|].
  apply spares_bind; [unfold ExecuteAction, post_action, doPost, finish, now; spares_steps|]. intros r.
  apply spares_bind; [unfold RecordExecution, now; spares_steps|]. intros _.
  apply spares_bind; [|intros _; apply spares_bind; [done|intros rs; apply spares_ret]].
  unfold settle, evaluateOutcome, auditAction. repeat case_bool_decide; try (spares_steps; fail).
  apply spares_bind; [spares_steps|]. intros _. apply spares_dropped. by eapply spares_HandleOutcome.
Qed.

Lemma Goals_Evaluate_engine :
  returns (Goals_Evaluate env : W (res (list Goal))) (fun r => ∀ goals, r = Ok goals → Forall engine_goal goals).
Proof using.
  unfold Goals_Evaluate. eapply returns_bind; [apply returns_any|]. intros [snap|e] _; [|by apply returns_ret].
  eapply returns_bind; [apply returns_any|]. intros t _. apply returns_ret. intros ? [= <-].
  unfold by_priority. rewrite insertionSort_perm. apply EvaluateSystem_engine.
Qed.

Lemma wrapped_returns {A} what (c : W (res A)) (P : A → Prop) :
  returns c (fun r => ∀ a, r = Ok a → P a) → returns (wrapped what c) (fun r => ∀ a, r = Ok a → P a).
Proof using. intros Hc. eapply returns_bind; [exact Hc|]. intros [a|e] H; apply returns_ret; [|done]. by intros ? [= <-]; apply H. Qed.

(** C29: What the deployed learning loop cannot learn.  The planner never knows the
    provider of an action and writes the one routing selected under a name the
    outcome handler does not read, and no goal the goal engine derives is of a
    kind that utility is defined for: whatever happens in an action cycle, with
    any strategy, exploration and recorders, the provider-context memory does not
    change, and every outcome stored has no value and a utility of zero or less. *)
Theorem learning_never_pays (s : Agent D X) :
  let s' := snd (RunCycle env feedback stability base client_Do auditor (PlanActions env ap)
                   (Some (HandleOutcome env h)) s) in
  mt_providers (part (ag_db s')) = mt_providers (part (ag_db s)) ∧
  ∀ o, o ∈ (part (ag_db s') : Outcomes) → o ∈ (part (ag_db s) : Outcomes) ∨ worthless o.
Proof using ML OL MO OM JM JO recorders providers deployed.
  set (c := RunCycle _ _ _ _ _ _ _ _).
  assert (HK : spares c).
  { apply spares_bind; [apply spares_fresh|]. intros cycleID. unfold then_ok at 1.
    eapply spares_bind_returns; [apply spares_wrapped, spares_Goals_Evaluate|apply wrapped_returns, Goals_Evaluate_engine|].
    intros [goals|e] Hg; [|apply spares_ret]. specialize (Hg goals eq_refl).
    destruct goals as [|g goals]; [unfold now; spares_steps|]. unfold then_ok.
    eapply spares_bind_returns; [apply spares_wrapped, spares_PlanActions|apply wrapped_returns, PlanActions_plain|].
    { rewrite deployed. intros r [= <-]. apply static_resolver_bare. }
    intros [planned|e] Hp; [|apply spares_ret]. specialize (Hp planned eq_refl).
    apply spares_bind; [|intros report; apply spares_ret]. unfold run_planned.
    apply spares_bind; [apply spares_reading|]. intros t.
    apply spares_bind; [apply spares_forS; intros a; unfold auditAction; spares_steps|]. intros _.
    eapply (spares_bind_returns (fun vs => map fst vs = planned)); [apply spares_filter_safe| |].
    { clear. induction planned as [|a planned IH]; cbn [filter_safe]; [by apply returns_ret|].
      eapply returns_bind; [apply returns_any|]. intros v _. eapply returns_bind; [apply returns_any|]. intros _ _.
      eapply returns_bind; [exact IH|]. intros vs <-. by apply returns_ret. }
    intros vs Hvs. apply spares_bind; [|intros rs; apply spares_ret]. apply spares_execute_all.
    apply list.Forall_forall. intros a Ha. assert (a ∈ planned) as Hin.
    { rewrite <- Hvs. unfold safe_actions in Ha. apply list_elem_of_omap in Ha as ([b v] & Hb & Hv).
      destruct v; [done|]. injection Hv as ->. by apply (list_elem_of_fmap_2 fst) in Hb. }
    rewrite list.Forall_forall in Hp. destruct (Hp a Hin) as (g' & Hg' & Ha'). exists g'. split; [|done]. by apply (proj1 (list.Forall_forall _ _) Hg). }
  apply (HK _ _ s). split; [done|]. auto.
Qed.
End loop.
