(* ===== verification/AgentCycleDemo.v ===== *)
(** * The action cycle on concrete tables

    Witnesses of the theorems on action memory, the action engine, the tactical
    planner and the learning loop, and cycles in which the code departs from its
    comments. *)

From stdpp Require Import base gmap strings list tactics numbers fin_maps.
From Stdlib Require Import ZArith Lia.
From S2P Require Import Prelude GoFloat GoSort Models JobQueue GoTime AgentWorld Fixtures.
From S2P Require Import ActionMemory ActionEngine ActionEngineProps TacticalPlanner TacticalProps Outcome LearningLoop.

Open Scope Z_scope.

#[local] Existing Instance demo_uuid.
#[local] Instance demo_nil : UuidNil := 0.
#[local] Existing Instance postgres.

(** A server that prepares every statement. *)
Definition lenient : PgPrepare := fun _ => None.

(** ** A database and a process *)

Record Tables := mkTables { tb_memory : MemoryTables; tb_journal : Journal; tb_outcomes : Outcomes }.

Record Process := mkProcess {
  ps_guard : Guard;
  ps_decisions : list PlanningDecision;
  ps_posts : list string    (* what was posted *)
}.

#[local] Instance memory_part : Part MemoryTables Tables :=
  { part := tb_memory; put_part m db := mkTables m (tb_journal db) (tb_outcomes db) }.
#[local] Instance journal_part : Part Journal Tables :=
  { part := tb_journal; put_part j db := mkTables (tb_memory db) j (tb_outcomes db) }.
#[local] Instance outcomes_part : Part Outcomes Tables :=
  { part := tb_outcomes; put_part o db := mkTables (tb_memory db) (tb_journal db) o }.
#[local] Instance guard_part : Part Guard Process :=
  { part := ps_guard; put_part g x := mkProcess g (ps_decisions x) (ps_posts x) }.
#[local] Instance decisions_part : Part (list PlanningDecision) Process :=
  { part := ps_decisions; put_part ds x := mkProcess (ps_guard x) ds (ps_posts x) }.

#[local] Instance memory_part_laws : PartLaws memory_part.
Proof. by split; intros; repeat match goal with db : Tables |- _ => destruct db end. Defined.
#[local] Instance outcomes_part_laws : PartLaws outcomes_part.
Proof. by split; intros; repeat match goal with db : Tables |- _ => destruct db end. Defined.
#[local] Instance guard_part_laws : PartLaws guard_part.
Proof. by split; intros; repeat match goal with x : Process |- _ => destruct x end. Defined.
#[local] Instance decisions_part_laws : PartLaws decisions_part.
Proof. by split; intros; repeat match goal with x : Process |- _ => destruct x end. Defined.
#[local] Instance memory_outcomes : Apart memory_part outcomes_part := fun _ _ => eq_refl.
#[local] Instance outcomes_memory : Apart outcomes_part memory_part := fun _ _ => eq_refl.
#[local] Instance journal_memory : Apart journal_part memory_part := fun _ _ => eq_refl.
#[local] Instance journal_outcomes : Apart journal_part outcomes_part := fun _ _ => eq_refl.

Abbreviation Cycle A := (St (Agent Tables Process) A).

Definition idle (m : MemoryTables) : Agent Tables Process :=
  mkAgent (mkTables m [] []) (mkProcess ∅ [] []) 0 0 [] [].

(** ** A pipeline

    Eleven jobs wait for a retry and one of six finished jobs is dead: two goals,
    and both ask for retries. *)
Definition pipeline_job (id : Z) (status : JobStatus) (attempts : Z) : ProcessingJob :=
  mkJob id 7 "llm_rewrite" status 5 None attempts 3 "{}" None None None None None None demo_now demo_now.

Definition pipeline_jobs : list ProcessingJob :=
  map (fun n => pipeline_job (Z.of_nat n) JobStatusRetryScheduled 1) (seq 1 11)
  ++ map (fun n => pipeline_job (Z.of_nat n) JobStatusSucceeded 1) (seq 20 10)
  ++ map (fun n => pipeline_job (Z.of_nat n) JobStatusDeadLetter 3) (seq 40 2).

Definition busy : Pipeline :=
  mkPipeline (demo_db <| processing_jobs := list_to_map (map (fun j => (job_ID j, j)) pipeline_jobs) |>) [].

Definition around (p : Pipeline) : Surroundings :=
  mkSurroundings (fun n => demo_now + Z.of_nat n * 1000000) (fun _ => p) (fun n => n) (fun _ => f0) (fun _ => "").

(** The API takes every request. *)
Definition api (url : string) : St Process (res Z) := fun x =>
  (Ok 200, mkProcess (ps_guard x) (ps_decisions x) (ps_posts x ++ [url])).

Definition deployed_planner (env : Surroundings) : AdaptivePlanner (D := Tables) (X := Process) :=
  mkPlanner (Some (static_resolver env)) true true None None None None.

Definition plain_handler : Handler (D := Tables) (X := Process) :=
  mkHandler true true None None None None None None None None None.

Definition cycle {PP : PgPrepare} (ap : AdaptivePlanner) : Cycle (res CycleReport) :=
  RunCycle (around busy) (Some (ShouldAvoid (en_rows (around busy)))) None "http://api" api true
    (PlanActions (around busy) ap) (Some (HandleOutcome (around busy) plain_handler)).

Definition plain_cycle : Cycle (res CycleReport) := cycle (deployed_planner (around busy)).

(** ** Action memory *)

Definition job_outcome (status : string) (job : uuid) : Recording :=
  RecOutcome (mkOutcomeInput "retry_job" "job" job status).

Definition demo_recordings : list Recording :=
  [job_outcome "success" 1; job_outcome "failure" 2; job_outcome "success" 1;
   RecContext (mkContextInput (mkContextKey "retry_job" "reduce_retry_rate" "" "low" "low") "success");
   RecProvider (mkProviderInput (mkProviderKey "retry_job" "reduce_retry_rate" "" "p" "" "low" "low") "failure")].

Definition remembered_runs (m : MemoryTables) : list Z * list Z * list Z * list Z :=
  let runs {K} (row : MemoryRow K) := rs_TotalRuns (mr_Stats row) in
  (map runs (mt_actions m), map runs (mt_targets m), map runs (mt_contexts m), map runs (mt_providers m)).

Definition record_all {PP : PgPrepare} : Cycle unit :=
  forS (fun r => dropped (record_outcome (en_clock (around busy)) r)) demo_recordings.

Definition recorded {PP : PgPrepare} (faults : list Fault) : MemoryTables :=
  tb_memory (ag_db (snd (record_all ((idle empty_memory) <| ag_faults := faults |>)))).

(** Nothing is counted.  Were the statements accepted, everything would be, but
    for the target of the first call when its second statement is lost. *)
Example demo_recorded :
  (remembered_runs (recorded []), remembered_runs (recorded (PP := lenient) []),
   remembered_runs (recorded (PP := lenient) [NoFault; FaultBefore (Errorf "connection lost")]))
  = (([], [], [], []), ([3], [2; 1], [1], [1]), ([3], [1; 1], [1], [1])).
Proof. vm_compute. reflexivity. Qed.

(** The server's words. *)
Example demo_refusal :
  fst (Memory_Update (en_clock (around busy)) (mkOutcomeInput "retry_job" "job" 1 "success") (idle empty_memory))
  = Some (wrap "upsert aggregate: " (Errorf "inconsistent types deduced for parameter $4")).
Proof. vm_compute. reflexivity. Qed.

Lemma memory_stays_empty_witness :
  tb_memory (ag_db (snd (record_all (idle empty_memory)))) = empty_memory ∧
  fst (ShouldAvoid (fun n => n) "retry_job" (snd (record_all (idle empty_memory)))) = None.
Proof.
  destruct (memory_stays_empty (MP := memory_part) (en_clock (around busy)) demo_recordings (idle empty_memory))
    as (_ & H1 & H2). change (forS _ demo_recordings) with record_all in H1, H2.
  split; [exact (f_equal tb_memory H1)|]. exact (proj1 (H2 eq_refl (fun n => n) "retry_job"
    (mkContextKey "" "" "" "" "") (mkProviderKey "" "" "" "" "" "" "") "")).
Defined.

(** ** The cycle *)

Definition summary (r : res CycleReport) : option (nat * nat * nat * nat) :=
  match r with
  | Ok rep => Some (length (cr_Planned rep), length (cr_Rejected rep), length (cr_Executed rep), length (cr_Failed rep))
  | Err _ => None
  end.

(** The guardrails check every action before any is executed: two goals ask for
    the same ten retries, and each is posted twice within the cycle.  The next
    cycle is refused. *)
Example retries_twice :
  let '(r, s) := plain_cycle (idle empty_memory) in
  let '(r', s') := plain_cycle s in
  (summary r, summary r', take 10 (ps_posts (ag_ext s)) = drop 10 (ps_posts (ag_ext s)), length (ps_posts (ag_ext s')))
  = (Some (20, 0, 20, 0), Some (20, 20, 0, 0), take 10 (ps_posts (ag_ext s)) = take 10 (ps_posts (ag_ext s)), 20)%nat.
Proof. vm_compute. reflexivity. Qed.

(** The planner without feedback, in the same engine. *)
Definition static_cycle : Cycle (res CycleReport) :=
  RunCycle_ (around busy) None None "http://api" api true
    (fun goals => let! l := static_PlanActions (around busy) goals in retS (Ok l)) None.

Lemma cycle_accounts_witness :
  ∃ report, fst (static_cycle (idle empty_memory)) = Ok report ∧
    (length (cr_Rejected report) + length (cr_Executed report) + length (cr_Failed report) = length (cr_Planned report))%nat.
Proof.
  assert (Hok : ∃ report, fst (static_cycle (idle empty_memory)) = Ok report) by (vm_compute; eexists; reflexivity).
  destruct Hok as (report & Hr). exists report. split; [exact Hr|].
  pose proof (cycle_accounts (around busy) None None (fun p actionType (H : None = Some p) => ltac:(discriminate H))
    (fun p actionType (H : None = Some p) => ltac:(discriminate H)) "http://api" api true
    (fun goals => let! l := static_PlanActions (around busy) goals in retS (Ok l)) None (fun url x => eq_refl)
    (fun goals => inert_static (around busy) goals)
    (fun h a r (H : None = Some h) => ltac:(discriminate H)) (idle empty_memory)) as H.
  change (RunCycle_ _ _ _ _ _ _ _ _) with static_cycle in H.
  destruct (static_cycle (idle empty_memory)) as [r s']. cbn [fst] in Hr. rewrite Hr in H.
  destruct H as (vs & rs & _ & _ & _ & _ & _ & Hcount & _). exact Hcount.
Defined.

(** ** The planner *)

Definition two_goals : list Goal := EvaluateSystem
  (mkSystemSnapshot (queue_stats busy) 12 0 2 10 0 0 0 f0) demo_now.

Lemma planner_chooses_best_witness :
  map pd_SelectedActionType (ps_decisions (ag_ext (snd
    (PlanActions (around busy) (deployed_planner (around busy)) two_goals (idle empty_memory))))) = ["retry_job"; "retry_job"] ∧
  length (ps_decisions (ag_ext (snd
    (PlanActions (around busy) (deployed_planner (around busy)) two_goals (idle empty_memory))))) = length two_goals.
Proof.
  split; [vm_compute; reflexivity|].
  pose proof (planner_chooses_best (around busy) (deployed_planner (around busy)) two_goals (idle empty_memory)) as H.
  destruct (PlanActions _ _ _ _) as [r s']. destruct H as (px & ds & accs & _ & <- & H & _).
  symmetry. exact (Forall2_length _ _ _ H).
Defined.

(** Exploration replaces the action the strategy chose, and the action executed
    still carries the strategy's path. *)
Definition insistent : AdaptivePlanner (D := Tables) (X := Process) :=
  mkPlanner (Some (static_resolver (around busy))) true true None
    (Some (fun _ _ => retS (mkExploration true "log_recommendation" "novelty")))
    (Some (fun _ _ _ => retS (mkOverride true "retry_job" "s-1" "direct_retry" "best path" "retry_job" ["retry_job"] 1
                                "d-1" "graph" (lit 8 10) "provider-1" "model-1"))) None.

Definition planned_with (ap : AdaptivePlanner) : list (string * string * string) :=
  match fst (PlanActions (around busy) ap two_goals (idle empty_memory)) with
  | Ok acts => map (fun a => (act_Type a, param_string "_ctx_path_signature" (act_Params a),
                              param_string "_ctx_provider" (act_Params a))) acts
  | Err _ => []
  end.

Example tags_outlive_the_override :
  planned_with insistent = [("log_recommendation", "retry_job", "provider-1"); ("log_recommendation", "retry_job", "provider-1")].
Proof. vm_compute. reflexivity. Qed.

(** Candidates after the selected one are not looked at, and not marked. *)
Example unmarked_candidates :
  let px := (empty_context demo_now) <| px_RecentActionFeedback :=
              {[ "retry_job" := mkActionFeedback "retry_job" f0 f1 10 RecommendAvoidAction demo_now ]} |> in
  let params := mkScoringParams (lit 90 100) (lit 25 100) (lit 30 100) (lit 15 100) (lit 5 100) (lit 20 100) in
  let g := mkGoal "g" "reduce_retry_rate" (lit 1 10) f1 "" demo_now in
  map (fun c => (pc_ActionType c, fleb (pc_Score c) f0, pc_Rejected c)) (pd_Candidates (decide_goal g px params demo_now))
  = [("log_recommendation", false, false); ("noop", false, false); ("retry_job", true, false)].
Proof. vm_compute. reflexivity. Qed.

(** ** The learning loop *)

(** The strategy routes every action to a provider, and the jobs succeed once the
    guardrails are done. *)
Definition recovered : Pipeline :=
  mkPipeline ((pl_db busy) <| processing_jobs := (fun j =>
    if bool_decide (job_Status j = JobStatusRetryScheduled) then j <| job_Status := JobStatusSucceeded |> else j)
    <$> processing_jobs (pl_db busy) |>) [].

Definition improving : Surroundings :=
  mkSurroundings (en_clock (around busy)) (fun n => if (n <? 100)%nat then busy else recovered) (fun n => n)
    (fun _ => f0) (fun _ => "").

Definition routed : AdaptivePlanner (D := Tables) (X := Process) :=
  mkPlanner (Some (static_resolver improving)) true true None None (ap_strategy insistent) None.

Definition routed_cycle {PP : PgPrepare} : Cycle (res CycleReport) :=
  RunCycle improving (Some (ShouldAvoid (en_rows improving))) None "http://api" api true
    (PlanActions improving routed) (Some (HandleOutcome improving plain_handler)).

(** Twenty successes of no value, that the memory does not hear of; and were its
    statements accepted, it would not hear of their provider. *)
Example successes_of_no_value :
  let learned {PP : PgPrepare} :=
    let db := ag_db (snd (routed_cycle (idle empty_memory))) in
    (remembered_runs (tb_memory db), length (tb_outcomes db),
     forallb (fun o => bool_decide (ao_OutcomeStatus o = "success") && feqb (ao_UtilityScore o) f0) (tb_outcomes db)) in
  learned (PP := postgres) = (([], [], [], []), 20%nat, true) ∧
  learned (PP := lenient) = (([20], [2; 2; 2; 2; 2; 2; 2; 2; 2; 2], [10; 10], []), 20%nat, true).
Proof. vm_compute. auto. Qed.

Lemma learning_never_pays_witness :
  mt_providers (tb_memory (ag_db (snd (routed_cycle (idle empty_memory))))) = [] ∧
  ∀ o, o ∈ tb_outcomes (ag_db (snd (routed_cycle (idle empty_memory)))) → worthless o.
Proof.
  destruct (learning_never_pays improving plain_handler) with
    (feedback := Some (ShouldAvoid (D := Tables) (X := Process) (en_rows improving)))
    (stability := @None (string → Cycle (option string))) (base := "http://api") (client_Do := api) (auditor := true) (ap := routed)
    (s := idle empty_memory) as [H1 H2].
  - split; intros; discriminate.
  - split; try (intros; discriminate).
    + intros p [= <-] t. apply spares_ShouldAvoid.
    + intros p [= <-] d fb l. apply spares_ret.
  - reflexivity.
  - change (RunCycle _ _ _ _ _ _ _ _) with routed_cycle in H1, H2. revert H1 H2.
    generalize (snd (routed_cycle (idle empty_memory))). intros s' H1 H2.
    split; [exact H1|]. intros o Ho. destruct (H2 o Ho) as [H|H]; [|exact H]. exfalso. exact (not_elem_of_nil o H).
Defined.
