(* ===== verification/DecisionGraph.v ===== *)
(** * Decision graphs ([internal/agent/decision_graph])

    A goal's candidate actions are the roots of a layered graph whose deeper
    nodes follow a table of transitions; every walk from a root is a plan the
    selector may choose, of which only the first action is executed.  Modelled
    here: the types ([types.go]) and the construction and enumeration
    ([builder.go]). *)

From stdpp Require Import base gmap strings list tactics numbers fin_maps pretty.
From Stdlib Require Import ZArith Lia.
From S2P Require Import Prelude GoFloat.

Open Scope Z_scope.

(** ** Types *)

Record DecisionNode := mkNode {
  dn_ID : string;
  dn_ActionType : string;
  dn_ExpectedValue : float64;
  dn_Risk : float64;
  dn_Confidence : float64
}.

Record DecisionEdge := mkEdge { de_From : string; de_To : string }.

Record DecisionGraph := mkGraph {
  dg_GoalType : string;
  dg_Nodes : list DecisionNode;
  dg_Edges : list DecisionEdge;
  dg_MaxDepth : Z
}.

Record DecisionPath := mkPath {
  dp_Nodes : list DecisionNode;
  dp_TotalValue : float64;
  dp_TotalRisk : float64;
  dp_TotalConfidence : float64;
  dp_FinalScore : float64
}.

Record GraphConfig := mkGraphConfig {
  gc_MaxDepth : Z;
  gc_StabilityMode : string;
  gc_ShouldExplore : bool;
  gc_LongPathPenalty : float64
}.

#[export] Instance DecisionGraph_settable : Settable DecisionGraph := fun r =>
  mkGraph (dg_GoalType r) (dg_Nodes r) (dg_Edges r) (dg_MaxDepth r).
#[export] Instance DecisionPath_settable : Settable DecisionPath := fun r =>
  mkPath (dp_Nodes r) (dp_TotalValue r) (dp_TotalRisk r) (dp_TotalConfidence r) (dp_FinalScore r).
#[export] Instance GraphConfig_settable : Settable GraphConfig := fun r =>
  mkGraphConfig (gc_MaxDepth r) (gc_StabilityMode r) (gc_ShouldExplore r) (gc_LongPathPenalty r).

(** [DecisionPath{Nodes: ns}] *)
Definition new_path (ns : list DecisionNode) : DecisionPath := mkPath ns f0 f0 f0 f0.

Definition DefaultGraphConfig : GraphConfig := mkGraphConfig 3 "normal" false (lit 15 100).

Definition EffectiveMaxDepth (gc : GraphConfig) : Z :=
  if bool_decide (gc_StabilityMode gc = "safe_mode") then 1
  else if bool_decide (gc_MaxDepth gc < 1) then 3
  else gc_MaxDepth gc.

Definition MaxNodeCount : Z := 20.

Record ActionSignals := mkSignals {
  as_ExpectedValue : float64;
  as_Risk : float64;
  as_Confidence : float64
}.

#[export] Instance ActionSignals_settable : Settable ActionSignals := fun r =>
  mkSignals (as_ExpectedValue r) (as_Risk r) (as_Confidence r).

Definition zero_signals : ActionSignals := mkSignals f0 f0 f0.

(** [Transitions] is nil when absent. *)
Record BuildInput := mkBuildInput {
  bi_GoalType : string;
  bi_CandidateActions : list string;
  bi_Signals : gmap string ActionSignals;
  bi_Transitions : option (gmap string (list string));
  bi_Config : GraphConfig
}.

(** ** Identifiers *)

(** [fmt.Sprintf("%s:%s:%d", goal, action, depth)] *)
Definition node_id (goal action : string) (depth : Z) : string :=
  goal +:+ ":" +:+ action +:+ ":" +:+ pretty depth.

(** [s[k:]] *)
Fixpoint str_from (k : nat) (s : string) : string :=
  match k, s with
  | S k, String _ s => str_from k s
  | _, _ => s
  end.

Definition ends_with (suffix s : string) : bool :=
  bool_decide (str_from (String.length s - String.length suffix) s = suffix).

Definition isDepth1 (id : string) : bool :=
  bool_decide (2 ≤ String.length id)%nat && ends_with ":1" id.

Definition nodesAtDepth (nodes : list DecisionNode) (depth : Z) : list DecisionNode :=
  let suffix := ":" +:+ pretty depth in
  List.filter (fun n => bool_decide (String.length suffix < String.length (dn_ID n))%nat
                        && ends_with suffix (dn_ID n)) nodes.

Definition nodeExists (nodes : list DecisionNode) (id : string) : bool :=
  existsb (fun n => bool_decide (dn_ID n = id)) nodes.

(** ** Construction *)

(** An action without signals has zero ones. *)
Definition new_node (goal action : string) (depth : Z) (signals : gmap string ActionSignals) : DecisionNode :=
  let sig := default zero_signals (signals !! action) in
  mkNode (node_id goal action depth) action (as_ExpectedValue sig) (as_Risk sig) (as_Confidence sig).

Definition defaultTransitions (goalType : string) : gmap string (list string) :=
  if bool_decide (goalType = "reduce_retry_rate") || bool_decide (goalType = "investigate_failed_jobs")
  then list_to_map [("retry_job", ["log_recommendation"]);
                    ("log_recommendation", ["retry_job"]); ("noop", [])]
  else if bool_decide (goalType = "resolve_queue_backlog")
  then list_to_map [("trigger_resync", ["log_recommendation"]);
                    ("log_recommendation", ["trigger_resync"]); ("noop", [])]
  else list_to_map [("log_recommendation", []); ("noop", [])].

Section construction.
Context (transitions : gmap string (list string)) (signals : gmap string ActionSignals).

(** The loop over a parent's successors; [true] when the node limit has made the
    whole construction return. *)
Fixpoint add_successors (depth : Z) (parent : DecisionNode) (successors : list string) (g : DecisionGraph)
    : DecisionGraph * bool :=
  match successors with
  | [] => (g, false)
  | next :: rest =>
      if bool_decide (MaxNodeCount ≤ Z.of_nat (length (dg_Nodes g))) then (g, true)
      else
        let childID := node_id (dg_GoalType g) next depth in
        let g1 := if nodeExists (dg_Nodes g) childID then g
                  else g <| dg_Nodes := dg_Nodes g ++ [new_node (dg_GoalType g) next depth signals] |> in
        add_successors depth parent rest
          (g1 <| dg_Edges := dg_Edges g1 ++ [mkEdge (dn_ID parent) childID] |>)
  end.

Fixpoint add_children (depth : Z) (parents : list DecisionNode) (g : DecisionGraph) : DecisionGraph * bool :=
  match parents with
  | [] => (g, false)
  | parent :: rest =>
      match transitions !! dn_ActionType parent with
      | None => add_children depth rest g
      | Some successors =>
          match add_successors depth parent successors g with
          | (g1, true) => (g1, true)
          | (g1, false) => add_children depth rest g1
          end
      end
  end.

(** [n] levels, the first at [depth]. *)
Fixpoint add_levels (depth1Nodes : list DecisionNode) (n : nat) (depth : Z) (g : DecisionGraph) : DecisionGraph :=
  match n with
  | O => g
  | S n =>
      let parents := if bool_decide (depth = 2) then depth1Nodes
                     else nodesAtDepth (dg_Nodes g) (depth - 1) in
      match add_children depth parents g with
      | (g1, true) => g1
      | (g1, false) => add_levels depth1Nodes n (depth + 1) g1
      end
  end.

Definition buildDeepNodes (graph : DecisionGraph) (maxDepth : Z) : DecisionGraph :=
  add_levels (dg_Nodes graph) (Z.to_nat (maxDepth - 1)) 2 graph.
End construction.

(** The transitions a construction follows. *)
Definition input_transitions (input : BuildInput) : gmap string (list string) :=
  default (defaultTransitions (bi_GoalType input)) (bi_Transitions input).

Definition root_nodes (input : BuildInput) : list DecisionNode :=
  map (fun a => new_node (bi_GoalType input) a 1 (bi_Signals input)) (bi_CandidateActions input).

Definition BuildGraph (input : BuildInput) : DecisionGraph :=
  let maxDepth := EffectiveMaxDepth (bi_Config input) in
  let empty := mkGraph (bi_GoalType input) [] [] maxDepth in
  match bi_CandidateActions input with
  | [] => empty
  | _ =>
      let graph := empty <| dg_Nodes := root_nodes input |> in
      let graph := if bool_decide (1 < maxDepth)
                   then buildDeepNodes (input_transitions input) (bi_Signals input) graph maxDepth
                   else graph in
      if bool_decide (MaxNodeCount < Z.of_nat (length (dg_Nodes graph)))
      then graph <| dg_Nodes := take (Z.to_nat MaxNodeCount) (dg_Nodes graph) |>
      else graph
  end.

(** ** Enumeration *)

Definition adjacency (edges : list DecisionEdge) : gmap string (list string) :=
  fold_left (fun adj e => <[de_From e := default [] (adj !! de_From e) ++ [de_To e]]> adj) edges ∅.

Definition index_nodes (nodes : list DecisionNode) : gmap string DecisionNode :=
  fold_left (fun idx n => <[dn_ID n := n]> idx) nodes ∅.

(** The recursion goes one level deeper in the graph at each call: it ends on
    an acyclic graph, within as many levels as the fuel. *)
Section enumeration.
Context (adj : gmap string (list string)) (nodeIndex : gmap string DecisionNode).

(** The loop over the children of the last node. *)
Fixpoint for_children (visit : DecisionNode → list DecisionPath → option (list DecisionPath))
    (children : list string) (paths : list DecisionPath) : option (list DecisionPath) :=
  match children with
  | [] => Some paths
  | childID :: rest =>
      match nodeIndex !! childID with
      | None => for_children visit rest paths
      | Some child =>
          match visit child paths with
          | Some paths1 => for_children visit rest paths1
          | None => None
          end
      end
  end.

Fixpoint enumerateFrom (fuel : nat) (current : list DecisionNode) (paths : list DecisionPath)
    : option (list DecisionPath) :=
  match fuel, last current with
  | S fuel, Some l =>
      match default [] (adj !! dn_ID l) with
      | [] => Some (paths ++ [new_path current])
      | children =>
          for_children (fun child => enumerateFrom fuel (current ++ [child])) children
            (paths ++ [new_path current])
      end
  | _, _ => None
  end.

Fixpoint enumerate_roots (fuel : nat) (roots : list DecisionNode) (paths : list DecisionPath)
    : option (list DecisionPath) :=
  match roots with
  | [] => Some paths
  | root :: rest =>
      match enumerateFrom fuel [root] paths with
      | Some paths1 => enumerate_roots fuel rest paths1
      | None => None
      end
  end.
End enumeration.

Definition EnumeratePaths (fuel : nat) (graph : DecisionGraph) : option (list DecisionPath) :=
  let roots := List.filter (fun n => isDepth1 (dn_ID n)) (dg_Nodes graph) in
  enumerate_roots (adjacency (dg_Edges graph)) (index_nodes (dg_Nodes graph)) fuel roots [].

(** As many levels as the graph was built with. *)
Definition graph_paths (graph : DecisionGraph) : option (list DecisionPath) :=
  EnumeratePaths (Z.to_nat (dg_MaxDepth graph)) graph.
