(* ===== verification/DecisionGraphProps.v ===== *)
(** * Correctness of decision graphs

    The last colon of an identifier separates the depth, so that within a goal an
    identifier determines the action and the depth, and the suffix tests of
    [builder.go] read the depth of a node whatever colons its action holds.  So the
    graph is the unrolling of the transitions to the configured depth, and its
    enumeration ends with the plans of at most that many actions: all of them
    while the graph stays below its limit of nodes. *)

From stdpp Require Import base gmap strings list tactics numbers pretty fin_maps.
From Stdlib Require Import ZArith Lia Ascii.
From S2P Require Import Prelude GoFloat DecisionGraph.

Open Scope Z_scope.

(** ** Identifiers *)

(** ** Suffixes *)

Lemma str_from_app t s : str_from (String.length t) (t +:+ s) = s.
Proof. induction t as [|c t IH]; [by destruct s|]. exact IH. Qed.

Lemma str_from_split k s : (k ≤ String.length s)%nat →
  ∃ t, String.length t = k ∧ s = t +:+ str_from k s.
Proof.
  revert s. induction k as [|k IH]; intros s Hk; [by exists ""; destruct s|].
  destruct s as [|c s]; cbn in Hk; [lia|]. destruct (IH s) as (t & Ht & E); [lia|].
  exists (String c t). cbn. split; [by rewrite Ht|]. by rewrite string_app_cons, <- E.
Qed.

Lemma string_length_app (s t : string) : String.length (s +:+ t) = (String.length s + String.length t)%nat.
Proof. induction s as [|c s IH]; [done|]. rewrite string_app_cons. cbn [String.length]. by rewrite IH. Qed.

Lemma ends_with_iff suffix s : (String.length suffix ≤ String.length s)%nat →
  ends_with suffix s = true ↔ ∃ t, s = t +:+ suffix.
Proof.
  intros Hl. unfold ends_with. rewrite bool_decide_eq_true. split.
  - intros E. destruct (str_from_split (String.length s - String.length suffix) s) as (t & _ & Hs); [lia|].
    exists t. by rewrite <- E.
  - intros [t ->]. rewrite string_length_app, Nat.add_sub. apply str_from_app.
Qed.

(** ** The last colon *)

Definition colon : ascii := ascii_of_nat 58.

Fixpoint colonless (s : string) : bool :=
  match s with
  | "" => true
  | String c s => negb (bool_decide (c = colon)) && colonless s
  end.

Lemma colonless_app u v : colonless (u +:+ String colon v) = false.
Proof. induction u as [|c u IH]; [done|]. rewrite string_app_cons. cbn. by rewrite IH, andb_false_r. Qed.

Lemma last_colon a b x y : colonless x = true → colonless y = true →
  a +:+ String colon x = b +:+ String colon y → a = b ∧ x = y.
Proof.
  intros Hx Hy. revert b. induction a as [|c a IH]; intros [|d b]; rewrite ?string_app_cons.
  - intros E. by injection E as ->.
  - intros E. injection E as <- ->. by rewrite colonless_app in Hx.
  - intros E. injection E as -> <-. by rewrite colonless_app in Hy.
  - intros E. injection E as -> E. by destruct (IH b E) as [-> ->].
Qed.

Lemma string_app_inj_l a x y : a +:+ x = a +:+ y → x = y.
Proof. induction a as [|c a IH]; [done|]. rewrite !string_app_cons. intros [= E]. by apply IH. Qed.

Lemma pretty_N_go_colonless x s : colonless s = true → colonless (pretty_N_go x s) = true.
Proof.
  revert s. induction (N.lt_wf_0 x) as [x _ IH]; intros s Hs.
  assert (x = 0 ∨ 0 < x)%N as [->|Hx] by lia; [done|].
  rewrite pretty_N_go_step by done. apply IH; [by apply N.div_lt|]. cbn. rewrite Hs.
  unfold pretty_N_char. by repeat case_match.
Qed.

Lemma pretty_colonless (d : Z) : colonless (pretty d) = true.
Proof.
  assert (HN : ∀ p, colonless (pretty (N.pos p)) = true) by (intros p; by apply pretty_N_go_colonless).
  destruct d as [|p|p]; [done|exact (HN p)|]. apply (HN p).
Qed.

(** ** Depths *)

Lemma node_id_split goal action depth :
  node_id goal action depth = (goal +:+ ":" +:+ action) +:+ String colon (pretty depth).
Proof. unfold node_id. by rewrite !string_app_assoc. Qed.

Lemma node_id_inj goal a b d k : node_id goal a d = node_id goal b k → a = b ∧ d = k.
Proof.
  rewrite !node_id_split. intros E.
  apply last_colon in E as [E Ed]; [|apply pretty_colonless..].
  split; [|by apply (inj pretty)]. apply string_app_inj_l in E. by injection E.
Qed.

Lemma node_id_long goal a (d k : Z) :
  (String.length (pretty k) ≤ String.length (pretty d))%nat →
  (String.length (":" +:+ pretty k) < String.length (node_id goal a d))%nat.
Proof. intros H. rewrite node_id_split, !string_length_app. cbn. lia. Qed.

(** A suffix test reads the depth. *)
Lemma ends_with_depth goal a (d k : Z) : ends_with (":" +:+ pretty k) (node_id goal a d) = true → d = k.
Proof.
  intros H. destruct (decide (String.length (":" +:+ pretty k) ≤ String.length (node_id goal a d))%nat) as [Hl|Hl].
  - apply ends_with_iff in H as [t E]; [|done]. rewrite node_id_split in E.
    apply last_colon in E as [_ E]; [|apply pretty_colonless..]. by apply (inj pretty).
  - exfalso. unfold ends_with in H. apply bool_decide_eq_true in H.
    replace (String.length (node_id goal a d) - String.length (":" +:+ pretty k))%nat with O in H by lia.
    replace (str_from 0 (node_id goal a d)) with (node_id goal a d) in H by (by destruct (node_id goal a d)).
    by rewrite H in Hl.
Qed.

Lemma depth_ends_with goal a (d : Z) : ends_with (":" +:+ pretty d) (node_id goal a d) = true.
Proof.
  apply ends_with_iff; [apply Nat.lt_le_incl; by apply node_id_long|].
  exists (goal +:+ ":" +:+ a). apply node_id_split.
Qed.

Lemma isDepth1_iff goal a d : isDepth1 (node_id goal a d) = true ↔ d = 1.
Proof.
  unfold isDepth1. rewrite andb_true_iff. split.
  - intros [_ H]. by apply (ends_with_depth goal a d 1).
  - intros ->. split; [|by apply (depth_ends_with goal a 1)].
    apply bool_decide_eq_true. pose proof (node_id_long goal a 1 1 ltac:(done)) as H.
    assert (E : String.length (":" +:+ pretty 1) = 2%nat) by reflexivity. lia.
Qed.

Lemma elem_of_nodesAtDepth goal a d n nodes k : dn_ID n = node_id goal a d →
  n ∈ nodesAtDepth nodes k ↔ n ∈ nodes ∧ d = k.
Proof.
  intros Hn. unfold nodesAtDepth. rewrite !list_elem_of_In, filter_In, Hn, andb_true_iff, bool_decide_eq_true. split.
  - intros (Hi & _ & H). split; [done|]. by apply (ends_with_depth goal a).
  - intros [Hi ->]. split; [done|]. split; [by apply node_id_long|apply depth_ends_with].
Qed.

(** ** Layers *)

(** ** Layered graphs *)

Definition successors (trans : gmap string (list string)) (a : string) : list string :=
  default [] (trans !! a).

Section layered.
Context (goal : string) (trans : gmap string (list string)) (signals : gmap string ActionSignals).
Implicit Types (a b : string) (d k : Z) (g : DecisionGraph).

Abbreviation node a d := (new_node goal a d signals).
Abbreviation edge a b d := (mkEdge (node_id goal a d) (node_id goal b (d + 1))).

(** Nodes down to depth [k], and edges from each depth to the next. *)
Record layered k g : Prop := {
  ly_goal : dg_GoalType g = goal;
  ly_nodes : ∀ n, n ∈ dg_Nodes g → ∃ a d, n = node a d ∧ 1 ≤ d ≤ k;
  ly_edges : ∀ e, e ∈ dg_Edges g → ∃ a b d, e = edge a b d ∧ b ∈ successors trans a ∧
    node a d ∈ dg_Nodes g ∧ node b (d + 1) ∈ dg_Nodes g
}.

Definition has_edge g a b d : Prop := node b (d + 1) ∈ dg_Nodes g ∧ edge a b d ∈ dg_Edges g.

(** What happens while the children at depth [d + 1] are added. *)
Record extends d g g' : Prop := {
  ex_layered : layered (d + 1) g';
  ex_nodes : ∀ n, n ∈ dg_Nodes g → n ∈ dg_Nodes g';
  ex_edges : ∀ e, e ∈ dg_Edges g → e ∈ dg_Edges g';
  ex_depth : dg_MaxDepth g' = dg_MaxDepth g;
  ex_limit : Z.of_nat (length (dg_Nodes g)) ≤ MaxNodeCount → Z.of_nat (length (dg_Nodes g')) ≤ MaxNodeCount;
  ex_full : MaxNodeCount ≤ Z.of_nat (length (dg_Nodes g)) → g' = g;
  ex_grow : (length (dg_Nodes g) ≤ length (dg_Nodes g'))%nat;
  ex_old : ∀ b k, node b k ∈ dg_Nodes g' → k ≠ d + 1 → node b k ∈ dg_Nodes g
}.

Lemma level_refl d g : layered (d + 1) g → extends d g g.
Proof using. intros H. by constructor. Qed.

Lemma level_trans d g1 g2 g3 : extends d g1 g2 → extends d g2 g3 → extends d g1 g3.
Proof using.
  intros [] []. constructor; eauto; [congruence| |lia].
  intros H. assert (g2 = g1) as -> by auto. auto.
Qed.

Lemma has_edge_extends d g g' a b k : extends d g g' → has_edge g a b k → has_edge g' a b k.
Proof using. intros [] []. split; auto. Qed.

Lemma layered_weaken k k' g : k ≤ k' → layered k g → layered k' g.
Proof using.
  intros Hk [Hg Hn He]. constructor; [done| |done].
  intros n Hi. destruct (Hn n Hi) as (a & d & -> & Hd). exists a, d. split; [done|lia].
Qed.

Lemma node_inj a b d k : node a d = node b k → a = b ∧ d = k.
Proof using. intros E. apply (f_equal dn_ID) in E. by apply node_id_inj in E. Qed.

Lemma layered_depth k g a d : layered k g → node a d ∈ dg_Nodes g → 1 ≤ d ≤ k.
Proof using. intros Hl Hi. destruct (ly_nodes _ _ Hl _ Hi) as (b & c & E & Hc). by apply node_inj in E as [_ ->]. Qed.

(** An identifier determines the node. *)
Lemma layered_by_id k g n a d : layered k g → n ∈ dg_Nodes g → dn_ID n = node_id goal a d → n = node a d.
Proof using. intros Hl Hi E. destruct (ly_nodes _ _ Hl _ Hi) as (b & c & -> & _). by apply node_id_inj in E as [-> ->]. Qed.

Lemma nodeExists_node k g a d : layered k g →
  nodeExists (dg_Nodes g) (node_id goal a d) = true → node a d ∈ dg_Nodes g.
Proof using.
  intros Hl. unfold nodeExists. rewrite existsb_elem. intros (n & Hi & E). apply bool_decide_eq_true in E.
  by rewrite <- (layered_by_id _ _ _ _ _ Hl Hi E).
Qed.

(** ** Construction *)

(** The body of the loop over the successors. *)
Definition linked_graph d a b g : DecisionGraph :=
  let g1 := if nodeExists (dg_Nodes g) (node_id goal b (d + 1)) then g
            else g <| dg_Nodes := dg_Nodes g ++ [node b (d + 1)] |> in
  g1 <| dg_Edges := dg_Edges g1 ++ [edge a b d] |>.

Lemma linked_extends d a b g : 1 ≤ d → layered (d + 1) g → node a d ∈ dg_Nodes g → b ∈ successors trans a →
  Z.of_nat (length (dg_Nodes g)) < MaxNodeCount →
  extends d g (linked_graph d a b g) ∧ has_edge (linked_graph d a b g) a b d.
Proof using.
  intros Hd Hl Ha Hb Hroom. unfold linked_graph.
  set (g1 := if nodeExists _ _ then g else _).
  assert (H1 : extends d g g1 ∧ node b (d + 1) ∈ dg_Nodes g1 ∧ dg_Edges g1 = dg_Edges g).
  { unfold g1. destruct (nodeExists _ _) eqn:E.
    { split; [by apply level_refl|]. split; [|done]. by apply (nodeExists_node (d + 1)). }
    split; [|split; [cbn; rewrite elem_of_app, list_elem_of_singleton; by right|done]].
    destruct Hl as [Hg Hn He]. split; cbn; try done.
    - constructor; cbn; [done| |].
      + intros n. rewrite elem_of_app, list_elem_of_singleton. intros [Hi| ->]; [auto|].
        exists b, (d + 1). split; [done|lia].
      + intros e Hi. destruct (He e Hi) as (x & y & k & -> & Hy & Hx & Hy').
        exists x, y, k. cbn. rewrite !elem_of_app. auto.
    - intros n Hi. cbn. rewrite elem_of_app. by left.
    - intros _. cbn. rewrite length_app. cbn. lia.
    - intros H. lia.
    - cbn. rewrite length_app. lia.
    - intros x k. cbn. rewrite elem_of_app, list_elem_of_singleton. intros [Hi|E'] Hk; [done|].
      by apply node_inj in E' as [_ ->]. }
  destruct H1 as (H1 & Hb1 & He1). pose proof H1 as [[Hg Hn He] Hin Hie Hdep Hlim Hfull Hgrow Hold].
  split; [|split; cbn; [done|rewrite elem_of_app, list_elem_of_singleton; by right]].
  constructor; cbn; auto.
  - constructor; cbn; auto. intros e. rewrite elem_of_app, list_elem_of_singleton. intros [Hi| ->]; [auto|].
    exists a, b, d. auto.
  - intros e Hi. cbn. rewrite elem_of_app. left. by apply Hie.
  - lia.
Qed.

(** What a run of a loop over the children of the nodes [ps] achieves. *)
Definition links (d : Z) (ps : string → Prop) (bs : string → list string) g (r : DecisionGraph * bool) : Prop :=
  extends d g (fst r) ∧
  (if snd r then MaxNodeCount ≤ Z.of_nat (length (dg_Nodes (fst r)))
   else ∀ a b, ps a → b ∈ bs a → has_edge (fst r) a b d).

Lemma add_successors_links d a bs g : 1 ≤ d → layered (d + 1) g → node a d ∈ dg_Nodes g →
  (∀ b, b ∈ bs → b ∈ successors trans a) →
  links d (fun x => x = a) (fun _ => bs) g (add_successors signals (d + 1) (node a d) bs g).
Proof using.
  intros Hd. revert g. induction bs as [|b bs IH]; intros g Hl Ha Hbs; cbn [add_successors].
  { split; [by apply level_refl|]. by intros x y _ []%not_elem_of_nil. }
  case_bool_decide as Hroom; [by split; [apply level_refl|]|].
  destruct (linked_extends d a b g Hd Hl Ha) as [H1 He]; [apply Hbs; by left|lia|].
  rewrite (ly_goal _ _ Hl). change (dn_ID (node a d)) with (node_id goal a d).
  fold (linked_graph d a b g).
  destruct (IH (linked_graph d a b g)) as [H2 H3].
  { apply (ex_layered _ _ _ H1). }
  { by apply (ex_nodes _ _ _ H1). }
  { intros y Hy. apply Hbs. by right. }
  destruct (add_successors _ _ _ bs _) as [g2 [|]]; (split; [by eapply level_trans|]); cbn in *; [done|].
  intros x y -> [->|Hy]%elem_of_cons; [by eapply has_edge_extends|by apply H3].
Qed.

Lemma add_children_links d ps g : 1 ≤ d → layered (d + 1) g →
  (∀ n, n ∈ ps → ∃ a, n = node a d ∧ n ∈ dg_Nodes g) →
  links d (fun a => node a d ∈ ps) (successors trans) g (add_children trans signals (d + 1) ps g).
Proof using.
  intros Hd. revert g. induction ps as [|p ps IH]; intros g Hl Hps; cbn [add_children].
  { split; [by apply level_refl|]. by intros x y []%not_elem_of_nil. }
  destruct (Hps p) as (a & -> & Ha); [by left|].
  assert (Hrest : ∀ g', extends d g g' →
            links d (fun x => node x d ∈ ps) (successors trans) g' (add_children trans signals (d + 1) ps g')).
  { intros g' Hx. apply IH; [apply (ex_layered _ _ _ Hx)|]. intros n Hn.
    destruct (Hps n) as (x & -> & Hi); [by right|]. exists x. split; [done|]. by apply (ex_nodes _ _ _ Hx). }
  change (dn_ActionType (node a d)) with a. destruct (trans !! a) as [bs|] eqn:Ebs.
  - destruct (add_successors_links d a bs g Hd Hl Ha) as [H1 H2].
    { intros b Hb. unfold successors. by rewrite Ebs. }
    destruct (add_successors _ _ _ bs g) as [g1 [|]]; cbn in H1, H2; [by split|].
    destruct (Hrest g1 H1) as [H3 H4].
    split; [by eapply level_trans|]. destruct (add_children _ _ _ ps g1) as [g2 [|]]; cbn in *; [done|].
    intros x y Hx Hy. apply elem_of_cons in Hx as [Hx|Hx]; [|by apply H4].
    apply node_inj in Hx as [-> _]. apply (has_edge_extends d g1); [done|]. apply H2; [done|].
    unfold successors in Hy. by rewrite Ebs in Hy.
  - destruct (Hrest g (level_refl _ _ Hl)) as [H3 H4].
    split; [done|]. destruct (add_children _ _ _ ps g) as [g2 [|]]; cbn in *; [done|].
    intros x y Hx Hy. apply elem_of_cons in Hx as [Hx|Hx]; [|by apply H4].
    apply node_inj in Hx as [-> _]. unfold successors in Hy. rewrite Ebs in Hy. by apply not_elem_of_nil in Hy.
Qed.

(** Every transition out of a node above depth [k] has its edge. *)
Definition closed k g : Prop :=
  ∀ a b d, node a d ∈ dg_Nodes g → d < k → b ∈ successors trans a → has_edge g a b d.

(** What the whole construction below the roots achieves. *)
Record unrolled (g : DecisionGraph) k g' : Prop := {
  un_layered : layered k g';
  un_depth : dg_MaxDepth g' = dg_MaxDepth g;
  un_roots : ∀ a, node a 1 ∈ dg_Nodes g' ↔ node a 1 ∈ dg_Nodes g;
  un_limit : Z.of_nat (length (dg_Nodes g)) ≤ MaxNodeCount → Z.of_nat (length (dg_Nodes g')) ≤ MaxNodeCount;
  un_full : MaxNodeCount ≤ Z.of_nat (length (dg_Nodes g)) → g' = g;
  un_closed : Z.of_nat (length (dg_Nodes g')) < MaxNodeCount → closed k g'
}.

Lemma add_levels_unrolled roots n k g : 1 ≤ k → layered k g → (k = 1 → roots = dg_Nodes g) → closed k g →
  unrolled g (k + Z.of_nat n) (add_levels trans signals roots n (k + 1) g).
Proof using.
  revert k g. induction n as [|n IH]; intros k g Hk Hl Hroots Hcl; cbn [add_levels].
  { rewrite Z.add_0_r. by constructor. }
  set (ps := if bool_decide _ then _ else _).
  assert (Hps : ∀ x, node x k ∈ ps ↔ node x k ∈ dg_Nodes g).
  { intros x. unfold ps. case_bool_decide as E; [by rewrite Hroots by lia|].
    rewrite Z.add_simpl_r, (elem_of_nodesAtDepth goal x k) by done. naive_solver. }
  assert (Hin : ∀ m, m ∈ ps → ∃ a, m = node a k ∧ m ∈ dg_Nodes g).
  { intros m. unfold ps. case_bool_decide as E; [rewrite Hroots by lia|].
    - intros Hm. destruct (ly_nodes _ _ Hl m Hm) as (a & d & -> & Hd).
      exists a. by replace d with k in * by lia.
    - unfold nodesAtDepth. rewrite list_elem_of_In, filter_In, <- list_elem_of_In.
      intros (Hm & Hs). destruct (ly_nodes _ _ Hl m Hm) as (a & d & -> & Hd). exists a.
      apply andb_true_iff in Hs as [_ Hs]. apply (ends_with_depth goal a) in Hs.
      by assert (d = k) as -> by lia. }
  destruct (add_children_links k ps g Hk (layered_weaken k (k + 1) g ltac:(lia) Hl) Hin) as [H1 H2].
  assert (Hroot : ∀ g', extends k g g' → ∀ a, node a 1 ∈ dg_Nodes g' ↔ node a 1 ∈ dg_Nodes g).
  { intros g' Hx a. split; intros Hi; [|by apply (ex_nodes _ _ _ Hx)]. apply (ex_old _ _ _ Hx); [done|lia]. }
  destruct (add_children _ _ _ ps g) as [g1 [|]]; cbn [fst snd] in H1, H2; pose proof H1 as [Hl1 _ _ Hd1 Hlim Hfull _ Hold].
  - constructor; auto; [by apply (layered_weaken (k + 1)); [lia|]|lia].
  - destruct (IH (k + 1) g1) as [H3 H4 H5 H6 H7 H8]; [lia|done|lia| |].
    { intros a b d Ha Hd Hb. destruct (decide (d = k)) as [->|Hne].
      - apply H2; [|done]. apply Hps, Hold; [done|lia].
      - apply (has_edge_extends k g); [done|]. apply Hcl; [apply Hold; [done|lia]|lia|done]. }
    replace (k + Z.of_nat (S n)) with (k + 1 + Z.of_nat n) by lia.
    constructor; auto; [by rewrite H4|intros a; rewrite H5; by apply Hroot|].
    intros Hf. assert (g1 = g) as -> by auto. auto.
Qed.
End layered.

(** ** The whole graph *)

Section build.
Context (input : BuildInput).
Abbreviation goal := (bi_GoalType input).
Abbreviation trans := (input_transitions input).
Abbreviation signals := (bi_Signals input).
Abbreviation cands := (bi_CandidateActions input).
Abbreviation maxDepth := (EffectiveMaxDepth (bi_Config input)).

Lemma maxDepth_pos : 1 ≤ maxDepth.
Proof using. unfold EffectiveMaxDepth. repeat case_bool_decide; lia. Qed.

Lemma elem_of_root_nodes n : n ∈ root_nodes input ↔ ∃ a, n = new_node goal a 1 signals ∧ a ∈ cands.
Proof using.
  unfold root_nodes. rewrite list_elem_of_In, in_map_iff. setoid_rewrite list_elem_of_In. naive_solver.
Qed.

Record built (g : DecisionGraph) : Prop := {
  bu_layered : layered goal trans signals maxDepth g;
  bu_depth : dg_MaxDepth g = maxDepth;
  bu_roots : ∀ a, new_node goal a 1 signals ∈ dg_Nodes g → a ∈ cands;
  bu_limit : Z.of_nat (length (dg_Nodes g)) ≤ MaxNodeCount;
  bu_all_roots : Z.of_nat (length (dg_Nodes g)) < MaxNodeCount →
    ∀ a, a ∈ cands → new_node goal a 1 signals ∈ dg_Nodes g;
  bu_closed : Z.of_nat (length (dg_Nodes g)) < MaxNodeCount → closed goal trans signals maxDepth g
}.

(** The graph before its nodes are cut. *)
Lemma uncut_unrolled :
  let graph := mkGraph goal (root_nodes input) [] maxDepth in
  unrolled goal trans signals graph maxDepth
    (if bool_decide (1 < maxDepth) then buildDeepNodes trans signals graph maxDepth else graph).
Proof using.
  pose proof maxDepth_pos as Hp. intros graph.
  assert (Hl : layered goal trans signals 1 graph).
  { constructor; [done| |by intros e ?%not_elem_of_nil].
    intros n Hn. apply elem_of_root_nodes in Hn as (a & -> & _). exists a, 1. split; [done|lia]. }
  assert (Hc : closed goal trans signals 1 graph).
  { intros a b d Ha Hd. apply (layered_depth _ _ _ _ _ _ _ Hl) in Ha. lia. }
  case_bool_decide as H1.
  - unfold buildDeepNodes.
    pose proof (add_levels_unrolled goal trans signals (dg_Nodes graph) (Z.to_nat (maxDepth - 1)) 1 graph
                  ltac:(lia) Hl (fun _ => eq_refl) Hc) as H.
    by replace (1 + Z.of_nat (Z.to_nat (maxDepth - 1))) with maxDepth in H by lia.
  - replace maxDepth with 1 by lia. by constructor.
Qed.

Lemma BuildGraph_built : built (BuildGraph input).
Proof using.
  unfold BuildGraph. destruct cands as [|c cs] eqn:Ec; rewrite <- ?Ec.
  { pose proof maxDepth_pos. constructor; try done; cbn; try lia.
    - constructor; [done|intros n Hn; by apply not_elem_of_nil in Hn..].
    - intros a Ha. by apply not_elem_of_nil in Ha.
    - intros _ a Ha. rewrite Ec in Ha. by apply not_elem_of_nil in Ha.
    - intros _ a b d Ha. by apply not_elem_of_nil in Ha. }
  pose proof uncut_unrolled as H. cbn zeta in *. cbn [set_field] in *.
  change ((mkGraph goal [] [] maxDepth) <| dg_Nodes := root_nodes input |>)
    with (mkGraph goal (root_nodes input) [] maxDepth).
  set (graph := mkGraph _ _ _ _) in *.
  set (g := if bool_decide (1 < maxDepth) then _ else _) in *.
  destruct H as [Hl Hd Hr Hlim Hfull Hcl].
  assert (Hroot : ∀ a, new_node goal a 1 signals ∈ dg_Nodes graph ↔ a ∈ cands).
  { intros a. cbn. rewrite elem_of_root_nodes. split; [|naive_solver].
    intros (b & E & Hb). by apply node_inj in E as [-> _]. }
  case_bool_decide as Hcut.
  - destruct (decide (Z.of_nat (length (dg_Nodes graph)) ≤ MaxNodeCount)) as [Hle|Hgt]; [apply Hlim in Hle; lia|].
    rewrite Hfull by lia. cbn.
    assert (Htake : length (take (Z.to_nat MaxNodeCount) (root_nodes input)) = Z.to_nat MaxNodeCount).
    { rewrite length_take. rewrite Hfull in Hcut by lia. cbn in Hcut. unfold MaxNodeCount in *. lia. }
    assert (Hsub : ∀ n, n ∈ take (Z.to_nat MaxNodeCount) (root_nodes input) → n ∈ root_nodes input).
    { intros n Hn. rewrite <- (take_drop (Z.to_nat MaxNodeCount) (root_nodes input)), elem_of_app. by left. }
    constructor; cbn; try done; rewrite ?Htake; try done.
    + constructor; [done| |by intros e ?%not_elem_of_nil].
      intros n Hn. cbn in Hn. apply Hsub, elem_of_root_nodes in Hn as (a & -> & _).
      exists a, 1. split; [done|]. pose proof maxDepth_pos. lia.
    + intros a Ha. by apply Hroot, Hsub.
  - constructor; auto; [intros a Ha; apply Hroot; by apply Hr|lia|intros _ a Ha; by apply Hr, Hroot].
Qed.
End build.

(** ** Enumeration *)

(** ** Tables *)

Lemma elem_of_adjacency f t es :
  t ∈ default [] (adjacency es !! f) ↔ mkEdge f t ∈ es.
Proof.
  unfold adjacency. induction es as [|e es IH] using rev_ind; [cbn; by rewrite !elem_of_nil|].
  rewrite fold_left_app, elem_of_app, list_elem_of_singleton, <- IH. cbn. destruct e as [f' t']; cbn.
  destruct (decide (f' = f)) as [->|Hne].
  - rewrite lookup_insert_eq. cbn. rewrite elem_of_app, list_elem_of_singleton. naive_solver.
  - rewrite lookup_insert_ne by done. naive_solver.
Qed.

Lemma index_nodes_Some ns i n : index_nodes ns !! i = Some n → n ∈ ns ∧ dn_ID n = i.
Proof.
  unfold index_nodes. induction ns as [|m ns IH] using rev_ind; [done|].
  rewrite fold_left_app, elem_of_app, list_elem_of_singleton. cbn.
  rewrite lookup_insert_Some. intros [[<- <-]|[_ H]]; [by split; [right|]|]. destruct (IH H). auto.
Qed.

Lemma index_nodes_elem ns n : n ∈ ns → is_Some (index_nodes ns !! dn_ID n).
Proof.
  unfold index_nodes. induction ns as [|m ns IH] using rev_ind; [by intros ?%not_elem_of_nil|].
  rewrite fold_left_app, elem_of_app, list_elem_of_singleton. cbn. rewrite lookup_insert_is_Some.
  destruct (decide (dn_ID m = dn_ID n)) as [|Hne]; [by left|]. intros [H| ->]; [by right; auto|done].
Qed.

(** ** Walks *)

Section walks.
Context (goal : string) (trans : gmap string (list string)) (signals : gmap string ActionSignals).
Context (k : Z) (g : DecisionGraph) (Hl : layered goal trans signals k g).
Abbreviation node a d := (new_node goal a d signals).
Abbreviation adj := (adjacency (dg_Edges g)).
Abbreviation idx := (index_nodes (dg_Nodes g)).

Lemma index_node a d : node a d ∈ dg_Nodes g → idx !! node_id goal a d = Some (node a d).
Proof using Hl.
  intros H. pose proof (index_nodes_elem _ _ H) as [n E]. cbn in E. rewrite E. f_equal.
  apply index_nodes_Some in E as [Hn E]. by apply (layered_by_id _ _ _ _ _ _ _ _ Hl).
Qed.

(** The children of a node in the tables are its edges in the graph. *)
Lemma child_edge a d t : t ∈ default [] (adj !! node_id goal a d) ↔
  ∃ b, t = node_id goal b (d + 1) ∧ b ∈ successors trans a ∧ has_edge goal signals g a b d.
Proof using Hl.
  rewrite elem_of_adjacency. split; [|by intros (b & -> & _ & _ & H)].
  intros H. destruct (ly_edges _ _ _ _ _ Hl _ H) as (x & b & c & E & Hb & _ & Hn).
  injection E as E ->. apply node_id_inj in E as [<- <-]. by exists b.
Qed.

(** The nodes of the actions from depth [d] on, and the edges that link them. *)
Fixpoint nodes_from (d : Z) (acts : list string) : list DecisionNode :=
  match acts with
  | [] => []
  | a :: acts => node a d :: nodes_from (d + 1) acts
  end.

Fixpoint route (a : string) (d : Z) (rest : list string) : Prop :=
  match rest with
  | [] => True
  | b :: rest => b ∈ successors trans a ∧ has_edge goal signals g a b d ∧ route b (d + 1) rest
  end.

(** The paths a visit of [node a d] after [cur] has to find. *)
Definition found (cur : list DecisionNode) (a : string) (d : Z) (q : DecisionPath) : Prop :=
  ∃ rest, route a d rest ∧ q = new_path (cur ++ nodes_from d (a :: rest)).

Definition visits (f : list DecisionPath → option (list DecisionPath)) (P : DecisionPath → Prop) : Prop :=
  ∀ paths, ∃ out, f paths = Some out ∧ ∀ q, q ∈ out ↔ q ∈ paths ∨ P q.

Lemma for_children_visits visit a d cur cs :
  (∀ t, t ∈ cs → t ∈ default [] (adj !! node_id goal a d)) →
  (∀ b, has_edge goal signals g a b d → visits (visit (node b (d + 1))) (found (cur ++ [node a d]) b (d + 1))) →
  visits (for_children idx visit cs)
    (fun q => ∃ b, node_id goal b (d + 1) ∈ cs ∧ found (cur ++ [node a d]) b (d + 1) q).
Proof using Hl.
  intros Hcs Hv. induction cs as [|t cs IH]; intros paths; cbn [for_children].
  { exists paths. split; [done|]. intros q. split; [by left|]. by intros [H|(b & []%not_elem_of_nil & _)]. }
  destruct (proj1 (child_edge a d t)) as (b & -> & _ & He); [apply Hcs; by left|].
  rewrite index_node by apply He. destruct (Hv b He paths) as (out & -> & Hout).
  destruct (IH (fun t Ht => Hcs t (list_elem_of_further _ _ _ Ht)) out) as (out' & -> & Hout').
  exists out'. split; [done|]. intros q. rewrite Hout', Hout. setoid_rewrite elem_of_cons. split.
  - intros [[H|H]|(x & Hx & H)]; [by left|right; exists b; auto|right; exists x; auto].
  - intros [H|(x & [E|Hx] & H)]; [by left; left| |right; by exists x].
    apply node_id_inj in E as [-> _]. by left; right.
Qed.

Lemma enumerateFrom_visits fuel cur a d : node a d ∈ dg_Nodes g → k - d < Z.of_nat fuel →
  visits (enumerateFrom adj idx fuel (cur ++ [node a d])) (found cur a d).
Proof using Hl.
  revert cur a d. induction fuel as [|fuel IH]; intros cur a d Ha Hf paths.
  { apply (layered_depth _ _ _ _ _ _ _ Hl) in Ha. lia. }
  cbn [enumerateFrom]. rewrite last_snoc. change (dn_ID (node a d)) with (node_id goal a d).
  assert (Hch : ∀ t, t ∈ default [] (adj !! node_id goal a d) → t ∈ default [] (adj !! node_id goal a d)) by done.
  assert (Hstop : ∀ q, found cur a d q ↔ q = new_path (cur ++ [node a d]) ∨
    ∃ b, node_id goal b (d + 1) ∈ default [] (adj !! node_id goal a d) ∧ found (cur ++ [node a d]) b (d + 1) q).
  { intros q. split.
    - intros ([|b rest] & Hr & ->); [by left|]. right. exists b. destruct Hr as (Hb & He & Hr). split.
      + apply child_edge. by exists b.
      + exists rest. split; [done|]. by rewrite <- app_assoc.
    - intros [->|(b & Hb & rest & Hr & ->)]; [by exists []|].
      apply child_edge in Hb as (x & E & Hx & He). apply node_id_inj in E as [<- _].
      exists (b :: rest). split; [done|]. by rewrite <- app_assoc. }
  destruct (for_children_visits (fun c => enumerateFrom adj idx fuel ((cur ++ [node a d]) ++ [c]))
              a d cur _ Hch) with (paths := paths ++ [new_path (cur ++ [node a d])]) as (out & E & Hout).
  { intros b He. apply IH; [apply He|lia]. }
  exists out. split; [|intros q; rewrite Hout, elem_of_app, list_elem_of_singleton, Hstop; tauto].
  destruct (default [] (adj !! node_id goal a d)); [exact E|exact E].
Qed.

Lemma enumerate_roots_visits fuel roots :
  (∀ n, n ∈ roots → ∃ a, n = node a 1 ∧ n ∈ dg_Nodes g) → k ≤ Z.of_nat fuel →
  visits (enumerate_roots adj idx fuel roots) (fun q => ∃ a, node a 1 ∈ roots ∧ found [] a 1 q).
Proof using Hl.
  intros Hr Hf. induction roots as [|n roots IH]; intros paths; cbn [enumerate_roots].
  { exists paths. split; [done|]. intros q. split; [by left|]. by intros [H|(b & []%not_elem_of_nil & _)]. }
  destruct (Hr n) as (a & -> & Ha); [by left|].
  destruct (enumerateFrom_visits fuel [] a 1 Ha ltac:(lia) paths) as (out & E & Hout).
  cbn [app] in E. rewrite E.
  destruct (IH (fun n Hn => Hr n (list_elem_of_further _ _ _ Hn)) out) as (out' & -> & Hout').
  exists out'. split; [done|]. intros q. rewrite Hout', Hout. setoid_rewrite elem_of_cons. split.
  - intros [[H|H]|(x & Hx & H)]; [by left|right; exists a; auto|right; exists x; auto].
  - intros [H|(x & [E'|Hx] & H)]; [by left; left| |right; by exists x].
    apply node_inj in E' as [-> _]. by left; right.
Qed.
End walks.

(** ** Plans *)

(** Actions that follow one another by the transitions. *)
Fixpoint linked (trans : gmap string (list string)) (a : string) (rest : list string) : Prop :=
  match rest with
  | [] => True
  | b :: rest => b ∈ successors trans a ∧ linked trans b rest
  end.

(** A plan starts with a candidate, follows the transitions and is no longer than
    the configured depth. *)
Definition plan (input : BuildInput) (acts : list string) : Prop :=
  match acts with
  | [] => False
  | a :: rest => a ∈ bi_CandidateActions input ∧ linked (input_transitions input) a rest ∧
      Z.of_nat (length acts) ≤ EffectiveMaxDepth (bi_Config input)
  end.

(** The path of a plan: its [i]-th node is of depth [i] and carries the signals of
    the [i]-th action. *)
Definition plan_path (input : BuildInput) (acts : list string) : DecisionPath :=
  new_path (nodes_from (bi_GoalType input) (bi_Signals input) 1 acts).

Section plans.
Context (input : BuildInput).
Abbreviation goal := (bi_GoalType input).
Abbreviation trans := (input_transitions input).
Abbreviation signals := (bi_Signals input).
Abbreviation maxDepth := (EffectiveMaxDepth (bi_Config input)).
Abbreviation g := (BuildGraph input).

Lemma route_linked a d rest : new_node goal a d signals ∈ dg_Nodes g → route goal trans signals g a d rest →
  linked trans a rest ∧ d + Z.of_nat (length rest) ≤ maxDepth.
Proof using.
  pose proof (bu_layered _ _ (BuildGraph_built input)) as Hl.
  revert a d. induction rest as [|b rest IH]; intros a d Ha; cbn [route linked length].
  { intros _. apply (layered_depth _ _ _ _ _ _ _ Hl) in Ha. split; [done|lia]. }
  intros (Hb & He & Hr). destruct (IH b (d + 1) (proj1 He) Hr) as [H1 H2]. split; [done|lia].
Qed.

Lemma linked_route a d rest : closed goal trans signals maxDepth g →
  new_node goal a d signals ∈ dg_Nodes g → linked trans a rest → d + Z.of_nat (length rest) ≤ maxDepth →
  route goal trans signals g a d rest.
Proof using.
  intros Hc. revert a d. induction rest as [|b rest IH]; intros a d Ha; cbn [route linked length]; [done|].
  intros [Hb Hr] Hd. assert (He : has_edge goal signals g a b d) by (apply Hc; [done|lia|done]).
  split; [done|]. split; [done|]. apply IH; [apply He|done|lia].
Qed.

Lemma graph_paths_found : ∃ paths, graph_paths g = Some paths ∧
  ∀ q, q ∈ paths ↔ ∃ a rest, new_node goal a 1 signals ∈ dg_Nodes g ∧ route goal trans signals g a 1 rest ∧
    q = plan_path input (a :: rest).
Proof using.
  pose proof (BuildGraph_built input) as [Hl Hd Hroots _ _ _]. pose proof (maxDepth_pos input) as Hp.
  unfold graph_paths, EnumeratePaths. rewrite Hd.
  set (roots := List.filter _ _).
  assert (Hr : ∀ n, n ∈ roots → ∃ a, n = new_node goal a 1 signals ∧ n ∈ dg_Nodes g).
  { intros n. unfold roots. rewrite list_elem_of_In, filter_In, <- list_elem_of_In. intros [Hn H1].
    destruct (ly_nodes _ _ _ _ _ Hl n Hn) as (a & d & -> & _). apply isDepth1_iff in H1 as ->. by exists a. }
  destruct (enumerate_roots_visits _ _ _ _ _ Hl (Z.to_nat maxDepth) roots Hr ltac:(lia) []) as (out & -> & Hout).
  exists out. split; [done|]. intros q. rewrite Hout, elem_of_nil. split.
  - intros [[]|(a & Ha & rest & Hrt & ->)]. exists a, rest. destruct (Hr _ Ha) as (_ & _ & Hi). done.
  - intros (a & rest & Ha & Hrt & ->). right. exists a. split; [|by exists rest].
    unfold roots. rewrite list_elem_of_In, filter_In, <- list_elem_of_In. split; [done|]. by apply isDepth1_iff.
Qed.

(** C38: the decision graph of a goal has at most twenty nodes, and its enumeration
    always ends; every path it lists is a plan (it starts with a candidate action,
    follows the transitions, is no longer than the configured depth, one action
    long in safe mode, and carries each action's signals), and while the graph has
    room to spare every plan is listed. *)
Theorem paths_are_the_plans :
  Z.of_nat (length (dg_Nodes g)) ≤ MaxNodeCount ∧
  ∃ paths, graph_paths g = Some paths ∧
    (∀ q, q ∈ paths → ∃ acts, plan input acts ∧ q = plan_path input acts) ∧
    (Z.of_nat (length (dg_Nodes g)) < MaxNodeCount → ∀ acts, plan input acts → plan_path input acts ∈ paths).
Proof using.
  pose proof (BuildGraph_built input) as Hb. split; [apply (bu_limit _ _ Hb)|].
  destruct graph_paths_found as (paths & E & Hq). exists paths. split; [done|]. split.
  - intros q Hi. apply Hq in Hi as (a & rest & Ha & Hr & ->). exists (a :: rest). split; [|done].
    apply route_linked in Hr as [H1 H2]; [|done]. cbn [plan length].
    split; [by apply (bu_roots _ _ Hb)|]. split; [done|lia].
  - intros Hroom [|a rest]; [done|]. intros (Ha & Hr & Hd). cbn [length] in Hd. apply Hq.
    exists a, rest. pose proof (bu_all_roots _ _ Hb Hroom a Ha) as Hn. split; [done|]. split; [|done].
    apply linked_route; [by apply (bu_closed _ _ Hb)|done|done|lia].
Qed.
End plans.
