(* ===== verification/GraphEvaluator.v ===== *)
(** * Evaluation and selection of paths ([internal/agent/decision_graph])

    The score of a path ([evaluator.go]): its own value, risk and confidence, the
    adjustments learned from past paths, transitions, comparisons and
    counterfactual predictions, one at a time or arbitrated; and the choice of the
    path to execute ([selector.go]). *)

From stdpp Require Import base gmap strings list tactics numbers fin_maps.
From Stdlib Require Import ZArith Lia Floats.SpecFloat.
From S2P Require Import Prelude GoFloat GoSort Arbitration DecisionGraph.

Open Scope Z_scope.

(** ** Scores *)

Definition WeightValue : float64 := lit 5 10.
Definition WeightConfidence : float64 := lit 3 10.
Definition WeightRisk : float64 := lit 2 10.

(** [math.MaxFloat64] *)
Definition MaxFloat64 : float64 := S754_finite false (2 ^ 53 - 1) 971.

Definition clamp01 (v : float64) : float64 := fclamp01 v.

(** The mean of the expected values. *)
Definition path_value (ns : list DecisionNode) : float64 :=
  fdiv (fold_left (fun t n => fadd t (dn_ExpectedValue n)) ns f0) (f_of_Z (Z.of_nat (length ns))).

(** Risks compound. *)
Definition path_risk (config : GraphConfig) (ns : list DecisionNode) : float64 :=
  let riskProduct := fold_left (fun t n => fmul t (fsub f1 (clamp01 (dn_Risk n)))) ns f1 in
  let totalRisk := clamp01 (fsub f1 riskProduct) in
  if bool_decide (gc_StabilityMode config = "throttled") && bool_decide (1 < length ns)%nat
  then clamp01 (fadd totalRisk (fmul (gc_LongPathPenalty config) (f_of_Z (Z.of_nat (length ns) - 1))))
  else totalRisk.

(** The least confidence, 0 when it is [MaxFloat64] itself. *)
Definition path_confidence (ns : list DecisionNode) : float64 :=
  let totalConfidence :=
    fold_left (fun t n => if fltb (dn_Confidence n) t then dn_Confidence n else t) ns MaxFloat64 in
  if feqb totalConfidence MaxFloat64 then f0 else totalConfidence.

Definition EvaluatePath (path : DecisionPath) (config : GraphConfig) : DecisionPath :=
  match dp_Nodes path with
  | [] => path
  | ns =>
      let totalValue := path_value ns in
      let totalRisk := path_risk config ns in
      let totalConfidence := path_confidence ns in
      let finalScore :=
        fsub (fadd (fmul totalValue WeightValue) (fmul totalConfidence WeightConfidence))
             (fmul totalRisk WeightRisk) in
      path <| dp_TotalValue := totalValue |> <| dp_TotalRisk := totalRisk |>
           <| dp_TotalConfidence := totalConfidence |> <| dp_FinalScore := clamp01 finalScore |>
  end.

Definition EvaluateAllPaths (paths : list DecisionPath) (config : GraphConfig) : list DecisionPath :=
  map (fun p => EvaluatePath p config) paths.

(** ** Learned adjustments, one source at a time *)

Record PathLearningSignals := mkPathLearning {
  PathFeedback : gmap string string;
  TransitionFeedback : gmap string string
}.

Record CounterfactualPredictions := mkCounterfactual {
  Predictions : gmap string float64;
  Confidences : gmap string float64
}.

Definition pathPreferAdjustment : float64 := lit 10 100.
Definition pathAvoidAdjustment : float64 := lit (-20) 100.
Definition transitionPreferAdjustment : float64 := lit 5 100.
Definition transitionAvoidAdjustment : float64 := lit (-10) 100.
Definition comparativePreferAdjustment : float64 := lit 10 100.
Definition comparativeAvoidAdjustment : float64 := lit (-20) 100.
Definition comparativeUnderexploredAdjustment : float64 := lit 5 100.
Definition counterfactualPredictionWeight : float64 := lit 20 100.
Definition counterfactualMinConfidence : float64 := lit 1 100.

Definition pathSignatureFromNodes (nodes : list DecisionNode) : string :=
  match nodes with
  | [] => ""
  | n :: rest => fold_left (fun sig m => sig +:+ ">" +:+ dn_ActionType m) rest (dn_ActionType n)
  end.

(** The keys of a path's transitions, in order. *)
Fixpoint transition_keys (nodes : list DecisionNode) : list string :=
  match nodes with
  | n :: (m :: _) as rest => (dn_ActionType n +:+ "->" +:+ dn_ActionType m) :: transition_keys rest
  | _ => []
  end.

Definition boosted (p : DecisionPath) (adjustment : float64) : DecisionPath :=
  p <| dp_FinalScore := clamp01 (fadd (dp_FinalScore p) adjustment) |>.

(** What a switch adds for a recommendation found under a key. *)
Definition path_rec_adjustment (rec : option string) (acc : float64) : float64 :=
  match rec with
  | Some rec => if bool_decide (rec = "prefer_path") then fadd acc pathPreferAdjustment
                else if bool_decide (rec = "avoid_path") then fadd acc pathAvoidAdjustment else acc
  | None => acc
  end.

Definition transition_rec_adjustment (rec : option string) (acc : float64) : float64 :=
  match rec with
  | Some rec => if bool_decide (rec = "prefer_transition") then fadd acc transitionPreferAdjustment
                else if bool_decide (rec = "avoid_transition") then fadd acc transitionAvoidAdjustment else acc
  | None => acc
  end.

Definition comparative_rec_adjustment (rec : option string) (acc : float64) : float64 :=
  match rec with
  | Some rec => if bool_decide (rec = "prefer_path") then fadd acc comparativePreferAdjustment
                else if bool_decide (rec = "avoid_path") then fadd acc comparativeAvoidAdjustment
                else if bool_decide (rec = "underexplored_path") then fadd acc comparativeUnderexploredAdjustment
                else acc
  | None => acc
  end.

Definition ApplyPathLearningAdjustments (paths : list DecisionPath) (signals : option PathLearningSignals)
    : list DecisionPath :=
  match signals with
  | None => paths
  | Some s =>
      map (fun p =>
             let adjustment := path_rec_adjustment (PathFeedback s !! pathSignatureFromNodes (dp_Nodes p)) f0 in
             boosted p (fold_left (fun acc key => transition_rec_adjustment (TransitionFeedback s !! key) acc)
                          (transition_keys (dp_Nodes p)) adjustment)) paths
  end.

(** [ComparativeLearningSignals] holds one map. *)
Definition ApplyComparativeLearningAdjustments (paths : list DecisionPath) (signals : option (gmap string string))
    : list DecisionPath :=
  match signals with
  | None => paths
  | Some fb =>
      map (fun p => boosted p (comparative_rec_adjustment (fb !! pathSignatureFromNodes (dp_Nodes p)) f0)) paths
  end.

Definition ApplyCounterfactualAdjustments (paths : list DecisionPath)
    (predictions : option CounterfactualPredictions) : list DecisionPath :=
  match predictions with
  | None => paths
  | Some c =>
      if bool_decide (Predictions c = ∅) then paths
      else
        map (fun p =>
               let sig := pathSignatureFromNodes (dp_Nodes p) in
               match Predictions c !! sig with
               | None => p
               | Some predValue =>
                   if fltb counterfactualMinConfidence (default f0 (Confidences c !! sig))
                   then boosted p (fmul (fsub predValue (dp_FinalScore p)) counterfactualPredictionWeight)
                   else p
               end) paths
  end.

(** ** Arbitrated adjustments *)

Record ArbitratedSignals := mkArbitrated {
  PathLearning : option PathLearningSignals;
  ComparativeLearning : option (gmap string string);
  Counterfactual : option CounterfactualPredictions;
  ar_StabilityMode : string;
  CalibratedConfidence : float64;
  ExplorationActive : bool
}.

Definition stability_signals (s : ArbitratedSignals) : list Signal :=
  if bool_decide (ar_StabilityMode s = "safe_mode") || bool_decide (ar_StabilityMode s = "throttled")
  then [mkSignal SignalStability RecommendAvoid (lit (-10) 100) f1 ("stability_mode:" +:+ ar_StabilityMode s)]
  else [].

Definition calibration_signals (s : ArbitratedSignals) : list Signal :=
  if fltb (CalibratedConfidence s) ConfidenceSuppressionThreshold
  then [mkSignal SignalCalibration RecommendAvoid (lit (-5) 100) (fsub f1 (CalibratedConfidence s))
          "low_calibrated_confidence"]
  else [].

Definition path_feedback_signals (sig : string) (l : PathLearningSignals) : list Signal :=
  match PathFeedback l !! sig with
  | Some rec =>
      if bool_decide (rec = "prefer_path")
      then [mkSignal SignalPathLearning RecommendPrefer pathPreferAdjustment (lit 8 10) "path_feedback"]
      else if bool_decide (rec = "avoid_path")
      then [mkSignal SignalPathLearning RecommendAvoid pathAvoidAdjustment (lit 8 10) "path_feedback"]
      else []
  | None => []
  end.

Definition transition_signals (l : PathLearningSignals) (tKey : string) : list Signal :=
  match TransitionFeedback l !! tKey with
  | Some rec =>
      let source := "transition_feedback:" +:+ tKey in
      if bool_decide (rec = "prefer_transition")
      then [mkSignal SignalTransitionLearning RecommendPrefer transitionPreferAdjustment (lit 7 10) source]
      else if bool_decide (rec = "avoid_transition")
      then [mkSignal SignalTransitionLearning RecommendAvoid transitionAvoidAdjustment (lit 7 10) source]
      else []
  | None => []
  end.

Definition comparative_signals (sig : string) (fb : gmap string string) : list Signal :=
  match fb !! sig with
  | Some rec =>
      let signal r adj := [mkSignal SignalComparative r adj (lit 6 10) "comparative_feedback"] in
      if bool_decide (rec = "prefer_path") then signal RecommendPrefer comparativePreferAdjustment
      else if bool_decide (rec = "avoid_path") then signal RecommendAvoid comparativeAvoidAdjustment
      else if bool_decide (rec = "underexplored_path") then signal RecommendPrefer comparativeUnderexploredAdjustment
      else []
  | None => []
  end.

Definition counterfactual_signals (path : DecisionPath) (sig : string) (c : CounterfactualPredictions) : list Signal :=
  match Predictions c !! sig with
  | Some predValue =>
      let conf := default f0 (Confidences c !! sig) in
      if fltb counterfactualMinConfidence conf
      then
        let delta := fmul (fsub predValue (dp_FinalScore path)) counterfactualPredictionWeight in
        let signal r := [mkSignal SignalCausal r delta conf "counterfactual_prediction"] in
        if fltb (lit 1 100) delta then signal RecommendPrefer
        else if fltb delta (lit (-1) 100) then signal RecommendAvoid
        else []
      else []
  | None => []
  end.

Definition exploration_signals (s : ArbitratedSignals) : list Signal :=
  if ExplorationActive s
  then [mkSignal SignalExploration RecommendPrefer comparativeUnderexploredAdjustment (lit 5 10) "exploration_active"]
  else [].

Definition collectSignals (path : DecisionPath) (sig : string) (s : ArbitratedSignals) : list Signal :=
  stability_signals s ++ calibration_signals s ++
  match PathLearning s with
  | Some l => path_feedback_signals sig l ++ concat (map (transition_signals l) (transition_keys (dp_Nodes path)))
  | None => []
  end ++
  match ComparativeLearning s with Some fb => comparative_signals sig fb | None => [] end ++
  match Counterfactual s with Some c => counterfactual_signals path sig c | None => [] end ++
  exploration_signals s.

Definition arbitrate (s : ArbitratedSignals) (p : DecisionPath) : DecisionPath * ArbitrationTrace :=
  let sig := pathSignatureFromNodes (dp_Nodes p) in
  let result := ResolveSignals sig (collectSignals p sig s) (CalibratedConfidence s) in
  (boosted p (re_FinalAdjustment result), re_Trace result).

Definition ApplyArbitratedAdjustments (paths : list DecisionPath) (signals : option ArbitratedSignals)
    : list DecisionPath * list ArbitrationTrace :=
  match signals with
  | None => (paths, [])
  | Some s => (map (fun p => fst (arbitrate s p)) paths, map (fun p => snd (arbitrate s p)) paths)
  end.

(** ** Selection *)

Record PathSelection := mkSelection {
  ps_Paths : list DecisionPath;
  ps_Selected : option DecisionPath;
  ps_ExplorationPick : option DecisionPath;
  ps_Reason : string;
  ps_ExplorationUsed : bool
}.

Definition shouldSwapPath (a b : DecisionPath) : bool :=
  if negb (feqb (dp_FinalScore a) (dp_FinalScore b)) then fltb (dp_FinalScore b) (dp_FinalScore a)
  else if bool_decide (length (dp_Nodes a) ≠ length (dp_Nodes b))
  then bool_decide (length (dp_Nodes a) < length (dp_Nodes b))%nat
  else match dp_Nodes a, dp_Nodes b with
       | n :: _, m :: _ => String.ltb (dn_ActionType n) (dn_ActionType m)
       | _, _ => false
       end.

(** The hand-written sort is the insertion sort of [GoSort]. *)
Definition sortPaths (paths : list DecisionPath) : list DecisionPath := insertionSort shouldSwapPath paths.

Definition isNoopPath (p : DecisionPath) : bool :=
  match dp_Nodes p with [n] => bool_decide (dn_ActionType n = "noop") | _ => false end.

Definition samePath (a b : DecisionPath) : bool :=
  bool_decide (map dn_ID (dp_Nodes a) = map dn_ID (dp_Nodes b)).

Definition findSecondBestPath (viable : list DecisionPath) (selected : DecisionPath) : option DecisionPath :=
  List.find (fun p => negb (samePath p selected)) viable.

Definition is_viable (p : DecisionPath) : bool := fltb f0 (dp_FinalScore p) || isNoopPath p.

(** [best] and its reason, before exploration. *)
Definition best_viable (first : DecisionPath) (rest : list DecisionPath) : DecisionPath * string :=
  match rest with
  | second :: _ =>
      if fltb (fsub (dp_FinalScore first) (dp_FinalScore second)) (lit 1 1000)
         && bool_decide (length (dp_Nodes second) < length (dp_Nodes first))%nat
      then (second, "shorter_path_tiebreak")
      else (first, "highest_final_score")
  | [] => (first, "highest_final_score")
  end.

(** The argument slice is sorted in place, and is the selection's. *)
Definition SelectBestPath (paths : list DecisionPath) (config : GraphConfig) : PathSelection :=
  match paths with
  | [] => mkSelection [] None None "no_paths" false
  | _ =>
      let paths := sortPaths paths in
      match List.filter is_viable paths with
      | [] =>
          match List.find isNoopPath paths with
          | Some p => mkSelection paths (Some p) None "all_rejected_fallback_noop" false
          | None => mkSelection paths None None "all_rejected_no_fallback" false
          end
      | first :: rest =>
          let '(best, reason) := best_viable first rest in
          let plain := mkSelection paths (Some best) None reason false in
          if gc_ShouldExplore config && bool_decide (rest ≠ [])
          then match findSecondBestPath (first :: rest) best with
               | Some p =>
                   if fltb f0 (dp_FinalScore p)
                   then mkSelection paths (Some p) (Some p) "exploration_override_second_best" true
                   else plain
               | None => plain
               end
          else plain
      end
  end.

(** The convenience pipeline. *)
Definition Evaluate (input : BuildInput) : option (PathSelection * string) :=
  paths ← graph_paths (BuildGraph input);
  let scored := EvaluateAllPaths paths (bi_Config input) in
  let selection := SelectBestPath scored (bi_Config input) in
  let actionType := match ps_Selected selection with
                    | Some p => match dp_Nodes p with n :: _ => dn_ActionType n | [] => "" end
                    | None => ""
                    end in
  Some (selection, actionType).
