(* ===== verification/GraphSelection.v ===== *)
(** * Correctness of path selection

    Sorting apart, the selector ranks the viable paths, breaks near ties towards
    the shorter path and explores the best-ranked other path.  Its fallback to a
    path of no action is never reached, since such a path is always viable. *)

From stdpp Require Import base gmap strings list tactics numbers fin_maps sorting.
From Stdlib Require Import ZArith Lia.
From S2P Require Import Prelude GoFloat GoSort Arbitration DecisionGraph GraphEvaluator.

Open Scope Z_scope.

Implicit Types (p q : DecisionPath).

(** ** The ranking *)

Abbreviation numeric p := (is_nan (dp_FinalScore p) = false).

Definition name_less p q : bool :=
  match dp_Nodes p, dp_Nodes q with
  | n :: _, m :: _ => String.ltb (dn_ActionType n) (dn_ActionType m)
  | _, _ => false
  end.

Lemma not_swapped p q : numeric p → numeric q →
  shouldSwapPath p q = false ↔
  fltb (dp_FinalScore q) (dp_FinalScore p) = false ∧
  (feqb (dp_FinalScore p) (dp_FinalScore q) = true →
   (length (dp_Nodes q) ≤ length (dp_Nodes p))%nat ∧
   (length (dp_Nodes p) = length (dp_Nodes q) → name_less p q = false)).
Proof.
  intros Hp Hq. unfold shouldSwapPath. fold (name_less p q). destruct (feqb _ _) eqn:E; cbn [negb].
  - assert (fltb (dp_FinalScore q) (dp_FinalScore p) = false) as -> by float_order.
    case_bool_decide as Hl; [case_bool_decide as Hs|].
    + split; [done|]. intros [_ H]. destruct (H eq_refl). lia.
    + split; [|done]. intros _. split; [done|]. intros _. split; [lia|lia].
    + split; [|intros [_ H]; destruct (H eq_refl); auto]. intros H. split; [done|]. intros _. split; [lia|done].
  - split; [by intros ->|]. by intros [-> _].
Qed.

Lemma name_less_negtrans p q r : length (dp_Nodes p) = length (dp_Nodes q) → length (dp_Nodes q) = length (dp_Nodes r) →
  name_less p q = false → name_less q r = false → name_less p r = false.
Proof.
  unfold name_less. destruct (dp_Nodes p), (dp_Nodes q), (dp_Nodes r); cbn; try done; try lia.
  intros _ _. apply ltb_negtrans.
Qed.

Lemma swap_negtrans p q r : numeric p → numeric q → numeric r →
  shouldSwapPath p q = false → shouldSwapPath q r = false → shouldSwapPath p r = false.
Proof.
  intros Hp Hq Hr. rewrite !not_swapped by done. intros [H1 T1] [H2 T2].
  split; [by apply (fltb_negtrans _ (dp_FinalScore q))|]. intros E.
  destruct (feqb_between (dp_FinalScore r) (dp_FinalScore q) (dp_FinalScore p)) as [E2 E1]; try done; [float_order|].
  destruct T1 as [L1 N1]; [float_order|]. destruct T2 as [L2 N2]; [float_order|].
  split; [lia|]. intros L. apply (name_less_negtrans p q r); [lia|lia|apply N1; lia|apply N2; lia].
Qed.

Lemma swap_asym p q : shouldSwapPath p q = true → shouldSwapPath q p = false.
Proof.
  unfold shouldSwapPath. fold (name_less p q) (name_less q p).
  destruct (feqb (dp_FinalScore p) (dp_FinalScore q)) eqn:E, (feqb (dp_FinalScore q) (dp_FinalScore p)) eqn:E'; cbn [negb].
  - repeat case_bool_decide; try done; try lia. unfold name_less.
    destruct (dp_Nodes p), (dp_Nodes q); try done. apply ltb_asym.
  - exfalso. float_order.
  - exfalso. float_order.
  - intros H. by apply fltb_asym.
Qed.

(** The comparison on all paths, a NaN read as 0: equal to it on numbers, and a
    strict weak order. *)
Definition pinned p : DecisionPath := if is_nan (dp_FinalScore p) then p <| dp_FinalScore := f0 |> else p.
Definition total_swap p q : bool := shouldSwapPath (pinned p) (pinned q).

Lemma pinned_numeric p : numeric (pinned p).
Proof. unfold pinned. by destruct (is_nan (dp_FinalScore p)) eqn:E. Qed.

Lemma pinned_id p : numeric p → pinned p = p.
Proof. unfold pinned. by intros ->. Qed.

Section sort_ext.
Context {A : Type} (less less' : A → A → bool).

Lemma insertionSort_ext l : (∀ x y, x ∈ l → y ∈ l → less x y = less' x y) →
  insertionSort less l = insertionSort less' l.
Proof using.
  intros H. unfold insertionSort. f_equal.
  assert (Hins : ∀ x acc, x ∈ l → (∀ y, y ∈ acc → y ∈ l) → insert_back less x acc = insert_back less' x acc).
  { intros x acc Hx. induction acc as [|y acc IH]; intros Ha; cbn; [done|].
    rewrite H by (done || apply Ha; by left). rewrite IH; [done|]. intros z Hz. apply Ha. by right. }
  assert (Hall : ∀ k acc, (∀ x, x ∈ k → x ∈ l) → (∀ y, y ∈ acc → y ∈ l) →
    fold_left (fun acc x => insert_back less x acc) k acc = fold_left (fun acc x => insert_back less' x acc) k acc).
  { induction k as [|x k IH]; intros acc Hk Ha; cbn; [done|].
    rewrite Hins by (done || apply Hk; by left). apply IH; [intros y Hy; apply Hk; by right|].
    intros y. rewrite insert_back_perm. intros [->|Hy]%elem_of_cons; [apply Hk; by left|auto]. }
  apply Hall; [done|]. by intros y ?%not_elem_of_nil.
Qed.
End sort_ext.

Lemma sortPaths_ordered ps : (∀ p, p ∈ ps → numeric p) → ordered shouldSwapPath (sortPaths ps).
Proof.
  intros Hn. unfold sortPaths.
  assert (Hs : ordered total_swap (insertionSort total_swap ps)).
  { apply insertionSort_ordered.
    - intros x y. apply swap_asym.
    - intros x y z. apply swap_negtrans; apply pinned_numeric. }
  assert (E : ∀ x y, x ∈ ps → y ∈ ps → shouldSwapPath x y = total_swap x y).
  { intros x y Hx Hy. unfold total_swap. by rewrite !pinned_id by auto. }
  rewrite (insertionSort_ext _ total_swap) by done.
  assert (Hin : ∀ x, x ∈ insertionSort total_swap ps → x ∈ ps) by (intros x; by rewrite insertionSort_elem).
  revert Hs Hin. unfold ordered. generalize (insertionSort total_swap ps). induction 1 as [|x l Hl IH Hx]; intros Hin.
  - constructor.
  - constructor; [apply IH; intros y Hy; apply Hin; by right|].
    rewrite Forall_forall in *. intros y Hy. rewrite E; [by apply Hx|apply Hin; by right|apply Hin; by left].
Qed.

(** ** Specification *)

(** [top] and [rest] are the paths, and none of [rest] ranks above [top]. *)
Definition podium (ps : list DecisionPath) (top : DecisionPath) (rest : list DecisionPath) : Prop :=
  ps ≡ₚ top :: rest ∧ ∀ q, q ∈ rest → shouldSwapPath q top = false.

(** The scores differ by less than 0.001 and the second path is shorter. *)
Definition near_tie (top second : DecisionPath) : bool :=
  fltb (fsub (dp_FinalScore top) (dp_FinalScore second)) (lit 1 1000)
  && bool_decide (length (dp_Nodes second) < length (dp_Nodes top))%nat.

(** The choice among viable paths without exploration, and its reason. *)
Inductive choice (viable : list DecisionPath) : DecisionPath → string → Prop :=
| choice_only top : podium viable top [] → choice viable top "highest_final_score"
| choice_top top second rest : podium viable top (second :: rest) → podium (second :: rest) second rest →
    near_tie top second = false → choice viable top "highest_final_score"
| choice_shorter top second rest : podium viable top (second :: rest) → podium (second :: rest) second rest →
    near_tie top second = true → choice viable second "shorter_path_tiebreak".

(** [p] is the best-ranked viable path with other nodes than [best]. *)
Definition alternative (viable : list DecisionPath) (best p : DecisionPath) : Prop :=
  p ∈ viable ∧ samePath p best = false ∧
  ∀ q, q ∈ viable → samePath q best = false → shouldSwapPath q p = false.

Definition no_alternative (viable : list DecisionPath) (best : DecisionPath) : Prop :=
  ∀ q, q ∈ viable → samePath q best = true.

Inductive selects (config : GraphConfig) (viable : list DecisionPath) : option DecisionPath → bool → string → Prop :=
| selects_nothing reason : viable = [] → reason = "no_paths" ∨ reason = "all_rejected_no_fallback" →
    selects config viable None false reason
| selects_best best reason : choice viable best reason →
    (gc_ShouldExplore config = true → no_alternative viable best ∨
       ∃ p, alternative viable best p ∧ fltb f0 (dp_FinalScore p) = false) →
    selects config viable (Some best) false reason
| selects_other best reason p : choice viable best reason → gc_ShouldExplore config = true →
    alternative viable best p → fltb f0 (dp_FinalScore p) = true →
    selects config viable (Some p) true "exploration_override_second_best".

(** ** Correctness *)

Lemma ordered_podium p l : ordered shouldSwapPath (p :: l) → podium (p :: l) p l.
Proof. intros H. inversion H as [|? ? _ Hp]. split; [done|]. by apply Forall_forall. Qed.

Lemma best_viable_choice viable first rest :
  viable ≡ₚ first :: rest → ordered shouldSwapPath (first :: rest) →
  choice viable (fst (best_viable first rest)) (snd (best_viable first rest)).
Proof.
  intros Hp Ho. pose proof (ordered_podium _ _ Ho) as [_ Htop].
  assert (Hpod : podium viable first rest) by done.
  destruct rest as [|second rest]; cbn; [by apply choice_only|].
  inversion Ho as [|? ? Ho' _]; subst. pose proof (ordered_podium _ _ Ho') as Hsec.
  fold (near_tie first second). destruct (near_tie first second) eqn:E; cbn.
  - by eapply choice_shorter.
  - by eapply choice_top.
Qed.

Lemma find_second_Some l best p : ordered shouldSwapPath l → (∀ q, q ∈ l → numeric q) →
  findSecondBestPath l best = Some p → alternative l best p.
Proof.
  unfold findSecondBestPath. induction 1 as [|x l Hl IH Hx]; cbn [List.find]; [done|]. intros Hn.
  destruct (samePath x best) eqn:E; cbn [negb].
  - intros Hf. destruct IH as (H1 & H2 & H3); [intros q Hq; apply Hn; by right|done|].
    split; [by right|]. split; [done|]. intros q [->|Hq]%elem_of_cons Hs; [congruence|by apply H3].
  - intros [= <-]. split; [by left|]. split; [done|].
    intros q [->|Hq]%elem_of_cons _; [|rewrite Forall_forall in Hx; by apply Hx].
    destruct (shouldSwapPath x x) eqn:Exx; [|done]. pose proof (swap_asym _ _ Exx). congruence.
Qed.

Lemma find_second_None l best : findSecondBestPath l best = None → no_alternative l best.
Proof.
  unfold findSecondBestPath. intros H q Hq. apply list_elem_of_In in Hq.
  pose proof (find_none _ _ H _ Hq) as E. by apply negb_false_iff in E.
Qed.

Lemma alternative_perm l k best p : l ≡ₚ k → alternative l best p → alternative k best p.
Proof. intros Hp (H1 & H2 & H3). unfold alternative. setoid_rewrite <- Hp. done. Qed.

Lemma no_viable_no_noop ps : List.filter is_viable ps = [] → List.find isNoopPath ps = None.
Proof.
  induction ps as [|p ps IH]; cbn; [done|]. unfold is_viable at 1. destruct (isNoopPath p); [by rewrite orb_true_r|].
  rewrite orb_false_r. destruct (fltb _ _); [done|exact IH].
Qed.

Lemma SelectBestPath_selects ps config : (∀ p, p ∈ ps → numeric p) →
  let r := SelectBestPath ps config in
  selects config (List.filter is_viable ps) (ps_Selected r) (ps_ExplorationUsed r) (ps_Reason r).
Proof.
  intros Hn. cbn zeta. unfold SelectBestPath. destruct ps as [|p0 ps0] eqn:Eps; rewrite <- ?Eps in *.
  { rewrite Eps. apply selects_nothing; [done|by left]. }
  set (sorted := sortPaths ps). cbn zeta.
  assert (Hperm : List.filter is_viable ps ≡ₚ List.filter is_viable sorted).
  { apply filter_perm. symmetry. apply insertionSort_perm. }
  assert (Ho : ordered shouldSwapPath (List.filter is_viable sorted)).
  { apply filter_ordered, sortPaths_ordered, Hn. }
  assert (Hnv : ∀ q, q ∈ List.filter is_viable sorted → numeric q).
  { intros q. rewrite <- Hperm, list_elem_of_In, filter_In, <- list_elem_of_In. intros [Hq _]. by apply Hn. }
  destruct (List.filter is_viable sorted) as [|first rest] eqn:Ev.
  { rewrite (no_viable_no_noop _ Ev). apply selects_nothing; [by apply Permutation_nil_r|by right]. }
  pose proof (best_viable_choice _ first rest Hperm Ho) as Hc.
  destruct (best_viable first rest) as [best reason] eqn:Eb. cbn [fst snd] in Hc.
  assert (Halone : rest = [] → no_alternative (List.filter is_viable ps) best).
  { intros -> q. rewrite Hperm, list_elem_of_singleton. intros ->. cbn in Eb. injection Eb as <- _.
    by apply bool_decide_eq_true. }
  destruct (gc_ShouldExplore config) eqn:Ex; cbn [andb]; [|by apply selects_best; [|rewrite Ex]].
  case_bool_decide as Hrest; [|apply selects_best; [done|intros _; left; apply Halone; by destruct rest]].
  destruct (findSecondBestPath (first :: rest) best) as [p|] eqn:Ef.
  - apply find_second_Some in Ef; [|done..]. apply (alternative_perm _ (List.filter is_viable ps)) in Ef; [|done].
    destruct (fltb f0 (dp_FinalScore p)) eqn:Es; [by eapply selects_other|].
    apply selects_best; [done|]. intros _. right. by exists p.
  - apply find_second_None in Ef. apply selects_best; [done|]. intros _. left.
    intros q Hq. apply Ef. by rewrite <- Hperm.
Qed.

Lemma SelectBestPath_paths ps config : ps_Paths (SelectBestPath ps config) = sortPaths ps.
Proof.
  unfold SelectBestPath. destruct ps as [|p ps]; [done|]. cbv zeta.
  destruct (List.filter is_viable _) as [|first rest]; [by destruct (List.find _ _)|].
  destruct (best_viable first rest). destruct (_ && _); [|done].
  destruct (findSecondBestPath _ _) as [q|]; [|done]. by destruct (fltb _ _).
Qed.

(** C39: when every score is a number, the selector reorders the paths by
    decreasing score, then increasing length, then first action; it selects a path
    exactly when one is viable (a positive score, or the single action [noop]), and
    then the best-ranked one, or its shorter runner-up within 0.001 of it, or, on
    exploration, the best-ranked path with other nodes if its score is positive.
    The documented fallback to a rejected [noop] path never happens. *)
Theorem selection_exact ps config (Hn : ∀ p, p ∈ ps → is_nan (dp_FinalScore p) = false) :
  let r := SelectBestPath ps config in
  ps_Paths r ≡ₚ ps ∧ ordered shouldSwapPath (ps_Paths r) ∧
  selects config (List.filter is_viable ps) (ps_Selected r) (ps_ExplorationUsed r) (ps_Reason r) ∧
  (ps_Selected r = None ↔ List.filter is_viable ps = []) ∧
  ps_Reason r ≠ "all_rejected_fallback_noop".
Proof.
  cbv zeta. rewrite SelectBestPath_paths. pose proof (SelectBestPath_selects ps config Hn) as H. cbv zeta in H.
  split; [apply insertionSort_perm|]. split; [by apply sortPaths_ordered|]. split; [done|].
  assert (Hc : ∀ best reason, choice (List.filter is_viable ps) best reason →
            List.filter is_viable ps ≠ [] ∧ reason ≠ "all_rejected_fallback_noop").
  { intros best reason Hch. split; [|by destruct Hch]. intros E. rewrite E in Hch.
    destruct Hch as [? [Hp _]|? ? ? [Hp _]|? ? ? [Hp _]]; by apply Permutation_nil_cons in Hp. }
  inversion H as [reason Hv Hr|best reason Hch _|best reason p Hch _ _ _]; split.
  - done.
  - by destruct Hr as [-> | ->].
  - destruct (Hc _ _ Hch). by split.
  - by destruct (Hc _ _ Hch).
  - destruct (Hc _ _ Hch). by split.
  - done.
Qed.
