(* ===== verification/GraphPlanner.v ===== *)
(** * The graph planner ([decision_graph/planner_adapter.go])

    The adapter by which the tactical planner consults the decision graph: it
    settles how to reason (stability, exploration, meta-reasoning, governance),
    turns the candidates into signals, builds, evaluates and adjusts the paths
    through a dozen optional layers, selects one, and overrides the tactical
    choice with the path's first action when they differ.

    Providers are interfaces, optional, and may answer differently at every call:
    each answer is a reading.  Of the loops over Go maps only the readings depend
    on the order of iteration, and those may be any.  Calls that only record
    something are kept in order in the adapter's state; audit payloads and log
    lines are left out. *)

From stdpp Require Import base gmap strings list tactics numbers fin_maps.
From Stdlib Require Import ZArith Lia.
From S2P Require Import Prelude GoFloat GoTime Models AgentWorld ActionMemory TacticalPlanner Arbitration ProviderRouting DecisionGraph GraphEvaluator.

Open Scope Z_scope.

(** ** Providers *)

Record PathLearningProvider := mkPathLearningProvider {
  GetAllPathFeedbackMap : string → nat → gmap string string;
  GetAllTransitionFeedbackMap : string → nat → gmap string string
}.

(** The arguments of [SelectMode] after the context. *)
Record ModeQuery := mkModeQuery {
  mq_goalType : string;
  mq_failureRate : float64;
  mq_confidence : float64;
  mq_risk : float64;
  mq_stabilityMode : string;
  mq_missedWinCount : Z;
  mq_noopRate : float64;
  mq_lowValueRate : float64
}.

Record GovernanceProvider := mkGovernanceProvider {
  gp_IsExplorationBlocked : nat → bool;
  gp_EffectiveReasoningMode : nat → string;
  gp_RequiresHumanReview : nat → bool
}.

Record Alignment := mkAlignment {
  al_Score : float64;
  al_MatchedGoals : list string;
  al_Rejected : bool;
  al_RejectReason : string
}.

Record IncomeSignalProvider := mkIncomeProvider {
  ip_GetIncomeSignal : nat → float64 * Z;
  ip_IsIncomeRelated : string → bool
}.

Record FinancialPressureProvider := mkPressureProvider {
  fp_GetPressure : nat → float64 * string;
  fp_IsIncomeRelated : string → bool
}.

Record PortfolioProvider := mkPortfolioProvider {
  pp_GetStrategyBoost : string → nat → float64;
  pp_IsStrategyRelated : string → bool
}.

Record GraphPlannerAdapter := mkGraphPlanner {
  gp_clock : nat → time;
  gp_stability : option (nat → string);
  gp_auditor : bool;
  gp_explorationTrigger : option (string → nat → bool);
  gp_pathLearning : option PathLearningProvider;
  gp_comparativeLearning : option (string → nat → gmap string string);
  gp_snapshotCapturer : bool;
  gp_counterfactual : option (string → gmap string float64 → gmap string Z → nat → CounterfactualPredictions);
  gp_metaReasoning : option (ModeQuery → nat → string);
  gp_calibration : option (float64 → nat → float64);
  gp_contextCalibration : option (float64 → string → nat → float64);
  gp_modeCalibration : option (float64 → string → nat → float64);
  gp_resourceOptimization : option (string → string → Z → string → nat → float64);
  gp_governance : option GovernanceProvider;
  gp_replayRecorder : bool;
  gp_providerRouting : option (string → nat → ExecutionPlan);
  gp_goalAlignment : option (string → float64 → nat → Alignment);
  gp_incomeSignals : option IncomeSignalProvider;
  gp_outcomeAttribution : option (string → nat → float64);
  gp_financialPressure : option FinancialPressureProvider;
  gp_signalIngestion : option (string → nat → Z);
  gp_capacity : option (nat → float64);
  gp_portfolio : option PortfolioProvider;
  gp_objectiveFunction : option (nat → float64)
}.

(** ** State *)

Inductive GoalTraceEntry : Type :=
| TraceRejected (action reason : string)
| TraceAligned (action : string) (score : float64) (goals : list string).

(** Calls whose only effect lies in the provider. *)
Inductive GraphCall : Type :=
| CallSimulate (decisionID goalType : string) (scores : gmap string float64) (lengths : gmap string Z)
| CallCapture (decisionID goalType : string) (paths : list (string * float64)) (signature : string) (score : float64)
| CallRecordOutcome (mode goalType : string) (latencyMs depth pathLength : float64)
| CallRecordReplay (decisionID goalType mode signature : string) (confidence : float64)
    (stabilityMode : string) (shouldExplore : bool) (traces : list ArbitrationTrace).

Record GraphState := mkGraphState {
  gr_lastGoalTrace : list GoalTraceEntry;
  gr_lastSelection : option PathSelection;
  gr_lastArbTraces : list ArbitrationTrace;
  gr_calls : list GraphCall
}.

#[export] Instance GraphState_settable : Settable GraphState := fun r =>
  mkGraphState (gr_lastGoalTrace r) (gr_lastSelection r) (gr_lastArbTraces r) (gr_calls r).

(** ** Helpers *)

Definition isSafeAction (actionType : string) : bool :=
  bool_decide (actionType = "noop") || bool_decide (actionType = "log_recommendation").

(** Average confidence, average risk and failure rate. *)
Definition computeSignalAverages (candidates : list PlannedActionCandidate)
    (feedback : gmap string ActionFeedback) : float64 * float64 * float64 :=
  match candidates with
  | [] => (lit 5 10, lit 1 10, f0)
  | _ =>
      let totalConf := fold_left (fun t c => fadd t (pc_Confidence c)) candidates f0 in
      let totalRisk := fold_left (fun t _ => fadd t (lit 1 10)) candidates f0 in
      let '(totalFailureRate, failureCount) :=
        fold_left (fun '(t, k) c => match feedback !! pc_ActionType c with
                                    | Some fb => (fadd t (af_FailureRate fb), k + 1)
                                    | None => (t, k)
                                    end) candidates (f0, 0) in
      let n := f_of_Z (Z.of_nat (length candidates)) in
      (fdiv totalConf n, fdiv totalRisk n,
       if bool_decide (0 < failureCount) then fdiv totalFailureRate (f_of_Z failureCount) else f0)
  end.

(** The rates of candidates that do nothing and of those of low value. *)
Definition computeStagnationSignals (candidates : list PlannedActionCandidate) : float64 * float64 :=
  match candidates with
  | [] => (f0, f0)
  | _ =>
      let count p := f_of_Z (Z.of_nat (length (List.filter p candidates))) in
      let n := f_of_Z (Z.of_nat (length candidates)) in
      (fdiv (count (fun c => bool_decide (pc_ActionType c = "noop"))) n,
       fdiv (count (fun c => fltb (pc_Score c) (lit 2 10))) n)
  end.

(** The configuration of a mode; [safe_mode] also limits the depth to 1. *)
Definition mode_config (metaMode stabilityMode : string) (shouldExplore : bool) : GraphConfig :=
  let config := mkGraphConfig 3 stabilityMode shouldExplore (lit 15 100) in
  if bool_decide (metaMode = "direct") then config <| gc_MaxDepth := 1 |>
  else if bool_decide (metaMode = "conservative")
  then config <| gc_MaxDepth := 1 |> <| gc_StabilityMode := "safe_mode" |>
  else if bool_decide (metaMode = "exploratory") then config <| gc_ShouldExplore := true |>
  else config.

(** A candidate's signals, with the feedback of action memory and strategies. *)
Definition candidate_signals (globalFeedback : gmap string ActionFeedback)
    (strategyLearning : gmap string StrategyLearningFeedback) (c : PlannedActionCandidate) : ActionSignals :=
  let sig := mkSignals (pc_Score c) (lit 1 10) (pc_Confidence c) in
  let sig :=
    match globalFeedback !! pc_ActionType c with
    | Some fb =>
        if bool_decide (af_Recommendation fb = "avoid_action")
        then sig <| as_Risk := clamp01 (fadd (as_Risk sig) (lit 3 10)) |>
                 <| as_ExpectedValue := clamp01 (fsub (as_ExpectedValue sig) (lit 2 10)) |>
        else if bool_decide (af_Recommendation fb = "prefer_action")
        then sig <| as_Risk := clamp01 (fsub (as_Risk sig) (lit 5 100)) |>
                 <| as_ExpectedValue := clamp01 (fadd (as_ExpectedValue sig) (lit 1 10)) |>
        else sig
    | None => sig
    end in
  match strategyLearning !! pc_ActionType c with
  | Some sl =>
      if bool_decide (sl_Recommendation sl = "avoid_strategy")
      then sig <| as_Risk := clamp01 (fadd (as_Risk sig) (lit 2 10)) |>
      else if bool_decide (sl_Recommendation sl = "prefer_strategy")
      then sig <| as_ExpectedValue := clamp01 (fadd (as_ExpectedValue sig) (lit 5 100)) |>
      else sig
  | None => sig
  end.

(** Conservative mode skips actions that are not safe. *)
Definition considered (metaMode : string) (c : PlannedActionCandidate) : bool :=
  negb (bool_decide (metaMode = "conservative") && negb (isSafeAction (pc_ActionType c))).

Definition action_signals (metaMode : string) (candidates : list PlannedActionCandidate)
    (globalFeedback : gmap string ActionFeedback) (strategyLearning : gmap string StrategyLearningFeedback)
    : list string * gmap string ActionSignals :=
  let kept := List.filter (considered metaMode) candidates in
  (map pc_ActionType kept,
   fold_left (fun m c => <[pc_ActionType c := candidate_signals globalFeedback strategyLearning c]> m) kept ∅).

(** ** The adapter *)

Section adapter.
Context {X : Type} {U : UuidPkg} (a : GraphPlannerAdapter).
Abbreviation GP A := (St (Agent GraphState X) A).

Definition auditEvent (eventType : string) : GP unit :=
  if gp_auditor a then let! id := fresh_uuid in record_audit true eventType id else retS tt.

Definition update (f : GraphState → GraphState) : GP unit := fun s => (tt, s <| ag_db := f (ag_db s) |>).
Definition called (c : GraphCall) : GP unit := update (fun g => g <| gr_calls := gr_calls g ++ [c] |>).

(** An answer of an optional provider, or a default. *)
Definition ask {P A} (p : option P) (answer : P → nat → A) (otherwise : A) : GP A :=
  match p with Some p => reading (answer p) | None => retS otherwise end.

(** A loop that rebuilds a list. *)
Fixpoint traverse {A B} (f : A → GP B) (l : list A) : GP (list B) :=
  match l with
  | [] => retS []
  | x :: l => let! y := f x in let! ys := traverse f l in retS (y :: ys)
  end.

(** *** How to reason *)

(** The trigger's answer, unless governance blocks exploration. *)
Definition exploration_toggle (goalType : string) : GP bool :=
  let! trigger := ask (gp_explorationTrigger a) (fun p => p goalType) false in
  let! blocked := ask (gp_governance a) gp_IsExplorationBlocked false in
  retS (if blocked then false else trigger).

Definition missed_wins (feedback : gmap string string) : Z :=
  Z.of_nat (length (List.filter (fun e => bool_decide (snd e = "underexplored_path")) (map_to_list feedback))).

Definition meta_mode (decision : PlanningDecision) (globalFeedback : gmap string ActionFeedback)
    (stabilityMode : string) : GP string :=
  match gp_metaReasoning a with
  | None => retS "graph"
  | Some select =>
      let '(avgConfidence, avgRisk, failureRate) := computeSignalAverages (pd_Candidates decision) globalFeedback in
      let! fbMap := ask (gp_comparativeLearning a) (fun p => p (pd_GoalType decision)) ∅ in
      let '(noopRate, lowValueRate) := computeStagnationSignals (pd_Candidates decision) in
      let! avgConfidence := ask (gp_calibration a) (fun p => p avgConfidence) avgConfidence in
      reading (select (mkModeQuery (pd_GoalType decision) failureRate avgConfidence avgRisk stabilityMode
                         (missed_wins fbMap) noopRate lowValueRate))
  end.

Definition audit_mode_calibration (metaMode : string) : GP unit :=
  match gp_modeCalibration a with
  | Some calibrate =>
      if gp_auditor a then
        let! adjusted := reading (calibrate (lit 5 10) metaMode) in
        if feqb adjusted (lit 5 10) then retS tt else auditEvent "calibration.mode_applied"
      else retS tt
  | None => retS tt
  end.

(** A mode forced by governance dominates. *)
Definition governed_mode (metaMode : string) : GP string :=
  let! forcedMode := ask (gp_governance a) gp_EffectiveReasoningMode "" in
  if bool_decide (forcedMode ≠ "") && bool_decide (forcedMode ≠ metaMode)
  then let! _ := auditEvent "governance.override_applied" in retS forcedMode
  else retS metaMode.

(** *** Signals *)

(** One pass over the map of signals. *)
Fixpoint calibrate_entries (calibrate : float64 → GP float64) (entries : list (string * ActionSignals))
    (signals : gmap string ActionSignals) : GP (gmap string ActionSignals) :=
  match entries with
  | [] => retS signals
  | (action, sig) :: rest =>
      let! c := calibrate (as_Confidence sig) in
      calibrate_entries calibrate rest (<[action := sig <| as_Confidence := c |>]> signals)
  end.

Definition calibrate_with {P} (p : option P) (answer : P → float64 → nat → float64)
    (signals : gmap string ActionSignals) : GP (gmap string ActionSignals) :=
  match p with
  | None => retS signals
  | Some p => calibrate_entries (fun c => reading (answer p c)) (map_to_list signals) signals
  end.

(** Raw, then global, contextual and mode-specific calibration. *)
Definition calibrated_signals (goalType metaMode : string) (signals : gmap string ActionSignals)
    : GP (gmap string ActionSignals) :=
  let! signals := calibrate_with (gp_calibration a) (fun p c => p c) signals in
  let! signals := calibrate_with (gp_contextCalibration a) (fun p c => p c goalType) signals in
  calibrate_with (gp_modeCalibration a) (fun p c => p c metaMode) signals.

(** At least [noop]. *)
Definition graph_input (goalType : string) (candidateActions : list string)
    (signals : gmap string ActionSignals) (config : GraphConfig) : BuildInput :=
  match candidateActions with
  | [] => mkBuildInput goalType ["noop"] (<["noop" := mkSignals (lit 1 100) f0 f1]> signals) None config
  | _ => mkBuildInput goalType candidateActions signals None config
  end.

(** *** Arbitrated learning signals *)

Definition path_learning (goalType : string) : GP (option PathLearningSignals) :=
  match gp_pathLearning a with
  | None => retS None
  | Some p =>
      let! feedback := reading (GetAllPathFeedbackMap p goalType) in
      let! transition := reading (GetAllTransitionFeedbackMap p goalType) in
      retS (Some (mkPathLearning feedback transition))
  end.

Definition comparative_learning (goalType : string) : GP (option (gmap string string)) :=
  match gp_comparativeLearning a with
  | None => retS None
  | Some p => let! feedback := reading (p goalType) in retS (Some feedback)
  end.

Fixpoint calibrate_confidences (calibrate : float64 → GP float64) (entries : list (string * float64))
    : GP (gmap string float64) :=
  match entries with
  | [] => retS ∅
  | (sig, conf) :: rest =>
      let! c := calibrate conf in
      let! m := calibrate_confidences calibrate rest in
      retS (<[sig := c]> m)
  end.

Definition counterfactual (goalType : string) (scored : list DecisionPath) : GP (option CounterfactualPredictions) :=
  match gp_counterfactual a with
  | None => retS None
  | Some simulate =>
      let sig p := pathSignatureFromNodes (dp_Nodes p) in
      let scores := fold_left (fun m p => <[sig p := dp_FinalScore p]> m) scored ∅ in
      let lengths := fold_left (fun m p => <[sig p := Z.of_nat (length (dp_Nodes p))]> m) scored ∅ in
      let! id := fresh_uuid in
      let! _ := called (CallSimulate id goalType scores lengths) in
      let! export := reading (simulate goalType scores lengths) in
      if bool_decide (Predictions export = ∅) then retS None
      else
        match gp_calibration a with
        | None => retS (Some export)
        | Some calibrate =>
            let! scaled := calibrate_confidences (fun c => reading (calibrate c)) (map_to_list (Confidences export)) in
            retS (Some (mkCounterfactual (Predictions export) scaled))
        end
  end.

Definition audit_trace (tr : ArbitrationTrace) : GP unit :=
  let! _ := match ar_SuppressedSignals tr with
            | [] => retS tt
            | _ => auditEvent "arbitration.override_applied"
            end in
  let! _ := forS (fun rule => if bool_decide (rule = "conflict_neutralization")
                              then auditEvent "arbitration.conflict_detected" else retS tt) (ar_RulesApplied tr) in
  auditEvent "arbitration.resolved".

Definition emitArbitrationAudit (traces : list ArbitrationTrace) : GP unit := forS audit_trace traces.

Definition arbitrated (goalType stabilityMode : string) (shouldExplore : bool) (scored : list DecisionPath)
    : GP (list DecisionPath * list ArbitrationTrace) :=
  let! learning := path_learning goalType in
  let! comparative := comparative_learning goalType in
  let! predictions := counterfactual goalType scored in
  let! calibratedConfidence := ask (gp_calibration a) (fun p => p (lit 8 10)) (lit 8 10) in
  let '(scored, traces) := ApplyArbitratedAdjustments scored
    (Some (mkArbitrated learning comparative predictions stabilityMode calibratedConfidence shouldExplore)) in
  let! _ := update (fun g => g <| gr_lastArbTraces := traces |>) in
  let! _ := emitArbitrationAudit traces in
  retS (scored, traces).

(** *** Layers of adjustments *)

Definition first_action (p : DecisionPath) : option string :=
  match dp_Nodes p with n :: _ => Some (dn_ActionType n) | [] => None end.

(** Every path, and the paths whose first action is of a kind. *)
Definition boost_all (boost : float64) (scored : list DecisionPath) : list DecisionPath :=
  map (fun p => boosted p boost) scored.
Definition boost_first (related : string → bool) (boost : float64) (scored : list DecisionPath) : list DecisionPath :=
  map (fun p => match first_action p with
                | Some act => if related act then boosted p boost else p
                | None => p
                end) scored.

Definition penalized (p : DecisionPath) (penalty : float64) : DecisionPath :=
  p <| dp_FinalScore := clamp01 (fsub (dp_FinalScore p) penalty) |>.

Definition resource_penalty (metaMode goalType stabilityMode : string) (scored : list DecisionPath)
    : GP (list DecisionPath) :=
  match gp_resourceOptimization a with
  | None => retS scored
  | Some penalize =>
      traverse (fun p =>
        let! penalty := reading (penalize metaMode goalType (Z.of_nat (length (dp_Nodes p))) stabilityMode) in
        retS (if fltb f0 penalty then penalized p penalty else p)) scored
  end.

(** A path rejected by the constraints gets the score 0, for this layer. *)
Definition align_path (score : string → float64 → nat → Alignment) (p : DecisionPath)
    : GP (DecisionPath * option GoalTraceEntry) :=
  match first_action p with
  | None => retS (p, None)
  | Some act =>
      let! al := reading (score act (dp_TotalRisk p)) in
      retS (if al_Rejected al then (p <| dp_FinalScore := f0 |>, Some (TraceRejected act (al_RejectReason al)))
            else if fltb f0 (al_Score al)
            then (boosted p (al_Score al), Some (TraceAligned act (al_Score al) (al_MatchedGoals al)))
            else (p, None))
  end.

Definition goal_alignment (scored : list DecisionPath) : GP (list DecisionPath) :=
  let! _ := update (fun g => g <| gr_lastGoalTrace := [] |>) in
  match gp_goalAlignment a with
  | None => retS scored
  | Some score =>
      let! aligned := traverse (align_path score) scored in
      let trace := omap snd aligned in
      let! _ := match trace with
                | [] => retS tt
                | _ => let! _ := update (fun g => g <| gr_lastGoalTrace := trace |>) in
                       auditEvent "goal_alignment.scored"
                end in
      retS (map fst aligned)
  end.

Definition income_boost (scored : list DecisionPath) : GP (list DecisionPath) :=
  match gp_incomeSignals a with
  | None => retS scored
  | Some p =>
      let! r := reading (ip_GetIncomeSignal p) in
      let '(bestScore, openCount) := r in
      if bool_decide (0 < openCount) && fltb f0 bestScore then
        let! _ := auditEvent "income.signal_applied" in
        retS (boost_first (ip_IsIncomeRelated p) (fmul bestScore (lit 15 100)) scored)
      else retS scored
  end.

(** Income-related by the income provider, when there is one. *)
Definition outcome_path (feedback : string → nat → float64) (p : DecisionPath) : GP DecisionPath :=
  match first_action p with
  | None => retS p
  | Some act =>
      match gp_incomeSignals a with
      | Some ip =>
          if ip_IsIncomeRelated ip act then
            let! f := reading (feedback act) in
            retS (if feqb f f0 then p else boosted p f)
          else retS p
      | None => retS p
      end
  end.

Definition outcome_feedback (scored : list DecisionPath) : GP (list DecisionPath) :=
  match gp_outcomeAttribution a with
  | None => retS scored
  | Some feedback =>
      let! scored := traverse (outcome_path feedback) scored in
      let! _ := auditEvent "outcome.attribution_applied" in
      retS scored
  end.

Definition signal_boost (goalType : string) (scored : list DecisionPath) : GP (list DecisionPath) :=
  match gp_signalIngestion a with
  | None => retS scored
  | Some count =>
      let! matchCount := reading (count goalType) in
      if bool_decide (0 < matchCount) then
        let boost := fmul (f_of_Z matchCount) (lit 3 100) in
        let boost := if fltb (lit 10 100) boost then lit 10 100 else boost in
        let! _ := auditEvent "signals.boost_applied" in
        retS (boost_first (fun _ => true) boost scored)
      else retS scored
  end.

Definition pressure_boost (scored : list DecisionPath) : GP (list DecisionPath) :=
  match gp_financialPressure a with
  | None => retS scored
  | Some p =>
      let! r := reading (fp_GetPressure p) in
      if fltb f0 (fst r) then
        let! _ := auditEvent "financial.pressure_applied" in
        retS (boost_first (fp_IsIncomeRelated p) (fmul (fst r) (lit 20 100)) scored)
      else retS scored
  end.

Definition capacity_penalty (scored : list DecisionPath) : GP (list DecisionPath) :=
  match gp_capacity a with
  | None => retS scored
  | Some capacity =>
      let! penalty := reading capacity in
      if fltb f0 penalty then
        let! _ := auditEvent "capacity.penalty_applied" in
        retS (map (fun p => penalized p penalty) scored)
      else retS scored
  end.

Definition strategy_path (p : PortfolioProvider) (path : DecisionPath) : GP DecisionPath :=
  match first_action path with
  | None => retS path
  | Some act =>
      if pp_IsStrategyRelated p act then
        let! boost := reading (pp_GetStrategyBoost p act) in
        retS (if feqb boost f0 then path else boosted path boost)
      else retS path
  end.

Definition portfolio_boost (scored : list DecisionPath) : GP (list DecisionPath) :=
  match gp_portfolio a with
  | None => retS scored
  | Some p =>
      let! scored := traverse (strategy_path p) scored in
      let! _ := auditEvent "portfolio.strategy_scored" in
      retS scored
  end.

Definition objective_boost (scored : list DecisionPath) : GP (list DecisionPath) :=
  match gp_objectiveFunction a with
  | None => retS scored
  | Some signal =>
      let! strength := reading signal in
      if feqb strength f0 then retS scored
      else
        let! _ := auditEvent "objective.signal_applied" in
        retS (boost_all strength scored)
  end.

Definition layers (metaMode goalType stabilityMode : string) (scored : list DecisionPath) : GP (list DecisionPath) :=
  let! scored := resource_penalty metaMode goalType stabilityMode scored in
  let! scored := goal_alignment scored in
  let! scored := income_boost scored in
  let! scored := outcome_feedback scored in
  let! scored := signal_boost goalType scored in
  let! scored := pressure_boost scored in
  let! scored := capacity_penalty scored in
  let! scored := portfolio_boost scored in
  objective_boost scored.

(** *** The decision *)

(** The paths of the graph, which the enumeration always finds
    ([DecisionGraphProps.graph_paths_found]), scored. *)
Definition scored_paths (input : BuildInput) (config : GraphConfig) : list DecisionPath :=
  EvaluateAllPaths (default [] (graph_paths (BuildGraph input))) config.

(** Provider and model for an override, when routing is wired. *)
Definition route_target (goalType : string) (override : StrategyOverride) : GP StrategyOverride :=
  match gp_providerRouting a with
  | None => retS override
  | Some route =>
      let! plan := reading (route goalType) in
      let! _ := if IsEmpty plan then retS tt else auditEvent "provider.target_selected" in
      retS (override <| so_SelectedProvider := pl_Provider plan |> <| so_SelectedModel := pl_Model plan |>)
  end.

(** The override for a selected path that starts with [firstAction]. *)
Definition selected_override (decision : PlanningDecision) (metaMode : string) (selection : PathSelection)
    (selected : DecisionPath) (firstAction : string) : GP StrategyOverride :=
  let! id := fresh_uuid in
  let override := no_override <| so_StrategyID := id |> <| so_DecisionID := id |> <| so_MetaMode := metaMode |>
                    <| so_PredictedConfidence := dp_TotalConfidence selected |> in
  let! override :=
    if bool_decide (firstAction = pd_SelectedActionType decision)
    then retS (override <| so_Reason := "graph agrees with tactical selection" |>)
    else route_target (pd_GoalType decision)
           (override <| so_Applied := true |> <| so_ActionType := firstAction |>
                     <| so_StrategyType := "decision_graph" |>
                     <| so_Reason := "graph_path: " +:+ ps_Reason selection |>) in
  retS (override <| so_PathSignature := pathSignatureFromNodes (dp_Nodes selected) |>
                 <| so_PathActionTypes := map dn_ActionType (dp_Nodes selected) |>
                 <| so_PathLength := Z.of_nat (length (dp_Nodes selected)) |>).

(** Snapshot, audit, metrics and replay pack.  The paths exported are those of the
    selection, which has sorted them. *)
Definition record_decision (start : time) (decision : PlanningDecision) (metaMode stabilityMode : string)
    (shouldExplore : bool) (config : GraphConfig) (traces : list ArbitrationTrace) (selection : PathSelection)
    (selected : DecisionPath) (override : StrategyOverride) : GP unit :=
  let goalType := pd_GoalType decision in
  let! _ := if gp_snapshotCapturer a
            then called (CallCapture (so_DecisionID override) goalType
                   (map (fun p => (pathSignatureFromNodes (dp_Nodes p), dp_FinalScore p)) (ps_Paths selection))
                   (so_PathSignature override) (dp_FinalScore selected))
            else retS tt in
  let! _ := if so_Applied override then auditEvent "decision_graph.override" else retS tt in
  let! _ := match gp_resourceOptimization a with
            | Some _ =>
                let! now := reading (gp_clock a) in
                called (CallRecordOutcome metaMode goalType (f_of_Z (Z.quot (now - start) 1000000))
                          (f_of_Z (gc_MaxDepth config)) (f_of_Z (Z.of_nat (length (dp_Nodes selected)))))
            | None => retS tt
            end in
  if gp_replayRecorder a
  then called (CallRecordReplay (so_DecisionID override) goalType metaMode (so_PathSignature override)
                 (dp_TotalConfidence selected) stabilityMode shouldExplore traces)
  else retS tt.

(** An override that needs a person's review says so. *)
Definition reviewed (override : StrategyOverride) : GP StrategyOverride :=
  if so_Applied override then
    let! review := ask (gp_governance a) gp_RequiresHumanReview false in
    if review then
      let! _ := auditEvent "governance.review_required" in
      retS (override <| so_Reason := "governance_review_required: " +:+ so_Reason override |>)
    else retS override
  else retS override.

Definition conclude (start : time) (decision : PlanningDecision) (metaMode stabilityMode : string)
    (shouldExplore : bool) (config : GraphConfig) (traces : list ArbitrationTrace) (scored : list DecisionPath)
    : GP StrategyOverride :=
  let selection := SelectBestPath scored config in
  let! _ := update (fun g => g <| gr_lastSelection := Some selection |>) in
  let! _ := auditEvent "decision_graph.evaluated" in
  match ps_Selected selection with
  | None => retS (no_override <| so_Reason := "no path selected" |>)
  | Some selected =>
      match first_action selected with
      | None => retS (no_override <| so_Reason := "no path selected" |>)
      | Some firstAction =>
          if bool_decide (firstAction = "noop")
          then retS (no_override <| so_Reason := "graph selected noop" |>)
          else
            let! override := selected_override decision metaMode selection selected firstAction in
            let! _ := record_decision start decision metaMode stabilityMode shouldExplore config traces
                        selection selected override in
            reviewed override
      end
  end.

Definition EvaluateForPlanner (decision : PlanningDecision) (globalFeedback : gmap string ActionFeedback)
    (strategyLearning : gmap string StrategyLearningFeedback) : GP StrategyOverride :=
  let goalType := pd_GoalType decision in
  let! start := reading (gp_clock a) in
  let! stabilityMode := ask (gp_stability a) (fun p => p) "normal" in
  let! shouldExplore := exploration_toggle goalType in
  let! metaMode := meta_mode decision globalFeedback stabilityMode in
  let! _ := audit_mode_calibration metaMode in
  let! metaMode := governed_mode metaMode in
  let config := mode_config metaMode stabilityMode shouldExplore in
  let '(candidateActions, signals) :=
    action_signals metaMode (pd_Candidates decision) globalFeedback strategyLearning in
  let! signals := calibrated_signals goalType metaMode signals in
  let input := graph_input goalType candidateActions signals config in
  let! r := arbitrated goalType stabilityMode shouldExplore (scored_paths input config) in
  let! scored := layers metaMode goalType stabilityMode (fst r) in
  conclude start decision metaMode stabilityMode shouldExplore config (snd r) scored.
End adapter.
