(* ===== verification/GraphPlannerProps.v ===== *)
(** * What the graph planner may override

    Layers change scores, never paths; so the selected path is a plan over the
    candidates considered, and the override is bounded by the reasoning mode,
    which governance may force. *)

From stdpp Require Import base gmap strings list tactics numbers fin_maps.
From Stdlib Require Import ZArith Lia.
From S2P Require Import Prelude GoFloat GoTime GoSort Models AgentWorld ActionMemory TacticalPlanner Arbitration ProviderRouting DecisionGraph DecisionGraphProps.
From S2P Require Import DecisionGraphProps GraphEvaluator GraphPlanner.

Open Scope Z_scope.

(** ** Layers keep the paths *)

Definition same_paths (ps qs : list DecisionPath) : Prop := map dp_Nodes qs = map dp_Nodes ps.

Lemma same_paths_map f ps : (∀ p, dp_Nodes (f p) = dp_Nodes p) → same_paths ps (map f ps).
Proof. intros H. unfold same_paths. rewrite map_map. apply map_ext. exact H. Qed.

Section layers.
Context {X : Type} {U : UuidPkg} (a : GraphPlannerAdapter).
Abbreviation GP A := (St (Agent GraphState X) A).
Implicit Types ps : list DecisionPath.

Definition keeps_paths (layer : list DecisionPath → GP (list DecisionPath)) : Prop :=
  ∀ ps, returns (layer ps) (same_paths ps).

Lemma returns_always {A B} (c : GP A) (k : A → GP B) (P : B → Prop) :
  (∀ x, returns (k x) P) → returns (bindS c k) P.
Proof using. intros H. apply (returns_bind _ _ (fun _ => True)); [apply returns_any|auto]. Qed.

Lemma traverse_keeps (f : DecisionPath → GP DecisionPath) :
  (∀ p, returns (f p) (fun q => dp_Nodes q = dp_Nodes p)) → keeps_paths (traverse f).
Proof using.
  intros Hf ps. induction ps as [|p ps IH]; cbn [traverse]; [by apply returns_ret|].
  apply (returns_bind _ _ _ _ (Hf p)). intros q Hq. apply (returns_bind _ _ _ _ IH). intros qs Hqs.
  apply returns_ret. unfold same_paths in *. cbn. by rewrite Hq, Hqs.
Qed.

Lemma same_paths_ret ps : returns (W := Agent GraphState X) (retS ps) (same_paths ps).
Proof using. by apply returns_ret. Qed.

Lemma boost_first_keeps related boost ps : same_paths ps (boost_first related boost ps).
Proof using.
  apply same_paths_map. intros p. destruct (first_action p); [|done]. by destruct (related _).
Qed.

(** Steps that leave scores, or boost the paths. *)
Ltac layer :=
  repeat first
    [ progress (intros; cbn [fst snd])
    | apply same_paths_ret
    | apply returns_always
    | apply returns_ret; first [apply boost_first_keeps | by apply same_paths_map | done]
    | apply returns_ret
    | match goal with
      | |- context [match ?x with _ => _ end] => destruct x
      end
    | done ].

Lemma resource_penalty_keeps mode goal stability : keeps_paths (resource_penalty a mode goal stability).
Proof using.
  intros ps. unfold resource_penalty. destruct (gp_resourceOptimization a); [|apply same_paths_ret].
  apply traverse_keeps. intros p. apply returns_always. intros x. apply returns_ret. by destruct (fltb f0 x).
Qed.

Lemma align_path_keeps score p : returns (align_path (X := X) score p) (fun r => dp_Nodes (fst r) = dp_Nodes p).
Proof using.
  unfold align_path. destruct (first_action p); [|by apply returns_ret]. apply returns_always. intros al.
  apply returns_ret. destruct (al_Rejected al); [done|]. by destruct (fltb _ _).
Qed.

Lemma goal_alignment_keeps : keeps_paths (goal_alignment a).
Proof using.
  intros ps. unfold goal_alignment. apply returns_always. intros _.
  destruct (gp_goalAlignment a) as [score|]; [|apply same_paths_ret].
  apply (returns_bind _ _ (fun rs => map (dp_Nodes ∘ fst) rs = map dp_Nodes ps)).
  - induction ps as [|p ps IH]; cbn [traverse]; [by apply returns_ret|].
    apply (returns_bind _ _ _ _ (align_path_keeps score p)). intros r Hr.
    apply (returns_bind _ _ _ _ IH). intros rs Hrs. apply returns_ret. cbn. by rewrite Hr, Hrs.
  - intros rs Hrs. apply returns_always. intros _. apply returns_ret. unfold same_paths. by rewrite map_map.
Qed.

Lemma income_boost_keeps : keeps_paths (income_boost a).
Proof using. intros ps. unfold income_boost. layer. Qed.

Lemma outcome_feedback_keeps : keeps_paths (outcome_feedback a).
Proof using.
  intros ps. unfold outcome_feedback. destruct (gp_outcomeAttribution a) as [f|]; [|apply same_paths_ret].
  apply (returns_bind _ _ (same_paths ps)); [|intros qs Hqs; apply returns_always; intros _; by apply returns_ret].
  apply traverse_keeps. intros p. unfold outcome_path. layer.
Qed.

Lemma signal_boost_keeps goal : keeps_paths (signal_boost a goal).
Proof using. intros ps. unfold signal_boost. cbv zeta. layer. Qed.

Lemma pressure_boost_keeps : keeps_paths (pressure_boost a).
Proof using. intros ps. unfold pressure_boost. layer. Qed.

Lemma capacity_penalty_keeps : keeps_paths (capacity_penalty a).
Proof using. intros ps. unfold capacity_penalty. layer. Qed.

Lemma portfolio_boost_keeps : keeps_paths (portfolio_boost a).
Proof using.
  intros ps. unfold portfolio_boost. destruct (gp_portfolio a) as [p|]; [|apply same_paths_ret].
  apply (returns_bind _ _ (same_paths ps)); [|intros qs Hqs; apply returns_always; intros _; by apply returns_ret].
  apply traverse_keeps. intros q. unfold strategy_path. layer.
Qed.

Lemma objective_boost_keeps : keeps_paths (objective_boost a).
Proof using. intros ps. unfold objective_boost, boost_all. layer. Qed.

Lemma keeps_then (f g : list DecisionPath → GP (list DecisionPath)) : keeps_paths f → keeps_paths g →
  keeps_paths (fun ps => bindS (f ps) g).
Proof using.
  intros Hf Hg ps. apply (returns_bind _ _ _ _ (Hf ps)). intros qs Hqs.
  eapply returns_weaken; [apply Hg|]. intros rs Hrs. unfold same_paths in *. congruence.
Qed.

Lemma layers_keep mode goal stability : keeps_paths (layers a mode goal stability).
Proof using.
  unfold layers.
  apply keeps_then; [apply resource_penalty_keeps|]. apply keeps_then; [apply goal_alignment_keeps|].
  apply keeps_then; [apply income_boost_keeps|]. apply keeps_then; [apply outcome_feedback_keeps|].
  apply keeps_then; [apply signal_boost_keeps|]. apply keeps_then; [apply pressure_boost_keeps|].
  apply keeps_then; [apply capacity_penalty_keeps|].
  apply keeps_then; [apply portfolio_boost_keeps|apply objective_boost_keeps].
Qed.

Lemma arbitrated_keeps goal stability explore ps :
  returns (arbitrated (X := X) a goal stability explore ps) (fun r => same_paths ps (fst r)).
Proof using.
  unfold arbitrated. do 4 (apply returns_always; intros ?). cbn [ApplyArbitratedAdjustments].
  do 2 (apply returns_always; intros ?). apply returns_ret. by apply same_paths_map.
Qed.
End layers.

(** ** The selected path *)

Lemma SelectBestPath_elem ps config p : ps_Selected (SelectBestPath ps config) = Some p → p ∈ ps.
Proof.
  unfold SelectBestPath. destruct ps as [|p0 ps0] eqn:Eps; [done|]. rewrite <- Eps. cbv zeta.
  assert (Hs : ∀ q, q ∈ sortPaths ps → q ∈ ps) by (intros q; unfold sortPaths; by rewrite insertionSort_elem).
  assert (Hv : ∀ q, q ∈ List.filter is_viable (sortPaths ps) → q ∈ ps).
  { intros q. rewrite list_elem_of_In, filter_In, <- list_elem_of_In. intros [Hq _]. by apply Hs. }
  destruct (List.filter is_viable (sortPaths ps)) as [|first rest].
  { destruct (List.find isNoopPath (sortPaths ps)) as [q|] eqn:Ef; cbn; [|done]. intros [= ->].
    apply find_some in Ef as [Hi _]. apply Hs. by apply list_elem_of_In. }
  assert (Hbest : fst (best_viable first rest) ∈ first :: rest).
  { destruct rest as [|second rest]; cbn; [by left|]. destruct (_ && _); cbn; [right|]; by left. }
  destruct (best_viable first rest) as [best reason]. cbn [fst] in Hbest.
  assert (Hplain : Some best = Some p → p ∈ ps) by (intros [= <-]; by apply Hv).
  destruct (_ && _); [|exact Hplain].
  destruct (findSecondBestPath (first :: rest) best) as [q|] eqn:Ef; [|exact Hplain].
  destruct (fltb _ _); [|exact Hplain]. cbn. intros [= ->]. apply Hv.
  unfold findSecondBestPath in Ef. apply find_some in Ef as [Hi _]. by apply list_elem_of_In.
Qed.

(** The actions of a path's nodes, and their signature. *)
Lemma nodes_from_actions goal signals d acts : map dn_ActionType (nodes_from goal signals d acts) = acts.
Proof. revert d. induction acts as [|a acts IH]; intros d; cbn; [done|]. by rewrite IH. Qed.

Lemma scored_paths_plans input config ns : ns ∈ map dp_Nodes (scored_paths input config) →
  ∃ acts, plan input acts ∧ ns = nodes_from (bi_GoalType input) (bi_Signals input) 1 acts.
Proof.
  unfold scored_paths, EvaluateAllPaths. destruct (graph_paths_found input) as (paths & E & Hq). rewrite E. cbn.
  rewrite map_map, list_elem_of_In, in_map_iff. intros (q & <- & Hin). apply list_elem_of_In in Hin.
  pose proof (proj1 (Hq q) Hin) as (x & rest & Hx & Hr & ->).
  exists (x :: rest). split.
  - pose proof (BuildGraph_built input) as Hb. apply route_linked in Hr as [H1 H2]; [|done]. cbn [plan length].
    split; [by apply (bu_roots _ _ Hb)|]. split; [done|lia].
  - unfold plan_path. by destruct (nodes_from _ _ _ _) eqn:En.
Qed.

(** ** Specification *)

Definition mode_depth (mode : string) : Z :=
  if bool_decide (mode = "direct") || bool_decide (mode = "conservative") then 1 else 3.

(** The path [o] carries: a candidate's action that does something, safe in
    conservative mode, continued along the transitions to the depth of the mode. *)
Definition carries_plan (decision : PlanningDecision) (o : StrategyOverride) : Prop :=
  ∃ c rest, c ∈ pd_Candidates decision ∧ so_PathActionTypes o = pc_ActionType c :: rest ∧
    pc_ActionType c ≠ "noop" ∧
    (so_MetaMode o = "conservative" → pc_ActionType c = "log_recommendation") ∧
    linked (defaultTransitions (pd_GoalType decision)) (pc_ActionType c) rest ∧
    so_PathLength o = Z.of_nat (length (so_PathActionTypes o)) ∧
    so_PathLength o ≤ mode_depth (so_MetaMode o).

(** The action overrides the tactical choice exactly when it differs from it. *)
Definition overrides_when_different (decision : PlanningDecision) (o : StrategyOverride) : Prop :=
  ∀ act rest, so_PathActionTypes o = act :: rest →
    if bool_decide (act = pd_SelectedActionType decision) then so_Applied o = false ∧ so_ActionType o = ""
    else so_Applied o = true ∧ so_ActionType o = act.

Definition does_nothing (o : StrategyOverride) : Prop :=
  so_Applied o = false ∧ so_ActionType o = "" ∧ so_PathActionTypes o = [] ∧ so_SelectedProvider o = "".

Definition sound_override (decision : PlanningDecision) (o : StrategyOverride) : Prop :=
  does_nothing o ∨ (carries_plan decision o ∧ overrides_when_different decision o).

Definition review_prefix : string := "governance_review_required: ".

(** ** Correctness *)

Lemma mode_config_depth mode stability explore :
  EffectiveMaxDepth (mode_config mode stability explore) ≤ mode_depth mode ∧
  (stability = "safe_mode" → EffectiveMaxDepth (mode_config mode stability explore) = 1).
Proof.
  unfold mode_config, mode_depth, EffectiveMaxDepth. split.
  - repeat (case_bool_decide; cbn in *; try congruence; try lia).
  - intros ->. repeat (case_bool_decide; cbn in *; try congruence; try lia).
Qed.

Lemma considered_action mode candidates fb sl act : act ∈ fst (action_signals mode candidates fb sl) →
  ∃ c, c ∈ candidates ∧ pc_ActionType c = act ∧ (mode = "conservative" → isSafeAction act = true).
Proof.
  unfold action_signals. cbn [fst]. rewrite list_elem_of_In, in_map_iff. intros (c & <- & Hc).
  apply filter_In in Hc as [Hc Hk]. exists c. split; [by apply list_elem_of_In|]. split; [done|].
  intros ->. unfold considered in Hk. rewrite bool_decide_true in Hk by done.
  cbn [andb] in Hk. by rewrite negb_involutive in Hk.
Qed.

(** A plan over the input that does not begin with [noop] begins with a
    candidate: [noop] is what the input falls back to. *)
Lemma graph_input_plan goal actions signals config act rest :
  plan (graph_input goal actions signals config) (act :: rest) → act ≠ "noop" →
  act ∈ actions ∧ linked (defaultTransitions goal) act rest ∧
  Z.of_nat (S (length rest)) ≤ EffectiveMaxDepth config.
Proof.
  unfold graph_input. destruct actions as [|x actions]; cbn [plan bi_CandidateActions bi_Config length].
  - intros (H & _) Hne. rewrite list_elem_of_singleton in H. done.
  - by intros (H1 & H2 & H3) _.
Qed.

Section decisions.
Context {X : Type} {U : UuidPkg} (a : GraphPlannerAdapter) (decision : PlanningDecision).
Abbreviation GP A := (St (Agent GraphState X) A).

(** What the override becomes before it is recorded and reviewed. *)
Definition override_for (mode : string) (p : DecisionPath) (act : string) (o : StrategyOverride) : Prop :=
  so_MetaMode o = mode ∧ so_PathActionTypes o = map dn_ActionType (dp_Nodes p) ∧
  so_PathLength o = Z.of_nat (length (dp_Nodes p)) ∧
  if bool_decide (act = pd_SelectedActionType decision) then so_Applied o = false ∧ so_ActionType o = ""
  else so_Applied o = true ∧ so_ActionType o = act.

Lemma selected_override_returns mode selection p act :
  returns (selected_override (X := X) a decision mode selection p act) (override_for mode p act).
Proof using.
  unfold selected_override. apply returns_always. intros id. cbv zeta.
  apply (returns_bind _ _ (fun o => so_MetaMode o = mode ∧
    if bool_decide (act = pd_SelectedActionType decision) then so_Applied o = false ∧ so_ActionType o = ""
    else so_Applied o = true ∧ so_ActionType o = act)).
  - destruct (bool_decide (act = _)); [by apply returns_ret|].
    unfold route_target. destruct (gp_providerRouting a); [|by apply returns_ret].
    do 2 (apply returns_always; intros ?). by apply returns_ret.
  - intros o [Hm Ho]. by apply returns_ret.
Qed.

(** Review only changes the reason. *)
Definition reviewed_from (o o' : StrategyOverride) : Prop :=
  o' = o <| so_Reason := so_Reason o' |> ∧
  ∀ gov, gp_governance a = Some gov → (∀ n, gp_RequiresHumanReview gov n = true) → so_Applied o = true →
    String.prefix review_prefix (so_Reason o') = true.

Lemma reviewed_returns o : returns (reviewed (X := X) a o) (reviewed_from o).
Proof using.
  unfold reviewed. destruct (so_Applied o) eqn:Ea.
  2:{ apply returns_ret. split; [by destruct o|congruence]. }
  apply (returns_bind _ _ (fun b => ∀ gov, gp_governance a = Some gov →
    (∀ n, gp_RequiresHumanReview gov n = true) → b = true)).
  - unfold ask. destruct (gp_governance a) as [gov|]; [|by apply returns_ret].
    intros s gov' [= <-] H. apply H.
  - intros [|] Hb.
    + apply returns_always. intros _. apply returns_ret. split; [by destruct o|]. intros _ _ _ _. apply prefix_app.
    + apply returns_ret. split; [by destruct o|]. intros gov Hg Hr. by specialize (Hb gov Hg Hr).
Qed.

(** The facts about the reasoning mode that the readings fix. *)
Definition mode_fact (mode : string) : Prop :=
  ∀ gov f, gp_governance a = Some gov → (∀ n, gp_EffectiveReasoningMode gov n = f) → f ≠ "" → mode = f.

Definition stability_fact (stability : string) : Prop :=
  ∀ s, gp_stability a = Some s → (∀ n, s n = "safe_mode") → stability = "safe_mode".

Lemma governed_mode_fact mode : returns (governed_mode (X := X) a mode) mode_fact.
Proof using.
  unfold governed_mode.
  apply (returns_bind _ _ (fun f' => ∀ gov f, gp_governance a = Some gov →
    (∀ n, gp_EffectiveReasoningMode gov n = f) → f' = f)).
  - unfold ask. destruct (gp_governance a) as [gov|]; [|by apply returns_ret].
    intros s gov' f [= <-] H. apply H.
  - intros f' Hf'. destruct (bool_decide (f' ≠ "") && bool_decide (f' ≠ mode)) eqn:E.
    + apply returns_always. intros _. apply returns_ret. intros gov f Hg H _. by apply (Hf' gov).
    + apply returns_ret. intros gov f Hg H Hne. pose proof (Hf' gov f Hg H) as ->.
      apply andb_false_iff in E as [E|E]; apply bool_decide_eq_false in E; [done|].
      destruct (decide (f = mode)); [done|by destruct E].
Qed.

Lemma stability_returns : returns (W := Agent GraphState X) (ask (gp_stability a) (fun p => p) "normal") stability_fact.
Proof using.
  unfold ask. destruct (gp_stability a) as [s|] eqn:E; [|apply returns_ret; intros s' Hs'; congruence].
  intros w s' Hs' H. rewrite E in Hs'. injection Hs' as <-. apply H.
Qed.

(** What holds of the returned override, whatever the providers answer. *)
Definition planner_promise (o : StrategyOverride) : Prop :=
  sound_override decision o ∧
  (so_PathActionTypes o ≠ [] → mode_fact (so_MetaMode o)) ∧
  (∀ s, gp_stability a = Some s → (∀ n, s n = "safe_mode") → so_PathLength o ≤ 1) ∧
  (∀ gov, gp_governance a = Some gov → (∀ n, gp_RequiresHumanReview gov n = true) → so_Applied o = true →
    String.prefix review_prefix (so_Reason o) = true).

Lemma nothing_promised reason : planner_promise (no_override <| so_Reason := reason |>).
Proof using. split; [by left|]. split; [done|]. split; [done|]. by intros gov _ _ H. Qed.

Lemma chosen_promised mode stability explore fb sl signals p act o o' :
  let config := mode_config mode stability explore in
  let input := graph_input (pd_GoalType decision) (fst (action_signals mode (pd_Candidates decision) fb sl)) signals config in
  (∃ acts, plan input acts ∧ dp_Nodes p = nodes_from (bi_GoalType input) (bi_Signals input) 1 acts) →
  first_action p = Some act → act ≠ "noop" → mode_fact mode → stability_fact stability →
  override_for mode p act o → reviewed_from o o' → planner_promise o'.
Proof using.
  intros config input (acts & Hplan & Hnodes) Hfirst Hne Hmode Hstab (Hm & Hacts & Hlen & Happ) [Ho' Hrev].
  destruct acts as [|x rest]; [done|]. unfold first_action in Hfirst. rewrite Hnodes in Hfirst. cbn in Hfirst.
  injection Hfirst as ->. destruct (graph_input_plan _ _ _ _ _ _ Hplan Hne) as (Hact & Hlink & Hdepth).
  fold config in Hdepth. destruct (mode_config_depth mode stability explore) as [Hd1 Hd2].
  rewrite Hnodes, nodes_from_actions in Hacts.
  assert (El : Z.of_nat (length (dp_Nodes p)) = Z.of_nat (S (length rest))).
  { rewrite <- (length_map dn_ActionType), Hnodes, nodes_from_actions. done. }
  assert (Eo : so_MetaMode o' = mode ∧ so_PathActionTypes o' = act :: rest ∧
               so_PathLength o' = Z.of_nat (S (length rest)) ∧ so_Applied o' = so_Applied o ∧
               so_ActionType o' = so_ActionType o) by (rewrite Ho'; cbn; rewrite <- El; auto).
  destruct Eo as (E1 & E2 & E3 & E4 & E5).
  destruct (considered_action _ _ _ _ _ Hact) as (c & Hc & <- & Hsafe).
  split; [right; split|].
  - exists c, rest. split; [done|]. split; [done|]. split; [done|]. split.
    { rewrite E1. intros Hcons. specialize (Hsafe Hcons). unfold isSafeAction in Hsafe.
      by apply orb_true_iff in Hsafe as [H|H]; apply bool_decide_eq_true in H. }
    split; [done|]. rewrite E1, E2, E3. split; [done|]. unfold config in *. lia.
  - intros y rest' Hy. rewrite E2 in Hy. injection Hy as <- <-. by rewrite E4, E5.
  - rewrite E1. split; [done|]. split.
    + intros s Hs H. specialize (Hstab s Hs H). rewrite E3. specialize (Hd2 Hstab). unfold config in *. lia.
    + intros gov Hg H Ha. apply (Hrev gov); [done|done|]. by rewrite <- E4.
Qed.

Lemma conclude_promised start mode stability explore fb sl signals traces scored :
  let config := mode_config mode stability explore in
  let input := graph_input (pd_GoalType decision) (fst (action_signals mode (pd_Candidates decision) fb sl)) signals config in
  same_paths (scored_paths input config) scored → mode_fact mode → stability_fact stability →
  returns (conclude (X := X) a start decision mode stability explore config traces scored) planner_promise.
Proof using.
  intros config input Hsame Hmode Hstab. unfold conclude. do 2 (apply returns_always; intros ?).
  destruct (ps_Selected _) as [p|] eqn:Es; [|apply returns_ret, nothing_promised].
  destruct (first_action p) as [act|] eqn:Ef; [|apply returns_ret, nothing_promised].
  case_bool_decide as Hnoop; [apply returns_ret, nothing_promised|].
  apply (returns_bind _ _ _ _ (selected_override_returns _ _ _ _)). intros o Ho. apply returns_always. intros _.
  eapply returns_weaken; [apply reviewed_returns|]. intros o' Ho'.
  refine (chosen_promised mode stability explore fb sl signals p act o o' _ Ef Hnoop Hmode Hstab Ho Ho').
  apply (scored_paths_plans input config). unfold same_paths in Hsame. rewrite <- Hsame. apply list_elem_of_In, in_map.
  apply list_elem_of_In. by eapply SelectBestPath_elem.
Qed.
End decisions.

Lemma EvaluateForPlanner_promised {X : Type} {U : UuidPkg} (a : GraphPlannerAdapter) (decision : PlanningDecision)
    (globalFeedback : gmap string ActionFeedback) (strategyLearning : gmap string StrategyLearningFeedback) :
  returns (EvaluateForPlanner (X := X) a decision globalFeedback strategyLearning) (planner_promise a decision).
Proof.
  unfold EvaluateForPlanner. apply returns_always. intros start.
  apply (returns_bind _ _ _ _ (stability_returns a)). intros stability Hstab.
  apply returns_always. intros explore. do 2 (apply returns_always; intros ?).
  apply (returns_bind _ _ _ _ (governed_mode_fact a _)). intros mode Hmode.
  destruct (action_signals mode _ _ _) as [actions signals0] eqn:Ea.
  apply returns_always. intros signals. cbv zeta.
  apply (returns_bind _ _ _ _ (arbitrated_keeps a _ _ _ _)). intros r Hr.
  apply (returns_bind _ _ _ _ (layers_keep a _ _ _ (fst r))). intros scored Hscored.
  pose proof (conclude_promised (X := X) a decision start mode stability explore globalFeedback strategyLearning
                signals (snd r) scored) as H.
  rewrite Ea in H. apply H; [|done|done]. unfold same_paths in *. by rewrite Hscored, Hr.
Qed.

(** C40: whatever its providers answer, the graph planner overrides the tactical
    choice only with a different action that is one of the decision's candidates
    and not [noop], namely the first action of a plan along the goal's transitions
    whose length the reasoning mode bounds; it is [log_recommendation] in
    conservative mode; otherwise it returns no action.  A reasoning mode forced by
    governance is the one used, safe mode keeps plans to one action, and an
    override that governance wants reviewed says so. *)
Theorem overrides_are_plans {X : Type} {U : UuidPkg} (a : GraphPlannerAdapter) (decision : PlanningDecision)
    (globalFeedback : gmap string ActionFeedback) (strategyLearning : gmap string StrategyLearningFeedback)
    (s : Agent GraphState X) :
  let o := fst (EvaluateForPlanner a decision globalFeedback strategyLearning s) in
  sound_override decision o ∧
  (so_PathActionTypes o ≠ [] → ∀ gov f, gp_governance a = Some gov →
     (∀ n, gp_EffectiveReasoningMode gov n = f) → f ≠ "" → so_MetaMode o = f) ∧
  (∀ st, gp_stability a = Some st → (∀ n, st n = "safe_mode") → so_PathLength o ≤ 1) ∧
  (∀ gov, gp_governance a = Some gov → (∀ n, gp_RequiresHumanReview gov n = true) → so_Applied o = true →
     String.prefix review_prefix (so_Reason o) = true).
Proof. exact (EvaluateForPlanner_promised a decision globalFeedback strategyLearning s). Qed.
