(* ===== verification/GraphPlannerDemo.v ===== *)
(** * Decision graphs on concrete inputs

    Witnesses of the theorems on paths, selection and overrides, and runs on
    which the code departs from its comments. *)

From stdpp Require Import base gmap strings list tactics numbers fin_maps.
From Stdlib Require Import ZArith Lia.
From S2P Require Import Prelude GoFloat GoTime GoSort Models AgentWorld ActionMemory TacticalPlanner Fixtures Governance Arbitration ProviderRouting.
From S2P Require Import DecisionGraph DecisionGraphProps GraphEvaluator GraphSelection GraphPlanner GraphPlannerProps.

Open Scope Z_scope.

(** ** Paths *)

Definition retry_input : BuildInput :=
  mkBuildInput "reduce_retry_rate" ["retry_job"; "log_recommendation"; "noop"]
    (list_to_map [("retry_job", mkSignals (lit 7 10) (lit 2 10) (lit 8 10));
                  ("log_recommendation", mkSignals (lit 4 10) (lit 5 100) (lit 9 10));
                  ("noop", mkSignals (lit 1 10) f0 f1)]) None DefaultGraphConfig.

(** Three plans from each action that has transitions, and [noop]. *)
Example retry_paths :
  (map (fun p => map dn_ActionType (dp_Nodes p)) <$> graph_paths (BuildGraph retry_input))
  = Some [["retry_job"]; ["retry_job"; "log_recommendation"];
          ["retry_job"; "log_recommendation"; "retry_job"];
          ["log_recommendation"]; ["log_recommendation"; "retry_job"];
          ["log_recommendation"; "retry_job"; "log_recommendation"]; ["noop"]].
Proof. vm_compute. reflexivity. Qed.

Lemma paths_are_the_plans_witness :
  ∃ paths, graph_paths (BuildGraph retry_input) = Some paths ∧
    plan_path retry_input ["retry_job"; "log_recommendation"; "retry_job"] ∈ paths.
Proof.
  destruct (paths_are_the_plans retry_input) as (_ & paths & E & _ & Hall). exists paths. split; [exact E|].
  apply Hall; [vm_compute; reflexivity|]. vm_compute. split; [left|]. split.
  - split; [left|]. split; [left|exact I].
  - discriminate.
Defined.

(** ** Selection *)

Definition scored_path (action : string) (score : float64) : DecisionPath :=
  (new_path [new_node "g" action 1 ∅]) <| dp_FinalScore := score |>.

Definition long_path (score : float64) : DecisionPath :=
  (new_path [new_node "g" "retry_job" 1 ∅; new_node "g" "log_recommendation" 2 ∅]) <| dp_FinalScore := score |>.

Definition close_paths : list DecisionPath :=
  [scored_path "noop" f0; scored_path "retry_job" (lit 5000 10000); long_path (lit 5005 10000)].

(** The shorter path wins the near tie; exploration then takes the other one,
    which is the best-ranked of all. *)
Example close_selection :
  let explore := DefaultGraphConfig <| gc_ShouldExplore := true |> in
  (ps_Reason (SelectBestPath close_paths DefaultGraphConfig), ps_Reason (SelectBestPath close_paths explore),
   ps_Selected (SelectBestPath close_paths explore))
  = ("shorter_path_tiebreak", "exploration_override_second_best", Some (long_path (lit 5005 10000))).
Proof. vm_compute. reflexivity. Qed.

(** Every path is rejected and one is [noop]: the reason is not the documented
    fallback. *)
Example rejected_selection :
  let r := SelectBestPath [scored_path "retry_job" f0; scored_path "noop" f0] DefaultGraphConfig in
  (first_action <$> ps_Selected r, ps_Reason r) = (Some (Some "noop"), "highest_final_score").
Proof. vm_compute. reflexivity. Qed.

Lemma close_numeric p : p ∈ close_paths → is_nan (dp_FinalScore p) = false.
Proof. unfold close_paths. rewrite !elem_of_cons, elem_of_nil. by intros [->|[->|[->|[]]]]; vm_compute. Defined.

Lemma selection_exact_witness : ps_Selected (SelectBestPath close_paths DefaultGraphConfig) ≠ None.
Proof.
  destruct (selection_exact close_paths DefaultGraphConfig close_numeric) as (_ & _ & _ & Hnone & _).
  intros H. apply Hnone in H. vm_compute in H. discriminate.
Defined.

(** ** Overrides *)

#[local] Existing Instance demo_uuid.

Definition demo_candidate (action : string) (score : float64) (rejected : bool) : PlannedActionCandidate :=
  mkCandidate action "reduce_retry_rate" score (lit 8 10) [] rejected "".

Definition demo_decision : PlanningDecision :=
  mkDecision "goal-1" "reduce_retry_rate"
    [demo_candidate "retry_job" (lit 7 10) false; demo_candidate "log_recommendation" (lit 5 10) false;
     demo_candidate "noop" (lit 4 10) false] "retry_job" "" 0.

Definition bare_planner : GraphPlannerAdapter :=
  mkGraphPlanner (fun n => Z.of_nat n) None true None None None false None None None None None None None false
    None None None None None None None None None.

(** Governance as its controller answers while the state is [st]. *)
Definition governed_by (st : GovernanceState) : GovernanceProvider :=
  mkGovernanceProvider (fun _ => IsExplorationBlocked st) (fun _ => EffectiveReasoningMode st)
    (fun _ => gs_RequireHumanReview st).

#[export] Instance GraphPlannerAdapter_settable : Settable GraphPlannerAdapter := fun r =>
  mkGraphPlanner (gp_clock r) (gp_stability r) (gp_auditor r) (gp_explorationTrigger r) (gp_pathLearning r)
    (gp_comparativeLearning r) (gp_snapshotCapturer r) (gp_counterfactual r) (gp_metaReasoning r)
    (gp_calibration r) (gp_contextCalibration r) (gp_modeCalibration r) (gp_resourceOptimization r)
    (gp_governance r) (gp_replayRecorder r) (gp_providerRouting r) (gp_goalAlignment r) (gp_incomeSignals r)
    (gp_outcomeAttribution r) (gp_financialPressure r) (gp_signalIngestion r) (gp_capacity r) (gp_portfolio r)
    (gp_objectiveFunction r).

Definition idle_agent : Agent GraphState unit := mkAgent (mkGraphState [] None [] []) tt 0 0 [] [].

Definition planned (a : GraphPlannerAdapter) (d : PlanningDecision) : StrategyOverride * Agent GraphState unit :=
  EvaluateForPlanner a d ∅ ∅ idle_agent.

Definition held : GovernanceState :=
  (DefaultState 0) <| gs_Mode := ModeSafeHold |> <| gs_RequireHumanReview := true |>.

(** In a safe hold the planner is conservative. *)
Example held_override :
  let o := fst (planned (bare_planner <| gp_governance := Some (governed_by held) |>) demo_decision) in
  (so_ActionType o, so_MetaMode o, so_PathLength o, so_Reason o)
  = ("log_recommendation", "conservative", 1, "governance_review_required: graph_path: highest_final_score").
Proof. vm_compute. reflexivity. Qed.

Lemma overrides_are_plans_witness :
  let o := fst (planned (bare_planner <| gp_governance := Some (governed_by held) |>) demo_decision) in
  so_MetaMode o = "conservative" ∧ String.prefix review_prefix (so_Reason o) = true.
Proof.
  destruct (overrides_are_plans (bare_planner <| gp_governance := Some (governed_by held) |>) demo_decision ∅ ∅
              idle_agent) as (_ & Hmode & _ & Hrev).
  split.
  - refine (Hmode _ (governed_by held) "conservative" eq_refl (fun _ => eq_refl) _); [|discriminate].
    vm_compute. discriminate.
  - refine (Hrev (governed_by held) eq_refl (fun _ => eq_refl) _). vm_compute. reflexivity.
Defined.

(** ** Departures

    A frozen system blocks exploration, but not the exploratory mode of
    meta-reasoning. *)
Definition frozen : GovernanceState :=
  (DefaultState 0) <| gs_Mode := ModeFrozen |> <| gs_FreezeExploration := true |>.

Example frozen_still_explores :
  let a := bare_planner <| gp_governance := Some (governed_by frozen) |>
             <| gp_metaReasoning := Some (fun _ _ => "exploratory") |> in
  let r := planned a demo_decision in
  (IsExplorationBlocked frozen, so_Reason (fst r), ps_ExplorationUsed <$> gr_lastSelection (ag_db (snd r)))
  = (true, "graph agrees with tactical selection", Some true).
Proof. vm_compute. reflexivity. Qed.

(** An action the goals' constraints reject is chosen after a later boost. *)
Example rejection_undone :
  let align act (_ : float64) (_ : nat) :=
    mkAlignment f0 [] (bool_decide (act = "retry_job")) "forbidden" in
  let d := mkDecision "goal-1" "reduce_retry_rate" [demo_candidate "retry_job" (lit 7 10) false] "noop" "" 0 in
  let before := fst (planned (bare_planner <| gp_goalAlignment := Some align |>) d) in
  let after := fst (planned (bare_planner <| gp_goalAlignment := Some align |>
                               <| gp_objectiveFunction := Some (fun _ => lit 8 100) |>) d) in
  (so_Applied before, so_Applied after, so_ActionType after) = (false, true, "retry_job").
Proof. vm_compute. reflexivity. Qed.

(** A candidate the tactical planner rejected is chosen all the same. *)
Example rejected_candidate_chosen :
  let d := mkDecision "goal-1" "reduce_retry_rate"
             [demo_candidate "noop" (lit 3 10) false; demo_candidate "retry_job" (lit (-5) 100) true] "noop" "" 0 in
  let prefer := mkPathLearningProvider (fun _ _ => {[ "retry_job" := "prefer_path"; "noop" := "avoid_path" ]}) (fun _ _ => ∅) in
  let o := fst (planned (bare_planner <| gp_pathLearning := Some prefer |>) d) in
  (so_Applied o, so_ActionType o) = (true, "retry_job").
Proof. vm_compute. reflexivity. Qed.
